(* ===== verification/_CoqProject ===== *)
-Q . S2P
Prelude.v
Memory.v
Kernel.v
Crash.v
Hw.v
Ata.v
CString.v
Spinlock.v
Sched.v
Wait.v
Stride.v
Kalloc.v
Console.v
Vm.v
VmSpec.v
VmCopy.v
Ide.v
IdePorts.v
Bytes.v
Bio.v
Driver.v
BioSpec.v
Log.v
LogSpec.v
Inode.v
Umem.v
Kbd.v
Tty.v
Fs.v
Txn.v
Balloc.v
InodeSpec.v
DinodeSpec.v
DataSpec.v
WriteSpec.v
OpSpec.v
File.v
PipeSpec.v
FileSpec.v
Proc.v
Exec.v
Bootmain.v
Syscall.v
Args.v
Sysfile.v
Trap.v
Typed.v
TypedFs.v
TypedSys.v
Machine.v
Apic.v
Mp.v
Main.v
Ints.v
Asm.v
TrapAsm.v
Fork.v
BootAsm.v
Mkfs.v
FsCheck.v
Grep.v
Ulib.v
Umalloc.v
Utils.v
Shell.v
ShellSpec.v
Usertests.v
Tests.v
TestSpec.v
System.v
