(* ===== verification/Prelude.v ===== *)
(** * xv6 with a stride scheduler

    A model of the teaching kernel xv6 (x86, uniprocessor semantics per CPU)
    extended with a stride scheduler, of the tool that builds its file system
    image and of its user programs, with the theorems that make them correct.
    The sources are the files under src/stride_scheduler_xv6; the definitions
    keep the names of the C functions.

    ** How the program is modelled

    All kernel state is one record, [kernel] (Kernel.v): the static tables
    (ptable, ftable, icache, bcache, the log, the CPUs), the locks, the raw
    memory of the pages that kalloc hands out, the disk, and what the devices
    show.  A pointer into a static table is an index; a pointer to a page is an
    address of [k_mem].  A kernel function is a computation of the monad [K]
    (this file and Kernel.v): it returns with a new state, or it ends in one of
    the ways kernel code can end - [Panic], [Hang] (it spins for ever),
    [NoFuel] - or it gives up the CPU: [Swtch s k] is a call of swtch in state
    [s], with [k] what the caller does once it is switched to again.  Machine
    integers are elements of Z wrapped explicitly by [u32], [i32], [u16], [u8].

    Loops that the C code does not bound take fuel.  For loops whose end the
    model can compute (scans of tables, copies, block by block transfers, the
    entries of the log) the caller passes a sufficient amount, and the theorems
    show that [NoFuel] is not reached; loops around sleep take the number
    [wakeups] of an [Env] (Bio.v), which is what other processes decide; loops
    that poll a device take a number [spin] of turns, which the theorems ask to
    reach the patience of the device.  Code outside src is a parameter: the
    addresses of assembly entry points and the embedded program ([Image],
    Proc.v), the addresses that the linker assigns ([Linked], Main.v) and the
    choice between the two disk drivers ([Env]).

    The devices are a parameter too: a state with the effect of reading and
    writing a port or a register mapped into memory ([Device], Hw.v).  What the
    code relies on of a device is a class of laws, with a concrete device that
    has them: the disk controller ([Ata], Ata.v), the interrupt controllers
    ([Ints], Ints.v).  Code that uses devices runs on a [board], the devices next
    to the kernel's state or the memory.

    Theorems about code that waits are stated in the logic of Crash.v:
    [wpr R C m s Q] says that [m] run from [s] neither panics nor hangs, that
    every state in which it gives up the CPU satisfies [C], and that it returns
    in a state satisfying [Q], when what happens while it waits is allowed by
    [R].  A crash is the loss of everything but [k_disk] in such a state.

    ** Parts, and what is shown of them

    - Prelude, Memory, Kernel, Bytes: integers, the monad, raw memory, the data
      structures of param.h, proc.h, buf.h, file.h and fs.h, byte arrays.
    - CString (string.c): memmove is correct for all overlaps, the fast path of
      memset agrees with the slow one, the string copies stay in bounds.
    - Spinlock (spinlock.c): mutual exclusion and the nesting of cli over any
      interleaving of CPUs.
    - Sched, Wait, Stride, Machine (proc.c, trap.c): both schedulers choose,
      charge and switch as they should; no wakeup is lost; over time CPU shares
      are proportional to tickets to within one stride, until limitpass
      overflows; and the code of scheduler, switches and clock interrupt
      refines that policy on a machine of compute-bound processes.
    - Kalloc (kalloc.c): free and owned pages partition memory whatever the
      sequence of calls; kfree refuses all else.
    - Console, Kbd, Tty (console.c, uart.c, kbd.c): number and format printing,
      the screen cursor, the line discipline.
    - Fork (forks and allocproc of proc.c): a child is a copy of its
      parent that returns from fork with 0, or memory has run out.
    - Vm, VmSpec, VmCopy, Umem (vm.c): page tables as maps; mappages and
      copyuvm are correct; user addresses are translated by the tables loaded.
    - Ide, Driver (ide.c, memide.c): a request completes with the interrupt;
      both drivers fulfil the contract [Driver], against which everything above
      them is proved.
    - Hw, Ata, IdePorts (x86.h, ide.c): the driver on the ports of the disk
      controller simulates the driver of Ide on every path.
    - Bootmain (bootmain.c): the loader puts the segments of the kernel on the
      disk into memory and finds its entry point.
    - Apic, Mp, Main, Ints (picirq.c, ioapic.c, lapic.c, timer.c, uart.c, mp.c,
      main.c, the descriptor tables of vm.c and trap.c): mpinit finds the
      processors of a table, but never ends on an entry it does not know; after
      the initialisation exactly the interrupts that trap handles are enabled,
      at the vectors where it expects them.
    - Bio, BioSpec (bio.c): the LRU cache; the contents of blocks as its clients
      see them.
    - Log, LogSpec (log.c): commit is atomic with respect to crashes, recovery
      is idempotent.
    - Inode, Fs, File (fs.c, file.c, pipe.c), and on top of the log Txn, Balloc,
      InodeSpec, DinodeSpec, DataSpec, WriteSpec, OpSpec, FileSpec: from the
      block allocator and bmap up to fileread and filewrite.  The file system is
      seen as a function from inode numbers to contents ([files]), with an
      invariant ([fs_inv]); reads deliver the file's bytes, writes replace them
      and change no other file, and a crash leaves whole transactions.
      FsCheck has a checker for the invariant and runs it on an image of Mkfs
      (mkfs.c).  PipeSpec: a pipe is a bounded first-in first-out queue.
    - Proc, Exec, Syscall, Sysfile, Trap (proc.c, exec.c, syscall.c, sysproc.c,
      sysfile.c, trap.c): processes, program loading, every system call, the
      trap handler.
    - Asm, TrapAsm (swtch.S, trapasm.S, vectors.pl, usys.S): the instructions that
      the assembly files use, on a processor with its registers, flags, stack and
      interrupt gates; a thread that calls swtch comes back as it left, an
      interrupt builds the trap frame and leaves no trace, a system call stub
      passes the number and the result.
    - BootAsm (bootasm.S, entry.S, entryother.S, initcode.S, asm.h): the boot sector
      reaches bootmain, the kernel's entry reaches main and the other processors
      reach mpenter, in the mode and with the segments, pages and stacks they need;
      the first user program executes /init.
    - Args (syscall.c): the arguments of a system call are taken from user memory
      exactly and without a fault, whatever the process passes.
    - Typed, TypedFs, TypedSys: type soundness of the kernel.  Whatever enters the
      kernel and however its threads are interleaved, tables keep their length,
      integers stay in the range of their C types, and pointers into tables are
      null or point into them.
    - Grep, Ulib, Utils, Shell, ShellSpec (ulib.c, printf.c, sh.c and the
      utilities): a program is a tree of system calls; grep's matcher decides
      its pattern language and the shell's parser accepts its grammar, on every
      input and in the buffer's bounds.  Umalloc (umalloc.c): the pieces of
      memory that malloc hands out stay apart from each other and from the
      headers of the allocator in every run.
    - Usertests, Tests, TestSpec (usertests.c, forktest.c, stressfs.c, teste1.c to
      teste5.c): the test programs, as trees of system calls, and what they find
      out about the kernel that answers their calls.
    - System: the programs on the kernel.  A machine with one CPU runs processes
      through traps, the scheduler and the interrupts of the disk and the clock;
      on it, by evaluation, tests of usertests.c pass, and under the stride
      scheduler, which never mounts the log, a file system operation damages the
      boot disk.

    ** Assumptions of the file system theorems

    One file system call is in progress at a time: while its process waits for
    the disk, the other processes change neither the cache nor the log
    ([disk_rely], Driver.v).  The free map is one block, as in the images of
    mkfs ([geom_ok], at most FSSIZE blocks).

    ** Not modelled

    The call stacks recorded in locks and the ports of the screen's cursor are left out of the code that has them; [microdelay], which is empty,
    is not called.  The initialiser of memide.c, which only records where the
    linker put the image of the disk, is part of the parameter that is the
    image.  [validateint] of usertests.c, inline assembly that makes a call with a
    stray stack pointer, is an argument of the test that uses it. *)
From stdpp Require Export prelude base list gmap strings.
From Stdlib Require Export ZArith Lia.

Declare Scope xv6_scope.
Delimit Scope xv6_scope with xv6.
Global Open Scope Z_scope.

(** ** Machine integers *)

(** A C [uint] is kept as its value in [0, 2^32), an [int] as its value in
    [-2^31, 2^31); every arithmetic result is wrapped explicitly. *)
Definition u32 (x : Z) : Z := x mod 2 ^ 32.
Definition i32 (x : Z) : Z := (x + 2 ^ 31) mod 2 ^ 32 - 2 ^ 31.
Definition u16 (x : Z) : Z := x mod 2 ^ 16.
Definition i16 (x : Z) : Z := (x + 2 ^ 15) mod 2 ^ 16 - 2 ^ 15.
Definition u8 (x : Z) : Z := x mod 2 ^ 8.
Definition i8 (x : Z) : Z := (x + 2 ^ 7) mod 2 ^ 8 - 2 ^ 7.

Definition is_u32 (x : Z) : Prop := 0 <= x < 2 ^ 32.
Definition is_i32 (x : Z) : Prop := - 2 ^ 31 <= x < 2 ^ 31.
Definition is_u8 (x : Z) : Prop := 0 <= x < 2 ^ 8.

Definition INT_MAX : Z := 2 ^ 31 - 1.

(** Truth of a C [int] and of a bit test. *)
Definition c_true (x : Z) : bool := negb (x =? 0).
Definition c_bool (b : bool) : Z := if b then 1 else 0.
Definition has_bits (x m : Z) : bool := negb (Z.land x m =? 0).

Ltac wrap_unfold :=
  unfold u32, i32, u16, i16, u8, i8, is_u32, is_i32, is_u8, INT_MAX in *.

(** [wrap_lia] decides goals on wrapped integers by turning [mod] into
    quotient and remainder equations. *)
Ltac wrap_lia :=
  wrap_unfold;
  change (2 ^ 32) with 4294967296 in *; change (2 ^ 31) with 2147483648 in *;
  change (2 ^ 16) with 65536 in *; change (2 ^ 15) with 32768 in *;
  change (2 ^ 8) with 256 in *; change (2 ^ 7) with 128 in *;
  Z.to_euclidean_division_equations; lia.

Lemma u32_range x : is_u32 (u32 x).
Proof. wrap_lia. Qed.

Lemma i32_range x : is_i32 (i32 x).
Proof. wrap_lia. Qed.

Lemma u8_range x : is_u8 (u8 x).
Proof. wrap_lia. Qed.

Lemma u32_id x : is_u32 x -> u32 x = x.
Proof. intros. wrap_lia. Qed.

Lemma i32_id x : is_i32 x -> i32 x = x.
Proof. intros. wrap_lia. Qed.

Lemma u8_id x : is_u8 x -> u8 x = x.
Proof. intros. wrap_lia. Qed.

Lemma i32_u32 x : i32 (u32 x) = i32 x.
Proof. wrap_lia. Qed.

Lemma u32_i32 x : u32 (i32 x) = u32 x.
Proof. wrap_lia. Qed.

Lemma u32_u32 x : u32 (u32 x) = u32 x.
Proof. wrap_lia. Qed.

Lemma u32_sub_add x y : u32 (u32 (x + y) - x) = u32 y.
Proof. wrap_lia. Qed.

Lemma i32_overflow x : 2 ^ 31 <= x < 2 ^ 32 -> i32 x = x - 2 ^ 32.
Proof. intros. wrap_lia. Qed.

Create HintDb xv6 discriminated.
#[export] Hint Resolve u32_range i32_range u8_range : xv6.
Create Rewrite HintDb xv6.
#[export] Hint Rewrite i32_u32 u32_i32 u32_u32 : xv6.

(** ** Record update *)

(** [r <| f := v |>] replaces field [f] of [r].  A record type gives its
    eta expansion once; the update of each field is then found by typeclass
    search, by abstracting the field in that expansion. *)
Class Eta (R : Type) := eta : R -> R.
Class Update {R T : Type} (proj : R -> T) := update : (T -> T) -> R -> R.
Global Arguments update {R T} proj {_} f r.

Ltac build_update :=
  match goal with
  | |- @Update ?R ?T ?proj =>
      let res := constr:(fun (f : T -> T) (r : R) =>
        ltac:(let e := eval hnf in (@eta R _ r) in
              let e := eval pattern (proj r) in e in
              match e with
              | ?g _ => let b := eval cbv beta in (g (f (proj r))) in exact b
              end)) in
      exact res
  end.
#[global] Hint Extern 1 (Update _) => build_update : typeclass_instances.

Notation "r <| f := v |>" := (update f (fun _ => v) r)
  (at level 1, f constr at level 0, left associativity,
   format "r  <| f  :=  v |>") : xv6_scope.
Notation "r <| f ::= g |>" := (update f g r)
  (at level 1, f constr at level 0, left associativity,
   format "r  <| f  ::=  g |>") : xv6_scope.
Global Open Scope xv6_scope.

(** ** Effects of kernel code *)

(** The outcome of running a piece of code in state [S].
    [Swtch s k] is a call of [swtch]: control leaves with the state [s], and
    [k] is what the code still does once some CPU switches back to it, in
    whatever state it then finds.  [Hang] is an endless loop of the code (a
    spin on a lock nobody here releases, a frozen CPU), [Panic] a call of
    [panic], and [NoFuel] marks a loop bound of the model that was too small. *)
Inductive res (S A : Type) : Type :=
| Ok (a : A) (s : S)
| Panic (msg : string)
| Hang
| NoFuel
| Swtch (s : S) (k : S -> res S A).
Global Arguments Ok {S A} a s.
Global Arguments Panic {S A} msg.
Global Arguments Hang {S A}.
Global Arguments NoFuel {S A}.
Global Arguments Swtch {S A} s k.

Definition M (S A : Type) : Type := S -> res S A.

Fixpoint res_bind {S A B : Type} (f : A -> M S B) (r : res S A) : res S B :=
  match r with
  | Ok a s => f a s
  | Panic m => Panic m
  | Hang => Hang
  | NoFuel => NoFuel
  | Swtch s k => Swtch s (fun s' => res_bind f (k s'))
  end.

Global Instance M_ret {S} : MRet (M S) := fun A a s => Ok a s.
Global Instance M_bind {S} : MBind (M S) := fun A B f m s => res_bind f (m s).

Section effects.
Context {S : Type}.

Definition get : M S S := fun s => Ok s s.
Definition gets {A} (f : S -> A) : M S A := fun s => Ok (f s) s.
Definition modify (f : S -> S) : M S unit := fun s => Ok tt (f s).
Definition panic {A} (msg : string) : M S A := fun _ => Panic msg.
Definition hang {A} : M S A := fun _ => Hang.
Definition nofuel {A} : M S A := fun _ => NoFuel.
Definition swtch : M S unit := fun s => Swtch s (fun s' => Ok tt s').
Definition when (b : bool) (m : M S unit) : M S unit := if b then m else mret tt.
End effects.

(** Total correctness of a run that neither panics, hangs nor switches away. *)
Definition wp {S A} (m : M S A) (s : S) (Q : A -> S -> Prop) : Prop :=
  match m s with Ok a s' => Q a s' | _ => False end.

Section wp.
Context {S : Type}.
Implicit Types s : S.

Lemma wp_elim {A} (m : M S A) s Q :
  wp m s Q -> exists a s', m s = Ok a s' /\ Q a s'.
Proof. unfold wp. destruct (m s); naive_solver. Qed.

Lemma wp_ok {A} (m : M S A) s a s' (Q : A -> S -> Prop) :
  m s = Ok a s' -> Q a s' -> wp m s Q.
Proof. unfold wp. by intros ->. Qed.

Lemma bind_ok {A B} (m : M S A) (f : A -> M S B) s a s' :
  m s = Ok a s' -> (m ≫= f) s = f a s'.
Proof. unfold mbind, M_bind. by intros ->. Qed.

Lemma bind_panic {A B} (m : M S A) (f : A -> M S B) s msg :
  m s = Panic msg -> (m ≫= f) s = Panic msg.
Proof. unfold mbind, M_bind. by intros ->. Qed.

Lemma bind_hang {A B} (m : M S A) (f : A -> M S B) s :
  m s = Hang -> (m ≫= f) s = Hang.
Proof. unfold mbind, M_bind. by intros ->. Qed.

Lemma bind_swtch {A B} (m : M S A) (f : A -> M S B) s s' k :
  m s = Swtch s' k -> (m ≫= f) s = Swtch s' (fun s'' => res_bind f (k s'')).
Proof. unfold mbind, M_bind. by intros ->. Qed.

Lemma wp_bind {A B} (m : M S A) (f : A -> M S B) s Q :
  wp m s (fun a s' => wp (f a) s' Q) -> wp (m ≫= f) s Q.
Proof. unfold wp, mbind, M_bind. destruct (m s); simpl; tauto. Qed.

Lemma wp_ret {A} (a : A) s (Q : A -> S -> Prop) : Q a s -> wp (mret a) s Q.
Proof. done. Qed.

Lemma wp_gets {A} (f : S -> A) s (Q : A -> S -> Prop) :
  Q (f s) s -> wp (gets f) s Q.
Proof. done. Qed.

Lemma wp_modify f s (Q : unit -> S -> Prop) : Q tt (f s) -> wp (modify f) s Q.
Proof. done. Qed.

Lemma wp_mono {A} (m : M S A) s (P Q : A -> S -> Prop) :
  wp m s P -> (forall a s', P a s' -> Q a s') -> wp m s Q.
Proof. unfold wp. destruct (m s); naive_solver. Qed.
End wp.

(** Symbolic execution of the primitive steps of the monad. *)
Ltac run_prims :=
  repeat (unfold mbind, M_bind, mret, M_ret, gets, modify, get, panic, hang,
            nofuel, when; cbn [res_bind]).

(** ** Tables *)

(** [find_from f i l] is the index, counted from [i], of the first element of
    [l] that satisfies [f]: the loop [for(p = tab; p < &tab[N]; p++)
    if(f(p)) goto found]. *)
Fixpoint find_from {A} (f : A -> bool) (i : nat) (l : list A) : option nat :=
  match l with
  | [] => None
  | x :: l' => if f x then Some i else find_from f (S i) l'
  end.

Definition find_first {A} (f : A -> bool) (l : list A) : option nat :=
  find_from f 0 l.

Lemma find_from_Some {A} (f : A -> bool) l i j :
  find_from f i l = Some j <->
  exists x, (i <= j)%nat /\ l !! (j - i)%nat = Some x /\ f x = true /\
    forall j' y, (i <= j' < j)%nat -> l !! (j' - i)%nat = Some y -> f y = false.
Proof.
  revert i j; induction l as [|x l IH]; intros i j; simpl.
  - split; [done|]. intros (x & _ & H & _). by rewrite lookup_nil in H.
  - destruct (f x) eqn:Hf.
    + split.
      * intros [= ->]. exists x. rewrite Nat.sub_diag. repeat split; auto; lia.
      * intros (y & Hle & Hy & _ & Hmin).
        destruct (decide (i = j)) as [->|]; [done|].
        rewrite (Hmin i x) in Hf; [done|lia|]. by rewrite Nat.sub_diag.
    + rewrite IH. split.
      * intros (y & Hle & Hy & Hfy & Hmin). exists y. repeat split; auto; [lia| |].
        -- replace (j - i)%nat with (S (j - S i)) by lia. done.
        -- intros j' z Hj' Hz. destruct (decide (j' = i)) as [->|].
           { rewrite Nat.sub_diag in Hz. simpl in Hz. congruence. }
           apply (Hmin j'); [lia|].
           by replace (j' - i)%nat with (S (j' - S i)) in Hz by lia.
      * intros (y & Hle & Hy & Hfy & Hmin).
        destruct (decide (i = j)) as [->|].
        { rewrite Nat.sub_diag in Hy. simpl in Hy. congruence. }
        exists y. repeat split; auto; [lia| |].
        -- by replace (j - i)%nat with (S (j - S i)) in Hy by lia.
        -- intros j' z Hj' Hz. apply (Hmin j'); [lia|].
           by replace (j' - i)%nat with (S (j' - S i)) by lia.
Qed.

Lemma find_first_Some {A} (f : A -> bool) l j :
  find_first f l = Some j <->
  exists x, l !! j = Some x /\ f x = true /\
    forall j' y, (j' < j)%nat -> l !! j' = Some y -> f y = false.
Proof.
  unfold find_first. rewrite find_from_Some. split.
  - intros (x & _ & Hx & Hf & Hmin). rewrite Nat.sub_0_r in Hx. exists x.
    repeat split; auto. intros j' y Hj Hy. apply (Hmin j'); [lia|].
    by rewrite Nat.sub_0_r.
  - intros (x & Hx & Hf & Hmin). exists x. rewrite Nat.sub_0_r.
    repeat split; auto; [lia|]. intros j' y Hj Hy. rewrite Nat.sub_0_r in Hy.
    by apply (Hmin j'); [lia|].
Qed.

Lemma find_from_None {A} (f : A -> bool) l i :
  find_from f i l = None <-> forall j x, l !! j = Some x -> f x = false.
Proof.
  revert i; induction l as [|x l IH]; intros i; simpl.
  - split; [|done]. intros _ j x H. by rewrite lookup_nil in H.
  - destruct (f x) eqn:Hf.
    + split; [done|]. intros H. by rewrite (H 0%nat x) in Hf.
    + rewrite IH. split.
      * intros H [|j] y Hy; simpl in Hy; [by simplify_eq|eauto].
      * intros H j y Hy. by apply (H (S j)).
Qed.

Lemma find_first_None {A} (f : A -> bool) l :
  find_first f l = None <-> forall j x, l !! j = Some x -> f x = false.
Proof. apply find_from_None. Qed.
