(* ===== verification/Memory.v ===== *)
(** Byte-addressed kernel memory.

    The pages handed out by [kalloc] are raw memory: page tables, the links
    of the free list, kernel stacks with their trap frames and user pages.
    They are modelled as a finite map from kernel virtual addresses to bytes,
    with the little-endian accesses the code makes through [uint *] and
    [char *] pointers. *)
From S2P Require Import Prelude.

Abbreviation memory := (gmap Z Z).

Definition load8 (m : memory) (a : Z) : Z := default 0 (m !! a).
Definition store8 (m : memory) (a v : Z) : memory := <[a := u8 v]> m.

Definition load32 (m : memory) (a : Z) : Z :=
  load8 m a + 2 ^ 8 * load8 m (a + 1) + 2 ^ 16 * load8 m (a + 2)
  + 2 ^ 24 * load8 m (a + 3).

Definition store32 (m : memory) (a v : Z) : memory :=
  store8 (store8 (store8 (store8 m a v) (a + 1) (v / 2 ^ 8)) (a + 2) (v / 2 ^ 16))
    (a + 3) (v / 2 ^ 24).

Fixpoint load_bytes (m : memory) (a : Z) (n : nat) : list Z :=
  match n with
  | O => []
  | S n' => load8 m a :: load_bytes m (a + 1) n'
  end.

Fixpoint store_bytes (m : memory) (a : Z) (l : list Z) : memory :=
  match l with
  | [] => m
  | v :: l' => store_bytes (store8 m a v) (a + 1) l'
  end.

(** [n] bytes at [a] set to [c]: what [stosb] and [stosl] do. *)
Fixpoint fill_bytes (m : memory) (a c : Z) (n : nat) : memory :=
  match n with
  | O => m
  | S n' => fill_bytes (store8 m a c) (a + 1) c n'
  end.

(** Well-formed memories hold bytes. *)
Definition mem_ok (m : memory) : Prop := forall a, is_u8 (load8 m a).

(** The two memories agree outside [lo, hi). *)
Definition same_outside (lo hi : Z) (m m' : memory) : Prop :=
  forall a, ~ (lo <= a < hi) -> load8 m' a = load8 m a.

Lemma load8_store8 m a b v :
  load8 (store8 m a v) b = if decide (b = a) then u8 v else load8 m b.
Proof.
  unfold load8, store8. case_decide; subst.
  - by rewrite lookup_insert_eq.
  - by rewrite lookup_insert_ne.
Qed.

Lemma load8_store8_eq m a v : load8 (store8 m a v) a = u8 v.
Proof. rewrite load8_store8. by case_decide. Qed.

Lemma load8_store8_ne m a b v : b <> a -> load8 (store8 m a v) b = load8 m b.
Proof. rewrite load8_store8. by case_decide. Qed.

Lemma mem_ok_empty : mem_ok ∅.
Proof. intros a. unfold load8. rewrite lookup_empty. simpl. wrap_lia. Qed.

Lemma mem_ok_store8 m a v : mem_ok m -> mem_ok (store8 m a v).
Proof. intros H b. rewrite load8_store8. case_decide; eauto with xv6. Qed.

Lemma mem_ok_store32 m a v : mem_ok m -> mem_ok (store32 m a v).
Proof. intros H. by repeat apply mem_ok_store8. Qed.

Lemma mem_ok_store_bytes m a l : mem_ok m -> mem_ok (store_bytes m a l).
Proof. revert m a; induction l; simpl; auto using mem_ok_store8. Qed.

Lemma mem_ok_fill_bytes m a c n : mem_ok m -> mem_ok (fill_bytes m a c n).
Proof. revert m a; induction n; simpl; auto using mem_ok_store8. Qed.

#[export] Hint Resolve mem_ok_store8 mem_ok_store32 mem_ok_store_bytes
  mem_ok_fill_bytes : xv6.

Lemma load8_store32_out m a b v :
  ~ (a <= b < a + 4) -> load8 (store32 m a v) b = load8 m b.
Proof. intros H. unfold store32. rewrite !load8_store8_ne by lia. done. Qed.

Lemma load32_store32_eq m a v : is_u32 v -> load32 (store32 m a v) a = v.
Proof.
  intros Hv. unfold load32, store32.
  rewrite !load8_store8. repeat case_decide; try lia.
  unfold u8, is_u32 in *.
  change (2 ^ 8) with 256. change (2 ^ 16) with (256 * 256).
  change (2 ^ 24) with (256 * 256 * 256). change (2 ^ 32) with 4294967296 in Hv.
  rewrite <- !Z.div_div by lia. Z.to_euclidean_division_equations. lia.
Qed.

Lemma load32_ext m m' a :
  (forall i, a <= i < a + 4 -> load8 m' i = load8 m i) -> load32 m' a = load32 m a.
Proof. intros H. unfold load32. rewrite !H by lia. done. Qed.

Lemma load32_store32_ne m a b v :
  b + 4 <= a \/ a + 4 <= b -> load32 (store32 m a v) b = load32 m b.
Proof. intros H. apply load32_ext. intros i Hi. apply load8_store32_out. lia. Qed.

Lemma load32_range m a : mem_ok m -> is_u32 (load32 m a).
Proof.
  intros H. unfold load32.
  pose proof (H a). pose proof (H (a + 1)). pose proof (H (a + 2)).
  pose proof (H (a + 3)). wrap_unfold. lia.
Qed.

Lemma load8_fill_bytes m a c n b :
  load8 (fill_bytes m a c n) b =
    if decide (a <= b < a + Z.of_nat n) then u8 c else load8 m b.
Proof.
  revert m a; induction n as [|n IH]; intros m a; simpl.
  - case_decide; [lia|done].
  - rewrite IH, load8_store8. repeat case_decide; done || lia.
Qed.

Lemma load8_store_bytes m a l b :
  load8 (store_bytes m a l) b =
    if decide (a <= b < a + Z.of_nat (length l))
    then u8 (default 0 (l !! Z.to_nat (b - a))) else load8 m b.
Proof.
  revert m a; induction l as [|v l IH]; intros m a; simpl.
  - case_decide; [lia|done].
  - rewrite IH, load8_store8. repeat case_decide; try done; try lia.
    + by replace (Z.to_nat (b - a)) with (S (Z.to_nat (b - (a + 1)))) by lia.
    + subst. by rewrite Z.sub_diag.
Qed.

Lemma load_bytes_lookup m a n i :
  load_bytes m a n !! i =
    if decide (i < n)%nat then Some (load8 m (a + Z.of_nat i)) else None.
Proof.
  revert a i; induction n as [|n IH]; intros a i; cbn [load_bytes].
  - rewrite lookup_nil. case_decide; [lia|done].
  - destruct i as [|i].
    + rewrite Z.add_0_r. case_decide; [done|lia].
    + change (load8 m a :: load_bytes m (a + 1) n) with ([load8 m a] ++ load_bytes m (a + 1) n).
      rewrite lookup_app_r by (simpl; lia). cbn [length].
      replace (S i - 1)%nat with i by lia. rewrite IH.
      repeat case_decide; try lia; try done. do 2 f_equal. lia.
Qed.

Lemma length_load_bytes m a n : length (load_bytes m a n) = n.
Proof. revert a; induction n; intros; simpl; auto. Qed.

Lemma load_bytes_ext m m' a n :
  (forall b, a <= b < a + Z.of_nat n -> load8 m' b = load8 m b) ->
  load_bytes m' a n = load_bytes m a n.
Proof.
  intros H. apply list_eq. intros i. rewrite !load_bytes_lookup.
  case_decide; [|done]. rewrite H; [done|lia].
Qed.

(** What was written is read back, byte for byte. *)
Lemma load_store_bytes m a l :
  Forall is_u8 l -> load_bytes (store_bytes m a l) a (length l) = l.
Proof.
  intros Hl. apply list_eq. intros i. rewrite load_bytes_lookup.
  case_decide as Hi.
  - rewrite load8_store_bytes. case_decide; [|lia].
    replace (Z.to_nat (a + Z.of_nat i - a)) with i by lia.
    destruct (lookup_lt_is_Some_2 l i Hi) as [x Hx]. rewrite Hx. simpl.
    f_equal. apply u8_id. eapply Forall_lookup_1; eauto.
  - symmetry. apply lookup_ge_None_2. lia.
Qed.

Lemma same_outside_refl lo hi m : same_outside lo hi m m.
Proof. by intros a _. Qed.

Lemma same_outside_trans lo hi m1 m2 m3 :
  same_outside lo hi m1 m2 -> same_outside lo hi m2 m3 -> same_outside lo hi m1 m3.
Proof. intros H1 H2 a Ha. rewrite H2 by done. by apply H1. Qed.
