(* ===== verification/Kernel.v ===== *)
(** The kernel's data: the constants of [param.h], the structures declared in
    [proc.h], [spinlock.h], [buf.h], [file.h], [fs.h], [log.c], [pipe.c] and
    [console.c], and the record of all kernel state that the operations of
    the other files read and write.

    Pointers into the static tables ([ptable.proc], [ftable.file],
    [icache.inode], [bcache.buf], [cpus]) are indices, with [None] for the
    null pointer; pointers to pages are addresses in [k_mem]. *)
From S2P Require Import Prelude Memory.

(** ** param.h *)
Definition NPROC : nat := 64.
Definition KSTACKSIZE : Z := 4096.
Definition NCPU : nat := 8.
Definition NOFILE : nat := 16.
Definition NFILE : nat := 100.
Definition NINODE : nat := 50.
Definition NDEV : Z := 10.
Definition ROOTDEV : Z := 1.
Definition MAXARG : Z := 32.
Definition MAXOPBLOCKS : Z := 10.
Definition LOGSIZE : Z := MAXOPBLOCKS * 3.
Definition NBUF : nat := 30.
Definition FSSIZE : Z := 1000.

(** ** Locks *)

(** The spin locks of the kernel, by the object that contains them. *)
Inductive lockid :=
| L_ptable | L_tickslock | L_kmem | L_bcache | L_idelock | L_icache
| L_ftable | L_log | L_cons | L_input | L_pipe (page : Z).

#[export] Instance lockid_eq_dec : EqDecision lockid.
Proof. solve_decision. Defined.

Definition lockid_code (l : lockid) : nat + Z :=
  match l with
  | L_ptable => inl 0%nat | L_tickslock => inl 1%nat | L_kmem => inl 2%nat
  | L_bcache => inl 3%nat | L_idelock => inl 4%nat | L_icache => inl 5%nat
  | L_ftable => inl 6%nat | L_log => inl 7%nat | L_cons => inl 8%nat
  | L_input => inl 9%nat | L_pipe p => inr p
  end.

Definition lockid_decode (c : nat + Z) : lockid :=
  match c with
  | inl 0%nat => L_ptable | inl 1%nat => L_tickslock | inl 2%nat => L_kmem
  | inl 3%nat => L_bcache | inl 4%nat => L_idelock | inl 5%nat => L_icache
  | inl 6%nat => L_ftable | inl 7%nat => L_log | inl 8%nat => L_cons
  | inl _ => L_input | inr p => L_pipe p
  end.

#[export] Instance lockid_countable : Countable lockid.
Proof. apply (inj_countable' lockid_code lockid_decode). by intros []. Defined.

(** [struct spinlock]: [lk_cpu] is the index of the holding CPU. *)
Record spinlock := Mkspinlock {
  lk_locked : Z;
  lk_name : string;
  lk_cpu : option nat;
}.
#[export] Instance eta_spinlock : Eta spinlock :=
  fun l => Mkspinlock (lk_locked l) (lk_name l) (lk_cpu l).

(** ** Sleep channels *)

(** The kernel objects whose addresses are used as sleep channels. *)
Inductive channel :=
| Ch_null | Ch_proc (p : nat) | Ch_ticks | Ch_buf (b : nat) | Ch_inode (i : nat)
| Ch_log | Ch_pipe_nread (p : Z) | Ch_pipe_nwrite (p : Z) | Ch_input_r.

#[export] Instance channel_eq_dec : EqDecision channel.
Proof. solve_decision. Defined.

(** ** proc.h *)

Inductive procstate := UNUSED | EMBRYO | SLEEPING | RUNNABLE | RUNNING | ZOMBIE.

#[export] Instance procstate_eq_dec : EqDecision procstate.
Proof. solve_decision. Defined.

(** The values of [enum procstate], in declaration order. *)
Definition procstate_val (s : procstate) : Z :=
  match s with
  | UNUSED => 0 | EMBRYO => 1 | SLEEPING => 2 | RUNNABLE => 3 | RUNNING => 4
  | ZOMBIE => 5
  end.

Definition state_eqb (a b : procstate) : bool := bool_decide (a = b).

(** [struct proc].  [tf] and [context] are addresses inside the kernel stack. *)
Record proc := Mkproc {
  p_sz : Z;
  p_pgdir : Z;
  p_kstack : Z;
  p_state : procstate;
  p_pid : Z;
  p_parent : option nat;
  p_tf : Z;
  p_context : Z;
  p_chan : channel;
  p_killed : Z;
  p_ofile : list (option nat);
  p_cwd : option nat;
  p_name : list Z;
  p_tickets : Z;
  p_usage : Z;
  p_stride : Z;
  p_pass : Z;
  p_limitpass : Z;
}.
#[export] Instance eta_proc : Eta proc := fun p =>
  Mkproc (p_sz p) (p_pgdir p) (p_kstack p) (p_state p) (p_pid p) (p_parent p)
    (p_tf p) (p_context p) (p_chan p) (p_killed p) (p_ofile p) (p_cwd p)
    (p_name p) (p_tickets p) (p_usage p) (p_stride p) (p_pass p) (p_limitpass p).

(** A slot of the zero-initialised process table. *)
Definition proc0 : proc :=
  Mkproc 0 0 0 UNUSED 0 None 0 0 Ch_null 0 (replicate NOFILE None) None
    (replicate 16 0) 0 0 0 0 0.

(** The part of [struct cpu] the modelled code uses ([c_esp0] is [ts.esp0]),
    with the CPU's interrupt flag ([FL_IF] of its flags register) and page
    table register. *)
Record cpu := Mkcpu {
  c_id : Z;
  c_ncli : Z;
  c_intena : Z;
  c_proc : option nat;
  c_if : bool;
  c_cr3 : Z;
  c_esp0 : Z;
}.
#[export] Instance eta_cpu : Eta cpu := fun c =>
  Mkcpu (c_id c) (c_ncli c) (c_intena c) (c_proc c) (c_if c) (c_cr3 c) (c_esp0 c).

Definition cpu0 : cpu := Mkcpu 0 0 0 None false 0 0.

(** ** fs.h, buf.h, file.h *)
Definition ROOTINO : Z := 1.
Definition BSIZE : Z := 512.
Definition NDIRECT : Z := 12.
Definition NINDIRECT : Z := BSIZE / 4.
Definition MAXFILE : Z := NDIRECT + NINDIRECT.
Definition DIRSIZ : Z := 14.

Definition B_BUSY : Z := 1.
Definition B_VALID : Z := 2.
Definition B_DIRTY : Z := 4.

(** [struct buf]; the list links are [None] for [&bcache.head], the disk
    queue link is [None] for the null pointer. *)
Record buf := Mkbuf {
  b_flags : Z;
  b_dev : Z;
  b_blockno : Z;
  b_prev : option nat;
  b_next : option nat;
  b_qnext : option nat;
  b_data : list Z;
}.
#[export] Instance eta_buf : Eta buf := fun b =>
  Mkbuf (b_flags b) (b_dev b) (b_blockno b) (b_prev b) (b_next b) (b_qnext b)
    (b_data b).

Definition block0 : list Z := replicate (Z.to_nat BSIZE) 0.
Definition buf0 : buf := Mkbuf 0 0 0 None None None block0.

(** [bcache]: the buffers and the links of the list head. *)
Record bcache := Mkbcache {
  bc_buf : list buf;
  bc_head_prev : option nat;
  bc_head_next : option nat;
}.
#[export] Instance eta_bcache : Eta bcache := fun c =>
  Mkbcache (bc_buf c) (bc_head_prev c) (bc_head_next c).

Definition I_BUSY : Z := 1.
Definition I_VALID : Z := 2.

Record inode := Mkinode {
  i_dev : Z;
  i_inum : Z;
  i_ref : Z;
  i_flags : Z;
  i_type : Z;
  i_major : Z;
  i_minor : Z;
  i_nlink : Z;
  i_size : Z;
  i_addrs : list Z;
}.
#[export] Instance eta_inode : Eta inode := fun i =>
  Mkinode (i_dev i) (i_inum i) (i_ref i) (i_flags i) (i_type i) (i_major i)
    (i_minor i) (i_nlink i) (i_size i) (i_addrs i).

Definition inode0 : inode := Mkinode 0 0 0 0 0 0 0 0 0 (replicate 13 0).

Inductive ftype := FD_NONE | FD_PIPE | FD_INODE.

#[export] Instance ftype_eq_dec : EqDecision ftype.
Proof. solve_decision. Defined.

Record file := Mkfile {
  f_type : ftype;
  f_ref : Z;
  f_readable : Z;
  f_writable : Z;
  f_pipe : Z;
  f_ip : option nat;
  f_off : Z;
}.
#[export] Instance eta_file : Eta file := fun f =>
  Mkfile (f_type f) (f_ref f) (f_readable f) (f_writable f) (f_pipe f) (f_ip f)
    (f_off f).

Definition file0 : file := Mkfile FD_NONE 0 0 0 0 None 0.

(** ** pipe.c *)
Definition PIPESIZE : Z := 512.

Record pipe := Mkpipe {
  pi_data : list Z;
  pi_nread : Z;
  pi_nwrite : Z;
  pi_readopen : Z;
  pi_writeopen : Z;
}.
#[export] Instance eta_pipe : Eta pipe := fun p =>
  Mkpipe (pi_data p) (pi_nread p) (pi_nwrite p) (pi_readopen p) (pi_writeopen p).

(** ** log.c: [struct log], with the fields of its header block inlined. *)
Record log := Mklog {
  lg_start : Z;
  lg_size : Z;
  lg_outstanding : Z;
  lg_committing : Z;
  lg_dev : Z;
  lg_n : Z;
  lg_block : list Z;
}.
#[export] Instance eta_log : Eta log := fun l =>
  Mklog (lg_start l) (lg_size l) (lg_outstanding l) (lg_committing l) (lg_dev l)
    (lg_n l) (lg_block l).

Definition log0 : log := Mklog 0 0 0 0 0 0 (replicate (Z.to_nat LOGSIZE) 0).

(** ** console.c *)
Definition INPUT_BUF : Z := 128.

Record input := Mkinput {
  in_buf : list Z;
  in_r : Z;
  in_w : Z;
  in_e : Z;
}.
#[export] Instance eta_input : Eta input := fun i =>
  Mkinput (in_buf i) (in_r i) (in_w i) (in_e i).

(** The console's output side: the lock flag, the panic flag, the CGA cursor
    and cells, and the bytes sent to the serial port. *)
Record console := Mkconsole {
  co_locking : Z;
  co_panicked : Z;
  co_uart : Z;
  co_serial : list Z;
  co_pos : Z;
  co_crt : gmap Z Z;
}.
#[export] Instance eta_console : Eta console := fun c =>
  Mkconsole (co_locking c) (co_panicked c) (co_uart c) (co_serial c) (co_pos c)
    (co_crt c).

(** ** The kernel *)

(** All kernel state.  [k_me] is the CPU whose execution is being described;
    the other CPUs' fields change only when they run.  [k_end] and [k_data]
    are the linker symbols [end] and [data], which no code changes; [k_shift]
    is the static variable [shift] of [kbdgetc]. *)
Record kernel := Mkkernel {
  k_end : Z;
  k_data : Z;
  k_mem : memory;
  k_use_lock : Z;
  k_freelist : Z;
  k_locks : gmap lockid spinlock;
  k_cpus : list cpu;
  k_me : nat;
  k_ptable : list proc;
  k_initproc : option nat;
  k_nextpid : Z;
  k_isRoundRobin : Z;
  k_isDebug : Z;
  k_first : Z;
  k_ticks : Z;
  k_kpgdir : Z;
  k_ftable : list file;
  k_icache : list inode;
  k_bcache : bcache;
  k_log : log;
  k_disk : gmap (Z * Z) (list Z);
  k_idequeue : option nat;
  k_havedisk1 : Z;
  k_pipes : gmap Z pipe;
  k_input : input;
  k_cons : console;
  k_shift : Z;
}.
#[export] Instance eta_kernel : Eta kernel := fun k =>
  Mkkernel (k_end k) (k_data k) (k_mem k) (k_use_lock k) (k_freelist k) (k_locks k) (k_cpus k)
    (k_me k) (k_ptable k) (k_initproc k) (k_nextpid k) (k_isRoundRobin k)
    (k_isDebug k) (k_first k) (k_ticks k) (k_kpgdir k) (k_ftable k)
    (k_icache k) (k_bcache k) (k_log k) (k_disk k) (k_idequeue k)
    (k_havedisk1 k) (k_pipes k) (k_input k) (k_cons k) (k_shift k).

(** The lock of a component in its initial state. *)
Definition unlocked (name : string) : spinlock := Mkspinlock 0 name None.

(** The kernel's data segment as the loader leaves it: zeroes, except for the
    initialised globals [nextpid = 1], [isRoundRobin = 0] and [first = 1],
    with the static locks named as their [initlock] calls name them.  It
    depends on the linker symbols [end] and [data]. *)
Definition kernel_boot (kend kdata : Z) : kernel :=
  Mkkernel kend kdata ∅ 0 0
    (list_to_map
       [(L_ptable, unlocked "ptable"); (L_tickslock, unlocked "time");
        (L_kmem, unlocked "kmem"); (L_bcache, unlocked "bcache");
        (L_idelock, unlocked "ide"); (L_icache, unlocked "icache");
        (L_ftable, unlocked "ftable"); (L_log, unlocked "log");
        (L_cons, unlocked "console"); (L_input, unlocked "input")])
    (replicate NCPU cpu0) 0 (replicate NPROC proc0) None 1 0 0 1 0 0
    (replicate NFILE file0) (replicate NINODE inode0)
    (Mkbcache (replicate NBUF buf0) None None) log0 ∅ None 0 ∅
    (Mkinput (replicate (Z.to_nat INPUT_BUF) 0) 0 0 0)
    (Mkconsole 0 0 0 [] 0 ∅) 0.

(** A kernel linked with its data at 1 MB and its end at 2 MB above the start
    of its text, for examples. *)
Definition kernel0 : kernel := kernel_boot 2150629376 2149580800.

(** Kernel code. *)
Definition K (A : Type) : Type := M kernel A.
Global Instance K_ret : MRet K := @M_ret kernel.
Global Instance K_bind : MBind K := @M_bind kernel.

(** ** Access to the tables *)

(** [cpu] and [proc] of the executing CPU ([%gs:0] and [%gs:4]). *)
Definition mycpu (s : kernel) : cpu := default cpu0 (k_cpus s !! k_me s).
Definition curproc (s : kernel) : option nat := c_proc (mycpu s).

Definition set_cpu (f : cpu -> cpu) : K unit :=
  modify (fun s => s <| k_cpus ::= alter f (k_me s) |>).

(** [ptable.proc[i]]. *)
Definition proc_at (s : kernel) (i : nat) : proc := default proc0 (k_ptable s !! i).

Definition set_proc (i : nat) (f : proc -> proc) : K unit :=
  modify (fun s => s <| k_ptable ::= alter f i |>).

(** The current process, dereferenced; a null [proc] is a page fault of the
    kernel, which ends in [panic("trap")]. *)
Definition deref_proc : K nat :=
  p ← gets curproc;
  match p with Some i => mret i | None => panic "trap" end.

(** Symbolic execution of the primitive steps of kernel code. *)
Ltac krun :=
  unfold K_bind, K_ret, mbind, M_bind, mret, M_ret, gets, modify, get, panic,
    hang, nofuel, when; cbn [res_bind].
