(* ===== verification/Crash.v ===== *)
(** A program logic for kernel code that waits and may crash.

    [wpr R C m s Q] holds when [m], started in [s], does not panic, hang or run
    out of fuel, and returns in a state that satisfies [Q]; whenever it gives
    up the CPU, the state then satisfies the crash condition [C], and it is
    resumed in a state that the rely relation [R] allows. *)
From S2P Require Import Prelude Kernel.

Fixpoint wpr_res {A} (R : kernel -> kernel -> Prop) (C : kernel -> Prop) (r : res kernel A)
    (Q : A -> kernel -> Prop) : Prop :=
  match r with
  | Ok a s => Q a s
  | Swtch s k => C s /\ forall s', R s s' -> wpr_res R C (k s') Q
  | _ => False
  end.

Definition wpr {A} (R : kernel -> kernel -> Prop) (C : kernel -> Prop) (m : K A) (s : kernel)
    (Q : A -> kernel -> Prop) : Prop := wpr_res R C (m s) Q.

Section wpr.
Context (R : kernel -> kernel -> Prop) (C : kernel -> Prop).

Lemma wpr_res_bind {A B} (r : res kernel A) (f : A -> K B) Q :
  wpr_res R C r (fun a s => wpr R C (f a) s Q) -> wpr_res R C (res_bind f r) Q.
Proof.
  induction r as [a s|msg| | |s k IH]; simpl; try done.
  intros [HC Hk]. split; [done|]. intros s' Hs'. by apply IH, Hk.
Qed.

Lemma wpr_bind {A B} (m : K A) (f : A -> K B) s Q :
  wpr R C m s (fun a s' => wpr R C (f a) s' Q) -> wpr R C (m ≫= f) s Q.
Proof. apply wpr_res_bind. Qed.

Lemma wpr_res_mono {A} (r : res kernel A) (P Q : A -> kernel -> Prop) :
  wpr_res R C r P -> (forall a s', P a s' -> Q a s') -> wpr_res R C r Q.
Proof.
  intros H HPQ. induction r as [a s|msg| | |s k IH]; simpl in *; auto.
  destruct H as [HC Hk]. split; [done|]. intros s' Hs'. by apply IH, Hk.
Qed.

Lemma wpr_mono {A} (m : K A) s (P Q : A -> kernel -> Prop) :
  wpr R C m s P -> (forall a s', P a s' -> Q a s') -> wpr R C m s Q.
Proof. apply wpr_res_mono. Qed.

Lemma wpr_ok {A} (m : K A) s a s' (Q : A -> kernel -> Prop) :
  m s = Ok a s' -> Q a s' -> wpr R C m s Q.
Proof. unfold wpr. by intros ->. Qed.

Lemma wpr_gets {A} (f : kernel -> A) s (Q : A -> kernel -> Prop) :
  Q (f s) s -> wpr R C (gets f) s Q.
Proof. done. Qed.

Lemma wpr_modify f s (Q : unit -> kernel -> Prop) : Q tt (f s) -> wpr R C (modify f) s Q.
Proof. done. Qed.

Lemma wpr_ret {A} (a : A) s (Q : A -> kernel -> Prop) : Q a s -> wpr R C (mret a) s Q.
Proof. done. Qed.

(** A step whose outcome is known, followed by the rest. *)
Lemma wpr_step {A B} (m : K A) (f : A -> K B) s a s' Q :
  m s = Ok a s' -> wpr R C (f a) s' Q -> wpr R C (m ≫= f) s Q.
Proof. intros H1 H2. apply wpr_bind. by eapply wpr_ok. Qed.
End wpr.

Lemma wpr_crash_mono {A} R (C C' : kernel -> Prop) (m : K A) s Q :
  wpr R C m s Q -> (forall s1, C s1 -> C' s1) -> wpr R C' m s Q.
Proof.
  unfold wpr. intros H HC. induction (m s) as [a s0|msg| | |s0 k IH]; simpl in *; auto.
  destruct H as [H1 Hk]. split; [auto|]. intros s' Hs'. by apply IH, Hk.
Qed.

(** What a run that satisfies the judgement does when nothing else happens:
    every crash state satisfies [C], and so does the result [Q]. *)
Inductive crash_state {A} (R : kernel -> kernel -> Prop) : res kernel A -> kernel -> Prop :=
| cs_now s k : crash_state R (Swtch s k) s
| cs_later s k s1 s' : R s s1 -> crash_state R (k s1) s' -> crash_state R (Swtch s k) s'.

Lemma wpr_crash {A} R C (m : K A) s Q s' :
  wpr R C m s Q -> crash_state R (m s) s' -> C s'.
Proof.
  unfold wpr. intros H Hc. induction Hc as [s0 k|s0 k s1 s' HR Hc IH]; simpl in H.
  - apply H.
  - by apply IH, H.
Qed.

Inductive returns {A} (R : kernel -> kernel -> Prop) : res kernel A -> A -> kernel -> Prop :=
| rt_ok a s : returns R (Ok a s) a s
| rt_resume s k s1 a s' : R s s1 -> returns R (k s1) a s' -> returns R (Swtch s k) a s'.

Lemma wpr_returns {A} R C (m : K A) s Q a s' :
  wpr R C m s Q -> returns R (m s) a s' -> Q a s'.
Proof.
  unfold wpr. intros H Hc. induction Hc as [a s0|s0 k s1 a s' HR Hc IH]; simpl in H; [done|].
  by apply IH, H.
Qed.

(** Every wait is resumed: the run does return. *)
Lemma wpr_total {A} R C (m : K A) s Q :
  (forall s, C s -> exists s', R s s') -> wpr R C m s Q -> exists a s', returns R (m s) a s'.
Proof.
  intros HR. unfold wpr. generalize (m s) as r. induction r as [a s0|msg| | |s0 k IH]; simpl; try done.
  - intros _. exists a, s0. constructor.
  - intros [HC Hk]. destruct (HR s0 HC) as [s1 H1]. destruct (IH s1 (Hk s1 H1)) as (a & s' & H).
    exists a, s'. by eapply rt_resume.
Qed.
