(* ===== verification/Hw.v ===== *)
(** x86.h, the instructions that reach devices: I/O ports and memory-mapped
    registers.

    A device is a state and what its registers answer; it is a parameter of the
    code, since its behaviour is not in the sources.  Code that uses devices
    runs on a state paired with that of the devices, and code that does not is
    lifted to it. *)
From S2P Require Import Prelude Memory Kernel.

(** An I/O port read or written a byte, a half word or a word at a time, and a
    memory-mapped register. *)
Inductive reg := Port8 (p : Z) | Port16 (p : Z) | Port32 (p : Z) | Mmio (a : Z).

#[export] Instance reg_eq_dec : EqDecision reg.
Proof. solve_decision. Defined.

Class Device (D : Type) := {
  d_in : reg -> D -> Z * D;
  d_out : reg -> Z -> D -> D;
}.

(** A state with devices. *)
Record board (D S : Type) := Mkboard {
  bd_dev : D;
  bd_st : S;
}.
Global Arguments Mkboard {D S} bd_dev bd_st.
Global Arguments bd_dev {D S} b.
Global Arguments bd_st {D S} b.

Section hw.
Context {D : Type} `{!Device D} {S : Type}.

Definition in_reg (r : reg) : M (board D S) Z := fun b =>
  let '(v, d) := d_in r (bd_dev b) in Ok v (Mkboard d (bd_st b)).

Definition out_reg (r : reg) (v : Z) : M (board D S) unit := fun b =>
  Ok tt (Mkboard (d_out r v (bd_dev b)) (bd_st b)).

Definition inb (port : Z) : M (board D S) Z := v ← in_reg (Port8 port); mret (u8 v).
Definition outb (port v : Z) : M (board D S) unit := out_reg (Port8 port) (u8 v).

(** The words of [insl] and [outsl], in order. *)
Fixpoint in_words (port : Z) (n : nat) : M (board D S) (list Z) :=
  match n with
  | O => mret []
  | Datatypes.S n' =>
      v ← in_reg (Port32 port);
      l ← in_words port n';
      mret (u32 v :: l)
  end.

Fixpoint out_words (port : Z) (l : list Z) : M (board D S) unit :=
  match l with
  | [] => mret tt
  | v :: l' => out_reg (Port32 port) v;; out_words port l'
  end.

(** Code that does not use the devices. *)
Fixpoint lift_res {A} (d : D) (r : res S A) : res (board D S) A :=
  match r with
  | Ok a s => Ok a (Mkboard d s)
  | Panic msg => Panic msg
  | Hang => Hang
  | NoFuel => NoFuel
  | Swtch s k => Swtch (Mkboard d s) (fun b => lift_res (bd_dev b) (k (bd_st b)))
  end.

Definition lift {A} (m : M S A) : M (board D S) A := fun b => lift_res (bd_dev b) (m (bd_st b)).

Lemma lift_gets {A B} (f : S -> A) (k : A -> M (board D S) B) d s :
  (lift (gets f) ≫= k) (Mkboard d s) = k (f s) (Mkboard d s).
Proof. done. Qed.

Lemma lift_modify {B} (f : S -> S) (k : unit -> M (board D S) B) d s :
  (lift (modify f) ≫= k) (Mkboard d s) = k tt (Mkboard d (f s)).
Proof. done. Qed.

Lemma lift_ok {A} (m : M S A) d s a s' : m s = Ok a s' -> lift m (Mkboard d s) = Ok a (Mkboard d s').
Proof. unfold lift. cbn. by intros ->. Qed.
End hw.

(** The bytes of a sequence of words, and back. *)
Definition le_bytes (v : Z) : list Z := [u8 v; u8 (v / 2 ^ 8); u8 (v / 2 ^ 16); u8 (v / 2 ^ 24)].

Definition bytes_of_words (l : list Z) : list Z := l ≫= le_bytes.

Fixpoint words_of_bytes (l : list Z) : list Z :=
  match l with
  | a :: b :: c :: d :: l' => (a + 2 ^ 8 * b + 2 ^ 16 * c + 2 ^ 24 * d) :: words_of_bytes l'
  | _ => []
  end.

Lemma le_bytes_id a b c d :
  is_u8 a -> is_u8 b -> is_u8 c -> is_u8 d -> le_bytes (a + 2 ^ 8 * b + 2 ^ 16 * c + 2 ^ 24 * d) = [a; b; c; d].
Proof.
  unfold le_bytes, u8, is_u8. change (2 ^ 8) with 256. change (2 ^ 16) with (256 * 256).
  change (2 ^ 24) with (256 * 256 * 256). intros Ha Hb Hc Hd.
  repeat f_equal; rewrite <- ?Z.div_div by lia; Z.to_euclidean_division_equations; lia.
Qed.

Lemma bytes_words l n : length l = (4 * n)%nat -> Forall is_u8 l -> bytes_of_words (words_of_bytes l) = l.
Proof.
  revert l; induction n as [|n IH]; intros l Hl Hb; [by destruct l|].
  destruct l as [|a [|b [|c [|d l]]]]; simpl in Hl; try lia.
  apply Forall_cons in Hb as [Ha Hb]. apply Forall_cons in Hb as [Hb Hc]. apply Forall_cons in Hc as [Hc Hd].
  apply Forall_cons in Hd as [Hd Hl']. cbn [words_of_bytes]. unfold bytes_of_words. cbn [mbind list_bind].
  fold (bytes_of_words (words_of_bytes l)). rewrite IH by (done || lia). by rewrite le_bytes_id.
Qed.

Lemma length_words l n : length l = (4 * n)%nat -> length (words_of_bytes l) = n.
Proof.
  revert l; induction n as [|n IH]; intros l Hl; [by destruct l|].
  destruct l as [|a [|b [|c [|d l]]]]; simpl in Hl; try lia. cbn [words_of_bytes length]. f_equal. apply IH. lia.
Qed.

Lemma words_u32 l : Forall is_u8 l -> u32 <$> words_of_bytes l = words_of_bytes l.
Proof.
  remember (length l) as n eqn:E. revert l E; induction (lt_wf n) as [n _ IH]; intros l -> Hb.
  destruct l as [|a [|b [|c [|d l]]]]; [done..|].
  apply Forall_cons in Hb as [Ha Hb]. apply Forall_cons in Hb as [Hb Hc]. apply Forall_cons in Hc as [Hc Hd].
  apply Forall_cons in Hd as [Hd Hl]. cbn [words_of_bytes]. rewrite fmap_cons, u32_id by (wrap_unfold; lia).
  f_equal. eapply IH; [|done|done]. simpl. lia.
Qed.
