(* ===== verification/Ata.v ===== *)
(** What the disk drivers rely on: a controller that follows the ATA protocol for
    transfers by programmed I/O.

    The controller is a parameter of bootmain.c and ide.c; [Ata] states, of its
    registers, what the drivers use.  [sim] is a controller for which that
    holds. *)
From S2P Require Import Prelude Memory Kernel Hw.

(** A sequence of register writes, and [n] reads of a register. *)
Definition outs {D} `{!Device D} (l : list (reg * Z)) (d : D) : D := foldl (fun d '(r, v) => d_out r v d) d l.

Fixpoint ins {D} `{!Device D} (r : reg) (n : nat) (d : D) : list Z * D :=
  match n with
  | O => ([], d)
  | S n' => let '(v, d1) := d_in r d in let '(l, d2) := ins r n' d1 in (v :: l, d2)
  end.

(** The status register, read until BSY is clear and DRDY set. *)
Fixpoint poll {D} `{!Device D} (fuel : nat) (d : D) : option (Z * D) :=
  let '(st, d1) := d_in (Port8 503) d in
  if Z.land (u8 st) 192 =? 64 then Some (u8 st, d1)
  else match fuel with O => None | S fuel' => poll fuel' d1 end.

(** The contents of the sectors of the two drives. *)
Definition sectors : Type := Z -> Z -> list Z.

Definition set_sector (x : sectors) (drive lba : Z) (l : list Z) : sectors := fun dr n =>
  if bool_decide (dr = drive /\ n = lba) then l else x dr n.

(** The writes to the command block that start a command on one sector. *)
Definition command (cmd drive lba : Z) : list (reg * Z) :=
  [(Port8 498, 1); (Port8 499, lba mod 2 ^ 8); (Port8 500, lba / 2 ^ 8 mod 2 ^ 8);
   (Port8 501, lba / 2 ^ 16 mod 2 ^ 8); (Port8 502, 224 + 16 * drive + lba / 2 ^ 24); (Port8 503, cmd)].

Class Ata (D : Type) `{!Device D} := {
  (** How many times a status register may be found busy. *)
  ata_patience : nat;
  (** The controller is idle; it has data to be read; it waits for data. *)
  ata_idle : sectors -> D -> Prop;
  ata_reading : sectors -> Z -> Z -> D -> Prop;
  ata_writing : sectors -> Z -> Z -> D -> Prop;
  ata_ext x y d : ata_idle x d -> (forall dr n, y dr n = x dr n) -> ata_idle y d;
  ata_idle_poll x d : ata_idle x d -> exists st d', poll ata_patience d = Some (st, d') /\ ata_idle x d';
  ata_control x d : ata_idle x d -> ata_idle x (d_out (Port8 1014) 0 d);
  ata_read x drive lba d :
    ata_idle x d -> 0 <= drive <= 1 -> 0 <= lba < 2 ^ 28 -> ata_reading x drive lba (outs (command 32 drive lba) d);
  ata_write x drive lba d :
    ata_idle x d -> 0 <= drive <= 1 -> 0 <= lba < 2 ^ 28 -> ata_writing x drive lba (outs (command 48 drive lba) d);
  ata_read_poll x drive lba d :
    ata_reading x drive lba d ->
    exists st d', poll ata_patience d = Some (st, d') /\ Z.land st 33 = 0 /\ ata_reading x drive lba d';
  ata_data_in x drive lba d :
    ata_reading x drive lba d -> length (x drive lba) = 512%nat ->
    exists d', ins (Port32 496) 128 d = (words_of_bytes (x drive lba), d') /\ ata_idle x d';
  ata_data_out x drive lba d l :
    ata_writing x drive lba d -> length l = 128%nat ->
    ata_idle (set_sector x drive lba (bytes_of_words l)) (outs ((fun v => (Port32 496, v)) <$> l) d);
}.

(** ** The instructions of the drivers *)

Lemma poll_mono {D} `{!Device D} n n' (d : D) r : poll n d = Some r -> (n <= n')%nat -> poll n' d = Some r.
Proof.
  revert n' d; induction n as [|n IH]; intros n' d H Hn.
  - destruct n'; [done|]. cbn [poll] in *. destruct (d_in _ d). by case_match.
  - destruct n' as [|n']; [lia|]. cbn [poll] in *. destruct (d_in _ d). case_match; [done|]. apply IH; [done|lia].
Qed.

Lemma in_words_ins {D S} `{!Device D} port n (d : D) (s : S) :
  in_words port n (Mkboard d s) = let '(l, d') := ins (Port32 port) n d in Ok (u32 <$> l) (Mkboard d' s).
Proof.
  revert d; induction n as [|n IH]; intros d; [done|]. cbn [in_words ins].
  unfold in_reg, mbind, M_bind. cbn [bd_dev bd_st]. destruct (d_in (Port32 port) d) as [v d1]. cbn [res_bind].
  rewrite IH. by destruct (ins (Port32 port) n d1).
Qed.

Lemma out_words_outs {D S} `{!Device D} port l (d : D) (s : S) :
  out_words port l (Mkboard d s) = Ok tt (Mkboard (outs ((fun v => (Port32 port, v)) <$> l) d) s).
Proof.
  revert d; induction l as [|v l IH]; intros d; [done|]. cbn [out_words].
  unfold out_reg, mbind, M_bind. cbn [bd_dev bd_st res_bind]. by rewrite IH.
Qed.

(** ** A controller *)

(** The registers, the sectors written so far, the words to be read, the words
    received for a sector, and whether the next read of the status finds the
    controller busy. *)
Record sim := Mksim {
  sm_regs : gmap Z Z;
  sm_disk : gmap (Z * Z) (list Z);
  sm_out : list Z;
  sm_in : option (list Z);
  sm_busy : bool;
}.

Definition sim_reg (d : sim) (p : Z) : Z := default 0 (sm_regs d !! p).

Definition sim_drive (d : sim) : Z := sim_reg d 502 / 2 ^ 4 mod 2.
Definition sim_lba (d : sim) : Z :=
  sim_reg d 499 + 2 ^ 8 * sim_reg d 500 + 2 ^ 16 * sim_reg d 501 + 2 ^ 24 * (sim_reg d 502 mod 2 ^ 4).

Definition sim_sectors (d : sim) : sectors := fun dr n => default block0 (sm_disk d !! (dr, n)).

Definition sim_in (r : reg) (d : sim) : Z * sim :=
  match r with
  | Port8 503 =>
      if sm_busy d then (128, Mksim (sm_regs d) (sm_disk d) (sm_out d) (sm_in d) false) else (64, d)
  | Port32 496 =>
      match sm_out d with
      | [] => (0, d)
      | v :: l => (v, Mksim (sm_regs d) (sm_disk d) l (sm_in d) (sm_busy d))
      end
  | _ => (0, d)
  end.

Definition sim_out (r : reg) (v : Z) (d : sim) : sim :=
  match r with
  | Port8 503 =>
      if v =? 32 then
        Mksim (sm_regs d) (sm_disk d) (words_of_bytes (sim_sectors d (sim_drive d) (sim_lba d))) None true
      else if v =? 48 then Mksim (sm_regs d) (sm_disk d) [] (Some []) true
      else d
  | Port8 p => Mksim (<[p := v]> (sm_regs d)) (sm_disk d) (sm_out d) (sm_in d) (sm_busy d)
  | Port32 496 =>
      match sm_in d with
      | None => d
      | Some l =>
          if bool_decide (length l = 127%nat) then
            Mksim (sm_regs d) (<[(sim_drive d, sim_lba d) := bytes_of_words (l ++ [v])]> (sm_disk d)) [] None true
          else Mksim (sm_regs d) (sm_disk d) (sm_out d) (Some (l ++ [v])) (sm_busy d)
      end
  | _ => d
  end.

#[export] Instance sim_device : Device sim := { d_in := sim_in; d_out := sim_out }.

Definition sim_shows (x : sectors) (d : sim) : Prop := forall dr n, x dr n = sim_sectors d dr n.
Definition sim_idle (x : sectors) (d : sim) : Prop := sim_shows x d /\ sm_out d = [] /\ sm_in d = None.
Definition sim_reading (x : sectors) (drive lba : Z) (d : sim) : Prop :=
  sim_shows x d /\ sm_out d = words_of_bytes (x drive lba) /\ sm_in d = None.
Definition sim_writing (x : sectors) (drive lba : Z) (d : sim) : Prop :=
  sim_shows x d /\ sm_out d = [] /\ sm_in d = Some [] /\ sim_drive d = drive /\ sim_lba d = lba.

Lemma sim_poll d : exists d', poll 1 d = Some (64, d') /\ sm_regs d' = sm_regs d /\ sm_disk d' = sm_disk d /\
  sm_out d' = sm_out d /\ sm_in d' = sm_in d.
Proof.
  cbn. destruct (sm_busy d) eqn:E; cbn; eexists; split_and!; done.
Qed.

Lemma sim_command drive lba d :
  0 <= drive <= 1 -> 0 <= lba < 2 ^ 28 ->
  let d' := outs (take 5 (command 0 drive lba)) d in
  sim_drive d' = drive /\ sim_lba d' = lba /\ sm_disk d' = sm_disk d /\ sm_out d' = sm_out d /\ sm_in d' = sm_in d.
Proof.
  intros Hd Hl. cbn -[Z.div Z.modulo Z.pow Z.mul Z.add]. unfold sim_drive, sim_lba, sim_reg. cbn [sm_regs].
  repeat (rewrite lookup_insert_eq || rewrite lookup_insert_ne by done). cbn [default]. unfold id.
  change (2 ^ 4) with 16. change (2 ^ 8) with 256. change (2 ^ 16) with (256 * 256).
  change (2 ^ 24) with (256 * 256 * 256). rewrite <- ?Z.div_div by lia. set (b := lba / 256 / 256 / 256).
  assert (Hb : 0 <= b < 16) by (unfold b; Z.to_euclidean_division_equations; lia).
  replace (224 + 16 * drive + b) with (b + (14 + drive) * 16) by lia. rewrite Z.div_add, Z.mod_add by lia.
  rewrite (Z.div_small b), (Z.mod_small b) by lia.
  split_and!; [Z.to_euclidean_division_equations; lia|unfold b; Z.to_euclidean_division_equations; lia|done..].
Qed.

Lemma sim_data_in l d :
  sm_out d = l -> exists d', ins (Port32 496) (length l) d = (l, d') /\ sm_disk d' = sm_disk d /\ sm_out d' = [] /\ sm_in d' = sm_in d.
Proof.
  revert d; induction l as [|v l IH]; intros d H; [by exists d|].
  cbn -[sim_in]. unfold sim_in. cbv iota. rewrite H. destruct (IH (Mksim (sm_regs d) (sm_disk d) l (sm_in d) (sm_busy d))) as (d' & E & H1); [done|].
  rewrite E. by exists d'.
Qed.

Lemma sim_data_out l l0 d :
  sm_in d = Some l0 -> sm_out d = [] -> (length l0 + length l = 128)%nat -> l <> [] ->
  let d' := outs ((fun v => (Port32 496, v)) <$> l) d in
  sm_disk d' = <[(sim_drive d, sim_lba d) := bytes_of_words (l0 ++ l)]> (sm_disk d) /\ sm_out d' = [] /\ sm_in d' = None.
Proof.
  revert l0 d; induction l as [|v l IH]; intros l0 d Hi Ho Hl Hne; [done|]. cbn zeta. rewrite fmap_cons.
  change (outs ((Port32 496, v) :: ((fun v => (Port32 496, v)) <$> l)) d)
    with (outs ((fun v => (Port32 496, v)) <$> l) (sim_out (Port32 496) v d)).
  unfold sim_out at 1 2 3. cbv iota. rewrite Hi. destruct l as [|w l].
  - rewrite bool_decide_true by (simpl in Hl; lia). cbn. done.
  - rewrite bool_decide_false by (simpl in Hl; lia).
    destruct (IH (l0 ++ [v]) (Mksim (sm_regs d) (sm_disk d) (sm_out d) (Some (l0 ++ [v])) (sm_busy d)))
      as (H1 & H2 & H3); [done|done|rewrite length_app; simpl in *; lia|done|].
    split_and!; [|done|done]. rewrite H1, <- app_assoc. done.
Qed.

#[export] Instance sim_ata : Ata sim.
Proof.
  refine {| ata_patience := 1; ata_idle := sim_idle; ata_reading := sim_reading; ata_writing := sim_writing |};
    unfold sim_idle, sim_reading, sim_writing.
  - intros x y d (H1 & H2) H. split; [|done]. intros dr n. by rewrite H.
  - intros x d (H1 & H2 & H3). destruct (sim_poll d) as (d' & E & E1 & E2 & E3 & E4). exists 64, d'.
    split_and!; [done| |congruence..]. intros dr n. rewrite H1. unfold sim_sectors. by rewrite E2.
  - done.
  - intros x drive lba d (H1 & H2 & H3) Hd Hl. destruct (sim_command drive lba d Hd Hl) as (E1 & E2 & E3 & E4 & E5).
    change (outs (command 32 drive lba) d) with (sim_out (Port8 503) 32 (outs (take 5 (command 0 drive lba)) d)).
    set (d1 := outs _ d) in *. clearbody d1. split_and!; [|cbn -[sim_sectors sim_drive sim_lba words_of_bytes]; rewrite E1, E2, H1; unfold sim_sectors; by rewrite E3|done].
    intros dr n. rewrite H1. unfold sim_sectors. cbn. by rewrite E3.
  - intros x drive lba d (H1 & H2 & H3) Hd Hl. destruct (sim_command drive lba d Hd Hl) as (E1 & E2 & E3 & E4 & E5).
    change (outs (command 48 drive lba) d) with (sim_out (Port8 503) 48 (outs (take 5 (command 0 drive lba)) d)).
    set (d1 := outs _ d) in *. clearbody d1. split_and!; [|done..].
    intros dr n. rewrite H1. unfold sim_sectors. cbn. by rewrite E3.
  - intros x drive lba d (H1 & H2 & H3). destruct (sim_poll d) as (d' & E & E1 & E2 & E3 & E4). exists 64, d'.
    split_and!; [done|done| |congruence..]. intros dr n. rewrite H1. unfold sim_sectors. by rewrite E2.
  - intros x drive lba d (H1 & H2 & H3) Hl. destruct (sim_data_in _ d H2) as (d' & E & E1 & E2 & E3).
    rewrite (length_words _ 128) in E by done. exists d'. split_and!; [done| |done|congruence].
    intros dr n. rewrite H1. unfold sim_sectors. by rewrite E1.
  - intros x drive lba d l (H1 & H2 & H3 & H4 & H5) Hl.
    destruct (sim_data_out l [] d H3 H2) as (E1 & E2 & E3); [done|by destruct l|].
    split_and!; [|done..]. intros dr n. unfold set_sector, sim_sectors. rewrite E1, H4, H5.
    case_bool_decide as E.
    + destruct E as [-> ->]. by rewrite lookup_insert_eq.
    + rewrite lookup_insert_ne by (intros [= <- <-]; by apply E). apply H1.
Defined.
