(* ===== verification/CString.v ===== *)
(** string.c: the kernel's memory and string routines, on byte-addressed
    memory.  Pointers are addresses, [char] values are bytes, and the
    bounded loops recurse on the count they decrement. *)
From S2P Require Import Prelude Memory.

(** [stosb] and [stosl] of x86.h: [rep stosb] stores the low byte of [data]
    [cnt] times, [rep stosl] the whole word. *)
Definition stosb (m : memory) (addr data cnt : Z) : memory :=
  fill_bytes m addr data (Z.to_nat cnt).

Fixpoint stosl_n (m : memory) (addr data : Z) (cnt : nat) : memory :=
  match cnt with
  | O => m
  | S cnt' => stosl_n (store32 m addr data) (addr + 4) data cnt'
  end.

Definition stosl (m : memory) (addr data cnt : Z) : memory :=
  stosl_n m addr data (Z.to_nat cnt).

Definition memset (m : memory) (dst c n : Z) : memory :=
  if (dst mod 4 =? 0) && (n mod 4 =? 0) then
    let c := Z.land c 255 in
    stosl m dst
      (Z.lor (Z.lor (Z.lor (Z.shiftl c 24) (Z.shiftl c 16)) (Z.shiftl c 8)) c)
      (n / 4)
  else stosb m dst c n.

Fixpoint memcmp (m : memory) (s1 s2 : Z) (n : nat) : Z :=
  match n with
  | O => 0
  | S n' =>
      if negb (load8 m s1 =? load8 m s2) then load8 m s1 - load8 m s2
      else memcmp m (s1 + 1) (s2 + 1) n'
  end.

(** [while(n-- > 0) *--d = *--s;] *)
Fixpoint copy_down (m : memory) (d s : Z) (n : nat) : memory :=
  match n with
  | O => m
  | S n' => copy_down (store8 m (d - 1) (load8 m (s - 1))) (d - 1) (s - 1) n'
  end.

(** [while(n-- > 0) *d++ = *s++;] *)
Fixpoint copy_up (m : memory) (d s : Z) (n : nat) : memory :=
  match n with
  | O => m
  | S n' => copy_up (store8 m d (load8 m s)) (d + 1) (s + 1) n'
  end.

Definition memmove (m : memory) (dst src n : Z) : memory :=
  if (src <? dst) && (dst <? src + n)
  then copy_down m (dst + n) (src + n) (Z.to_nat n)
  else copy_up m dst src (Z.to_nat n).

Definition memcpy (m : memory) (dst src n : Z) : memory := memmove m dst src n.

Fixpoint strncmp (m : memory) (p q : Z) (n : nat) : Z :=
  match n with
  | O => 0
  | S n' =>
      if c_true (load8 m p) && (load8 m p =? load8 m q)
      then strncmp m (p + 1) (q + 1) n'
      else load8 m p - load8 m q
  end.

(** The first loop of [strncpy] and the loop of [safestrcpy]: copy up to [n]
    characters, stopping after a NUL; gives the memory, the destination
    pointer and what is left of [n]. *)
Fixpoint copy_str (m : memory) (s t : Z) (n : nat) : memory * Z * nat :=
  match n with
  | O => (m, s, O)
  | S n' =>
      let c := load8 m t in
      let m' := store8 m s c in
      if c_true c then copy_str m' (s + 1) (t + 1) n' else (m', s + 1, n')
  end.

Definition strncpy (m : memory) (s t n : Z) : memory :=
  let '(m', s', n') := copy_str m s t (Z.to_nat n) in
  fill_bytes m' s' 0 n'.

Definition safestrcpy (m : memory) (s t n : Z) : memory :=
  if n <=? 0 then m
  else let '(m', s', _) := copy_str m s t (Z.to_nat (n - 1)) in store8 m' s' 0.

(** [for(n = 0; s[n]; n++);], with a bound on the length. *)
Fixpoint strlen (m : memory) (s : Z) (fuel : nat) : option Z :=
  match fuel with
  | O => None
  | S fuel' =>
      if c_true (load8 m s)
      then n ← strlen m (s + 1) fuel'; Some (n + 1)
      else Some 0
  end.

(** ** Specifications *)

(** The string held by a [char] array of [n] bytes: what precedes its first
    NUL, or all of it. *)
Fixpoint cprefix (m : memory) (a : Z) (n : nat) : list Z :=
  match n with
  | O => []
  | S n' => if c_true (load8 m a) then load8 m a :: cprefix m (a + 1) n' else []
  end.

(** [l], without NULs, followed by a NUL, is stored at [a]. *)
Fixpoint cstr (m : memory) (a : Z) (l : list Z) : Prop :=
  match l with
  | [] => load8 m a = 0
  | c :: l' => c <> 0 /\ load8 m a = c /\ cstr m (a + 1) l'
  end.

Lemma c_true_spec x : reflect (x <> 0) (c_true x).
Proof. unfold c_true. destruct (Z.eqb_spec x 0); simpl; [right|left]; tauto. Qed.

Lemma u8_load8 m a : mem_ok m -> u8 (load8 m a) = load8 m a.
Proof. intros H. apply u8_id, H. Qed.

Lemma store8_u8 m a v w : u8 v = u8 w -> store8 m a v = store8 m a w.
Proof. unfold store8. by intros ->. Qed.

(** The word that [memset] builds has the fill byte in each position. *)
Lemma memset_word m a c :
  let b := Z.land c 255 in
  store32 m a (Z.lor (Z.lor (Z.lor (Z.shiftl b 24) (Z.shiftl b 16)) (Z.shiftl b 8)) b)
  = fill_bytes m a c 4.
Proof.
  intros b. unfold store32. cbn [fill_bytes].
  replace (a + 1 + 1) with (a + 2) by lia. replace (a + 2 + 1) with (a + 3) by lia.
  assert (Hb : forall i, 0 <= i -> Z.testbit b i = Z.testbit c i && (i <? 8)).
  { intros i Hi. unfold b. rewrite Z.land_spec. f_equal.
    change 255 with (Z.ones 8). destruct (Z.ltb_spec i 8).
    - apply Z.ones_spec_low; lia.
    - apply Z.ones_spec_high; lia. }
  assert (Hw : forall k, 0 <= k <= 3 ->
    u8 (Z.lor (Z.lor (Z.lor (Z.shiftl b 24) (Z.shiftl b 16)) (Z.shiftl b 8)) b
        / 2 ^ (8 * k)) = u8 c).
  { intros k Hk. unfold u8. rewrite <- Z.shiftr_div_pow2 by lia.
    apply Z.bits_inj'. intros i Hi.
    destruct (Z.ltb_spec i 8) as [Hlt|Hge].
    2: { rewrite !Z.mod_pow2_bits_high by lia. done. }
    rewrite !Z.mod_pow2_bits_low by lia. rewrite Z.shiftr_spec, !Z.lor_spec by lia.
    rewrite !Z.shiftl_spec by lia.
    assert (Hk' : k = 0 \/ k = 1 \/ k = 2 \/ k = 3) by lia.
    assert (Hneg : forall j, j < 0 -> Z.testbit b j = false)
      by (intros; by apply Z.testbit_neg_r).
    assert (Hi8 : (i <? 8) = true) by (apply Z.ltb_lt; lia).
    destruct Hk' as [->|[->|[->| ->]]];
      repeat match goal with
      | |- context [Z.testbit b ?j] =>
          first [ rewrite (Hneg j) by lia
                | replace (Z.testbit b j) with false
                    by (rewrite Hb by lia; destruct (Z.ltb_spec j 8); [lia|by rewrite andb_false_r])
                | replace j with i by lia; rewrite (Hb i) by lia; rewrite Hi8 ]
      end; by rewrite ?andb_true_r, ?orb_false_r, ?orb_false_l. }
  pose proof (Hw 0 ltac:(lia)) as H0. pose proof (Hw 1 ltac:(lia)) as H1.
  pose proof (Hw 2 ltac:(lia)) as H2. pose proof (Hw 3 ltac:(lia)) as H3.
  change (2 ^ (8 * 0)) with 1 in H0. rewrite Z.div_1_r in H0.
  change (2 ^ (8 * 1)) with (2 ^ 8) in H1. change (2 ^ (8 * 2)) with (2 ^ 16) in H2.
  change (2 ^ (8 * 3)) with (2 ^ 24) in H3.
  unfold store8. rewrite H0, H1, H2, H3. done.
Qed.

Lemma fill_bytes_app m a c n k :
  fill_bytes m a c (n + k) = fill_bytes (fill_bytes m a c n) (a + Z.of_nat n) c k.
Proof.
  revert m a; induction n as [|n IH]; intros m a; cbn [fill_bytes Nat.add].
  - by rewrite Z.add_0_r.
  - rewrite IH. f_equal. lia.
Qed.

Lemma stosl_n_fill m a c n :
  let b := Z.land c 255 in
  stosl_n m a
    (Z.lor (Z.lor (Z.lor (Z.shiftl b 24) (Z.shiftl b 16)) (Z.shiftl b 8)) b) n
  = fill_bytes m a c (4 * n).
Proof.
  cbv zeta. revert m a; induction n as [|n IH]; intros m a; [done|].
  cbn [stosl_n]. rewrite memset_word, IH.
  replace (4 * S n)%nat with (4 + 4 * n)%nat by lia.
  rewrite fill_bytes_app. done.
Qed.

Lemma memset_fill_bytes m dst c n :
  0 <= n -> memset m dst c n = fill_bytes m dst c (Z.to_nat n).
Proof.
  intros Hn. unfold memset.
  destruct (Z.eqb_spec (dst mod 4) 0), (Z.eqb_spec (n mod 4) 0); simpl; try done.
  unfold stosl. rewrite stosl_n_fill. f_equal.
  Z.to_euclidean_division_equations. lia.
Qed.

Lemma load8_copy_up m d s n a :
  mem_ok m -> (d <= s \/ s + Z.of_nat n <= d) ->
  load8 (copy_up m d s n) a =
    if decide (d <= a < d + Z.of_nat n) then load8 m (s + (a - d)) else load8 m a.
Proof.
  revert m d s; induction n as [|n IH]; intros m d s Hm Hds; cbn [copy_up].
  - case_decide; [lia|done].
  - rewrite IH by (auto with xv6; lia). rewrite !load8_store8.
    repeat case_decide; try lia; try done.
    + f_equal. lia.
    + rewrite u8_load8 by done. f_equal. lia.
Qed.

Lemma load8_copy_down m d s n a :
  mem_ok m -> s <= d ->
  load8 (copy_down m d s n) a =
    if decide (d - Z.of_nat n <= a < d) then load8 m (s + (a - d)) else load8 m a.
Proof.
  revert m d s; induction n as [|n IH]; intros m d s Hm Hds; cbn [copy_down].
  - case_decide; [lia|done].
  - rewrite IH by (auto with xv6; lia). rewrite !load8_store8.
    repeat case_decide; try lia; try done.
    + f_equal. lia.
    + rewrite u8_load8 by done. f_equal. lia.
Qed.

Lemma load8_memmove m dst src n a :
  mem_ok m -> 0 <= n ->
  load8 (memmove m dst src n) a =
    if decide (dst <= a < dst + n) then load8 m (src + (a - dst)) else load8 m a.
Proof.
  intros Hm Hn. unfold memmove.
  destruct (Z.ltb_spec src dst), (Z.ltb_spec dst (src + n)); simpl.
  1: rewrite load8_copy_down by (done || lia).
  2-4: rewrite load8_copy_up by (done || lia).
  all: rewrite ?Z2Nat.id by lia; repeat case_decide; try lia; try done; f_equal; lia.
Qed.

Lemma cprefix_ext m m' a n :
  (forall b, a <= b < a + Z.of_nat n -> load8 m' b = load8 m b) ->
  cprefix m' a n = cprefix m a n.
Proof.
  revert a; induction n as [|n IH]; intros a H; cbn [cprefix]; [done|].
  rewrite H by lia. rewrite (IH (a + 1)); [done|]. intros b Hb. apply H. lia.
Qed.

Lemma strncmp_cprefix m p q n :
  strncmp m p q n = 0 <-> cprefix m p n = cprefix m q n.
Proof.
  revert p q; induction n as [|n IH]; intros p q; cbn [strncmp cprefix]; [done|].
  destruct (c_true_spec (load8 m p)) as [Hp|Hp]; simpl.
  - destruct (Z.eqb_spec (load8 m p) (load8 m q)) as [E|E].
    + rewrite IH, <- E. destruct (c_true_spec (load8 m p)); [|done].
      split; congruence.
    + destruct (c_true_spec (load8 m q)); split; intros H; congruence || lia.
  - destruct (c_true_spec (load8 m q)); split; intros H; congruence || lia.
Qed.

(** [copy_str] copies the characters of [t] up to a NUL or [n] of them, when
    the destination does not overlap what is still to be read. *)
Lemma copy_str_spec m s t n :
  mem_ok m -> s + Z.of_nat n <= t \/ t + Z.of_nat n <= s ->
  let l := cprefix m t n in
  let '(m', s', n') := copy_str m s t n in
  mem_ok m' /\ (n' <= n)%nat /\ s' = s + Z.of_nat (n - n') /\
  (forall b, ~ (s <= b < s') -> load8 m' b = load8 m b) /\
  (length l <= n)%nat /\
  (forall b, s <= b < s' -> load8 m' b = default 0 (l !! Z.to_nat (b - s))) /\
  n' = (n - (length l + 1))%nat.
Proof.
  revert m s t; induction n as [|n IH]; intros m s t Hm Hdis; cbn [copy_str cprefix].
  { simpl. split_and!; auto; intros; lia. }
  destruct (c_true_spec (load8 m t)) as [Hc|Hc].
  - specialize (IH (store8 m s (load8 m t)) (s + 1) (t + 1) ltac:(auto with xv6) ltac:(lia)).
    rewrite (cprefix_ext m) in IH
      by (intros b Hb; rewrite load8_store8_ne by lia; done).
    destruct (copy_str _ (s + 1) (t + 1) n) as [[m' s'] n'].
    destruct IH as (Hm' & Hn' & -> & Hout & Hlen & Hin & Hn).
    split_and!; simpl length; auto; try lia.
    + intros b Hb. rewrite Hout by lia. apply load8_store8_ne. lia.
    + intros b Hb. destruct (decide (b = s)) as [->|Hne].
      * rewrite Hout by lia. rewrite load8_store8_eq, Z.sub_diag. simpl.
        by rewrite u8_load8.
      * rewrite Hin by lia.
        by replace (Z.to_nat (b - s)) with (S (Z.to_nat (b - (s + 1)))) by lia.
  - simpl. split_and!; auto with xv6; try lia.
    + intros b Hb. apply load8_store8_ne. lia.
    + intros b Hb. assert (b = s) as -> by lia. rewrite load8_store8_eq.
      by rewrite u8_load8 by done; destruct (decide (load8 m t = 0)); [|tauto].
Qed.

Lemma cprefix_nonzero m a n : Forall (fun c => c <> 0) (cprefix m a n).
Proof.
  revert a; induction n as [|n IH]; intros a; cbn [cprefix]; [constructor|].
  destruct (c_true_spec (load8 m a)); by constructor.
Qed.

Lemma cprefix_length m a n : (length (cprefix m a n) <= n)%nat.
Proof.
  revert a; induction n as [|n IH]; intros a; cbn [cprefix]; [simpl; lia|].
  destruct (c_true (load8 m a)); simpl; [specialize (IH (a + 1))|]; lia.
Qed.

(** Memory that holds [l] padded with NULs on [s, s+n) holds the string [l]. *)
Lemma cprefix_intro m s l n :
  Forall (fun c => c <> 0) l -> (length l <= n)%nat ->
  (forall b, s <= b < s + Z.of_nat n -> load8 m b = default 0 (l !! Z.to_nat (b - s))) ->
  cprefix m s n = l.
Proof.
  revert s l; induction n as [|n IH]; intros s l Hl Hlen H; cbn [cprefix].
  { destruct l; [done|simpl in Hlen; lia]. }
  rewrite (H s) by lia. rewrite Z.sub_diag. destruct l as [|c l]; simpl; [done|].
  inversion_clear Hl. destruct (c_true_spec c); [|done]. f_equal.
  apply IH; auto; [simpl in Hlen; lia|]. intros b Hb. rewrite H by lia.
  by replace (Z.to_nat (b - s)) with (S (Z.to_nat (b - (s + 1)))) by lia.
Qed.

Lemma cstr_intro m s l :
  Forall (fun c => c <> 0) l ->
  (forall b, s <= b <= s + Z.of_nat (length l) ->
    load8 m b = default 0 (l !! Z.to_nat (b - s))) ->
  cstr m s l.
Proof.
  revert s; induction l as [|c l IH]; intros s Hl H; simpl.
  - by rewrite H, Z.sub_diag by (simpl; lia).
  - inversion_clear Hl. split_and!; [done| |].
    + rewrite H by (simpl; lia). by rewrite Z.sub_diag.
    + apply IH; [done|]. intros b Hb. rewrite H by (simpl; lia).
      by replace (Z.to_nat (b - s)) with (S (Z.to_nat (b - (s + 1)))) by lia.
Qed.

Lemma strncpy_bytes m s t n :
  mem_ok m -> 0 <= n -> s + n <= t \/ t + n <= s ->
  let l := cprefix m t (Z.to_nat n) in
  let m' := strncpy m s t n in
  same_outside s (s + n) m m' /\
  forall b, s <= b < s + n -> load8 m' b = default 0 (l !! Z.to_nat (b - s)).
Proof.
  intros Hm Hn Hdis l m'. subst m'. unfold strncpy.
  pose proof (copy_str_spec m s t (Z.to_nat n) Hm ltac:(lia)) as H. cbv zeta in H.
  fold l in H. destruct (copy_str m s t (Z.to_nat n)) as [[m1 s1] n1].
  destruct H as (Hm1 & Hn1 & -> & Hout & Hlen & Hin & Hn1').
  split; intros b Hb; rewrite load8_fill_bytes.
  - case_decide; [lia|]. apply Hout. lia.
  - case_decide.
    + rewrite lookup_ge_None_2 by lia. done.
    + apply Hin. lia.
Qed.

Lemma safestrcpy_bytes m s t n :
  mem_ok m -> 0 < n -> s + n <= t \/ t + n <= s ->
  let l := cprefix m t (Z.to_nat (n - 1)) in
  let m' := safestrcpy m s t n in
  same_outside s (s + n) m m' /\ cstr m' s l.
Proof.
  intros Hm Hn Hdis l m'. subst m'. unfold safestrcpy.
  destruct (Z.leb_spec n 0); [lia|].
  pose proof (copy_str_spec m s t (Z.to_nat (n - 1)) Hm ltac:(lia)) as H'. cbv zeta in H'.
  fold l in H'. destruct (copy_str m s t (Z.to_nat (n - 1))) as [[m1 s1] n1].
  destruct H' as (Hm1 & Hn1 & -> & Hout & Hlen & Hin & Hn1').
  split.
  - intros b Hb. rewrite load8_store8_ne by lia. apply Hout. lia.
  - apply cstr_intro; [apply cprefix_nonzero|]. intros b Hb. rewrite load8_store8.
    case_decide.
    + rewrite lookup_ge_None_2 by lia. done.
    + apply Hin. lia.
Qed.

(** ** Main results *)

(** [memmove] copies [n] bytes exactly, whichever way the two regions
    overlap: every byte of the destination receives the byte the source held
    before the call, and nothing else changes. *)
Theorem memmove_correct m dst src n :
  mem_ok m -> 0 <= n ->
  load_bytes (memmove m dst src n) dst (Z.to_nat n) = load_bytes m src (Z.to_nat n) /\
  same_outside dst (dst + n) m (memmove m dst src n).
Proof.
  intros Hm Hn. split.
  - apply list_eq. intros i. rewrite !load_bytes_lookup. case_decide; [|done].
    rewrite load8_memmove by done. case_decide; [do 2 f_equal; lia|lia].
  - intros a Ha. rewrite load8_memmove by done. by case_decide.
Qed.

Lemma memmove_correct_witness :
  let m := store_bytes ∅ 100 [1; 2; 3; 4; 5] in
  load_bytes (memmove m 102 100 5) 102 (Z.to_nat 5) = load_bytes m 100 (Z.to_nat 5) /\
  same_outside 102 (102 + 5) m (memmove m 102 100 5).
Proof.
  apply memmove_correct; [|lia]. apply mem_ok_store_bytes, mem_ok_empty.
Defined.

(** The word-wise fast path of [memset] and its byte-wise path compute the
    same memory, [n] bytes equal to the low byte of [c], for every address,
    count and fill value. *)
Theorem memset_correct m dst c n :
  0 <= n -> memset m dst c n = stosb m dst c n.
Proof. intros Hn. unfold stosb. by rewrite memset_fill_bytes. Qed.

Lemma memset_correct_witness :
  memset ∅ 4096 (-1) 8 = stosb ∅ 4096 (-1) 8 /\ load8 (memset ∅ 4096 (-1) 8) 4100 = 255.
Proof. split; [apply memset_correct; lia|reflexivity]. Defined.

(** A name written with [strncpy] into a [char[n]] field compares equal to
    its source under [strncmp] with the same bound, the rest of the field is
    NUL, and no byte outside the field is written. *)
Theorem strncpy_strncmp m s t n :
  mem_ok m -> 0 <= n -> s + n <= t \/ t + n <= s ->
  let m' := strncpy m s t n in
  strncmp m' s t (Z.to_nat n) = 0 /\ same_outside s (s + n) m m' /\
  forall i, Z.of_nat (length (cprefix m t (Z.to_nat n))) <= i < n -> load8 m' (s + i) = 0.
Proof.
  intros Hm Hn Hdis m'. destruct (strncpy_bytes m s t n Hm Hn Hdis) as [Hout Hin].
  split_and!; [|done|].
  - apply strncmp_cprefix. rewrite (cprefix_ext m m' t).
    + apply cprefix_intro; [apply cprefix_nonzero|apply cprefix_length|].
      intros b Hb. apply Hin. lia.
    + intros b Hb. apply Hout. lia.
  - intros i Hi. subst m'. rewrite Hin by lia. rewrite lookup_ge_None_2 by lia. done.
Qed.

Lemma strncpy_strncmp_witness :
  let m := store_bytes ∅ 100 [115; 104; 0] in
  let m' := strncpy m 200 100 14 in
  strncmp m' 200 100 (Z.to_nat 14) = 0 /\ same_outside 200 (200 + 14) m m' /\
  forall i, Z.of_nat (length (cprefix m 100 (Z.to_nat 14))) <= i < 14 -> load8 m' (200 + i) = 0.
Proof.
  apply strncpy_strncmp; [|lia|lia]. apply mem_ok_store_bytes, mem_ok_empty.
Defined.

(** [safestrcpy] always leaves a NUL-terminated string of at most [n - 1]
    characters, the longest prefix of the source that fits, and writes
    nothing outside the [n] bytes of the destination. *)
Theorem safestrcpy_terminates m s t n :
  mem_ok m -> 0 < n -> s + n <= t \/ t + n <= s ->
  let m' := safestrcpy m s t n in
  cstr m' s (cprefix m t (Z.to_nat (n - 1))) /\ same_outside s (s + n) m m'.
Proof. intros Hm Hn Hdis m'. by destruct (safestrcpy_bytes m s t n Hm Hn Hdis). Qed.

Lemma safestrcpy_terminates_witness :
  let m := store_bytes ∅ 100 [105; 110; 105; 116; 0] in
  let m' := safestrcpy m 200 100 3 in
  cstr m' 200 (cprefix m 100 (Z.to_nat (3 - 1))) /\ same_outside 200 (200 + 3) m m'.
Proof.
  apply safestrcpy_terminates; [|lia|lia]. apply mem_ok_store_bytes, mem_ok_empty.
Defined.
