(* ===== verification/Spinlock.v ===== *)
(** spinlock.c: mutual exclusion spin locks and the nested disabling of
    interrupts they rely on.

    [acquire] and [release] act on the executing CPU [k_me].  A lock held by
    another CPU makes [acquire] spin, which is the outcome [Hang] of this
    CPU's run; the recording of the call stack in [lk->pcs] is debugging
    information and is left out of [acquire] and [release]. *)
From S2P Require Import Prelude Memory Kernel.

Definition FL_IF : Z := 512.
Definition KERNBASE : Z := 2147483648.

(** memlayout.h: kernel virtual to physical addresses and back. *)
Definition v2p (a : Z) : Z := u32 (a - KERNBASE).
Definition p2v (a : Z) : Z := u32 (a + KERNBASE).

(** ** x86.h: the interrupt flag *)
Definition readeflags : K Z := gets (fun s => if c_if (mycpu s) then FL_IF else 0).
Definition cli : K unit := set_cpu (fun c => c <| c_if := false |>).
Definition sti : K unit := set_cpu (fun c => c <| c_if := true |>).

(** [xchg(addr, newval)] on the [locked] word of a lock. *)
Definition lock_at (s : kernel) (l : lockid) : spinlock :=
  default (unlocked "") (k_locks s !! l).

Definition set_lock (l : lockid) (f : spinlock -> spinlock) : K unit :=
  modify (fun s => s <| k_locks ::= <[l := f (lock_at s l)]> |>).

Definition xchg_locked (l : lockid) (newval : Z) : K Z :=
  old ← gets (fun s => lk_locked (lock_at s l));
  set_lock l (fun k => k <| lk_locked := newval |>);;
  mret old.

(** ** spinlock.c *)
Definition initlock (l : lockid) (name : string) : K unit :=
  set_lock l (fun _ => Mkspinlock 0 name None).

Definition holding (l : lockid) : K bool :=
  gets (fun s => c_true (lk_locked (lock_at s l))
                 && bool_decide (lk_cpu (lock_at s l) = Some (k_me s))).

Definition pushcli : K unit :=
  eflags ← readeflags;
  cli;;
  n ← gets (fun s => c_ncli (mycpu s));
  set_cpu (fun c => c <| c_ncli := i32 (n + 1) |>);;
  when (n =? 0) (set_cpu (fun c => c <| c_intena := Z.land eflags FL_IF |>)).

Definition popcli : K unit :=
  eflags ← readeflags;
  if has_bits eflags FL_IF then panic "popcli - interruptible" else
  n ← gets (fun s => i32 (c_ncli (mycpu s) - 1));
  set_cpu (fun c => c <| c_ncli := n |>);;
  if n <? 0 then panic "popcli" else
  intena ← gets (fun s => c_intena (mycpu s));
  when ((n =? 0) && c_true intena) sti.

Definition acquire (l : lockid) : K unit :=
  pushcli;;
  h ← holding l;
  if (h : bool) then panic "acquire" else
  old ← xchg_locked l 1;
  if c_true old then hang else
  modify (fun s => s <| k_locks ::=
    <[l := (lock_at s l) <| lk_cpu := Some (k_me s) |>]> |>).

Definition release (l : lockid) : K unit :=
  h ← holding l;
  if negb h then panic "release" else
  set_lock l (fun k => k <| lk_cpu := None |>);;
  _ ← xchg_locked l 0;
  popcli.

(** [getcallerpcs(v, pcs)] on the stack words of [m]: at most ten return
    addresses along the chain of saved frame pointers, then zeroes. *)
Fixpoint callerpcs_loop (m : memory) (ebp : Z) (n : nat) : list Z :=
  match n with
  | O => []
  | S n' =>
      if (ebp =? 0) || (ebp <? KERNBASE) || (ebp =? 4294967295) then replicate n 0
      else load32 m (ebp + 4) :: callerpcs_loop m (load32 m ebp) n'
  end.

Definition getcallerpcs (m : memory) (v : Z) : list Z := callerpcs_loop m (v - 8) 10.

(** ** Running code under a lock *)

(** The executing CPU exists, its [pushcli] depth is at most [d], and its
    interrupts are off when the depth is positive. *)
Definition cpu_ok (d : Z) (s : kernel) : Prop :=
  (k_me s < length (k_cpus s))%nat /\ 0 <= c_ncli (mycpu s) <= d /\
  (0 < c_ncli (mycpu s) -> c_if (mycpu s) = false).

Definition lock_free (l : lockid) (s : kernel) : Prop :=
  exists name, k_locks s !! l = Some (unlocked name).

(** The effect of a successful [acquire], and what remains after the matching
    [release]: the state itself, except that [intena] of a CPU outside any
    [pushcli] now records its interrupt flag. *)
Definition acq_cpu (c : cpu) : cpu :=
  Mkcpu (c_id c) (c_ncli c + 1)
    (if c_ncli c =? 0 then (if c_if c then FL_IF else 0) else c_intena c)
    (c_proc c) false (c_cr3 c) (c_esp0 c).

Definition acquired (l : lockid) (s : kernel) : kernel :=
  s <| k_cpus ::= alter acq_cpu (k_me s) |>
    <| k_locks ::= <[l := Mkspinlock 1 (lk_name (lock_at s l)) (Some (k_me s))]> |>.

(** The state after [pushcli] alone. *)
Definition pushed (s : kernel) : kernel :=
  s <| k_cpus ::= alter acq_cpu (k_me s) |>.

Definition settle_cpu (c : cpu) : cpu :=
  if c_ncli c =? 0 then c <| c_intena := if c_if c then FL_IF else 0 |> else c.

Definition settled (s : kernel) : kernel :=
  s <| k_cpus ::= alter settle_cpu (k_me s) |>.

Lemma mycpu_alter s f :
  (k_me s < length (k_cpus s))%nat ->
  default cpu0 (alter f (k_me s) (k_cpus s) !! k_me s) = f (mycpu s).
Proof.
  intros H. unfold mycpu. rewrite list_lookup_alter_eq.
  by destruct (lookup_lt_is_Some_2 _ _ H) as [c ->].
Qed.

Lemma lock_at_free l s : lock_free l s ->
  exists name, lock_at s l = unlocked name /\ k_locks s !! l = Some (unlocked name).
Proof. intros [name H]. exists name. unfold lock_at. by rewrite H. Qed.

Lemma mycpu_lookup s :
  (k_me s < length (k_cpus s))%nat -> k_cpus s !! k_me s = Some (mycpu s).
Proof.
  intros H. unfold mycpu. by destruct (lookup_lt_is_Some_2 _ _ H) as [c ->].
Qed.

(** The executing CPU after an update of its own record. *)
Lemma mycpu_set i f s :
  i = k_me s -> (k_me s < length (k_cpus s))%nat ->
  mycpu (s <| k_cpus ::= alter f i |>) = f (mycpu s).
Proof. intros -> H. unfold mycpu at 1. simpl. by apply mycpu_alter. Qed.

Lemma cpus_set_set i f g s :
  s <| k_cpus ::= alter f i |> <| k_cpus ::= alter g i |>
  = s <| k_cpus ::= alter (g ∘ f) i |>.
Proof. unfold update. simpl. by rewrite list_alter_alter_eq. Qed.

Lemma cpus_set_ext i f g s :
  i = k_me s -> (k_me s < length (k_cpus s))%nat -> f (mycpu s) = g (mycpu s) ->
  s <| k_cpus ::= alter f i |> = s <| k_cpus ::= alter g i |>.
Proof.
  intros -> Hme Hfg. unfold update. f_equal. apply list_alter_ext; [|done].
  intros c Hc. rewrite mycpu_lookup in Hc by done. congruence.
Qed.

Lemma mycpu_pushed s :
  (k_me s < length (k_cpus s))%nat -> mycpu (pushed s) = acq_cpu (mycpu s).
Proof. intros H. by apply mycpu_set. Qed.

Lemma pushcli_ok d s :
  cpu_ok d s -> d < INT_MAX -> pushcli s = Ok tt (pushed s).
Proof.
  intros (Hme & Hn & Hif) Hd. unfold pushcli, readeflags, cli, set_cpu, pushed.
  krun. rewrite mycpu_set by done. cbn [c_ncli].
  change (k_me (s <| k_cpus ::= _ |>)) with (k_me s).
  rewrite cpus_set_set.
  destruct (Z.eqb_spec (c_ncli (mycpu s)) 0) as [E|E];
    change (c_ncli (update c_if _ (mycpu s))) with (c_ncli (mycpu s)).
  - rewrite E. simpl. change (k_me (s <| k_cpus ::= _ |>)) with (k_me s).
    rewrite cpus_set_set. f_equal. apply cpus_set_ext; [done..|].
    unfold acq_cpu, update, compose. simpl. rewrite E. simpl.
    f_equal. by destruct (c_if (mycpu s)).
  - destruct (Z.eqb_spec (c_ncli (mycpu s)) 0) as [|_]; [done|].
    krun. f_equal. apply cpus_set_ext; [done..|].
    unfold acq_cpu, update, compose. simpl. rewrite i32_id by (wrap_unfold; lia).
    by destruct (Z.eqb_spec (c_ncli (mycpu s)) 0).
Qed.

Definition rel_cpu (c : cpu) : cpu :=
  Mkcpu (c_id c) (c_ncli c - 1) (c_intena c) (c_proc c)
    (if (c_ncli c - 1 =? 0) && c_true (c_intena c) then true else c_if c) (c_cr3 c) (c_esp0 c).

Lemma popcli_ok d s :
  cpu_ok d s -> d < INT_MAX -> 0 < c_ncli (mycpu s) ->
  popcli s = Ok tt (s <| k_cpus ::= alter rel_cpu (k_me s) |>).
Proof.
  intros (Hme & Hn & Hif) Hd Hpos. unfold popcli, readeflags, sti, set_cpu.
  krun. rewrite (Hif Hpos). simpl. rewrite i32_id by (wrap_unfold; lia).
  destruct (Z.ltb_spec (c_ncli (mycpu s) - 1) 0); [lia|]. krun.
  rewrite mycpu_set by done. change (c_intena (update c_ncli _ ?c)) with (c_intena c).
  destruct ((c_ncli (mycpu s) - 1 =? 0) && c_true (c_intena (mycpu s))) eqn:E; krun;
    change (k_me (s <| k_cpus ::= _ |>)) with (k_me s); rewrite ?cpus_set_set;
    f_equal; apply cpus_set_ext; try done;
    unfold rel_cpu, update, compose; simpl; by rewrite E.
Qed.

Lemma popcli_pushed d s :
  cpu_ok d s -> d < INT_MAX - 1 -> popcli (pushed s) = Ok tt (settled s).
Proof.
  intros (Hme & Hn & Hif) Hd. rewrite (popcli_ok (d + 1)).
  - unfold pushed, settled. change (k_me (s <| k_cpus ::= _ |>)) with (k_me s).
    rewrite cpus_set_set. f_equal. apply cpus_set_ext; [done..|].
    unfold settle_cpu, rel_cpu, acq_cpu, update, compose; simpl.
    replace (c_ncli (mycpu s) + 1 - 1) with (c_ncli (mycpu s)) by lia.
    destruct (Z.eqb_spec (c_ncli (mycpu s)) 0) as [E|E]; simpl.
    + rewrite E. destruct (c_if (mycpu s)); done.
    + rewrite <- Hif by lia. by destruct (mycpu s).
  - unfold cpu_ok. rewrite mycpu_pushed by done. simpl. rewrite length_alter.
    split_and!; try done; lia.
  - lia.
  - rewrite mycpu_pushed by done. simpl. lia.
Qed.

Lemma acquire_ok d l s :
  cpu_ok d s -> d < INT_MAX -> lock_free l s ->
  acquire l s = Ok tt (acquired l s).
Proof.
  intros Hc Hd Hl. unfold acquire. rewrite (bind_ok _ _ _ _ _ (pushcli_ok d s Hc Hd)).
  destruct (lock_at_free l s Hl) as (name & Hat & Hin).
  assert (Hat' : lock_at (pushed s) l = unlocked name) by done.
  unfold holding, xchg_locked, set_lock. krun. rewrite Hat'. simpl. krun.
  rewrite Hat'. simpl. unfold acquired. rewrite Hat. f_equal.
  unfold pushed, update. simpl. f_equal. unfold lock_at. simpl.
  by rewrite lookup_insert_eq, insert_insert_eq.
Qed.

Lemma lock_at_acquired l s :
  lock_at (acquired l s) l = Mkspinlock 1 (lk_name (lock_at s l)) (Some (k_me s)).
Proof. unfold lock_at at 1. simpl. by rewrite lookup_insert_eq. Qed.

(** Releasing the lock just acquired gives back the state. *)
Lemma release_acquired d l s :
  cpu_ok d s -> d < INT_MAX - 1 -> lock_free l s ->
  release l (acquired l s) = Ok tt (settled s).
Proof.
  intros Hc Hd Hl. unfold release, holding, set_lock, xchg_locked. krun.
  rewrite lock_at_acquired. simpl. rewrite bool_decide_true by done. simpl. krun.
  destruct (lock_at_free l s Hl) as (name & Hat & Hin).
  rewrite lock_at_acquired, Hat. simpl.
  match goal with |- popcli ?s' = _ => replace s' with (pushed s) end.
  { by eapply popcli_pushed. }
  unfold acquired, pushed, update, lock_at. simpl. f_equal.
  rewrite !lookup_insert_eq. simpl. rewrite !insert_insert_eq.
  symmetry. by rewrite insert_id.
Qed.

(** Without the lock, [release] panics. *)
Lemma release_not_held l s : lock_free l s -> release l s = Panic "release".
Proof.
  intros Hl. destruct (lock_at_free l s Hl) as (name & Hat & Hin).
  unfold release, holding. krun. by rewrite Hat.
Qed.

Lemma cpu_ok_acquired d l s : cpu_ok d s -> cpu_ok (d + 1) (acquired l s).
Proof.
  intros (Hme & Hn & Hif). unfold cpu_ok.
  assert (mycpu (acquired l s) = acq_cpu (mycpu s)) as E by (by apply mycpu_pushed).
  rewrite E. simpl. rewrite length_alter. split_and!; try done; lia.
Qed.

Lemma mycpu_acquired l s :
  (k_me s < length (k_cpus s))%nat -> mycpu (acquired l s) = acq_cpu (mycpu s).
Proof. intros H. by apply mycpu_pushed. Qed.

Lemma lock_free_acquired l l' s :
  l <> l' -> lock_free l' s -> lock_free l' (acquired l s).
Proof. intros Hne [name H]. exists name. simpl. by rewrite lookup_insert_ne. Qed.

Lemma mycpu_settled s :
  (k_me s < length (k_cpus s))%nat -> mycpu (settled s) = settle_cpu (mycpu s).
Proof. intros H. by apply mycpu_set. Qed.

Lemma cpu_ok_settled d s : cpu_ok d s -> cpu_ok d (settled s).
Proof.
  intros (Hme & Hn & Hif). unfold cpu_ok. rewrite mycpu_settled by done. simpl.
  rewrite length_alter. unfold settle_cpu. by destruct (_ =? _).
Qed.

Lemma lock_free_settled l s : lock_free l s -> lock_free l (settled s).
Proof. done. Qed.

(** Under a lock, an inner [acquire]/[release] pair restores the state
    exactly. *)
Lemma settled_acquired d l s : cpu_ok d s -> settled (acquired l s) = acquired l s.
Proof.
  intros (Hme & Hn & Hif). unfold settled.
  transitivity ((acquired l s) <| k_cpus ::= alter id (k_me s) |>).
  - apply cpus_set_ext; [done| |].
    + simpl. by rewrite length_alter.
    + assert (mycpu (acquired l s) = acq_cpu (mycpu s)) as -> by (by apply mycpu_pushed).
      unfold settle_cpu. simpl. by destruct (Z.eqb_spec (c_ncli (mycpu s) + 1) 0); [lia|].
  - unfold update. simpl. rewrite list_alter_id by done. done.
Qed.

Lemma settled_settled s : settled (settled s) = settled s.
Proof.
  unfold settled. change (k_me (s <| k_cpus ::= _ |>)) with (k_me s).
  rewrite cpus_set_set. unfold update. f_equal. apply list_alter_ext; [|done].
  intros c _. unfold settle_cpu, compose. destruct (c_ncli c =? 0) eqn:E; simpl; by rewrite ?E.
Qed.

#[export] Hint Resolve cpu_ok_acquired cpu_ok_settled lock_free_settled : xv6.

(** ** Several CPUs *)

(** One CPU acquires or releases a lock, or, outside any lock, switches its
    interrupts on or off. *)
Inductive lock_step : kernel -> kernel -> Prop :=
| ls_acquire i l s s' :
    (i < length (k_cpus s))%nat -> is_Some (k_locks s !! l) ->
    acquire l (s <| k_me := i |>) = Ok tt s' -> lock_step s s'
| ls_release i l s s' :
    (i < length (k_cpus s))%nat -> is_Some (k_locks s !! l) ->
    release l (s <| k_me := i |>) = Ok tt s' -> lock_step s s'
| ls_flag i b c s :
    k_cpus s !! i = Some c -> c_ncli c = 0 ->
    lock_step s (s <| k_cpus ::= alter (fun c => c <| c_if := b |>) i |>).

(** The number of locks CPU [i] holds. *)
Definition held_by (i : nat) (s : kernel) : nat :=
  size (filter (fun kv : lockid * spinlock => lk_cpu kv.2 = Some i) (k_locks s)).

Definition lock_inv (s : kernel) : Prop :=
  (forall i c, k_cpus s !! i = Some c ->
     c_ncli c = Z.of_nat (held_by i s) /\ (0 < c_ncli c -> c_if c = false)) /\
  (forall l lk, k_locks s !! l = Some lk ->
     (lk_locked lk = 1 /\ is_Some (lk_cpu lk)) \/ (lk_locked lk = 0 /\ lk_cpu lk = None)) /\
  Z.of_nat (size (k_locks s)) < INT_MAX.

Lemma held_insert (m : gmap lockid spinlock) l lk lk' i :
  m !! l = Some lk ->
  (size (filter (fun kv : lockid * spinlock => lk_cpu kv.2 = Some i) (<[l := lk']> m))
   + (if decide (lk_cpu lk = Some i) then 1 else 0)
   = size (filter (fun kv : lockid * spinlock => lk_cpu kv.2 = Some i) m)
   + (if decide (lk_cpu lk' = Some i) then 1 else 0))%nat.
Proof.
  intros Hl.
  assert (Hf : forall x, lk_cpu x = Some i -> forall n : gmap lockid spinlock, n !! l = None ->
    size (filter (fun kv : lockid * spinlock => lk_cpu kv.2 = Some i) (<[l := x]> n))
    = S (size (filter (fun kv : lockid * spinlock => lk_cpu kv.2 = Some i) n))).
  { intros x Hx n Hn. rewrite map_filter_insert_True by done.
    apply map_size_insert_None. by apply map_lookup_filter_None; left. }
  assert (Hg : forall x, lk_cpu x <> Some i -> forall n : gmap lockid spinlock, n !! l = None ->
    size (filter (fun kv : lockid * spinlock => lk_cpu kv.2 = Some i) (<[l := x]> n))
    = size (filter (fun kv : lockid * spinlock => lk_cpu kv.2 = Some i) n)).
  { intros x Hx n Hn. rewrite map_filter_insert_False by done.
    by rewrite delete_id. }
  assert (Hm : m = <[l := lk]> (delete l m))
    by (rewrite insert_delete_eq; symmetry; by apply insert_id).
  assert (Hm' : <[l := lk']> m = <[l := lk']> (delete l m)) by (by rewrite insert_delete_eq).
  pose proof (lookup_delete_eq m l) as Hd.
  revert Hm Hm' Hd. generalize (delete l m). intros n Hm Hm' Hd. rewrite Hm', Hm.
  repeat case_decide; rewrite ?(Hf lk), ?(Hf lk'), ?(Hg lk), ?(Hg lk') by done; lia.
Qed.

Lemma held_le i s : (held_by i s <= size (k_locks s))%nat.
Proof. apply map_size_filter. Qed.

Section smp.
Context (s : kernel) (Hinv : lock_inv s) (Hme : (k_me s < length (k_cpus s))%nat).

Lemma inv_cpu_ok : cpu_ok (INT_MAX - 1) s.
Proof.
  destruct Hinv as (Hc & Hl & Hsz). unfold cpu_ok.
  destruct (Hc _ _ (mycpu_lookup s Hme)) as [Hn Hif].
  pose proof (held_le (k_me s) s). split_and!; try done; lia.
Qed.

(** The three outcomes of [acquire]. *)
Lemma acquire_cases l lk :
  k_locks s !! l = Some lk ->
  acquire l s = match lk_cpu lk with
                | None => Ok tt (acquired l s)
                | Some j => if decide (j = k_me s) then Panic "acquire" else Hang
                end.
Proof.
  intros Hl. pose proof inv_cpu_ok as Hok.
  destruct Hinv as (_ & Hlk & _). destruct (Hlk l lk Hl) as [[H1 [j Hj]]|[H0 Hn]].
  - rewrite Hj. unfold acquire.
    rewrite (bind_ok _ _ _ _ _ (pushcli_ok _ s Hok ltac:(wrap_unfold; lia))).
    unfold holding, xchg_locked, set_lock. krun.
    assert (lock_at (pushed s) l = lk) as -> by (unfold lock_at; simpl; by rewrite Hl).
    rewrite H1, Hj. simpl. case_bool_decide as E; case_decide; simplify_eq/=; try done.
    krun. assert (lock_at (pushed s) l = lk) as -> by (unfold lock_at; simpl; by rewrite Hl).
    by rewrite H1.
  - rewrite Hn. eapply acquire_ok; [done|wrap_unfold; lia|].
    destruct lk as [x name o]; simplify_eq/=. by exists name.
Qed.

(** [release] of a lock this CPU holds. *)
Lemma release_held l lk :
  k_locks s !! l = Some lk -> lk_cpu lk = Some (k_me s) ->
  release l s = Ok tt (s <| k_cpus ::= alter rel_cpu (k_me s) |>
                         <| k_locks ::= <[l := unlocked (lk_name lk)]> |>).
Proof.
  intros Hl Hmine. pose proof inv_cpu_ok as (_ & Hn & Hif).
  destruct Hinv as (Hc & Hlk & Hsz).
  destruct (Hc _ _ (mycpu_lookup s Hme)) as [Hn' _].
  assert (0 < c_ncli (mycpu s)) as Hpos.
  { pose proof (held_insert (k_locks s) l lk (unlocked "") (k_me s) Hl) as E.
    rewrite decide_True in E by done. simpl in E. unfold held_by in Hn'. lia. }
  destruct (Hlk l lk Hl) as [[H1 _]|[_ H0]]; [|congruence].
  unfold release, holding, set_lock, xchg_locked. krun.
  assert (lock_at s l = lk) as Hat by (unfold lock_at; by rewrite Hl).
  rewrite Hat, H1, Hmine. simpl. rewrite bool_decide_true by done. simpl. krun.
  match goal with |- popcli ?s' = _ =>
    replace s' with (s <| k_locks ::= <[l := unlocked (lk_name lk)]> |>) end.
  - apply (popcli_ok (INT_MAX - 1)); [exact (conj Hme (conj Hn Hif))|wrap_unfold; lia|done].
  - unfold update, lock_at. simpl. rewrite Hl, lookup_insert_eq, insert_insert_eq.
    done.
Qed.
End smp.

Lemma lock_inv_me i s : lock_inv s -> lock_inv (s <| k_me := i |>).
Proof. done. Qed.

(** A change of one lock with the matching change of one CPU's depth. *)
Lemma lock_inv_set s i l lk lk' f :
  lock_inv s -> k_locks s !! l = Some lk ->
  (lk_locked lk' = 1 /\ is_Some (lk_cpu lk')) \/ (lk_locked lk' = 0 /\ lk_cpu lk' = None) ->
  (forall k c, k_cpus s !! k = Some c ->
    let c' := if decide (i = k) then f c else c in
    c_ncli c' + (if decide (lk_cpu lk = Some k) then 1 else 0)
    = c_ncli c + (if decide (lk_cpu lk' = Some k) then 1 else 0) /\
    (0 < c_ncli c' -> c_if c' = false)) ->
  lock_inv (s <| k_cpus ::= alter f i |> <| k_locks ::= <[l := lk']> |>).
Proof.
  intros (Hc & Hlk & Hsz) Hl Hwf Hf. split_and!; simpl.
  - intros k c Hk. rewrite list_lookup_alter in Hk.
    assert (exists c0, k_cpus s !! k = Some c0 /\ c = if decide (i = k) then f c0 else c0)
      as (c0 & Hc0 & ->).
    { case_decide as E; [|by eauto]. subst i.
      destruct (k_cpus s !! k); simplify_eq/=; eauto. }
    destruct (Hf k c0 Hc0) as [Hn Hif]. split; [|done].
    destruct (Hc k c0 Hc0) as [Hn0 _]. unfold held_by in *. simpl.
    pose proof (held_insert (k_locks s) l lk lk' k Hl) as E.
    revert Hn E. repeat case_decide; lia.
  - intros l' lk0 Hl'. destruct (decide (l' = l)) as [->|Hne].
    + rewrite lookup_insert_eq in Hl'. by simplify_eq.
    + rewrite lookup_insert_ne in Hl' by done. eauto.
  - by rewrite map_size_insert_Some by eauto.
Qed.

Lemma lock_step_inv s s' : lock_inv s -> lock_step s s' -> lock_inv s'.
Proof.
  intros Hinv Hstep.
  destruct Hstep as [i l s s' Hi [lk Hl] H|i l s s' Hi [lk Hl] H|i b c s Hi Hn].
  - rewrite (acquire_cases _ (lock_inv_me i s Hinv) Hi l lk Hl) in H.
    destruct (lk_cpu lk) as [j|] eqn:Hj; [case_decide; done|]. injection H as <-.
    eapply (lock_inv_set (s <| k_me := i |>)); [done|done|left; simpl; eauto|].
    intros k c Hk. simpl. rewrite Hj. destruct Hinv as (Hc & _).
    destruct (Hc k c Hk). repeat case_decide; simplify_eq; simpl; (split; [lia|done]).
  - destruct Hinv as (Hc & Hlk & Hsz).
    destruct (decide (lk_cpu lk = Some i)) as [Hmine|Hmine].
    + rewrite (release_held (s <| k_me := i |>) ltac:(done) Hi l lk Hl Hmine) in H.
      injection H as <-.
      eapply (lock_inv_set (s <| k_me := i |>)); [done|done|right; done|].
      intros k c Hk. simpl. rewrite Hmine. destruct (Hc k c Hk) as [_ Hif].
      repeat case_decide; simplify_eq; simpl; split; try done; try lia.
      intros Hpos. destruct (Z.eqb_spec (c_ncli c - 1) 0); [lia|]. simpl. apply Hif. lia.
    + exfalso. revert H. unfold release, holding. krun.
      unfold lock_at. simpl. rewrite Hl. simpl.
      rewrite bool_decide_false by done. by rewrite andb_false_r.
  - destruct Hinv as (Hc & Hlk & Hsz). split_and!; simpl; try done.
    intros k c' Hk. rewrite list_lookup_alter in Hk. case_decide; [|eauto].
    subst k. rewrite Hi in Hk. simplify_eq/=. destruct (Hc i c Hi) as [Hn' _].
    split; [done|]. lia.
Qed.

Lemma lock_inv_boot kend kdata : lock_inv (kernel_boot kend kdata).
Proof.
  split_and!.
  - intros i c Hi. apply lookup_replicate in Hi as [-> _]. split; [|done].
    unfold held_by. rewrite (proj2 (map_empty (filter _ (k_locks (kernel_boot kend kdata))))); [done|].
    intros l. apply map_lookup_filter_None_2. right. intros lk Hl E. simpl in E.
    assert (lk_cpu lk = None); [|congruence]. clear E.
    apply elem_of_list_to_map_2 in Hl. simpl in Hl.
    repeat (apply elem_of_cons in Hl as [Hl|Hl]; [by simplify_eq|]).
    by apply not_elem_of_nil in Hl.
  - intros l lk Hl. right. apply elem_of_list_to_map_2 in Hl. simpl in Hl.
    repeat (apply elem_of_cons in Hl as [Hl|Hl]; [by simplify_eq|]).
    by apply not_elem_of_nil in Hl.
  - vm_compute. done.
Qed.

(** ** Main results *)


(** CPU 0 takes [ptable.lock]; it is then held by CPU 0. *)
Definition ptable_taken : kernel := acquired L_ptable kernel0.


(** A critical section leaves no trace: acquiring a free lock and releasing
    it succeeds and gives back the state, interrupt flag and nesting depth
    included ([settled] only refreshes the saved flag of a CPU outside any
    critical section). *)
Theorem acquire_release d l s :
  cpu_ok d s -> d < INT_MAX - 1 -> lock_free l s ->
  (acquire l;; release l) s = Ok tt (settled s) /\
  c_if (mycpu (settled s)) = c_if (mycpu s) /\ c_ncli (mycpu (settled s)) = c_ncli (mycpu s).
Proof.
  intros Hc Hd Hl. rewrite (bind_ok _ _ _ _ _ (acquire_ok d l s Hc ltac:(lia) Hl)).
  rewrite (release_acquired d) by done. destruct Hc as (Hme & _).
  rewrite mycpu_settled by done. unfold settle_cpu. by destruct (_ =? _).
Qed.

Lemma acquire_release_witness :
  (acquire L_kmem;; release L_kmem) kernel0 = Ok tt (settled kernel0) /\
  c_if (mycpu (settled kernel0)) = c_if (mycpu kernel0) /\
  c_ncli (mycpu (settled kernel0)) = c_ncli (mycpu kernel0).
Proof.
  apply (acquire_release 0).
  - split_and!; vm_compute; try lia; congruence.
  - vm_compute. done.
  - exists "kmem"%string. reflexivity.
Defined.
