(* ===== verification/Sched.v ===== *)
(** proc.c, part 1: the two schedulers, context switches, sleep and wakeup.

    The stride policy is the choice of [scheduler]'s second branch: the scan
    [stride_pick], the accounting [stride_account] of the chosen process, and
    the accounting [clock_account] that trap.c makes when an interrupt finds
    the process running.  The scheduler itself is an endless loop, so
    [scheduler] takes the number of times its body is entered. *)
From S2P Require Import Prelude Memory Kernel Spinlock.

(** ** The stride policy *)

(** [p->state > EMBRYO && p->state < ZOMBIE && p->tickets>0] *)
Definition eligible (p : proc) : bool :=
  (procstate_val EMBRYO <? procstate_val (p_state p))
  && (procstate_val (p_state p) <? procstate_val ZOMBIE)
  && (0 <? p_tickets p).

(** The scan for the smallest pass: [i] is the index of the head of [rest],
    [mini] the index and [minp] the contents of [minProc]. *)
Fixpoint stride_scan (i : nat) (rest : list proc) (mini : nat) (minp : proc) : nat :=
  match rest with
  | [] => mini
  | p :: rest' =>
      if (p_pass p <? p_pass minp) && eligible p
      then stride_scan (S i) rest' i p
      else stride_scan (S i) rest' mini minp
  end.

Definition stride_pick (t : list proc) : nat :=
  stride_scan 0 t 0 (default proc0 (t !! 0%nat)).

(** The accounting of the chosen process: its limit or its pass grows, it
    becomes RUNNING, and a pass that overflowed restarts at zero. *)
Definition stride_account (p : proc) : proc :=
  let p1 :=
    if p_limitpass p <=? p_pass p
    then p <| p_limitpass := i32 (p_limitpass p + i32 (p_pass p + p_stride p)) |>
    else p <| p_pass := i32 (p_pass p + p_stride p) |> in
  let p2 := p1 <| p_state := RUNNING |> in
  if p_pass p2 <? 0
  then p2 <| p_pass := 0 |> <| p_limitpass := p_stride p2 |>
  else p2.

(** trap.c: what an interrupt does to the accounting of the process it finds
    RUNNING, and whether that process must then yield. *)
Definition clock_account (timer : bool) (p : proc) : proc * bool :=
  if (p_limitpass p <=? p_pass p) || timer
  then (p <| p_limitpass := i32 (p_limitpass p + i32 (p_pass p + p_stride p)) |>, true)
  else (p <| p_pass := i32 (p_pass p + p_stride p) |>, false).

(** ** Address-space switches (vm.c) *)

Definition switchkvm : K unit :=
  kpgdir ← gets k_kpgdir;
  set_cpu (fun c => c <| c_cr3 := v2p kpgdir |>).

(** [switchuvm(p)]: the kernel stack comes from [proc], the page table from
    [p]. *)
Definition switchuvm (p : nat) : K unit :=
  pushcli;;
  cur ← deref_proc;
  kstack ← gets (fun s => p_kstack (proc_at s cur));
  set_cpu (fun c => c <| c_esp0 := u32 (kstack + KSTACKSIZE) |>);;
  pgdir ← gets (fun s => p_pgdir (proc_at s p));
  if pgdir =? 0 then panic "switchuvm: no pgdir" else
  set_cpu (fun c => c <| c_cr3 := v2p pgdir |>);;
  popcli.

(** ** The scheduler *)

Definition set_curproc (p : option nat) : K unit :=
  set_cpu (fun c => c <| c_proc := p |>).

(** The body of the loop [for(p = ptable.proc; ...)] of the round-robin
    scheduler, for slot [p]. *)
Definition rr_visit (p : nat) : K unit :=
  st ← gets (fun s => p_state (proc_at s p));
  if negb (state_eqb st RUNNABLE) then mret tt else
  set_curproc (Some p);;
  switchuvm p;;
  set_proc p (fun q => q <| p_state := RUNNING |>);;
  swtch;;
  switchkvm;;
  set_curproc None.

Fixpoint rr_scan (slots : list nat) : K unit :=
  match slots with
  | [] => mret tt
  | p :: slots' => rr_visit p;; rr_scan slots'
  end.

Definition rr_round : K unit :=
  sti;;
  acquire L_ptable;;
  rr_scan (seq 0 NPROC);;
  release L_ptable.

(** One turn of the stride scheduler's loop. *)
Definition stride_round : K unit :=
  sti;;
  acquire L_ptable;;
  minProc ← gets (fun s => stride_pick (k_ptable s));
  set_proc minProc stride_account;;
  set_curproc (Some minProc);;
  switchuvm minProc;;
  swtch;;
  switchkvm;;
  set_curproc None;;
  release L_ptable.

(** [turns] turns of one of the two endless loops. *)
Fixpoint turns_of (round : K unit) (turns : nat) : K unit :=
  match turns with
  | O => nofuel
  | S turns' => round;; turns_of round turns'
  end.

Definition scheduler (turns : nat) : K unit :=
  rr ← gets k_isRoundRobin;
  if c_true rr then turns_of rr_round turns else turns_of stride_round turns.

(** ** Giving up the CPU *)

Definition sched : K unit :=
  h ← holding L_ptable;
  if negb h then panic "sched ptable.lock" else
  ncli ← gets (fun s => c_ncli (mycpu s));
  if negb (ncli =? 1) then panic "sched locks" else
  cur ← deref_proc;
  st ← gets (fun s => p_state (proc_at s cur));
  if state_eqb st RUNNING then panic "sched running" else
  eflags ← readeflags;
  if has_bits eflags FL_IF then panic "sched interruptible" else
  intena ← gets (fun s => c_intena (mycpu s));
  swtch;;
  set_cpu (fun c => c <| c_intena := intena |>).

Definition yield : K unit :=
  acquire L_ptable;;
  cur ← deref_proc;
  set_proc cur (fun p => p <| p_state := RUNNABLE |>);;
  sched;;
  release L_ptable.

Definition sleep (chan : channel) (lk : option lockid) : K unit :=
  cur ← gets curproc;
  match cur with
  | None => panic "sleep"
  | Some _ =>
      match lk with
      | None => panic "sleep without lk"
      | Some lk =>
          (if decide (lk <> L_ptable) then acquire L_ptable;; release lk else mret tt);;
          cur ← deref_proc;
          set_proc cur (fun p => p <| p_chan := chan |>);;
          set_proc cur (fun p => p <| p_state := SLEEPING |>);;
          sched;;
          cur' ← deref_proc;
          set_proc cur' (fun p => p <| p_chan := Ch_null |>);;
          (if decide (lk <> L_ptable) then release L_ptable;; acquire lk else mret tt)
      end
  end.

(** [while(cond) sleep(chan, lk);]: [fuel] bounds the number of times the
    process is woken and finds the condition still true. *)
Fixpoint sleep_while (fuel : nat) (cond : K bool) (chan : channel) (lk : lockid) : K unit :=
  c ← cond;
  if negb c then mret tt else
  match fuel with
  | O => nofuel
  | S fuel' => sleep chan (Some lk);; sleep_while fuel' cond chan lk
  end.

(** ** Waking up *)

Definition wake_proc (chan : channel) (p : proc) : proc :=
  if state_eqb (p_state p) SLEEPING && bool_decide (p_chan p = chan)
  then p <| p_state := RUNNABLE |> else p.

Definition wakeup1 (chan : channel) : K unit :=
  modify (fun s => s <| k_ptable ::= fmap (wake_proc chan) |>).

Definition wakeup (chan : channel) : K unit :=
  acquire L_ptable;;
  wakeup1 chan;;
  release L_ptable.

Definition kill (pid : Z) : K Z :=
  acquire L_ptable;;
  t ← gets k_ptable;
  match find_first (fun p => p_pid p =? pid) t with
  | Some i =>
      set_proc i (fun p => p <| p_killed := 1 |>);;
      set_proc i (fun p => if state_eqb (p_state p) SLEEPING
                           then p <| p_state := RUNNABLE |> else p);;
      release L_ptable;;
      mret 0
  | None =>
      release L_ptable;;
      mret (-1)
  end.

(** ** The choice of the stride scheduler *)

(** The slots the scan can settle on: the eligible ones, and slot 0, where it
    starts. *)
Definition candidate (t : list proc) (i : nat) (p : proc) : Prop :=
  t !! i = Some p /\ (i = 0%nat \/ eligible p = true).

(** [m] holds the smallest pass of all candidates, the first one that does. *)
Definition first_min_pass (t : list proc) (m : nat) : Prop :=
  exists pm, candidate t m pm /\
    forall j p, candidate t j p ->
      p_pass pm <= p_pass p /\ ((j < m)%nat -> p_pass pm < p_pass p).

Lemma stride_scan_spec t i rest mini minp :
  drop i t = rest -> candidate t mini minp -> (mini <= i)%nat ->
  (forall j p, (j < i)%nat -> candidate t j p ->
     p_pass minp <= p_pass p /\ ((j < mini)%nat -> p_pass minp < p_pass p)) ->
  first_min_pass t (stride_scan i rest mini minp).
Proof.
  revert i mini minp; induction rest as [|q rest IH]; intros i mini minp Hdrop Hc Hle Hmin;
    cbn [stride_scan].
  - exists minp. split; [done|]. intros j p Hp. apply Hmin; [|done].
    destruct Hp as [Hp _]. apply lookup_lt_Some in Hp.
    apply (f_equal length) in Hdrop. rewrite length_drop in Hdrop. simpl in Hdrop. lia.
  - assert (Hq : t !! i = Some q).
    { rewrite <- (Nat.add_0_r i), <- lookup_drop, Hdrop. done. }
    assert (Hdrop' : drop (S i) t = rest).
    { replace (S i) with (i + 1)%nat by lia. rewrite <- drop_drop, Hdrop. done. }
    destruct (Z.ltb_spec (p_pass q) (p_pass minp)) as [Hlt|Hge]; simpl.
    + destruct (eligible q) eqn:Hel; simpl.
      * apply IH; [done|by split; [|right]|lia|]. intros j p Hj Hp.
        destruct (decide (j = i)) as [->|].
        { destruct Hp as [Hp _]. simplify_eq. split; lia. }
        destruct (Hmin j p ltac:(lia) Hp). split; lia.
      * apply IH; [done|done|lia|]. intros j p Hj Hp.
        destruct (decide (j = i)) as [->|]; [|apply Hmin; [lia|done]].
        destruct Hp as [Hp [->|He]]; [|congruence].
        assert (mini = 0%nat) as -> by lia. destruct Hc. simplify_eq. lia.
    + apply IH; [done|done|lia|]. intros j p Hj Hp.
      destruct (decide (j = i)) as [->|]; [|apply Hmin; [lia|done]].
      destruct Hp as [Hp _]. simplify_eq. split; lia.
Qed.

Lemma stride_pick_spec t : t <> [] -> first_min_pass t (stride_pick t).
Proof.
  intros Hne. destruct t as [|p0 t]; [done|]. unfold stride_pick. simpl default.
  apply stride_scan_spec; [done|by split; [|left]|lia|]. intros; lia.
Qed.

Lemma first_min_pass_unique t m m' :
  first_min_pass t m -> first_min_pass t m' -> m = m'.
Proof.
  intros (p & Hp & Hmin) (p' & Hp' & Hmin').
  destruct (decide (m < m')%nat).
  { destruct (Hmin' m p Hp) as [_ H]. destruct (Hmin m' p' Hp') as [H' _]. lia. }
  destruct (decide (m' < m)%nat); [|lia].
  destruct (Hmin m' p' Hp') as [_ H]. destruct (Hmin' m p Hp) as [H' _]. lia.
Qed.

(** C1: the stride scheduler's scan returns exactly the first slot with the
    smallest pass among the slots that hold a non-embryo, non-zombie process
    with tickets, slot 0 always counting as one of them. *)
Theorem stride_pick_correct t m :
  t <> [] -> stride_pick t = m <-> first_min_pass t m.
Proof.
  intros Hne. pose proof (stride_pick_spec t Hne). split; [by intros <-|].
  by apply first_min_pass_unique.
Qed.

Lemma stride_pick_correct_witness :
  stride_pick [proc0; proc0 <| p_state := RUNNABLE |>
                            <| p_tickets := 100 |> <| p_pass := -1 |>] = 1%nat
  <-> first_min_pass [proc0; proc0 <| p_state := RUNNABLE |>
                            <| p_tickets := 100 |> <| p_pass := -1 |>] 1.
Proof. apply (stride_pick_correct _ 1%nat). discriminate. Defined.

(** ** The scheduler's steps *)

(** [switchuvm]: the executing CPU gets the kernel stack of its process and
    the page table of [p]. *)
Definition uvm_cpu (esp0 cr3 : Z) (c : cpu) : cpu :=
  c <| c_esp0 := esp0 |> <| c_cr3 := cr3 |>.

Lemma switchuvm_ok d i p s :
  cpu_ok d s -> d < INT_MAX - 1 -> curproc s = Some i -> p_pgdir (proc_at s p) <> 0 ->
  switchuvm p s = Ok tt ((settled s) <| k_cpus ::=
    alter (uvm_cpu (u32 (p_kstack (proc_at s i) + KSTACKSIZE)) (v2p (p_pgdir (proc_at s p))))
      (k_me s) |>).
Proof.
  intros Hc Hd Hcur Hpg. unfold switchuvm.
  rewrite (bind_ok _ _ _ _ _ (pushcli_ok d s Hc ltac:(lia))).
  assert (Hme := proj1 Hc). unfold deref_proc, set_cpu. krun.
  unfold curproc. rewrite mycpu_pushed by done. simpl.
  unfold curproc in Hcur. rewrite Hcur. krun.
  change (k_me (pushed s)) with (k_me s).
  change (proc_at ((pushed s) <| k_cpus ::= ?f |>)) with (proc_at s).
  change (proc_at (pushed s)) with (proc_at s).
  destruct (Z.eqb_spec (p_pgdir (proc_at s p)) 0); [done|]. krun.
  change (k_me ((pushed s) <| k_cpus ::= ?f |>)) with (k_me s).
  rewrite cpus_set_set.
  set (f := uvm_cpu (u32 (p_kstack (proc_at s i) + KSTACKSIZE)) (v2p (p_pgdir (proc_at s p)))).
  pose proof (popcli_pushed d (s <| k_cpus ::= alter f (k_me s) |>)) as Hpop.
  unfold pushed, settled in *.
  change (k_me (s <| k_cpus ::= _ |>)) with (k_me s) in *.
  rewrite !cpus_set_set in *.
  rewrite (cpus_set_ext (k_me s) (f ∘ settle_cpu) (settle_cpu ∘ f)) by
    (done || (unfold settle_cpu, compose; simpl; by destruct (_ =? _))).
  rewrite <- Hpop; [|clear Hpop|lia].
  { by f_equal. }
  unfold cpu_ok. rewrite mycpu_set by done. simpl. rewrite length_alter. exact Hc.
Qed.

(** The executing CPU holds lock [l] and no other, with interrupts off. *)
Definition holds_only (l : lockid) (s : kernel) : Prop :=
  (k_me s < length (k_cpus s))%nat /\ lk_cpu (lock_at s l) = Some (k_me s) /\
  lk_locked (lock_at s l) = 1 /\ c_ncli (mycpu s) = 1 /\ c_if (mycpu s) = false.

(** A CPU outside every lock, for which [l] is free. *)
Definition idle (l : lockid) (s : kernel) : Prop :=
  (k_me s < length (k_cpus s))%nat /\ c_ncli (mycpu s) = 0 /\ lock_free l s.

Lemma idle_cpu_ok l s : idle l s -> cpu_ok 0 s.
Proof. intros (H & E & _). unfold cpu_ok. rewrite E. split_and!; try done; lia. Qed.

Lemma holds_cpu_ok l s : holds_only l s -> cpu_ok 1 s.
Proof. intros (H & _ & _ & E & F). unfold cpu_ok. rewrite E, F. split_and!; try done; lia. Qed.

Lemma acquire_idle l s : idle l s -> acquire l s = Ok tt (acquired l s).
Proof.
  intros H. apply (acquire_ok 0); [by eapply idle_cpu_ok|wrap_unfold; lia|apply H].
Qed.

Lemma holds_acquired l s : idle l s -> holds_only l (acquired l s).
Proof.
  intros (H & E & _). unfold holds_only. rewrite lock_at_acquired, mycpu_acquired by done.
  simpl. rewrite length_alter, E. done.
Qed.

Lemma settled_holds l s : holds_only l s -> settled s = s.
Proof.
  intros (Hme & _ & _ & Hn & _). unfold settled.
  rewrite (cpus_set_ext (k_me s) settle_cpu id); [|done..|].
  - unfold update. rewrite list_alter_id by done. by destruct s.
  - unfold settle_cpu. by rewrite Hn.
Qed.

(** The state in which the executing CPU runs process [m]. *)
Definition on_cpu (m : nat) (s : kernel) : kernel :=
  s <| k_cpus ::= alter (fun c =>
    uvm_cpu (u32 (p_kstack (proc_at s m) + KSTACKSIZE)) (v2p (p_pgdir (proc_at s m)))
      (c <| c_proc := Some m |>)) (k_me s) |>.

Lemma take_cpu {A} l m s (k : K A) :
  holds_only l s -> p_pgdir (proc_at s m) <> 0 ->
  (set_curproc (Some m);; switchuvm m;; k) s = k (on_cpu m s).
Proof.
  intros Hh Hpg.
  set (s1 := s <| k_cpus ::= alter (fun c => c <| c_proc := Some m |>) (k_me s) |>).
  rewrite (bind_ok (set_curproc _) _ _ tt s1 eq_refl).
  assert (Hcpu : mycpu s1 = (mycpu s) <| c_proc := Some m |>)
    by (apply mycpu_set; [done|apply Hh]).
  assert (Hh1 : holds_only l s1).
  { revert Hh. unfold holds_only. rewrite Hcpu. simpl. by rewrite length_alter. }
  rewrite (bind_ok _ _ _ _ _ (switchuvm_ok 1 m m s1 (holds_cpu_ok l s1 Hh1)
    ltac:(wrap_unfold; lia) ltac:(unfold curproc; by rewrite Hcpu) Hpg)).
  f_equal. rewrite (settled_holds l s1 Hh1). apply cpus_set_set.
Qed.

(** What the scheduler has done when it switches to slot [m]: the CPU holds
    [ptable.lock] and only it, with interrupts off, and runs [m] on [m]'s
    page table and kernel stack. *)
Definition dispatched (m : nat) (s : kernel) : Prop :=
  holds_only L_ptable s /\
  curproc s = Some m /\ p_state (proc_at s m) = RUNNING /\
  c_cr3 (mycpu s) = v2p (p_pgdir (proc_at s m)) /\
  c_esp0 (mycpu s) = u32 (p_kstack (proc_at s m) + KSTACKSIZE).

Lemma dispatched_on_cpu m s :
  holds_only L_ptable s -> p_state (proc_at s m) = RUNNING -> dispatched m (on_cpu m s).
Proof.
  intros Hh Hst. unfold dispatched, holds_only, curproc.
  assert (Hcpu : mycpu (on_cpu m s) =
    uvm_cpu (u32 (p_kstack (proc_at s m) + KSTACKSIZE)) (v2p (p_pgdir (proc_at s m)))
      ((mycpu s) <| c_proc := Some m |>)) by (apply mycpu_set; [done|apply Hh]).
  rewrite Hcpu. simpl. rewrite length_alter. by destruct Hh as (? & ? & ? & ? & ?).
Qed.

Lemma proc_at_set i f s j :
  (i < length (k_ptable s))%nat ->
  proc_at (s <| k_ptable ::= alter f i |>) j
  = if decide (i = j) then f (proc_at s j) else proc_at s j.
Proof.
  intros H. unfold proc_at. simpl. rewrite list_lookup_alter. case_decide as E; [|done].
  subst j. by destruct (lookup_lt_is_Some_2 _ _ H) as [p ->].
Qed.

Lemma stride_pick_lt t : t <> [] -> (stride_pick t < length t)%nat.
Proof.
  intros H. destruct (stride_pick_spec t H) as (p & [Hp _] & _). by eapply lookup_lt_Some.
Qed.

Lemma stride_account_fields p :
  p_state (stride_account p) = RUNNING /\ p_pgdir (stride_account p) = p_pgdir p /\
  p_kstack (stride_account p) = p_kstack p /\ 0 <= p_pass (stride_account p).
Proof.
  unfold stride_account. simpl.
  destruct (_ <=? _); simpl;
    match goal with |- context [?x <? 0] => destruct (Z.ltb_spec x 0) end;
    simpl; split_and!; done.
Qed.

Lemma idle_sti l s :
  idle l s -> idle l (s <| k_cpus ::= alter (fun c => c <| c_if := true |>) (k_me s) |>).
Proof.
  intros (Hme & Hn & Hl). unfold idle. rewrite mycpu_set by done. simpl.
  by rewrite length_alter.
Qed.

(** Only the process table, the CPUs and the locks may have changed. *)
Definition sched_rel (s s' : kernel) : Prop :=
  s' = s <| k_ptable := k_ptable s' |> <| k_cpus := k_cpus s' |> <| k_locks := k_locks s' |>.

(** No lock but [lk] and [ptable.lock] has changed. *)
Definition same_locks (lk : lockid) (s s' : kernel) : Prop :=
  forall l, l <> lk -> l <> L_ptable -> k_locks s' !! l = k_locks s !! l.

(** A turn of the stride scheduler, up to the switch. *)
Lemma stride_round_swtch s :
  let m := stride_pick (k_ptable s) in
  idle L_ptable s -> k_ptable s <> [] -> p_pgdir (proc_at s m) <> 0 ->
  exists s', stride_round s =
      Swtch s' (switchkvm;; set_curproc None;; release L_ptable) /\
  k_ptable s' = alter stride_account m (k_ptable s) /\ dispatched m s' /\
  sched_rel s s' /\ same_locks L_ptable s s'.
Proof.
  intros m Hidle Hne Hpg. unfold stride_round.
  set (s1 := s <| k_cpus ::= alter (fun c => c <| c_if := true |>) (k_me s) |>).
  rewrite (bind_ok sti _ s tt s1 eq_refl).
  assert (H1 : idle L_ptable s1) by (by apply idle_sti).
  rewrite (bind_ok _ _ _ _ _ (acquire_idle L_ptable s1 H1)).
  rewrite (bind_ok (gets _) _ _ m (acquired L_ptable s1) eq_refl).
  set (s2 := (acquired L_ptable s1) <| k_ptable ::= alter stride_account m |>).
  rewrite (bind_ok (set_proc _ _) _ _ tt s2 eq_refl).
  assert (H2 : holds_only L_ptable s2) by (exact (holds_acquired L_ptable s1 H1)).
  destruct (stride_account_fields (proc_at s m)) as (Hst & Hpd & Hks & _).
  assert (Hp2 : proc_at s2 m = stride_account (proc_at s m)).
  { unfold s2. rewrite proc_at_set by (by apply stride_pick_lt). by rewrite decide_True. }
  rewrite (take_cpu L_ptable) by (rewrite ?Hp2, ?Hpd; done).
  exists (on_cpu m s2). split_and!; [done|done| |done|].
  - apply dispatched_on_cpu; [done|]. by rewrite Hp2.
  - intros l Hl _. simpl. by rewrite lookup_insert_ne.
Qed.

Definition released (l : lockid) (s : kernel) : kernel :=
  s <| k_cpus ::= alter rel_cpu (k_me s) |>
    <| k_locks ::= <[l := unlocked (lk_name (lock_at s l))]> |>.

Lemma release_released d l s :
  cpu_ok d s -> d < INT_MAX -> 0 < c_ncli (mycpu s) ->
  lk_cpu (lock_at s l) = Some (k_me s) -> lk_locked (lock_at s l) = 1 ->
  release l s = Ok tt (released l s).
Proof.
  intros Hok Hd Hn Hcpu Hlk. unfold release, holding, set_lock, xchg_locked. krun.
  rewrite Hlk, Hcpu. simpl. rewrite bool_decide_true by done. simpl. krun.
  match goal with |- popcli ?s' = _ =>
    replace s' with (s <| k_locks ::= <[l := unlocked (lk_name (lock_at s l))]> |>) end.
  - apply (popcli_ok d); [exact Hok|done|]. change (0 < c_ncli (mycpu s)). lia.
  - unfold update, lock_at. simpl. by rewrite lookup_insert_eq, insert_insert_eq.
Qed.

Lemma release_holds l s : holds_only l s -> release l s = Ok tt (released l s).
Proof.
  intros Hh. pose proof (holds_cpu_ok l s Hh) as Hok.
  destruct Hh as (Hme & Hcpu & Hlk & Hn & Hif).
  apply (release_released 1); done || lia.
Qed.

Lemma mycpu_released l s :
  (k_me s < length (k_cpus s))%nat -> mycpu (released l s) = rel_cpu (mycpu s).
Proof. intros H. by apply mycpu_set. Qed.

Lemma idle_released l s : holds_only l s -> idle l (released l s).
Proof.
  intros (Hme & Hcpu & Hlk & Hn & Hif). unfold idle. rewrite mycpu_released by done.
  simpl. rewrite length_alter, Hn. split_and!; [done..|].
  eexists. simpl. apply lookup_insert_eq.
Qed.

(** The rest of a turn, when the process comes back holding the lock. *)
Lemma stride_round_back s :
  holds_only L_ptable s ->
  exists s', (switchkvm;; set_curproc None;; release L_ptable) s = Ok tt s' /\
    k_ptable s' = k_ptable s /\ curproc s' = None /\ idle L_ptable s' /\
    c_cr3 (mycpu s') = v2p (k_kpgdir s) /\ sched_rel s s' /\ same_locks L_ptable s s'.
Proof.
  intros Hh. unfold switchkvm, set_curproc, set_cpu. krun.
  match goal with |- context [release L_ptable ?x] => set (s1 := x) end.
  assert (Hcpu : mycpu s1 = (mycpu s) <| c_cr3 := v2p (k_kpgdir s) |> <| c_proc := None |>).
  { unfold s1. rewrite mycpu_set; [|done|by simpl; rewrite length_alter; apply Hh].
    f_equal. apply mycpu_set; [done|apply Hh]. }
  assert (Hh1 : holds_only L_ptable s1).
  { revert Hh. unfold holds_only. rewrite Hcpu. simpl. by rewrite !length_alter. }
  rewrite (release_holds _ _ Hh1). eexists.
  split_and!; [done|done| |by apply idle_released| |done|].
  3: { intros l Hl _. simpl. by rewrite lookup_insert_ne. }
  all: unfold curproc; rewrite mycpu_released by apply Hh1; by rewrite Hcpu.
Qed.

(** C27: a turn of the stride scheduler.  With a process table, a free lock
    and a page table in the chosen slot, the turn switches to the slot of
    [stride_pick], charged by [stride_account], with a pass that is not
    negative, RUNNING, on its own page table and kernel stack, with
    [ptable.lock] the only lock held and interrupts off; when the process
    comes back with that lock, the turn ends with the lock free, no current
    process and the kernel's page table. *)
Theorem stride_round_dispatch s :
  let m := stride_pick (k_ptable s) in
  idle L_ptable s -> k_ptable s <> [] -> p_pgdir (proc_at s m) <> 0 ->
  exists s' k, stride_round s = Swtch s' k /\
    k_ptable s' = alter stride_account m (k_ptable s) /\
    0 <= p_pass (proc_at s' m) /\ dispatched m s' /\
    forall s2, holds_only L_ptable s2 ->
      exists s3, k s2 = Ok tt s3 /\ k_ptable s3 = k_ptable s2 /\ curproc s3 = None /\
        idle L_ptable s3 /\ c_cr3 (mycpu s3) = v2p (k_kpgdir s2).
Proof.
  intros m Hidle Hne Hpg.
  destruct (stride_round_swtch s Hidle Hne Hpg) as (s' & E & Ht & Hd & _).
  exists s', (switchkvm;; set_curproc None;; release L_ptable).
  split_and!; [done|done| |done|].
  2: { intros s2 H2. destruct (stride_round_back s2 H2) as (s3 & G1 & G2 & G3 & G4 & G5 & _).
       by exists s3. }
  unfold proc_at. rewrite Ht, list_lookup_alter_eq. fold m.
  destruct (lookup_lt_is_Some_2 _ _ (stride_pick_lt _ Hne)) as [p Hp]. fold m in Hp.
  rewrite Hp. simpl. apply (stride_account_fields p).
Qed.

(** Slot 0 holds a process with 500 tickets and a page table. *)
Definition one_runnable : kernel :=
  kernel0 <| k_ptable ::= <[0%nat := proc0 <| p_state := RUNNABLE |> <| p_pgdir := 4096 |>
    <| p_tickets := 500 |> <| p_stride := 20 |> <| p_limitpass := 20 |>]> |>.

Lemma stride_round_dispatch_witness :
  exists s' k, stride_round one_runnable = Swtch s' k /\
    k_ptable s' = alter stride_account 0%nat (k_ptable one_runnable) /\
    0 <= p_pass (proc_at s' 0) /\ dispatched 0 s' /\
    forall s2, holds_only L_ptable s2 ->
      exists s3, k s2 = Ok tt s3 /\ k_ptable s3 = k_ptable s2 /\ curproc s3 = None /\
        idle L_ptable s3 /\ c_cr3 (mycpu s3) = v2p (k_kpgdir s2).
Proof.
  apply (stride_round_dispatch one_runnable).
  - split_and!; [vm_compute; lia|reflexivity|by eexists].
  - discriminate.
  - discriminate.
Defined.

(** C30: the stride scheduler runs sleeping processes.  A process that is
    SLEEPING (or RUNNING on another CPU), has tickets and has the strictly
    smallest pass of all candidates is switched to and marked RUNNING, without
    any [wakeup]. *)
Theorem stride_dispatches_sleeper s i p :
  idle L_ptable s -> k_ptable s !! i = Some p -> p_pgdir p <> 0 ->
  p_state p = SLEEPING \/ p_state p = RUNNING -> 0 < p_tickets p ->
  (forall j q, j <> i -> candidate (k_ptable s) j q -> p_pass p < p_pass q) ->
  exists s' k, stride_round s = Swtch s' k /\ dispatched i s'.
Proof.
  intros Hidle Hi Hpg Hst Htk Hmin.
  assert (Hne : k_ptable s <> []) by (by destruct (k_ptable s)).
  assert (Hel : eligible p = true).
  { unfold eligible. rewrite !andb_true_iff. destruct Hst as [-> | ->]; simpl; lia. }
  assert (Hpick : stride_pick (k_ptable s) = i).
  { eapply first_min_pass_unique; [by apply stride_pick_spec|]. exists p.
    split; [by split; [|right]|]. intros j q Hq. destruct (decide (j = i)) as [->|Hj].
    - destruct Hq as [Hq _]. simplify_eq. lia.
    - specialize (Hmin j q Hj Hq). lia. }
  destruct (stride_round_swtch s Hidle Hne) as (s' & E & _ & Hd & _); rewrite ?Hpick in *.
  - unfold proc_at. by rewrite Hi.
  - eauto.
Qed.

(** Slot 1 sleeps on [ticks] with pass 20, slot 0 is RUNNABLE with pass 40. *)
Definition one_asleep : kernel :=
  one_runnable <| k_ptable := [
    proc0 <| p_state := RUNNABLE |> <| p_pgdir := 4096 |> <| p_tickets := 500 |>
          <| p_stride := 20 |> <| p_pass := 40 |> <| p_limitpass := 160 |>;
    proc0 <| p_state := SLEEPING |> <| p_chan := Ch_ticks |> <| p_pgdir := 8192 |>
          <| p_tickets := 500 |> <| p_stride := 20 |> <| p_pass := 20 |>
          <| p_limitpass := 60 |>] |>.

Lemma stride_dispatches_sleeper_witness :
  exists s' k, stride_round one_asleep = Swtch s' k /\ dispatched 1 s'.
Proof.
  eapply (stride_dispatches_sleeper one_asleep 1).
  - split_and!; [vm_compute; lia|reflexivity|by eexists].
  - reflexivity.
  - discriminate.
  - left. reflexivity.
  - reflexivity.
  - intros [|[|j]] q Hj [Hq _]; simplify_eq/=. reflexivity.
Defined.

(** ** Sleep and wakeup *)

Lemma sched_swtch i s :
  holds_only L_ptable s -> curproc s = Some i -> p_state (proc_at s i) <> RUNNING ->
  sched s = Swtch s (set_cpu (fun c => c <| c_intena := c_intena (mycpu s) |>)).
Proof.
  intros (Hme & Hcpu & Hlk & Hn & Hif) Hcur Hst.
  unfold sched, holding, deref_proc, readeflags, swtch. krun.
  rewrite Hlk, Hcpu. simpl. rewrite bool_decide_true by done. simpl. krun.
  rewrite Hn. simpl. krun. rewrite Hcur. krun.
  unfold state_eqb. rewrite bool_decide_false by done. krun. rewrite Hif. reflexivity.
Qed.

Lemma acquire_hang d l s :
  cpu_ok d s -> d < INT_MAX -> lk_cpu (lock_at s l) <> Some (k_me s) ->
  lk_locked (lock_at s l) = 1 -> acquire l s = Hang.
Proof.
  intros Hok Hd Hcpu Hlk. unfold acquire.
  rewrite (bind_ok _ _ _ _ _ (pushcli_ok d s Hok Hd)).
  unfold holding, xchg_locked, set_lock. krun.
  change (lock_at (pushed s)) with (lock_at s). change (k_me (pushed s)) with (k_me s).
  rewrite Hlk. simpl. rewrite bool_decide_false by done. krun.
  change (lock_at (pushed s)) with (lock_at s). by rewrite Hlk.
Qed.

(** Exchanging the lock held for another, in either order. *)
Lemma lock_at_ne l l' lk s :
  l <> l' -> lock_at (s <| k_locks ::= <[l := lk]> |>) l' = lock_at s l'.
Proof. intros H. unfold lock_at. simpl. by rewrite lookup_insert_ne. Qed.

Lemma swap_locks l l' s :
  l <> l' -> holds_only l s -> lock_free l' s ->
  (acquire l';; release l) s = Ok tt (released l (acquired l' s)) /\
  holds_only l' (released l (acquired l' s)) /\ lock_free l (released l (acquired l' s)).
Proof.
  intros Hne Hh Hf. pose proof (holds_cpu_ok l s Hh) as Hok.
  destruct Hh as (Hme & Hcpu & Hlk & Hn & Hif).
  rewrite (bind_ok _ _ _ _ _ (acquire_ok 1 l' s Hok ltac:(wrap_unfold; lia) Hf)).
  assert (Hme1 : (k_me (acquired l' s) < length (k_cpus (acquired l' s)))%nat)
    by (simpl; by rewrite length_alter).
  assert (Hat : lock_at (acquired l' s) l = lock_at s l) by (by apply (lock_at_ne l' l _ (pushed s))).
  split_and!.
  - apply (release_released 2); [by apply (cpu_ok_acquired 1)|done| | |];
      rewrite ?Hat, ?mycpu_acquired by done; simpl; (done || lia).
  - unfold holds_only. rewrite mycpu_released, mycpu_acquired by done.
    unfold released. rewrite lock_at_ne by done.
    change (lock_at ((acquired l' s) <| k_cpus ::= alter rel_cpu (k_me (acquired l' s)) |>))
      with (lock_at (acquired l' s)).
    rewrite lock_at_acquired. simpl. rewrite !length_alter, Hn. split_and!; done.
  - eexists. simpl. apply lookup_insert_eq.
Qed.

Lemma curproc_released l s :
  (k_me s < length (k_cpus s))%nat -> curproc (released l s) = curproc s.
Proof. intros H. unfold curproc. by rewrite mycpu_released. Qed.

Lemma curproc_acquired l s :
  (k_me s < length (k_cpus s))%nat -> curproc (acquired l s) = curproc s.
Proof. intros H. unfold curproc. by rewrite mycpu_acquired. Qed.

Lemma release_acquire l l' s :
  l <> l' -> holds_only l s -> lock_free l' s ->
  (release l;; acquire l') s = Ok tt (acquired l' (released l s)) /\
  holds_only l' (acquired l' (released l s)) /\ lock_free l (acquired l' (released l s)).
Proof.
  intros Hne Hh Hf. rewrite (bind_ok _ _ _ _ _ (release_holds l s Hh)).
  destruct (idle_released l s Hh) as (H1 & H2 & H3).
  assert (Hi : idle l' (released l s)).
  { split_and!; [done..|]. destruct Hf as [name Hf]. exists name. simpl.
    by rewrite lookup_insert_ne. }
  rewrite (acquire_idle l' _ Hi). split_and!; [done|by apply holds_acquired|].
  by apply lock_free_acquired.
Qed.

(** A process table update does not touch locks and CPUs. *)
Lemma holds_only_ptable l f s :
  holds_only l (s <| k_ptable ::= f |>) <-> holds_only l s.
Proof. done. Qed.

Definition asleep (chan : channel) (p : proc) : proc :=
  p <| p_chan := chan |> <| p_state := SLEEPING |>.

Lemma set_proc_twice (f g : proc -> proc) i s :
  s <| k_ptable ::= alter f i |> <| k_ptable ::= alter g i |>
  = s <| k_ptable ::= alter (g ∘ f) i |>.
Proof. unfold update. simpl. by rewrite list_alter_alter_eq. Qed.

(** The part of [sleep] from holding [ptable.lock] to the switch, and the part
    after it. *)
Lemma sleep_body {A} chan i s (k : K A) :
  holds_only L_ptable s -> curproc s = Some i -> (i < length (k_ptable s))%nat ->
  (cur ← deref_proc;
   set_proc cur (fun p => p <| p_chan := chan |>);;
   set_proc cur (fun p => p <| p_state := SLEEPING |>);;
   sched;; k) s
  = Swtch (s <| k_ptable ::= alter (asleep chan) i |>)
      (set_cpu (fun c => c <| c_intena := c_intena (mycpu s) |>);; k).
Proof.
  intros Hh Hcur Hi. unfold deref_proc, set_proc. krun. rewrite Hcur. krun.
  rewrite set_proc_twice. fold (asleep chan).
  match goal with |- context [sched ?x] => set (s1 := x) end.
  rewrite (sched_swtch i s1); [done|done|done|].
  unfold s1. rewrite proc_at_set by done. by rewrite decide_True.
Qed.

(** [wakeup] from another CPU cannot run while this one holds the lock. *)
Lemma wakeup_hang d chan s :
  cpu_ok d s -> d < INT_MAX -> lk_cpu (lock_at s L_ptable) <> Some (k_me s) ->
  lk_locked (lock_at s L_ptable) = 1 -> wakeup chan s = Hang.
Proof.
  intros H1 H2 H3 H4. unfold wakeup.
  by rewrite (bind_hang _ _ _ (acquire_hang d L_ptable s H1 H2 H3 H4)).
Qed.

Lemma release_ptable d f s :
  cpu_ok d s -> d < INT_MAX - 1 -> lock_free L_ptable s ->
  release L_ptable ((acquired L_ptable s) <| k_ptable ::= f |>)
  = Ok tt ((settled s) <| k_ptable ::= f |>).
Proof.
  intros H1 H2 H3. change ((acquired L_ptable s) <| k_ptable ::= f |>)
    with (acquired L_ptable (s <| k_ptable ::= f |>)).
  by rewrite (release_acquired d).
Qed.

(** [wakeup], also under other locks. *)
Lemma wakeup_run d chan s :
  cpu_ok d s -> d < INT_MAX - 1 -> lock_free L_ptable s ->
  wakeup chan s = Ok tt ((settled s) <| k_ptable ::= fmap (wake_proc chan) |>).
Proof.
  intros H1 H2 H3. unfold wakeup.
  rewrite (bind_ok _ _ _ _ _ (acquire_ok d L_ptable s H1 ltac:(lia) H3)).
  unfold wakeup1. krun. by apply (release_ptable d).
Qed.

Lemma wakeup_ok chan s :
  idle L_ptable s ->
  wakeup chan s = Ok tt ((settled s) <| k_ptable ::= fmap (wake_proc chan) |>).
Proof.
  intros H. apply (wakeup_run 0); [by eapply idle_cpu_ok|done|apply H].
Qed.

(** [sleep] up to the switch, and what follows it. *)
Lemma sleep_spec chan lk i s :
  lk <> L_ptable -> holds_only lk s -> lock_free L_ptable s ->
  curproc s = Some i -> (i < length (k_ptable s))%nat ->
  exists s' k, sleep chan (Some lk) s = Swtch s' k /\ sched_rel s s' /\
    holds_only L_ptable s' /\ lock_free lk s' /\
    k_ptable s' = alter (asleep chan) i (k_ptable s) /\
    (forall j, j <> k_me s' -> cpu_ok 1 (s' <| k_me := j |>) ->
       wakeup chan (s' <| k_me := j |>) = Hang) /\
    (forall s2, idle L_ptable s2 -> k_ptable s2 = k_ptable s' ->
       exists s3, wakeup chan s2 = Ok tt s3 /\ p_state (proc_at s3 i) = RUNNABLE) /\
    (forall s2, holds_only L_ptable s2 -> curproc s2 = Some i -> lock_free lk s2 ->
       exists s3, k s2 = Ok tt s3 /\ sched_rel s2 s3 /\ holds_only lk s3 /\ lock_free L_ptable s3 /\
         k_ptable s3 = alter (fun p => p <| p_chan := Ch_null |>) i (k_ptable s2) /\
         curproc s3 = Some i /\ same_locks lk s2 s3 /\ c_cr3 (mycpu s3) = c_cr3 (mycpu s2)) /\
    same_locks lk s s' /\ c_cr3 (mycpu s') = c_cr3 (mycpu s).
Proof.
  intros Hne Hh Hf Hcur Hi.
  destruct (swap_locks lk L_ptable s Hne Hh Hf) as (E1 & Hh1 & Hf1).
  set (s1 := released lk (acquired L_ptable s)) in *.
  assert (Hcur1 : curproc s1 = Some i).
  { unfold s1. rewrite curproc_released, curproc_acquired; [done|apply Hh|].
    simpl. rewrite length_alter. apply Hh. }
  eexists _, _. split.
  { unfold sleep. rewrite (bind_ok (gets curproc) _ s (Some i) s) by (unfold gets; by rewrite Hcur).
    destruct (decide (lk <> L_ptable)) as [_|]; [|done]. etransitivity; [eapply bind_ok; exact E1|].
    apply (sleep_body chan i s1 _ Hh1 Hcur1 Hi). } split_and!; [done|done|done|done| | | | |].
  - intros j Hj Hok. change (j <> k_me s1) in Hj. apply (wakeup_hang 1); [done|done| |apply Hh1].
    change (lk_cpu (lock_at s1 L_ptable) <> Some j). destruct Hh1 as (_ & -> & _). congruence.
  - intros s2 Hidle Ht. eexists. split; [by apply wakeup_ok|].
    unfold proc_at. simpl. rewrite Ht. simpl. rewrite list_lookup_fmap, list_lookup_alter_eq.
    destruct (lookup_lt_is_Some_2 _ _ Hi) as [p ->]. simpl.
    unfold wake_proc. simpl. by rewrite bool_decide_true.
  - intros s2 Hh2 Hcur2 Hf2.
    set (s3 := s2 <| k_cpus ::= alter (fun c => c <| c_intena := c_intena (mycpu s1) |>) (k_me s2) |>
      <| k_ptable ::= alter (fun p => p <| p_chan := Ch_null |>) i |>).
    assert (Hcpu3 : mycpu s3 = (mycpu s2) <| c_intena := c_intena (mycpu s1) |>)
      by (apply (mycpu_set (k_me s2)); [done|apply Hh2]).
    assert (Hh3 : holds_only L_ptable s3).
    { revert Hh2. unfold holds_only. rewrite Hcpu3. simpl. by rewrite length_alter. }
    destruct (release_acquire L_ptable lk s3 ltac:(done) Hh3 Hf2) as (E & Hh4 & Hf4).
    exists (acquired lk (released L_ptable s3)). split_and!; [|done|done|done|done| | |].
    4: { rewrite mycpu_acquired by apply (idle_released _ _ Hh3). simpl.
         rewrite mycpu_released by apply Hh3. simpl. by rewrite Hcpu3. }
    2: { rewrite curproc_acquired by apply (idle_released _ _ Hh3).
         rewrite curproc_released by apply Hh3. unfold curproc in *. by rewrite Hcpu3. }
    2: { intros l Hl1 Hl2. simpl. by rewrite !lookup_insert_ne by done. }
    rewrite <- E. unfold deref_proc, set_proc, set_cpu. krun.
    unfold curproc. rewrite mycpu_set by (done || apply Hh2). simpl.
    unfold curproc in Hcur2. by rewrite Hcur2.
  - intros l Hl1 Hl2. simpl. by rewrite !lookup_insert_ne by done.
  - change (c_cr3 (mycpu s1) = c_cr3 (mycpu s)). unfold s1.
    rewrite mycpu_released by (simpl; rewrite length_alter; apply Hh).
    simpl. by rewrite mycpu_acquired by apply Hh.
Qed.


(** CPU 0 runs process 0, which holds [tickslock]. *)
Definition running0 : kernel :=
  one_runnable <| k_cpus ::= alter (fun c => c <| c_proc := Some 0%nat |>) 0%nat |>.


(** [kill] finds the first process with the given pid, marks it killed and
    takes it out of any sleep, leaving every other process alone, and returns
    0; with no such process it returns -1 and changes nothing. *)
Theorem kill_correct pid s :
  idle L_ptable s ->
  (exists i p p' s', k_ptable s !! i = Some p /\ p_pid p = pid /\
     (forall j q, (j < i)%nat -> k_ptable s !! j = Some q -> p_pid q <> pid) /\
     kill pid s = Ok 0 s' /\
     k_ptable s' = <[i := p']> (k_ptable s) /\
     p' = p <| p_killed := 1 |>
            <| p_state := if decide (p_state p = SLEEPING) then RUNNABLE else p_state p |>) \/
  ((forall j q, k_ptable s !! j = Some q -> p_pid q <> pid) /\
   kill pid s = Ok (-1) (settled s)).
Proof.
  intros Hidle. pose proof (acquire_idle L_ptable s Hidle) as Hacq.
  unfold kill. rewrite (bind_ok _ _ _ _ _ Hacq). unfold gets, set_proc. krun.
  change (k_ptable (acquired L_ptable s)) with (k_ptable s).
  destruct (find_first _ (k_ptable s)) as [i|] eqn:Hf.
  - left. apply find_first_Some in Hf as (p & Hi & Hp & Hmin).
    do 4 eexists. split_and!; [exact Hi|lia| | | |reflexivity].
    + intros j q Hj Hq. specialize (Hmin j q Hj Hq). lia.
    + krun. rewrite set_proc_twice, (release_ptable 0); [reflexivity|by eapply idle_cpu_ok|done|apply Hidle].
    + simpl. apply list_eq. intros j. rewrite list_lookup_alter.
      case_decide as E; [subst j|by rewrite list_lookup_insert_ne].
      rewrite list_lookup_insert_eq by (by eapply lookup_lt_Some). rewrite Hi. simpl.
      unfold state_eqb. simpl. case_bool_decide; case_decide; done.
  - right. split.
    + intros j q Hq. assert (H := proj1 (find_first_None _ _) Hf j q Hq). simpl in H. lia.
    + krun. rewrite (release_acquired 0); [done|by eapply idle_cpu_ok|done|apply Hidle].
Qed.

Lemma kill_correct_witness :
  (exists i p p' s', k_ptable one_asleep !! i = Some p /\ p_pid p = 0 /\
     (forall j q, (j < i)%nat -> k_ptable one_asleep !! j = Some q -> p_pid q <> 0) /\
     kill 0 one_asleep = Ok 0 s' /\
     k_ptable s' = <[i := p']> (k_ptable one_asleep) /\
     p' = p <| p_killed := 1 |>
            <| p_state := if decide (p_state p = SLEEPING) then RUNNABLE else p_state p |>) \/
  ((forall j q, k_ptable one_asleep !! j = Some q -> p_pid q <> 0) /\
   kill 0 one_asleep = Ok (-1) (settled one_asleep)).
Proof.
  apply (kill_correct 0 one_asleep).
  split_and!; [vm_compute; lia|reflexivity|by eexists].
Defined.

(** ** The round-robin scheduler *)

Lemma dispatched_running i s :
  holds_only L_ptable s -> (i < length (k_ptable s))%nat ->
  dispatched i ((on_cpu i s) <| k_ptable ::= alter (fun p => p <| p_state := RUNNING |>) i |>).
Proof.
  intros Hh Hi. set (s' := s <| k_ptable ::= alter (fun p => p <| p_state := RUNNING |>) i |>).
  assert (Hp : proc_at s' i = (proc_at s i) <| p_state := RUNNING |>)
    by (unfold s'; by rewrite proc_at_set, decide_True).
  replace ((on_cpu i s) <| k_ptable ::= _ |>) with (on_cpu i s')
    by (unfold on_cpu; by rewrite Hp).
  apply dispatched_on_cpu; [done|by rewrite Hp].
Qed.

Lemma rr_scan_app l1 l2 s :
  (forall i, i ∈ l1 -> p_state (proc_at s i) <> RUNNABLE) ->
  rr_scan (l1 ++ l2) s = rr_scan l2 s.
Proof.
  induction l1 as [|i l1 IH]; intros H; [done|]. cbn [rr_scan app].
  rewrite (bind_ok (rr_visit i) _ s tt s).
  - apply IH. intros j Hj. apply H. by right.
  - unfold rr_visit, state_eqb. krun. rewrite bool_decide_false; [done|apply H; by left].
Qed.

(** The round-robin scheduler only runs RUNNABLE processes: a turn switches
    to the first RUNNABLE slot, or, with none, ends with the table unchanged
    and the lock free. *)
Theorem rr_round_dispatch s :
  idle L_ptable s -> length (k_ptable s) = NPROC ->
  (forall i p, k_ptable s !! i = Some p -> p_state p = RUNNABLE -> p_pgdir p <> 0) ->
  (exists i p s' k, k_ptable s !! i = Some p /\ p_state p = RUNNABLE /\
     (forall j q, (j < i)%nat -> k_ptable s !! j = Some q -> p_state q <> RUNNABLE) /\
     rr_round s = Swtch s' k /\ dispatched i s' /\
     k_ptable s' = alter (fun p => p <| p_state := RUNNING |>) i (k_ptable s)) \/
  ((forall i p, k_ptable s !! i = Some p -> p_state p <> RUNNABLE) /\
   exists s', rr_round s = Ok tt s' /\ k_ptable s' = k_ptable s /\ idle L_ptable s').
Proof.
  intros Hidle Hlen Hpg. unfold rr_round.
  set (s1 := s <| k_cpus ::= alter (fun c => c <| c_if := true |>) (k_me s) |>).
  rewrite (bind_ok sti _ s tt s1 eq_refl).
  assert (H1 : idle L_ptable s1) by (by apply idle_sti).
  rewrite (bind_ok _ _ _ _ _ (acquire_idle L_ptable s1 H1)).
  pose proof (holds_acquired L_ptable s1 H1) as Hh.
  destruct (find_first (fun p => state_eqb (p_state p) RUNNABLE) (k_ptable s)) as [i|] eqn:Hf.
  - left. apply find_first_Some in Hf as (p & Hi & Hst & Hmin).
    apply bool_decide_eq_true_1 in Hst.
    set (s2 := on_cpu i (acquired L_ptable s1)).
    exists i, p, (s2 <| k_ptable ::= alter (fun p => p <| p_state := RUNNING |>) i |>). eexists.
    assert (Hlt : (i < NPROC)%nat) by (rewrite <- Hlen; by eapply lookup_lt_Some).
    assert (Hmin' : forall j q, (j < i)%nat -> k_ptable s !! j = Some q -> p_state q <> RUNNABLE)
      by (intros j q Hj Hq; by eapply bool_decide_eq_false_1, Hmin).
    split_and!; [done|done|done| |apply dispatched_running; [done|by eapply lookup_lt_Some]|done].
    + replace NPROC with (i + (1 + (NPROC - i - 1)))%nat by lia.
      rewrite !seq_app. eapply bind_swtch. rewrite rr_scan_app.
      2: { intros j Hj. apply elem_of_seq in Hj.
           change (p_state (proc_at s j) <> RUNNABLE). unfold proc_at.
           destruct (k_ptable s !! j) as [q|] eqn:Hq; [|done]. eapply Hmin'; [|done]. lia. }
      cbn [seq app rr_scan Nat.add]. eapply bind_swtch. unfold rr_visit.
      assert (Hpi : proc_at (acquired L_ptable s1) i = p).
      { unfold proc_at. change (k_ptable (acquired L_ptable s1)) with (k_ptable s). by rewrite Hi. }
      rewrite (bind_ok (gets _) _ _ RUNNABLE (acquired L_ptable s1))
        by (unfold gets; by rewrite Hpi, Hst).
      cbn [negb state_eqb]. change (negb (state_eqb RUNNABLE RUNNABLE)) with false. cbv iota.
      rewrite (take_cpu L_ptable) by (rewrite ?Hpi; eauto).
      fold s2. reflexivity.
  - right. split.
    { intros i p Hi. by eapply bool_decide_eq_false_1, (proj1 (find_first_None _ _) Hf i). }
    exists (settled s1). rewrite <- (app_nil_r (seq 0 NPROC)).
    rewrite (bind_ok (rr_scan _) _ _ tt (acquired L_ptable s1)).
    + rewrite (release_acquired 0); [|by eapply idle_cpu_ok|done|apply H1].
      split_and!; [done|done|]. destruct H1 as (Ha & Hb & Hc). split_and!; [|..|done].
      * change ((k_me s1 < length (alter settle_cpu (k_me s1) (k_cpus s1)))%nat).
        by rewrite length_alter.
      * rewrite mycpu_settled by done. unfold settle_cpu. by destruct (_ =? 0).
    + rewrite rr_scan_app; [done|]. intros i _.
      change (p_state (proc_at s i) <> RUNNABLE). unfold proc_at.
      destruct (k_ptable s !! i) as [q|] eqn:Hq; [|done].
      by eapply bool_decide_eq_false_1, (proj1 (find_first_None _ _) Hf i).
Qed.

(** The process table of a booted kernel whose slot 2 is RUNNABLE. *)
Definition slot2_runnable : kernel :=
  kernel0 <| k_ptable ::= <[2%nat := proc0 <| p_state := RUNNABLE |> <| p_pgdir := 4096 |>]> |>.

Lemma rr_round_dispatch_witness :
  exists i p s' k, k_ptable slot2_runnable !! i = Some p /\ p_state p = RUNNABLE /\
     rr_round slot2_runnable = Swtch s' k /\ dispatched i s'.
Proof.
  destruct (rr_round_dispatch slot2_runnable) as [(i & p & s' & k & Hi & Hp & _ & E & Hd & _)|[H _]].
  - split_and!; [vm_compute; lia|reflexivity|by eexists].
  - reflexivity.
  - intros i p Hi Hp. destruct (decide (i = 2%nat)) as [->|Hne].
    + injection Hi as <-. discriminate.
    + change (<[2%nat := proc0 <| p_state := RUNNABLE |> <| p_pgdir := 4096 |>]>
                (replicate NPROC proc0) !! i = Some p) in Hi.
      rewrite list_lookup_insert_ne in Hi by done.
      apply lookup_replicate in Hi as [-> _]. discriminate.
  - by exists i, p, s', k.
  - destruct (H 2%nat (proc0 <| p_state := RUNNABLE |> <| p_pgdir := 4096 |>)); reflexivity.
Defined.
