(* ===== verification/Wait.v ===== *)
(** Rules for code that waits: [sleep] and [wakeup] under a lock, in the
    program logic of Crash.v. *)
From S2P Require Import Prelude Memory Kernel Crash CString Spinlock Sched.

(** Process [i] runs with the lock [lk], and only it. *)
Record awake (i : nat) (lk : lockid) (s : kernel) : Prop := {
  aw_holds : holds_only lk s;
  aw_ptable : lock_free L_ptable s;
  aw_cur : curproc s = Some i;
  aw_proc : (i < length (k_ptable s))%nat;
}.

(** The scheduler has switched to process [i], which was asleep and had given
    up [lk]. *)
Record resumed (i : nat) (lk : lockid) (s : kernel) : Prop := {
  rs_holds : holds_only L_ptable s;
  rs_lock : lock_free lk s;
  rs_cur : curproc s = Some i;
  rs_proc : (i < length (k_ptable s))%nat;
}.

(** Process [i] runs outside every lock, and may take [lk]. *)
Record unlocked_run (i : nat) (lk : lockid) (s : kernel) : Prop := {
  ur_idle : idle lk s;
  ur_ptable : lock_free L_ptable s;
  ur_cur : curproc s = Some i;
  ur_proc : (i < length (k_ptable s))%nat;
}.

(** The page table of the executing CPU. *)
Definition cur_cr3 (s : kernel) : Z := c_cr3 (mycpu s).

Lemma sched_rel_refl s : sched_rel s s.
Proof. by destruct s. Qed.

Lemma sched_rel_trans s1 s2 s3 : sched_rel s1 s2 -> sched_rel s2 s3 -> sched_rel s1 s3.
Proof. unfold sched_rel. intros H1 H2. rewrite H2, H1. reflexivity. Qed.

(** Being woken does not change what has been recorded about a process. *)
Lemma proc_at_woken i s s' j :
  k_ptable s' = alter (fun p => p <| p_chan := Ch_null |>) i (k_ptable s) ->
  p_killed (proc_at s' j) = p_killed (proc_at s j).
Proof.
  intros E. unfold proc_at. rewrite E, list_lookup_alter.
  destruct (decide (i = j)) as [->|]; [|done]. by destruct (k_ptable s !! j).
Qed.

Section wait.
Context (R : kernel -> kernel -> Prop) (C : kernel -> Prop).

Lemma sleep_wp chan lk i s Q :
  lk <> L_ptable -> awake i lk s ->
  (forall s1, sched_rel s s1 -> C s1) ->
  (forall s1 s2, sched_rel s s1 -> R s1 s2 -> resumed i lk s2 /\
     forall s3, sched_rel s2 s3 -> cur_cr3 s3 = cur_cr3 s2 -> same_locks lk s2 s3 ->
       k_ptable s3 = alter (fun p => p <| p_chan := Ch_null |>) i (k_ptable s2) ->
       awake i lk s3 -> Q tt s3) ->
  wpr R C (sleep chan (Some lk)) s Q.
Proof.
  intros Hne [H1 H2 H3 H4] HC HQ.
  destruct (sleep_spec chan lk i s Hne H1 H2 H3 H4) as (s1 & k & E & Hrel & _ & _ & _ & _ & _ & Hk & _).
  unfold wpr. rewrite E. split; [by apply HC|]. intros s2 HR.
  destruct (HQ s1 s2 Hrel HR) as [[R1 R2 R3 R4] HQ'].
  destruct (Hk s2 R1 R3 R2) as (s3 & E3 & K1 & K2 & K3 & K4 & K5 & K6 & K7). rewrite E3.
  apply HQ'; [done..|]. split; [done..|]. by rewrite K4, length_alter.
Qed.

Lemma acquire_run i lk s :
  lk <> L_ptable -> unlocked_run i lk s ->
  acquire lk s = Ok tt (acquired lk s) /\ awake i lk (acquired lk s) /\
  cur_cr3 (acquired lk s) = cur_cr3 s.
Proof.
  intros Hne [H1 H2 H3 H4]. split_and!; [by apply acquire_idle| |].
  - split; [by apply holds_acquired|by apply lock_free_acquired| |done].
    rewrite curproc_acquired; [done|apply H1].
  - unfold cur_cr3. by rewrite mycpu_acquired by apply H1.
Qed.

Lemma release_run i lk s :
  lk <> L_ptable -> awake i lk s ->
  release lk s = Ok tt (released lk s) /\ unlocked_run i lk (released lk s) /\
  cur_cr3 (released lk s) = cur_cr3 s.
Proof.
  intros Hne [H1 H2 H3 H4]. split_and!; [by apply release_holds| |].
  - split; [by apply idle_released| | |done].
    + destruct H2 as [name H2]. exists name. simpl. by rewrite lookup_insert_ne.
    + rewrite curproc_released; [done|apply H1].
  - unfold cur_cr3. by rewrite mycpu_released by apply H1.
Qed.

Lemma wakeup_awake i lk chan s :
  awake i lk s ->
  wakeup chan s = Ok tt (s <| k_ptable ::= fmap (wake_proc chan) |>) /\
  awake i lk (s <| k_ptable ::= fmap (wake_proc chan) |>).
Proof.
  intros [H1 H2 H3 H4]. split.
  - rewrite <- (settled_holds lk s H1) at 2. apply (wakeup_run 1); [by eapply holds_cpu_ok|done|done].
  - split; [done..|]. simpl. by rewrite length_fmap.
Qed.
End wait.
