(* ===== verification/Stride.v ===== *)
(** The stride policy over time: proportional shares, and their limit.

    A time slice is one turn of the stride scheduler ended by a clock
    interrupt: the scan picks a slot, [stride_account] charges it, the clock
    interrupt's [clock_account] charges it again and [yield] makes it
    RUNNABLE.  This file studies sequences of such slices over a fixed set of
    processes, the regime of the project's teste1.c to teste5.c once all the
    children have been created. *)
From S2P Require Import Prelude Memory Kernel Spinlock Sched.

Definition slice_proc (p : proc) : proc :=
  (fst (clock_account true (stride_account p))) <| p_state := RUNNABLE |>.

Global Arguments slice_proc : simpl never.

Definition slice (t : list proc) : list proc := alter slice_proc (stride_pick t) t.

(** [n] slices: the slots picked, in order, and the final table. *)
Fixpoint run_slices (n : nat) (t : list proc) : list nat * list proc :=
  match n with
  | O => ([], t)
  | S n' => let '(picks, t') := run_slices n' (slice t) in (stride_pick t :: picks, t')
  end.

Definition slices_of (i : nat) (picks : list nat) : Z :=
  Z.of_nat (length (filter (eq i) picks)).

(** A table just filled by [allocproc]: every eligible process has the pass
    and limit [allocproc] gives it, and slot 0 is eligible. *)
Definition fresh_table (t : list proc) : Prop :=
  (exists p0, t !! 0%nat = Some p0 /\ eligible p0 = true) /\
  forall i p, t !! i = Some p -> eligible p = true ->
    p_pass p = 0 /\ p_limitpass p = p_stride p /\ 0 < p_stride p.

(** The accounts of a process after [n] slices without overflow. *)
Definition acct (n : Z) (p : proc) : Prop :=
  0 < p_stride p /\ p_pass p = n * p_stride p /\
  2 * p_limitpass p = p_stride p * (2 + n * (n + 3)).

Lemma eligible_slice_proc p : eligible p = true -> eligible (slice_proc p) = true.
Proof.
  unfold eligible, slice_proc, stride_account, clock_account.
  rewrite !andb_true_iff. intros [_ H].
  repeat case_match; simpl in *; simplify_eq/=; by split.
Qed.

Lemma stride_slice_proc p : p_stride (slice_proc p) = p_stride p.
Proof.
  unfold slice_proc, stride_account, clock_account.
  repeat case_match; simpl in *; by simplify_eq/=.
Qed.

(** Without overflow, a slice charges one stride and moves the limit. *)
Lemma acct_slice n p :
  0 <= n -> acct n p -> p_stride p * (2 + (n + 1) * (n + 4)) < 2 ^ 32 ->
  acct (n + 1) (slice_proc p).
Proof.
  intros Hn (Hs & Hp & Hl) Hb. unfold acct. rewrite stride_slice_proc.
  set (st := p_stride p) in *.
  assert (H1 : 0 <= n * st < 2 ^ 31) by nia.
  assert (H2 : 0 <= (n + 1) * st + st < 2 ^ 31) by nia.
  unfold slice_proc, stride_account. fold st.
  destruct (Z.leb_spec (p_limitpass p) (p_pass p)) as [Hle|_]; [nia|].
  assert (E : i32 (p_pass p + st) = (n + 1) * st) by (rewrite i32_id; wrap_unfold; nia).
  simpl. destruct (Z.ltb_spec (i32 (p_pass p + st)) 0); [lia|].
  unfold clock_account. rewrite orb_true_r. simpl. fold st. rewrite E.
  split_and!; [done|lia|].
  rewrite (i32_id ((n + 1) * st + st)) by (wrap_unfold; lia).
  rewrite i32_id by (wrap_unfold; nia). nia.
Qed.

Lemma slice_lookup t i :
  slice t !! i = if decide (stride_pick t = i) then slice_proc <$> t !! i else t !! i.
Proof. unfold slice. rewrite list_lookup_alter. case_decide; by subst. Qed.

(** What holds of the table [t] once slot [i] has had [c i] slices:
    the accounts, and the bound on the spread of the passes. *)
Definition fair_inv (c : nat -> Z) (t : list proc) : Prop :=
  (exists p0, t !! 0%nat = Some p0 /\ eligible p0 = true) /\
  (forall i p, t !! i = Some p -> eligible p = true -> 0 <= c i /\ acct (c i) p) /\
  (forall i j p q, t !! i = Some p -> t !! j = Some q ->
     eligible p = true -> eligible q = true -> p_pass p <= p_pass q + p_stride p).

Definition bump (m : nat) (c : nat -> Z) (i : nat) : Z :=
  if decide (m = i) then c i + 1 else c i.

Lemma eligible_slice t i p :
  (exists p0, t !! 0%nat = Some p0 /\ eligible p0 = true) ->
  slice t !! i = Some p -> eligible p = true ->
  exists p', t !! i = Some p' /\ eligible p' = true /\
    p = (if decide (stride_pick t = i) then slice_proc p' else p').
Proof.
  intros (p0 & H0 & He0) Hi He. rewrite slice_lookup in Hi.
  case_decide as E; [|by eauto].
  destruct (t !! i) as [p'|] eqn:Hp'; simplify_eq/=. exists p'. split_and!; [done| |done].
  destruct (stride_pick_spec t ltac:(by destruct t)) as (pm & (Hpm & Hc) & _).
  destruct Hc as [Hc|Hc]; congruence.
Qed.

Lemma fair_inv_slice c t :
  (forall i p, t !! i = Some p -> eligible p = true ->
     p_stride p * (2 + (c i + 1) * (c i + 4)) < 2 ^ 32) ->
  fair_inv c t -> fair_inv (bump (stride_pick t) c) (slice t).
Proof.
  intros Hb (H0 & Hacct & Hspread).
  destruct (stride_pick_spec t ltac:(by destruct H0 as (? & ? & _), t)) as (pm & Hcm & Hmin).
  assert (Hm : t !! stride_pick t = Some pm /\ eligible pm = true).
  { destruct Hcm as [Hpm [E|?]]; [|done]. destruct H0 as (p0 & ? & ?). rewrite E in *.
    by simplify_eq. }
  assert (Hmin' : forall j q, t !! j = Some q -> eligible q = true -> p_pass pm <= p_pass q)
    by (intros j q ??; apply (Hmin j q); split; [done|by right]).
  assert (Hnew : forall i p, slice t !! i = Some p -> eligible p = true ->
    0 <= bump (stride_pick t) c i /\ acct (bump (stride_pick t) c i) p).
  { intros i p Hi He. destruct (eligible_slice t i p H0 Hi He) as (p' & Hp' & He' & ->).
    unfold bump. destruct (Hacct i p' Hp' He'). case_decide; [|done].
    split; [lia|]. apply acct_slice; eauto. }
  split_and!; [|done|].
  - destruct H0 as (p0 & Hp0 & He0). rewrite slice_lookup, Hp0.
    case_decide; simpl; eauto using eligible_slice_proc.
  - intros i j p q Hi Hj Hp Hq.
    destruct (Hnew i p Hi Hp) as (Hci & _ & Hpi & _).
    destruct (Hnew j q Hj Hq) as (Hcj & _ & Hpj & _). rewrite Hpi, Hpj. clear Hpi Hpj Hci Hcj.
    destruct (eligible_slice t i p H0 Hi Hp) as (p' & Hp' & He' & ->).
    destruct (eligible_slice t j q H0 Hj Hq) as (q' & Hq' & He'' & ->).
    destruct (Hacct i p' Hp' He') as (Hci & Hsi & Hpi & _).
    destruct (Hacct j q' Hq' He'') as (Hcj & Hsj & Hpj & _).
    pose proof (Hspread i j p' q' Hp' Hq' He' He'') as Hij.
    pose proof (Hmin' j q' Hq' He'') as Hmj.
    unfold bump. repeat case_decide; rewrite ?stride_slice_proc;
      destruct Hm as [Hm _]; simplify_eq; nia.
Qed.

Lemma slices_of_cons i m picks :
  slices_of i (m :: picks) = slices_of i picks + (if decide (m = i) then 1 else 0).
Proof. unfold slices_of. rewrite filter_cons. repeat case_decide; simpl; lia. Qed.

Lemma slices_of_nonneg i picks : 0 <= slices_of i picks.
Proof. unfold slices_of. lia. Qed.

Lemma length_run_slices n t : length (run_slices n t).1 = n.
Proof.
  revert t; induction n as [|n IH]; intros t; [done|]. simpl.
  specialize (IH (slice t)). destruct (run_slices n (slice t)). simpl in *. lia.
Qed.

(** The invariant holds after any number of slices that fit in the bound. *)
Lemma fair_inv_run n c t N :
  (forall i, 0 <= c i) -> (forall i, c i + Z.of_nat n <= N) ->
  (forall i p, t !! i = Some p -> eligible p = true ->
     p_stride p * (2 + N * (N + 3)) < 2 ^ 32) ->
  fair_inv c t ->
  fair_inv (fun i => c i + slices_of i (run_slices n t).1) (run_slices n t).2.
Proof.
  revert c t; induction n as [|n IH]; intros c t Hc HN Hb Hinv.
  - simpl. destruct Hinv as (H0 & Ha & Hs). split_and!; [done| |done].
    intros i p Hi He. unfold slices_of. simpl. rewrite Z.add_0_r. eauto.
  - assert (H0 := proj1 Hinv).
    specialize (IH (bump (stride_pick t) c) (slice t)). simpl.
    destruct (run_slices n (slice t)) as [picks t'] eqn:E. simpl in *.
    destruct IH as (H0' & Ha & Hs).
    + intros i. unfold bump. case_decide; specialize (Hc i); lia.
    + intros i. unfold bump. specialize (HN i). case_decide; lia.
    + intros i p Hi He. destruct (eligible_slice t i p H0 Hi He) as (p' & Hp' & He' & ->).
      specialize (Hb i p' Hp' He'). case_decide; by rewrite ?stride_slice_proc.
    + apply fair_inv_slice; [|done]. intros i p Hi He. specialize (Hb i p Hi He).
      destruct Hinv as (_ & Ha & _). destruct (Ha i p Hi He) as [? (? & _)].
      specialize (HN i). nia.
    + split_and!; [done| |done]. intros i p Hi He. rewrite slices_of_cons.
      destruct (Ha i p Hi He) as [Hle Hacct]. unfold bump in *.
      replace (c i + _) with ((if decide (stride_pick t = i) then c i + 1 else c i)
        + slices_of i picks) by (case_decide; lia). done.
Qed.

Lemma fair_inv_fresh t : fresh_table t -> fair_inv (fun _ => 0) t.
Proof.
  intros [H0 H]. split_and!; [done| |].
  - intros i p Hi He. destruct (H i p Hi He) as (? & ? & ?). split; [lia|].
    unfold acct. split_and!; [done|lia|lia].
  - intros i j p q Hi Hj Hp Hq. destruct (H i p Hi Hp) as (? & ? & ?).
    destruct (H j q Hj Hq) as (? & ? & ?). lia.
Qed.

(** The slots stay eligible, with their strides, through the slices. *)
Lemma run_slices_lookup n t i p :
  t !! i = Some p -> eligible p = true ->
  exists p', (run_slices n t).2 !! i = Some p' /\ eligible p' = true /\
    p_stride p' = p_stride p.
Proof.
  revert t p; induction n as [|n IH]; intros t p Hi He; [by exists p|].
  simpl. specialize (IH (slice t)). destruct (run_slices n (slice t)) as [picks t'].
  simpl in *. rewrite slice_lookup, Hi in IH. case_decide.
  - destruct (IH (slice_proc p) eq_refl (eligible_slice_proc p He)) as (p' & ? & ? & Hs).
    rewrite stride_slice_proc in Hs. eauto.
  - eauto.
Qed.


(** Processes as [forkLowest] (100 tickets, stride 100) and [forkHighest] (990
    tickets, stride 10) make them. *)
Definition child (pid tickets : Z) : proc :=
  proc0 <| p_state := RUNNABLE |> <| p_pid := pid |> <| p_tickets := tickets |>
        <| p_stride := 10000 / tickets |> <| p_limitpass := 10000 / tickets |>.


(** ** Overflow of the limit *)

(** Where the limit has become smaller than the pass, a slice moves the limit
    twice and leaves the pass. *)
Lemma slice_proc_frozen p :
  p_limitpass p <= p_pass p -> 0 <= p_pass p -> is_i32 (p_limitpass p) ->
  is_i32 (p_pass p + p_stride p) ->
  is_i32 (p_limitpass p + 2 * (p_pass p + p_stride p)) -> 0 < p_stride p ->
  p_pass (slice_proc p) = p_pass p /\ p_stride (slice_proc p) = p_stride p /\
  p_limitpass (slice_proc p) = p_limitpass p + 2 * (p_pass p + p_stride p).
Proof.
  intros Hle Hp Hl H1 H2 Hs. unfold slice_proc, stride_account.
  destruct (Z.leb_spec (p_limitpass p) (p_pass p)); [|lia]. simpl.
  destruct (Z.ltb_spec (p_pass p) 0); [lia|].
  unfold clock_account. rewrite orb_true_r. simpl. split_and!; [done..|].
  rewrite !(i32_id (p_pass p + p_stride p)) by done.
  rewrite (i32_id (p_limitpass p + _)) by (wrap_unfold; lia).
  rewrite i32_id by (wrap_unfold; lia). lia.
Qed.

(** A slice that leaves the picked pass unchanged leaves the choice. *)
Lemma stride_pick_frozen t p :
  t !! stride_pick t = Some p -> p_pass (slice_proc p) = p_pass p ->
  stride_pick (slice t) = stride_pick t.
Proof.
  intros Hp Hpass. set (m := stride_pick t) in *.
  assert (Hne : t <> []) by (by destruct t).
  destruct (stride_pick_spec t Hne) as (pm & (Hpm & Hc) & Hmin). fold m in Hpm, Hc, Hmin.
  simplify_eq. assert (Hm : slice t !! m = Some (slice_proc p))
    by (rewrite slice_lookup, decide_True by done; by rewrite Hp).
  eapply first_min_pass_unique; [apply stride_pick_spec; by destruct (slice t)|].
  exists (slice_proc p). split.
  - split; [done|]. destruct Hc; eauto using eligible_slice_proc.
  - intros j q [Hj Hq]. rewrite slice_lookup in Hj. rewrite Hpass.
    case_decide as E; [|by apply Hmin; split].
    change (stride_pick t) with m in E. subst j. rewrite Hp in Hj. simplify_eq/=.
    rewrite Hpass. lia.
Qed.

(** C29: the pass of a process is not what gives the CPU to others once its
    limit has overflowed to a negative value: for as long as the limit, which
    each slice raises by twice the pass and the stride, has not passed the
    pass again, that process is picked every time. *)
Theorem negative_limit_monopolises n t p :
  t !! stride_pick t = Some p ->
  0 < p_stride p -> 0 <= p_pass p -> is_i32 (p_pass p + p_stride p) ->
  is_i32 (p_limitpass p) ->
  p_limitpass p + 2 * Z.of_nat n * (p_pass p + p_stride p) <= p_pass p ->
  fst (run_slices n t) = replicate n (stride_pick t).
Proof.
  revert t p; induction n as [|n IH]; intros t p Hp Hs Hpass H1 Hl Hn; [done|].
  destruct (slice_proc_frozen p) as (Ep & Es & El); [nia|done..|wrap_unfold; nia|done|].
  pose proof (stride_pick_frozen t p Hp Ep) as Em.
  simpl. specialize (IH (slice t) (slice_proc p)).
  destruct (run_slices n (slice t)) as [picks t']. simpl in *. f_equal.
  rewrite Em in IH. apply IH; rewrite ?Ep, ?Es, ?El; try done; [|wrap_unfold; nia|nia].
  rewrite slice_lookup, decide_True by done. by rewrite Hp.
Qed.

(** Two processes made by [forkLowest] (100 tickets, stride 100), after 13,107
    slices shared evenly: the limits have overflowed, and the first has
    the CPU to itself for the next 1,600 slices. *)
Definition two_lowest : list proc := [child 1 100; child 2 100].

Definition overflowed : list proc := N.iter 13107 slice two_lowest.

Lemma overflowed_at :
  (stride_pick overflowed, map (fun p => (p_stride p, p_pass p, p_limitpass p)) overflowed)
  = (0%nat, [(100, 655300, -2145582996); (100, 655300, -2146893796)]).
Proof. vm_compute. reflexivity. Qed.

Lemma negative_limit_monopolises_witness :
  fst (run_slices (N.to_nat 1600) overflowed) = replicate (N.to_nat 1600) (stride_pick overflowed).
Proof.
  pose proof overflowed_at as E. destruct overflowed as [|p [|q [|]]]; try discriminate E.
  injection E as Em Hs Hp Hl _ _ _.
  apply (negative_limit_monopolises (N.to_nat 1600) [p; q] p);
    rewrite ?Em, ?Hs, ?Hp, ?Hl, ?N_nat_Z; wrap_unfold; (reflexivity || lia).
Defined.
