(* ===== verification/Kalloc.v ===== *)
(** kalloc.c: the allocator of physical pages.

    The free list is threaded through the free pages themselves: the first
    word of a free page is the address of the next one.  Addresses are kernel
    virtual addresses.  [end] is the linker symbol [k_end]. *)
From S2P Require Import Prelude Memory Kernel CString Spinlock.

Definition PGSIZE : Z := 4096.
Definition EXTMEM : Z := 1048576.
Definition PHYSTOP : Z := 234881024.
Definition DEVSPACE : Z := 4261412864.

Definition PGROUNDUP (sz : Z) : Z := Z.land (u32 (sz + PGSIZE - 1)) (Z.lnot (PGSIZE - 1)).
Definition PGROUNDDOWN (a : Z) : Z := Z.land a (Z.lnot (PGSIZE - 1)).

(** ** The allocator *)

Definition set_mem (f : memory -> memory) : K unit := modify (fun s => s <| k_mem ::= f |>).

(** [if(kmem.use_lock) acquire(&kmem.lock)], and the matching release. *)
Definition klock : K unit :=
  use_lock ← gets k_use_lock; when (c_true use_lock) (acquire L_kmem).
Definition kunlock : K unit :=
  use_lock ← gets k_use_lock; when (c_true use_lock) (release L_kmem).

Definition kfree (v : Z) : K unit :=
  kend ← gets k_end;
  if c_true (v mod PGSIZE) || (v <? kend) || (PHYSTOP <=? v2p v) then panic "kfree" else
  set_mem (fun m => memset m v 1 PGSIZE);;
  klock;;
  freelist ← gets k_freelist;
  set_mem (fun m => store32 m v freelist);;
  modify (fun s => s <| k_freelist := v |>);;
  kunlock.

Definition kalloc : K Z :=
  klock;;
  r ← gets k_freelist;
  when (c_true r) (modify (fun s => s <| k_freelist := load32 (k_mem s) r |>));;
  kunlock;;
  mret r.

(** [fuel] bounds the iterations; [freerange] gives it the number of pages
    between its arguments, plus the last test. *)
Fixpoint freerange_loop (fuel : nat) (p vend : Z) : K unit :=
  match fuel with
  | O => nofuel
  | S fuel' =>
      if u32 (p + PGSIZE) <=? vend
      then kfree p;; freerange_loop fuel' (u32 (p + PGSIZE)) vend
      else mret tt
  end.

Definition freerange (vstart vend : Z) : K unit :=
  freerange_loop (S (Z.to_nat ((vend - vstart) / PGSIZE))) (PGROUNDUP vstart) vend.

Definition kinit1 (vstart vend : Z) : K unit :=
  initlock L_kmem "kmem";;
  modify (fun s => s <| k_use_lock := 0 |>);;
  freerange vstart vend.

Definition kinit2 (vstart vend : Z) : K unit :=
  freerange vstart vend;;
  modify (fun s => s <| k_use_lock := 1 |>).

(** ** Pages *)

Definition page_ok (kend v : Z) : Prop :=
  v mod PGSIZE = 0 /\ KERNBASE <= kend <= v /\ v < KERNBASE + PHYSTOP.

Lemma page_ok_test kend v :
  page_ok kend v ->
  c_true (v mod PGSIZE) || (v <? kend) || (PHYSTOP <=? v2p v) = false.
Proof.
  intros (Ha & He & Ht). rewrite Ha. simpl. unfold v2p, KERNBASE, PHYSTOP in *.
  rewrite u32_id by (wrap_unfold; lia). lia.
Qed.

Lemma page_bad_test kend v :
  KERNBASE <= kend -> is_u32 v -> ~ page_ok kend v ->
  c_true (v mod PGSIZE) || (v <? kend) || (PHYSTOP <=? v2p v) = true.
Proof.
  intros Hk Hv Hbad. rewrite !orb_true_iff. unfold page_ok in Hbad.
  destruct (c_true_spec (v mod PGSIZE)) as [|Ha]; [tauto|].
  destruct (Z.ltb_spec v kend); [tauto|]. right.
  unfold v2p, KERNBASE, PHYSTOP in *. rewrite u32_id by (wrap_unfold; lia). lia.
Qed.

(** Distinct pages do not overlap. *)
Lemma pages_disjoint v w :
  v mod PGSIZE = 0 -> w mod PGSIZE = 0 -> v <> w -> v + PGSIZE <= w \/ w + PGSIZE <= v.
Proof. unfold PGSIZE. intros. Z.to_euclidean_division_equations. lia. Qed.

Lemma mod_page_add v i : v mod PGSIZE = 0 -> (v + i * PGSIZE) mod PGSIZE = 0.
Proof. intros H. by rewrite Z.mod_add. Qed.

Lemma PGROUNDDOWN_spec a : PGROUNDDOWN a = a - a mod PGSIZE.
Proof.
  unfold PGROUNDDOWN, PGSIZE. change (4096 - 1) with (Z.ones 12).
  rewrite <- Z.ldiff_land, Z.ldiff_ones_r, Z.shiftl_mul_pow2, Z.shiftr_div_pow2 by lia.
  change (2 ^ 12) with 4096. pose proof (Z.div_mod a 4096). lia.
Qed.

Lemma PGROUNDUP_spec a :
  0 <= a -> a + PGSIZE <= 2 ^ 32 ->
  a <= PGROUNDUP a < a + PGSIZE /\ PGROUNDUP a mod PGSIZE = 0.
Proof.
  intros H1 H2. unfold PGROUNDUP. rewrite u32_id by (wrap_unfold; unfold PGSIZE in *; lia).
  change (Z.land ?x _) with (PGROUNDDOWN x). rewrite PGROUNDDOWN_spec.
  unfold PGSIZE in *. Z.to_euclidean_division_equations. lia.
Qed.

(** ** The free list *)

(** [l] is the list of pages linked from [p]. *)
Fixpoint chain (m : memory) (p : Z) (l : list Z) : Prop :=
  match l with
  | [] => p = 0
  | q :: l' => p = q /\ q <> 0 /\ chain m (load32 m q) l'
  end.

Definition kmem_inv (s : kernel) (l : list Z) : Prop :=
  chain (k_mem s) (k_freelist s) l /\ NoDup l /\ Forall (page_ok (k_end s)) l /\
  mem_ok (k_mem s).

(** The list only depends on the first words of its pages. *)
Lemma chain_ext m m' p l :
  (forall q, q ∈ l -> load32 m' q = load32 m q) -> chain m p l -> chain m' p l.
Proof.
  revert p; induction l as [|q l IH]; intros p H; simpl; [done|].
  intros (-> & Hq & Hc). rewrite H by (by left). split_and!; [done..|].
  apply IH; [|done]. intros q' Hq'. apply H. by right.
Qed.

(** The CPU may take the allocator's lock. *)
Definition kmem_ready (d : Z) (s : kernel) : Prop :=
  cpu_ok d s /\ d < INT_MAX - 1 /\ lock_free L_kmem s.

Definition ksettled (s : kernel) : kernel := if c_true (k_use_lock s) then settled s else s.

Lemma ksettled_cases s : ksettled s = settled s \/ ksettled s = s.
Proof. unfold ksettled. destruct (c_true _); auto. Qed.

Lemma kmem_ready_ksettled d s : kmem_ready d s -> kmem_ready d (ksettled s).
Proof.
  intros (H1 & H2 & H3). destruct (ksettled_cases s) as [-> | ->]; [|done].
  split_and!; auto with xv6.
Qed.

(** The two operations without their locking. *)
Definition pop_free (s : kernel) : kernel :=
  if c_true (k_freelist s) then s <| k_freelist := load32 (k_mem s) (k_freelist s) |> else s.

Definition push_free (v : Z) (s : kernel) : kernel :=
  s <| k_mem := store32 (memset (k_mem s) v 1 PGSIZE) v (k_freelist s) |>
    <| k_freelist := v |>.

Lemma kalloc_run d s :
  kmem_ready d s -> kalloc s = Ok (k_freelist s) (pop_free (ksettled s)).
Proof.
  intros (Hc & Hd & Hl). unfold kalloc, klock, kunlock, ksettled, pop_free. krun.
  destruct (c_true (k_use_lock s)) eqn:Eu; simpl.
  - rewrite (acquire_ok d) by (done || lia). krun. simpl.
    destruct (c_true (k_freelist s)); simpl; rewrite Eu.
    + change ((acquired L_kmem s) <| k_freelist := ?x |>)
        with (acquired L_kmem (s <| k_freelist := x |>)).
      by rewrite (release_acquired d).
    + by rewrite (release_acquired d).
  - destruct (c_true (k_freelist s)); simpl; by rewrite Eu.
Qed.

Lemma kfree_run d v s :
  kmem_ready d s -> page_ok (k_end s) v -> kfree v s = Ok tt (push_free v (ksettled s)).
Proof.
  intros (Hc & Hd & Hl) Hv. unfold kfree, klock, kunlock, ksettled, set_mem. krun.
  rewrite (page_ok_test _ _ Hv). krun. simpl.
  destruct (c_true (k_use_lock s)) eqn:Eu; simpl.
  - set (s1 := s <| k_mem ::= _ |>).
    rewrite (acquire_ok d) by (done || lia). krun. simpl. rewrite Eu.
    set (s2 := s1 <| k_mem ::= fun m => store32 m v (k_freelist s) |> <| k_freelist := v |>).
    change ((acquired L_kmem s1) <| k_mem ::= ?f |> <| k_freelist := v |>)
      with (acquired L_kmem (s1 <| k_mem ::= f |> <| k_freelist := v |>)).
    by rewrite (release_acquired d).
  - by rewrite Eu.
Qed.

(** [kfree] refuses every address that is not the start of a page between
    the kernel's end and the top of physical memory, with a panic. *)
Theorem kfree_refuses v s :
  KERNBASE <= k_end s -> is_u32 v -> ~ page_ok (k_end s) v -> kfree v s = Panic "kfree".
Proof.
  intros Hk Hv Hbad. unfold kfree. krun. by rewrite page_bad_test.
Qed.

Lemma kfree_refuses_witness : kfree 2150629377 kernel0 = Panic "kfree".
Proof.
  apply kfree_refuses.
  - vm_compute. discriminate.
  - vm_compute. split; congruence.
  - intros [H _]. discriminate H.
Defined.

(** ** Allocation keeps the free list well formed *)

Lemma chain_length_zero m l : chain m 0 l -> l = [].
Proof. destruct l; [done|]. simpl. lia. Qed.

Lemma kmem_inv_ksettled s l : kmem_inv (ksettled s) l <-> kmem_inv s l.
Proof. by destruct (ksettled_cases s) as [-> | ->]. Qed.

Lemma page_ok_pos kend v : page_ok kend v -> 0 < v < 2 ^ 32 - PGSIZE.
Proof. unfold page_ok, KERNBASE, PHYSTOP, PGSIZE. lia. Qed.

Lemma kmem_inv_pop s l :
  kmem_inv s l ->
  match l with
  | [] => k_freelist s = 0 /\ pop_free s = s
  | p :: l' => k_freelist s = p /\ kmem_inv (pop_free s) l'
  end.
Proof.
  intros (Hc & Hnd & Hp & Hm). unfold pop_free. destruct l as [|p l]; simpl in Hc.
  - by rewrite Hc.
  - destruct Hc as (-> & Hp0 & Hc). destruct (c_true_spec p); [|done]. split; [done|].
    apply NoDup_cons in Hnd as [_ Hnd]. by apply Forall_cons in Hp as [_ Hp].
Qed.

Lemma load8_memset m v c n a :
  0 <= n -> load8 (memset m v c n) a = if decide (v <= a < v + n) then u8 c else load8 m a.
Proof.
  intros Hn. rewrite memset_fill_bytes, load8_fill_bytes by done.
  by rewrite Z2Nat.id.
Qed.

(** The bytes of a freed page. *)
Lemma push_free_mem v s :
  same_outside v (v + PGSIZE) (k_mem s) (k_mem (push_free v s)).
Proof.
  intros a Ha. unfold push_free. simpl. unfold PGSIZE in *.
  rewrite load8_store32_out by lia. rewrite load8_memset by lia. by rewrite decide_False.
Qed.

Lemma mem_ok_memset m v c n : 0 <= n -> mem_ok m -> mem_ok (memset m v c n).
Proof. intros Hn H. rewrite memset_fill_bytes by done. auto with xv6. Qed.

Lemma chain_head_range kend m p l :
  chain m p l -> Forall (page_ok kend) l -> is_u32 p.
Proof.
  destruct l as [|q l]; simpl.
  - intros -> _. wrap_lia.
  - intros (-> & _) [Hq _]%Forall_cons. apply page_ok_pos in Hq. unfold PGSIZE in *.
    wrap_unfold. lia.
Qed.

(** Words of other pages are not affected by a change of page [v]. *)
Lemma same_outside_load32 m m' v q :
  same_outside v (v + PGSIZE) m m' -> v mod PGSIZE = 0 -> q mod PGSIZE = 0 -> q <> v ->
  load32 m' q = load32 m q.
Proof.
  intros Hs Hv Hq Hne. apply load32_ext. intros i Hi. apply Hs.
  destruct (pages_disjoint q v Hq Hv Hne); unfold PGSIZE in *; lia.
Qed.

Lemma kmem_inv_push v s l :
  kmem_inv s l -> page_ok (k_end s) v -> v ∉ l -> kmem_inv (push_free v s) (v :: l).
Proof.
  intros (Hc & Hnd & Hp & Hm) Hv Hnin. split_and!.
  - simpl. split; [done|]. apply page_ok_pos in Hv as Hpos. split; [lia|].
    rewrite load32_store32_eq by (by eapply chain_head_range).
    eapply chain_ext; [|done]. intros q Hq.
    apply (same_outside_load32 _ _ v); [apply (push_free_mem v s)|apply Hv| |].
    + by eapply Forall_forall in Hp as [? _].
    + by intros ->.
  - by apply NoDup_cons.
  - by apply Forall_cons.
  - simpl. apply mem_ok_store32, mem_ok_memset; [by unfold PGSIZE|done].
Qed.

(** ** Clients *)

(** What the rest of the kernel does with the allocator, in any order: take a
    page, give back a page it owns, and write to a page it owns.  The list is
    the pages owned. *)
Inductive kmem_step : kernel * list Z -> kernel * list Z -> Prop :=
| kms_alloc s s' o p :
    kalloc s = Ok p s' -> kmem_step (s, o) (s', if decide (p = 0) then o else p :: o)
| kms_free s s' o1 o2 v :
    kfree v s = Ok tt s' -> kmem_step (s, o1 ++ v :: o2) (s', o1 ++ o2)
| kms_write s o v m :
    v ∈ o -> mem_ok m -> same_outside v (v + PGSIZE) (k_mem s) m ->
    kmem_step (s, o) (s <| k_mem := m |>, o).

(** The pages [ps] are each either free or owned, once. *)
Definition kmem_split (ps : list Z) (d : Z) (so : kernel * list Z) : Prop :=
  exists l, kmem_inv so.1 l /\ l ++ so.2 ≡ₚ ps /\ kmem_ready d so.1 /\
    Forall (page_ok (k_end so.1)) ps /\ NoDup ps.

Lemma kmem_ready_pop d s : kmem_ready d s -> kmem_ready d (pop_free s).
Proof. unfold pop_free. by destruct (c_true _). Qed.

Lemma k_end_ksettled s : k_end (ksettled s) = k_end s.
Proof. by destruct (ksettled_cases s) as [-> | ->]. Qed.

Lemma k_end_pop s : k_end (pop_free s) = k_end s.
Proof. unfold pop_free. by destruct (c_true _). Qed.

Lemma kmem_split_step ps d so so' :
  kmem_split ps d so -> kmem_step so so' -> kmem_split ps d so'.
Proof.
  intros (l & Hinv & Hperm & Hr & Hok & Hnd) Hstep.
  assert (Hk : kmem_inv (ksettled so.1) l) by (by apply kmem_inv_ksettled).
  pose proof (kmem_ready_ksettled d _ Hr) as Hr'.
  destruct Hstep as [s s' o p H|s s' o1 o2 v H|s o v m Hv Hm Hs]; simpl in *.
  - rewrite (kalloc_run d s Hr) in H. injection H as <- <-.
    pose proof (kmem_inv_pop _ _ Hk) as Hpop.
    assert (k_freelist (ksettled s) = k_freelist s) as Ef
      by (by destruct (ksettled_cases s) as [-> | ->]).
    destruct l as [|p l]; destruct Hpop as [E Hpop]; rewrite Ef in E.
    + exists []. simpl. rewrite Hpop, k_end_ksettled. by rewrite decide_True by done.
    + destruct Hinv as (_ & _ & Hp & _). apply Forall_cons in Hp as [Hp _].
      apply page_ok_pos in Hp. exists l. simpl. rewrite E, k_end_pop, k_end_ksettled.
      rewrite decide_False by lia. split_and!; [done| |by apply kmem_ready_pop|done..].
      rewrite <- Hperm. simpl. by rewrite Permutation_middle.
  - assert (Hvok : page_ok (k_end s) v /\ v ∉ l).
    { rewrite <- Hperm in Hok, Hnd. apply Forall_app in Hok as [_ Hok].
      apply Forall_app in Hok as [_ Hok]. apply Forall_cons in Hok as [Hv _].
      split; [done|]. apply NoDup_app in Hnd as (_ & Hnd & _). intros Hin.
      apply (Hnd v Hin). apply elem_of_app. right. by left. }
    destruct Hvok as [Hv Hnin].
    rewrite (kfree_run d v s Hr Hv) in H. injection H as <-.
    exists (v :: l). simpl. rewrite k_end_ksettled. split_and!; [| |done..].
    + apply kmem_inv_push; rewrite ?k_end_ksettled; done.
    + rewrite <- Hperm. simpl. by rewrite <- (Permutation_middle o1), Permutation_middle.
  - exists l. split_and!; [|done..]. destruct Hinv as (Hc & Hnd' & Hp & _).
    split_and!; [|done..]. eapply chain_ext; [|done]. simpl. intros q Hq.
    rewrite <- Hperm in Hok, Hnd. apply Forall_app in Hok as [Hok1 Hok2].
    apply (same_outside_load32 _ _ v); [done|..].
    + by eapply Forall_forall in Hok2 as [? _].
    + by eapply Forall_forall in Hok1 as [? _].
    + intros ->. apply NoDup_app in Hnd as (_ & Hnd & _). by apply (Hnd v).
Qed.

(** C34: exclusive allocation.  Whatever sequence of allocations, frees and
    writes to owned pages the clients make, the free list and the owned pages
    stay disjoint and together are the original pages; an allocation succeeds
    exactly when some page is not owned and gives a page nobody owns; and
    giving back an owned page succeeds. *)
Theorem kalloc_exclusive ps d so s o :
  kmem_split ps d so -> rtc kmem_step so (s, o) ->
  NoDup o /\ o ⊆ ps /\
  (exists s' p, kalloc s = Ok p s' /\
     if decide (length o < length ps)%nat then p ∈ ps /\ p ∉ o else p = 0) /\
  (forall v, v ∈ o -> exists s', kfree v s = Ok tt s').
Proof.
  intros H0 Hr.
  assert (kmem_split ps d (s, o)) as (l & Hinv & Hperm & Hrd & Hok & Hnd).
  { remember (s, o) as so' eqn:E. clear E. induction Hr; eauto using kmem_split_step. }
  simpl in *. pose proof Hnd as Hnd'. rewrite <- Hperm in Hnd'.
  apply NoDup_app in Hnd' as (_ & Hdis & Hno).
  assert (Ho : o ⊆ ps) by (intros x Hx; rewrite <- Hperm; apply elem_of_app; by right).
  split_and!; [done|done| |].
  - do 2 eexists. split; [by apply (kalloc_run d)|].
    pose proof (kmem_inv_pop _ _ Hinv) as Hpop.
    apply Permutation_length in Hperm as Hlen. rewrite length_app in Hlen.
    destruct l as [|p l]; destruct Hpop as [-> _]; simpl in Hlen.
    + by rewrite decide_False by lia.
    + rewrite decide_True by lia. split; [rewrite <- Hperm; by left|]. apply Hdis. by left.
  - intros v Hv. eexists. apply (kfree_run d); [done|].
    by eapply Forall_forall in Hok; [|apply Ho].
Qed.

(** Two pages freed into an empty allocator. *)
Definition two_pages : kernel :=
  push_free 2150633472 (push_free 2150629376 kernel0).

Lemma two_pages_inv :
  kmem_inv two_pages [2150633472; 2150629376] /\ kmem_ready 0 two_pages.
Proof.
  assert (H1 : page_ok 2150629376 2150629376) by (vm_compute; intuition congruence).
  assert (H2 : page_ok 2150629376 2150633472) by (vm_compute; intuition congruence).
  split.
  - apply kmem_inv_push; [apply kmem_inv_push| |]; try done.
    + split_and!; [done|constructor|constructor|apply mem_ok_empty].
    + apply not_elem_of_nil.
    + by apply not_elem_of_cons; split; [|apply not_elem_of_nil].
  - split_and!; [split_and!; vm_compute; (lia || congruence)|done|by exists "kmem"%string].
Qed.

Lemma two_pages_split : kmem_split [2150633472; 2150629376] 0 (two_pages, []).
Proof.
  destruct two_pages_inv as [Hinv Hr]. pose proof Hinv as (_ & Hnd & Hl & _).
  by exists [2150633472; 2150629376].
Qed.

Lemma kalloc_exclusive_witness :
  exists s' p, kalloc two_pages = Ok p s' /\ p ∈ [2150633472; 2150629376].
Proof.
  destruct (kalloc_exclusive _ 0 (two_pages, []) two_pages [] two_pages_split (rtc_refl _ _))
    as (_ & _ & (s' & p & E & H & _) & _).
  by exists s', p.
Defined.

(** ** Freeing a range *)

Fixpoint pages_from (p : Z) (n : nat) : list Z :=
  match n with O => [] | S n' => p :: pages_from (p + PGSIZE) n' end.

Lemma elem_of_pages_from q p n :
  q ∈ pages_from p n <-> exists i : nat, (i < n)%nat /\ q = p + Z.of_nat i * PGSIZE.
Proof.
  revert p; induction n as [|n IH]; intros p; simpl.
  - rewrite elem_of_nil. split; [done|]. intros (i & ? & _). lia.
  - rewrite elem_of_cons, IH. split.
    + intros [->|(i & Hi & ->)]; [exists 0%nat|exists (S i)]; split; lia.
    + intros ([|i] & Hi & ->); [left; lia|right]. exists i. lia.
Qed.

(** The loop of [freerange] frees [n] pages starting at [p]. *)
Lemma freerange_loop_run d n p vend fuel s l :
  kmem_ready d s -> kmem_inv s l ->
  (n < fuel)%nat -> p + Z.of_nat n * PGSIZE <= vend < p + (Z.of_nat n + 1) * PGSIZE ->
  p mod PGSIZE = 0 -> KERNBASE <= k_end s <= p -> vend <= KERNBASE + PHYSTOP ->
  (forall q, q ∈ l -> q ∉ pages_from p n) ->
  exists s', freerange_loop fuel p vend s = Ok tt s' /\ kmem_ready d s' /\
    kmem_inv s' (reverse (pages_from p n) ++ l) /\ k_end s' = k_end s /\
    k_use_lock s' = k_use_lock s.
Proof.
  revert n p s l; induction fuel as [|fuel IH]; intros n p s l Hr Hinv Hf Hv Hal Hk Ht Hdis; [lia|].
  assert (Hu : u32 (p + PGSIZE) = p + PGSIZE)
    by (apply u32_id; unfold KERNBASE, PHYSTOP, PGSIZE in *; wrap_unfold; lia).
  cbn [freerange_loop]. rewrite Hu. destruct n as [|n].
  - destruct (Z.leb_spec (p + PGSIZE) vend); [lia|]. by exists s.
  - destruct (Z.leb_spec (p + PGSIZE) vend); [|unfold PGSIZE in *; lia].
    assert (Hp : page_ok (k_end s) p) by (split_and!; unfold PGSIZE in *; lia).
    rewrite (bind_ok _ _ _ _ _ (kfree_run d p s Hr Hp)).
    destruct (IH n (p + PGSIZE) (push_free p (ksettled s)) (p :: l)) as (s' & E & Hr' & Hi' & He & Hu').
    + by apply (kmem_ready_ksettled d) in Hr.
    + apply kmem_inv_push; [by apply kmem_inv_ksettled|by rewrite k_end_ksettled|].
      intros Hin. apply (Hdis p Hin). simpl. by left.
    + lia.
    + lia.
    + rewrite <- (Z.mul_1_l PGSIZE) at 1. by apply mod_page_add.
    + change (k_end (push_free p ?x)) with (k_end x). rewrite k_end_ksettled.
      unfold PGSIZE. lia.
    + done.
    + intros q [->|Hq]%elem_of_cons; [|intros Hin; apply (Hdis q Hq); by right].
      intros (i & _ & Hq)%elem_of_pages_from. unfold PGSIZE in *. lia.
    + exists s'. split_and!; [done|done| | |].
      * simpl. rewrite reverse_cons, <- app_assoc. done.
      * rewrite He. apply k_end_ksettled.
      * rewrite Hu'. change (k_use_lock (push_free p ?x)) with (k_use_lock x).
        by destruct (ksettled_cases s) as [-> | ->].
Qed.

Lemma freerange_run d vstart vend n s l :
  kmem_ready d s -> kmem_inv s l ->
  PGROUNDUP vstart + Z.of_nat n * PGSIZE <= vend
    < PGROUNDUP vstart + (Z.of_nat n + 1) * PGSIZE ->
  KERNBASE <= k_end s <= vstart -> vstart <= vend <= KERNBASE + PHYSTOP ->
  (forall q, q ∈ l -> q ∉ pages_from (PGROUNDUP vstart) n) ->
  exists s', freerange vstart vend s = Ok tt s' /\ kmem_ready d s' /\
    kmem_inv s' (reverse (pages_from (PGROUNDUP vstart) n) ++ l) /\ k_end s' = k_end s /\
    k_use_lock s' = k_use_lock s.
Proof.
  intros Hr Hinv Hn Hk Hv Hdis. unfold freerange.
  destruct (PGROUNDUP_spec vstart) as [Hup Hal].
  { unfold KERNBASE in *. lia. }
  { unfold KERNBASE, PHYSTOP, PGSIZE in *. lia. }
  apply freerange_loop_run; try done; try lia.
  assert (Z.of_nat n <= (vend - vstart) / PGSIZE); [|lia].
  apply Z.div_le_lower_bound; unfold PGSIZE in *; lia.
Qed.

Lemma page_count p q :
  p mod PGSIZE = 0 -> q mod PGSIZE = 0 -> p <= q ->
  exists n : nat, q = p + Z.of_nat n * PGSIZE.
Proof.
  intros Hp Hq Hle. exists (Z.to_nat ((q - p) / PGSIZE)).
  unfold PGSIZE in *. Z.to_euclidean_division_equations. lia.
Qed.

Lemma pages_from_range x p n :
  p mod PGSIZE = 0 ->
  x ∈ pages_from p n <->
  x mod PGSIZE = 0 /\ p <= x /\ x + PGSIZE <= p + Z.of_nat n * PGSIZE.
Proof.
  intros Hp. rewrite elem_of_pages_from. split.
  - intros (i & Hi & ->). rewrite mod_page_add by done. unfold PGSIZE. lia.
  - intros (Hx & Hle & Hlt). destruct (page_count p x Hp Hx Hle) as [i ->].
    exists i. split; [|done]. unfold PGSIZE in *. lia.
Qed.

Lemma PGROUNDUP_le v p :
  0 <= v -> v + PGSIZE <= 2 ^ 32 -> p mod PGSIZE = 0 -> PGROUNDUP v <= p <-> v <= p.
Proof.
  intros H1 H2 Hp. destruct (PGROUNDUP_spec v H1 H2) as [Hup Hal]. split; [lia|].
  intros Hle. destruct (decide (PGROUNDUP v = p)); [lia|].
  destruct (pages_disjoint (PGROUNDUP v) p Hal Hp); lia.
Qed.

(** [freerange] frees exactly the whole pages of its range. *)
Lemma freerange_pages d vstart vend s l :
  kmem_ready d s -> kmem_inv s l ->
  KERNBASE <= k_end s <= vstart -> vstart <= vend <= KERNBASE + PHYSTOP ->
  vend mod PGSIZE = 0 -> (forall q, q ∈ l -> q + PGSIZE <= vstart) ->
  exists s' l', freerange vstart vend s = Ok tt s' /\ kmem_ready d s' /\
    kmem_inv s' (l' ++ l) /\ k_end s' = k_end s /\
    (forall p, p ∈ l' <-> p mod PGSIZE = 0 /\ vstart <= p /\ p + PGSIZE <= vend).
Proof.
  intros Hr Hinv Hk Hv Hal Hl.
  assert (H1 : 0 <= vstart) by (unfold KERNBASE in *; lia).
  assert (H2 : vstart + PGSIZE <= 2 ^ 32) by (unfold KERNBASE, PHYSTOP, PGSIZE in *; lia).
  destruct (PGROUNDUP_spec vstart H1 H2) as [Hup Hal1].
  destruct (page_count (PGROUNDUP vstart) vend) as [n Hn]; [done|done|apply (PGROUNDUP_le vstart vend H1 H2 Hal); lia|].
  destruct (freerange_run d vstart vend n s l) as (s' & E & Hr' & Hi & He & _); try done.
  { unfold PGSIZE in *. lia. }
  { intros q Hq (i & _ & ->)%elem_of_pages_from. specialize (Hl _ Hq).
    unfold PGSIZE in *. lia. }
  exists s', (reverse (pages_from (PGROUNDUP vstart) n)). split_and!; try done.
  intros p. rewrite elem_of_reverse, pages_from_range by done. rewrite <- Hn.
  split; intros (Hp & Hle & Hlt); (split_and!; [done| |done]);
    by apply (PGROUNDUP_le vstart p H1 H2 Hp).
Qed.

(** Boot.  [kinit1] on the first part of memory and [kinit2] on the rest,
    as main() calls them, succeed, and leave on the free list exactly the
    pages between the first page boundary after the kernel and [PHYSTOP],
    each once, with locking on. *)
Theorem kinit_all_pages kend kdata vmid :
  KERNBASE <= kend -> kend + PGSIZE <= vmid -> vmid mod PGSIZE = 0 ->
  vmid <= KERNBASE + PHYSTOP ->
  exists s l, (kinit1 kend vmid;; kinit2 vmid (KERNBASE + PHYSTOP)) (kernel_boot kend kdata)
      = Ok tt s /\
    kmem_inv s l /\ k_use_lock s = 1 /\
    (forall p, p ∈ l <-> p mod PGSIZE = 0 /\ kend <= p /\ p + PGSIZE <= KERNBASE + PHYSTOP).
Proof.
  intros Hk Hmid Hal Htop. set (s0 := kernel_boot kend kdata).
  assert (Hr0 : kmem_ready 0 s0).
  { split_and!; [split_and!; vm_compute; (lia || congruence)|done|by exists "kmem"%string]. }
  destruct (freerange_pages 0 kend vmid s0 []) as (s1 & l1 & F1 & Hr1 & Hi1 & He1 & Hl1).
  { done. } { split_and!; [done|constructor|constructor|apply mem_ok_empty]. }
  { simpl. lia. } { unfold PGSIZE in *. lia. } { done. }
  { intros q Hq. by apply not_elem_of_nil in Hq. }
  rewrite app_nil_r in Hi1.
  destruct (freerange_pages 0 vmid (KERNBASE + PHYSTOP) s1 l1)
    as (s2 & l2 & F2 & Hr2 & Hi2 & He2 & Hl2); try done.
  { rewrite He1. simpl. unfold PGSIZE in *. lia. } { by intros q (_ & _ & ?)%Hl1. }
  exists (s2 <| k_use_lock := 1 |>), (l2 ++ l1). split_and!; [|done|done|].
  - rewrite (bind_ok (kinit1 _ _) _ s0 tt s1); [by unfold kinit2; rewrite (bind_ok _ _ _ _ _ F2)|].
    rewrite <- F1. reflexivity.
  - intros p. rewrite elem_of_app, Hl1, Hl2. unfold PGSIZE in *. split; [|].
    + intros [?|?]; intuition lia.
    + intros (Hp & Hle & Hlt). destruct (decide (vmid <= p)); [by left|right].
      split_and!; [done..|]. destruct (pages_disjoint p vmid Hp Hal); unfold PGSIZE in *; lia.
Qed.

Lemma kinit_all_pages_witness :
  exists s l, (kinit1 2150629376 (KERNBASE + 4194304);;
               kinit2 (KERNBASE + 4194304) (KERNBASE + PHYSTOP))
                (kernel_boot 2150629376 2149580800) = Ok tt s /\
    kmem_inv s l /\ k_use_lock s = 1 /\
    (forall p, p ∈ l <->
       p mod PGSIZE = 0 /\ 2150629376 <= p /\ p + PGSIZE <= KERNBASE + PHYSTOP).
Proof.
  apply kinit_all_pages; [vm_compute; congruence|vm_compute; congruence|reflexivity|
    vm_compute; congruence].
Defined.
