(* ===== verification/Console.v ===== *)
(** console.c and uart.c, output side: characters to the serial port and the
    CGA screen, number printing and [cprintf].

    The serial port keeps the bytes sent, the screen is the cursor register
    and the cells of CGA memory; the wait for the transmitter in [uartputc]
    is not modelled. *)
From S2P Require Import Prelude Memory Kernel CString Spinlock.

(** ** Characters *)

(** The bytes of a string literal. *)
Fixpoint str (s : string) : list Z :=
  match s with
  | EmptyString => []
  | String c s' => Z.of_N (Ascii.N_of_ascii c) :: str s'
  end.

Definition BACKSPACE : Z := 256.
Definition c_newline : Z := 10.
Definition c_percent : Z := 37.
Definition c_minus : Z := 45.

Definition uartputc (c : Z) (co : console) : console :=
  if c_true (co_uart co) then co <| co_serial ::= fun l => l ++ [u8 c] |> else co.

Definition crt_at (co : console) (i : Z) : Z := default 0 (co_crt co !! i).

(** [memmove(crt, crt+80, sizeof(crt[0])*23*80)] *)
Definition crt_move (co : console) : console :=
  co <| co_crt ::= fun m =>
    foldl (fun m' i => <[i := default 0 (m !! (i + 80))]> m') m (seqZ 0 (23 * 80)) |>.

(** [memset(crt+pos, 0, sizeof(crt[0])*n)] *)
Definition crt_clear (pos n : Z) (co : console) : console :=
  co <| co_crt ::= fun m => foldl (fun m' i => <[i := 0]> m') m (seqZ pos n) |>.

Global Arguments crt_move : simpl never.
Global Arguments crt_clear : simpl never.

Definition crt_set (pos v : Z) (co : console) : console :=
  co <| co_crt ::= <[pos := u16 v]> |>.

Definition cgaputc (c : Z) (co : console) : console :=
  let pos := co_pos co in
  let '(pos, co) :=
    if c =? c_newline then (pos + (80 - pos mod 80), co)
    else if c =? BACKSPACE then (if 0 <? pos then pos - 1 else pos, co)
    else (pos + 1, crt_set pos (Z.lor (Z.land c 255) 1792) co) in
  let '(pos, co) :=
    if 24 <=? pos / 80
    then (pos - 80, crt_clear (pos - 80) (24 * 80 - (pos - 80)) (crt_move co))
    else (pos, co) in
  crt_set pos (Z.lor 32 1792) (co <| co_pos := u16 pos |>).

(** The character on both devices. *)
Definition putc (c : Z) (co : console) : console :=
  cgaputc c
    (if c =? BACKSPACE then uartputc 8 (uartputc 32 (uartputc 8 co)) else uartputc c co).

Definition consputc (c : Z) : K unit :=
  panicked ← gets (fun s => co_panicked (k_cons s));
  if c_true panicked then cli;; hang else
  modify (fun s => s <| k_cons ::= putc c |>).

(** ** Numbers *)

Definition digits : list Z := str "0123456789abcdef".
Definition digit (d : Z) : Z := default 0 (digits !! Z.to_nat d).

(** [do { buf[i++] = digits[x % base]; } while((x /= base) != 0)]: the contents
    of [buf]; a 32-bit number has at most 32 digits. *)
Fixpoint printint_loop (fuel : nat) (x base : Z) : list Z :=
  match fuel with
  | O => []
  | S fuel' =>
      digit (x mod base) ::
      (if x / base =? 0 then [] else printint_loop fuel' (x / base) base)
  end.

(** The contents of [buf] when it is printed, from the last character. *)
Definition printint_buf (xx base : Z) (sign : bool) : list Z :=
  let xx := i32 xx in
  let neg := sign && (xx <? 0) in
  let x := if neg then u32 (- xx) else u32 xx in
  printint_loop 32 x base ++ (if neg then [c_minus] else []).

Fixpoint consputs (l : list Z) : K unit :=
  match l with
  | [] => mret tt
  | c :: l' => consputc c;; consputs l'
  end.

Definition printint (xx base : Z) (sign : bool) : K unit :=
  consputs (reverse (printint_buf xx base sign)).

(** ** Formats *)

(** A word of the argument list: an integer, or a pointer to a string. *)
Inductive carg :=
| AInt (x : Z)
| AStr (s : option (list Z)).

(** [*argp++] as an integer and as a string; reading past the arguments passed
    is undefined. *)
Definition arg_int (args : list carg) : K (Z * list carg) :=
  match args with AInt x :: args' => mret (x, args') | _ => panic "va_arg" end.

Definition arg_str (args : list carg) : K (list Z * list carg) :=
  match args with
  | AStr (Some s) :: args' => mret (s, args')
  | AStr None :: args' => mret (str "(null)", args')
  | _ => panic "va_arg"
  end.

Fixpoint cprintf_loop (fmt : list Z) (args : list carg) : K unit :=
  match fmt with
  | [] => mret tt
  | c :: fmt' =>
      if negb (c =? c_percent) then consputc c;; cprintf_loop fmt' args else
      match fmt' with
      | [] => mret tt
      | c :: fmt'' =>
          if c =? 100 (* d *) then
            '(x, args') ← arg_int args; printint x 10 true;; cprintf_loop fmt'' args'
          else if (c =? 120) || (c =? 112) (* x, p *) then
            '(x, args') ← arg_int args; printint x 16 false;; cprintf_loop fmt'' args'
          else if c =? 115 (* s *) then
            '(s, args') ← arg_str args; consputs s;; cprintf_loop fmt'' args'
          else if c =? c_percent then
            consputc c_percent;; cprintf_loop fmt'' args
          else
            consputc c_percent;; consputc c;; cprintf_loop fmt'' args
      end
  end.

Definition cprintf (fmt : option (list Z)) (args : list carg) : K unit :=
  locking ← gets (fun s => co_locking (k_cons s));
  when (c_true locking) (acquire L_cons);;
  match fmt with
  | None => panic "null fmt"
  | Some fmt => cprintf_loop fmt args
  end;;
  when (c_true locking) (release L_cons).

(** ** The screen *)

Lemma crt_at_foldl f l m i :
  default 0 (foldl (fun (m' : gmap Z Z) i => <[i := f i]> m') m l !! i)
  = if decide (i ∈ l) then f i else default 0 (m !! i).
Proof.
  revert m; induction l as [|j l IH]; intros m; cbn [foldl].
  - rewrite decide_False; [done|apply not_elem_of_nil].
  - rewrite IH. destruct (decide (i ∈ l)) as [Hi|Hi].
    + rewrite decide_True; [done|by right].
    + destruct (decide (i = j)) as [->|Hne].
      * rewrite decide_True by (by left). by rewrite lookup_insert_eq.
      * rewrite lookup_insert_ne by done. rewrite decide_False; [done|].
        by intros [?|?]%elem_of_cons.
Qed.

Lemma crt_at_move co i :
  crt_at (crt_move co) i = if decide (0 <= i < 23 * 80) then crt_at co (i + 80) else crt_at co i.
Proof.
  unfold crt_at, crt_move. cbn [co_crt update].
  rewrite (crt_at_foldl (fun i => default 0 (co_crt co !! (i + 80)))).
  destruct (decide (0 <= i < 23 * 80)) as [H|H].
  - rewrite decide_True; [done|]. apply elem_of_seqZ. lia.
  - rewrite decide_False; [done|]. rewrite elem_of_seqZ. lia.
Qed.

Lemma crt_at_clear pos n co i :
  crt_at (crt_clear pos n co) i = if decide (pos <= i < pos + n) then 0 else crt_at co i.
Proof.
  unfold crt_at, crt_clear. cbn [co_crt update].
  rewrite (crt_at_foldl (fun _ => 0)).
  destruct (decide (pos <= i < pos + n)) as [H|H].
  - rewrite decide_True; [done|]. apply elem_of_seqZ. lia.
  - rewrite decide_False; [done|]. rewrite elem_of_seqZ. lia.
Qed.

Lemma crt_at_set pos v co i :
  crt_at (crt_set pos v co) i = if decide (i = pos) then u16 v else crt_at co i.
Proof.
  unfold crt_at, crt_set. simpl. case_decide; subst.
  - by rewrite lookup_insert_eq.
  - by rewrite lookup_insert_ne.
Qed.

(** The screen.  With the cursor on the 80x25 screen, a character leaves
    the cursor on the screen and writes no cell of CGA memory outside it, on
    every path: newline, backspace, character, and scrolling. *)
Theorem cgaputc_on_screen c co :
  0 <= co_pos co < 2000 ->
  0 <= co_pos (cgaputc c co) < 2000 /\
  forall i, ~ (0 <= i < 2000) -> crt_at (cgaputc c co) i = crt_at co i.
Proof.
  intros Hpos. unfold cgaputc.
  assert (Hstep : exists pos co',
    (if c =? c_newline then (co_pos co + (80 - co_pos co mod 80), co)
     else if c =? BACKSPACE then (if 0 <? co_pos co then co_pos co - 1 else co_pos co, co)
     else (co_pos co + 1, crt_set (co_pos co) (Z.lor (Z.land c 255) 1792) co)) = (pos, co') /\
    0 <= pos <= 2000 /\ forall i, ~ (0 <= i < 2000) -> crt_at co' i = crt_at co i).
  { destruct (c =? c_newline); [|destruct (c =? BACKSPACE)]; do 2 eexists; (split; [done|]).
    - split; [|done]. Z.to_euclidean_division_equations. lia.
    - split; [|done]. destruct (Z.ltb_spec 0 (co_pos co)); lia.
    - split; [lia|]. intros i Hi. rewrite crt_at_set, decide_False by lia. done. }
  destruct Hstep as (pos & co' & -> & Hp & Hc). cbv zeta beta iota.
  destruct (Z.leb_spec 24 (pos / 80)) as [Hs|Hs]; cbv beta iota.
  - assert (24 * 80 <= pos) by (Z.to_euclidean_division_equations; lia).
    split; [simpl; unfold u16; rewrite Z.mod_small by lia; lia|].
    intros i Hi. rewrite crt_at_set, decide_False by lia.
    change (crt_at ((crt_clear (pos - 80) (24 * 80 - (pos - 80)) (crt_move co'))
      <| co_pos := u16 (pos - 80) |>) i)
      with (crt_at (crt_clear (pos - 80) (24 * 80 - (pos - 80)) (crt_move co')) i).
    rewrite crt_at_clear, decide_False by lia.
    rewrite crt_at_move, decide_False by lia. by apply Hc.
  - assert (pos < 24 * 80) by (Z.to_euclidean_division_equations; lia).
    split; [simpl; unfold u16; rewrite Z.mod_small by lia; lia|].
    intros i Hi. rewrite crt_at_set, decide_False by lia. by apply Hc.
Qed.

(** A newline on the last line scrolls. *)
Lemma cgaputc_on_screen_witness :
  let co := (k_cons kernel0) <| co_pos := 1990 |> in
  0 <= co_pos (cgaputc c_newline co) < 2000 /\
  forall i, ~ (0 <= i < 2000) -> crt_at (cgaputc c_newline co) i = crt_at co i.
Proof. apply cgaputc_on_screen. simpl. lia. Defined.

(** ** The digits *)

(** The value of a digit character and of a buffer of digits, the least
    significant first. *)
Definition digit_val (c : Z) : Z := if c <=? 57 then c - 48 else c - 87.

Fixpoint buf_val (base : Z) (l : list Z) : Z :=
  match l with [] => 0 | c :: l' => digit_val c + base * buf_val base l' end.

Lemma digit_val_digit d : 0 <= d < 16 -> digit_val (digit d) = d /\ (digit d = 48 -> d = 0).
Proof.
  intros H. replace d with (Z.of_nat (Z.to_nat d)) by lia.
  assert (Hn : (Z.to_nat d < 16)%nat) by lia. revert Hn. generalize (Z.to_nat d). clear.
  intros n Hn. unfold digit. rewrite Nat2Z.id.
  do 16 (destruct n as [|n]; [vm_compute; split; congruence|]). lia.
Qed.

Lemma printint_loop_spec base n x fuel :
  2 <= base <= 16 -> (0 < n <= fuel)%nat -> 0 <= x < base ^ Z.of_nat n ->
  buf_val base (printint_loop fuel x base) = x /\
  (length (printint_loop fuel x base) <= n)%nat /\
  (last (printint_loop fuel x base) = Some 48 -> x = 0).
Proof.
  intros Hb. revert n x; induction fuel as [|fuel IH]; intros n x Hn Hx; [lia|].
  assert (Hmod : 0 <= x mod base < base) by (apply Z.mod_pos_bound; lia).
  destruct (digit_val_digit (x mod base)) as [Hv H0]; [lia|].
  pose proof (Z.div_mod x base ltac:(lia)) as Hdm.
  cbn [printint_loop]. destruct (Z.eqb_spec (x / base) 0) as [E|E].
  - cbn [buf_val length last]. rewrite Hv. split_and!; [lia|lia|]. intros [= E0]. lia.
  - assert (0 <= x / base) by (apply Z.div_pos; lia).
    assert (Hn1 : (1 < n)%nat).
    { destruct (decide (1 < n)%nat); [done|]. assert (n = 1%nat) as -> by lia.
      rewrite Z.pow_1_r, Z.div_small in * by lia. lia. }
    destruct (IH (n - 1)%nat (x / base)) as (IHv & IHl & IH0); [lia| |].
    { split; [done|]. apply Z.div_lt_upper_bound; [lia|].
      replace (Z.of_nat n) with (Z.succ (Z.of_nat (n - 1))) in Hx by lia.
      rewrite Z.pow_succ_r in Hx by lia. lia. }
    cbn [buf_val length]. rewrite Hv, IHv. split_and!; [lia|lia|].
    destruct (printint_loop fuel (x / base) base) as [|c l] eqn:El.
    + simpl in IHv. lia.
    + rewrite last_cons_cons. intros H48. by apply IH0 in H48.
Qed.

(** Numbers.  [printint] in base 10 and 16 fills at most the 16 characters
    of its buffer, with the digits of the number, without leading zeros, and
    a minus sign when a signed number is negative, [INT_MIN] included. *)
Theorem printint_correct xx base sign :
  base = 10 \/ base = 16 ->
  exists ds : list Z,
    printint_buf xx base sign = ds ++ (if sign && (i32 xx <? 0) then [c_minus] else []) /\
    buf_val base ds = (if sign then Z.abs (i32 xx) else u32 xx) /\
    (last ds = Some 48 -> buf_val base ds = 0) /\
    (length (printint_buf xx base sign) <= 16)%nat.
Proof.
  intros Hb. unfold printint_buf.
  set (x := if sign && (i32 xx <? 0) then u32 (- i32 xx) else u32 (i32 xx)).
  assert (Hx : is_u32 x) by (unfold x; destruct (sign && _); apply u32_range).
  assert (Hv : x = if sign then Z.abs (i32 xx) else u32 xx).
  { unfold x. pose proof (i32_range xx). destruct sign; simpl; [|by rewrite u32_i32].
    destruct (Z.ltb_spec (i32 xx) 0); rewrite u32_id by (wrap_unfold; lia); lia. }
  destruct (printint_loop_spec base 10 x 32) as (H1 & H2 & H3); [lia|lia| |].
  { unfold is_u32 in Hx. destruct Hb as [-> | ->]; simpl Z.of_nat;
      [change (10 ^ 10) with 10000000000|change (16 ^ 10) with 1099511627776]; lia. }
  exists (printint_loop 32 x base). split_and!; [done|by rewrite H1|by rewrite H1|].
  rewrite length_app. destruct (sign && _); cbn [length]; lia.
Qed.

Lemma printint_correct_witness :
  exists ds : list Z,
    printint_buf (-2147483648) 10 true
      = ds ++ (if true && (i32 (-2147483648) <? 0) then [c_minus] else []) /\
    buf_val 10 ds = Z.abs (i32 (-2147483648)) /\
    (last ds = Some 48 -> buf_val 10 ds = 0) /\
    (length (printint_buf (-2147483648) 10 true) <= 16)%nat.
Proof. apply (printint_correct (-2147483648) 10 true). by left. Defined.

(** ** Running [cprintf] *)

(** The characters a format prints. *)
Fixpoint format (fmt : list Z) (args : list carg) : option (list Z) :=
  match fmt with
  | [] => Some []
  | c :: fmt' =>
      if negb (c =? c_percent) then l ← format fmt' args; Some (c :: l) else
      match fmt' with
      | [] => Some []
      | c :: fmt'' =>
          if c =? 100 then
            match args with
            | AInt x :: args' =>
                l ← format fmt'' args'; Some (reverse (printint_buf x 10 true) ++ l)
            | _ => None
            end
          else if (c =? 120) || (c =? 112) then
            match args with
            | AInt x :: args' =>
                l ← format fmt'' args'; Some (reverse (printint_buf x 16 false) ++ l)
            | _ => None
            end
          else if c =? 115 then
            match args with
            | AStr s :: args' =>
                l ← format fmt'' args'; Some (default (str "(null)") s ++ l)
            | _ => None
            end
          else if c =? c_percent then l ← format fmt'' args; Some (c_percent :: l)
          else l ← format fmt'' args; Some (c_percent :: c :: l)
      end
  end.

Definition puts (l : list Z) (co : console) : console := foldl (fun co c => putc c co) co l.

Definition printed (l : list Z) (s : kernel) : kernel := s <| k_cons ::= puts l |>.

Lemma co_fixed_cga c co :
  co_panicked (cgaputc c co) = co_panicked co /\ co_locking (cgaputc c co) = co_locking co.
Proof.
  unfold cgaputc.
  destruct (c =? c_newline); [|destruct (c =? BACKSPACE)];
    cbv beta iota zeta; (destruct (24 <=? _); split; reflexivity).
Qed.

Lemma co_fixed_putc c co :
  co_panicked (putc c co) = co_panicked co /\ co_locking (putc c co) = co_locking co.
Proof.
  unfold putc. destruct (co_fixed_cga c
    (if c =? BACKSPACE then uartputc 8 (uartputc 32 (uartputc 8 co)) else uartputc c co)) as [-> ->].
  unfold uartputc. by repeat case_match.
Qed.

Lemma co_fixed_puts l co :
  co_panicked (puts l co) = co_panicked co /\ co_locking (puts l co) = co_locking co.
Proof.
  revert co; induction l as [|c l IH]; intros co; [done|]. simpl.
  destruct (IH (putc c co)) as [-> ->]. apply co_fixed_putc.
Qed.

Lemma consputs_run l s : co_panicked (k_cons s) = 0 -> consputs l s = Ok tt (printed l s).
Proof.
  revert s; induction l as [|c l IH]; intros s Hp; [by destruct s|]. cbn [consputs].
  rewrite (bind_ok (consputc c) _ s tt (printed [c] s)).
  - rewrite IH; [done|]. simpl. by destruct (co_fixed_putc c (k_cons s)) as [-> _].
  - unfold consputc. krun. by rewrite Hp.
Qed.

Lemma printed_app l1 l2 s : printed l2 (printed l1 s) = printed (l1 ++ l2) s.
Proof. unfold printed, puts, update. simpl. by rewrite foldl_app. Qed.

Lemma printed_panicked l s :
  co_panicked (k_cons s) = 0 -> co_panicked (k_cons (printed l s)) = 0.
Proof. intros H. simpl. by destruct (co_fixed_puts l (k_cons s)) as [-> _]. Qed.

Lemma consputc_run c s : co_panicked (k_cons s) = 0 -> consputc c s = Ok tt (printed [c] s).
Proof. intros Hp. unfold consputc. krun. by rewrite Hp. Qed.

(** The loop prints what [format] gives. *)
Lemma cprintf_loop_run fmt args l s :
  format fmt args = Some l -> co_panicked (k_cons s) = 0 ->
  cprintf_loop fmt args s = Ok tt (printed l s).
Proof.
  remember (length fmt) as n eqn:Hn. revert fmt args l s Hn.
  induction (lt_wf n) as [n _ IH]. intros [|c fmt] args l s -> Hf Hp.
  { simpl in Hf. simplify_eq. by destruct s. }
  assert (Hgo : forall fmt' args' l1 l2,
    (length fmt' < length (c :: fmt))%nat -> format fmt' args' = Some l2 -> l = l1 ++ l2 ->
    cprintf_loop fmt' args' (printed l1 s) = Ok tt (printed l s)).
  { intros fmt' args' l1 l2 Hlt Hf' ->. rewrite <- printed_app.
    eapply IH; [exact Hlt|done|done|by apply printed_panicked]. }
  cbn [cprintf_loop format] in *. destruct (negb (c =? c_percent)).
  { destruct (format fmt args) as [l'|] eqn:E; [|done]. simplify_eq/=.
    rewrite (bind_ok _ _ _ _ _ (consputc_run c s Hp)). eapply Hgo; [simpl; lia|done|done]. }
  destruct fmt as [|c' fmt]; [by simplify_eq; destruct s|].
  repeat match type of Hf with
  | (if ?b then _ else _) = _ => destruct b
  | match ?a with [] => _ | _ => _ end = _ => destruct a as [|[x|[str|]] args']; try done
  | (format fmt ?a ≫= _) = _ => destruct (format fmt a) as [l'|] eqn:E; [|done]
  end; simplify_eq/=; unfold printint;
  repeat (rewrite bind_ok with (a := tt) (s' := printed [c_percent] s) by (by apply consputc_run));
  repeat match goal with
  | |- (mret ?x ≫= _) s = _ => rewrite (bind_ok (mret x) _ s x s eq_refl); cbv beta iota
  | |- (consputs ?l ≫= _) s = _ => rewrite (bind_ok _ _ _ _ _ (consputs_run l s Hp))
  end; try (eapply Hgo; [simpl; lia|done|done]).
  rewrite (bind_ok _ _ _ _ _ (consputc_run c' _ (printed_panicked [c_percent] s Hp))).
  rewrite printed_app. eapply (Hgo fmt args [c_percent; c']); [simpl; lia|done|done].
Qed.

(** The CPU may print. *)
Definition cons_ready (d : Z) (s : kernel) : Prop :=
  cpu_ok d s /\ d < INT_MAX - 1 /\ lock_free L_cons s /\ co_panicked (k_cons s) = 0.

Definition csettled (s : kernel) : kernel :=
  if c_true (co_locking (k_cons s)) then settled s else s.

Lemma cprintf_run d fmt args l s :
  cons_ready d s -> format fmt args = Some l ->
  cprintf (Some fmt) args s = Ok tt (printed l (csettled s)).
Proof.
  intros (Hc & Hd & Hl & Hp) Hf. unfold cprintf, csettled. krun.
  destruct (c_true (co_locking (k_cons s))) eqn:El; simpl.
  - rewrite (acquire_ok d) by (done || lia). krun.
    rewrite (cprintf_loop_run fmt args l (acquired L_cons s) Hf Hp). krun.
    change (printed l (acquired L_cons s)) with (acquired L_cons (printed l s)).
    by rewrite (release_acquired d).
  - rewrite (cprintf_loop_run fmt args l s Hf Hp). reflexivity.
Qed.


(** "pid -7" printed with locking on. *)
Definition console_on : kernel :=
  kernel0 <| k_cons ::= fun co => co <| co_locking := 1 |> <| co_uart := 1 |> |>.

