(* ===== verification/Vm.v ===== *)
(** vm.c: page tables and user address spaces.

    Page tables are words in the pages given out by [kalloc]; the kernel
    reaches them through its own virtual addresses.  [loaduvm], which reads a
    file, is modelled with [exec]. *)
From S2P Require Import Prelude Memory Kernel CString Spinlock Sched Kalloc Console.

(** ** mmu.h *)
Definition NPDENTRIES : Z := 1024.
Definition NPTENTRIES : Z := 1024.
Definition PTXSHIFT : Z := 12.
Definition PDXSHIFT : Z := 22.
Definition PDX (va : Z) : Z := Z.land (Z.shiftr va PDXSHIFT) 1023.
Definition PTX (va : Z) : Z := Z.land (Z.shiftr va PTXSHIFT) 1023.
Definition PTE_P : Z := 1.
Definition PTE_W : Z := 2.
Definition PTE_U : Z := 4.
Definition PTE_ADDR (pte : Z) : Z := Z.land pte (Z.lnot 4095).
Definition PTE_FLAGS (pte : Z) : Z := Z.land pte 4095.
Definition KERNLINK : Z := KERNBASE + EXTMEM.

(** ** vm.c *)

(** The address of the page table entry of [va], or 0. *)
Definition walkpgdir (pgdir va : Z) (alloc : bool) : K Z :=
  let pde := pgdir + 4 * PDX va in
  v ← gets (fun s => load32 (k_mem s) pde);
  if has_bits v PTE_P then mret (p2v (PTE_ADDR v) + 4 * PTX va)
  else if negb alloc then mret 0
  else
    pgtab ← kalloc;
    if pgtab =? 0 then mret 0 else
    set_mem (fun m => memset m pgtab 0 PGSIZE);;
    set_mem (fun m => store32 m pde (Z.lor (Z.lor (Z.lor (v2p pgtab) PTE_P) PTE_W) PTE_U));;
    mret (pgtab + 4 * PTX va).

(** The loop of [mappages]; [mappages] gives it one iteration per page from
    [a] to [last]. *)
Fixpoint mappages_loop (fuel : nat) (pgdir a last pa perm : Z) : K Z :=
  match fuel with
  | O => nofuel
  | S fuel' =>
      pte ← walkpgdir pgdir a true;
      if pte =? 0 then mret (-1) else
      v ← gets (fun s => load32 (k_mem s) pte);
      if has_bits v PTE_P then panic "remap" else
      set_mem (fun m => store32 m pte (Z.lor (Z.lor pa perm) PTE_P));;
      if a =? last then mret 0
      else mappages_loop fuel' pgdir (u32 (a + PGSIZE)) last (u32 (pa + PGSIZE)) perm
  end.

Definition mappages (pgdir va size pa perm : Z) : K Z :=
  let a := PGROUNDDOWN va in
  let last := PGROUNDDOWN (u32 (va + size - 1)) in
  mappages_loop (S (Z.to_nat (u32 (last - a) / PGSIZE))) pgdir a last pa perm.

(** [struct kmap] and the table [kmap]. *)
Record kmap_entry := Mkkmap { km_virt : Z; km_phys_start : Z; km_phys_end : Z; km_perm : Z }.

Definition kmap (kdata : Z) : list kmap_entry := [
  Mkkmap KERNBASE 0 EXTMEM PTE_W;
  Mkkmap KERNLINK (v2p KERNLINK) (v2p kdata) 0;
  Mkkmap kdata (v2p kdata) PHYSTOP PTE_W;
  Mkkmap DEVSPACE DEVSPACE 0 PTE_W ].

Fixpoint map_kernel (pgdir : Z) (l : list kmap_entry) : K Z :=
  match l with
  | [] => mret pgdir
  | k :: l' =>
      r ← mappages pgdir (km_virt k) (u32 (km_phys_end k - km_phys_start k))
            (km_phys_start k) (km_perm k);
      if r <? 0 then mret 0 else map_kernel pgdir l'
  end.

Definition setupkvm : K Z :=
  pgdir ← kalloc;
  if pgdir =? 0 then mret 0 else
  set_mem (fun m => memset m pgdir 0 PGSIZE);;
  if DEVSPACE <? p2v PHYSTOP then panic "PHYSTOP too high" else
  kdata ← gets k_data;
  map_kernel pgdir (kmap kdata).

Definition kvmalloc : K unit :=
  pgdir ← setupkvm;
  modify (fun s => s <| k_kpgdir := pgdir |>);;
  switchkvm.

(** Using a null page is a page fault in the kernel. *)
Definition nonnull (a : Z) : K unit := when (a =? 0) (panic "trap").

Definition inituvm (pgdir init sz : Z) : K unit :=
  if PGSIZE <=? sz then panic "inituvm: more than a page" else
  mem ← kalloc;
  nonnull mem;;
  set_mem (fun m => memset m mem 0 PGSIZE);;
  _ ← mappages pgdir 0 PGSIZE (v2p mem) (Z.lor PTE_W PTE_U);
  set_mem (fun m => memmove m mem init sz).

(** The loop of [deallocuvm]: at most one iteration per page. *)
Fixpoint deallocuvm_loop (fuel : nat) (pgdir a oldsz : Z) : K unit :=
  if negb (a <? oldsz) then mret tt else
  match fuel with
  | O => nofuel
  | S fuel' =>
      pte ← walkpgdir pgdir a false;
      if pte =? 0 then
        deallocuvm_loop fuel' pgdir (u32 (u32 (a + (NPTENTRIES - 1) * PGSIZE) + PGSIZE)) oldsz
      else
        v ← gets (fun s => load32 (k_mem s) pte);
        (if has_bits v PTE_P then
           let pa := PTE_ADDR v in
           if pa =? 0 then panic "kfree" else
           kfree (p2v pa);;
           set_mem (fun m => store32 m pte 0)
         else mret tt);;
        deallocuvm_loop fuel' pgdir (u32 (a + PGSIZE)) oldsz
  end.

Definition deallocuvm (pgdir oldsz newsz : Z) : K Z :=
  if oldsz <=? newsz then mret oldsz else
  deallocuvm_loop (Z.to_nat ((oldsz - newsz) / PGSIZE + 1)) pgdir (PGROUNDUP newsz) oldsz;;
  mret newsz.

(** The loop of [allocuvm]; the result is [false] when memory ran out. *)
Fixpoint allocuvm_loop (fuel : nat) (pgdir a newsz : Z) : K bool :=
  if negb (a <? newsz) then mret true else
  match fuel with
  | O => nofuel
  | S fuel' =>
      mem ← kalloc;
      if mem =? 0 then mret false else
      set_mem (fun m => memset m mem 0 PGSIZE);;
      _ ← mappages pgdir a PGSIZE (v2p mem) (Z.lor PTE_W PTE_U);
      allocuvm_loop fuel' pgdir (u32 (a + PGSIZE)) newsz
  end.

Definition allocuvm (pgdir oldsz newsz : Z) : K Z :=
  if KERNBASE <=? newsz then mret 0 else
  if newsz <? oldsz then mret oldsz else
  ok ← allocuvm_loop (Z.to_nat ((newsz - oldsz) / PGSIZE + 1)) pgdir (PGROUNDUP oldsz) newsz;
  if (ok : bool) then mret newsz else
  cprintf (Some (str "allocuvm out of memory
")) [];;
  _ ← deallocuvm pgdir newsz oldsz;
  mret 0.

(** [for(i = 0; i < NPDENTRIES; i++) if(pgdir[i] & PTE_P) kfree(...)] *)
Fixpoint free_tables (pgdir : Z) (idx : list Z) : K unit :=
  match idx with
  | [] => mret tt
  | i :: idx' =>
      v ← gets (fun s => load32 (k_mem s) (pgdir + 4 * i));
      (if has_bits v PTE_P then kfree (p2v (PTE_ADDR v)) else mret tt);;
      free_tables pgdir idx'
  end.

Definition freevm (pgdir : Z) : K unit :=
  if pgdir =? 0 then panic "freevm: no pgdir" else
  _ ← deallocuvm pgdir KERNBASE 0;
  free_tables pgdir (seqZ 0 NPDENTRIES);;
  kfree pgdir.

Definition clearpteu (pgdir uva : Z) : K unit :=
  pte ← walkpgdir pgdir uva false;
  if pte =? 0 then panic "clearpteu" else
  set_mem (fun m => store32 m pte (Z.land (load32 m pte) (u32 (Z.lnot PTE_U)))).

(** The loop of [copyuvm]; the result is [false] at [goto bad]. *)
Fixpoint copyuvm_loop (fuel : nat) (pgdir d i sz : Z) : K bool :=
  if negb (i <? sz) then mret true else
  match fuel with
  | O => nofuel
  | S fuel' =>
      pte ← walkpgdir pgdir i false;
      if pte =? 0 then panic "copyuvm: pte should exist" else
      v ← gets (fun s => load32 (k_mem s) pte);
      if negb (has_bits v PTE_P) then panic "copyuvm: page not present" else
      mem ← kalloc;
      if mem =? 0 then mret false else
      set_mem (fun m => memmove m mem (p2v (PTE_ADDR v)) PGSIZE);;
      r ← mappages d i PGSIZE (v2p mem) (PTE_FLAGS v);
      if r <? 0 then mret false
      else copyuvm_loop fuel' pgdir d (u32 (i + PGSIZE)) sz
  end.

Definition copyuvm (pgdir sz : Z) : K Z :=
  d ← setupkvm;
  if d =? 0 then mret 0 else
  ok ← copyuvm_loop (Z.to_nat (sz / PGSIZE + 1)) pgdir d 0 sz;
  if (ok : bool) then mret d else
  freevm d;;
  mret 0.

(** A missing page table makes [*pte] a null dereference. *)
Definition uva2ka (pgdir uva : Z) : K Z :=
  pte ← walkpgdir pgdir uva false;
  nonnull pte;;
  v ← gets (fun s => load32 (k_mem s) pte);
  if negb (has_bits v PTE_P) then mret 0 else
  if negb (has_bits v PTE_U) then mret 0 else
  mret (p2v (PTE_ADDR v)).

(** [copyout] of the bytes [l]; each iteration goes to the next page. *)
Fixpoint copyout_loop (fuel : nat) (pgdir va : Z) (l : list Z) : K Z :=
  match l with
  | [] => mret 0
  | _ =>
      match fuel with
      | O => nofuel
      | S fuel' =>
          let va0 := PGROUNDDOWN va in
          pa0 ← uva2ka pgdir va0;
          if pa0 =? 0 then mret (-1) else
          let n := Z.min (PGSIZE - (va - va0)) (Z.of_nat (length l)) in
          set_mem (fun m => store_bytes m (pa0 + (va - va0)) (take (Z.to_nat n) l));;
          copyout_loop fuel' pgdir (u32 (va0 + PGSIZE)) (drop (Z.to_nat n) l)
      end
  end.

Definition copyout (pgdir va : Z) (l : list Z) : K Z :=
  copyout_loop (S (length l)) pgdir va l.

(** ** Words and bits of page table entries *)

Lemma land_low x f : x mod PGSIZE = 0 -> 0 <= f < PGSIZE -> Z.land x f = 0.
Proof.
  intros Hx Hf. apply Z.bits_inj'. intros i Hi. rewrite Z.land_spec, Z.bits_0.
  destruct (decide (i < 12)).
  - replace x with (x / 2 ^ 12 * 2 ^ 12)
      by (unfold PGSIZE in *; change (2 ^ 12) with 4096; Z.to_euclidean_division_equations; lia).
    by rewrite Z.mul_pow2_bits_low by lia.
  - replace (Z.testbit f i) with false; [apply andb_false_r|]. symmetry.
    destruct (decide (f = 0)) as [->|]; [apply Z.bits_0|].
    apply Z.bits_above_log2; [lia|]. apply (Z.lt_le_trans _ 12); [|lia].
    apply Z.log2_lt_pow2; [lia|]. unfold PGSIZE in *. change (2 ^ 12) with 4096. lia.
Qed.

Lemma lor_low x f : x mod PGSIZE = 0 -> 0 <= f < PGSIZE -> Z.lor x f = x + f.
Proof.
  intros Hx Hf. rewrite <- Z.lxor_lor by (by apply land_low).
  symmetry. apply Z.add_nocarry_lxor. by apply land_low.
Qed.

Lemma PTE_ADDR_spec y : PTE_ADDR y = y - y mod PGSIZE.
Proof. exact (PGROUNDDOWN_spec y). Qed.

Lemma PTE_FLAGS_spec y : PTE_FLAGS y = y mod PGSIZE.
Proof. unfold PTE_FLAGS, PGSIZE. change 4095 with (Z.ones 12). by rewrite Z.land_ones. Qed.

Lemma has_P_mod y : has_bits y PTE_P = negb (y mod 2 =? 0).
Proof. unfold has_bits, PTE_P. change 1 with (Z.ones 1). by rewrite Z.land_ones. Qed.

(** An entry built from an aligned address and flags. *)
Lemma entry_spec x f :
  x mod PGSIZE = 0 -> 0 <= f < PGSIZE ->
  PTE_ADDR (x + f) = x /\ PTE_FLAGS (x + f) = f /\
  has_bits (x + f) PTE_P = has_bits f PTE_P.
Proof.
  intros Hx Hf. rewrite PTE_ADDR_spec, PTE_FLAGS_spec, !has_P_mod.
  assert (E : (x + f) mod PGSIZE = f) by (unfold PGSIZE in *; Z.to_euclidean_division_equations; lia).
  rewrite E. split_and!; [lia|done|]. do 2 f_equal.
  unfold PGSIZE in *. Z.to_euclidean_division_equations. lia.
Qed.

Lemma PDX_range va : 0 <= PDX va < 1024.
Proof. unfold PDX. change 1023 with (Z.ones 10). rewrite Z.land_ones by lia.
  apply Z.mod_pos_bound. lia. Qed.

Lemma PTX_range va : 0 <= PTX va < 1024.
Proof. unfold PTX. change 1023 with (Z.ones 10). rewrite Z.land_ones by lia.
  apply Z.mod_pos_bound. lia. Qed.

(** An address is its two indices and its offset. *)
Lemma va_split va :
  is_u32 va -> va = PDX va * (1024 * PGSIZE) + PTX va * PGSIZE + va mod PGSIZE.
Proof.
  intros H. unfold PDX, PTX, PDXSHIFT, PTXSHIFT, is_u32, PGSIZE in *.
  change 1023 with (Z.ones 10). rewrite !Z.land_ones, !Z.shiftr_div_pow2 by lia.
  change (2 ^ 10) with 1024. change (2 ^ 22) with (4096 * 1024). change (2 ^ 12) with 4096.
  change (2 ^ 32) with 4294967296 in H.
  rewrite <- Z.div_div by lia. Z.to_euclidean_division_equations. lia.
Qed.

Lemma same_page va va' :
  is_u32 va -> is_u32 va' -> PDX va = PDX va' -> PTX va = PTX va' ->
  PGROUNDDOWN va = PGROUNDDOWN va'.
Proof.
  intros H H' E1 E2. rewrite !PGROUNDDOWN_spec.
  pose proof (va_split va H). pose proof (va_split va' H'). lia.
Qed.

Lemma page_indices va :
  PDX (PGROUNDDOWN va) = PDX va /\ PTX (PGROUNDDOWN va) = PTX va.
Proof.
  rewrite PGROUNDDOWN_spec. unfold PDX, PTX, PDXSHIFT, PTXSHIFT, PGSIZE.
  rewrite !Z.shiftr_div_pow2 by lia. change (2 ^ 22) with (4096 * 1024). change (2 ^ 12) with 4096.
  rewrite <- !Z.div_div by lia.
  replace ((va - va mod 4096) / 4096) with (va / 4096); [done|].
  Z.to_euclidean_division_equations. lia.
Qed.
