(* ===== verification/VmSpec.v ===== *)
(** Correctness of the page table operations of vm.c.

    A page directory and its page tables are read as a map from virtual
    addresses to entries, [pte_of].  [walkpgdir] leaves that map unchanged,
    [mappages] changes it at the pages asked for, and neither touches any
    page outside the page table and the free list. *)
From S2P Require Import Prelude Memory Kernel CString Spinlock Sched Kalloc Console Vm.

(** ** Page tables as maps *)

(** The page table of directory entry [i], when present. *)
Definition tab_of (m : memory) (pgdir i : Z) : option Z :=
  let v := load32 m (pgdir + 4 * i) in
  if has_bits v PTE_P then Some (p2v (PTE_ADDR v)) else None.

(** The entry of [va]; 0, not present, without a page table. *)
Definition pte_of (m : memory) (pgdir va : Z) : Z :=
  match tab_of m pgdir (PDX va) with
  | Some t => load32 m (t + 4 * PTX va)
  | None => 0
  end.

(** The pages of the page table itself. *)
Definition pt_page (m : memory) (pgdir p : Z) : Prop :=
  p = pgdir \/ exists i, 0 <= i < 1024 /\ tab_of m pgdir i = Some p.

Definition pt_wf (kend : Z) (m : memory) (pgdir : Z) : Prop :=
  page_ok kend pgdir /\
  (forall i t, 0 <= i < 1024 -> tab_of m pgdir i = Some t -> page_ok kend t /\ t <> pgdir) /\
  (forall i j t, 0 <= i < 1024 -> 0 <= j < 1024 ->
     tab_of m pgdir i = Some t -> tab_of m pgdir j = Some t -> i = j).

(** The memories agree outside the pages in [P]. *)
Definition frame (P : Z -> Prop) (m m' : memory) : Prop :=
  forall a, (forall p, P p -> ~ (p <= a < p + PGSIZE)) -> load8 m' a = load8 m a.

Definition vm_ok (s : kernel) (pgdir : Z) (l : list Z) : Prop :=
  kmem_inv s l /\ pt_wf (k_end s) (k_mem s) pgdir /\
  (forall p, pt_page (k_mem s) pgdir p -> p ∉ l).

(** What these operations may change of the kernel's state. *)
Definition vm_rel (s s' : kernel) : Prop :=
  exists m f, s' = s <| k_mem := m |> <| k_freelist := f |> \/
              s' = (ksettled s) <| k_mem := m |> <| k_freelist := f |>.

Lemma vm_rel_refl s : vm_rel s s.
Proof. exists (k_mem s), (k_freelist s). left. by destruct s. Qed.

Lemma ksettled_upd s m f :
  ksettled (s <| k_mem := m |> <| k_freelist := f |>)
  = (ksettled s) <| k_mem := m |> <| k_freelist := f |>.
Proof. unfold ksettled. simpl. by destruct (c_true _). Qed.

Lemma ksettled_twice s : ksettled (ksettled s) = ksettled s.
Proof.
  unfold ksettled. destruct (c_true (k_use_lock s)) eqn:E; simpl; rewrite E; [|done].
  apply settled_settled.
Qed.

Lemma vm_rel_trans s1 s2 s3 : vm_rel s1 s2 -> vm_rel s2 s3 -> vm_rel s1 s3.
Proof.
  intros (m & f & H) (m' & f' & H'). exists m', f'.
  destruct H as [-> | ->], H' as [-> | ->]; rewrite ?ksettled_upd, ?ksettled_twice; eauto.
Qed.

Lemma vm_rel_mem s m : vm_rel s (s <| k_mem := m |>).
Proof. exists m, (k_freelist s). left. by destruct s. Qed.

Lemma vm_rel_pop s : vm_rel s (pop_free (ksettled s)).
Proof.
  unfold pop_free. destruct (c_true _).
  - exists (k_mem s), (load32 (k_mem (ksettled s)) (k_freelist (ksettled s))). right.
    by destruct (ksettled_cases s) as [-> | ->], s.
  - exists (k_mem s), (k_freelist s). right. by destruct (ksettled_cases s) as [-> | ->], s.
Qed.

Lemma vm_rel_ready d s s' : vm_rel s s' -> kmem_ready d s -> kmem_ready d s'.
Proof.
  intros (m & f & [-> | ->]) H; [done|]. by apply (kmem_ready_ksettled d) in H.
Qed.

Lemma vm_rel_end s s' : vm_rel s s' -> k_end s' = k_end s.
Proof. intros (m & f & [-> | ->]); [done|]. apply k_end_ksettled. Qed.

(** ** Changes of memory and the map *)

Lemma tab_of_ext m m' pgdir i :
  load32 m' (pgdir + 4 * i) = load32 m (pgdir + 4 * i) -> tab_of m' pgdir i = tab_of m pgdir i.
Proof. unfold tab_of. by intros ->. Qed.

Lemma in_page p i : 0 <= i < 1024 -> p <= p + 4 * i /\ p + 4 * i + 4 <= p + PGSIZE.
Proof. unfold PGSIZE. lia. Qed.

(** A change inside a page that is not part of the page table leaves it alone. *)
Lemma pt_frame m m' pgdir kend :
  pt_wf kend m pgdir ->
  (forall p, pt_page m pgdir p -> forall a, p <= a < p + PGSIZE -> load8 m' a = load8 m a) ->
  (forall i, 0 <= i < 1024 -> tab_of m' pgdir i = tab_of m pgdir i) /\
  (forall va, pte_of m' pgdir va = pte_of m pgdir va).
Proof.
  intros Hwf Hs.
  assert (Ht : forall i, 0 <= i < 1024 -> tab_of m' pgdir i = tab_of m pgdir i).
  { intros i Hi. apply tab_of_ext, load32_ext. intros a Ha.
    apply (Hs pgdir); [by left|]. pose proof (in_page pgdir i Hi). lia. }
  split; [done|]. intros va. unfold pte_of. rewrite Ht by apply PDX_range.
  destruct (tab_of m pgdir (PDX va)) as [t|] eqn:E; [|done].
  apply load32_ext. intros a Ha.
  apply (Hs t); [right; eauto using PDX_range|]. pose proof (in_page t _ (PTX_range va)). lia.
Qed.

Lemma pt_wf_ext kend m m' pgdir :
  (forall i, 0 <= i < 1024 -> tab_of m' pgdir i = tab_of m pgdir i) ->
  pt_wf kend m pgdir -> pt_wf kend m' pgdir.
Proof.
  intros Ht (H1 & H2 & H3). split_and!; [done| |].
  - intros i t Hi. rewrite Ht by done. by apply H2.
  - intros i j t Hi Hj. rewrite !Ht by done. by apply H3.
Qed.

Lemma pt_page_ext m m' pgdir p :
  (forall i, 0 <= i < 1024 -> tab_of m' pgdir i = tab_of m pgdir i) ->
  pt_page m' pgdir p <-> pt_page m pgdir p.
Proof.
  intros Ht. unfold pt_page. split; (intros [->|(i & Hi & E)]; [by left|right]);
    exists i; (split; [done|]); by rewrite Ht in * by done.
Qed.

(** Writing an entry of a page table. *)
Lemma pte_store m pgdir kend va t v :
  pt_wf kend m pgdir -> is_u32 v -> tab_of m pgdir (PDX va) = Some t ->
  let m' := store32 m (t + 4 * PTX va) v in
  (forall i, 0 <= i < 1024 -> tab_of m' pgdir i = tab_of m pgdir i) /\
  (forall va', pte_of m' pgdir va' =
     if decide (PDX va' = PDX va /\ PTX va' = PTX va) then v else pte_of m pgdir va').
Proof.
  intros (H1 & H2 & H3) Hv Ht m'.
  destruct (H2 _ _ (PDX_range va) Ht) as [Htok Hne].
  pose proof (in_page t _ (PTX_range va)) as Hin.
  assert (Htab : forall i, 0 <= i < 1024 -> tab_of m' pgdir i = tab_of m pgdir i).
  { intros i Hi. apply tab_of_ext, load32_store32_ne.
    pose proof (in_page pgdir i Hi).
    destruct (pages_disjoint t pgdir) as [?|?]; [apply Htok|apply H1|done|lia|lia]. }
  split; [done|]. intros va'. unfold pte_of. rewrite Htab by apply PDX_range.
  destruct (decide (PDX va' = PDX va)) as [E|E].
  - rewrite E, Ht. destruct (decide (PTX va' = PTX va)) as [E'|E'].
    + rewrite decide_True by done. rewrite E'. by apply load32_store32_eq.
    + rewrite decide_False by tauto. apply load32_store32_ne. lia.
  - rewrite decide_False by tauto.
    destruct (tab_of m pgdir (PDX va')) as [t'|] eqn:Ht'; [|done].
    apply load32_store32_ne. pose proof (in_page t' _ (PTX_range va')).
    destruct (H2 _ _ (PDX_range va') Ht') as [Htok' _].
    destruct (decide (t = t')) as [->|Htt].
    { exfalso. apply E. eapply H3; eauto using PDX_range. }
    destruct (pages_disjoint t t') as [?|?]; [apply Htok|apply Htok'|done|lia|lia].
Qed.

(** ** walkpgdir *)

Lemma v2p_page kend p :
  page_ok kend p -> v2p p mod PGSIZE = 0 /\ p2v (v2p p) = p /\ 0 < v2p p + PGSIZE <= PHYSTOP.
Proof.
  intros (Hal & Hk & Ht). unfold v2p, p2v, KERNBASE, PHYSTOP, PGSIZE in *.
  rewrite (u32_id (p - _)) by (wrap_unfold; lia).
  rewrite u32_id by (wrap_unfold; lia). Z.to_euclidean_division_equations. lia.
Qed.

Lemma entry_page kend p f :
  page_ok kend p -> 0 <= f < PGSIZE ->
  Z.lor (v2p p) f = v2p p + f /\ is_u32 (v2p p + f) /\ p2v (PTE_ADDR (v2p p + f)) = p.
Proof.
  intros Hp Hf. destruct (v2p_page kend p Hp) as (H1 & H2 & H3).
  destruct (entry_spec (v2p p) f H1 Hf) as (H4 & _ & _). rewrite H4.
  split_and!; [by apply lor_low| |done]. unfold PHYSTOP, PGSIZE in *.
  assert (0 <= v2p p) by (unfold v2p; wrap_lia). wrap_unfold. lia.
Qed.

(** A zeroed page [p] installed as the page table of [va]. *)
Lemma new_table m pgdir kend va p :
  pt_wf kend m pgdir -> page_ok kend p -> ~ pt_page m pgdir p ->
  tab_of m pgdir (PDX va) = None ->
  let m' := store32 (memset m p 0 PGSIZE) (pgdir + 4 * PDX va)
              (Z.lor (Z.lor (Z.lor (v2p p) PTE_P) PTE_W) PTE_U) in
  (forall i, 0 <= i < 1024 -> tab_of m' pgdir i =
     if decide (i = PDX va) then Some p else tab_of m pgdir i) /\
  (forall va', pte_of m' pgdir va' = pte_of m pgdir va').
Proof.
  intros (H1 & H2 & H3) Hp Hnew Hnone m'.
  destruct (entry_page kend p 7 Hp ltac:(by unfold PGSIZE)) as (E1 & E2 & E3).
  assert (Em : m' = store32 (memset m p 0 PGSIZE) (pgdir + 4 * PDX va) (v2p p + 7)).
  { unfold m'. rewrite <- !Z.lor_assoc. change (Z.lor PTE_P (Z.lor PTE_W PTE_U)) with 7.
    by rewrite E1. }
  assert (Hpd : p <> pgdir) by (intros ->; apply Hnew; by left).
  pose proof (in_page pgdir _ (PDX_range va)) as Hva.
  assert (Hd : p + PGSIZE <= pgdir \/ pgdir + PGSIZE <= p)
    by (apply pages_disjoint; [apply Hp|apply H1|done]).
  assert (Hz : forall q, q mod PGSIZE = 0 -> q <> p -> q <> pgdir -> forall i, 0 <= i < 1024 ->
    load32 m' (q + 4 * i) = load32 m (q + 4 * i)).
  { intros q Hq Hqp Hqd i Hi. pose proof (in_page q i Hi). rewrite Em.
    rewrite load32_store32_ne by (destruct (pages_disjoint q pgdir) as [?|?];
      [done|apply H1|done|lia|lia]).
    apply load32_ext. intros a Ha. rewrite load8_memset by (by unfold PGSIZE).
    destruct (pages_disjoint q p) as [?|?]; [done|apply Hp|done|rewrite decide_False by lia; done..]. }
  assert (Htab : forall i, 0 <= i < 1024 -> tab_of m' pgdir i =
     if decide (i = PDX va) then Some p else tab_of m pgdir i).
  { intros i Hi. case_decide as E.
    - subst i. unfold tab_of. rewrite Em, load32_store32_eq by done.
      destruct (entry_spec (v2p p) 7) as (_ & _ & ->);
        [apply (v2p_page kend p Hp)|by unfold PGSIZE|]. simpl. by rewrite E3.
    - apply tab_of_ext. pose proof (in_page pgdir i Hi).
      rewrite Em, load32_store32_ne by lia. apply load32_ext. intros a Ha.
      rewrite load8_memset by (by unfold PGSIZE). by rewrite decide_False by lia. }
  split; [done|]. intros va'. unfold pte_of. rewrite Htab by apply PDX_range.
  case_decide as E.
  - rewrite E, Hnone, Em. pose proof (in_page p _ (PTX_range va')).
    rewrite load32_store32_ne by lia. unfold load32.
    rewrite !load8_memset by (by unfold PGSIZE). by rewrite !decide_True by lia.
  - destruct (tab_of m pgdir (PDX va')) as [t|] eqn:Ht; [|done].
    destruct (H2 _ _ (PDX_range va') Ht) as [Htok Hne].
    apply Hz; [apply Htok| |done|apply PTX_range].
    intros ->. apply Hnew. right. eauto using PDX_range.
Qed.

(** The memory after [walkpgdir] has installed page [p]. *)
Definition with_table (m : memory) (pgdir va p : Z) : memory :=
  store32 (memset m p 0 PGSIZE) (pgdir + 4 * PDX va)
    (Z.lor (Z.lor (Z.lor (v2p p) PTE_P) PTE_W) PTE_U).

Lemma pt_page_end kend m pgdir p : pt_wf kend m pgdir -> pt_page m pgdir p -> page_ok kend p.
Proof. intros (H1 & H2 & _) [->|(i & Hi & E)]; [done|]. by apply (H2 i). Qed.

Section install.
Context (m : memory) (pgdir kend va p : Z).
Context (Hwf : pt_wf kend m pgdir) (Hp : page_ok kend p) (Hnew : ~ pt_page m pgdir p).
Context (Hnone : tab_of m pgdir (PDX va) = None).

Lemma install_tab i :
  0 <= i < 1024 -> tab_of (with_table m pgdir va p) pgdir i =
    if decide (i = PDX va) then Some p else tab_of m pgdir i.
Proof. apply (new_table m pgdir kend va p Hwf Hp Hnew Hnone). Qed.

Lemma install_pages q :
  pt_page (with_table m pgdir va p) pgdir q <-> pt_page m pgdir q \/ q = p.
Proof.
  split.
  - intros [->|(i & Hi & E)]; [by left; left|]. rewrite install_tab in E by done.
    case_decide; simplify_eq; [by right|]. left. right. eauto.
  - intros [[->|(i & Hi & E)]| ->]; [by left| |].
    + right. exists i. split; [done|]. rewrite install_tab by done. case_decide; [congruence|done].
    + right. exists (PDX va). split; [apply PDX_range|].
      by rewrite install_tab, decide_True by (done || apply PDX_range).
Qed.

Lemma install_frame :
  frame (pt_page (with_table m pgdir va p) pgdir) m (with_table m pgdir va p).
Proof.
  intros a Ha. unfold with_table. pose proof (in_page pgdir _ (PDX_range va)) as Hin.
  assert (~ (pgdir <= a < pgdir + PGSIZE)) by (apply Ha; by left).
  assert (~ (p <= a < p + PGSIZE)) by (apply Ha, install_pages; by right).
  rewrite load8_store32_out by lia. rewrite load8_memset by (by unfold PGSIZE).
  by rewrite decide_False.
Qed.

Lemma install_wf : pt_wf kend (with_table m pgdir va p) pgdir.
Proof.
  destruct Hwf as (H1 & H2 & H3). split_and!; [done| |].
  - intros i t Hi E. rewrite install_tab in E by done. case_decide; [|by apply (H2 i)].
    simplify_eq. split; [done|]. intros ->. apply Hnew. by left.
  - intros i j t Hi Hj Ei Ej. rewrite install_tab in Ei, Ej by done.
    repeat case_decide; simplify_eq; [done| | |by eapply H3];
      exfalso; apply Hnew; right; eauto.
Qed.

(** The free list does not see it. *)
Lemma install_chain f l :
  p ∉ l -> (forall q, pt_page m pgdir q -> q ∉ l) -> Forall (page_ok kend) l ->
  chain m f l -> chain (with_table m pgdir va p) f l.
Proof.
  intros Hpl Hsep Hl. apply chain_ext. intros q Hq. apply load32_ext. intros a Ha.
  apply install_frame. intros q' Hq' Hin.
  assert (q' <> q).
  { intros ->. apply install_pages in Hq' as [Hq'| ->]; [|done]. by apply (Hsep _ Hq'). }
  assert (Hq0 : page_ok kend q) by (by eapply Forall_forall in Hl).
  assert (Hq1 : page_ok kend q') by (eapply pt_page_end; [apply install_wf|done]).
  destruct (pages_disjoint q q') as [?|?]; [apply Hq0|apply Hq1|done|..];
    unfold PGSIZE in *; lia.
Qed.
End install.

(** The outcome of [walkpgdir(pgdir, va, 1)]. *)
Record walked (s s' : kernel) (pgdir va : Z) (l l' : list Z) (t : Z) : Prop := {
  wk_rel : vm_rel s s';
  wk_ok : vm_ok s' pgdir l';
  wk_tab : tab_of (k_mem s') pgdir (PDX va) = Some t;
  wk_free : exists l0, l = l0 ++ l' /\
    forall p, pt_page (k_mem s') pgdir p <-> pt_page (k_mem s) pgdir p \/ p ∈ l0;
  wk_map : forall va', pte_of (k_mem s') pgdir va' = pte_of (k_mem s) pgdir va';
  wk_frame : frame (pt_page (k_mem s') pgdir) (k_mem s) (k_mem s');
}.
Arguments wk_rel {_ _ _ _ _ _ _} _.
Arguments wk_ok {_ _ _ _ _ _ _} _.
Arguments wk_tab {_ _ _ _ _ _ _} _.
Arguments wk_free {_ _ _ _ _ _ _} _.
Arguments wk_map {_ _ _ _ _ _ _} _.
Arguments wk_frame {_ _ _ _ _ _ _} _.

Lemma frame_refl P m : frame P m m.
Proof. by intros a _. Qed.

(** [walkpgdir] without allocation only reads. *)
Lemma walkpgdir_read s pgdir va :
  walkpgdir pgdir va false s =
  Ok (match tab_of (k_mem s) pgdir (PDX va) with Some t => t + 4 * PTX va | None => 0 end) s.
Proof.
  unfold walkpgdir, tab_of. krun. by destruct (has_bits _ _).
Qed.

Lemma mem_ok_words m a v p : mem_ok m -> mem_ok (store32 (memset m p 0 PGSIZE) a v).
Proof. intros H. apply mem_ok_store32, mem_ok_memset; [by unfold PGSIZE|done]. Qed.

Lemma ksettled_fields s :
  k_mem (ksettled s) = k_mem s /\ k_freelist (ksettled s) = k_freelist s.
Proof. by destruct (ksettled_cases s) as [-> | ->]. Qed.

Lemma pop_free_mem s : k_mem (pop_free (ksettled s)) = k_mem s.
Proof. unfold pop_free. by destruct (c_true _), (ksettled_cases s) as [-> | ->]. Qed.

(** Writing after an allocation. *)
Lemma set_mem_pop f s :
  set_mem f (pop_free (ksettled s))
  = Ok tt ((pop_free (ksettled s)) <| k_mem := f (k_mem s) |>).
Proof. rewrite <- (pop_free_mem s). reflexivity. Qed.

Lemma walkpgdir_alloc d s pgdir va l :
  kmem_ready d s -> vm_ok s pgdir l ->
  (exists s', walkpgdir pgdir va true s = Ok 0 s' /\ l = [] /\
     tab_of (k_mem s) pgdir (PDX va) = None /\ vm_rel s s' /\ k_mem s' = k_mem s /\
     k_freelist s' = k_freelist s) \/
  (exists s' l' t, walkpgdir pgdir va true s = Ok (t + 4 * PTX va) s' /\
     walked s s' pgdir va l l' t).
Proof.
  intros Hr (Hinv & Hwf & Hsep). unfold walkpgdir. krun.
  destruct (has_bits (load32 (k_mem s) (pgdir + 4 * PDX va)) PTE_P) eqn:Ep.
  { right. exists s, l, (p2v (PTE_ADDR (load32 (k_mem s) (pgdir + 4 * PDX va)))).
    split; [done|]. split; [apply vm_rel_refl|done| |exists []; split; [done|]|done|apply frame_refl].
    - unfold tab_of. by rewrite Ep.
    - intros p. rewrite elem_of_nil. tauto. }
  assert (Hnone : tab_of (k_mem s) pgdir (PDX va) = None) by (unfold tab_of; by rewrite Ep).
  cbn [negb]. rewrite (kalloc_run d s Hr). cbn [res_bind].
  pose proof (kmem_inv_pop (ksettled s) l ltac:(by apply kmem_inv_ksettled)) as Hpop.
  destruct (ksettled_fields s) as [Ekm Ef]. pose proof (pop_free_mem s) as Emem.
  rewrite Ef in Hpop. destruct l as [|p l].
  { destruct Hpop as [E0 Hpop]. left. exists (ksettled s). rewrite Hpop, E0.
    split_and!; try done; [rewrite <- Hpop; apply vm_rel_pop|congruence]. }
  destruct Hpop as [-> Hpop]. pose proof Hinv as (_ & Hnd & Hpok & Hmok).
  apply Forall_cons in Hpok as [Hp Hlok]. apply NoDup_cons in Hnd as [Hpl Hnd].
  pose proof (page_ok_pos _ _ Hp) as Hpos. destruct (Z.eqb_spec p 0); [lia|]. right.
  rewrite set_mem_pop. unfold set_mem. krun.
  set (m' := with_table (k_mem s) pgdir va p).
  exists ((pop_free (ksettled s)) <| k_mem := m' |>), l, p. split; [reflexivity|].
  assert (Hnew : ~ pt_page (k_mem s) pgdir p) by (intros H; apply (Hsep p H); by left).
  pose proof (install_pages _ _ _ _ _ Hwf Hp Hnew Hnone) as Hpages.
  assert (Hsep' : forall q, pt_page (k_mem s) pgdir q -> q ∉ l)
    by (intros q Hq Hin; apply (Hsep q Hq); by right).
  split.
  - eapply vm_rel_trans; [apply vm_rel_pop|apply vm_rel_mem].
  - change (k_mem ((pop_free (ksettled s)) <| k_mem := m' |>)) with m'.
    assert (Ee : k_end ((pop_free (ksettled s)) <| k_mem := m' |>) = k_end s)
      by (simpl; by rewrite k_end_pop, k_end_ksettled).
    unfold vm_ok. rewrite Ee. split_and!.
    + destruct Hpop as (Hc & _). rewrite Emem in Hc. split_and!;
        [by eapply install_chain|done|by rewrite Ee|by apply mem_ok_words].
    + by apply install_wf.
    + intros q Hq. apply Hpages in Hq as [Hq| ->]; auto.
  - change (tab_of m' pgdir (PDX va) = Some p). unfold m'.
    by rewrite (install_tab _ _ (k_end s)), decide_True by (done || apply PDX_range).
  - exists [p]. split; [done|]. intros q. rewrite list_elem_of_singleton. apply Hpages.
  - apply (new_table (k_mem s) pgdir (k_end s) va p Hwf Hp Hnew Hnone).
  - by apply (install_frame _ _ (k_end s)).
Qed.

(** ** mappages *)

(** [k] pages from [a] have been mapped to the physical pages from [pa]. *)
Record mapped (s s' : kernel) (pgdir a pa perm : Z) (k : nat) (l l' : list Z) : Prop := {
  mp_rel : vm_rel s s';
  mp_ok : vm_ok s' pgdir l';
  mp_free : exists l0, l = l0 ++ l' /\
    forall p, pt_page (k_mem s') pgdir p <-> pt_page (k_mem s) pgdir p \/ p ∈ l0;
  mp_map : forall va, is_u32 va -> pte_of (k_mem s') pgdir va =
    if decide (a <= va < a + Z.of_nat k * PGSIZE)
    then pa + (PGROUNDDOWN va - a) + Z.lor perm PTE_P
    else pte_of (k_mem s) pgdir va;
  mp_frame : frame (pt_page (k_mem s') pgdir) (k_mem s) (k_mem s');
}.
Arguments mp_rel {_ _ _ _ _ _ _ _ _} _.
Arguments mp_ok {_ _ _ _ _ _ _ _ _} _.
Arguments mp_free {_ _ _ _ _ _ _ _ _} _.
Arguments mp_map {_ _ _ _ _ _ _ _ _} _.
Arguments mp_frame {_ _ _ _ _ _ _ _ _} _.

Lemma frame_trans (P Q : Z -> Prop) m1 m2 m3 :
  (forall p, P p -> Q p) -> frame P m1 m2 -> frame Q m2 m3 -> frame Q m1 m3.
Proof. intros HPQ H1 H2 a Ha. rewrite H2 by done. apply H1. auto. Qed.

(** Changing an entry keeps the page table and the free list well formed. *)
Lemma vm_ok_store s pgdir l va t v :
  vm_ok s pgdir l -> is_u32 v -> tab_of (k_mem s) pgdir (PDX va) = Some t ->
  let m' := store32 (k_mem s) (t + 4 * PTX va) v in
  vm_ok (s <| k_mem := m' |>) pgdir l /\
  (forall p, pt_page m' pgdir p <-> pt_page (k_mem s) pgdir p) /\
  frame (pt_page m' pgdir) (k_mem s) m'.
Proof.
  intros (Hinv & Hwf & Hsep) Hv Ht m'.
  destruct (pte_store _ _ _ va t v Hwf Hv Ht) as [Htab _]. fold m' in Htab.
  assert (Hpages : forall p, pt_page m' pgdir p <-> pt_page (k_mem s) pgdir p)
    by (intros p; by apply pt_page_ext).
  assert (Htp : pt_page (k_mem s) pgdir t) by (right; eauto using PDX_range).
  pose proof (in_page t _ (PTX_range va)) as Hin.
  assert (Hfr : frame (pt_page m' pgdir) (k_mem s) m').
  { intros a Ha. apply load8_store32_out.
    assert (~ (t <= a < t + PGSIZE)) by (by apply Ha, Hpages). lia. }
  split_and!; [|done|done]. split_and!; [|by eapply pt_wf_ext|].
  - destruct Hinv as (Hc & Hnd & Hl & Hm). split_and!; [|done|done|by apply mem_ok_store32].
    eapply chain_ext; [|exact Hc]. simpl. intros q Hq.
    apply load32_store32_ne. assert (t <> q) by (intros ->; by apply (Hsep q)).
    assert (Hq0 : page_ok (k_end s) q) by (by eapply Forall_forall in Hl).
    assert (Hq1 : page_ok (k_end s) t) by (by eapply pt_page_end).
    destruct (pages_disjoint q t) as [?|?]; [apply Hq0|apply Hq1|done|..];
      unfold PGSIZE in *; lia.
  - simpl. intros p Hp. apply Hpages in Hp. by apply Hsep.
Qed.

Lemma perm_range perm : 0 <= perm < PGSIZE -> 0 <= Z.lor perm PTE_P < PGSIZE.
Proof.
  intros H. split; [apply Z.lor_nonneg; unfold PTE_P; lia|].
  destruct (decide (Z.lor perm PTE_P = 0)) as [->|]; [by unfold PGSIZE|].
  unfold PGSIZE in *. change 4096 with (2 ^ 12) in *.
  apply Z.log2_lt_pow2; [assert (0 <= Z.lor perm PTE_P) by (apply Z.lor_nonneg; unfold PTE_P; lia); lia|].
  rewrite Z.log2_lor by (unfold PTE_P; lia). apply Z.max_lub_lt; [|unfold PTE_P; simpl; lia].
  destruct (decide (perm = 0)) as [->|]; [simpl; lia|]. apply Z.log2_lt_pow2; lia.
Qed.

Lemma mapped_one s s1 pgdir a pa perm l l' t :
  walked s s1 pgdir a l l' t -> a mod PGSIZE = 0 -> is_u32 a ->
  pa mod PGSIZE = 0 -> 0 <= pa <= 2 ^ 32 - PGSIZE -> 0 <= perm < PGSIZE ->
  mapped s (s1 <| k_mem := store32 (k_mem s1) (t + 4 * PTX a) (Z.lor (Z.lor pa perm) PTE_P) |>)
    pgdir a pa perm 1 l l'.
Proof.
  intros [Hrel Hok Htab (l0 & -> & Hpg) Hmap Hfr] Hal Ha Hpal Hpa Hperm.
  pose proof (perm_range perm Hperm) as Hf.
  assert (Ev : Z.lor (Z.lor pa perm) PTE_P = pa + Z.lor perm PTE_P)
    by (rewrite <- Z.lor_assoc; by apply lor_low).
  assert (Hv : is_u32 (pa + Z.lor perm PTE_P)) by (unfold is_u32, PGSIZE in *; lia).
  rewrite Ev. destruct (vm_ok_store s1 pgdir l' a t _ Hok Hv Htab) as (Hok' & Hpages & Hfr').
  destruct (pte_store _ _ _ a t _ (proj1 (proj2 Hok)) Hv Htab) as [_ Hpte].
  split; simpl.
  - eapply vm_rel_trans; [done|apply vm_rel_mem].
  - done.
  - exists l0. split; [done|]. intros p. rewrite Hpages. apply Hpg.
  - intros va Hva. rewrite Hpte, Hmap.
    assert (Hiff : PDX va = PDX a /\ PTX va = PTX a <-> a <= va < a + 1 * PGSIZE).
    { pose proof (va_split va Hva) as Sv. pose proof (va_split a Ha) as Sa.
      pose proof (Z.mod_pos_bound va PGSIZE ltac:(by unfold PGSIZE)). split.
      - intros [E1 E2]. rewrite E1, E2 in Sv. lia.
      - intros Hin. replace a with (PGROUNDDOWN va); [by destruct (page_indices va)|].
        rewrite PGROUNDDOWN_spec. unfold PGSIZE in *. Z.to_euclidean_division_equations. lia. }
    change (Z.of_nat 1) with 1.
    destruct (decide (PDX va = PDX a /\ PTX va = PTX a)) as [E|E];
      destruct (decide (a <= va < a + 1 * PGSIZE)) as [E'|E']; try tauto.
    destruct E as [E1 E2]. rewrite (same_page va a Hva Ha E1 E2), PGROUNDDOWN_spec, Hal. lia.
  - eapply frame_trans; [|exact Hfr|exact Hfr']. intros p Hp. by apply Hpages.
Qed.

Lemma mapped_cons s s1 s2 pgdir a pa perm k l l1 l2 :
  mapped s s1 pgdir a pa perm 1 l l1 ->
  mapped s1 s2 pgdir (a + PGSIZE) (pa + PGSIZE) perm k l1 l2 ->
  mapped s s2 pgdir a pa perm (S k) l l2.
Proof.
  intros [R1 O1 (f1 & -> & P1) M1 F1] [R2 O2 (f2 & -> & P2) M2 F2]. split.
  - by eapply vm_rel_trans.
  - done.
  - exists (f1 ++ f2). split; [by rewrite app_assoc|]. intros p.
    rewrite P2, P1, elem_of_app. tauto.
  - intros va Hva. rewrite M2, M1 by done.
    replace (a + Z.of_nat (S k) * PGSIZE) with (a + PGSIZE + Z.of_nat k * PGSIZE) by lia.
    change (Z.of_nat 1 * PGSIZE) with PGSIZE.
    assert (0 < PGSIZE) by (by unfold PGSIZE).
    repeat case_decide; done || lia.
  - eapply frame_trans; [|exact F1|exact F2]. intros p Hp. apply P2. by left.
Qed.

Lemma mapped_none s s' pgdir a pa perm l :
  vm_ok s pgdir l -> vm_rel s s' -> k_mem s' = k_mem s -> k_freelist s' = k_freelist s ->
  mapped s s' pgdir a pa perm 0 l l.
Proof.
  intros (Hinv & Hwf & Hsep) Hrel Em Ef. pose proof (vm_rel_end s s' Hrel) as Ee. split.
  - done.
  - split_and!; unfold kmem_inv; by rewrite ?Em, ?Ef, ?Ee.
  - exists []. split; [done|]. intros p. rewrite Em, elem_of_nil. tauto.
  - intros va _. rewrite decide_False by lia. by rewrite Em.
  - rewrite Em. apply frame_refl.
Qed.

Lemma tab_pos s pgdir l va t :
  vm_ok s pgdir l -> tab_of (k_mem s) pgdir (PDX va) = Some t -> t + 4 * PTX va <> 0.
Proof.
  intros (_ & (_ & H2 & _) & _) Ht.
  destruct (H2 _ _ (PDX_range va) Ht) as [Hok _]. apply page_ok_pos in Hok.
  pose proof (PTX_range va). lia.
Qed.

Lemma mappages_loop_run d n fuel s pgdir a pa perm l :
  kmem_ready d s -> vm_ok s pgdir l -> (0 < n <= fuel)%nat ->
  a mod PGSIZE = 0 -> 0 <= a -> a + Z.of_nat n * PGSIZE <= 2 ^ 32 ->
  pa mod PGSIZE = 0 -> 0 <= pa -> pa + Z.of_nat n * PGSIZE <= 2 ^ 32 ->
  0 <= perm < PGSIZE ->
  (forall va, a <= va < a + Z.of_nat n * PGSIZE ->
     has_bits (pte_of (k_mem s) pgdir va) PTE_P = false) ->
  exists s' k l', mapped s s' pgdir a pa perm k l l' /\
    ((mappages_loop fuel pgdir a (a + (Z.of_nat n - 1) * PGSIZE) pa perm s = Ok 0 s' /\ k = n) \/
     (mappages_loop fuel pgdir a (a + (Z.of_nat n - 1) * PGSIZE) pa perm s = Ok (-1) s' /\
      (k < n)%nat /\ l' = [])).
Proof.
  assert (HP : PGSIZE = 4096) by done.
  revert n s a pa l; induction fuel as [|fuel IH];
    intros n s a pa l Hr Hok Hn Hal Ha0 Ha Hpal Hpa0 Hpa Hperm Hfree; [lia|].
  cbn [mappages_loop].
  destruct (walkpgdir_alloc d s pgdir a l Hr Hok)
    as [(s1 & E & -> & _ & Hrel & Em & Ef)|(s1 & l1 & t & E & Hw)].
  { exists s1, 0%nat, []. split; [by apply mapped_none|]. right.
    rewrite (bind_ok _ _ _ _ _ E). split_and!; [done|lia|done]. }
  rewrite (bind_ok _ _ _ _ _ E).
  destruct (Z.eqb_spec (t + 4 * PTX a) 0) as [E0|_];
    [by destruct (tab_pos _ _ _ _ _ (wk_ok Hw) (wk_tab Hw))|].
  rewrite (bind_ok (gets _) _ s1 (pte_of (k_mem s1) pgdir a) s1)
    by (unfold pte_of, gets; by rewrite (wk_tab Hw)).
  rewrite (wk_map Hw), Hfree by lia.
  assert (Hu : is_u32 a) by (unfold is_u32; lia).
  pose proof (mapped_one s s1 pgdir a pa perm l l1 t Hw Hal Hu Hpal ltac:(lia) Hperm) as Hone.
  set (s2 := s1 <| k_mem := _ |>) in *.
  rewrite (bind_ok (set_mem (fun m => store32 m (t + 4 * PTX a) (Z.lor (Z.lor pa perm) PTE_P)))
    _ s1 tt s2 eq_refl).
  destruct n as [|[|n]]; [lia| |].
  - exists s2, 1%nat, l1. split; [done|]. left.
    replace (a + (Z.of_nat 1 - 1) * PGSIZE) with a by lia. by rewrite Z.eqb_refl.
  - destruct (Z.eqb_spec a (a + (Z.of_nat (S (S n)) - 1) * PGSIZE)); [lia|].
    rewrite !u32_id by (unfold is_u32; lia).
    destruct (IH (S n) s2 (a + PGSIZE) (pa + PGSIZE) l1) as (s' & k & l' & Hm & Hres).
    + eapply vm_rel_ready; [apply (mp_rel Hone)|done].
    + apply (mp_ok Hone).
    + lia.
    + rewrite <- (Z.mul_1_l PGSIZE) at 1. by apply mod_page_add.
    + lia.
    + lia.
    + rewrite <- (Z.mul_1_l PGSIZE) at 1. by apply mod_page_add.
    + lia.
    + lia.
    + done.
    + intros va Hva. rewrite (mp_map Hone) by (unfold is_u32; lia).
      rewrite decide_False by lia. apply Hfree. lia.
    + exists s', (S k), l'. split; [by eapply mapped_cons|].
      replace (a + (Z.of_nat (S (S n)) - 1) * PGSIZE)
        with (a + PGSIZE + (Z.of_nat (S n) - 1) * PGSIZE) by lia.
      destruct Hres as [[-> ->]|(-> & Hk & ->)]; [by left|right]. split_and!; [done|lia|done].
Qed.

(** [mappages] of a range of whole pages. *)
Lemma mappages_run d n s pgdir va pa perm l :
  kmem_ready d s -> vm_ok s pgdir l -> (0 < n)%nat ->
  va mod PGSIZE = 0 -> 0 <= va -> va + Z.of_nat n * PGSIZE <= 2 ^ 32 ->
  pa mod PGSIZE = 0 -> 0 <= pa -> pa + Z.of_nat n * PGSIZE <= 2 ^ 32 ->
  0 <= perm < PGSIZE ->
  (forall a, va <= a < va + Z.of_nat n * PGSIZE ->
     has_bits (pte_of (k_mem s) pgdir a) PTE_P = false) ->
  exists s' k l', mapped s s' pgdir va pa perm k l l' /\
    ((mappages pgdir va (Z.of_nat n * PGSIZE) pa perm s = Ok 0 s' /\ k = n) \/
     (mappages pgdir va (Z.of_nat n * PGSIZE) pa perm s = Ok (-1) s' /\ (k < n)%nat /\ l' = [])).
Proof.
  intros Hr Hok Hn Hal Ha0 Ha Hpal Hpa0 Hpa Hperm Hfree. unfold mappages.
  assert (E1 : PGROUNDDOWN va = va) by (rewrite PGROUNDDOWN_spec; lia).
  assert (E2 : PGROUNDDOWN (u32 (va + Z.of_nat n * PGSIZE - 1))
               = va + (Z.of_nat n - 1) * PGSIZE).
  { rewrite u32_id by (unfold is_u32, PGSIZE in *; lia). rewrite PGROUNDDOWN_spec.
    unfold PGSIZE in *. Z.to_euclidean_division_equations. lia. }
  rewrite E1, E2. apply (mappages_loop_run d); try done.
  replace (va + (Z.of_nat n - 1) * PGSIZE - va) with ((Z.of_nat n - 1) * PGSIZE) by lia.
  rewrite u32_id by (unfold is_u32, PGSIZE in *; lia).
  rewrite Z.div_mul by (by unfold PGSIZE). lia.
Qed.

(** ** setupkvm *)

Definition km_size (k : kmap_entry) : Z := u32 (km_phys_end k - km_phys_start k).

Definition km_in (k : kmap_entry) (va : Z) : Prop := km_virt k <= va < km_virt k + km_size k.

Definition km_ok (k : kmap_entry) : Prop :=
  km_virt k mod PGSIZE = 0 /\ km_size k mod PGSIZE = 0 /\ km_phys_start k mod PGSIZE = 0 /\
  0 < km_size k /\ 0 <= km_virt k /\ km_virt k + km_size k <= 2 ^ 32 /\
  0 <= km_phys_start k /\ km_phys_start k + km_size k <= 2 ^ 32 /\ 0 <= km_perm k < PGSIZE.

(** The map given by a list of kernel mappings. *)
Fixpoint kmap_pte (es : list kmap_entry) (va old : Z) : Z :=
  match es with
  | [] => old
  | k :: es' =>
      if decide (km_virt k <= va < km_virt k + km_size k)
      then km_phys_start k + (PGROUNDDOWN va - km_virt k) + Z.lor (km_perm k) PTE_P
      else kmap_pte es' va old
  end.

Fixpoint km_disjoint (es : list kmap_entry) : Prop :=
  match es with
  | [] => True
  | k :: es' => (forall k' va, k' ∈ es' -> km_in k va -> km_in k' va -> False) /\ km_disjoint es'
  end.

(** What a sequence of operations on a new page table may do: it takes the
    pages [l0] of the free list, and only writes to them. *)
Record built (s s' : kernel) (pgdir : Z) (l0 l' : list Z) : Prop := {
  bu_rel : vm_rel s s';
  bu_ok : vm_ok s' pgdir l';
  bu_pages : forall p, pt_page (k_mem s') pgdir p <-> pt_page (k_mem s) pgdir p \/ p ∈ l0;
  bu_frame : frame (pt_page (k_mem s') pgdir) (k_mem s) (k_mem s');
}.

Lemma built_mapped s s' pgdir a pa perm k l l' :
  mapped s s' pgdir a pa perm k l l' -> exists l0, l = l0 ++ l' /\ built s s' pgdir l0 l'.
Proof. intros [R O (l0 & -> & P) _ F]. by exists l0. Qed.

Lemma built_refl s pgdir l : vm_ok s pgdir l -> built s s pgdir [] l.
Proof.
  intros H. split; [apply vm_rel_refl|done| |apply frame_refl].
  intros p. rewrite elem_of_nil. tauto.
Qed.

Lemma built_trans s1 s2 s3 pgdir l0 l1 l' l'' :
  built s1 s2 pgdir l0 l' -> built s2 s3 pgdir l1 l'' -> built s1 s3 pgdir (l0 ++ l1) l''.
Proof.
  intros [R1 O1 P1 F1] [R2 O2 P2 F2]. split.
  - by eapply vm_rel_trans.
  - done.
  - intros p. rewrite P2, P1, elem_of_app. tauto.
  - eapply frame_trans; [|exact F1|exact F2]. intros p Hp. apply P2. by left.
Qed.

Lemma map_kernel_run d es s pgdir l :
  kmem_ready d s -> vm_ok s pgdir l -> Forall km_ok es -> km_disjoint es ->
  (forall k va, k ∈ es -> km_in k va -> has_bits (pte_of (k_mem s) pgdir va) PTE_P = false) ->
  exists s' l0 l', l = l0 ++ l' /\ built s s' pgdir l0 l' /\
    ((map_kernel pgdir es s = Ok pgdir s' /\
      forall va, is_u32 va ->
        pte_of (k_mem s') pgdir va = kmap_pte es va (pte_of (k_mem s) pgdir va)) \/
     (map_kernel pgdir es s = Ok 0 s' /\ l' = [])).
Proof.
  revert s l; induction es as [|k es IH]; intros s l Hr Hok Hes Hdis Hfree.
  { exists s, [], l. split_and!; [done|by apply built_refl|]. left. done. }
  apply Forall_cons in Hes as [(K1 & K2 & K3 & K4 & K5 & K6 & K7 & K8 & K9) Hes].
  destruct Hdis as [Hd Hdis]. cbn [map_kernel].
  assert (Hn : exists n : nat, km_size k = Z.of_nat n * PGSIZE /\ (0 < n)%nat).
  { destruct (page_count 0 (km_size k)) as [n E]; [done|done|lia|]. exists n.
    unfold PGSIZE in *. split; lia. }
  destruct Hn as (n & En & Hn).
  destruct (mappages_run d n s pgdir (km_virt k) (km_phys_start k) (km_perm k) l)
    as (s1 & c & l1 & Hm & Hres); try done; [lia|lia| |].
  { intros a Ha. apply (Hfree k); [by left|]. unfold km_in. lia. }
  destruct (built_mapped _ _ _ _ _ _ _ _ _ Hm) as (f1 & El & Hb). change (u32 _) with (km_size k).
  rewrite En. destruct Hres as [[E ->]|(E & _ & ->)]; rewrite (bind_ok _ _ _ _ _ E).
  - change (0 <? 0) with false. cbv iota.
    destruct (IH s1 l1) as (s' & f2 & l' & -> & Hb2 & Hres).
    + eapply vm_rel_ready; [apply (mp_rel Hm)|done].
    + apply (mp_ok Hm).
    + done.
    + done.
    + intros k' va Hk' Hin. rewrite (mp_map Hm).
      * rewrite decide_False; [apply (Hfree k'); [by right|done]|].
        intros Hin'. apply (Hd k' va Hk'); [unfold km_in; lia|done].
      * eapply Forall_forall in Hes; [|exact Hk']. unfold km_ok, km_in, is_u32 in *. lia.
    + exists s', (f1 ++ f2), l'. split_and!; [by rewrite <- app_assoc|by eapply built_trans|].
      destruct Hres as [[-> Hmap]|[-> ->]]; [left|by right]. split; [done|].
      intros va Hva. rewrite Hmap, (mp_map Hm) by done. cbn [kmap_pte]. rewrite En.
      destruct (decide (km_virt k <= va < km_virt k + Z.of_nat n * PGSIZE)) as [Hin|]; [|done].
      revert Hd. clear - Hin En. induction es as [|k' es IH]; intros Hd; [done|].
      cbn [kmap_pte]. rewrite decide_False.
      { apply IH. intros k'' va' Hk''. apply Hd. by right. }
      intros Hin'. apply (Hd k' va); [by left|unfold km_in; lia|done].
  - exists s1, f1, []. split_and!; [done|done|by right].
Qed.

(** The kernel's data starts on a page boundary, as kernel.ld aligns it. *)
Definition layout_ok (kdata : Z) : Prop :=
  kdata mod PGSIZE = 0 /\ KERNLINK < kdata < KERNBASE + PHYSTOP.

Lemma kmap_ok kdata : layout_ok kdata -> Forall km_ok (kmap kdata) /\ km_disjoint (kmap kdata).
Proof.
  intros [Hal Hk]. unfold kmap.
  assert (E1 : v2p kdata = kdata - KERNBASE).
  { unfold v2p. apply u32_id. unfold KERNLINK, KERNBASE, PHYSTOP, EXTMEM, is_u32 in *. lia. }
  assert (E2 : v2p KERNLINK = EXTMEM) by done.
  assert (S1 : km_size (Mkkmap KERNBASE 0 EXTMEM PTE_W) = EXTMEM) by done.
  assert (S2 : km_size (Mkkmap KERNLINK (v2p KERNLINK) (v2p kdata) 0) = kdata - KERNLINK).
  { unfold km_size. cbn [km_phys_end km_phys_start]. rewrite E1, E2.
    rewrite u32_id; unfold KERNLINK, KERNBASE, PHYSTOP, EXTMEM, is_u32 in *; lia. }
  assert (S3 : km_size (Mkkmap kdata (v2p kdata) PHYSTOP PTE_W) = KERNBASE + PHYSTOP - kdata).
  { unfold km_size. cbn [km_phys_end km_phys_start]. rewrite E1.
    rewrite u32_id; unfold KERNLINK, KERNBASE, PHYSTOP, EXTMEM, is_u32 in *; lia. }
  assert (S4 : km_size (Mkkmap DEVSPACE DEVSPACE 0 PTE_W) = 2 ^ 32 - DEVSPACE) by done.
  split.
  - repeat apply Forall_cons_2; try apply Forall_nil_2; unfold km_ok;
      rewrite ?S1, ?S2, ?S3, ?S4; cbn [km_virt km_phys_start km_perm]; rewrite ?E1, ?E2;
      unfold KERNLINK, KERNBASE, PHYSTOP, EXTMEM, DEVSPACE, PTE_W, PGSIZE in *;
      split_and!; try done; try lia; Z.to_euclidean_division_equations; lia.
  - cbn [km_disjoint]. split_and!; try done; intros k' va Hk';
      repeat (apply elem_of_cons in Hk' as [->|Hk']); try (by apply not_elem_of_nil in Hk');
      unfold km_in; rewrite ?S1, ?S2, ?S3, ?S4; cbn [km_virt];
      unfold KERNLINK, KERNBASE, PHYSTOP, EXTMEM, DEVSPACE in *; lia.
Qed.

(** A fresh, zeroed directory. *)
Lemma fresh_dir s p l :
  kmem_inv s (p :: l) ->
  let s1 := (pop_free (ksettled s)) <| k_mem := memset (k_mem s) p 0 PGSIZE |> in
  vm_ok s1 p l /\ vm_rel s s1 /\
  (forall i, 0 <= i < 1024 -> tab_of (k_mem s1) p i = None).
Proof.
  intros Hinv s1. pose proof (kmem_inv_pop (ksettled s) (p :: l)
    ltac:(by apply kmem_inv_ksettled)) as [Ef Hpop].
  destruct Hinv as (_ & Hnd & Hl & Hm).
  apply Forall_cons in Hl as [Hp Hl]. apply NoDup_cons in Hnd as [Hpl _].
  assert (Ee : k_end s1 = k_end s) by (simpl; by rewrite k_end_pop, k_end_ksettled).
  assert (Hnone : forall i, 0 <= i < 1024 -> tab_of (k_mem s1) p i = None).
  { intros i Hi. unfold tab_of, load32. pose proof (in_page p i Hi). simpl.
    rewrite !load8_memset by (by unfold PGSIZE). by rewrite !decide_True by lia. }
  split_and!; [|eapply vm_rel_trans; [apply vm_rel_pop|apply vm_rel_mem]|done].
  split_and!.
  - destruct Hpop as (Hc & Hnd' & Hl' & _). rewrite pop_free_mem in Hc.
    split_and!; [|done|done|apply mem_ok_memset; [by unfold PGSIZE|done]].
    eapply chain_ext; [|exact Hc]. simpl. intros q Hq. apply load32_ext. intros a Ha.
    rewrite load8_memset by (by unfold PGSIZE). rewrite decide_False; [done|].
    assert (Hq0 : page_ok (k_end s) q) by (by eapply Forall_forall in Hl).
    destruct (pages_disjoint q p) as [?|?]; [apply Hq0|apply Hp|by intros ->|..];
      unfold PGSIZE in *; lia.
  - rewrite Ee. split_and!; [done| |].
    + intros i t Hi. by rewrite Hnone.
    + intros i j t Hi Hj. by rewrite Hnone.
  - intros q [->|(i & Hi & E)]; [done|]. by rewrite Hnone in E.
Qed.

(** The outcome of [setupkvm] on free list [l]: a new page table in the pages
    [l0], or memory has run out. *)
Lemma setupkvm_run d s l :
  kmem_ready d s -> kmem_inv s l -> layout_ok (k_data s) ->
  exists s' l0 l', l = l0 ++ l' /\ vm_rel s s' /\
    frame (fun p => p ∈ l0) (k_mem s) (k_mem s') /\
    ((setupkvm s = Ok 0 s' /\ l' = [] /\ kmem_inv s' []) \/
     (exists pgdir, setupkvm s = Ok pgdir s' /\ pgdir <> 0 /\ vm_ok s' pgdir l' /\
        (forall p, pt_page (k_mem s') pgdir p <-> p ∈ l0) /\
        (forall va, is_u32 va ->
           pte_of (k_mem s') pgdir va = kmap_pte (kmap (k_data s)) va 0))).
Proof.
  intros Hr Hinv Hlay. unfold setupkvm. rewrite (bind_ok _ _ _ _ _ (kalloc_run d s Hr)).
  pose proof (kmem_inv_pop (ksettled s) l ltac:(by apply kmem_inv_ksettled)) as Hpop.
  destruct (ksettled_fields s) as [Ekm Ef]. rewrite Ef in Hpop.
  destruct l as [|p l].
  { destruct Hpop as [E0 Ep]. rewrite E0, Ep. exists (ksettled s), [], [].
    split_and!; [done|rewrite <- Ep; apply vm_rel_pop|rewrite Ekm; apply frame_refl|].
    left. split_and!; [done|done|by apply kmem_inv_ksettled]. }
  destruct Hpop as [-> _]. destruct (fresh_dir s p l Hinv) as (Hok & Hrel & Hnone).
  set (s1 := (pop_free (ksettled s)) <| k_mem := memset (k_mem s) p 0 PGSIZE |>) in *.
  pose proof Hinv as (_ & _ & Hl & _). apply Forall_cons in Hl as [Hp _].
  pose proof (page_ok_pos _ _ Hp). destruct (Z.eqb_spec p 0); [lia|].
  rewrite (bind_ok _ _ _ _ _ (set_mem_pop _ s)). fold s1.
  change (DEVSPACE <? p2v PHYSTOP) with false. cbv iota.
  assert (Ed : k_data s1 = k_data s).
  { simpl. unfold pop_free. by destruct (c_true _), (ksettled_cases s) as [-> | ->]. }
  rewrite (bind_ok (gets k_data) _ s1 (k_data s) s1) by (unfold gets; by rewrite Ed).
  destruct (kmap_ok _ Hlay) as [Hk1 Hk2].
  assert (Hpte : forall va, pte_of (k_mem s1) p va = 0)
    by (intros va; unfold pte_of; by rewrite Hnone by apply PDX_range).
  destruct (map_kernel_run d (kmap (k_data s)) s1 p l) as (s' & l0 & l' & -> & [R O P F] & Hres);
    try done.
  { by eapply vm_rel_ready. } { intros k va _ _. by rewrite Hpte. }
  exists s', (p :: l0), l'. split_and!; [done|by eapply vm_rel_trans| |].
  - assert (Hpages : forall q, pt_page (k_mem s') p q -> q ∈ p :: l0).
    { intros q Hq. apply P in Hq as [[->|(i & Hi & E)]|Hq]; [by left| |by right].
      by rewrite Hnone in E. }
    intros a Ha. rewrite F by (intros q Hq; by apply Ha, Hpages). simpl.
    rewrite load8_memset by (by unfold PGSIZE). rewrite decide_False; [done|]. apply Ha. by left.
  - destruct Hres as [[E Hmap]|[E ->]]; [right|left].
    + exists p. split_and!; [done|lia|done| |].
      * intros q. rewrite P, elem_of_cons. split; intros [H1|H1]; auto; left.
        -- destruct H1 as [->|(i & Hi & E')]; [done|]. by rewrite Hnone in E'.
        -- by left.
      * intros va Hva. by rewrite Hmap, Hpte.
    + split_and!; [done|done|apply O].
Qed.

(** ** Main result *)

(** [mappages] over unmapped whole pages either maps exactly those pages,
    page by page, to the physical range with the given permissions, or runs
    out of memory for page tables and returns -1 having mapped a prefix; every
    other entry of the page table keeps its value, and no memory outside the
    page table is written. *)
Theorem mappages_correct d n s pgdir va pa perm l :
  kmem_ready d s -> vm_ok s pgdir l -> (0 < n)%nat ->
  va mod PGSIZE = 0 -> 0 <= va -> va + Z.of_nat n * PGSIZE <= 2 ^ 32 ->
  pa mod PGSIZE = 0 -> 0 <= pa -> pa + Z.of_nat n * PGSIZE <= 2 ^ 32 ->
  0 <= perm < PGSIZE ->
  (forall a, va <= a < va + Z.of_nat n * PGSIZE ->
     has_bits (pte_of (k_mem s) pgdir a) PTE_P = false) ->
  exists s' r k l', mappages pgdir va (Z.of_nat n * PGSIZE) pa perm s = Ok r s' /\
    (r = 0 /\ k = n \/ r = -1 /\ (k < n)%nat /\ l' = []) /\
    vm_ok s' pgdir l' /\
    (forall a, is_u32 a -> pte_of (k_mem s') pgdir a =
       if decide (va <= a < va + Z.of_nat k * PGSIZE)
       then pa + (PGROUNDDOWN a - va) + Z.lor perm PTE_P
       else pte_of (k_mem s) pgdir a) /\
    frame (pt_page (k_mem s') pgdir) (k_mem s) (k_mem s').
Proof.
  intros. destruct (mappages_run d n s pgdir va pa perm l) as (s' & k & l' & Hm & Hres); try done.
  destruct Hres as [[E ->]|(E & Hk & ->)]; do 4 eexists; (split; [exact E|]);
    (split; [eauto|]); split_and!; apply Hm.
Qed.

(** A new directory in the first of two free pages. *)
Definition ex_new_dir : kernel :=
  (pop_free (ksettled two_pages)) <| k_mem := memset (k_mem two_pages) 2150633472 0 PGSIZE |>.

Lemma mappages_correct_witness :
  exists s' r k l', mappages 2150633472 0 (Z.of_nat 1 * PGSIZE) 8192 PTE_U ex_new_dir = Ok r s' /\
    (r = 0 /\ k = 1%nat \/ r = -1 /\ (k < 1)%nat /\ l' = []) /\
    vm_ok s' 2150633472 l' /\
    (forall a, is_u32 a -> pte_of (k_mem s') 2150633472 a =
       if decide (0 <= a < 0 + Z.of_nat k * PGSIZE)
       then 8192 + (PGROUNDDOWN a - 0) + Z.lor PTE_U PTE_P
       else pte_of (k_mem ex_new_dir) 2150633472 a) /\
    frame (pt_page (k_mem s') 2150633472) (k_mem ex_new_dir) (k_mem s').
Proof.
  destruct two_pages_inv as [Hinv Hr].
  destruct (fresh_dir two_pages 2150633472 [2150629376] Hinv) as (Hok & Hrel & Hnone).
  apply (mappages_correct 0 1 ex_new_dir 2150633472 0 8192 PTE_U [2150629376]).
  - exact (vm_rel_ready 0 _ _ Hrel Hr).
  - exact Hok.
  - lia.
  - reflexivity.
  - lia.
  - unfold PGSIZE. lia.
  - reflexivity.
  - lia.
  - unfold PGSIZE. lia.
  - unfold PTE_U, PGSIZE. lia.
  - intros a _. unfold pte_of. fold ex_new_dir in Hnone.
    rewrite Hnone by apply PDX_range. reflexivity.
Defined.
