(* ===== verification/VmCopy.v ===== *)
(** [copyuvm] of vm.c: the address space of a forked child. *)
From S2P Require Import Prelude Memory Kernel CString Spinlock Sched Kalloc Console Vm VmSpec.

(** The page a present entry maps, through the kernel's address. *)
Definition upage (v : Z) : Z := p2v (PTE_ADDR v).

Definition page_bytes (m : memory) (p : Z) : list Z := load_bytes m p (Z.to_nat PGSIZE).

Global Arguments page_bytes : simpl never.

(** The address space [pgdir] holds [n] user pages from address 0, none of
    them, nor the page table, on the free list [l]. *)
Definition user_space (s : kernel) (pgdir : Z) (n : nat) (l : list Z) : Prop :=
  pt_wf (k_end s) (k_mem s) pgdir /\ (forall p, pt_page (k_mem s) pgdir p -> p ∉ l) /\
  forall i, 0 <= i < Z.of_nat n ->
    let v := pte_of (k_mem s) pgdir (i * PGSIZE) in
    is_u32 v /\ has_bits v PTE_P = true /\ page_ok (k_end s) (upage v) /\ upage v ∉ l.

(** The first [n] pages of [pgdir] (as they were in memory [m0]) have been
    copied to the fresh pages [us], mapped in [d] with the same flags. *)
Record copied (m0 : memory) (pgdir : Z) (s : kernel) (d kdata : Z) (us l0 l' : list Z) : Prop := {
  cp_ok : vm_ok s d l';
  cp_pages : forall p, pt_page (k_mem s) d p \/ p ∈ us <-> p ∈ l0;
  cp_nodup : NoDup us /\ forall q, q ∈ us -> ~ pt_page (k_mem s) d q;
  cp_map : forall i q, us !! i = Some q -> page_ok (k_end s) q /\
    pte_of (k_mem s) d (Z.of_nat i * PGSIZE)
      = v2p q + PTE_FLAGS (pte_of m0 pgdir (Z.of_nat i * PGSIZE)) /\
    page_bytes (k_mem s) q
      = page_bytes m0 (upage (pte_of m0 pgdir (Z.of_nat i * PGSIZE)));
  cp_rest : forall va, is_u32 va -> Z.of_nat (length us) * PGSIZE <= va ->
    pte_of (k_mem s) d va = kmap_pte (kmap kdata) va 0;
  cp_frame : frame (fun p => p ∈ l0) m0 (k_mem s);
}.

Lemma page_bytes_ext m m' p :
  (forall a, p <= a < p + PGSIZE -> load8 m' a = load8 m a) -> page_bytes m' p = page_bytes m p.
Proof. intros H. apply load_bytes_ext. intros b Hb. apply H. unfold PGSIZE in *. lia. Qed.

(** A page outside [P] keeps its bytes. *)
Lemma frame_page (P : Z -> Prop) m m' kend p :
  frame P m m' -> page_ok kend p -> (forall q, P q -> page_ok kend q) -> ~ P p ->
  forall a, p <= a < p + PGSIZE -> load8 m' a = load8 m a.
Proof.
  intros Hf Hp HP Hn a Ha. apply Hf. intros q Hq Hin.
  destruct (pages_disjoint p q) as [?|?]; [apply Hp|by apply HP| |lia|lia].
  by intros ->.
Qed.

Lemma kmap_pte_user kdata va :
  layout_ok kdata -> 0 <= va < KERNBASE -> kmap_pte (kmap kdata) va 0 = 0.
Proof.
  intros [_ Hk] Hva. unfold kmap. cbn [kmap_pte km_virt].
  unfold KERNLINK, KERNBASE, EXTMEM, DEVSPACE in *.
  rewrite !decide_False by lia. done.
Qed.

Lemma flags_present v : has_bits v PTE_P = true -> Z.lor (PTE_FLAGS v) PTE_P = PTE_FLAGS v.
Proof.
  intros H. unfold has_bits, PTE_P in *. apply negb_true_iff, Z.eqb_neq in H.
  change 1 with (Z.ones 1) in H. rewrite Z.land_ones in H by lia. change (2 ^ 1) with 2 in H.
  apply Z.bits_inj'. intros i Hi. rewrite Z.lor_spec. unfold PTE_P.
  destruct (decide (i = 0)) as [->|].
  - unfold PTE_FLAGS. rewrite Z.land_spec, Z.bit0_odd. change (Z.testbit 4095 0) with true.
    change (Z.testbit 1 0) with true. rewrite orb_true_r, andb_true_r.
    rewrite Zmod_odd in H. by destruct (Z.odd v).
  - rewrite (Z.bits_above_log2 1 i); [apply orb_false_r|lia|simpl; lia].
Qed.

(** Taking page [q] from the free list and writing to it alone. *)
Lemma vm_ok_take s d q l m' :
  vm_ok s d (q :: l) -> same_outside q (q + PGSIZE) (k_mem s) m' -> mem_ok m' ->
  let s1 := (pop_free (ksettled s)) <| k_mem := m' |> in
  vm_ok s1 d l /\ vm_rel s s1 /\
  (forall p, pt_page m' d p <-> pt_page (k_mem s) d p) /\
  (forall va, pte_of m' d va = pte_of (k_mem s) d va).
Proof.
  intros (Hinv & Hwf & Hsep) Hout Hm' s1.
  pose proof (kmem_inv_pop (ksettled s) (q :: l) ltac:(by apply kmem_inv_ksettled)) as [_ Hpop].
  pose proof Hinv as (_ & Hnd & Hl & _). apply NoDup_cons in Hnd as [Hql _].
  apply Forall_cons in Hl as [Hq Hl].
  assert (Hpt : forall p, pt_page (k_mem s) d p -> forall a, p <= a < p + PGSIZE ->
    load8 m' a = load8 (k_mem s) a).
  { intros p Hp a Ha. apply Hout. pose proof (pt_page_end _ _ _ _ Hwf Hp) as Hpok.
    destruct (pages_disjoint p q) as [?|?]; [apply Hpok|apply Hq| |lia|lia].
    intros ->. apply (Hsep _ Hp). by left. }
  destruct (pt_frame _ m' _ _ Hwf Hpt) as [Htab Hpte].
  assert (Ee : k_end s1 = k_end s) by (simpl; by rewrite k_end_pop, k_end_ksettled).
  assert (Hpages : forall p, pt_page m' d p <-> pt_page (k_mem s) d p)
    by (intros p; by apply pt_page_ext).
  split_and!; [|eapply vm_rel_trans; [apply vm_rel_pop|apply vm_rel_mem]|done|done].
  unfold vm_ok. rewrite Ee. change (k_mem s1) with m'. split_and!.
  - destruct Hpop as (Hc & Hnd' & Hl' & _). rewrite pop_free_mem in Hc.
    split_and!; [|done|done|done].
    eapply chain_ext; [|exact Hc]. simpl. intros p Hp.
    assert (Hp0 : page_ok (k_end s) p) by (by eapply Forall_forall in Hl).
    apply (same_outside_load32 _ _ q); [done|apply Hq|apply Hp0|by intros ->].
  - by eapply pt_wf_ext.
  - intros p Hp Hin. apply Hpages in Hp. apply (Hsep p Hp). by right.
Qed.

Lemma mem_ok_memmove m dst src n : 0 <= n -> mem_ok m -> mem_ok (memmove m dst src n).
Proof. intros Hn Hm a. rewrite load8_memmove by done. case_decide; apply Hm. Qed.

Lemma memmove_page m q p :
  mem_ok m ->
  same_outside q (q + PGSIZE) m (memmove m q p PGSIZE) /\
  page_bytes (memmove m q p PGSIZE) q = page_bytes m p.
Proof.
  intros Hm. assert (HP : 0 <= PGSIZE) by (by unfold PGSIZE). split.
  - intros a Ha. rewrite load8_memmove by done. by rewrite decide_False.
  - unfold page_bytes. apply list_eq. intros i. rewrite !load_bytes_lookup.
    case_decide as Hi; [|done]. rewrite load8_memmove by done.
    rewrite decide_True by lia. do 2 f_equal. lia.
Qed.

Section copy.
Context (dep : Z) (s0 : kernel) (pgdir kdata : Z) (n : nat) (l : list Z).
Context (Hus : user_space s0 pgdir n l) (Hl : Forall (page_ok (k_end s0)) l) (Hnd : NoDup l).
Context (Hlay : layout_ok kdata) (Hn : Z.of_nat n * PGSIZE <= KERNBASE).

(** The parent is not touched: none of its pages is on the free list. *)
Lemma parent_same s d us l0 l' :
  copied (k_mem s0) pgdir s d kdata us l0 l' -> l = l0 ++ l' ->
  (forall i, 0 <= i < 1024 -> tab_of (k_mem s) pgdir i = tab_of (k_mem s0) pgdir i) /\
  (forall va, pte_of (k_mem s) pgdir va = pte_of (k_mem s0) pgdir va) /\
  (forall i, 0 <= i < Z.of_nat n ->
     let p := upage (pte_of (k_mem s0) pgdir (i * PGSIZE)) in
     page_bytes (k_mem s) p = page_bytes (k_mem s0) p).
Proof.
  intros Hc El. destruct Hus as (Hwf & Hsep & Hpg).
  assert (Hin : forall q, q ∈ l0 -> q ∈ l) by (intros q Hq; rewrite El; apply elem_of_app; by left).
  assert (Hok : forall q, q ∈ l0 -> page_ok (k_end s0) q)
    by (intros q Hq; eapply Forall_forall in Hl; [done|by apply Hin]).
  assert (Hpt : forall p, pt_page (k_mem s0) pgdir p -> forall a, p <= a < p + PGSIZE ->
    load8 (k_mem s) a = load8 (k_mem s0) a).
  { intros p Hp. apply (frame_page _ _ _ (k_end s0) _ (cp_frame _ _ _ _ _ _ _ _ Hc));
      [by eapply pt_page_end|done|]. intros Hq. by apply (Hsep p Hp), Hin. }
  destruct (pt_frame _ _ _ _ Hwf Hpt) as [Htab Hpte]. split_and!; [done|done|].
  intros i Hi p. destruct (Hpg i Hi) as (_ & _ & Hpok & Hnin). apply page_bytes_ext.
  apply (frame_page _ _ _ (k_end s0) _ (cp_frame _ _ _ _ _ _ _ _ Hc)); [done|done|].
  intros Hq. by apply Hnin, Hin.
Qed.

(** One page copied and mapped. *)
Lemma copied_step s d us l0 q l1 s1 s2 l2 :
  copied (k_mem s0) pgdir s d kdata us l0 (q :: l1) -> l = l0 ++ q :: l1 ->
  k_end s = k_end s0 -> (length us < n)%nat ->
  let v := pte_of (k_mem s0) pgdir (Z.of_nat (length us) * PGSIZE) in
  s1 = (pop_free (ksettled s)) <| k_mem := memmove (k_mem s) q (upage v) PGSIZE |> ->
  mapped s1 s2 d (Z.of_nat (length us) * PGSIZE) (v2p q) (PTE_FLAGS v) 1 l1 l2 ->
  exists l0', l = l0' ++ l2 /\ copied (k_mem s0) pgdir s2 d kdata (us ++ [q]) l0' l2.
Proof.
  intros Hc El Ee Hlt v Es1 Hm.
  pose proof (parent_same _ _ _ _ _ Hc El) as (_ & _ & Hpb).
  destruct Hus as (_ & _ & Hpg). destruct (Hpg (Z.of_nat (length us)) ltac:(lia)) as (Hv & HP & Hpok & _).
  pose proof (cp_ok _ _ _ _ _ _ _ _ Hc) as Hok. pose proof Hok as ((_ & _ & _ & Hmok) & _ & Hsep).
  destruct (memmove_page (k_mem s) q (upage v) Hmok) as [Hout Hbytes].
  assert (Hmok1 : mem_ok (memmove (k_mem s) q (upage v) PGSIZE))
    by (apply mem_ok_memmove; [by unfold PGSIZE|done]).
  destruct (vm_ok_take s d q l1 _ Hok Hout Hmok1) as (Hok1 & _ & Hpages1 & Hpte1).
  assert (Em1 : k_mem s1 = memmove (k_mem s) q (upage v) PGSIZE) by (by rewrite Es1).
  assert (Ee1 : k_end s1 = k_end s0)
    by (rewrite Es1; simpl; by rewrite k_end_pop, k_end_ksettled).
  rewrite <- Es1 in Hok1. rewrite <- Em1 in Hout, Hbytes, Hpages1, Hpte1. clear Es1 Em1 Hmok1.
  destruct (mp_free Hm) as (f & -> & Hpages2).
  assert (Hq : q ∈ l /\ page_ok (k_end s0) q).
  { assert (q ∈ l) by (rewrite El; apply elem_of_app; right; by left).
    split; [done|]. by eapply Forall_forall in Hl. }
  destruct Hq as [Hql Hqok].
  pose proof Hnd as Hnd'. rewrite El in Hnd'. apply NoDup_app in Hnd' as (_ & Hdis & Hnd1).
  apply NoDup_cons in Hnd1 as [Hq1 Hnd1].
  assert (Hql0 : q ∉ l0) by (intros Hin; apply (Hdis q Hin); by left).
  assert (Hf0 : forall p, p ∈ f -> p ∉ l0)
    by (intros p Hp Hin; apply (Hdis p Hin); right; apply elem_of_app; by left).
  assert (Hqf : q ∉ f) by (intros Hin; apply Hq1, elem_of_app; by left).
  assert (Hqpt : ~ pt_page (k_mem s2) d q).
  { rewrite Hpages2, Hpages1. intros [H|H]; [|by apply Hqf]. apply (Hsep q H). by left. }
  assert (He2 : k_end s2 = k_end s0) by (by rewrite (vm_rel_end s1 s2 (mp_rel Hm))).
  assert (Hwf2 := proj1 (proj2 (mp_ok Hm))). rewrite He2 in Hwf2.
  assert (Hpgs : forall p, page_ok (k_end s0) p -> ~ pt_page (k_mem s2) d p ->
    page_bytes (k_mem s2) p = page_bytes (k_mem s1) p).
  { intros p Hp Hnp. apply page_bytes_ext.
    eapply (frame_page _ _ _ (k_end s0) _ (mp_frame Hm)); [done| |done].
    intros p' Hp'. by eapply pt_page_end. }
  destruct Hc as [_ Hpages [Hndu Huspt] Hmap Hrest Hfr].
  assert (Husl : forall p, p ∈ us -> p ∈ l0) by (intros p Hp; apply Hpages; by right).
  assert (Huspt2 : forall p, p ∈ us -> ~ pt_page (k_mem s2) d p).
  { intros p Hp. rewrite Hpages2, Hpages1. intros [H|H]; [by apply (Huspt p)|].
    apply (Hf0 p H). by apply Husl. }
  assert (Hpa : v2p q mod PGSIZE = 0) by (by apply (v2p_page (k_end s0))).
  assert (HP' : PGSIZE = 4096) by done.
  exists (l0 ++ q :: f). split; [by rewrite El, <- app_assoc|]. split.
  - apply (mp_ok Hm).
  - intros p. rewrite Hpages2, Hpages1. rewrite !elem_of_app, list_elem_of_singleton, elem_of_cons.
    rewrite <- Hpages. tauto.
  - split.
    + apply NoDup_app. split_and!; [done| |apply NoDup_singleton].
      intros p Hp ->%list_elem_of_singleton. by apply Hql0, Husl.
    + intros p [Hp| ->%list_elem_of_singleton]%elem_of_app; auto.
  - intros i p Hi. rewrite (mp_map Hm), Hpte1 by (unfold is_u32; apply lookup_lt_Some in Hi;
      rewrite length_app in Hi; simpl in Hi; unfold KERNBASE in *; lia).
    apply lookup_app_Some in Hi as [Hi|[Hge Hi]].
    + apply lookup_lt_Some in Hi as Hlt'. rewrite decide_False by lia.
      destruct (Hmap i p Hi) as (Hp1 & Hp2 & Hp3). rewrite He2, <- Ee. split_and!; [done|done|].
      assert (Hpu : p ∈ us) by (by eapply list_elem_of_lookup_2).
      rewrite Hpgs by (rewrite <- ?Ee; auto). rewrite <- Hp3. apply page_bytes_ext.
      intros a Ha. apply Hout.
      destruct (pages_disjoint p q) as [?|?]; [apply Hp1|apply Hqok| |lia|lia].
      intros ->. by apply Hql0, Husl.
    + apply list_lookup_singleton_Some in Hi as [Hi <-].
      replace i with (length us) by lia. rewrite decide_True by lia.
      rewrite PGROUNDDOWN_spec, Z.mod_mul by (by rewrite HP').
      fold v. rewrite (flags_present v) by done. rewrite He2, (Hpgs q) by done.
      split_and!; [done|lia|]. rewrite Hbytes. apply (Hpb (Z.of_nat (length us))). lia.
  - intros va Hva Hge. rewrite length_app in Hge. simpl in Hge.
    rewrite (mp_map Hm), Hpte1 by done. rewrite decide_False by lia. apply Hrest; [done|lia].
  - intros a Ha. rewrite (mp_frame Hm).
    + rewrite Hout by (apply Ha, elem_of_app; right; by left).
      apply Hfr. intros p Hp. apply Ha, elem_of_app. by left.
    + intros p Hp. apply Ha. rewrite Hpages2, Hpages1 in Hp. apply elem_of_app.
      destruct Hp as [Hp|Hp]; [left; apply Hpages; by left|right; by right].
Qed.

(** The parent's entries are found, present, in every state of the loop. *)
Lemma parent_walk s d us l0 l' i :
  copied (k_mem s0) pgdir s d kdata us l0 l' -> l = l0 ++ l' -> 0 <= i < Z.of_nat n ->
  exists a, walkpgdir pgdir (i * PGSIZE) false s = Ok a s /\ a <> 0 /\
    load32 (k_mem s) a = pte_of (k_mem s0) pgdir (i * PGSIZE).
Proof.
  intros Hc El Hi. destruct (parent_same _ _ _ _ _ Hc El) as (Htab & Hpte & _).
  destruct Hus as (Hwf & _ & Hpg). destruct (Hpg i Hi) as (_ & HPr & _ & _).
  rewrite walkpgdir_read. rewrite Htab by apply PDX_range. rewrite <- Hpte in HPr |- *.
  unfold pte_of in *. rewrite Htab in * by apply PDX_range.
  destruct (tab_of (k_mem s0) pgdir (PDX (i * PGSIZE))) as [t|] eqn:Et; [|done].
  eexists. split_and!; [done| |done]. destruct Hwf as (_ & H2 & _).
  destruct (H2 _ _ (PDX_range _) Et) as [Hok _]. apply page_ok_pos in Hok.
  pose proof (PTX_range (i * PGSIZE)). lia.
Qed.

Lemma copyuvm_loop_run sz fuel s d us l0 l' :
  (Z.of_nat n - 1) * PGSIZE < sz <= Z.of_nat n * PGSIZE ->
  copied (k_mem s0) pgdir s d kdata us l0 l' -> l = l0 ++ l' ->
  k_end s = k_end s0 -> kmem_ready dep s ->
  (length us <= n)%nat -> (n - length us <= fuel)%nat ->
  exists s', vm_rel s s' /\
    ((copyuvm_loop fuel pgdir d (Z.of_nat (length us) * PGSIZE) sz s = Ok true s' /\
      exists us' l0' l'', length us' = n /\ l = l0' ++ l'' /\
        copied (k_mem s0) pgdir s' d kdata us' l0' l'') \/
     (copyuvm_loop fuel pgdir d (Z.of_nat (length us) * PGSIZE) sz s = Ok false s' /\
      kmem_inv s' [])).
Proof.
  assert (HP : PGSIZE = 4096) by done. intros Hsz.
  revert s us l0 l'; induction fuel as [|fuel IH]; intros s us l0 l' Hc El Ee Hr Hlen Hf;
    cbn [copyuvm_loop];
    (destruct (Z.ltb_spec (Z.of_nat (length us) * PGSIZE) sz) as [Hlt|Hge]; cbn [negb];
     [|exists s; split; [apply vm_rel_refl|]; left; split; [done|];
       exists us, l0, l'; (split_and!; [lia|done|done])]); [lia|].
  destruct (parent_walk _ _ _ _ _ (Z.of_nat (length us)) Hc El ltac:(lia)) as (a & Ea & Ha0 & Eload).
  pose proof Hus as (_ & _ & Hpg).
  destruct (Hpg (Z.of_nat (length us)) ltac:(lia)) as (Hv & HPr & Hpok & _).
  set (va := Z.of_nat (length us) * PGSIZE) in *.
  set (v := pte_of (k_mem s0) pgdir va) in *.
  rewrite (bind_ok _ _ _ _ _ Ea). destruct (Z.eqb_spec a 0); [done|].
  rewrite (bind_ok (gets _) _ s v s) by (unfold gets; by rewrite Eload).
  rewrite HPr. cbn [negb]. rewrite (bind_ok _ _ _ _ _ (kalloc_run dep s Hr)).
  pose proof (cp_ok _ _ _ _ _ _ _ _ Hc) as Hok.
  pose proof (kmem_inv_pop (ksettled s) l' ltac:(apply kmem_inv_ksettled, Hok)) as Hpop.
  destruct (ksettled_fields s) as [Ekm Ef]. rewrite Ef in Hpop. destruct l' as [|q l1].
  { destruct Hpop as [-> Ep]. exists (pop_free (ksettled s)). split; [apply vm_rel_pop|].
    right. split; [done|]. rewrite Ep. apply kmem_inv_ksettled, Hok. }
  destruct Hpop as [-> _].
  assert (Hq : page_ok (k_end s0) q) by (rewrite El in Hl; apply Forall_app in Hl as [_ Hl'];
    by apply Forall_cons in Hl' as [? _]).
  pose proof (page_ok_pos _ _ Hq). destruct (Z.eqb_spec q 0); [lia|].
  rewrite (bind_ok _ _ _ _ _ (set_mem_pop _ s)). change (p2v (PTE_ADDR v)) with (upage v).
  pose proof Hok as ((_ & _ & _ & Hmok) & _).
  destruct (memmove_page (k_mem s) q (upage v) Hmok) as [Hout _].
  destruct (vm_ok_take s d q l1 _ Hok Hout) as (Hok1 & Hrel1 & _ & Hpte1);
    [apply mem_ok_memmove; [lia|done]|].
  set (s1 := (pop_free (ksettled s)) <| k_mem := memmove (k_mem s) q (upage v) PGSIZE |>) in *.
  destruct (v2p_page _ _ Hq) as (Q1 & Q2 & Q3).
  destruct (mappages_run dep 1 s1 d va (v2p q) (PTE_FLAGS v) l1) as (s2 & k & l2 & Hm & Hres).
  { by eapply vm_rel_ready. } { done. } { lia. } { unfold va. by apply Z.mod_mul. }
  { lia. } { unfold va, KERNBASE in *. lia. } { done. } { unfold v2p. wrap_lia. }
  { unfold PHYSTOP in *. lia. }
  { rewrite PTE_FLAGS_spec. apply Z.mod_pos_bound. lia. }
  { intros va' Hva'. change (k_mem s1) with (memmove (k_mem s) q (upage v) PGSIZE).
    assert (0 <= va' < KERNBASE) by (unfold va, KERNBASE in *; lia).
    rewrite Hpte1, (cp_rest _ _ _ _ _ _ _ _ Hc) by (unfold is_u32, KERNBASE in *; lia).
    by rewrite kmap_pte_user. }
  change (Z.of_nat 1 * PGSIZE) with PGSIZE in Hres.
  destruct Hres as [[Em ->]|(Em & _ & ->)]; rewrite (bind_ok _ _ _ _ _ Em).
  - destruct (copied_step s d us l0 q l1 s1 s2 l2 Hc El Ee ltac:(lia) eq_refl Hm) as (l0' & El' & Hc').
    change (0 <? 0) with false. cbv iota.
    rewrite u32_id by (unfold is_u32, va, KERNBASE in *; lia).
    destruct (IH s2 (us ++ [q]) l0' l2) as (s' & Hrel' & Hres'); [done|done| | | |..].
    + by rewrite (vm_rel_end _ _ (mp_rel Hm)), (vm_rel_end _ _ Hrel1).
    + eapply vm_rel_ready; [apply (mp_rel Hm)|]. by eapply vm_rel_ready.
    + rewrite length_app. simpl. lia.
    + rewrite length_app. simpl. lia.
    + exists s'. split; [eapply vm_rel_trans; [done|]; eapply vm_rel_trans; [apply (mp_rel Hm)|done]|].
      replace (va + PGSIZE) with (Z.of_nat (length (us ++ [q])) * PGSIZE); [done|].
      rewrite length_app. simpl. unfold va. lia.
  - exists s2. split; [eapply vm_rel_trans; [done|apply (mp_rel Hm)]|]. right.
    split; [done|]. apply (mp_ok Hm).
Qed.
End copy.

(** [copyuvm] of an address space of [n] pages gives the child a new page table
    whose first [n] pages are fresh, pairwise distinct copies of the parent's
    pages, byte for byte, with the parent's flags, and whose other entries are
    the kernel's; it writes only to pages of the free list, so the parent's
    memory is unchanged.  Otherwise memory has run out, and what it had built
    is handed to [freevm]. *)
Lemma copyuvm_run dep s pgdir sz n l :
  kmem_ready dep s -> kmem_inv s l -> layout_ok (k_data s) -> user_space s pgdir n l ->
  (Z.of_nat n - 1) * PGSIZE < sz <= Z.of_nat n * PGSIZE -> Z.of_nat n * PGSIZE <= KERNBASE ->
  (exists d s' us l0 l', copyuvm pgdir sz s = Ok d s' /\ d <> 0 /\ length us = n /\
     l = l0 ++ l' /\ copied (k_mem s) pgdir s' d (k_data s) us l0 l' /\ vm_rel s s') \/
  (exists s', kmem_inv s' [] /\ vm_rel s s' /\
     (copyuvm pgdir sz s = Ok 0 s' \/
      exists d, copyuvm pgdir sz s = (freevm d;; mret 0) s')).
Proof.
  intros Hr Hinv Hlay Hus Hsz Hn. unfold copyuvm.
  destruct (setupkvm_run dep s l Hr Hinv Hlay)
    as (s1 & l0 & l1 & El & Hrel & Hfr & [(E & -> & Hinv1)|(d & E & Hd & Hok & Hpages & Hpte)]);
    rewrite (bind_ok _ _ _ _ _ E).
  { right. exists s1. split_and!; [done|done|]. by left. }
  destruct (Z.eqb_spec d 0); [done|].
  assert (Hc : copied (k_mem s) pgdir s1 d (k_data s) [] l0 l1).
  { split; try done.
    - intros p. rewrite elem_of_nil, <- Hpages. tauto.
    - split; [constructor|]. intros q Hq. by apply elem_of_nil in Hq.
    - intros va Hva _. by apply Hpte. }
  pose proof Hinv as (_ & Hnd & Hl & _).
  assert (HP : PGSIZE = 4096) by done.
  destruct (copyuvm_loop_run dep s pgdir (k_data s) n l Hus Hl Hnd Hlay Hn sz
    (Z.to_nat (sz / PGSIZE + 1)) s1 d [] l0 l1 Hsz Hc El) as (s2 & Hrel2 & Hres).
  - by apply vm_rel_end.
  - by eapply vm_rel_ready.
  - simpl. lia.
  - simpl. assert (Z.of_nat n <= sz / PGSIZE + 1); [|lia].
    rewrite HP in *. Z.to_euclidean_division_equations. lia.
  - simpl in Hres. destruct Hres as [[E2 (us & l0' & l2 & Hlen & El' & Hc')]|[E2 Hinv2]];
      rewrite (bind_ok _ _ _ _ _ E2).
    + left. exists d, s2, us, l0', l2. split_and!; try done. by eapply vm_rel_trans.
    + right. exists s2. split_and!; [done|by eapply vm_rel_trans|]. right. by exists d.
Qed.

(** Freeing a page of [l] does not touch an address space kept apart from [l]. *)
Lemma user_space_push v s pgdir n l :
  v ∈ l -> page_ok (k_end s) v -> user_space s pgdir n l ->
  user_space (push_free v s) pgdir n l.
Proof.
  intros Hv Hok (Hwf & Hsep & Hpg).
  assert (Hpt : forall p, pt_page (k_mem s) pgdir p -> forall a, p <= a < p + PGSIZE ->
    load8 (k_mem (push_free v s)) a = load8 (k_mem s) a).
  { intros p Hp a Ha. apply push_free_mem. pose proof (pt_page_end _ _ _ _ Hwf Hp) as Hpok.
    destruct (pages_disjoint p v) as [?|?]; [apply Hpok|apply Hok| |lia|lia].
    intros ->. by apply (Hsep v). }
  destruct (pt_frame _ _ _ _ Hwf Hpt) as [Htab Hpte]. split_and!.
  - by eapply pt_wf_ext.
  - intros p Hp. apply Hsep. by rewrite pt_page_ext in Hp.
  - intros i Hi. rewrite Hpte. by apply Hpg.
Qed.

(** Example: page 0 of the address space at 0x80302000, through the page table
    at 0x80303000, is the page at 0x80304000; the pages at 0x80300000 and
    0x80301000 are free. *)
Definition ex_dir : Z := 2150637568.
Definition ex_tab : Z := 2150641664.
Definition ex_page : Z := 2150645760.
Definition ex_base : kernel :=
  kernel0 <| k_mem := store32 (store32 ∅ ex_dir (v2p ex_tab + 7)) ex_tab (v2p ex_page + 7) |>.
Definition ex_free : list Z := [2150633472; 2150629376].
Definition ex_space : kernel := push_free 2150633472 (push_free 2150629376 ex_base).

Lemma ex_tab_of i :
  0 <= i < 1024 -> tab_of (k_mem ex_base) ex_dir i = if decide (i = 0) then Some ex_tab else None.
Proof.
  intros Hi. unfold tab_of, ex_base. cbn [k_mem update].
  rewrite load32_store32_ne by (unfold ex_dir, ex_tab; lia). case_decide as E.
  - subst i. rewrite Z.mul_0_r, Z.add_0_r. rewrite load32_store32_eq; [reflexivity|].
    vm_compute. split; congruence.
  - rewrite load32_store32_ne by lia. reflexivity.
Qed.

Lemma ex_user_space : user_space ex_base ex_dir 1 ex_free.
Proof.
  assert (Hpages : forall p, pt_page (k_mem ex_base) ex_dir p -> p = ex_dir \/ p = ex_tab).
  { intros p [->|(i & Hi & E)]; [by left|right]. rewrite ex_tab_of in E by done.
    case_decide; by simplify_eq. }
  split_and!.
  - split_and!; [vm_compute; intuition congruence| |].
    + intros i t Hi E. rewrite ex_tab_of in E by done. case_decide; [|done]. simplify_eq.
      split; [vm_compute; intuition congruence|done].
    + intros i j t Hi Hj Ei Ej. rewrite ex_tab_of in Ei, Ej by done. by repeat case_decide; subst.
  - intros p Hp Hin. destruct (Hpages p Hp) as [-> | ->];
      repeat (apply elem_of_cons in Hin as [Hin|Hin]; [discriminate Hin|]);
      by apply elem_of_nil in Hin.
  - intros i Hi. assert (i = 0) as -> by lia.
    assert (E : pte_of (k_mem ex_base) ex_dir (0 * PGSIZE) = v2p ex_page + 7).
    { unfold pte_of. change (PDX (0 * PGSIZE)) with 0. rewrite ex_tab_of by lia. simpl.
      reflexivity. }
    rewrite E. split_and!; [vm_compute; split; congruence|reflexivity|
      vm_compute; intuition congruence|].
    intros Hin. change (upage (v2p ex_page + 7)) with ex_page in Hin.
    repeat (apply elem_of_cons in Hin as [Hin|Hin]; [discriminate Hin|]).
    by apply elem_of_nil in Hin.
Qed.

Lemma ex_space_inv : kmem_inv ex_space ex_free /\ user_space ex_space ex_dir 1 ex_free.
Proof.
  assert (H1 : page_ok 2150629376 2150629376) by (vm_compute; intuition congruence).
  assert (H2 : page_ok 2150629376 2150633472) by (vm_compute; intuition congruence).
  split.
  - apply kmem_inv_push; [apply kmem_inv_push| |]; try done.
    + split_and!; [done|constructor|constructor|].
      apply mem_ok_store32, mem_ok_store32, mem_ok_empty.
    + apply not_elem_of_nil.
    + by apply not_elem_of_cons; split; [|apply not_elem_of_nil].
  - apply user_space_push; [by left|done|]. apply user_space_push; [right; by left|done|].
    apply ex_user_space.
Qed.
