(* ===== verification/Ide.v ===== *)
(** ide.c: the IDE disk driver, its request queue and its interrupt handler.

    The disk is [k_disk], indexed by drive ([dev & 1]) and block number.  A
    write command transfers the buffer when it is started, a read is answered
    when the interrupt arrives; [ok] is whether the controller then reports
    no error.  memide.c, the in-memory driver, is the synchronous reference
    [mem_iderw]. *)
From S2P Require Import Prelude Memory Kernel CString Spinlock Sched.

Definition buf_at (s : kernel) (b : nat) : buf := default buf0 (bc_buf (k_bcache s) !! b).

Definition set_buf (b : nat) (f : buf -> buf) : K unit :=
  modify (fun s => s <| k_bcache ::= fun c => c <| bc_buf ::= alter f b |> |>).

Definition disk_block (s : kernel) (dev blockno : Z) : list Z :=
  default block0 (k_disk s !! (Z.land dev 1, blockno)).

Definition disk_write (dev blockno : Z) (d : list Z) : K unit :=
  modify (fun s => s <| k_disk ::= <[(Z.land dev 1, blockno) := d]> |>).

(** [b->flags & m], [b->flags |= m] and [b->flags &= ~m]. *)
Definition bflag (b : buf) (m : Z) : bool := has_bits (b_flags b) m.
Definition bset (m : Z) (b : buf) : buf := b <| b_flags ::= fun f => Z.lor f m |>.
Definition bclear (m : Z) (b : buf) : buf := b <| b_flags ::= fun f => Z.land f (Z.lnot m) |>.

(** [(b->flags & (B_VALID|B_DIRTY)) == B_VALID] *)
Definition synced (b : buf) : bool := Z.land (b_flags b) (Z.lor B_VALID B_DIRTY) =? B_VALID.

Definition idestart (b : option nat) : K unit :=
  match b with
  | None => panic "idestart"
  | Some b =>
      bf ← gets (fun s => buf_at s b);
      if FSSIZE <=? b_blockno bf then panic "incorrect blockno" else
      when (bflag bf B_DIRTY) (disk_write (b_dev bf) (b_blockno bf) (b_data bf))
  end.

Definition ideintr (ok : bool) : K unit :=
  acquire L_idelock;;
  q ← gets k_idequeue;
  match q with
  | None => release L_idelock
  | Some b =>
      bf ← gets (fun s => buf_at s b);
      modify (fun s => s <| k_idequeue := b_qnext bf |>);;
      when (negb (bflag bf B_DIRTY) && ok)
        (d ← gets (fun s => disk_block s (b_dev bf) (b_blockno bf));
         set_buf b (fun x => x <| b_data := d |>));;
      set_buf b (bset B_VALID);;
      set_buf b (bclear B_DIRTY);;
      wakeup (Ch_buf b);;
      q' ← gets k_idequeue;
      (match q' with None => mret tt | Some _ => idestart q' end);;
      release L_idelock
  end.

(** The walk to the end of the queue, where [b] is appended; the queue has at
    most [NBUF] buffers. *)
Fixpoint queue_append (fuel : nat) (p : option nat) (b : nat) : K unit :=
  match p with
  | None => modify (fun s => s <| k_idequeue := Some b |>)
  | Some p =>
      match fuel with
      | O => nofuel
      | S fuel' =>
          q ← gets (fun s => b_qnext (buf_at s p));
          match q with
          | None => set_buf p (fun x => x <| b_qnext := Some b |>)
          | Some _ => queue_append fuel' q b
          end
      end
  end.

Definition iderw (fuel : nat) (b : nat) : K unit :=
  bf ← gets (fun s => buf_at s b);
  if negb (bflag bf B_BUSY) then panic "iderw: buf not busy" else
  if synced bf then panic "iderw: nothing to do" else
  havedisk1 ← gets k_havedisk1;
  if negb (b_dev bf =? 0) && negb (c_true havedisk1)
  then panic "iderw: ide disk 1 not present" else
  acquire L_idelock;;
  set_buf b (fun x => x <| b_qnext := None |>);;
  q ← gets k_idequeue;
  queue_append NBUF q b;;
  q' ← gets k_idequeue;
  when (bool_decide (q' = Some b)) (idestart (Some b));;
  sleep_while fuel (gets (fun s => negb (synced (buf_at s b)))) (Ch_buf b) L_idelock;;
  release L_idelock.

(** ** memide.c *)

(** [iderw] of the in-memory disk, for an image of [disksize] blocks. *)
Definition mem_iderw (disksize : Z) (b : nat) : K unit :=
  bf ← gets (fun s => buf_at s b);
  if negb (bflag bf B_BUSY) then panic "iderw: buf not busy" else
  if synced bf then panic "iderw: nothing to do" else
  if negb (b_dev bf =? 1) then panic "iderw: request not for disk 1" else
  if disksize <=? b_blockno bf then panic "iderw: block out of range" else
  (if bflag bf B_DIRTY then
     set_buf b (bclear B_DIRTY);;
     disk_write (b_dev bf) (b_blockno bf) (b_data bf)
   else
     d ← gets (fun s => disk_block s (b_dev bf) (b_blockno bf));
     set_buf b (fun x => x <| b_data := d |>));;
  set_buf b (bset B_VALID).

(** ** Requests *)

Lemma land_6_bits x i :
  Z.testbit (Z.land x 6) i = Z.testbit x i && ((i =? 1) || (i =? 2)).
Proof.
  rewrite Z.land_spec. f_equal.
  destruct (decide (i < 0)); [rewrite Z.testbit_neg_r by lia; lia|].
  destruct (decide (3 <= i)); [rewrite Z.bits_above_log2 by (simpl; lia); lia|].
  assert (i = 0 \/ i = 1 \/ i = 2) as [-> | [-> | ->]] by lia; reflexivity.
Qed.

Lemma done_synced bf : synced (bclear B_DIRTY (bset B_VALID bf)) = true.
Proof.
  unfold synced, bclear, bset, B_DIRTY, B_VALID. simpl. apply Z.eqb_eq, Z.bits_inj'.
  intros i Hi. rewrite land_6_bits, Z.land_spec, Z.lor_spec, Z.lnot_spec by lia.
  destruct (decide (i = 1)) as [->|]; [by rewrite orb_true_r|].
  destruct (decide (i = 2)) as [->|]; [by rewrite andb_false_r|].
  replace ((i =? 1) || (i =? 2)) with false by lia. rewrite andb_false_r.
  symmetry. destruct (decide (i = 0)) as [->|]; [done|]. apply Z.bits_above_log2; simpl; lia.
Qed.

Lemma has_bits_bit f n : 0 <= n -> has_bits f (2 ^ n) = Z.testbit f n.
Proof.
  intros Hn. unfold has_bits. destruct (Z.testbit f n) eqn:E.
  - apply negb_true_iff, Z.eqb_neq. intros H. apply (f_equal (fun x => Z.testbit x n)) in H.
    rewrite Z.land_spec, E, Z.pow2_bits_true, Z.bits_0 in H by done. done.
  - apply negb_false_iff, Z.eqb_eq, Z.bits_inj'. intros i Hi.
    rewrite Z.land_spec, Z.bits_0. destruct (decide (i = n)) as [->|]; [by rewrite E|].
    rewrite Z.pow2_bits_false by lia. apply andb_false_r.
Qed.

Lemma done_busy bf : bflag bf B_BUSY = true -> bflag (bclear B_DIRTY (bset B_VALID bf)) B_BUSY = true.
Proof.
  unfold bflag, bclear, bset. simpl. change B_BUSY with (2 ^ 0). rewrite !has_bits_bit by lia.
  intros H. rewrite Z.land_spec, Z.lor_spec, Z.lnot_spec, H by lia. done.
Qed.

Definition with_buf (b : nat) (f : buf -> buf) (s : kernel) : kernel :=
  s <| k_bcache ::= fun c => c <| bc_buf ::= alter f b |> |>.

Lemma buf_at_with b f s :
  (b < length (bc_buf (k_bcache s)))%nat -> buf_at (with_buf b f s) b = f (buf_at s b).
Proof.
  intros H. unfold buf_at. simpl. rewrite list_lookup_alter_eq.
  by destruct (lookup_lt_is_Some_2 _ _ H) as [x ->].
Qed.

Lemma length_with b f s :
  length (bc_buf (k_bcache (with_buf b f s))) = length (bc_buf (k_bcache s)).
Proof. simpl. by rewrite length_alter. Qed.

(** The request of [b] when the queue is empty, up to the switch: [b] is the
    queue, and a dirty buffer has been handed to the disk. *)
Definition started (b : nat) (s : kernel) : kernel :=
  let s1 := (with_buf b (fun x => x <| b_qnext := None |>) s) <| k_idequeue := Some b |> in
  let bf := buf_at s b in
  if bflag bf B_DIRTY
  then s1 <| k_disk ::= <[(Z.land (b_dev bf) 1, b_blockno bf) := b_data bf]> |> else s1.

Record can_sleep (i : nat) (lk : lockid) (s : kernel) : Prop := {
  cs_cpu : (k_me s < length (k_cpus s))%nat;
  cs_ncli : c_ncli (mycpu s) = 0;
  cs_lk : lock_free lk s;
  cs_ptable : lock_free L_ptable s;
  cs_cur : curproc s = Some i;
  cs_proc : (i < length (k_ptable s))%nat;
}.

Definition request_ok (b : nat) (s : kernel) : Prop :=
  let bf := buf_at s b in
  (b < length (bc_buf (k_bcache s)))%nat /\ bflag bf B_BUSY = true /\ synced bf = false /\
  (b_dev bf = 0 \/ k_havedisk1 s <> 0) /\ b_blockno bf < FSSIZE.

Lemma iderw_started fuel b s :
  request_ok b s -> k_idequeue s = None -> idle L_idelock s ->
  iderw fuel b s =
  (sleep_while fuel (gets (fun s => negb (synced (buf_at s b)))) (Ch_buf b) L_idelock;;
   release L_idelock) (acquired L_idelock (started b s)).
Proof.
  intros (Hb & Hbusy & Hsync & Hdev & Hblk) Hq Hidle. unfold iderw.
  rewrite (bind_ok (gets _) _ s (buf_at s b) s eq_refl). rewrite Hbusy, Hsync. cbn [negb].
  rewrite (bind_ok (gets k_havedisk1) _ s (k_havedisk1 s) s eq_refl).
  replace (negb (b_dev (buf_at s b) =? 0) && negb (c_true (k_havedisk1 s))) with false.
  2: { destruct Hdev as [->|Hh]; [done|]. destruct (c_true_spec (k_havedisk1 s)); [|done].
       by rewrite andb_false_r. }
  rewrite (bind_ok _ _ _ _ _ (acquire_idle _ _ Hidle)).
  set (s1 := acquired L_idelock s). set (f := fun x : buf => x <| b_qnext := None |>).
  rewrite (bind_ok (set_buf b f) _ s1 tt (with_buf b f s1) eq_refl).
  rewrite (bind_ok (gets k_idequeue) _ _ None (with_buf b f s1))
    by (unfold gets; f_equal; exact Hq).
  set (s2 := (with_buf b f s1) <| k_idequeue := Some b |>).
  rewrite (bind_ok (queue_append NBUF None b) _ _ tt s2 eq_refl).
  rewrite (bind_ok (gets k_idequeue) _ s2 (Some b) s2 eq_refl).
  rewrite bool_decide_true by done. cbn [when].
  rewrite (bind_ok _ _ _ tt (acquired L_idelock (started b s))); [done|].
  unfold idestart. assert (Hbf : buf_at s2 b = f (buf_at s b)) by (by apply (buf_at_with b f s1)).
  rewrite (bind_ok (gets _) _ s2 (f (buf_at s b)) s2) by (unfold gets; by rewrite Hbf).
  change (b_blockno (f (buf_at s b))) with (b_blockno (buf_at s b)).
  destruct (Z.leb_spec FSSIZE (b_blockno (buf_at s b))); [lia|].
  change (bflag (f (buf_at s b)) B_DIRTY) with (bflag (buf_at s b) B_DIRTY).
  unfold started. by destruct (bflag (buf_at s b) B_DIRTY).
Qed.

Lemma cpu_ok_1_acquired l s : idle l s -> cpu_ok 1 (acquired l s).
Proof. intros H. apply (cpu_ok_acquired 0). by eapply idle_cpu_ok. Qed.

(** The buffer the disk has finished with, when the controller reports [ok]. *)
Definition completed (ok : bool) (s : kernel) (b : nat) (bf : buf) : buf :=
  bclear B_DIRTY (bset B_VALID
    (if negb (bflag bf B_DIRTY) && ok
     then bf <| b_data := disk_block s (b_dev bf) (b_blockno bf) |> else bf)).

Lemma with_buf_twice b f g s : with_buf b g (with_buf b f s) = with_buf b (g ∘ f) s.
Proof. unfold with_buf, update. simpl. by rewrite list_alter_alter_eq. Qed.

Lemma with_buf_ext b f g s :
  (b < length (bc_buf (k_bcache s)))%nat -> f (buf_at s b) = g (buf_at s b) ->
  with_buf b f s = with_buf b g s.
Proof.
  intros Hb H. unfold with_buf, update. simpl. f_equal. f_equal. apply list_alter_ext; [|done].
  intros x Hx. unfold buf_at in H. by rewrite Hx in H.
Qed.

Lemma with_buf_id b s : with_buf b (fun x => x) s = s.
Proof.
  unfold with_buf, update. simpl. rewrite list_alter_id by done.
  destruct s as []. simpl. by destruct k_bcache.
Qed.

(** The interrupt for the only request of the queue. *)
Lemma ideintr_last ok b s :
  idle L_idelock s -> lock_free L_ptable s -> k_idequeue s = Some b ->
  b_qnext (buf_at s b) = None -> (b < length (bc_buf (k_bcache s)))%nat ->
  ideintr ok s = Ok tt
    ((settled (with_buf b (completed ok s b) (s <| k_idequeue := None |>)))
       <| k_ptable ::= fmap (wake_proc (Ch_buf b)) |>).
Proof.
  intros Hidle Hpt Hq Hnext Hb. unfold ideintr.
  rewrite (bind_ok _ _ _ _ _ (acquire_idle _ _ Hidle)). set (s1 := acquired L_idelock s).
  rewrite (bind_ok (gets k_idequeue) _ s1 (Some b) s1) by (unfold gets; f_equal; exact Hq).
  rewrite (bind_ok (gets _) _ s1 (buf_at s b) s1 eq_refl). rewrite Hnext.
  set (s2 := s1 <| k_idequeue := None |>).
  rewrite (bind_ok (modify _) _ s1 tt s2 eq_refl).
  set (rd := negb (bflag (buf_at s b) B_DIRTY) && ok).
  set (f := fun x : buf => if rd then x <| b_data := disk_block s (b_dev (buf_at s b)) (b_blockno (buf_at s b)) |> else x).
  assert (E1 : when rd (d ← gets (fun s0 => disk_block s0 (b_dev (buf_at s b)) (b_blockno (buf_at s b)));
    set_buf b (fun x => x <| b_data := d |>)) s2 = Ok tt (with_buf b f s2)).
  { unfold f. destruct rd; [reflexivity|]. by rewrite with_buf_id. }
  rewrite (bind_ok _ _ _ _ _ E1).
  rewrite (bind_ok (set_buf b (bset B_VALID)) _ _ tt (with_buf b (bset B_VALID) (with_buf b f s2)) eq_refl).
  rewrite (bind_ok (set_buf b (bclear B_DIRTY)) _ _ tt
    (with_buf b (bclear B_DIRTY) (with_buf b (bset B_VALID) (with_buf b f s2))) eq_refl).
  rewrite !with_buf_twice.
  rewrite (with_buf_ext b _ (completed ok s b) s2) by
    (done || (unfold compose, f, completed; change (buf_at s2 b) with (buf_at s b); done)).
  set (s3 := with_buf b (completed ok s b) (s <| k_idequeue := None |>)).
  change (with_buf b (completed ok s b) s2) with (acquired L_idelock s3).
  assert (Hi3 : idle L_idelock s3) by exact Hidle.
  rewrite (bind_ok _ _ _ _ _ (wakeup_run 1 (Ch_buf b) (acquired L_idelock s3)
    (cpu_ok_1_acquired _ _ Hi3) ltac:(done) ltac:(by apply lock_free_acquired))).
  rewrite (settled_acquired 0) by (by eapply idle_cpu_ok).
  set (s4 := (acquired L_idelock s3) <| k_ptable ::= fmap (wake_proc (Ch_buf b)) |>).
  rewrite (bind_ok (gets k_idequeue) _ s4 None s4 eq_refl). cbv iota.
  rewrite (bind_ok (mret tt) _ s4 tt s4 eq_refl).
  change s4 with (acquired L_idelock (s3 <| k_ptable ::= fmap (wake_proc (Ch_buf b)) |>)).
  rewrite (release_acquired 0); [done|by eapply idle_cpu_ok|done|apply Hi3].
Qed.

Lemma started_buf b s :
  (b < length (bc_buf (k_bcache s)))%nat ->
  buf_at (started b s) b = (buf_at s b) <| b_qnext := None |>.
Proof.
  intros Hb. unfold started. pose proof (buf_at_with b (fun x => x <| b_qnext := None |>) s Hb).
  by destruct (bflag (buf_at s b) B_DIRTY).
Qed.

(** The block on disk once the request has been started. *)
Lemma started_disk b s :
  let bf := buf_at s b in
  disk_block (started b s) (b_dev bf) (b_blockno bf) =
    if bflag bf B_DIRTY then b_data bf else disk_block s (b_dev bf) (b_blockno bf).
Proof.
  unfold started, disk_block. destruct (bflag (buf_at s b) B_DIRTY); simpl; [|done].
  by rewrite lookup_insert_eq.
Qed.

Lemma started_fields b s :
  k_cpus (started b s) = k_cpus s /\ k_me (started b s) = k_me s /\
  k_locks (started b s) = k_locks s /\ k_ptable (started b s) = k_ptable s /\
  k_idequeue (started b s) = Some b /\
  length (bc_buf (k_bcache (started b s))) = length (bc_buf (k_bcache s)).
Proof.
  unfold started. destruct (bflag (buf_at s b) B_DIRTY); simpl; by rewrite length_alter.
Qed.

Lemma completed_data s b bf :
  b_data (completed true s b (bf <| b_qnext := None |>)) =
    if bflag bf B_DIRTY then b_data bf else disk_block s (b_dev bf) (b_blockno bf).
Proof.
  unfold completed. change (bflag (bf <| b_qnext := None |>) B_DIRTY) with (bflag bf B_DIRTY).
  by destruct (bflag bf B_DIRTY).
Qed.

(** Waiting for the disk, and coming back with the buffer synced. *)
Lemma wait_disk fuel b i s :
  holds_only L_idelock s -> lock_free L_ptable s -> curproc s = Some i ->
  (i < length (k_ptable s))%nat -> synced (buf_at s b) = false ->
  exists s1 k,
    (sleep_while (S fuel) (gets (fun s => negb (synced (buf_at s b)))) (Ch_buf b) L_idelock;;
     release L_idelock) s = Swtch s1 k /\
    sched_rel s s1 /\ k_ptable s1 = alter (asleep (Ch_buf b)) i (k_ptable s) /\
    same_locks L_idelock s s1 /\ c_cr3 (mycpu s1) = c_cr3 (mycpu s) /\
    forall s4, holds_only L_ptable s4 -> curproc s4 = Some i -> lock_free L_idelock s4 ->
      synced (buf_at s4 b) = true ->
      exists s5, k s4 = Ok tt s5 /\ sched_rel s4 s5 /\ idle L_idelock s5 /\
        lock_free L_ptable s5 /\ curproc s5 = Some i /\
        length (k_ptable s5) = length (k_ptable s4) /\ same_locks L_idelock s4 s5 /\
        c_cr3 (mycpu s5) = c_cr3 (mycpu s4).
Proof.
  intros Hh Hpt Hcur Hi Hs.
  destruct (sleep_spec (Ch_buf b) L_idelock i s ltac:(done) Hh Hpt Hcur Hi)
    as (s1 & k & E & Hrel & _ & _ & Ht & _ & _ & Hk & Hsl & Hcr).
  exists s1. eexists. split.
  { eapply bind_swtch. cbn [sleep_while].
    rewrite (bind_ok (gets _) _ s true s) by (unfold gets; by rewrite Hs).
    cbn [negb]. eapply bind_swtch. exact E. }
  split_and!; [done|done|done|done|]. intros s4 H1 H2 H3 H4.
  destruct (Hk s4 H1 H2 H3) as (s5 & E5 & Hrel5 & Hh5 & Hpt5 & Ht5 & Hc5 & Hsl5 & Hcr5).
  assert (Hb5 : buf_at s5 b = buf_at s4 b) by (by rewrite Hrel5).
  exists (released L_idelock s5). rewrite E5. cbn [res_bind].
  assert (Ew : sleep_while fuel (gets (fun s => negb (synced (buf_at s b)))) (Ch_buf b) L_idelock s5
    = Ok tt s5).
  { destruct fuel; cbn [sleep_while];
      (rewrite (bind_ok (gets _) _ s5 false s5) by (unfold gets; by rewrite Hb5, H4)); done. }
  rewrite Ew. cbn [res_bind]. rewrite (release_holds _ _ Hh5). split_and!; [done| | | | | | |].
  - unfold sched_rel in *. rewrite Hrel5. reflexivity.
  - by apply idle_released.
  - destruct Hpt5 as [name Hn]. exists name. simpl. by rewrite lookup_insert_ne.
  - rewrite curproc_released; [done|apply Hh5].
  - simpl. by rewrite Ht5, length_alter.
  - intros l Hl1 Hl2. simpl. rewrite lookup_insert_ne by done. by apply Hsl5.
  - by rewrite mycpu_released by apply Hh5.
Qed.

(** A disk request completes.  With an idle disk, [iderw] puts the buffer
    on the queue and its caller to sleep; the interrupt that follows, reported
    without error, empties the queue and makes the caller RUNNABLE; and when
    it runs again, [iderw] returns with the buffer valid and clean, its data
    and the disk block equal: the buffer's data for a write, the disk's old
    block for a read.  This is what the synchronous driver does in one step. *)
Theorem ide_request_completes fuel b i s :
  request_ok b s -> k_idequeue s = None -> can_sleep i L_idelock s ->
  let bf := buf_at s b in
  exists s1 k, iderw (S fuel) b s = Swtch s1 k /\ k_idequeue s1 = Some b /\
    p_state (proc_at s1 i) = SLEEPING /\
    forall s2, idle L_idelock s2 -> lock_free L_ptable s2 ->
      k_idequeue s2 = k_idequeue s1 -> k_bcache s2 = k_bcache s1 -> k_disk s2 = k_disk s1 ->
      k_ptable s2 = k_ptable s1 ->
      exists s3, ideintr true s2 = Ok tt s3 /\ k_idequeue s3 = None /\
        p_state (proc_at s3 i) = RUNNABLE /\
        forall s4, holds_only L_ptable s4 -> curproc s4 = Some i -> lock_free L_idelock s4 ->
          k_bcache s4 = k_bcache s3 -> k_disk s4 = k_disk s3 ->
          exists s5, k s4 = Ok tt s5 /\ lock_free L_idelock s5 /\
            synced (buf_at s5 b) = true /\ bflag (buf_at s5 b) B_BUSY = true /\
            b_data (buf_at s5 b) = disk_block s5 (b_dev bf) (b_blockno bf) /\
            b_data (buf_at s5 b) =
              if bflag bf B_DIRTY then b_data bf else disk_block s (b_dev bf) (b_blockno bf).
Proof.
  intros Hreq Hq [C1 C2 C3 C4 C5 C6] bf. pose proof Hreq as (Hb & Hbusy & Hsync & _).
  assert (Hidle : idle L_idelock s) by done.
  rewrite (iderw_started (S fuel) b s Hreq Hq Hidle).
  pose proof (started_buf b s Hb) as Hsb. pose proof (started_disk b s) as Hsd. cbv zeta in Hsd.
  fold bf in Hsb, Hsd. destruct (started_fields b s) as (S1 & S2 & S3 & S4 & S5 & S6).
  set (sb := started b s) in *. clearbody sb.
  assert (Hidleb : idle L_idelock sb)
    by (revert Hidle; unfold idle, lock_free, mycpu; by rewrite S1, S2, S3).
  destruct (wait_disk fuel b i (acquired L_idelock sb)) as (s1 & k & E & Hrel & Ht & _ & _ & Hk).
  { by apply holds_acquired. }
  { apply lock_free_acquired; [done|]. unfold lock_free. by rewrite S3. }
  { rewrite curproc_acquired by (by rewrite S1, S2). unfold curproc, mycpu. by rewrite S1, S2. }
  { simpl. by rewrite S4. }
  { change (buf_at (acquired L_idelock sb) b) with (buf_at sb b). by rewrite Hsb. }
  assert (Hbc : k_bcache s1 = k_bcache sb /\ k_disk s1 = k_disk sb /\ k_idequeue s1 = Some b)
    by (rewrite Hrel; done).
  destruct Hbc as (B1 & B2 & B3). exists s1, k.
  assert (Hlk : exists p, k_ptable s1 !! i = Some p /\ p_state p = SLEEPING /\ p_chan p = Ch_buf b).
  { rewrite Ht, list_lookup_alter_eq. change (k_ptable (acquired L_idelock sb)) with (k_ptable sb).
    rewrite S4. destruct (lookup_lt_is_Some_2 _ _ C6) as [p ->]. by exists (asleep (Ch_buf b) p). }
  destruct Hlk as (p & Hp & Hps & Hpc).
  split_and!; [done|done|unfold proc_at; by rewrite Hp|].
  intros s2 H1 H2 H3 H4 H5 H6. rewrite B3 in H3. rewrite B1 in H4. rewrite B2 in H5.
  assert (Hb2 : buf_at s2 b = bf <| b_qnext := None |>) by (unfold buf_at; rewrite H4; exact Hsb).
  assert (Hd2 : disk_block s2 (b_dev bf) (b_blockno bf)
    = if bflag bf B_DIRTY then b_data bf else disk_block s (b_dev bf) (b_blockno bf))
    by (rewrite <- Hsd; unfold disk_block; by rewrite H5).
  rewrite (ideintr_last true b s2 H1 H2 H3); [|by rewrite Hb2|rewrite H4, S6; done].
  eexists. split; [reflexivity|]. split_and!; [done| |].
  { unfold proc_at. simpl. rewrite H6, list_lookup_fmap, Hp. simpl. unfold wake_proc.
    rewrite Hps, Hpc. simpl. by rewrite bool_decide_true. }
  intros s4 G1 G2 G3 G4 G5.
  assert (Hb4 : buf_at s4 b = completed true s2 b (bf <| b_qnext := None |>)).
  { unfold buf_at. rewrite G4. change (buf_at (with_buf b (completed true s2 b) s2) b
      = completed true s2 b (bf <| b_qnext := None |>)).
    rewrite buf_at_with by (rewrite H4, S6; done). by rewrite Hb2. }
  destruct (Hk s4 G1 G2 G3) as (s5 & E5 & Hrel5 & Hl5 & _); [rewrite Hb4; apply done_synced|].
  exists s5. assert (E5b : buf_at s5 b = buf_at s4 b /\ k_disk s5 = k_disk s2)
    by (split; rewrite Hrel5; [done|exact G5]). destruct E5b as [E5b E5d].
  assert (Hd5 : disk_block s5 = disk_block s2) by (unfold disk_block; by rewrite E5d).
  rewrite E5b, Hb4, completed_data, Hd5, Hd2.
  split_and!; try done; [apply Hl5|apply done_synced| |by destruct (bflag bf B_DIRTY)..].
  apply done_busy. by destruct (negb _ && _).
Qed.

(** Process 0 asks to read block 5 of disk 1 into buffer 3. *)
Definition disk_ready : kernel :=
  running0 <| k_havedisk1 := 1 |>
    <| k_bcache ::= fun c => c <| bc_buf ::= alter (fun x =>
         x <| b_flags := B_BUSY |> <| b_dev := 1 |> <| b_blockno := 5 |>) 3%nat |> |>.

Lemma ide_request_completes_witness :
  exists s1 k, iderw 1 3 disk_ready = Swtch s1 k /\ k_idequeue s1 = Some 3%nat /\
    p_state (proc_at s1 0) = SLEEPING.
Proof.
  destruct (ide_request_completes 0 3 0 disk_ready) as (s1 & k & E & H1 & H2 & _).
  - split_and!; [vm_compute; lia|reflexivity|reflexivity|by right|reflexivity].
  - reflexivity.
  - split; [vm_compute; lia|reflexivity|by eexists|by eexists|reflexivity|vm_compute; lia].
  - by exists s1, k.
Defined.

(** A read that the controller reports failed still marks the buffer valid,
    with the data it had. *)
Theorem ide_error_valid b s :
  idle L_idelock s -> lock_free L_ptable s -> k_idequeue s = Some b ->
  b_qnext (buf_at s b) = None -> (b < length (bc_buf (k_bcache s)))%nat ->
  exists s', ideintr false s = Ok tt s' /\ synced (buf_at s' b) = true /\
    b_data (buf_at s' b) = b_data (buf_at s b).
Proof.
  intros H1 H2 H3 H4 H5. rewrite (ideintr_last false b s H1 H2 H3 H4 H5).
  eexists. split; [reflexivity|].
  change (buf_at (((settled (with_buf b (completed false s b) (s <| k_idequeue := None |>)))
       <| k_ptable ::= fmap (wake_proc (Ch_buf b)) |>)) b)
    with (buf_at (with_buf b (completed false s b) s) b).
  rewrite buf_at_with by done. split; [apply done_synced|].
  unfold completed. by rewrite andb_false_r.
Qed.
