(* ===== verification/IdePorts.v ===== *)
(** ide.c on the ports of the controller, and that it implements the driver of
    Ide.v, whose disk is a map of blocks.

    The simulation covers every outcome of a run, the switches inside [iderw]
    included: while its process sleeps, controller and kernel may change in any
    way that keeps the relation between them. *)
From S2P Require Import Prelude Memory Kernel CString Spinlock Sched Ide Hw Ata.

(** ** The code *)

Section ports.
Context {D : Type} `{!Device D}.

(** [(r & (IDE_BSY|IDE_DRDY)) != IDE_DRDY]; the wait for the controller. *)
Fixpoint idewait {S} (spin : nat) (checkerr : bool) : M (board D S) Z :=
  r ← inb 503;
  if Z.land r 192 =? 64 then
    mret (if checkerr && negb (Z.land r 33 =? 0) then -1 else 0)
  else match spin with O => nofuel | Datatypes.S spin' => idewait spin' checkerr end.

Abbreviation B := (M (board D kernel)).

Definition idestart_ports (spin : nat) (b : option nat) : B unit :=
  match b with
  | None => panic "idestart"
  | Some b =>
      bf ← lift (gets (fun s => buf_at s b));
      if FSSIZE <=? b_blockno bf then panic "incorrect blockno" else
      let sector_per_block := BSIZE / 512 in
      let sector := i32 (b_blockno bf * sector_per_block) in
      if 7 <? sector_per_block then panic "idestart" else
      _ ← idewait spin false;
      outb 1014 0;;
      outb 498 sector_per_block;;
      outb 499 (Z.land sector 255);;
      outb 500 (Z.land (Z.shiftr sector 8) 255);;
      outb 501 (Z.land (Z.shiftr sector 16) 255);;
      outb 502 (Z.lor (Z.lor 224 (Z.shiftl (Z.land (b_dev bf) 1) 4)) (Z.land (Z.shiftr sector 24) 15));;
      if bflag bf B_DIRTY then
        outb 503 48;;
        out_words 496 (words_of_bytes (b_data bf))
      else outb 503 32
  end.

Definition ideintr_ports (spin : nat) : B unit :=
  lift (acquire L_idelock);;
  q ← lift (gets k_idequeue);
  match q with
  | None => lift (release L_idelock)
  | Some b =>
      bf ← lift (gets (fun s => buf_at s b));
      lift (modify (fun s => s <| k_idequeue := b_qnext bf |>));;
      (if negb (bflag bf B_DIRTY) then
         r ← idewait spin true;
         if 0 <=? r then
           l ← in_words 496 (Z.to_nat (BSIZE / 4));
           lift (set_buf b (fun x => x <| b_data := bytes_of_words l |>))
         else mret tt
       else mret tt);;
      lift (set_buf b (bset B_VALID));;
      lift (set_buf b (bclear B_DIRTY));;
      lift (wakeup (Ch_buf b));;
      q' ← lift (gets k_idequeue);
      (match q' with None => mret tt | Some _ => idestart_ports spin q' end);;
      lift (release L_idelock)
  end.

Definition iderw_ports (spin fuel : nat) (b : nat) : B unit :=
  bf ← lift (gets (fun s => buf_at s b));
  if negb (bflag bf B_BUSY) then panic "iderw: buf not busy" else
  if synced bf then panic "iderw: nothing to do" else
  havedisk1 ← lift (gets k_havedisk1);
  if negb (b_dev bf =? 0) && negb (c_true havedisk1)
  then panic "iderw: ide disk 1 not present" else
  lift (acquire L_idelock);;
  lift (set_buf b (fun x => x <| b_qnext := None |>));;
  q ← lift (gets k_idequeue);
  lift (queue_append NBUF q b);;
  q' ← lift (gets k_idequeue);
  when (bool_decide (q' = Some b)) (idestart_ports spin (Some b));;
  lift (sleep_while fuel (gets (fun s => negb (synced (buf_at s b)))) (Ch_buf b) L_idelock);;
  lift (release L_idelock).
End ports.

(** ** Simulation *)

(** With the disk behind the controller, the kernel has no map of blocks. *)
Definition diskless (s : kernel) : kernel := s <| k_disk := ∅ |>.

(** The part of the kernel's state that the driver owns. *)
Definition ide_view (s : kernel) : gmap (Z * Z) (list Z) * option nat * list buf :=
  (k_disk s, k_idequeue s, bc_buf (k_bcache s)).

(** Code that neither uses the disk nor changes what the driver owns; [sw] is
    whether it may switch to another process. *)
Fixpoint neutral_res {A} (sw : bool) (s0 : kernel) (r r' : res kernel A) : Prop :=
  match r with
  | Ok a s => r' = Ok a (diskless s) /\ ide_view s = ide_view s0
  | Panic msg => r' = Panic msg
  | Hang => r' = Hang
  | NoFuel => r' = NoFuel
  | Swtch s k => sw = true /\ exists k', r' = Swtch (diskless s) k' /\ ide_view s = ide_view s0 /\
      forall s1, neutral_res sw s1 (k s1) (k' (diskless s1))
  end.

Definition neutral {A} (sw : bool) (m : K A) : Prop := forall s, neutral_res sw s (m s) (m (diskless s)).

Section sim.
Context {D : Type} (R : kernel -> D -> Prop).

(** The run [r'] with devices does what [r] does; [R] relates the kernel to the
    devices at every switch, and [Q] at the end. *)
Fixpoint sim_res {A} (Q : kernel -> D -> Prop) (r : res kernel A) (r' : res (board D kernel) A) : Prop :=
  match r with
  | Ok a s => exists d, r' = Ok a (Mkboard d (diskless s)) /\ Q s d
  | Panic msg => r' = Panic msg
  | Hang => r' = Hang
  | NoFuel => r' = NoFuel
  | Swtch s k => exists d k', r' = Swtch (Mkboard d (diskless s)) k' /\ R s d /\
      forall s1 d1, R s1 d1 -> sim_res Q (k s1) (k' (Mkboard d1 (diskless s1)))
  end.

Definition refines {A} (P Q : kernel -> D -> Prop) (m' : M (board D kernel) A) (m : K A) : Prop :=
  forall s d, P s d -> sim_res Q (m s) (m' (Mkboard d (diskless s))).

Lemma sim_res_bind {A C} (P Q : kernel -> D -> Prop) (r : res kernel A) r' (f : A -> K C) f' :
  sim_res P r r' -> (forall a s d, P s d -> sim_res Q (f a s) (f' a (Mkboard d (diskless s)))) ->
  sim_res Q (res_bind f r) (res_bind f' r').
Proof.
  intros H Hf. revert r' H. induction r as [a s|msg| | |s k IH]; intros r'; cbn; try by intros ->.
  - intros (d & -> & HP). by apply Hf.
  - intros (d & k' & -> & HR & Hk). exists d, (fun b => res_bind f' (k' b)). split_and!; [done|done|].
    intros s1 d1 H1. by apply IH, Hk.
Qed.

Lemma refines_bind {A C} (P P1 Q : kernel -> D -> Prop) (m : K A) m' (f : A -> K C) f' :
  refines P P1 m' m -> (forall a, refines P1 Q (f' a) (f a)) -> refines P Q (m' ≫= f') (m ≫= f).
Proof. intros H Hf s d HP. eapply sim_res_bind; [by apply H|]. intros a s1 d1. apply Hf. Qed.

Lemma refines_pre {A} (P P' Q : kernel -> D -> Prop) m' (m : K A) :
  (forall s d, P' s d -> P s d) -> refines P Q m' m -> refines P' Q m' m.
Proof. intros HP H s d Hs. by apply H, HP. Qed.

Lemma refines_ret {A} (P : kernel -> D -> Prop) (a : A) : refines P P (mret a) (mret a).
Proof. intros s d H. by exists d. Qed.

Lemma refines_panic {A} (P Q : kernel -> D -> Prop) msg : refines (A := A) P Q (panic msg) (panic msg).
Proof. done. Qed.

(** A step that reads the kernel's state. *)
Lemma refines_gets {A C} (P Q : kernel -> D -> Prop) (g : kernel -> A) (f : A -> K C) f' :
  (forall s, g (diskless s) = g s) -> (forall a, refines (fun s d => P s d /\ g s = a) Q (f' a) (f a)) ->
  refines P Q (lift (gets g) ≫= f') (gets g ≫= f).
Proof. intros Hg H s d HP. rewrite lift_gets, Hg. by apply (H (g s)). Qed.

Lemma refines_modify (P Q : kernel -> D -> Prop) g :
  (forall s, g (diskless s) = diskless (g s)) -> (forall s d, P s d -> Q (g s) d) ->
  refines P Q (lift (modify g)) (modify g).
Proof. intros Hg H s d HP. exists d. split; [|by apply H]. unfold lift, modify. cbn. by rewrite Hg. Qed.

Lemma refines_lift {A} (I : kernel -> D -> Prop) (m : K A) sw :
  (forall s s' d, ide_view s' = ide_view s -> I s d -> I s' d) -> neutral sw m -> (sw = true -> I = R) ->
  refines I I (lift m) m.
Proof.
  intros HI Hm Hsw s d Hs. unfold lift. cbn [bd_st bd_dev].
  assert (forall (r : res kernel A) r' s0 d0, neutral_res sw s0 r r' -> I s0 d0 -> sim_res I r (lift_res d0 r')) as H;
    [|by apply (H _ _ s)].
  clear s d Hs. intros r. induction r as [a s1|msg| | |s1 k IH]; intros r' s0 d0; cbn; try by intros -> _.
  - intros [-> H1] H2. exists d0. split; [done|]. by eapply HI.
  - intros (Es & k' & -> & H1 & H2) H3. specialize (Hsw Es). subst I. exists d0. eexists.
    split_and!; [done|by eapply HI|]. intros s2 d2 H4. cbn. by eapply IH.
Qed.
End sim.

Lemma neutral_bind {A C} sw (m : K A) (f : A -> K C) : neutral sw m -> (forall a, neutral sw (f a)) -> neutral sw (m ≫= f).
Proof.
  intros Hm Hf s. specialize (Hm s). unfold mbind, K_bind, M_bind.
  assert (forall s0 (r r' : res kernel A), neutral_res sw s0 r r' -> neutral_res sw s0 (res_bind f r) (res_bind f r')) as H; [|by apply H].
  intros s0 r. revert s0. induction r as [a s1|msg| | |s1 k IH]; intros s0 r'; cbn; try by intros ->.
  - intros [-> H]. specialize (Hf a s1). cbn. destruct (f a s1) as [b s2|msg| | |s2 k2]; cbn in *; try done.
    + destruct Hf. split; [done|congruence].
    + destruct Hf as (? & k' & ? & ? & ?). split; [done|]. exists k'. split_and!; [done|congruence|done].
  - intros (? & k' & -> & H1 & H2). split; [done|]. eexists. split_and!; [done|done|]. intros s2. by apply IH, H2.
Qed.

Lemma neutral_gets {A} sw (f : kernel -> A) : (forall s, f (diskless s) = f s) -> neutral sw (gets f).
Proof. intros H s. split; [|done]. unfold gets. by rewrite H. Qed.

Lemma neutral_modify sw g :
  (forall s, g (diskless s) = diskless (g s)) -> (forall s, ide_view (g s) = ide_view s) -> neutral sw (modify g).
Proof. intros H1 H2 s. split; [|done]. unfold modify. by rewrite H1. Qed.

Lemma neutral_swtch : neutral true swtch.
Proof. intros s. split; [done|]. eexists. by split_and!. Qed.

(** Goes through code step by step. *)
Ltac neutral_steps :=
  repeat match goal with
  | |- neutral _ (_ ≫= _) => apply neutral_bind; [|intros ?]
  | |- neutral _ (match ?x with _ => _ end) => destruct x
  | |- neutral _ (when _ _) => unfold when
  | |- neutral _ (gets _) => by apply neutral_gets
  | |- neutral _ (modify _) => by apply neutral_modify
  | |- neutral _ (set_cpu _) => by apply neutral_modify
  | |- neutral _ (set_proc _ _) => by apply neutral_modify
  end; try done; auto using neutral_swtch.

Lemma neutral_acquire sw l : neutral sw (acquire l).
Proof. unfold acquire, pushcli, readeflags, cli, holding, xchg_locked, set_lock, hang. neutral_steps. Qed.

Lemma neutral_release sw l : neutral sw (release l).
Proof. unfold release, popcli, readeflags, sti, holding, xchg_locked, set_lock. neutral_steps. Qed.

#[local] Hint Resolve neutral_acquire neutral_release : core.

Lemma neutral_wakeup sw chan : neutral sw (wakeup chan).
Proof. unfold wakeup, wakeup1. neutral_steps. Qed.

Lemma neutral_sleep chan lk : neutral true (sleep chan lk).
Proof. unfold sleep, sched, deref_proc, readeflags, holding. neutral_steps. Qed.

#[local] Hint Resolve neutral_wakeup neutral_sleep : core.

Lemma neutral_sleep_while fuel cond chan lk : neutral true cond -> neutral true (sleep_while fuel cond chan lk).
Proof. intros H. induction fuel; cbn [sleep_while]; neutral_steps. Qed.

(** ** The driver *)

Section driver.
Context {D : Type} `{!Device D, !Ata D} (spin : nat) (Hspin : (ata_patience <= spin)%nat).

(** The blocks of [k_disk], by drive and sector. *)
Definition blocks (s : kernel) : sectors := fun dr n => default block0 (k_disk s !! (dr, n)).

(** Buffers and disk hold blocks of bytes. *)
Definition ide_data (s : kernel) : Prop :=
  Forall (fun bf => length (b_data bf) = 512%nat /\ Forall is_u8 (b_data bf) /\ 0 <= b_blockno bf) (bc_buf (k_bcache s)) /\
  map_Forall (fun _ l => length l = 512%nat /\ Forall is_u8 l) (k_disk s).

(** The controller while the buffer [bf] is the active request. *)
Definition serving (s : kernel) (bf : buf) (d : D) : Prop :=
  if bflag bf B_DIRTY then ata_idle (blocks s) d
  else ata_reading (blocks s) (Z.land (b_dev bf) 1) (b_blockno bf) d.

(** The kernel and the controller: the active request is the head of the
    queue. *)
Definition ide_rel (s : kernel) (d : D) : Prop :=
  ide_data s /\
  match k_idequeue s with
  | None => ata_idle (blocks s) d
  | Some b => serving s (buf_at s b) d
  end.

Lemma ide_rel_view s s' d : ide_view s' = ide_view s -> ide_rel s d -> ide_rel s' d.
Proof.
  unfold ide_view, ide_rel, ide_data, serving, buf_at, blocks. intros [= E1 E2 E3]. by rewrite E1, E2, E3.
Qed.

Lemma idewait_poll {S} n chk (d : D) (s : S) :
  idewait n chk (Mkboard d s) = match poll n d with
    | Some (st, d') => Ok (if chk && negb (Z.land st 33 =? 0) then -1 else 0) (Mkboard d' s)
    | None => NoFuel
    end.
Proof.
  revert d; induction n as [|n IH]; intros d; cbn [idewait poll];
    unfold inb, in_reg, mbind, M_bind, mret, M_ret; cbn [bd_dev bd_st res_bind];
    destruct (d_in (Port8 503) d) as [v d1]; cbn [res_bind]; case_match; done || apply IH.
Qed.

Lemma buf_at_data s b : ide_data s -> let bf := buf_at s b in
  length (b_data bf) = 512%nat /\ Forall is_u8 (b_data bf) /\ 0 <= b_blockno bf.
Proof.
  intros [H _]. unfold buf_at. destruct (bc_buf (k_bcache s) !! b) eqn:E; simpl.
  - by apply (Forall_lookup_1 _ _ _ _ H E).
  - split_and!; [done| |done]. unfold block0. apply Forall_replicate. wrap_lia.
Qed.

(** What the driver writes to the command block. *)
Lemma idestart_command dev n :
  0 <= n < FSSIZE ->
  let sector := i32 (n * (BSIZE / 512)) in
  [(Port8 498, u8 (BSIZE / 512)); (Port8 499, u8 (Z.land sector 255)); (Port8 500, u8 (Z.land (Z.shiftr sector 8) 255));
   (Port8 501, u8 (Z.land (Z.shiftr sector 16) 255));
   (Port8 502, u8 (Z.lor (Z.lor 224 (Z.shiftl (Z.land dev 1) 4)) (Z.land (Z.shiftr sector 24) 15)))] =
  take 5 (command 0 (Z.land dev 1) n).
Proof.
  intros Hn sector. unfold FSSIZE in Hn. assert (Es : sector = n).
  { unfold sector. change (BSIZE / 512) with 1. rewrite Z.mul_1_r. apply i32_id. unfold is_i32. lia. }
  unfold command. cbn [take]. rewrite Es. rewrite !Z.shiftr_div_pow2 by lia.
  change 255 with (Z.ones 8). change 15 with (Z.ones 4). rewrite !Z.land_ones by lia.
  assert (Hd : Z.land dev 1 = 0 \/ Z.land dev 1 = 1).
  { replace (Z.land dev 1) with (dev mod 2) by (symmetry; apply (Z.land_ones dev 1); lia). pose proof (Z.mod_pos_bound dev 2 ltac:(lia)). lia. }
  assert (E0 : n / 2 ^ 24 = 0) by (apply Z.div_small; lia). rewrite E0. change (0 mod 2 ^ 4) with 0.
  assert (Hu : forall v, u8 (v mod 2 ^ 8) = v mod 2 ^ 8) by (intros v; apply u8_id; wrap_unfold; apply Z.mod_pos_bound; lia).
  rewrite !Hu. destruct Hd as [-> | ->]; done.
Qed.

Lemma drive_range dev : 0 <= Z.land dev 1 <= 1.
Proof.
  replace (Z.land dev 1) with (dev mod 2) by (symmetry; apply (Z.land_ones dev 1); lia).
  pose proof (Z.mod_pos_bound dev 2 ltac:(lia)). lia.
Qed.

(** The writes of [idestart] up to the command, from an idle controller. *)
Lemma idestart_setup b s (d : D) :
  ide_data s -> ata_idle (blocks s) d ->
  let bf := buf_at s b in
  (FSSIZE <=? b_blockno bf) = false ->
  exists d1, ata_idle (blocks s) d1 /\
    idestart_ports spin (Some b) (Mkboard d (diskless s)) =
    (if bflag bf B_DIRTY then outb 503 48;; out_words 496 (words_of_bytes (b_data bf)) else outb 503 32)
      (Mkboard (outs (take 5 (command 0 (Z.land (b_dev bf) 1) (b_blockno bf))) d1) (diskless s)).
Proof.
  intros Hdata Hi bf Hb. destruct (ata_idle_poll (blocks s) d Hi) as (st & d1 & E1 & H1).
  exists (d_out (Port8 1014) 0 d1). split; [by apply ata_control|].
  cbn [idestart_ports]. rewrite lift_gets. change (buf_at (diskless s) b) with bf. rewrite Hb. change (7 <? BSIZE / 512) with false. cbv iota.
  rewrite (bind_ok _ _ _ 0 (Mkboard d1 (diskless s))) by (rewrite idewait_poll; by rewrite (poll_mono _ spin d _ E1 Hspin)).
  destruct (buf_at_data s b Hdata) as (_ & _ & Hn). fold bf in Hn.
  rewrite <- idestart_command by lia. done.
Qed.

Lemma blocks_write s dev n l dr m :
  blocks (s <| k_disk ::= <[(Z.land dev 1, n) := l]> |>) dr m = set_sector (blocks s) (Z.land dev 1) n l dr m.
Proof.
  unfold blocks, set_sector. cbn. case_bool_decide as E.
  - destruct E as [-> ->]. by rewrite lookup_insert_eq.
  - rewrite lookup_insert_ne; [done|]. intros [= <- <-]. by apply E.
Qed.

Lemma idestart_refines b :
  refines ide_rel (fun s d => ide_data s /\ ata_idle (blocks s) d /\ k_idequeue s = Some b) ide_rel
    (idestart_ports spin (Some b)) (idestart (Some b)).
Proof.
  intros s d (Hdata & Hi & Hq). destruct (buf_at_data s b Hdata) as (Hl & Hb & Hn). set (bf := buf_at s b) in *.
  unfold idestart. unfold mbind, K_bind, M_bind, gets. cbn [res_bind]. fold bf.
  destruct (FSSIZE <=? b_blockno bf) eqn:Ef.
  { cbn [idestart_ports]. rewrite lift_gets. change (buf_at (diskless s) b) with bf. by rewrite Ef. }
  destruct (idestart_setup b s d Hdata Hi Ef) as (d1 & Hi1 & ->). fold bf.
  assert (Hn' : 0 <= b_blockno bf < 2 ^ 28) by (unfold FSSIZE in Ef; lia).
  destruct (bflag bf B_DIRTY) eqn:Ed; cbn [when].
  - unfold disk_write, modify, outb, out_reg, mbind, M_bind. cbn [res_bind bd_dev bd_st].
    rewrite out_words_outs. eexists. split; [reflexivity|].
    set (s' := s <| k_disk ::= _ |>). split.
    { destruct Hdata as [G1 G2]. split; [done|]. by apply map_Forall_insert_2. }
    change (k_idequeue s') with (k_idequeue s). rewrite Hq. unfold serving. change (buf_at s' b) with bf. rewrite Ed.
    pose proof (ata_data_out _ _ _ _ (words_of_bytes (b_data bf)) (ata_write _ _ _ _ Hi1 (drive_range (b_dev bf)) Hn') ltac:(by apply length_words)) as H.
    rewrite (bytes_words _ 128) in H by done. eapply ata_ext; [exact H|]. intros dr m. apply blocks_write.
  - eexists. split; [reflexivity|]. split; [done|]. rewrite Hq. unfold serving. fold bf. rewrite Ed.
    exact (ata_read _ _ _ _ Hi1 (drive_range (b_dev bf)) Hn').
Qed.

(** The controller is idle, as between the end of a request and the start of the
    next. *)
Definition ide_between (s : kernel) (d : D) : Prop := ide_data s /\ ata_idle (blocks s) d.

Lemma ide_between_view s s' d : ide_view s' = ide_view s -> ide_between s d -> ide_between s' d.
Proof. unfold ide_view, ide_between, ide_data, blocks. intros [= E1 E2 E3]. by rewrite E1, E3. Qed.

Lemma ide_data_alter s b f :
  ide_data s -> (forall x, b_blockno (f x) = b_blockno x) ->
  (forall x, length (b_data x) = 512%nat -> Forall is_u8 (b_data x) ->
     length (b_data (f x)) = 512%nat /\ Forall is_u8 (b_data (f x))) -> ide_data (with_buf b f s).
Proof.
  intros [H1 H2] Hn Hf. split; [|done]. cbn. apply Forall_alter; [done|]. intros x _ (G1 & G2 & G3).
  destruct (Hf x G1 G2). by rewrite Hn.
Qed.

Lemma set_buf_between b f :
  (forall x, b_blockno (f x) = b_blockno x) -> (forall x, b_data (f x) = b_data x) ->
  refines ide_rel ide_between ide_between (lift (set_buf b f)) (set_buf b f).
Proof.
  intros Hn Hd. apply refines_modify; [done|]. intros s d [H1 H2]. split; [|done].
  apply ide_data_alter; [done|done|]. intros x. by rewrite Hd.
Qed.

Lemma sector_data s dr n : ide_data s -> length (blocks s dr n) = 512%nat /\ Forall is_u8 (blocks s dr n).
Proof.
  intros [_ H]. unfold blocks. destruct (k_disk s !! (dr, n)) eqn:E; simpl; [by apply (map_Forall_lookup_1 _ _ _ _ H E)|].
  split; [done|]. apply Forall_replicate. wrap_lia.
Qed.

(** The transfer of the data that was read. *)
Lemma fetch_refines b bf :
  refines ide_rel (fun s d => ide_data s /\ serving s bf d) ide_between
    (if negb (bflag bf B_DIRTY) then
       r ← idewait spin true;
       if 0 <=? r then
         l ← in_words 496 (Z.to_nat (BSIZE / 4));
         lift (set_buf b (fun x => x <| b_data := bytes_of_words l |>))
       else mret tt
     else mret tt)
    (when (negb (bflag bf B_DIRTY) && true)
       (d ← gets (fun s => disk_block s (b_dev bf) (b_blockno bf)); set_buf b (fun x => x <| b_data := d |>))).
Proof.
  intros s d [Hdata Hs]. unfold serving in Hs. destruct (bflag bf B_DIRTY); cbn [negb andb when].
  { by exists d. }
  destruct (ata_read_poll _ _ _ _ Hs) as (st & d1 & E1 & E2 & H1).
  destruct (sector_data s (Z.land (b_dev bf) 1) (b_blockno bf) Hdata) as [Hl Hb].
  destruct (ata_data_in _ _ _ _ H1 Hl) as (d2 & E3 & H2).
  rewrite (bind_ok _ _ _ 0 (Mkboard d1 (diskless s))).
  2: { rewrite idewait_poll, (poll_mono _ spin _ _ E1 Hspin), E2. done. }
  cbn [Z.leb Z.compare]. rewrite (bind_ok _ _ _ _ (Mkboard d2 (diskless s)) ltac:(rewrite in_words_ins;
    change (Z.to_nat (BSIZE / 4)) with 128%nat; rewrite E3; reflexivity)).
  rewrite words_u32, (bytes_words _ 128) by done. exists d2. split; [done|]. split; [|exact H2].
  by apply (ide_data_alter s b (fun x => x <| b_data := _ |>)).
Qed.

Lemma ideintr_refines : refines ide_rel ide_rel ide_rel (ideintr_ports spin) (ideintr true).
Proof.
  assert (Hlift : forall sw (m : K unit), neutral sw m -> refines ide_rel ide_rel ide_rel (lift m) m)
    by (intros sw m Hm; by apply (refines_lift _ ide_rel _ sw ide_rel_view)).
  unfold ideintr_ports, ideintr. eapply refines_bind; [by apply (Hlift true)|]. intros _.
  apply refines_gets; [done|]. intros [b|]; [|eapply refines_pre; [|by apply (Hlift true)]; by intros s d []].
  apply refines_gets; [done|]. intros bf.
  apply (refines_bind _ _ (fun s d => ide_data s /\ serving s bf d)).
  { apply refines_modify; [done|]. intros s d (([H1 H2] & Hq) & Hbf). split; [done|]. by rewrite Hq, Hbf in H2. }
  intros _. eapply refines_bind; [apply fetch_refines|]. intros _.
  eapply refines_bind; [by apply set_buf_between|]. intros _. eapply refines_bind; [by apply set_buf_between|]. intros _.
  eapply refines_bind; [by apply (refines_lift _ ide_between _ false ide_between_view)|]. intros _.
  apply refines_gets; [done|]. intros q'. apply (refines_bind _ _ ide_rel); [|intros _; by apply (Hlift true)].
  destruct q' as [b'|].
  - eapply refines_pre; [|apply idestart_refines]. by intros s d [[H1 H2] H3].
  - intros s d [[H1 H2] H3]. exists d. split; [done|]. split; [done|]. by rewrite H3.
Qed.

(** ** The request queue *)

(** An assignment to a link of the queue. *)
Lemma set_qnext_refines b q h :
  let f := fun x : buf => x <| b_qnext := q |> in
  let I := fun s d => ide_rel s d /\ k_idequeue s = h in
  refines ide_rel I I (lift (set_buf b f)) (set_buf b f).
Proof.
  intros f I. apply refines_modify; [done|]. intros s d [[H1 H2] Hq]. fold (with_buf b f s). split; [|done]. split.
  - by apply ide_data_alter.
  - change (k_idequeue (with_buf b f s)) with (k_idequeue s). rewrite Hq in *. destruct h as [h|]; [|done].
    assert (E : forall x, buf_at (with_buf b f s) x = f (buf_at s x) \/ buf_at (with_buf b f s) x = buf_at s x).
    { intros x. unfold buf_at. cbn. destruct (decide (b = x)) as [->|Hx].
      - rewrite list_lookup_alter_eq. destruct (_ !! x); [by left|by right].
      - rewrite list_lookup_alter_ne by done. by right. }
    unfold serving in *. by destruct (E h) as [-> | ->].
Qed.

Lemma queue_append_refines fuel p b h :
  let I := fun s d => ide_rel s d /\ k_idequeue s = h in
  refines ide_rel I I (lift (queue_append fuel (Some p) b)) (queue_append fuel (Some p) b).
Proof.
  intros I. revert p; induction fuel as [|fuel IH]; intros p; [done|].
  intros s d HI. cbn [queue_append]. unfold lift, mbind, K_bind, M_bind, gets. cbn [bd_st bd_dev res_bind].
  change (buf_at (diskless s) p) with (buf_at s p). destruct (b_qnext (buf_at s p)) as [q|].
  - by apply IH.
  - by apply (set_qnext_refines p (Some b) h).
Qed.

(** From the walk along the queue on. *)
Lemma iderw_queue fuel b q :
  q <> Some b ->
  refines ide_rel (fun s d => ide_rel s d /\ k_idequeue s = q) ide_rel
    (lift (queue_append NBUF q b);;
     q' ← lift (gets k_idequeue);
     when (bool_decide (q' = Some b)) (idestart_ports spin (Some b));;
     lift (sleep_while fuel (gets (fun s => negb (synced (buf_at s b)))) (Ch_buf b) L_idelock);;
     lift (release L_idelock))
    (queue_append NBUF q b;;
     q' ← gets k_idequeue;
     when (bool_decide (q' = Some b)) (idestart (Some b));;
     sleep_while fuel (gets (fun s => negb (synced (buf_at s b)))) (Ch_buf b) L_idelock;;
     release L_idelock).
Proof.
  intros Hq. assert (Htail : refines ide_rel ide_rel ide_rel
    (lift (sleep_while fuel (gets (fun s => negb (synced (buf_at s b)))) (Ch_buf b) L_idelock);; lift (release L_idelock))
    (sleep_while fuel (gets (fun s => negb (synced (buf_at s b)))) (Ch_buf b) L_idelock;; release L_idelock)).
  { eapply refines_bind; [|intros _]; apply (refines_lift _ ide_rel _ true ide_rel_view); try done.
    by apply neutral_sleep_while, neutral_gets. }
  destruct q as [h|].
  - eapply refines_bind; [apply queue_append_refines|]. intros _. apply refines_gets; [done|]. intros q'.
    intros s d [[H1 H2] H3]. rewrite bool_decide_false by congruence. by apply Htail.
  - apply (refines_bind _ _ (fun s d => ide_between s d /\ k_idequeue s = Some b)).
    { apply refines_modify; [done|]. intros s d [[H1 H2] H3]. rewrite H3 in H2. done. }
    intros _. apply refines_gets; [done|]. intros q'.
    destruct (bool_decide (q' = Some b)) eqn:E; cbn [when].
    + eapply refines_bind; [|intros _; exact Htail]. eapply refines_pre; [|apply idestart_refines]. by intros s d [[[H1 H2] H3] _].
    + intros s d [[_ H2] H3]. apply bool_decide_eq_false in E. congruence.
Qed.

Lemma iderw_refines fuel b :
  refines ide_rel (fun s d => ide_rel s d /\ k_idequeue s <> Some b) ide_rel (iderw_ports spin fuel b) (iderw fuel b).
Proof.
  set (I := fun s d => ide_rel s d /\ k_idequeue s <> Some b).
  assert (HI : forall s s' d, ide_view s' = ide_view s -> I s d -> I s' d).
  { intros s s' d E [H1 H2]. split; [by eapply ide_rel_view|]. by injection E as _ -> _. }
  unfold iderw_ports, iderw. apply refines_gets; [done|]. intros bf.
  destruct (negb (bflag bf B_BUSY)); [done|]. destruct (synced bf); [done|].
  apply refines_gets; [done|]. intros hd. destruct (_ && _); [done|].
  apply (refines_pre _ I); [by intros s d [[H _] _]|].
  eapply refines_bind; [by apply (refines_lift _ I _ false HI)|]. intros _.
  intros s d Hs. set (q := k_idequeue s). assert (Hs' : ide_rel s d /\ k_idequeue s = q) by (split; [apply Hs|done]).
  assert (Hqb : q <> Some b) by apply Hs. clearbody q. clear Hs. revert s d Hs'.
  eapply refines_bind; [apply set_qnext_refines|]. intros _. apply refines_gets; [done|]. intros q0 s d [H1 H2].
  assert (q0 = q) as -> by (destruct H1; congruence). by apply (iderw_queue fuel b q Hqb).
Qed.
End driver.


(** Process 0 reads block 5 of drive 1 on the controller [sim]. *)
Definition sim0 : sim := Mksim ∅ ∅ [] None false.

Lemma disk_ready_rel : ide_rel disk_ready sim0.
Proof.
  assert (E1 : k_disk disk_ready = ∅) by (vm_compute; reflexivity).
  assert (E2 : k_idequeue disk_ready = None) by (vm_compute; reflexivity).
  assert (E3 : forallb (fun bf => bool_decide (b_data bf = block0) && (0 <=? b_blockno bf)) (bc_buf (k_bcache disk_ready)) = true)
    by (vm_compute; reflexivity).
  split; [split|].
  - apply Forall_forall. intros bf Hbf. rewrite forallb_forall in E3. specialize (E3 bf (proj1 (list_elem_of_In _ _) Hbf)).
    apply andb_true_iff in E3 as [E3 E4]. apply bool_decide_eq_true in E3. rewrite E3. split_and!; [done| |lia].
    apply Forall_replicate. wrap_lia.
  - rewrite E1. apply map_Forall_empty.
  - rewrite E2. split; [|split; reflexivity]. intros dr n. unfold blocks, sim_sectors. by rewrite E1.
Qed.

