(* ===== verification/Bytes.v ===== *)
(** Byte arrays: the data of disk blocks, with the little-endian accesses the
    code makes through [int *], [short *] and structure pointers. *)
From S2P Require Import Prelude.

Definition get8 (l : list Z) (i : nat) : Z := default 0 (l !! i).
Definition put8 (l : list Z) (i : nat) (v : Z) : list Z := <[i := u8 v]> l.

Definition get16 (l : list Z) (i : nat) : Z := get8 l i + 2 ^ 8 * get8 l (i + 1).
Definition put16 (l : list Z) (i : nat) (v : Z) : list Z :=
  put8 (put8 l i v) (i + 1) (v / 2 ^ 8).

Definition get32 (l : list Z) (i : nat) : Z :=
  get8 l i + 2 ^ 8 * get8 l (i + 1) + 2 ^ 16 * get8 l (i + 2) + 2 ^ 24 * get8 l (i + 3).
Definition put32 (l : list Z) (i : nat) (v : Z) : list Z :=
  put8 (put8 (put8 (put8 l i v) (i + 1) (v / 2 ^ 8)) (i + 2) (v / 2 ^ 16)) (i + 3) (v / 2 ^ 24).

(** [n] bytes from offset [i], and the array with [d] copied to offset [i]. *)
Definition slice (l : list Z) (i n : nat) : list Z := take n (drop i l).
Definition splice (l : list Z) (i : nat) (d : list Z) : list Z :=
  take i l ++ d ++ drop (i + length d) l.

(** Arrays of words. *)
Fixpoint get_words (l : list Z) (i n : nat) : list Z :=
  match n with O => [] | S n' => get32 l i :: get_words l (i + 4) n' end.
Fixpoint put_words (l : list Z) (i : nat) (ws : list Z) : list Z :=
  match ws with [] => l | w :: ws' => put_words (put32 l i w) (i + 4) ws' end.

Definition bytes_ok (l : list Z) : Prop := Forall is_u8 l.

(** ** Lengths *)

Lemma length_put8 l i v : length (put8 l i v) = length l.
Proof. apply length_insert. Qed.

Lemma length_put16 l i v : length (put16 l i v) = length l.
Proof. unfold put16. by rewrite !length_put8. Qed.

Lemma length_put32 l i v : length (put32 l i v) = length l.
Proof. unfold put32. by rewrite !length_put8. Qed.

Lemma length_put_words ws l i : length (put_words l i ws) = length l.
Proof. revert l i; induction ws as [|w ws IH]; intros l i; simpl; [done|]. by rewrite IH, length_put32. Qed.

Lemma length_get_words l i n : length (get_words l i n) = n.
Proof. revert i; induction n as [|n IH]; intros i; simpl; auto. Qed.

Lemma length_splice l i d :
  (i + length d <= length l)%nat -> length (splice l i d) = length l.
Proof. intros H. unfold splice. rewrite !length_app, length_take, length_drop. lia. Qed.

Lemma bytes_ok_put8 l i v : bytes_ok l -> bytes_ok (put8 l i v).
Proof. intros H. apply Forall_insert; [done|]. apply u8_range. Qed.

Lemma bytes_ok_put32 l i v : bytes_ok l -> bytes_ok (put32 l i v).
Proof. intros H. unfold put32. by repeat apply bytes_ok_put8. Qed.

Lemma bytes_ok_put16 l i v : bytes_ok l -> bytes_ok (put16 l i v).
Proof. intros H. by do 2 apply bytes_ok_put8. Qed.

Lemma bytes_ok_put_words ws l i : bytes_ok l -> bytes_ok (put_words l i ws).
Proof. revert l i; induction ws as [|w ws IH]; intros l i H; simpl; [done|]. by apply IH, bytes_ok_put32. Qed.

Lemma bytes_ok_splice d o c : bytes_ok d -> bytes_ok c -> bytes_ok (splice d o c).
Proof. intros H1 H2. unfold bytes_ok, splice. rewrite !Forall_app. by split_and!; [apply Forall_take|..|apply Forall_drop]. Qed.

Lemma get8_range d j : bytes_ok d -> 0 <= get8 d j < 256.
Proof.
  intros H. unfold get8. destruct (d !! j) as [v|] eqn:E; simpl; [|lia].
  apply (Forall_lookup_1 _ _ _ _ H E).
Qed.

Lemma get32_u32 d j : bytes_ok d -> is_u32 (get32 d j).
Proof.
  intros H. unfold get32, is_u32.
  pose proof (get8_range d j H). pose proof (get8_range d (j + 1) H).
  pose proof (get8_range d (j + 2) H). pose proof (get8_range d (j + 3) H). lia.
Qed.

Lemma get_words_u32 d j n : bytes_ok d -> Forall is_u32 (get_words d j n) /\ length (get_words d j n) = n.
Proof.
  intros H. revert j; induction n as [|n IH]; intros j; simpl; [done|].
  destruct (IH (j + 4)%nat) as [H1 H2]. split; [|by rewrite H2]. constructor; [by apply get32_u32|done].
Qed.

Lemma get8_u8 l i : bytes_ok l -> is_u8 (get8 l i).
Proof. apply get8_range. Qed.

Lemma get16_u16 l i : bytes_ok l -> 0 <= get16 l i < 2 ^ 16.
Proof. intros H. unfold get16. pose proof (get8_range l i H). pose proof (get8_range l (i + 1) H). lia. Qed.

(** ** Reading back *)

Lemma get8_put8 l i j v :
  (i < length l)%nat -> get8 (put8 l i v) j = if decide (j = i) then u8 v else get8 l j.
Proof.
  intros H. unfold get8, put8. case_decide as E.
  - subst. by rewrite list_lookup_insert_eq.
  - by rewrite list_lookup_insert_ne.
Qed.

Lemma get8_put8_ne l i j v : j <> i -> get8 (put8 l i v) j = get8 l j.
Proof. intros H. unfold get8, put8. by rewrite list_lookup_insert_ne. Qed.

Lemma get8_put32_ne l i j v : (j < i \/ i + 4 <= j)%nat -> get8 (put32 l i v) j = get8 l j.
Proof. intros H. unfold put32. by rewrite !get8_put8_ne by lia. Qed.

Lemma get32_put32 l i v : (i + 4 <= length l)%nat -> get32 (put32 l i v) i = u32 v.
Proof.
  intros H. unfold get32, put32.
  rewrite !get8_put8 by (rewrite ?length_put8; lia).
  repeat (case_decide; try lia). wrap_lia.
Qed.

Lemma get32_put32_ne l i j v :
  (j + 4 <= i \/ i + 4 <= j)%nat -> get32 (put32 l i v) j = get32 l j.
Proof. intros H. unfold get32. by rewrite !get8_put32_ne by lia. Qed.

Lemma get32_put_words_ne ws l i j :
  (j + 4 <= i \/ i + 4 * length ws <= j)%nat -> get32 (put_words l i ws) j = get32 l j.
Proof.
  revert l i; induction ws as [|w ws IH]; intros l i H; simpl in *; [done|].
  rewrite IH by lia. apply get32_put32_ne. lia.
Qed.

Lemma get_words_put_words ws l i :
  (i + 4 * length ws <= length l)%nat -> Forall is_u32 ws ->
  get_words (put_words l i ws) i (length ws) = ws.
Proof.
  revert l i; induction ws as [|w ws IH]; intros l i H Hw; simpl in *; [done|].
  apply Forall_cons in Hw as [Hw Hws]. f_equal.
  - rewrite get32_put_words_ne by lia. rewrite get32_put32 by lia. by apply u32_id.
  - apply IH; [rewrite length_put32; lia|done].
Qed.

Lemma get_words_lookup l i n k :
  (k < n)%nat -> get_words l i n !! k = Some (get32 l (i + 4 * k)).
Proof.
  revert i k; induction n as [|n IH]; intros i k H; [lia|]. destruct k as [|k]; simpl.
  - do 2 f_equal. lia.
  - rewrite IH by lia. do 2 f_equal. lia.
Qed.

Lemma get32_put_words ws l i j w :
  (i + 4 * length ws <= length l)%nat -> ws !! j = Some w ->
  get32 (put_words l i ws) (i + 4 * j) = u32 w.
Proof.
  revert l i j; induction ws as [|w' ws IH]; intros l i j H Hj; [done|]. simpl in H.
  destruct j as [|j]; simpl in Hj; cbn [put_words].
  - injection Hj as ->. replace (i + 4 * 0)%nat with i by lia.
    rewrite get32_put_words_ne by lia. apply get32_put32. lia.
  - replace (i + 4 * S j)%nat with (i + 4 + 4 * j)%nat by lia. apply IH; [|done].
    rewrite length_put32. lia.
Qed.
