(* ===== verification/Bio.v ===== *)
(** bio.c: the buffer cache, a least-recently-used list of disk blocks.

    The doubly linked list runs through the buffers and the list head; a link
    is [None] for [&bcache.head].  The disk driver is the [disk_rw] of an
    [Env]: ide.c's [iderw], or memide.c's. *)
From S2P Require Import Prelude Memory Kernel CString Spinlock Sched Ide.

(** What the code above the disk depends on: the driver, and the number of
    times a process waiting for a condition may be woken in vain. *)
Class Env := { wakeups : nat; disk_rw : nat -> K unit }.

Definition ide_env (n : nat) : Env := {| wakeups := n; disk_rw := iderw n |}.
Definition mem_env (n : nat) (disksize : Z) : Env :=
  {| wakeups := n; disk_rw := mem_iderw disksize |}.

(** ** Links *)

Definition next_of (s : kernel) (p : option nat) : option nat :=
  match p with None => bc_head_next (k_bcache s) | Some b => b_next (buf_at s b) end.
Definition prev_of (s : kernel) (p : option nat) : option nat :=
  match p with None => bc_head_prev (k_bcache s) | Some b => b_prev (buf_at s b) end.

Definition set_next (p v : option nat) : K unit :=
  match p with
  | None => modify (fun s => s <| k_bcache ::= fun c => c <| bc_head_next := v |> |>)
  | Some b => set_buf b (fun x => x <| b_next := v |>)
  end.
Definition set_prev (p v : option nat) : K unit :=
  match p with
  | None => modify (fun s => s <| k_bcache ::= fun c => c <| bc_head_prev := v |> |>)
  | Some b => set_buf b (fun x => x <| b_prev := v |>)
  end.

(** The insertion of [b] after the list head, shared by [binit] and [brelse]:
    [b->next = head.next; b->prev = &head; head.next->prev = b; head.next = b]. *)
Definition link_front (b : nat) : K unit :=
  h ← gets (fun s => next_of s None);
  set_next (Some b) h;;
  set_prev (Some b) None;;
  h ← gets (fun s => next_of s None);
  set_prev h (Some b);;
  set_next None (Some b).

(** ** bio.c *)

Fixpoint binit_loop (bs : list nat) : K unit :=
  match bs with
  | [] => mret tt
  | b :: bs' =>
      link_front b;;
      set_buf b (fun x => x <| b_dev := u32 (-1) |>);;
      binit_loop bs'
  end.

Definition binit : K unit :=
  initlock L_bcache "bcache";;
  set_prev None None;;
  set_next None None;;
  binit_loop (seq 0 NBUF).

(** The first buffer that satisfies [f] from [p], along [link]. *)
Fixpoint scan_list (fuel : nat) (link : buf -> option nat) (f : buf -> bool) (s : kernel)
    (p : option nat) : option nat :=
  match p with
  | None => None
  | Some b =>
      match fuel with
      | O => None
      | S fuel' =>
          if f (buf_at s b) then Some b
          else scan_list fuel' link f s (link (buf_at s b))
      end
  end.

Definition is_block (dev blockno : Z) (b : buf) : bool :=
  (b_dev b =? dev) && (b_blockno b =? blockno).

Definition recyclable (b : buf) : bool :=
  negb (bflag b B_BUSY) && negb (bflag b B_DIRTY).

(** [b->dev = dev; b->blockno = blockno; b->flags = B_BUSY] *)
Definition retag (dev blockno : Z) (x : buf) : buf :=
  x <| b_dev := dev |> <| b_blockno := blockno |> <| b_flags := B_BUSY |>.

(** From the label [loop]; [fuel] is the number of [goto loop]. *)
Fixpoint bget_loop (fuel : nat) (dev blockno : Z) : K nat :=
  hit ← gets (fun s => scan_list NBUF b_next (is_block dev blockno) s (next_of s None));
  match hit with
  | Some b =>
      busy ← gets (fun s => bflag (buf_at s b) B_BUSY);
      if negb busy then
        set_buf b (bset B_BUSY);;
        release L_bcache;;
        mret b
      else
        match fuel with
        | O => nofuel
        | S fuel' => sleep (Ch_buf b) (Some L_bcache);; bget_loop fuel' dev blockno
        end
  | None =>
      free ← gets (fun s => scan_list NBUF b_prev recyclable s (prev_of s None));
      match free with
      | Some b =>
          set_buf b (retag dev blockno);;
          release L_bcache;;
          mret b
      | None => panic "bget: no buffers"
      end
  end.

Section bio.
Context {E : Env}.

Definition bget (dev blockno : Z) : K nat :=
  acquire L_bcache;;
  bget_loop wakeups dev blockno.

Definition bread (dev blockno : Z) : K nat :=
  b ← bget dev blockno;
  valid ← gets (fun s => bflag (buf_at s b) B_VALID);
  when (negb valid) (disk_rw b);;
  mret b.

Definition bwrite (b : nat) : K unit :=
  busy ← gets (fun s => bflag (buf_at s b) B_BUSY);
  if negb busy then panic "bwrite" else
  set_buf b (bset B_DIRTY);;
  disk_rw b.
End bio.

Definition brelse (b : nat) : K unit :=
  busy ← gets (fun s => bflag (buf_at s b) B_BUSY);
  if negb busy then panic "brelse" else
  acquire L_bcache;;
  n ← gets (fun s => next_of s (Some b));
  p ← gets (fun s => prev_of s (Some b));
  set_prev n p;;
  p ← gets (fun s => prev_of s (Some b));
  n ← gets (fun s => next_of s (Some b));
  set_next p n;;
  link_front b;;
  set_buf b (bclear B_BUSY);;
  wakeup (Ch_buf b);;
  release L_bcache.

(** ** The list *)

(** A segment of the list: from [u], through the buffers of [l], to [v]. *)
Fixpoint segment (nx pv : option nat -> option nat) (u : option nat) (l : list nat)
    (v : option nat) : Prop :=
  match l with
  | [] => nx u = v /\ pv v = u
  | x :: l' => nx u = Some x /\ pv (Some x) = u /\ segment nx pv (Some x) l' v
  end.

(** [l] is the order of the buffers, most recently used first. *)
Definition lru (s : kernel) (l : list nat) : Prop :=
  segment (next_of s) (prev_of s) None l None.

Lemma segment_app nx pv u l1 x l2 v :
  segment nx pv u (l1 ++ x :: l2) v <-> segment nx pv u l1 (Some x) /\ segment nx pv (Some x) l2 v.
Proof.
  revert u; induction l1 as [|y l1 IH]; intros u; simpl; [tauto|]. rewrite IH. tauto.
Qed.

(** Links outside the segment do not matter. *)
Lemma segment_ext nx pv nx' pv' u l v :
  (forall p, p = u \/ (exists x, p = Some x /\ x ∈ l) -> nx' p = nx p) ->
  (forall p, p = v \/ (exists x, p = Some x /\ x ∈ l) -> pv' p = pv p) ->
  segment nx pv u l v -> segment nx' pv' u l v.
Proof.
  revert u; induction l as [|x l IH]; intros u Hn Hp; simpl.
  - intros [H1 H2]. rewrite Hn, Hp by (by left). done.
  - intros (H1 & H2 & H3). rewrite Hn by (by left).
    rewrite Hp by (right; exists x; split; [done|by left]). split_and!; [done|done|].
    apply IH; [| |done].
    + intros p [->|(y & -> & Hy)]; apply Hn; right; [exists x|exists y]; split; try done;
        [by left|by right].
    + intros p [->|(y & -> & Hy)]; apply Hp; [by left|right; exists y]; split; [done|by right].
Qed.

Definition upd (f : option nat -> option nat) (p v : option nat) : option nat -> option nat :=
  fun q => if decide (q = p) then v else f q.

Lemma upd_eq f p v : upd f p v p = v.
Proof. unfold upd. by rewrite decide_True. Qed.

Lemma upd_ne f p q v : q <> p -> upd f p v q = f q.
Proof. intros H. unfold upd. by rewrite decide_False. Qed.

Abbreviation cells l := (Some <$> l).

(** The end of a segment moved to [v']. *)
Lemma segment_retarget nx pv u l x v' :
  segment nx pv u l x -> NoDup (u :: cells l) -> v' ∉ cells l -> x ∉ cells l ->
  pv x ∈ u :: cells l /\ segment (upd nx (pv x) v') (upd pv v' (pv x)) u l v'.
Proof.
  revert u; induction l as [|y l IH]; intros u; simpl.
  - intros [H1 H2] _ _ _. rewrite H2. split; [by left|]. by rewrite !upd_eq.
  - intros (H1 & H2 & H3) Hnd Hv Hx. apply NoDup_cons in Hnd as [Hu Hnd].
    apply not_elem_of_cons in Hv as [Hvy Hv]. apply not_elem_of_cons in Hx as [Hxy Hx].
    destruct (IH (Some y) H3 Hnd Hv Hx) as [Hin Hs]. split; [by right|].
    rewrite (upd_ne nx) by (intros ->; done). rewrite (upd_ne pv) by done.
    split_and!; done.
Qed.

Lemma segment_unlink nx pv l1 x l2 :
  segment nx pv None (l1 ++ x :: l2) None -> NoDup (l1 ++ x :: l2) ->
  let p := pv (Some x) in let n := nx (Some x) in
  segment (upd nx p n) (upd pv n p) None (l1 ++ l2) None.
Proof.
  intros Hs Hnd p n. apply segment_app in Hs as [H1 H2].
  apply NoDup_app in Hnd as (Hnd1 & Hdis & Hnd2). apply NoDup_cons in Hnd2 as [Hx2 Hnd2].
  assert (Hx1 : x ∉ l1) by (intros H; apply (Hdis x H); by left).
  assert (Hc1 : forall y, Some y ∈ cells l1 <-> y ∈ l1)
    by (intros y; rewrite list_elem_of_fmap; naive_solver).
  assert (HndN : NoDup (None :: cells l1)).
  { apply NoDup_cons. split; [|by apply NoDup_fmap_2; [intros ?? [= ->]|]].
    rewrite list_elem_of_fmap. naive_solver. }
  destruct l2 as [|y l2]; simpl in H2.
  - destruct H2 as [En Ep]. rewrite app_nil_r. unfold n. rewrite En.
    apply (segment_retarget nx pv None l1 (Some x) None); [done|done| |by rewrite Hc1].
    rewrite list_elem_of_fmap. naive_solver.
  - destruct H2 as (En & Ep & H2). unfold n. rewrite En.
    assert (Hy1 : y ∉ l1) by (intros H; apply (Hdis y H); right; by left).
    destruct (segment_retarget nx pv None l1 (Some x) (Some y)) as [Hp Hs1];
      [done|done|by rewrite Hc1|by rewrite Hc1|].
    apply segment_app. split; [done|]. apply NoDup_cons in Hnd2 as [Hy2 _].
    fold p in Hp. eapply segment_ext; [| |exact H2].
    + intros q Hq. apply upd_ne. intros ->. apply elem_of_cons in Hp as [Hp|Hp].
      { rewrite Hp in Hq. naive_solver. }
      apply list_elem_of_fmap in Hp as (z & Hz & Hz1). rewrite Hz in Hq.
      destruct Hq as [[= ->]|(z' & [= <-] & Hz')]; [done|].
      apply (Hdis z Hz1). right. by right.
    + intros q Hq. apply upd_ne. intros ->. destruct Hq as [Hq|(z & [= <-] & Hz)]; done.
Qed.

Lemma segment_push nx pv l x :
  segment nx pv None l None -> x ∉ l -> NoDup l ->
  let nx1 := upd nx (Some x) (nx None) in
  let pv1 := upd pv (Some x) None in
  segment (upd nx1 None (Some x)) (upd pv1 (nx1 None) (Some x)) None (x :: l) None.
Proof.
  intros Hs Hx Hnd nx1 pv1.
  assert (E1 : nx1 None = nx None) by (unfold nx1; by rewrite upd_ne).
  simpl. rewrite upd_eq, E1.
  assert (Hne : Some x <> nx None).
  { destruct l as [|y l]; simpl in Hs; destruct Hs as [-> _]; [done|].
    intros [= ->]. apply Hx. by left. }
  rewrite (upd_ne pv1) by done. unfold pv1 at 1. rewrite upd_eq. split_and!; [done..|].
  destruct l as [|y l]; simpl in *.
  - destruct Hs as [En Ep]. rewrite En, upd_eq. rewrite upd_ne by done.
    unfold nx1. by rewrite upd_eq.
  - destruct Hs as (En & Ep & Hs). rewrite En, upd_eq. rewrite upd_ne by done.
    unfold nx1 at 1. rewrite upd_eq. split_and!; [done|done|].
    apply not_elem_of_cons in Hx as [Hxy Hx].
    apply NoDup_cons in Hnd as [Hy _]. eapply segment_ext; [| |exact Hs].
    + intros q Hq. unfold nx1. rewrite !upd_ne; [done| |].
      * intros ->. destruct Hq as [[= ->]|(z & [= <-] & Hz)]; done.
      * intros ->. destruct Hq as [Hq|(z & Hq & _)]; done.
    + intros q Hq. unfold pv1. rewrite !upd_ne; [done| |].
      * intros ->. destruct Hq as [Hq|(z & [= <-] & Hz)]; done.
      * intros ->. destruct Hq as [Hq|(z & [= <-] & Hz)]; done.
Qed.

(** ** Links and contents *)

(** What a buffer holds, apart from its list links. *)
Definition contents (b : buf) : Z * Z * Z * option nat * list Z :=
  (b_flags b, b_dev b, b_blockno b, b_qnext b, b_data b).

Definition buf_ok (s : kernel) (p : option nat) : Prop :=
  match p with None => True | Some b => (b < length (bc_buf (k_bcache s)))%nat end.

(** [s'] is [s] with other links: the functions [nx] and [pv]. *)
Record relinked (s s' : kernel) (nx pv : option nat -> option nat) : Prop := {
  rl_rest : s' = s <| k_bcache := k_bcache s' |>;
  rl_len : length (bc_buf (k_bcache s')) = length (bc_buf (k_bcache s));
  rl_next : forall p, next_of s' p = nx p;
  rl_prev : forall p, prev_of s' p = pv p;
  rl_contents : forall b, contents (buf_at s' b) = contents (buf_at s b);
}.

Lemma relinked_refl s : relinked s s (next_of s) (prev_of s).
Proof. split; try done. by destruct s. Qed.

Lemma buf_at_alter f b s x :
  (b < length (bc_buf (k_bcache s)))%nat ->
  buf_at (with_buf b f s) x = if decide (x = b) then f (buf_at s x) else buf_at s x.
Proof.
  intros H. unfold buf_at. simpl. rewrite list_lookup_alter.
  destruct (decide (b = x)) as [->|Hne].
  - rewrite decide_True by done. by destruct (lookup_lt_is_Some_2 _ _ H) as [y ->].
  - by rewrite decide_False by done.
Qed.

Lemma set_next_relink p v s s0 nx pv :
  relinked s0 s nx pv -> buf_ok s0 p ->
  exists s', set_next p v s = Ok tt s' /\ relinked s0 s' (upd nx p v) pv.
Proof.
  intros [R L N P C] Hp. destruct p as [b|]; simpl in Hp.
  - exists (with_buf b (fun x => x <| b_next := v |>) s). split; [done|].
    assert (Hb : (b < length (bc_buf (k_bcache s)))%nat) by (by rewrite L).
    split.
    + rewrite R. reflexivity.
    + by rewrite length_with.
    + intros q. unfold upd. rewrite <- N. destruct q as [x|]; [|done]. cbn [next_of].
      rewrite buf_at_alter by done.
      destruct (decide (x = b)) as [->|]; [by rewrite decide_True|].
      by rewrite decide_False by congruence.
    + intros q. rewrite <- P. destruct q as [x|]; [|done]. cbn [prev_of].
      rewrite buf_at_alter by done. by case_decide.
    + intros x. rewrite <- C, buf_at_alter by done. by case_decide.
  - eexists. split; [reflexivity|]. split.
    + rewrite R. reflexivity.
    + done.
    + intros q. unfold upd. rewrite <- N. by destruct q as [x|].
    + intros q. rewrite <- P. by destruct q.
    + done.
Qed.

Lemma set_prev_relink p v s s0 nx pv :
  relinked s0 s nx pv -> buf_ok s0 p ->
  exists s', set_prev p v s = Ok tt s' /\ relinked s0 s' nx (upd pv p v).
Proof.
  intros [R L N P C] Hp. destruct p as [b|]; simpl in Hp.
  - exists (with_buf b (fun x => x <| b_prev := v |>) s). split; [done|].
    assert (Hb : (b < length (bc_buf (k_bcache s)))%nat) by (by rewrite L).
    split.
    + rewrite R. reflexivity.
    + by rewrite length_with.
    + intros q. rewrite <- N. destruct q as [x|]; [|done]. cbn [next_of].
      rewrite buf_at_alter by done. by case_decide.
    + intros q. unfold upd. rewrite <- P. destruct q as [x|]; [|done]. cbn [prev_of].
      rewrite buf_at_alter by done.
      destruct (decide (x = b)) as [->|]; [by rewrite decide_True|].
      by rewrite decide_False by congruence.
    + intros x. rewrite <- C, buf_at_alter by done. by case_decide.
  - eexists. split; [reflexivity|]. split.
    + rewrite R. reflexivity.
    + done.
    + intros q. rewrite <- N. by destruct q.
    + intros q. unfold upd. rewrite <- P. by destruct q as [x|].
    + done.
Qed.

(** [link_front] is the insertion at the front of [segment_push]. *)
Lemma link_front_relink b s s0 nx pv :
  relinked s0 s nx pv -> buf_ok s0 (Some b) -> buf_ok s0 (nx None) ->
  let nx1 := upd nx (Some b) (nx None) in
  let pv1 := upd pv (Some b) None in
  exists s', link_front b s = Ok tt s' /\
    relinked s0 s' (upd nx1 None (Some b)) (upd pv1 (nx1 None) (Some b)).
Proof.
  intros H Hb Hn nx1 pv1. unfold link_front.
  rewrite (bind_ok (gets _) _ s (nx None) s) by (unfold gets; by rewrite (rl_next _ _ _ _ H)).
  destruct (set_next_relink (Some b) (nx None) s s0 _ _ H Hb) as (s1 & E1 & H1).
  rewrite (bind_ok _ _ _ _ _ E1).
  destruct (set_prev_relink (Some b) None s1 s0 _ _ H1 Hb) as (s2 & E2 & H2).
  rewrite (bind_ok _ _ _ _ _ E2).
  rewrite (bind_ok (gets _) _ s2 (nx1 None) s2) by (unfold gets; by rewrite (rl_next _ _ _ _ H2)).
  destruct (set_prev_relink (nx1 None) (Some b) s2 s0 _ _ H2) as (s3 & E3 & H3).
  { unfold nx1. by rewrite upd_ne. }
  rewrite (bind_ok _ _ _ _ _ E3).
  destruct (set_next_relink None (Some b) s3 s0 _ _ H3 I) as (s4 & E4 & H4).
  by exists s4.
Qed.

(** ** The cache *)

Definition NODEV : Z := u32 (-1).

(** The list [l] orders all the buffers, and no block of a device is cached
    twice. *)
Record cache_inv (s : kernel) (l : list nat) : Prop := {
  ci_lru : lru s l;
  ci_all : l ≡ₚ seq 0 NBUF;
  ci_len : length (bc_buf (k_bcache s)) = NBUF;
  ci_unique : forall x y, (x < NBUF)%nat -> (y < NBUF)%nat ->
    b_dev (buf_at s x) <> NODEV ->
    b_dev (buf_at s x) = b_dev (buf_at s y) ->
    b_blockno (buf_at s x) = b_blockno (buf_at s y) -> x = y;
}.

Lemma ci_elem s l x : cache_inv s l -> x ∈ l <-> (x < NBUF)%nat.
Proof. intros H. rewrite (ci_all _ _ H), elem_of_seq. lia. Qed.

Lemma ci_nodup s l : cache_inv s l -> NoDup l.
Proof. intros H. rewrite (ci_all _ _ H). apply NoDup_seq. Qed.

(** The scans of [bget] look through the list in order. *)
Lemma scan_next s f fuel u l :
  segment (next_of s) (prev_of s) u l None -> (length l <= fuel)%nat ->
  scan_list fuel b_next f s (next_of s u) = find (fun x => f (buf_at s x)) l.
Proof.
  revert fuel u; induction l as [|x l IH]; intros fuel u; simpl.
  - intros [-> _] _. by destruct fuel.
  - intros (-> & _ & Hs) Hf. destruct fuel as [|fuel]; [lia|]. simpl.
    destruct (f (buf_at s x)); [done|]. apply (IH fuel (Some x)); [done|lia].
Qed.

Lemma scan_prev s f fuel v l :
  segment (next_of s) (prev_of s) None l v -> (length l <= fuel)%nat ->
  scan_list fuel b_prev f s (prev_of s v) = find (fun x => f (buf_at s x)) (reverse l).
Proof.
  revert fuel v; induction l as [|x l IH] using rev_ind; intros fuel v.
  - intros [_ ->] _. by destruct fuel.
  - intros [H1 [_ H2]]%segment_app Hf. rewrite length_app in Hf. simpl in Hf.
    rewrite H2. rewrite reverse_app. destruct fuel as [|fuel]; [lia|]. simpl.
    destruct (f (buf_at s x)); [done|]. apply (IH fuel (Some x)); [done|lia].
Qed.

Lemma find_Some_elem {A} (f : A -> bool) l x : find f l = Some x -> x ∈ l /\ f x = true.
Proof. intros [H1 H2]%find_some. split; [by apply list_elem_of_In|done]. Qed.

Lemma find_None_elem {A} (f : A -> bool) l : find f l = None -> forall x, x ∈ l -> f x = false.
Proof. intros H x Hx. eapply find_none in H; [done|by apply list_elem_of_In]. Qed.

(** The state with the cache [C], after a critical section on [bcache.lock]. *)
Definition recached (C : bcache) (s : kernel) : kernel := settled (s <| k_bcache := C |>).

Lemma release_bcache d C s :
  cpu_ok d s -> d < INT_MAX - 1 -> lock_free L_bcache s ->
  release L_bcache ((acquired L_bcache s) <| k_bcache := C |>) = Ok tt (recached C s).
Proof.
  intros H1 H2 H3. change ((acquired L_bcache s) <| k_bcache := C |>)
    with (acquired L_bcache (s <| k_bcache := C |>)). by rewrite (release_acquired d).
Qed.

(** Changing what a buffer holds keeps the order of the list. *)
Lemma lru_with b f s l :
  (b < length (bc_buf (k_bcache s)))%nat ->
  (forall x, b_next (f x) = b_next x /\ b_prev (f x) = b_prev x) ->
  lru s l -> lru (with_buf b f s) l.
Proof.
  intros Hb Hf. apply segment_ext; intros [x|] _; simpl; try done;
    rewrite buf_at_alter by done; (case_decide; [by apply Hf|done]).
Qed.

(** A hit on a free buffer. *)
Lemma bget_hit d fuel dev blockno s l b :
  cache_inv s l -> cpu_ok d s -> d < INT_MAX - 1 -> lock_free L_bcache s ->
  find (fun x => is_block dev blockno (buf_at s x)) l = Some b ->
  bflag (buf_at s b) B_BUSY = false ->
  (acquire L_bcache;; bget_loop fuel dev blockno) s
  = Ok b (recached (k_bcache (with_buf b (bset B_BUSY) s)) s).
Proof.
  intros Hc H1 H2 H3 Hf Hb. rewrite (bind_ok _ _ _ _ _ (acquire_ok d _ _ H1 ltac:(lia) H3)).
  assert (Hlen : (length l <= NBUF)%nat) by (rewrite (ci_all _ _ Hc), length_seq; lia).
  pose proof (scan_next (acquired L_bcache s) (is_block dev blockno) NBUF None l
    (ci_lru _ _ Hc) Hlen) as Hscan.
  assert (E1 : gets (fun s => scan_list NBUF b_next (is_block dev blockno) s (next_of s None))
    (acquired L_bcache s) = Ok (Some b) (acquired L_bcache s)).
  { unfold gets. f_equal. rewrite Hscan. exact Hf. }
  destruct fuel; cbn [bget_loop]; rewrite (bind_ok _ _ _ _ _ E1);
    rewrite (bind_ok (gets _) _ _ false (acquired L_bcache s)) by (unfold gets; f_equal; exact Hb);
    cbn [negb];
    rewrite (bind_ok (set_buf b (bset B_BUSY)) _ _ tt
      ((acquired L_bcache s) <| k_bcache := k_bcache (with_buf b (bset B_BUSY) s) |>) eq_refl);
    rewrite (bind_ok _ _ _ _ _ (release_bcache d _ s H1 H2 H3)); done.
Qed.

(** A miss: the least recently used buffer that is neither busy nor dirty is
    taken, and without one the kernel panics. *)
Lemma bget_miss d fuel dev blockno s l :
  cache_inv s l -> cpu_ok d s -> d < INT_MAX - 1 -> lock_free L_bcache s ->
  find (fun x => is_block dev blockno (buf_at s x)) l = None ->
  (acquire L_bcache;; bget_loop fuel dev blockno) s
  = match find (fun x => recyclable (buf_at s x)) (reverse l) with
    | Some b => Ok b (recached (k_bcache (with_buf b (retag dev blockno) s)) s)
    | None => Panic "bget: no buffers"
    end.
Proof.
  intros Hc H1 H2 H3 Hf. rewrite (bind_ok _ _ _ _ _ (acquire_ok d _ _ H1 ltac:(lia) H3)).
  assert (Hlen : (length l <= NBUF)%nat) by (rewrite (ci_all _ _ Hc), length_seq; lia).
  set (s1 := acquired L_bcache s).
  assert (E1 : gets (fun s => scan_list NBUF b_next (is_block dev blockno) s (next_of s None)) s1
    = Ok None s1).
  { unfold gets. f_equal. rewrite (scan_next s1 _ NBUF None l (ci_lru _ _ Hc) Hlen). exact Hf. }
  assert (E2 : gets (fun s => scan_list NBUF b_prev recyclable s (prev_of s None)) s1
    = Ok (find (fun x => recyclable (buf_at s x)) (reverse l)) s1).
  { unfold gets. f_equal. apply (scan_prev s1 _ NBUF None l (ci_lru _ _ Hc) Hlen). }
  destruct fuel; cbn [bget_loop]; rewrite (bind_ok _ _ _ _ _ E1), (bind_ok _ _ _ _ _ E2);
    (destruct (find _ (reverse l)) as [b|]; [|done]);
    rewrite (bind_ok (set_buf b (retag dev blockno)) _ s1 tt (s1 <| k_bcache := k_bcache (with_buf b (retag dev blockno) s) |>) eq_refl);
    rewrite (bind_ok _ _ _ _ _ (release_bcache d _ s H1 H2 H3)); done.
Qed.

Lemma cache_inv_bcache s s' l : k_bcache s' = k_bcache s -> cache_inv s l -> cache_inv s' l.
Proof.
  intros E [H1 H2 H3 H4].
  assert (Hb : forall x, buf_at s' x = buf_at s x) by (intros x; unfold buf_at; by rewrite E).
  split.
  - eapply segment_ext; [| |exact H1]; intros [x|] _; simpl; by rewrite ?Hb, ?E.
  - done.
  - by rewrite E.
  - intros x y. rewrite !Hb. apply H4.
Qed.

(** A change of one buffer that keeps its links, and the uniqueness. *)
Lemma cache_inv_with b f s l :
  cache_inv s l -> (b < NBUF)%nat ->
  (forall x, b_next (f x) = b_next x /\ b_prev (f x) = b_prev x) ->
  (forall y, (y < NBUF)%nat -> y <> b -> b_dev (f (buf_at s b)) <> NODEV ->
     b_dev (f (buf_at s b)) = b_dev (buf_at s y) ->
     b_blockno (f (buf_at s b)) = b_blockno (buf_at s y) -> False) ->
  cache_inv (with_buf b f s) l.
Proof.
  intros [H1 H2 H3 H4] Hb Hf Hu.
  assert (Hb' : (b < length (bc_buf (k_bcache s)))%nat) by (by rewrite H3). split.
  - by apply lru_with.
  - done.
  - by rewrite length_with.
  - intros x y Hx Hy. rewrite !buf_at_alter by done.
    destruct (decide (x = b)) as [->|Hxb], (decide (y = b)) as [->|Hyb]; try done.
    + intros Hd E1 E2. exfalso. by apply (Hu y).
    + intros Hd E1 E2. exfalso. apply (Hu x); try done. by rewrite <- E1.
    + by apply H4.
Qed.

(** [bget].  In a well-formed cache, when the block is cached and free,
    [bget] returns the one buffer that caches it, with its contents; when it is
    not cached, it returns the least recently used buffer that is neither busy
    nor dirty, relabelled and marked not valid, or panics if there is none;
    the buffer returned is marked busy, the cache stays well formed, and no
    other buffer changes.  (When the block is cached by a busy buffer, [bget]
    waits.) *)
Theorem bget_correct {E : Env} d dev blockno s l :
  cache_inv s l -> cpu_ok d s -> d < INT_MAX - 1 -> lock_free L_bcache s -> dev <> NODEV ->
  let hit := find (fun x => is_block dev blockno (buf_at s x)) l in
  let lru_free := find (fun x => recyclable (buf_at s x)) (reverse l) in
  match hit, lru_free with
  | Some b, _ =>
      bflag (buf_at s b) B_BUSY = false ->
      exists s', bget dev blockno s = Ok b s' /\ cache_inv s' l /\
        buf_at s' b = bset B_BUSY (buf_at s b) /\ forall x, x <> b -> buf_at s' x = buf_at s x
  | None, Some b =>
      exists s', bget dev blockno s = Ok b s' /\ cache_inv s' l /\
        buf_at s' b = retag dev blockno (buf_at s b) /\
        forall x, x <> b -> buf_at s' x = buf_at s x
  | None, None => bget dev blockno s = Panic "bget: no buffers"
  end.
Proof.
  intros Hc H1 H2 H3 Hdev hit lru_free. unfold bget.
  assert (Hrun : forall b f, (b < NBUF)%nat ->
    buf_at (recached (k_bcache (with_buf b f s)) s) b = f (buf_at s b) /\
    forall x, x <> b -> buf_at (recached (k_bcache (with_buf b f s)) s) x = buf_at s x).
  { intros b f Hb. assert (Hb' : (b < length (bc_buf (k_bcache s)))%nat) by (by rewrite (ci_len _ _ Hc)).
    change (buf_at (recached (k_bcache (with_buf b f s)) s)) with (buf_at (with_buf b f s)).
    split; [by rewrite buf_at_alter, decide_True by done|].
    intros x Hx. by rewrite buf_at_alter, decide_False by done. }
  destruct hit as [b|] eqn:Eh.
  - intros Hbusy. rewrite (bget_hit d wakeups dev blockno s l b) by done.
    apply find_Some_elem in Eh as [Hin Hblk]. apply (ci_elem _ _ _ Hc) in Hin.
    eexists. split; [reflexivity|]. split; [|by apply Hrun].
    apply (cache_inv_bcache (with_buf b (bset B_BUSY) s)); [done|].
    apply cache_inv_with; try done. intros y Hy Hne Hd E1 E2. apply Hne. symmetry. by apply (ci_unique _ _ Hc).
  - rewrite (bget_miss d wakeups dev blockno s l) by done. fold lru_free.
    destruct lru_free as [b|] eqn:Ef; [|done].
    apply find_Some_elem in Ef as [Hin _]. rewrite elem_of_reverse in Hin.
    apply (ci_elem _ _ _ Hc) in Hin.
    eexists. split; [reflexivity|]. split; [|by apply Hrun].
    apply (cache_inv_bcache (with_buf b (retag dev blockno) s)); [done|].
    apply cache_inv_with; try done. intros y Hy Hne _ E1 E2. apply (ci_elem _ _ _ Hc) in Hy.
    pose proof (find_None_elem _ _ Eh y Hy) as Hno. unfold is_block in Hno.
    simpl in E1, E2. rewrite <- E1, <- E2, !Z.eqb_refl in Hno. done.
Qed.

(** ** Releasing a buffer *)

Lemma segment_next_in nx pv u l v : segment nx pv u l v -> nx u = v \/ exists x, nx u = Some x /\ x ∈ l.
Proof.
  destruct l as [|x l]; simpl; [by intros [-> _]; left|]. intros (-> & _). right.
  exists x. split; [done|by left].
Qed.

Lemma segment_prev_in nx pv u l v : segment nx pv u l v -> pv v = u \/ exists x, pv v = Some x /\ x ∈ l.
Proof.
  revert u; induction l as [|x l IH]; intros u; simpl; [by intros [_ ->]; left|].
  intros (_ & _ & H). right. destruct (IH _ H) as [->|(y & -> & Hy)].
  - exists x. split; [done|by left].
  - exists y. split; [done|by right].
Qed.

(** The relinking of [brelse]: [b] moves to the front. *)
Lemma move_front {A} b s l1 l2 (k : K A) :
  lru s (l1 ++ b :: l2) -> NoDup (l1 ++ b :: l2) ->
  (forall x, x ∈ l1 ++ b :: l2 -> (x < length (bc_buf (k_bcache s)))%nat) ->
  exists s' nx pv,
    (n ← gets (fun s => next_of s (Some b));
     p ← gets (fun s => prev_of s (Some b));
     set_prev n p;;
     p ← gets (fun s => prev_of s (Some b));
     n ← gets (fun s => next_of s (Some b));
     set_next p n;;
     link_front b;; k) s = k s' /\
    relinked s s' nx pv /\ segment nx pv None (b :: l1 ++ l2) None.
Proof.
  intros Hs Hnd Hok. pose proof (segment_unlink _ _ _ _ _ Hs Hnd) as Hun. cbv zeta in Hun.
  apply segment_app in Hs as [Hs1 Hs2].
  set (n := next_of s (Some b)) in *. set (p := prev_of s (Some b)) in *.
  assert (Hbok : forall x, x ∈ l1 ++ b :: l2 -> buf_ok s (Some x)) by done.
  assert (Hn : buf_ok s n /\ n <> Some b).
  { destruct (segment_next_in _ _ _ _ _ Hs2) as [E|(x & E & Hx)];
      change (next_of s (Some b)) with n in E; rewrite E; [done|].
    apply NoDup_app in Hnd as (_ & _ & Hnd). apply NoDup_cons in Hnd as [Hb2 _].
    split; [apply Hbok, elem_of_app; right; by right|]. by intros [= ->]. }
  assert (Hp : buf_ok s p /\ p <> Some b).
  { destruct (segment_prev_in _ _ _ _ _ Hs1) as [E|(x & E & Hx)];
      change (prev_of s (Some b)) with p in E; rewrite E; [done|].
    apply NoDup_app in Hnd as (_ & Hdis & _).
    split; [apply Hbok, elem_of_app; by left|]. intros [= ->]. apply (Hdis b Hx). by left. }
  destruct Hn as [Hn Hnb], Hp as [Hp Hpb].
  rewrite (bind_ok (gets (fun s => next_of s (Some b))) _ s n s eq_refl).
  rewrite (bind_ok (gets (fun s => prev_of s (Some b))) _ s p s eq_refl).
  destruct (set_prev_relink n p s s _ _ (relinked_refl s) Hn) as (s1 & E1 & R1).
  rewrite (bind_ok _ _ _ _ _ E1).
  rewrite (bind_ok (gets _) _ s1 p s1)
    by (unfold gets; rewrite (rl_prev _ _ _ _ R1); by rewrite upd_ne by congruence).
  rewrite (bind_ok (gets _) _ s1 n s1) by (unfold gets; by rewrite (rl_next _ _ _ _ R1)).
  destruct (set_next_relink p n s1 s _ _ R1 Hp) as (s2 & E2 & R2).
  rewrite (bind_ok _ _ _ _ _ E2).
  destruct (link_front_relink b s2 s _ _ R2) as (s3 & E3 & R3).
  { apply Hbok, elem_of_app. right. by left. }
  { destruct (segment_next_in _ _ _ _ _ Hun) as [->|(x & -> & Hx)]; [done|].
    apply Hbok. apply elem_of_app in Hx as [Hx|Hx]; apply elem_of_app; [by left|right; by right]. }
  exists s3. do 2 eexists. split_and!; [by rewrite (bind_ok _ _ _ _ _ E3)|exact R3|].
  pose proof Hnd as (Hnd1 & Hdis & Hnd2)%NoDup_app. apply NoDup_cons in Hnd2 as [Hb2 Hnd2].
  apply segment_push; [done| |].
  - intros [H|H]%elem_of_app; [apply (Hdis b H); by left|done].
  - apply NoDup_app. split_and!; [done| |done]. intros x Hx Hx'. apply (Hdis x Hx). by right.
Qed.

(** The run of [brelse] on a busy buffer. *)
Lemma brelse_run d b s l1 l2 :
  cache_inv s (l1 ++ b :: l2) -> cpu_ok d s -> d < INT_MAX - 2 -> lock_free L_bcache s ->
  lock_free L_ptable s -> bflag (buf_at s b) B_BUSY = true ->
  exists s2, brelse b s = Ok tt (settled ((s <| k_bcache := k_bcache s2 |>)
      <| k_ptable ::= fmap (wake_proc (Ch_buf b)) |>)) /\
    cache_inv s2 (b :: l1 ++ l2) /\
    (forall x, contents (buf_at s2 x) =
       if decide (x = b) then contents (bclear B_BUSY (buf_at s b)) else contents (buf_at s x)).
Proof.
  intros Hc H1 H2 H3 H4 Hb. unfold brelse.
  rewrite (bind_ok (gets _) _ s true s) by (unfold gets; by rewrite Hb). cbn [negb].
  rewrite (bind_ok _ _ _ _ _ (acquire_ok d _ _ H1 ltac:(lia) H3)).
  assert (Hbl : (b < NBUF)%nat) by (apply (ci_elem _ _ _ Hc), elem_of_app; right; by left).
  destruct (move_front b (acquired L_bcache s) l1 l2
    (set_buf b (bclear B_BUSY);; wakeup (Ch_buf b);; release L_bcache)) as (s1 & nx & pv & E & R & Hs).
  - exact (ci_lru _ _ Hc).
  - exact (ci_nodup _ _ Hc).
  - intros x Hx. apply (ci_elem _ _ _ Hc) in Hx.
    change (x < length (bc_buf (k_bcache s)))%nat. by rewrite (ci_len _ _ Hc).
  - rewrite E. clear E. destruct R as [R L N P C].
    set (s2 := s <| k_bcache := k_bcache (with_buf b (bclear B_BUSY) s1) |>).
    rewrite (bind_ok (set_buf b (bclear B_BUSY)) _ s1 tt (acquired L_bcache s2))
      by (rewrite R at 1; reflexivity).
    rewrite (bind_ok _ _ _ _ _ (wakeup_run (d + 1) (Ch_buf b) (acquired L_bcache s2)
      ltac:(by apply cpu_ok_acquired) ltac:(lia) ltac:(by apply lock_free_acquired))).
    rewrite (settled_acquired d) by done.
    change ((acquired L_bcache s2) <| k_ptable ::= ?f |>)
      with (acquired L_bcache (s2 <| k_ptable ::= f |>)).
    rewrite (release_acquired d) by (done || lia).
    exists (with_buf b (bclear B_BUSY) s1). split; [reflexivity|].
    assert (Hbuf : forall x, contents (buf_at s2 x) =
      if decide (x = b) then contents (bclear B_BUSY (buf_at s b)) else contents (buf_at s x)).
    { intros x. change (buf_at s2 x) with (buf_at (with_buf b (bclear B_BUSY) s1) x).
      rewrite buf_at_alter by (rewrite L; simpl; by rewrite (ci_len _ _ Hc)).
      change (buf_at s) with (buf_at (acquired L_bcache s)). case_decide; [|by apply C].
      subst x. specialize (C b). unfold contents in *. injection C as E1 E2 E3 E4 E5.
      simpl. by rewrite E1, E2, E3, E4, E5. }
    split; [|exact Hbuf].
    destruct Hc as [C1 C2 C3 C4]. split.
    + apply lru_with; [rewrite L; simpl; by rewrite C3|done|].
      eapply segment_ext; [| |exact Hs]; done.
    + rewrite <- C2. apply Permutation_middle.
    + rewrite length_with, L. exact C3.
    + assert (Hf : forall x, b_dev (buf_at (with_buf b (bclear B_BUSY) s1) x) = b_dev (buf_at s x) /\
        b_blockno (buf_at (with_buf b (bclear B_BUSY) s1) x) = b_blockno (buf_at s x)).
      { intros x. specialize (Hbuf x). unfold contents in Hbuf.
        change (buf_at s2 x) with (buf_at (with_buf b (bclear B_BUSY) s1) x) in Hbuf.
        case_decide; [subst x|]; injection Hbuf as _ Ed Eb _ _; by split. }
      intros x y Hx Hy. destruct (Hf x) as [-> ->], (Hf y) as [-> ->]. by apply C4.
Qed.

(** [brelse] of a busy buffer makes it the most recently used, clears its
    busy flag and wakes the processes waiting for it; the other buffers keep
    their contents and their order, and the cache stays well formed.  Releasing
    a buffer that is not busy panics. *)
Theorem brelse_correct d b s l1 l2 :
  cache_inv s (l1 ++ b :: l2) -> cpu_ok d s -> d < INT_MAX - 2 -> lock_free L_bcache s ->
  lock_free L_ptable s ->
  if bflag (buf_at s b) B_BUSY then
    exists s', brelse b s = Ok tt s' /\ cache_inv s' (b :: l1 ++ l2) /\
      contents (buf_at s' b) = contents (bclear B_BUSY (buf_at s b)) /\
      (forall x, x <> b -> contents (buf_at s' x) = contents (buf_at s x)) /\
      k_ptable s' = wake_proc (Ch_buf b) <$> k_ptable s
  else brelse b s = Panic "brelse".
Proof.
  intros Hc H1 H2 H3 H4. destruct (bflag (buf_at s b) B_BUSY) eqn:Hb.
  2: { unfold brelse. by rewrite (bind_ok (gets _) _ s false s) by (unfold gets; by rewrite Hb). }
  destruct (brelse_run d b s l1 l2) as (s2 & E & Hc' & Hbuf); [done..|].
  eexists. split; [exact E|]. split_and!; [| | |done].
  - by apply (cache_inv_bcache s2).
  - etransitivity; [apply Hbuf|by rewrite decide_True].
  - intros x Hx. etransitivity; [apply Hbuf|by rewrite decide_False].
Qed.

(** ** The initial cache *)

(** The kernel after [binit]. *)
Definition after_binit (s : kernel) : kernel :=
  match binit s with Ok _ s' => s' | _ => s end.

(** [binit] gives a well-formed cache: the check is by evaluation. *)
Lemma binit_example :
  binit kernel0 = Ok tt (after_binit kernel0) /\
  lru (after_binit kernel0) (reverse (seq 0 NBUF)) /\
  length (bc_buf (k_bcache (after_binit kernel0))) = NBUF /\
  forallb (fun b => b_dev b =? NODEV) (bc_buf (k_bcache (after_binit kernel0))) = true.
Proof. vm_compute. repeat split. Qed.

Lemma cache_inv_empty s l :
  lru s l -> l ≡ₚ seq 0 NBUF -> length (bc_buf (k_bcache s)) = NBUF ->
  forallb (fun b => b_dev b =? NODEV) (bc_buf (k_bcache s)) = true -> cache_inv s l.
Proof.
  intros H1 H2 H3 H4. split; [done..|]. intros x y Hx Hy Hd. exfalso. apply Hd. unfold buf_at.
  destruct (lookup_lt_is_Some_2 (bc_buf (k_bcache s)) x) as [b E]; [by rewrite H3|].
  rewrite E. simpl. rewrite forallb_forall in H4.
  apply Z.eqb_eq, H4. apply list_elem_of_In. by eapply list_elem_of_lookup_2.
Qed.

Lemma binit_cache_inv : cache_inv (after_binit kernel0) (reverse (seq 0 NBUF)).
Proof.
  destruct binit_example as (_ & H1 & H2 & H3).
  apply cache_inv_empty; [exact H1|apply reverse_Permutation|exact H2|exact H3].
Qed.

(** The conditions of the theorems on the state of the processor hold after
    [binit]. *)
Lemma after_binit_cpu f :
  cpu_ok 0 (with_buf 7 f (after_binit kernel0)) /\ cpu_ok 0 (after_binit kernel0).
Proof. unfold cpu_ok, mycpu. split; split_and!; vm_compute; (lia || congruence). Qed.

Lemma after_binit_lock f :
  lock_free L_bcache (with_buf 7 f (after_binit kernel0)) /\
  lock_free L_bcache (after_binit kernel0).
Proof. split; eexists; vm_compute; reflexivity. Qed.

Lemma bget_correct_witness :
  exists s', @bget (ide_env 1) 1 5 (after_binit kernel0) = Ok 0%nat s' /\
    cache_inv s' (reverse (seq 0 NBUF)).
Proof.
  pose proof (@bget_correct (ide_env 1) 0 1 5 (after_binit kernel0) _ binit_cache_inv
    (proj2 (after_binit_cpu id)) eq_refl (proj2 (after_binit_lock id)) ltac:(discriminate)) as H.
  cbv zeta in H.
  assert (H1 : find (fun x => is_block 1 5 (buf_at (after_binit kernel0) x))
                 (reverse (seq 0 NBUF)) = None) by (vm_compute; reflexivity).
  assert (H2 : find (fun x => recyclable (buf_at (after_binit kernel0) x))
                 (reverse (reverse (seq 0 NBUF))) = Some 0%nat) by (vm_compute; reflexivity).
  rewrite H1, H2 in H. destruct H as (s' & E & Hc & _).
  exact (ex_intro _ s' (conj E Hc)).
Defined.

(** Buffer 7 busy. *)
Definition buf7_busy : kernel := with_buf 7 (bset B_BUSY) (after_binit kernel0).

Lemma buf7_busy_inv : cache_inv buf7_busy (reverse (seq 0 NBUF)).
Proof.
  apply (cache_inv_with 7 (bset B_BUSY) (after_binit kernel0) (reverse (seq 0 NBUF)) binit_cache_inv).
  - unfold NBUF. lia.
  - done.
  - intros y Hy Hne Hd E1 E2. apply Hne. symmetry.
    apply (ci_unique _ _ binit_cache_inv); [unfold NBUF; lia|done..].
Qed.

Lemma brelse_correct_witness :
  exists s', brelse 7 buf7_busy = Ok tt s' /\
    cache_inv s' (7%nat :: reverse (seq 8 22) ++ reverse (seq 0 7)).
Proof.
  assert (Hb : bflag (buf_at buf7_busy 7) B_BUSY = true) by (vm_compute; reflexivity).
  assert (Hl : reverse (seq 0 NBUF) = reverse (seq 8 22) ++ 7%nat :: reverse (seq 0 7))
    by (vm_compute; reflexivity).
  pose proof buf7_busy_inv as Hi. rewrite Hl in Hi.
  assert (Hp : lock_free L_ptable buf7_busy) by (eexists; vm_compute; reflexivity).
  pose proof (brelse_correct 0 7 buf7_busy (reverse (seq 8 22)) (reverse (seq 0 7)) Hi
    (proj1 (after_binit_cpu _)) eq_refl (proj1 (after_binit_lock _)) Hp) as H.
  rewrite Hb in H. destruct H as (s' & E & Hc & _). exact (ex_intro _ s' (conj E Hc)).
Defined.
