(* ===== verification/Driver.v ===== *)
(** The contract between the buffer cache and the disk driver, and the two
    drivers that fulfil it.

    [ready i s] is the condition under which process [i] may do disk input and
    output: it runs on a CPU outside any critical section, the locks involved
    are free and the disk is idle.  A driver transfers one buffer: it returns
    with the buffer valid and clean, and whenever it waits, the block has
    already been written if the buffer was dirty. *)
From S2P Require Import Prelude Memory Kernel CString Spinlock Sched Ide Bio Crash Wait.

(** The locks a file system operation takes and releases. *)
Definition fs_lock (l : lockid) : Prop :=
  l = L_bcache \/ l = L_idelock \/ l = L_ptable \/ l = L_log \/ l = L_icache \/ l = L_ftable.

Record ready (i : nat) (s : kernel) : Prop := {
  rd_cpu : (k_me s < length (k_cpus s))%nat;
  rd_ncli : c_ncli (mycpu s) = 0;
  rd_cur : curproc s = Some i;
  rd_proc : (i < length (k_ptable s))%nat;
  rd_lock : forall l, fs_lock l -> lock_free l s;
  rd_queue : k_idequeue s = None;
  rd_disk1 : k_havedisk1 s <> 0;
}.

(** Everything but processes, CPUs, locks, the cache and the disk is the same,
    and so is the address space. *)
Definition io_rel (s s' : kernel) : Prop :=
  s' = s <| k_ptable := k_ptable s' |> <| k_cpus := k_cpus s' |> <| k_locks := k_locks s' |>
         <| k_bcache := k_bcache s' |> <| k_disk := k_disk s' |> /\
  cur_cr3 s' = cur_cr3 s.

Lemma io_rel_refl s : io_rel s s.
Proof. by destruct s. Qed.

Lemma io_rel_trans s1 s2 s3 : io_rel s1 s2 -> io_rel s2 s3 -> io_rel s1 s3.
Proof.
  unfold io_rel. intros [H1 G1] [H2 G2]. split; [|congruence]. rewrite H2, H1. reflexivity.
Qed.

Lemma ready_ext i s s' :
  ready i s -> k_me s' = k_me s -> k_cpus s' = k_cpus s -> k_locks s' = k_locks s ->
  length (k_ptable s') = length (k_ptable s) -> k_idequeue s' = k_idequeue s ->
  k_havedisk1 s' = k_havedisk1 s -> ready i s'.
Proof.
  intros [H1 H2 H3 H4 H5 H6 H7] E1 E2 E3 E4 E5 E6.
  assert (Hc : mycpu s' = mycpu s) by (unfold mycpu; by rewrite E1, E2).
  split; unfold curproc in *; rewrite ?Hc, ?E1, ?E2, ?E4, ?E5, ?E6; try done.
  intros l Hl. unfold lock_free. rewrite E3. by apply H5.
Qed.

Lemma ready_settled i s : ready i s -> ready i (settled s).
Proof.
  intros [H1 H2 H3 H4 H5 H6 H7].
  assert (Hc : c_ncli (mycpu (settled s)) = c_ncli (mycpu s) /\ curproc (settled s) = curproc s).
  { unfold curproc. rewrite mycpu_settled by done. unfold settle_cpu. by destruct (_ =? _). }
  split; [simpl; by rewrite length_alter|by rewrite (proj1 Hc)|by rewrite (proj2 Hc)|done..].
Qed.

Lemma ready_cpu_ok i s : ready i s -> cpu_ok 0 s.
Proof. intros H. unfold cpu_ok. rewrite (rd_ncli _ _ H). split_and!; [apply H|lia..]. Qed.

(** The disk block [blockno] of drive [dev & 1] in a disk. *)
Definition dblock (k : gmap (Z * Z) (list Z)) (dev blockno : Z) : list Z :=
  default block0 (k !! (Z.land dev 1, blockno)).

(** The disk after a dirty buffer has been written. *)
Definition written (bf : buf) (k : gmap (Z * Z) (list Z)) : gmap (Z * Z) (list Z) :=
  if bflag bf B_DIRTY then <[(Z.land (b_dev bf) 1, b_blockno bf) := b_data bf]> k else k.

(** The effect of a transfer on buffer [b]. *)
Record transferred (b : nat) (s s' : kernel) : Prop := {
  tr_len : length (bc_buf (k_bcache s')) = length (bc_buf (k_bcache s));
  tr_heads : bc_head_next (k_bcache s') = bc_head_next (k_bcache s) /\
             bc_head_prev (k_bcache s') = bc_head_prev (k_bcache s);
  tr_other : forall x, x <> b -> buf_at s' x = buf_at s x;
  tr_links : b_next (buf_at s' b) = b_next (buf_at s b) /\ b_prev (buf_at s' b) = b_prev (buf_at s b);
  tr_block : b_dev (buf_at s' b) = b_dev (buf_at s b) /\
             b_blockno (buf_at s' b) = b_blockno (buf_at s b);
  tr_flags : b_flags (buf_at s' b) = Z.land (Z.lor (b_flags (buf_at s b)) B_VALID) (Z.lnot B_DIRTY);
  tr_data : b_data (buf_at s' b) =
    if bflag (buf_at s b) B_DIRTY then b_data (buf_at s b)
    else dblock (k_disk s) (b_dev (buf_at s b)) (b_blockno (buf_at s b));
  tr_disk : k_disk s' = written (buf_at s b) (k_disk s);
}.

(** A request for a block of the file system's disk. *)
Definition fs_request (b : nat) (s : kernel) : Prop :=
  request_ok b s /\ b_dev (buf_at s b) = ROOTDEV.

Class Driver (E : Env) (i : nat) (R : kernel -> kernel -> Prop) : Prop :=
  disk_rw_spec : forall (C : kernel -> Prop) b s (Q : unit -> kernel -> Prop),
    ready i s -> fs_request b s ->
    (forall s1, k_disk s1 = written (buf_at s b) (k_disk s) -> C s1) ->
    (forall s', ready i s' -> io_rel s s' -> transferred b s s' -> Q tt s') ->
    wpr R C (disk_rw b) s Q.

(** ** The in-memory driver *)

Lemma flag_bits f : Z.land (Z.lor f 2) (Z.lnot 4) = Z.lor (Z.land f (Z.lnot 4)) 2.
Proof.
  apply Z.bits_inj'. intros i Hi.
  rewrite !Z.land_spec, !Z.lor_spec, !Z.land_spec, Z.lnot_spec by done.
  destruct (decide (i = 1)) as [->|]; [by rewrite !orb_true_r|].
  replace (Z.testbit 2 i) with false by (change 2 with (2 ^ 1); rewrite Z.pow2_bits_false; [done|lia]).
  by rewrite !orb_false_r.
Qed.

Lemma clean_bits f : has_bits f B_DIRTY = false -> Z.land f (Z.lnot 4) = f.
Proof.
  change B_DIRTY with (2 ^ 2). rewrite has_bits_bit by done. intros H. apply Z.bits_inj'.
  intros i Hi. rewrite Z.land_spec, Z.lnot_spec by done.
  destruct (decide (i = 2)) as [->|]; [by rewrite H|].
  change 4 with (2 ^ 2). rewrite Z.pow2_bits_false by lia. apply andb_true_r.
Qed.

Lemma transferred_with b f k s :
  (b < length (bc_buf (k_bcache s)))%nat ->
  (forall x, b_next (f x) = b_next x /\ b_prev (f x) = b_prev x /\
     b_dev (f x) = b_dev x /\ b_blockno (f x) = b_blockno x) ->
  b_flags (f (buf_at s b)) = Z.land (Z.lor (b_flags (buf_at s b)) B_VALID) (Z.lnot B_DIRTY) ->
  b_data (f (buf_at s b)) =
    (if bflag (buf_at s b) B_DIRTY then b_data (buf_at s b)
     else dblock (k_disk s) (b_dev (buf_at s b)) (b_blockno (buf_at s b))) ->
  k = written (buf_at s b) (k_disk s) ->
  transferred b s ((with_buf b f s) <| k_disk := k |>).
Proof.
  intros Hb Hf H1 H2 H3. destruct (Hf (buf_at s b)) as (F1 & F2 & F3 & F4).
  assert (Hbf : buf_at ((with_buf b f s) <| k_disk := k |>) b = f (buf_at s b))
    by (by apply (buf_at_with b f s)).
  split; rewrite ?Hbf; try done.
  - apply (length_with b f s).
  - intros x Hx. change (buf_at (with_buf b f s) x = buf_at s x).
    by rewrite buf_at_alter, decide_False by done.
Qed.

#[export] Instance mem_driver n i R : Driver (mem_env n FSSIZE) i R.
Proof.
  intros C b s Q Hr ((Hb & Hbusy & Hsync & _ & Hblk) & Hdev) HC HQ.
  change (wpr R C (mem_iderw FSSIZE b) s Q). unfold mem_iderw.
  apply wpr_bind, wpr_gets. rewrite Hbusy, Hsync. cbn [negb].
  destruct (Z.eqb_spec (b_dev (buf_at s b)) 1) as [_|]; [|done]. cbn [negb].
  destruct (Z.leb_spec FSSIZE (b_blockno (buf_at s b))); [lia|].
  destruct (bflag (buf_at s b) B_DIRTY) eqn:Hd.
  - set (f := bset B_VALID ∘ bclear B_DIRTY).
    set (k := <[(Z.land (b_dev (buf_at s b)) 1, b_blockno (buf_at s b)) := b_data (buf_at s b)]> (k_disk s)).
    eapply (wpr_step _ _ _ _ _ tt ((with_buf b (bclear B_DIRTY) s) <| k_disk := k |>)); [reflexivity|].
    eapply (wpr_ok _ _ _ _ tt ((with_buf b f s) <| k_disk := k |>)).
    { unfold f. rewrite <- with_buf_twice. reflexivity. }
    apply HQ; [by eapply ready_ext| |apply transferred_with; try done].
    + by destruct s.
    + symmetry. apply (flag_bits _).
    + by rewrite Hd.
    + unfold written. by rewrite Hd.
  - set (f := bset B_VALID ∘ (fun x : buf => x <| b_data := disk_block s (b_dev (buf_at s b)) (b_blockno (buf_at s b)) |>)).
    eapply (wpr_step _ _ _ _ _ tt _); [reflexivity|].
    eapply (wpr_ok _ _ _ _ tt ((with_buf b f s) <| k_disk := k_disk s |>)).
    { unfold f. rewrite <- with_buf_twice. reflexivity. }
    apply HQ; [by eapply ready_ext| |apply transferred_with; try done].
    + by destruct s.
    + etransitivity; [|symmetry; apply (flag_bits _)]. unfold bflag in Hd. by rewrite clean_bits.
    + by rewrite Hd.
    + unfold written. by rewrite Hd.
Qed.

(** ** The IDE driver *)

(** What happens while process [i] waits for the disk in state [s1], until it
    runs again in state [s4]: the request is answered by an interrupt without
    error, nobody else changes anything but processes, CPUs and locks, and the
    scheduler has loaded the process's address space again. *)
Definition disk_rely (i : nat) (s1 s4 : kernel) : Prop :=
  exists s2 s3,
    (idle L_idelock s2 /\ lock_free L_ptable s2 /\ k_idequeue s2 = k_idequeue s1 /\
     k_bcache s2 = k_bcache s1 /\ k_disk s2 = k_disk s1) /\
    ideintr true s2 = Ok tt s3 /\
    (holds_only L_ptable s4 /\ curproc s4 = Some i /\ lock_free L_idelock s4 /\
     same_locks L_idelock s1 s4 /\ length (k_ptable s4) = length (k_ptable s1) /\
     cur_cr3 s4 = cur_cr3 s1) /\
    s4 = s1 <| k_ptable := k_ptable s4 |> <| k_cpus := k_cpus s4 |> <| k_locks := k_locks s4 |>
            <| k_bcache := k_bcache s3 |> <| k_disk := k_disk s3 |> <| k_idequeue := k_idequeue s3 |>.

Lemma started_written b s : k_disk (started b s) = written (buf_at s b) (k_disk s).
Proof. unfold started, written. by destruct (bflag (buf_at s b) B_DIRTY). Qed.

Lemma started_bcache b s :
  k_bcache (started b s) = k_bcache (with_buf b (fun x => x <| b_qnext := None |>) s).
Proof. unfold started. by destruct (bflag (buf_at s b) B_DIRTY). Qed.

Lemma started_rest b s :
  started b s = s <| k_bcache := k_bcache (started b s) |> <| k_disk := k_disk (started b s) |>
                  <| k_idequeue := Some b |>.
Proof. unfold started. by destruct (bflag (buf_at s b) B_DIRTY). Qed.

(** The transfer, seen from the buffer the interrupt has completed. *)
Lemma completed_transferred b s s2 s' :
  (b < length (bc_buf (k_bcache s)))%nat ->
  k_bcache s2 = k_bcache (started b s) -> k_disk s2 = k_disk (started b s) ->
  k_bcache s' = k_bcache (with_buf b (completed true s2 b) s2) -> k_disk s' = k_disk s2 ->
  transferred b s s'.
Proof.
  intros Hb H1 H2 H3 H4. rewrite started_bcache in H1. rewrite started_written in H2.
  set (g := fun x : buf => x <| b_qnext := None |>) in *.
  assert (Hl2 : length (bc_buf (k_bcache s2)) = length (bc_buf (k_bcache s)))
    by (rewrite H1; apply length_with).
  assert (Hbf : forall x, buf_at s' x =
    if decide (x = b) then completed true s2 b (g (buf_at s b)) else buf_at s x).
  { intros x. transitivity (buf_at (with_buf b (completed true s2 b) s2) x);
      [unfold buf_at; by rewrite H3|].
    assert (H2b : forall y, buf_at s2 y = if decide (y = b) then g (buf_at s b) else buf_at s y).
    { intros y. transitivity (buf_at (with_buf b g s) y); [unfold buf_at; by rewrite H1|].
      rewrite buf_at_alter by done. case_decide; by subst. }
    rewrite buf_at_alter by (by rewrite Hl2).
    case_decide; rewrite H2b; [subst; by rewrite decide_True|by rewrite decide_False]. }
  pose proof (Hbf b) as Hb'. rewrite decide_True in Hb' by done.
  assert (Hfl : bflag (g (buf_at s b)) B_DIRTY = bflag (buf_at s b) B_DIRTY) by done.
  assert (Hc : forall bf, b_next (completed true s2 b bf) = b_next bf /\
    b_prev (completed true s2 b bf) = b_prev bf /\ b_dev (completed true s2 b bf) = b_dev bf /\
    b_blockno (completed true s2 b bf) = b_blockno bf /\
    b_flags (completed true s2 b bf) = Z.land (Z.lor (b_flags bf) B_VALID) (Z.lnot B_DIRTY))
    by (intros bf; unfold completed; by destruct (negb _ && _)).
  destruct (Hc (g (buf_at s b))) as (C1 & C2 & C3 & C4 & C5).
  split; rewrite ?Hb'; try done.
  - rewrite H3. etransitivity; [apply length_with|done].
  - rewrite H3. change (bc_head_next (k_bcache s2) = bc_head_next (k_bcache s) /\
      bc_head_prev (k_bcache s2) = bc_head_prev (k_bcache s)). by rewrite H1.
  - intros x Hx. by rewrite Hbf, decide_False.
  - rewrite completed_data. destruct (bflag (buf_at s b) B_DIRTY) eqn:Hd; [done|].
    unfold disk_block, dblock. rewrite H2. unfold written. by rewrite Hd.
  - by rewrite H4, H2.
Qed.

#[export] Instance ide_driver n i : Driver (ide_env (S n)) i (disk_rely i).
Proof.
  intros C b s Q Hr [Hreq Hdev] HC HQ. destruct Hr as [R1 R2 R3 R4 R5 R6 R7].
  change (wpr (disk_rely i) C (iderw (S n) b) s Q). unfold wpr.
  assert (Hidle : idle L_idelock s) by (split_and!; [done..|apply R5; unfold fs_lock; tauto]).
  pose proof Hreq as (Hb & _ & Hsync & _).
  rewrite (iderw_started (S n) b s Hreq R6 Hidle).
  pose proof (started_buf b s Hb) as Hsb. destruct (started_fields b s) as (S1 & S2 & S3 & S4 & S5 & S6).
  set (sb := started b s) in *.
  assert (Hidleb : idle L_idelock sb)
    by (revert Hidle; unfold idle, lock_free, mycpu; by rewrite S1, S2, S3).
  destruct (wait_disk n b i (acquired L_idelock sb)) as (s1 & k & E & Hrel & Ht & Hsl & Hcr & Hk).
  { by apply holds_acquired. }
  { apply lock_free_acquired; [done|]. unfold lock_free. rewrite S3. apply R5. unfold fs_lock. tauto. }
  { rewrite curproc_acquired by (by rewrite S1, S2). unfold curproc, mycpu. by rewrite S1, S2. }
  { simpl. by rewrite S4. }
  { change (buf_at (acquired L_idelock sb) b) with (buf_at sb b). by rewrite Hsb. }
  rewrite E. cbn [wpr_res].
  assert (B : k_bcache s1 = k_bcache sb /\ k_disk s1 = k_disk sb /\ k_idequeue s1 = Some b)
    by (rewrite Hrel; done).
  destruct B as (B1 & B2 & B3). split.
  { apply HC. rewrite B2. apply started_written. }
  intros s4 (s2 & s3 & (G1 & G2 & G3 & G4 & G5) & Ei & (G6 & G7 & G8 & G9 & G10 & G11) & E4).
  assert (Hb2 : buf_at s2 b = (buf_at s b) <| b_qnext := None |>)
    by (unfold buf_at; rewrite G4, B1; exact Hsb).
  rewrite (ideintr_last true b s2 G1 G2) in Ei;
    [|by rewrite G3|by rewrite Hb2|rewrite G4, B1, S6; done].
  injection Ei as <-.
  assert (T : transferred b s s4).
  { apply (completed_transferred b s s2); [done|by rewrite G4, B1|by rewrite G5, B2| |]; by rewrite E4. }
  destruct (Hk s4 G6 G7 G8) as (s5 & E5 & Hrel5 & Hl5 & Hl6 & Hl7 & Hl8 & Hl9 & Hl10).
  { assert (Hbf : buf_at s4 b = completed true s2 b (buf_at s2 b)).
    { transitivity (buf_at (with_buf b (completed true s2 b) s2) b); [unfold buf_at; by rewrite E4|].
      apply buf_at_with. by rewrite G4, B1, S6. }
    rewrite Hbf. apply done_synced. }
  rewrite E5. cbn [wpr_res]. apply HQ.
  - split; [apply Hl5|apply Hl5|done| | | |].
    + rewrite Hl8, G10, Ht, length_alter. simpl. by rewrite S4.
    + intros l Hl. destruct (decide (l = L_idelock)) as [->|Hn1]; [apply Hl5|].
      destruct (decide (l = L_ptable)) as [->|Hn2]; [done|].
      unfold lock_free. rewrite (Hl9 l Hn1 Hn2), (G9 l Hn1 Hn2), (Hsl l Hn1 Hn2). simpl.
      rewrite lookup_insert_ne by done. rewrite S3. by apply R5.
    + rewrite Hrel5. simpl. by rewrite E4.
    + rewrite Hrel5, E4, Hrel. simpl. unfold sb. by rewrite (started_rest b s).
  - split.
    + rewrite Hrel5, E4, Hrel. unfold sb. rewrite (started_rest b s).
      destruct s. simpl in R6. subst. reflexivity.
    + unfold cur_cr3 in *. rewrite Hl10, G11, Hcr, mycpu_acquired by (by rewrite S1, S2).
      unfold mycpu. by rewrite S1, S2.
  - destruct T as [T1 T2 T3 T4 T5 T6 T7 T8].
    split; unfold buf_at in *; rewrite Hrel5; try done.
Qed.
