(* ===== verification/BioSpec.v ===== *)
(** The buffer cache as its clients see it: the current contents of every
    block of the file system's disk, the buffers held, and the blocks pinned
    in the cache until they are written.

    [cached s held dirty] is the invariant of the cache: [held] gives block
    number and data of the buffers that are busy, [dirty] the blocks whose
    buffers are dirty.  [fs_view] adds the contents [m] of the blocks and the disk
    [k].  The rules of this file say what [bread], [bwrite] and [brelse] do to
    them, for any driver. *)
From S2P Require Import Prelude Memory Kernel CString Spinlock Sched Ide Bio Crash Wait Driver.

(** What matters of a buffer besides its links. *)
Definition core (b : buf) : Z * Z * Z * list Z := (b_flags b, b_dev b, b_blockno b, b_data b).

Definition block_valid (s : kernel) (n : Z) (x : nat) : bool :=
  is_block ROOTDEV n (buf_at s x) && bflag (buf_at s x) B_VALID.

(** The current contents of block [n]. *)
Definition contents_of (s : kernel) (n : Z) : list Z :=
  match find (block_valid s n) (seq 0 NBUF) with
  | Some x => b_data (buf_at s x)
  | None => dblock (k_disk s) ROOTDEV n
  end.

(** A buffer of a cache over the disk [k]: [h] is what its holder has read, if
    it is held. *)
Record buf_good (k : gmap (Z * Z) (list Z)) (h : option (Z * list Z)) (dirty : list Z) (b : buf) :
    Prop := {
  bg_dev : (b_dev b = ROOTDEV /\ bflag b B_VALID = true) \/ b_dev b = NODEV;
  bg_busy :
    match h with
    | Some (n, d) => bflag b B_BUSY = true /\ b_dev b = ROOTDEV /\ b_blockno b = n /\ b_data b = d
    | None => bflag b B_BUSY = false
    end;
  bg_dirty : bflag b B_DIRTY = true -> b_dev b = ROOTDEV /\ b_blockno b ∈ dirty;
  bg_clean : h = None -> b_dev b = ROOTDEV -> bflag b B_DIRTY = false ->
    b_data b = dblock k ROOTDEV (b_blockno b);
}.

Record cached (s : kernel) (held : gmap nat (Z * list Z)) (dirty : list Z) : Prop := {
  cd_inv : exists l, cache_inv s l;
  cd_buf : forall x, (x < NBUF)%nat -> buf_good (k_disk s) (held !! x) dirty (buf_at s x);
  cd_dom : forall x, is_Some (held !! x) -> (x < NBUF)%nat;
  cd_pinned : forall n, n ∈ dirty -> exists x, (x < NBUF)%nat /\
    is_block ROOTDEV n (buf_at s x) = true /\ bflag (buf_at s x) B_DIRTY = true;
}.

Record fs_view (i : nat) (s : kernel) (held : gmap nat (Z * list Z)) (dirty : list Z)
    (m : Z -> list Z) (k : gmap (Z * Z) (list Z)) : Prop := {
  st_ready : ready i s;
  st_cached : cached s held dirty;
  st_mem : forall n, contents_of s n = m n;
  st_disk : k_disk s = k;
}.

(** ** Lookup *)

Lemma is_block_true dev n b : is_block dev n b = true <-> b_dev b = dev /\ b_blockno b = n.
Proof. unfold is_block. rewrite andb_true_iff, !Z.eqb_eq. done. Qed.

Lemma ROOTDEV_NODEV : ROOTDEV <> NODEV.
Proof. done. Qed.

(** A buffer tagged with the block is the only one. *)
Lemma tag_unique s held dirty n x y :
  cached s held dirty -> (x < NBUF)%nat -> (y < NBUF)%nat ->
  is_block ROOTDEV n (buf_at s x) = true -> is_block ROOTDEV n (buf_at s y) = true -> x = y.
Proof.
  intros Hc Hx Hy [H1 H2]%is_block_true [H3 H4]%is_block_true.
  destruct (cd_inv _ _ _ Hc) as [l Hl].
  apply (ci_unique _ _ Hl); try done; [rewrite H1; apply ROOTDEV_NODEV|congruence..].
Qed.

Lemma tag_valid s held dirty n x :
  cached s held dirty -> (x < NBUF)%nat -> is_block ROOTDEV n (buf_at s x) = true ->
  bflag (buf_at s x) B_VALID = true.
Proof.
  intros Hc Hx [H1 H2]%is_block_true.
  destruct (bg_dev _ _ _ _ (cd_buf _ _ _ Hc x Hx)) as [[_ ?]|H]; [done|]. rewrite H1 in H. done.
Qed.

Lemma contents_hit s held dirty n x :
  cached s held dirty -> (x < NBUF)%nat -> is_block ROOTDEV n (buf_at s x) = true ->
  contents_of s n = b_data (buf_at s x).
Proof.
  intros Hc Hx Ht. unfold contents_of. destruct (find _ _) as [y|] eqn:E.
  - apply find_Some_elem in E as [Hy [Ht' _]%andb_true_iff]. apply elem_of_seq in Hy.
    by rewrite (tag_unique s held dirty n x y) by (done || lia).
  - apply find_None_elem with (x := x) in E; [|apply elem_of_seq; lia].
    unfold block_valid in E. by rewrite Ht, (tag_valid s held dirty n x) in E.
Qed.

Lemma contents_miss s n :
  (forall x, (x < NBUF)%nat -> is_block ROOTDEV n (buf_at s x) = false) ->
  contents_of s n = dblock (k_disk s) ROOTDEV n.
Proof.
  intros H. unfold contents_of. destruct (find _ _) as [y|] eqn:E; [|done].
  apply find_Some_elem in E as [Hy [Ht _]%andb_true_iff]. apply elem_of_seq in Hy.
  rewrite H in Ht; [done|lia].
Qed.

(** A block that is neither held nor pinned is as on disk. *)
Lemma contents_clean s held dirty n :
  cached s held dirty -> n ∉ dirty -> (forall b x, held !! b = Some x -> x.1 <> n) ->
  contents_of s n = dblock (k_disk s) ROOTDEV n.
Proof.
  intros Hc Hn Hh. destruct (find (fun x => is_block ROOTDEV n (buf_at s x)) (seq 0 NBUF)) as [x|] eqn:E.
  - apply find_Some_elem in E as [Hx Ht]. apply elem_of_seq in Hx.
    assert (Hx' : (x < NBUF)%nat) by lia. rewrite (contents_hit s held dirty n x) by done.
    pose proof Ht as [H1 H2]%is_block_true. destruct (cd_buf _ _ _ Hc x Hx') as [_ Hb Hd Hcl].
    rewrite <- H2. apply Hcl; [|done|].
    + destruct (held !! x) as [[n' d]|] eqn:Eh; [|done].
      destruct Hb as (_ & _ & Hb & _). apply Hh in Eh. simpl in Eh. congruence.
    + destruct (bflag (buf_at s x) B_DIRTY); [|done]. destruct (Hd eq_refl) as [_ Hd'].
      rewrite H2 in Hd'. done.
  - apply contents_miss. intros x Hx. apply (find_None_elem _ _ E). apply elem_of_seq. lia.
Qed.

Lemma find_ext_in {A} (f g : A -> bool) l :
  (forall x, x ∈ l -> f x = g x) -> find f l = find g l.
Proof.
  induction l as [|x l IH]; intros H; simpl; [done|]. rewrite (H x) by (by left).
  destruct (g x); [done|]. apply IH. intros y Hy. apply H. by right.
Qed.

Lemma contents_ext s s' :
  (forall x, (x < NBUF)%nat -> core (buf_at s' x) = core (buf_at s x)) -> k_disk s' = k_disk s ->
  forall n, contents_of s' n = contents_of s n.
Proof.
  intros Hc Hd n. unfold contents_of. rewrite (find_ext_in _ (block_valid s n)).
  - destruct (find _ _) as [x|] eqn:E; [|by rewrite Hd].
    apply find_Some_elem in E as [Hx _]. apply elem_of_seq in Hx.
    specialize (Hc x ltac:(lia)). unfold core in Hc. by injection Hc as _ _ _ ->.
  - intros x Hx. apply elem_of_seq in Hx. specialize (Hc x ltac:(lia)). unfold core in Hc.
    injection Hc as E1 E2 E3 _. unfold block_valid, is_block, bflag. by rewrite E1, E2, E3.
Qed.

Lemma buf_good_core k h dirty b b' :
  core b' = core b -> buf_good k h dirty b -> buf_good k h dirty b'.
Proof.
  unfold core. intros E [H1 H2 H3 H4]. injection E as E1 E2 E3 E4.
  split; unfold bflag in *; rewrite ?E1, ?E2, ?E3, ?E4; done.
Qed.

(** ** Room for another buffer *)

(** While fewer than [NBUF] buffers are held or pinned, one can be recycled. *)
Lemma has_recyclable s held dirty :
  cached s held dirty -> (size held + length dirty < NBUF)%nat ->
  exists x, (x < NBUF)%nat /\ recyclable (buf_at s x) = true.
Proof.
  intros Hc Hn.
  destruct (find (fun x => recyclable (buf_at s x)) (seq 0 NBUF)) as [x|] eqn:E.
  { apply find_Some_elem in E as [Hx Hr]. apply elem_of_seq in Hx. exists x. split; [lia|done]. }
  exfalso. set (f := fun x => if bflag (buf_at s x) B_BUSY then inl x
                              else inr (b_blockno (buf_at s x)) : nat + Z).
  assert (Hlt : forall x, x ∈ seq 0 NBUF -> (x < NBUF)%nat) by (intros x Hx; apply elem_of_seq in Hx; lia).
  assert (Hd : forall x, x ∈ seq 0 NBUF -> bflag (buf_at s x) B_BUSY = false ->
    b_dev (buf_at s x) = ROOTDEV /\ b_blockno (buf_at s x) ∈ dirty).
  { intros x Hx Hb. pose proof (find_None_elem _ _ E x Hx) as Hr. simpl in Hr. unfold recyclable in Hr.
    rewrite Hb in Hr. simpl in Hr. apply negb_false_iff in Hr.
    apply (bg_dirty _ _ _ _ (cd_buf _ _ _ Hc x (Hlt x Hx)) Hr). }
  assert (Hsub : f <$> seq 0 NBUF ⊆+ (inl <$> (map_to_list held).*1) ++ (inr <$> dirty)).
  { apply NoDup_submseteq.
    - apply NoDup_fmap_2_strong; [|apply NoDup_seq]. intros x y Hx Hy. unfold f.
      destruct (bflag (buf_at s x) B_BUSY) eqn:Ex, (bflag (buf_at s y) B_BUSY) eqn:Ey;
        intros H; try discriminate; [congruence|]. injection H as H.
      destruct (Hd x Hx Ex) as [D1 _], (Hd y Hy Ey) as [D2 _].
      apply (tag_unique s held dirty (b_blockno (buf_at s x)) x y); auto; by apply is_block_true.
    - intros z Hz. apply list_elem_of_fmap in Hz as (x & -> & Hx). apply elem_of_app. unfold f.
      destruct (bflag (buf_at s x) B_BUSY) eqn:Ex.
      + left. apply list_elem_of_fmap. exists x. split; [done|].
        pose proof (bg_busy _ _ _ _ (cd_buf _ _ _ Hc x (Hlt x Hx))) as Hb.
        destruct (held !! x) as [p|] eqn:Eh; [|congruence].
        apply list_elem_of_fmap. exists (x, p). split; [done|]. by apply elem_of_map_to_list.
      + right. apply list_elem_of_fmap. eexists. split; [done|]. by apply Hd. }
  apply submseteq_length in Hsub.
  rewrite length_app, !length_fmap, length_seq, length_map_to_list in Hsub. lia.
Qed.

(** ** Flags *)

Lemma bflag_bset a c b :
  0 <= a -> 0 <= c -> bflag (bset (2 ^ a) b) (2 ^ c) = (a =? c) || bflag b (2 ^ c).
Proof.
  intros Ha Hc. unfold bflag, bset. simpl. rewrite !has_bits_bit by done.
  rewrite Z.lor_spec, Z.pow2_bits_eqb by done. apply orb_comm.
Qed.

Lemma bflag_bclear a c b :
  0 <= a -> 0 <= c -> bflag (bclear (2 ^ a) b) (2 ^ c) = negb (a =? c) && bflag b (2 ^ c).
Proof.
  intros Ha Hc. unfold bflag, bclear. simpl. rewrite !has_bits_bit by done.
  rewrite Z.land_spec, Z.lnot_spec, Z.pow2_bits_eqb by done. apply andb_comm.
Qed.

Lemma bset_busy b :
  bflag (bset B_BUSY b) B_BUSY = true /\ bflag (bset B_BUSY b) B_VALID = bflag b B_VALID /\
  bflag (bset B_BUSY b) B_DIRTY = bflag b B_DIRTY.
Proof. split_and!; [apply (bflag_bset 0 0)|apply (bflag_bset 0 1)|apply (bflag_bset 0 2)]; done. Qed.

Lemma bset_dirty b :
  bflag (bset B_DIRTY b) B_BUSY = bflag b B_BUSY /\ bflag (bset B_DIRTY b) B_VALID = bflag b B_VALID /\
  bflag (bset B_DIRTY b) B_DIRTY = true.
Proof. split_and!; [apply (bflag_bset 2 0)|apply (bflag_bset 2 1)|apply (bflag_bset 2 2)]; done. Qed.

Lemma bclear_busy b :
  bflag (bclear B_BUSY b) B_BUSY = false /\ bflag (bclear B_BUSY b) B_VALID = bflag b B_VALID /\
  bflag (bclear B_BUSY b) B_DIRTY = bflag b B_DIRTY.
Proof. split_and!; [apply (bflag_bclear 0 0)|apply (bflag_bclear 0 1)|apply (bflag_bclear 0 2)]; done. Qed.

Lemma clean_flags b b' :
  b_flags b' = Z.land (Z.lor (b_flags b) B_VALID) (Z.lnot B_DIRTY) ->
  bflag b' B_BUSY = bflag b B_BUSY /\ bflag b' B_VALID = true /\ bflag b' B_DIRTY = false.
Proof.
  intros E. unfold bflag. rewrite E.
  change B_BUSY with (2 ^ 0). change B_VALID with (2 ^ 1). change B_DIRTY with (2 ^ 2).
  rewrite !has_bits_bit by done.
  rewrite !Z.land_spec, !Z.lor_spec, !Z.lnot_spec, !Z.pow2_bits_eqb by done. simpl.
  by rewrite orb_false_r, andb_true_r, orb_true_r, andb_false_r.
Qed.

(** ** Reading a block *)

Lemma buf_at_recached b f s x :
  (b < length (bc_buf (k_bcache s)))%nat ->
  buf_at (recached (k_bcache (with_buf b f s)) s) x = if decide (x = b) then f (buf_at s x) else buf_at s x.
Proof.
  intros H. change (buf_at (recached (k_bcache (with_buf b f s)) s)) with (buf_at (with_buf b f s)).
  by rewrite buf_at_alter.
Qed.

Lemma ready_recached i C s : ready i s -> ready i (recached C s).
Proof. intros H. apply ready_settled. by eapply ready_ext. Qed.

Lemma cr3_settled s : cpu_ok 0 s -> cur_cr3 (settled s) = cur_cr3 s.
Proof.
  intros [H _]. unfold cur_cr3. rewrite mycpu_settled by done. unfold settle_cpu. by destruct (_ =? _).
Qed.

Lemma io_rel_recached i C s : ready i s -> io_rel s (recached C s).
Proof.
  intros Hr%ready_cpu_ok. split; [by destruct s|].
  etransitivity; [by apply cr3_settled|done].
Qed.

Lemma cache_inv_lt s l x : cache_inv s l -> (x < NBUF)%nat -> (x < length (bc_buf (k_bcache s)))%nat.
Proof. intros H. by rewrite (ci_len _ _ H). Qed.

(** Contents are unchanged when one buffer changes, if what is seen of its old
    and its new block is the same. *)
Lemma contents_change s s' held dirty held' dirty' b :
  cached s held dirty -> cached s' held' dirty' -> (b < NBUF)%nat ->
  (forall x, (x < NBUF)%nat -> x <> b -> core (buf_at s' x) = core (buf_at s x)) ->
  k_disk s' = k_disk s ->
  forall n, (is_block ROOTDEV n (buf_at s b) = true \/ is_block ROOTDEV n (buf_at s' b) = true ->
             contents_of s' n = contents_of s n) ->
  contents_of s' n = contents_of s n.
Proof.
  intros Hc Hc' Hb Hx Hd n Hn.
  destruct (is_block ROOTDEV n (buf_at s b)) eqn:E1; [by apply Hn; left|].
  destruct (is_block ROOTDEV n (buf_at s' b)) eqn:E2; [by apply Hn; right|]. clear Hn.
  destruct (find (fun x => is_block ROOTDEV n (buf_at s x)) (seq 0 NBUF)) as [x|] eqn:E.
  - apply find_Some_elem in E as [Hxl Ht]. apply elem_of_seq in Hxl.
    assert (Hxb : x <> b) by congruence. specialize (Hx x ltac:(lia) Hxb). unfold core in Hx.
    injection Hx as F1 F2 F3 F4. rewrite (contents_hit s held dirty n x) by (done || lia).
    rewrite (contents_hit s' held' dirty' n x); [done|done|lia|].
    unfold is_block. rewrite F2, F3. done.
  - assert (Hno : forall x, (x < NBUF)%nat -> is_block ROOTDEV n (buf_at s x) = false).
    { intros x Hxl. apply (find_None_elem _ _ E). apply elem_of_seq. lia. }
    rewrite !contents_miss; [by rewrite Hd|done|]. intros x Hxl.
    destruct (decide (x = b)) as [->|Hxb]; [done|]. specialize (Hx x Hxl Hxb). unfold core in Hx.
    injection Hx as F1 F2 F3 F4. unfold is_block. rewrite F2, F3. by apply Hno.
Qed.

(** The state in which a cached block has been found and marked busy. *)
Lemma bget_hit_view i s held dirty m k n b l :
  fs_view i s held dirty m k -> cache_inv s l -> (b < NBUF)%nat -> held !! b = None ->
  is_block ROOTDEV n (buf_at s b) = true ->
  fs_view i (recached (k_bcache (with_buf b (bset B_BUSY) s)) s) (<[b := (n, m n)]> held) dirty m k.
Proof.
  intros [Hr Hc Hm Hk] Hl Hb Hh Ht. set (s1 := recached _ _).
  assert (Hb' : (b < length (bc_buf (k_bcache s)))%nat) by (by eapply cache_inv_lt).
  assert (Hbuf : forall x, buf_at s1 x = if decide (x = b) then bset B_BUSY (buf_at s x) else buf_at s x)
    by (intros x; by apply buf_at_recached).
  destruct (bset_busy (buf_at s b)) as (F1 & F2 & F3).
  pose proof Ht as [T1 T2]%is_block_true. pose proof (tag_valid s held dirty n b Hc Hb Ht) as Hv.
  assert (Hdat : b_data (buf_at s b) = m n) by (rewrite <- Hm; symmetry; by eapply contents_hit).
  assert (Hc1 : cached s1 (<[b := (n, m n)]> held) dirty).
  { split.
    - exists l. apply (cache_inv_bcache (with_buf b (bset B_BUSY) s)); [done|].
      apply cache_inv_with; try done. intros y Hy Hne Hd E1 E2. apply Hne. symmetry.
      by apply (ci_unique _ _ Hl).
    - intros x Hx. rewrite Hbuf. destruct (decide (x = b)) as [->|Hne].
      + rewrite lookup_insert_eq. destruct (cd_buf _ _ _ Hc b Hb) as [G1 G2 G3 G4].
        split; [left; split; [done|by rewrite F2]|done| |done].
        rewrite F3. apply G3.
      + rewrite lookup_insert_ne by done. apply (cd_buf _ _ _ Hc x Hx).
    - intros x [p Hp]. destruct (decide (x = b)) as [->|Hne]; [done|].
      rewrite lookup_insert_ne in Hp by done. apply (cd_dom _ _ _ Hc). by exists p.
    - intros n' Hn'. destruct (cd_pinned _ _ _ Hc n' Hn') as (x & Hx & Hxt & Hxd). exists x.
      rewrite Hbuf. destruct (decide (x = b)) as [->|]; [|done]. by rewrite F3. }
  split; [by apply ready_recached|done| |done]. intros n'. rewrite <- Hm.
  apply (contents_change s s1 held dirty _ dirty b Hc Hc1 Hb); [|done|].
  - intros x Hx Hne. by rewrite Hbuf, decide_False.
  - intros Hn'. assert (Ht' : is_block ROOTDEV n' (buf_at s b) = true).
    { destruct Hn' as [Hn'|Hn']; [done|]. rewrite Hbuf, decide_True in Hn' by done. done. }
    rewrite (contents_hit s held dirty n' b) by done.
    rewrite (contents_hit s1 _ dirty n' b Hc1 Hb); rewrite Hbuf, decide_True by done; done.
Qed.

Lemma cache_inv_transferred b s s' l :
  (b < NBUF)%nat -> transferred b s s' -> cache_inv s l -> cache_inv s' l.
Proof.
  intros Hb [T1 [T2 T3] T4 [T5 T6] [T7 T8] _ _ _] [H1 H2 H3 H4].
  assert (Hx : forall x, b_next (buf_at s' x) = b_next (buf_at s x) /\
    b_prev (buf_at s' x) = b_prev (buf_at s x) /\ b_dev (buf_at s' x) = b_dev (buf_at s x) /\
    b_blockno (buf_at s' x) = b_blockno (buf_at s x)).
  { intros x. destruct (decide (x = b)) as [->|Hne]; [done|]. by rewrite T4. }
  split.
  - eapply segment_ext; [| |exact H1]; intros [x|] _; simpl; try apply Hx; done.
  - done.
  - by rewrite T1.
  - intros x y. destruct (Hx x) as (_ & _ & -> & ->), (Hx y) as (_ & _ & -> & ->). apply H4.
Qed.

(** The state in which a recycled buffer has been read from disk. *)
Lemma bget_miss_view i s held dirty m k n b l s2 :
  fs_view i s held dirty m k -> cache_inv s l -> (b < NBUF)%nat ->
  recyclable (buf_at s b) = true ->
  (forall x, (x < NBUF)%nat -> is_block ROOTDEV n (buf_at s x) = false) ->
  ready i s2 -> transferred b (recached (k_bcache (with_buf b (retag ROOTDEV n) s)) s) s2 ->
  fs_view i s2 (<[b := (n, m n)]> held) dirty m k /\ held !! b = None.
Proof.
  intros [Hr Hc Hm Hk] Hl Hb Hrec Hno Hr2 T. set (s1 := recached _ _) in *.
  assert (Hb' : (b < length (bc_buf (k_bcache s)))%nat) by (by eapply cache_inv_lt).
  assert (Hbuf1 : forall x, buf_at s1 x = if decide (x = b) then retag ROOTDEV n (buf_at s x) else buf_at s x)
    by (intros x; by apply buf_at_recached).
  pose proof (Hbuf1 b) as Hb1. rewrite decide_True in Hb1 by done.
  assert (Hinv1 : cache_inv s1 l).
  { apply (cache_inv_bcache (with_buf b (retag ROOTDEV n) s)); [done|].
    apply cache_inv_with; try done. intros y Hy Hne _ E1 E2.
    specialize (Hno y Hy). unfold is_block in Hno. simpl in E1, E2.
    by rewrite <- E1, <- E2, !Z.eqb_refl in Hno. }
  pose proof (cache_inv_transferred b s1 s2 l Hb T Hinv1) as Hinv2.
  destruct T as [_ _ T4 _ [T7 T8] T9 T10 T11]. rewrite Hb1 in T7, T8, T9, T10, T11.
  assert (Hbuf2 : forall x, x <> b -> buf_at s2 x = buf_at s x).
  { intros x Hx. by rewrite T4, Hbuf1, decide_False. }
  destruct (clean_flags (retag ROOTDEV n (buf_at s b)) (buf_at s2 b) T9) as (F1 & F2 & F3).
  unfold recyclable in Hrec. apply andb_true_iff in Hrec as [Hnb Hnd].
  apply negb_true_iff in Hnb, Hnd.
  assert (Hh : held !! b = None).
  { pose proof (bg_busy _ _ _ _ (cd_buf _ _ _ Hc b Hb)) as G.
    destruct (held !! b) as [[? ?]|]; [|done]. destruct G as [G _]. congruence. }
  assert (Hk2 : k_disk s2 = k) by (by rewrite T11, <- Hk).
  assert (Hmn : m n = dblock k ROOTDEV n) by (rewrite <- Hm, <- Hk; by apply contents_miss).
  assert (Hdat : b_data (buf_at s2 b) = m n) by (rewrite T10, Hmn, <- Hk; done).
  assert (Hc2 : cached s2 (<[b := (n, m n)]> held) dirty).
  { split.
    - by exists l.
    - intros x Hx. rewrite Hk2, <- Hk. destruct (decide (x = b)) as [->|Hne].
      + rewrite lookup_insert_eq. split; [by left|done| |done]. by rewrite F3.
      + rewrite lookup_insert_ne, Hbuf2 by done. apply (cd_buf _ _ _ Hc x Hx).
    - intros x [p Hp]. destruct (decide (x = b)) as [->|Hne]; [done|].
      rewrite lookup_insert_ne in Hp by done. apply (cd_dom _ _ _ Hc). by exists p.
    - intros n' Hn'. destruct (cd_pinned _ _ _ Hc n' Hn') as (x & Hx & Hxt & Hxd). exists x.
      rewrite Hbuf2; [done|]. intros ->. congruence. }
  split; [|done]. split; [done|done| |done]. intros n'. rewrite <- Hm.
  apply (contents_change s s2 held dirty _ dirty b Hc Hc2 Hb); [|by rewrite Hk2|].
  { intros x Hx Hne. by rewrite Hbuf2. }
  intros [Hn'|Hn'].
  - assert (Hne : n' <> n) by (intros ->; by rewrite Hno in Hn').
    rewrite (contents_hit s held dirty n' b) by done. pose proof Hn' as [N1 N2]%is_block_true.
    rewrite (bg_clean _ _ _ _ (cd_buf _ _ _ Hc b Hb) Hh N1 Hnd), N2.
    rewrite contents_miss; [by rewrite Hk2, Hk|]. intros x Hx.
    destruct (decide (x = b)) as [->|Hxb].
    + unfold is_block. rewrite T8. simpl. destruct (Z.eqb_spec n n'); [done|apply andb_false_r].
    + rewrite Hbuf2 by done. destruct (is_block ROOTDEV n' (buf_at s x)) eqn:Ex; [|done].
      destruct Hxb. by apply (tag_unique s held dirty n').
  - pose proof Hn' as [_ N2]%is_block_true. rewrite T8 in N2. simpl in N2. subst n'.
    rewrite (contents_hit s2 _ dirty n b Hc2 Hb Hn'), Hdat. by rewrite Hm.
Qed.

(** ** Changing and releasing a held buffer *)

Definition set_block (m : Z -> list Z) (n : Z) (d : list Z) : Z -> list Z :=
  fun n' => if decide (n' = n) then d else m n'.

Lemma held_facts i s held dirty m k b n d :
  fs_view i s held dirty m k -> held !! b = Some (n, d) ->
  (b < NBUF)%nat /\ is_block ROOTDEV n (buf_at s b) = true /\ b_data (buf_at s b) = d /\ m n = d /\
  bflag (buf_at s b) B_BUSY = true /\ (b < length (bc_buf (k_bcache s)))%nat.
Proof.
  intros [Hr Hc Hm Hk] Hh. assert (Hb : (b < NBUF)%nat) by (apply (cd_dom _ _ _ Hc); by eexists).
  pose proof (bg_busy _ _ _ _ (cd_buf _ _ _ Hc b Hb)) as G. rewrite Hh in G.
  destruct G as (G1 & G2 & G3 & G4).
  assert (Ht : is_block ROOTDEV n (buf_at s b) = true) by (by apply is_block_true).
  destruct (cd_inv _ _ _ Hc) as [l Hl].
  split_and!; try done; [rewrite <- Hm, <- G4; by eapply contents_hit|by eapply cache_inv_lt].
Qed.

(** New data in a held buffer. *)
Lemma set_data_view i s held dirty m k b n d f d' :
  fs_view i s held dirty m k -> held !! b = Some (n, d) ->
  (forall x, b_next (f x) = b_next x /\ b_prev (f x) = b_prev x /\ b_dev (f x) = b_dev x /\
     b_blockno (f x) = b_blockno x /\ b_flags (f x) = b_flags x) ->
  b_data (f (buf_at s b)) = d' ->
  fs_view i (with_buf b f s) (<[b := (n, d')]> held) dirty (set_block m n d') k.
Proof.
  intros Hst Hh Hf Hd'. pose proof Hst as [Hr Hc Hm Hk].
  destruct (held_facts _ _ _ _ _ _ _ _ _ Hst Hh) as (Hb & Ht & Hd & Hmn & Hbz & Hb').
  destruct (cd_inv _ _ _ Hc) as [l Hl]. set (s1 := with_buf b f s).
  assert (Hbuf : forall x, buf_at s1 x = if decide (x = b) then f (buf_at s x) else buf_at s x)
    by (intros x; by apply buf_at_alter).
  destruct (Hf (buf_at s b)) as (F1 & F2 & F3 & F4 & F5).
  pose proof Ht as [T1 T2]%is_block_true.
  assert (Hc1 : cached s1 (<[b := (n, d')]> held) dirty).
  { split.
    - exists l. apply cache_inv_with; try done.
      + intros x. by destruct (Hf x) as (? & ? & _).
      + rewrite F3, F4. intros y Hy Hne Hnd E1 E2. apply Hne. symmetry. by apply (ci_unique _ _ Hl).
    - intros x Hx. rewrite Hbuf. destruct (decide (x = b)) as [->|Hne].
      + rewrite lookup_insert_eq. destruct (cd_buf _ _ _ Hc b Hb) as [G1 G2 G3 G4].
        split; unfold bflag in *; rewrite ?F3, ?F4, ?F5; try done.
      + rewrite lookup_insert_ne by done. apply (cd_buf _ _ _ Hc x Hx).
    - intros x [p Hp]. destruct (decide (x = b)) as [->|Hne]; [done|].
      rewrite lookup_insert_ne in Hp by done. apply (cd_dom _ _ _ Hc). by exists p.
    - intros n' Hn'. destruct (cd_pinned _ _ _ Hc n' Hn') as (x & Hx & Hxt & Hxd). exists x.
      rewrite Hbuf. destruct (decide (x = b)) as [->|]; [|done].
      unfold is_block, bflag in *. by rewrite F3, F4, F5. }
  assert (Ht1 : is_block ROOTDEV n (buf_at s1 b) = true).
  { rewrite Hbuf, decide_True by done. unfold is_block. by rewrite F3, F4. }
  split; [by eapply ready_ext|done| |done]. intros n'. unfold set_block.
  destruct (decide (n' = n)) as [->|Hne].
  - rewrite (contents_hit s1 _ dirty n b Hc1 Hb Ht1), Hbuf, decide_True by done. done.
  - rewrite <- Hm. apply (contents_change s s1 held dirty _ dirty b Hc Hc1 Hb); [|done|].
    + intros x Hx Hxb. by rewrite Hbuf, decide_False.
    + intros [[_ H]%is_block_true|[_ H]%is_block_true]; [congruence|].
      rewrite Hbuf, decide_True, F4 in H by done. congruence.
Qed.

Lemma dblock_insert_eq k n d : dblock (<[(Z.land ROOTDEV 1, n) := d]> k) ROOTDEV n = d.
Proof. unfold dblock. by rewrite lookup_insert_eq. Qed.

Lemma dblock_insert_ne k n n' d :
  n' <> n -> dblock (<[(Z.land ROOTDEV 1, n) := d]> k) ROOTDEV n' = dblock k ROOTDEV n'.
Proof. intros H. unfold dblock. rewrite lookup_insert_ne; [done|congruence]. Qed.

(** A held buffer after it has been written. *)
Lemma written_view i s held dirty m k b n d s1 s2 :
  fs_view i s held dirty m k -> held !! b = Some (n, d) ->
  s1 = with_buf b (bset B_DIRTY) s -> ready i s2 -> transferred b s1 s2 ->
  fs_view i s2 held (filter (fun n' => n' <> n) dirty) m (<[(Z.land ROOTDEV 1, n) := d]> k).
Proof.
  intros Hst Hh E1 Hr2 T. pose proof Hst as [Hr Hc Hm Hk].
  destruct (held_facts _ _ _ _ _ _ _ _ _ Hst Hh) as (Hb & Ht & Hd & Hmn & Hbz & Hb').
  destruct (cd_inv _ _ _ Hc) as [l Hl]. pose proof Ht as [T1 T2]%is_block_true.
  assert (Hbuf1 : forall x, buf_at s1 x = if decide (x = b) then bset B_DIRTY (buf_at s x) else buf_at s x)
    by (intros x; subst s1; by apply buf_at_alter).
  pose proof (Hbuf1 b) as Hb1. rewrite decide_True in Hb1 by done.
  assert (Hinv2 : cache_inv s2 l).
  { apply (cache_inv_transferred b s1); [done|done|]. subst s1. apply cache_inv_with; try done.
    intros y Hy Hne Hnd F1 F2. apply Hne. symmetry. by apply (ci_unique _ _ Hl). }
  destruct T as [_ _ U4 _ [U7 U8] U9 U10 U11]. rewrite Hb1 in U7, U8, U9, U10, U11.
  destruct (bset_dirty (buf_at s b)) as (F1 & F2 & F3).
  rewrite F3 in U10. unfold written in U11. rewrite F3 in U11. simpl in U11. rewrite T1, T2, Hd in U11.
  assert (Hk2 : k_disk s2 = <[(Z.land ROOTDEV 1, n) := d]> k) by (rewrite U11; subst s1; by rewrite <- Hk).
  assert (Hbuf2 : forall x, x <> b -> buf_at s2 x = buf_at s x)
    by (intros x Hx; by rewrite U4, Hbuf1, decide_False).
  destruct (clean_flags _ _ U9) as (G1 & G2 & G3). rewrite F1 in G1.
  simpl in U7, U8, U10. rewrite Hd in U10.
  assert (Hother : forall x, (x < NBUF)%nat -> x <> b -> b_dev (buf_at s x) = ROOTDEV ->
    b_blockno (buf_at s x) <> n).
  { intros x Hx Hxb Hdev Hn. apply Hxb. apply (tag_unique s held dirty n); try done. by apply is_block_true. }
  assert (Hc2 : cached s2 held (filter (fun n' => n' <> n) dirty)).
  { split.
    - by exists l.
    - intros x Hx. rewrite Hk2. destruct (decide (x = b)) as [->|Hne].
      + rewrite Hh. split; [left; split; congruence|split_and!; congruence|congruence|done].
      + rewrite Hbuf2 by done. destruct (cd_buf _ _ _ Hc x Hx) as [V1 V2 V3 V4]. split; [done|done| |].
        * intros V. destruct (V3 V) as [V5 V6]. split; [done|]. apply list_elem_of_filter. split; [|done].
          by apply Hother.
        * intros Hh' Hdev V. rewrite dblock_insert_ne by (by apply Hother). rewrite <- Hk. by apply V4.
    - apply Hc.
    - intros n' Hn'. apply list_elem_of_filter in Hn' as [Hne Hn'].
      destruct (cd_pinned _ _ _ Hc n' Hn') as (x & Hx & Hxt & Hxd). exists x. rewrite Hbuf2; [done|].
      intros ->. pose proof Hxt as [_ ?]%is_block_true. congruence. }
  assert (Ht2 : is_block ROOTDEV n (buf_at s2 b) = true) by (apply is_block_true; split; congruence).
  split; [done|done| |done]. intros n'. rewrite <- Hm. destruct (decide (n' = n)) as [->|Hne].
  { rewrite (contents_hit s2 _ _ n b Hc2 Hb Ht2), U10. rewrite Hm. done. }
  destruct (find (fun x => is_block ROOTDEV n' (buf_at s x)) (seq 0 NBUF)) as [x|] eqn:E.
  - apply find_Some_elem in E as [Hxl Hxt]. apply elem_of_seq in Hxl.
    assert (Hxb : x <> b) by (intros ->; pose proof Hxt as [_ ?]%is_block_true; congruence).
    rewrite (contents_hit s held dirty n' x) by (done || lia).
    rewrite (contents_hit s2 _ _ n' x Hc2 ltac:(lia)); by rewrite Hbuf2.
  - assert (Hno : forall x, (x < NBUF)%nat -> is_block ROOTDEV n' (buf_at s x) = false).
    { intros x Hxl. apply (find_None_elem _ _ E). apply elem_of_seq. lia. }
    rewrite !contents_miss; [by rewrite Hk2, dblock_insert_ne, Hk by done|done|].
    intros x Hx. destruct (decide (x = b)) as [->|Hxb]; [|by rewrite Hbuf2; auto].
    destruct (is_block ROOTDEV n' (buf_at s2 b)) eqn:Ex; [|done].
    apply is_block_true in Ex as [_ Ex]. congruence.
Qed.

(** ** Rules *)

Section rules.
Context {E : Env} {i : nat} {R : kernel -> kernel -> Prop} {HD : Driver E i R}.
Context (C : kernel -> Prop).

(** [bread] of a block that nobody holds.  The buffer is the caller's; a block
    that is not pinned in the cache may need a free buffer. *)
Lemma bread_wp n s held dirty m k (Q : nat -> kernel -> Prop) :
  fs_view i s held dirty m k -> n < FSSIZE ->
  (forall b x, held !! b = Some x -> x.1 <> n) ->
  n ∈ dirty \/ (size held + length dirty < NBUF)%nat ->
  (forall s1, k_disk s1 = k -> C s1) ->
  (forall b s', fs_view i s' (<[b := (n, m n)]> held) dirty m k -> held !! b = None ->
     io_rel s s' -> Q b s') ->
  wpr R C (bread ROOTDEV n) s Q.
Proof.
  intros Hst Hn Hheld Hroom HC HQ. pose proof Hst as [Hr Hc Hm Hk].
  destruct (cd_inv _ _ _ Hc) as [l Hl]. pose proof (ready_cpu_ok i s Hr) as Hcpu.
  assert (Hlk : lock_free L_bcache s) by (apply Hr; unfold fs_lock; tauto).
  unfold bread, bget. apply wpr_bind.
  destruct (find (fun x => is_block ROOTDEV n (buf_at s x)) l) as [b|] eqn:Ef.
  - apply find_Some_elem in Ef as Ef'. destruct Ef' as [Hin Ht].
    assert (Hb : (b < NBUF)%nat) by (by apply (ci_elem _ _ _ Hl)).
    pose proof (bg_busy _ _ _ _ (cd_buf _ _ _ Hc b Hb)) as Hbz.
    destruct (held !! b) as [[n' d]|] eqn:Eh.
    { destruct Hbz as (_ & _ & Hbn & _). pose proof Ht as [_ Htn]%is_block_true.
      apply Hheld in Eh. simpl in Eh. congruence. }
    eapply wpr_ok; [by apply (bget_hit 0 wakeups ROOTDEV n s l b)|].
    pose proof (bget_hit_view i s held dirty m k n b l Hst Hl Hb Eh Ht) as Hst1.
    set (s1 := recached _ _) in *. apply wpr_bind, wpr_gets.
    assert (Hv : bflag (buf_at s1 b) B_VALID = true).
    { pose proof (cd_buf _ _ _ (st_cached _ _ _ _ _ _ Hst1) b Hb) as [G1 G2 _ _].
      rewrite lookup_insert_eq in G2. destruct G2 as (_ & G2 & _).
      destruct G1 as [[_ ?]|G1]; [done|]. rewrite G2 in G1. done. }
    rewrite Hv. cbn [negb when]. apply wpr_bind, wpr_ret, wpr_ret.
    apply HQ; [done|done|by eapply io_rel_recached].
  - assert (Hno : forall x, (x < NBUF)%nat -> is_block ROOTDEV n (buf_at s x) = false).
    { intros x Hx. apply (find_None_elem _ _ Ef). by apply (ci_elem _ _ _ Hl). }
    assert (Hroom' : (size held + length dirty < NBUF)%nat).
    { destruct Hroom as [Hd|]; [|done]. destruct (cd_pinned _ _ _ Hc n Hd) as (x & Hx & Ht & _).
      by rewrite Hno in Ht. }
    pose proof (bget_miss 0 wakeups ROOTDEV n s l Hl Hcpu ltac:(done) Hlk Ef) as Hrun.
    destruct (find (fun x => recyclable (buf_at s x)) (reverse l)) as [b|] eqn:Er.
    2: { destruct (has_recyclable s held dirty Hc Hroom') as (x & Hx & Hrec).
         pose proof (find_None_elem _ _ Er x) as H. rewrite elem_of_reverse in H.
         rewrite H in Hrec; [done|]. by apply (ci_elem _ _ _ Hl). }
    apply find_Some_elem in Er as [Hin Hrec]. rewrite elem_of_reverse in Hin.
    assert (Hb : (b < NBUF)%nat) by (by apply (ci_elem _ _ _ Hl)).
    eapply wpr_ok; [exact Hrun|]. set (s1 := recached _ _).
    assert (Hb1 : buf_at s1 b = retag ROOTDEV n (buf_at s b)).
    { unfold s1. rewrite buf_at_recached by (by eapply cache_inv_lt). by rewrite decide_True. }
    apply wpr_bind, wpr_gets. rewrite Hb1. change (bflag (retag ROOTDEV n (buf_at s b)) B_VALID) with false.
    cbn [negb when]. apply wpr_bind. apply disk_rw_spec.
    + by apply ready_recached.
    + split; [|by rewrite Hb1]. unfold request_ok. rewrite Hb1. split_and!; [|done|done| |done].
      * change (b < length (bc_buf (k_bcache (with_buf b (retag ROOTDEV n) s))))%nat.
        rewrite length_with. by eapply cache_inv_lt.
      * right. apply Hr.
    + intros s2 H2. apply HC. rewrite H2, Hb1. exact Hk.
    + intros s2 Hr2 Hio T.
      destruct (bget_miss_view i s held dirty m k n b l s2) as [Hst2 Hh]; [done..|].
      apply HQ; [done|done|]. eapply io_rel_trans; [by eapply io_rel_recached|done].
Qed.

(** [bwrite] of a held buffer. *)
Lemma bwrite_wp b n d s held dirty m k (Q : unit -> kernel -> Prop) :
  fs_view i s held dirty m k -> held !! b = Some (n, d) -> n < FSSIZE ->
  (forall s1, k_disk s1 = <[(Z.land ROOTDEV 1, n) := d]> k -> C s1) ->
  (forall s', fs_view i s' held (filter (fun n' => n' <> n) dirty) m
       (<[(Z.land ROOTDEV 1, n) := d]> k) -> io_rel s s' -> Q tt s') ->
  wpr R C (bwrite b) s Q.
Proof.
  intros Hst Hh Hn HC HQ. pose proof Hst as [Hr Hc Hm Hk].
  destruct (held_facts _ _ _ _ _ _ _ _ _ Hst Hh) as (Hb & Ht & Hd & Hmn & Hbz & Hb').
  pose proof Ht as [T1 T2]%is_block_true. destruct (bset_dirty (buf_at s b)) as (F1 & F2 & F3).
  unfold bwrite. apply wpr_bind, wpr_gets. rewrite Hbz. cbn [negb].
  apply wpr_bind. eapply (wpr_ok _ _ _ _ tt (with_buf b (bset B_DIRTY) s)); [reflexivity|].
  set (s1 := with_buf b (bset B_DIRTY) s).
  assert (Hb1 : buf_at s1 b = bset B_DIRTY (buf_at s b)) by (by apply buf_at_with).
  apply disk_rw_spec.
  - by eapply ready_ext.
  - split; [|by rewrite Hb1]. unfold request_ok. rewrite Hb1. split_and!.
    + unfold s1. by rewrite length_with.
    + by rewrite F1.
    + unfold synced. apply Z.eqb_neq. intros H.
      apply (f_equal (fun z => Z.testbit z 2)) in H. change (Z.lor B_VALID B_DIRTY) with 6 in H.
      rewrite land_6_bits in H. change (Z.testbit B_VALID 2) with false in H.
      unfold bflag in F3. change B_DIRTY with (2 ^ 2) in F3 at 2. rewrite has_bits_bit in F3 by done.
      rewrite F3 in H. done.
    + right. apply Hr.
    + simpl. by rewrite T2.
  - intros s2 H2. apply HC. rewrite H2, Hb1. unfold written. rewrite F3. simpl.
    by rewrite T1, T2, Hd, <- Hk.
  - intros s2 Hr2 Hio T. apply HQ; [by eapply written_view|]. eapply io_rel_trans; [|exact Hio].
    by destruct s.
Qed.
End rules.

(** [brelse] of a held buffer whose data is on disk or pinned. *)
Lemma brelse_view i b n d s held dirty m k :
  fs_view i s held dirty m k -> held !! b = Some (n, d) -> n ∈ dirty \/ d = dblock k ROOTDEV n ->
  exists s', brelse b s = Ok tt s' /\ fs_view i s' (delete b held) dirty m k /\ io_rel s s'.
Proof.
  intros Hst Hh Hok. pose proof Hst as [Hr Hc Hm Hk].
  destruct (held_facts _ _ _ _ _ _ _ _ _ Hst Hh) as (Hb & Ht & Hd & Hmn & Hbz & Hb').
  pose proof Ht as [T1 T2]%is_block_true.
  destruct (cd_inv _ _ _ Hc) as [l Hl].
  assert (Hin : b ∈ l) by (by apply (ci_elem _ _ _ Hl)).
  apply list_elem_of_split in Hin as (l1 & l2 & ->).
  destruct (brelse_run 0 b s l1 l2) as (s2 & Erun & Hinv & Hcont); try done.
  { by eapply ready_cpu_ok. } { apply Hr; unfold fs_lock; tauto. } { apply Hr; unfold fs_lock; tauto. }
  eexists. split; [exact Erun|]. set (s' := settled _).
  assert (Hcore : forall x, core (buf_at s' x) =
    core (if decide (x = b) then bclear B_BUSY (buf_at s b) else buf_at s x)).
  { intros x. specialize (Hcont x). change (buf_at s' x) with (buf_at s2 x).
    unfold contents in Hcont. unfold core. case_decide; by injection Hcont as -> -> -> _ ->. }
  destruct (bclear_busy (buf_at s b)) as (F1 & F2 & F3).
  assert (Hc' : cached s' (delete b held) dirty).
  { split.
    - exists (b :: l1 ++ l2). by apply (cache_inv_bcache s2).
    - intros x Hx. eapply buf_good_core; [apply Hcore|]. change (k_disk s') with (k_disk s).
      destruct (decide (x = b)) as [->|Hne].
      + rewrite lookup_delete_eq. destruct (cd_buf _ _ _ Hc b Hb) as [G1 G2 G3 G4]. split.
        * rewrite F2. exact G1.
        * done.
        * rewrite F3. exact G3.
        * intros _ _ Hnd. rewrite F3 in Hnd. simpl. rewrite Hd, T2, Hk.
          destruct Hok as [Hok|Hok]; [|done].
          destruct (cd_pinned _ _ _ Hc n Hok) as (y & Hy & Hyt & Hyd).
          rewrite (tag_unique s held dirty n y b) in Hyd by done. congruence.
      + rewrite lookup_delete_ne by done. apply (cd_buf _ _ _ Hc x Hx).
    - intros x [p Hp]. apply (cd_dom _ _ _ Hc). exists p. by apply lookup_delete_Some in Hp as [_ ?].
    - intros n' Hn'. destruct (cd_pinned _ _ _ Hc n' Hn') as (x & Hx & Hxt & Hxd). exists x.
      pose proof (Hcore x) as Hx'. unfold core in Hx'. injection Hx' as E1 E2 E3 _.
      split; [done|]. unfold is_block, bflag in *. rewrite E1, E2, E3.
      case_decide; subst; [by rewrite F3|done]. }
  split; [split; [|done| |done]|].
  3: { split; [by destruct s|]. etransitivity; [apply cr3_settled|done]. apply (ready_cpu_ok i).
       eapply ready_ext; try done. simpl. by rewrite length_fmap. }
  - apply ready_settled. eapply ready_ext; try done. simpl. by rewrite length_fmap.
  - intros n'. rewrite <- Hm. apply (contents_change s s' held dirty _ dirty b Hc Hc' Hb); [|done|].
    + intros x Hx Hne. rewrite Hcore, decide_False by done. done.
    + intros Hn'. pose proof (Hcore b) as Hcb. rewrite decide_True in Hcb by done.
      unfold core in Hcb. injection Hcb as E1 E2 E3 E4. simpl in E2, E3, E4.
      assert (Ht' : is_block ROOTDEV n' (buf_at s b) = true /\ is_block ROOTDEV n' (buf_at s' b) = true).
      { unfold is_block in *. rewrite E2, E3 in *. tauto. }
      rewrite (contents_hit s held dirty n' b) by (done || apply Ht').
      rewrite (contents_hit s' _ dirty n' b Hc' Hb) by apply Ht'. done.
Qed.
