(* ===== verification/Log.v ===== *)
(** log.c: the redo log that makes file system calls atomic across crashes.

    The header block of the log is the bytes of a disk block; an index outside
    [log.lh.block], which the code does not check, is the end of the run. *)
From S2P Require Import Prelude Memory Kernel CString Spinlock Sched Ide Bytes Bio.

(** An access outside an array. *)
Definition oob {A} : K A := panic "array index out of bounds".

(** ** The superblock *)

Record superblock := Mksuperblock {
  sb_size : Z;
  sb_nblocks : Z;
  sb_ninodes : Z;
  sb_nlog : Z;
}.

Definition superblock_of (d : list Z) : superblock :=
  Mksuperblock (get32 d 0) (get32 d 4) (get32 d 8) (get32 d 12).

Definition data_of (b : nat) : K (list Z) := gets (fun s => b_data (buf_at s b)).
Definition set_data (b : nat) (d : list Z) : K unit := set_buf b (fun x => x <| b_data := d |>).

(** [log.lh.block[i]], and its assignment. *)
Definition lh_block (i : Z) : K Z :=
  bs ← gets (fun s => lg_block (k_log s));
  match bs !! Z.to_nat i with Some n => mret n | None => oob end.

Definition set_lh_block (i v : Z) : K unit :=
  if LOGSIZE <=? i then oob else
  modify (fun s => s <| k_log ::= fun g => g <| lg_block ::= <[Z.to_nat i := i32 v]> |> |>).

Definition set_lh_n (n : Z) : K unit := modify (fun s => s <| k_log ::= fun g => g <| lg_n := n |> |>).

(** [struct logheader]: [n] and the [block] entries, as words of the block. *)
Definition hdr_n (d : list Z) : Z := i32 (get32 d 0).
Definition hdr_block (d : list Z) (i : Z) : Z := i32 (get32 d (4 + 4 * Z.to_nat i)).

Section log.
Context {E : Env}.

Definition readsb (dev : Z) : K superblock :=
  bp ← bread (u32 dev) 1;
  d ← data_of bp;
  brelse bp;;
  mret (superblock_of d).

(** From entry [tail] of the header; [fuel] is the number of entries left in
    the array. *)
Fixpoint install_loop (fuel : nat) (tail : Z) : K unit :=
  g ← gets k_log;
  if negb (tail <? lg_n g) then mret tt else
  lbuf ← bread (u32 (lg_dev g)) (u32 (i32 (lg_start g + tail + 1)));
  match fuel with
  | O => oob
  | S fuel' =>
      n ← lh_block tail;
      dbuf ← bread (u32 (lg_dev g)) (u32 n);
      d ← data_of lbuf;
      set_data dbuf d;;
      bwrite dbuf;;
      brelse lbuf;;
      brelse dbuf;;
      install_loop fuel' (tail + 1)
  end.

Definition install_trans : K unit := install_loop (Z.to_nat LOGSIZE) 0.

Fixpoint read_head_loop (fuel : nat) (i : Z) (d : list Z) : K unit :=
  n ← gets (fun s => lg_n (k_log s));
  if negb (i <? n) then mret tt else
  match fuel with
  | O => oob
  | S fuel' => set_lh_block i (hdr_block d i);; read_head_loop fuel' (i + 1) d
  end.

Definition read_head : K unit :=
  g ← gets k_log;
  b ← bread (u32 (lg_dev g)) (u32 (lg_start g));
  d ← data_of b;
  set_lh_n (hdr_n d);;
  read_head_loop (Z.to_nat LOGSIZE) 0 d;;
  brelse b.

Fixpoint write_head_loop (fuel : nat) (i : Z) (b : nat) : K unit :=
  n ← gets (fun s => lg_n (k_log s));
  if negb (i <? n) then mret tt else
  match fuel with
  | O => oob
  | S fuel' =>
      v ← lh_block i;
      set_buf b (fun x => x <| b_data ::= fun d => put32 d (4 + 4 * Z.to_nat i) v |>);;
      write_head_loop fuel' (i + 1) b
  end.

Definition write_head : K unit :=
  g ← gets k_log;
  b ← bread (u32 (lg_dev g)) (u32 (lg_start g));
  set_buf b (fun x => x <| b_data ::= fun d => put32 d 0 (lg_n g) |>);;
  write_head_loop (Z.to_nat LOGSIZE) 0 b;;
  bwrite b;;
  brelse b.

Definition recover_from_log : K unit :=
  read_head;;
  install_trans;;
  set_lh_n 0;;
  write_head.

(** [sizeof(struct logheader)] is 4 + 4 * LOGSIZE = 124, less than BSIZE, so
    the check at the top of [initlog] never fails. *)
Definition initlog : K unit :=
  if BSIZE <=? 4 + 4 * LOGSIZE then panic "initlog: too big logheader" else
  initlock L_log "log";;
  sb ← readsb ROOTDEV;
  modify (fun s => s <| k_log ::= fun g =>
    g <| lg_start := i32 (sb_size sb - sb_nlog sb) |> <| lg_size := i32 (sb_nlog sb) |>
      <| lg_dev := ROOTDEV |> |>);;
  recover_from_log.

(** [log.committing], or not enough room for one more operation. *)
Definition log_full : K bool :=
  gets (fun s => let g := k_log s in
    c_true (lg_committing g) || (LOGSIZE <? lg_n g + (lg_outstanding g + 1) * MAXOPBLOCKS)).

Definition begin_op : K unit :=
  acquire L_log;;
  sleep_while wakeups log_full Ch_log L_log;;
  modify (fun s => s <| k_log ::= fun g => g <| lg_outstanding ::= fun n => i32 (n + 1) |> |>);;
  release L_log.

Fixpoint write_log_loop (fuel : nat) (tail : Z) : K unit :=
  g ← gets k_log;
  if negb (tail <? lg_n g) then mret tt else
  to ← bread (u32 (lg_dev g)) (u32 (i32 (lg_start g + tail + 1)));
  match fuel with
  | O => oob
  | S fuel' =>
      n ← lh_block tail;
      from ← bread (u32 (lg_dev g)) (u32 n);
      d ← data_of from;
      set_data to d;;
      bwrite to;;
      brelse from;;
      brelse to;;
      write_log_loop fuel' (tail + 1)
  end.

Definition write_log : K unit := write_log_loop (Z.to_nat LOGSIZE) 0.

Definition commit : K unit :=
  n ← gets (fun s => lg_n (k_log s));
  when (0 <? n)
    (write_log;;
     write_head;;
     install_trans;;
     set_lh_n 0;;
     write_head).

Definition end_op : K unit :=
  acquire L_log;;
  modify (fun s => s <| k_log ::= fun g => g <| lg_outstanding ::= fun n => i32 (n - 1) |> |>);;
  g ← gets k_log;
  if c_true (lg_committing g) then panic "log.committing" else
  let do_commit := lg_outstanding g =? 0 in
  (if do_commit
   then modify (fun s => s <| k_log ::= fun g => g <| lg_committing := 1 |> |>)
   else wakeup Ch_log);;
  release L_log;;
  when do_commit
    (commit;;
     acquire L_log;;
     modify (fun s => s <| k_log ::= fun g => g <| lg_committing := 0 |> |>);;
     wakeup Ch_log;;
     release L_log).
End log.

(** The index of block [blockno] among the first [n] entries of the header,
    or [n]. *)
Fixpoint log_index (fuel : nat) (i n : Z) (blockno : Z) (bs : list Z) : Z :=
  if negb (i <? n) then i else
  match fuel with
  | O => i
  | S fuel' =>
      if u32 (default 0 (bs !! Z.to_nat i)) =? blockno then i
      else log_index fuel' (i + 1) n blockno bs
  end.

Definition log_write (b : nat) : K unit :=
  acquire L_log;;
  g ← gets k_log;
  blockno ← gets (fun s => b_blockno (buf_at s b));
  let i := log_index (Z.to_nat LOGSIZE) 0 (lg_n g) blockno (lg_block g) in
  set_lh_block i blockno;;
  when (i =? lg_n g) (set_lh_n (lg_n g + 1));;
  set_buf b (bset B_DIRTY);;
  release L_log.
