(* ===== verification/LogSpec.v ===== *)
(** Crash safety of the log.

    [replay start k] is what recovery makes of a disk [k] whose log starts at
    block [start]: every block named in the header replaced by its copy in
    the log.  A commit changes it from the old contents to the new ones at
    one disk write, and recovery, however often it is itself interrupted,
    does not change it. *)
From S2P Require Import Prelude Memory Kernel CString Spinlock Sched Ide Bytes Bio.
From S2P Require Import Log Crash Driver BioSpec.

(** ** Replaying a log *)

(** The entries of the log of a disk: home block and logged contents. *)
Definition log_entries (start : Z) (k : gmap (Z * Z) (list Z)) : list (Z * list Z) :=
  let h := dblock k ROOTDEV start in
  (fun j => (hdr_block h j, dblock k ROOTDEV (start + 1 + j))) <$> seqZ 0 (hdr_n h).

(** Block [b] after the entries have been installed over [d]. *)
Definition install (es : list (Z * list Z)) (b : Z) (d : list Z) : list Z :=
  foldl (fun d e => if e.1 =? b then e.2 else d) d es.

Definition replay (start : Z) (k : gmap (Z * Z) (list Z)) (b : Z) : list Z :=
  install (log_entries start k) b (dblock k ROOTDEV b).

Lemma install_app es1 es2 b d : install (es1 ++ es2) b d = install es2 b (install es1 b d).
Proof. apply foldl_app. Qed.

Lemma install_not_in es b d : b ∉ es.*1 -> install es b d = d.
Proof.
  revert d; induction es as [|e es IH]; intros d H; [done|]. simpl.
  apply not_elem_of_cons in H as [H1 H2].
  destruct (Z.eqb_spec e.1 b) as [E|]; [by destruct H1|]. by apply IH.
Qed.

Lemma install_in es b d d' : b ∈ es.*1 -> install es b d = install es b d'.
Proof.
  revert d d'; induction es as [|e es IH]; intros d d' H; [by apply elem_of_nil in H|]. simpl.
  destruct (Z.eqb_spec e.1 b) as [E|]; [done|].
  apply elem_of_cons in H as [H|H]; [by destruct n|]. by apply IH.
Qed.

(** Installing again what has been installed in part changes nothing. *)
Lemma install_again es t b d : install es b (install (take t es) b d) = install es b d.
Proof.
  destruct (decide (b ∈ es.*1)) as [H|H]; [by apply install_in|].
  rewrite (install_not_in (take t es)); [done|]. intros H'. apply H.
  apply list_elem_of_fmap in H' as (e & -> & He). apply list_elem_of_fmap. exists e. split; [done|].
  apply list_elem_of_lookup in He as [j He]. apply lookup_take_Some in He as [He _].
  by eapply list_elem_of_lookup_2.
Qed.

Lemma install_distinct es j e d :
  NoDup es.*1 -> es !! j = Some e -> install es e.1 d = e.2.
Proof.
  revert j d; induction es as [|e' es IH]; intros j d Hn He; [done|]. simpl.
  apply NoDup_cons in Hn as [Hn1 Hn2]. destruct j as [|j]; simpl in He.
  - injection He as ->. rewrite Z.eqb_refl. by apply install_not_in.
  - by eapply IH.
Qed.

(** ** The log in memory *)

(** The log of a mounted file system, with the home blocks [hs] recorded in
    the header: home blocks lie before the log, and the log has room. *)
Record log_ok (g : log) (hs : list Z) : Prop := {
  lo_dev : lg_dev g = ROOTDEV;
  lo_start : 0 <= lg_start g;
  lo_end : lg_start g + LOGSIZE <= FSSIZE;
  lo_len : length (lg_block g) = Z.to_nat LOGSIZE;
  lo_n : lg_n g = Z.of_nat (length hs);
  lo_room : lg_n g < LOGSIZE;
  lo_blocks : take (length hs) (lg_block g) = hs;
  lo_home : Forall (fun h => 0 <= h < lg_start g) hs;
}.

Lemma log_small g hs t :
  log_ok g hs -> 0 <= t < LOGSIZE ->
  u32 (lg_dev g) = ROOTDEV /\ u32 (lg_start g) = lg_start g /\
  u32 (i32 (lg_start g + t + 1)) = lg_start g + t + 1.
Proof.
  intros H Ht. rewrite (lo_dev _ _ H). pose proof (lo_start _ _ H). pose proof (lo_end _ _ H).
  unfold LOGSIZE, MAXOPBLOCKS, FSSIZE, ROOTDEV in *. split_and!; wrap_lia.
Qed.

(** Entry [t] of the header. *)
Lemma lh_block_ok g hs t h s :
  log_ok g hs -> k_log s = g -> hs !! t = Some h -> lh_block (Z.of_nat t) s = Ok h s.
Proof.
  intros Hg Hs Ht. unfold lh_block. krun. rewrite Hs, Nat2Z.id.
  assert (H : lg_block g !! t = Some h).
  { rewrite <- Ht, <- (lo_blocks _ _ Hg) at 1. rewrite lookup_take_lt; [done|].
    by eapply lookup_lt_Some. }
  by rewrite H.
Qed.

Lemma log_home g hs t h :
  log_ok g hs -> hs !! t = Some h -> u32 h = h /\ 0 <= h < lg_start g.
Proof.
  intros Hg Ht. pose proof (Forall_lookup_1 _ _ _ _ (lo_home _ _ Hg) Ht) as H. simpl in H.
  pose proof (lo_end _ _ Hg). split; [|done].
  unfold LOGSIZE, MAXOPBLOCKS, FSSIZE in *. wrap_lia.
Qed.

Lemma filter_ne_id (n : Z) (l : list Z) : n ∉ l -> filter (fun n' => n' <> n) l = l.
Proof.
  induction l as [|x l IH]; intros H; [done|]. apply not_elem_of_cons in H as [H1 H2].
  rewrite filter_cons_True by congruence. by rewrite IH.
Qed.

Lemma held_two (a b : nat) (x y z : Z * list Z) :
  a <> b ->
  delete b (delete a (<[b := z]> (<[a := x]> (<[b := y]> (∅ : gmap nat (Z * list Z)))))) = ∅ /\
  delete b (delete a (<[b := z]> (<[b := y]> (<[a := x]> (∅ : gmap nat (Z * list Z)))))) = ∅.
Proof.
  intros Hab. split; apply map_eq; intros j; rewrite lookup_empty;
    destruct (decide (j = b)), (decide (j = a)); subst; try done; by simplify_map_eq.
Qed.

Section log.
Context {E : Env} {i : nat} {R : kernel -> kernel -> Prop} {HD : Driver E i R}.

(** ** Copying a block *)

(** Both loops of the log end an iteration the same way: the data of the
    buffer [a] is copied to [b], [b] is written, and both are released. *)
Lemma copy_wp {A} (C : kernel -> Prop) a na da b nb db held s dirty m k (rest : K A) Q :
  fs_view i s held dirty m k -> held !! a = Some (na, da) -> held !! b = Some (nb, db) ->
  na <> nb -> nb < FSSIZE -> na ∈ dirty \/ da = dblock k ROOTDEV na ->
  (forall s1, k_disk s1 = <[(Z.land ROOTDEV 1, nb) := da]> k -> C s1) ->
  (forall s', fs_view i s' (delete b (delete a (<[b := (nb, da)]> held)))
       (filter (fun n' => n' <> nb) dirty) (set_block m nb da)
       (<[(Z.land ROOTDEV 1, nb) := da]> k) -> io_rel s s' -> wpr R C rest s' Q) ->
  wpr R C (d ← data_of a; set_data b d;; bwrite b;; brelse a;; brelse b;; rest) s Q.
Proof.
  intros Hst Ha Hb Hne Hnb Hok HC HQ. assert (Hab : a <> b) by congruence.
  destruct (held_facts _ _ _ _ _ _ _ _ _ Hst Ha) as (_ & _ & Hda & _).
  apply wpr_bind, wpr_gets. rewrite Hda.
  eapply (wpr_step _ _ _ _ _ tt (with_buf b (fun x => x <| b_data := da |>) s)); [reflexivity|].
  pose proof (set_data_view i s held dirty m k b nb db (fun x => x <| b_data := da |>) da
    Hst Hb ltac:(done) eq_refl) as Hst1.
  set (s1 := with_buf b _ s) in *. set (held1 := <[b := (nb, da)]> held) in *.
  assert (Ha1 : held1 !! a = Some (na, da)) by (unfold held1; by rewrite lookup_insert_ne).
  assert (Hb1 : held1 !! b = Some (nb, da)) by (unfold held1; by rewrite lookup_insert_eq).
  apply wpr_bind. apply (bwrite_wp C b nb da s1 held1 dirty (set_block m nb da) k); try done.
  intros s2 Hst2 Hio2.
  destruct (brelse_view i a na da s2 _ _ _ _ Hst2 Ha1) as (s3 & E3 & Hst3 & Hio3).
  { destruct Hok as [Hok|Hok].
    - left. by apply list_elem_of_filter.
    - right. by rewrite dblock_insert_ne. }
  eapply wpr_step; [exact E3|].
  destruct (brelse_view i b nb da s3 _ _ _ _ Hst3) as (s4 & E4 & Hst4 & Hio4).
  { by rewrite lookup_delete_ne. }
  { right. by rewrite dblock_insert_eq. }
  eapply wpr_step; [exact E4|]. apply HQ; [done|].
  eapply io_rel_trans; [|exact Hio4]. eapply io_rel_trans; [|exact Hio3].
  eapply io_rel_trans; [|exact Hio2]. by destruct s.
Qed.

Lemma io_rel_log s s' : io_rel s s' -> k_log s' = k_log s.
Proof. by intros [-> _]. Qed.

(** Two blocks are read one after the other: a log block, which is not pinned,
    and a home block, which is pinned unless there is room for both. *)
Lemma bread2_wp {A} (C : kernel -> Prop) n1 n2 s dirty m k (f : nat -> nat -> K A) Q
    (mid : K Z) :
  fs_view i s ∅ dirty m k -> n1 < FSSIZE -> n2 < FSSIZE -> n1 <> n2 ->
  (length dirty < NBUF)%nat -> n2 ∈ dirty \/ (S (length dirty) < NBUF)%nat ->
  (forall s1, io_rel s s1 -> mid s1 = Ok n2 s1) -> u32 n2 = n2 ->
  (forall s1, k_disk s1 = k -> C s1) ->
  (forall a b s', fs_view i s' (<[b := (n2, m n2)]> (<[a := (n1, m n1)]> ∅)) dirty m k -> a <> b ->
     io_rel s s' -> wpr R C (f a b) s' Q) ->
  wpr R C (a ← bread ROOTDEV n1; n ← mid; b ← bread ROOTDEV (u32 n); f a b) s Q.
Proof.
  intros Hst H1 H2 Hne Hroom Hroom2 Hmid Hu HC HQ. apply wpr_bind.
  eapply (bread_wp C n1 s ∅ dirty m k); try done.
  { right. rewrite map_size_empty. lia. }
  intros a s1 Hst1 _ Hio1. eapply wpr_step; [by apply Hmid|]. rewrite Hu. apply wpr_bind.
  eapply (bread_wp C n2 s1 _ dirty m k); try done.
  - intros b x. rewrite lookup_insert_Some, lookup_empty. intros [[_ <-]|[_ ?]]; done.
  - rewrite map_size_insert_None by apply lookup_empty. rewrite map_size_empty.
    destruct Hroom2; [by left|right; lia].
  - intros b s2 Hst2 Hb Hio2. apply HQ; [done| |by eapply io_rel_trans].
    intros ->. by rewrite lookup_insert_eq in Hb.
Qed.

(** ** Writing the log *)

(** The disks [k] and [k'] agree outside the data blocks of the log. *)
Definition same_home (start : Z) (k k' : gmap (Z * Z) (list Z)) : Prop :=
  forall b, ~ (start + 1 <= b < start + LOGSIZE) -> dblock k' ROOTDEV b = dblock k ROOTDEV b.

Lemma write_log_loop_wp (C : kernel -> Prop) g hs fuel t s dirty m k Q :
  fs_view i s ∅ dirty m k -> k_log s = g -> log_ok g hs ->
  (forall h, h ∈ hs -> h ∈ dirty) -> (forall b, lg_start g <= b -> b ∉ dirty) ->
  (length dirty < NBUF)%nat -> (t <= length hs)%nat -> (Z.to_nat LOGSIZE <= fuel + t)%nat ->
  (forall s1, same_home (lg_start g) k (k_disk s1) -> C s1) ->
  (forall s' m' k', fs_view i s' ∅ dirty m' k' -> io_rel s s' ->
     (forall j h, (t <= j)%nat -> hs !! j = Some h ->
        dblock k' ROOTDEV (lg_start g + 1 + Z.of_nat j) = m h) ->
     (forall b, ~ (lg_start g + 1 + Z.of_nat t <= b < lg_start g + LOGSIZE) ->
        dblock k' ROOTDEV b = dblock k ROOTDEV b /\ m' b = m b) -> Q tt s') ->
  wpr R C (write_log_loop fuel (Z.of_nat t)) s Q.
Proof.
  intros Hst Hlog Hg Hpin Hlogb Hroom. revert fuel s m k Hst Hlog.
  remember (length hs - t)%nat as r eqn:Er. revert t Er.
  induction r as [|r IH]; intros t Er fuel s m k Hst Hlog Ht Hf HC HQ.
  - assert (Hstop : write_log_loop fuel (Z.of_nat t) s = Ok tt s).
    { destruct fuel; cbn [write_log_loop]; rewrite (bind_ok (gets k_log) _ s g s) by (unfold gets; by rewrite Hlog);
        rewrite (lo_n _ _ Hg); (destruct (Z.ltb_spec (Z.of_nat t) (Z.of_nat (length hs))); [lia|]); done. }
    eapply wpr_ok; [exact Hstop|]. apply (HQ s m k); [done|apply io_rel_refl| |done].
    intros j h Hj Hh. apply lookup_lt_Some in Hh. lia.
  - destruct (lookup_lt_is_Some_2 hs t ltac:(lia)) as [h Hh].
    pose proof (lo_n _ _ Hg) as Hn. pose proof (lo_room _ _ Hg) as Hrm.
    destruct fuel as [|fuel]; [lia|]. cbn [write_log_loop].
    eapply (wpr_step _ _ (gets k_log) _ s g s); [unfold gets; by rewrite Hlog|].
    rewrite Hn. destruct (Z.ltb_spec (Z.of_nat t) (Z.of_nat (length hs))); [|lia]. cbn [negb].
    destruct (log_small g hs (Z.of_nat t) Hg ltac:(lia)) as (-> & _ & ->).
    destruct (log_home g hs t h Hg Hh) as [Hu Hrange]. pose proof (lo_end _ _ Hg) as Hend.
    assert (Hhd : h ∈ dirty) by (apply Hpin; by eapply list_elem_of_lookup_2).
    set (lb := lg_start g + Z.of_nat t + 1).
    assert (Hlb : lg_start g + 1 <= lb < lg_start g + LOGSIZE) by (unfold lb; lia).
    unfold LOGSIZE, MAXOPBLOCKS, FSSIZE in *.
    eapply (bread2_wp C lb h s dirty m k _ Q (lh_block (Z.of_nat t))); try done; try lia.
    { unfold FSSIZE. lia. } { unfold FSSIZE. lia. } { by left. }
    { intros s1 Hio. eapply lh_block_ok; [done| |done]. by rewrite (io_rel_log s s1). }
    { intros s1 Hs1. apply HC. rewrite Hs1. by intros b _. }
    intros to from s1 Hst1 Hne Hio1.
    assert (Hdirty : filter (fun n' => n' <> lb) dirty = dirty) by (apply filter_ne_id, Hlogb; lia).
    eapply (copy_wp C from h (m h) to lb (m lb)); try done.
    { by rewrite lookup_insert_eq. }
    { rewrite lookup_insert_ne by done. by rewrite lookup_insert_eq. }
    { lia. } { unfold FSSIZE. lia. } { by left. }
    { intros s2 Hs2. apply HC. rewrite Hs2. intros b Hb. apply dblock_insert_ne. unfold LOGSIZE, MAXOPBLOCKS in Hb. lia. }
    intros s2 Hst2 Hio2. rewrite (proj1 (held_two from to _ _ _ ltac:(done))), Hdirty in Hst2.
    replace (Z.of_nat t + 1) with (Z.of_nat (S t)) by lia.
    eapply (IH (S t) ltac:(lia) fuel s2); [done| |lia|lia| |].
    { rewrite (io_rel_log s1 s2), (io_rel_log s s1); done. }
    { intros s3 Hs3. apply HC. intros b Hb. rewrite Hs3 by done. apply dblock_insert_ne.
      unfold LOGSIZE, MAXOPBLOCKS in Hb. lia. }
    intros s' m' k' Hst' Hio' Hcopied Hsame. apply (HQ s' m' k'); [done| | |].
    + eapply io_rel_trans; [exact Hio1|]. by eapply io_rel_trans.
    + intros j h' Hj Hh'. destruct (decide (j = t)) as [->|Hjt].
      * destruct (Hsame lb ltac:(lia)) as [Hs1 _]. replace (lg_start g + 1 + Z.of_nat t) with lb by (unfold lb; lia).
        rewrite Hs1, dblock_insert_eq. congruence.
      * rewrite (Hcopied j h') by (done || lia). unfold set_block. rewrite decide_False; [done|].
        destruct (log_home g hs j h' Hg Hh'). lia.
    + intros b Hb. destruct (Hsame b ltac:(lia)) as [Hs1 Hs2]. rewrite Hs1, Hs2. split.
      * apply dblock_insert_ne. lia.
      * unfold set_block. rewrite decide_False; [done|lia].
Qed.

(** ** The header *)

(** The header block with the home blocks [hs]. *)
Definition header (d : list Z) (hs : list Z) : list Z :=
  put_words (put32 d 0 (Z.of_nat (length hs))) 4 hs.

Lemma header_facts d hs :
  length d = Z.to_nat BSIZE -> (length hs <= Z.to_nat LOGSIZE)%nat ->
  Forall (fun h => 0 <= h < FSSIZE) hs ->
  length (header d hs) = Z.to_nat BSIZE /\ hdr_n (header d hs) = Z.of_nat (length hs) /\
  forall j h, hs !! j = Some h -> hdr_block (header d hs) (Z.of_nat j) = h.
Proof.
  intros Hd Hn Hh. change (Z.to_nat BSIZE) with 512%nat in *. change (Z.to_nat LOGSIZE) with 30%nat in *.
  unfold header. split_and!.
  - by rewrite length_put_words, length_put32.
  - unfold hdr_n. rewrite get32_put_words_ne by lia. rewrite get32_put32 by lia. wrap_lia.
  - intros j h Hj. unfold hdr_block. rewrite Nat2Z.id.
    rewrite (get32_put_words hs _ 4 j h); [|rewrite length_put32; lia|done].
    pose proof (Forall_lookup_1 _ _ _ _ Hh Hj) as H. unfold FSSIZE in H. simpl in H. wrap_lia.
Qed.

Lemma fs_view_ext s held dirty m m' k :
  (forall n, m n = m' n) -> fs_view i s held dirty m k -> fs_view i s held dirty m' k.
Proof. intros H [H1 H2 H3 H4]. split; try done. intros n. by rewrite H3. Qed.

(** The log in memory is no part of the cache. *)
Lemma fs_view_log s held dirty m k g :
  fs_view i s held dirty m k -> fs_view i (s <| k_log := g |>) held dirty m k.
Proof.
  intros [G1 [G2 G3 G4 G5] G6 G7]. split; try done; [by eapply ready_ext|]. split; try done.
  destruct G2 as [l G2]. exists l. by apply (cache_inv_bcache s).
Qed.

Lemma write_head_loop_view g hs fuel t b n0 d s held dirty m k :
  fs_view i s held dirty m k -> held !! b = Some (n0, d) -> k_log s = g -> log_ok g hs ->
  (t <= length hs)%nat -> (Z.to_nat LOGSIZE <= fuel + t)%nat ->
  exists s', write_head_loop fuel (Z.of_nat t) b s = Ok tt s' /\
    fs_view i s' (<[b := (n0, put_words d (4 + 4 * t) (drop t hs))]> held) dirty
      (set_block m n0 (put_words d (4 + 4 * t) (drop t hs))) k /\ io_rel s s'.
Proof.
  intros Hst Hb Hlog Hg. revert fuel s d held m Hst Hb Hlog.
  remember (length hs - t)%nat as r eqn:Er. revert t Er.
  induction r as [|r IH]; intros t Er fuel s d held m Hst Hb Hlog Ht Hf.
  - exists s. split_and!; [| |apply io_rel_refl].
    + destruct fuel; cbn [write_head_loop];
        rewrite (bind_ok (gets _) _ s (lg_n g) s) by (unfold gets; by rewrite Hlog);
        rewrite (lo_n _ _ Hg); (destruct (Z.ltb_spec (Z.of_nat t) (Z.of_nat (length hs))); [lia|]); done.
    + rewrite drop_ge by lia. simpl. rewrite insert_id by done. eapply fs_view_ext; [|exact Hst].
      intros n. unfold set_block. case_decide; [|done]. subst n.
      by destruct (held_facts _ _ _ _ _ _ _ _ _ Hst Hb) as (_ & _ & _ & ? & _).
  - destruct (lookup_lt_is_Some_2 hs t ltac:(lia)) as [h Hh].
    pose proof (lo_n _ _ Hg) as Hn. pose proof (lo_room _ _ Hg) as Hrm.
    destruct fuel as [|fuel]; [lia|]. cbn [write_head_loop].
    rewrite (bind_ok (gets _) _ s (lg_n g) s) by (unfold gets; by rewrite Hlog).
    rewrite Hn. destruct (Z.ltb_spec (Z.of_nat t) (Z.of_nat (length hs))); [|lia]. cbn [negb].
    rewrite (bind_ok _ _ _ _ _ (lh_block_ok g hs t h s Hg Hlog Hh)). rewrite Nat2Z.id.
    set (f := fun x : buf => x <| b_data ::= fun d => put32 d (4 + 4 * t) h |>).
    rewrite (bind_ok (set_buf b f) _ s tt (with_buf b f s) eq_refl).
    destruct (held_facts _ _ _ _ _ _ _ _ _ Hst Hb) as (_ & _ & Hd & _).
    pose proof (set_data_view i s held dirty m k b n0 d f (put32 d (4 + 4 * t) h) Hst Hb ltac:(done)
      ltac:(unfold f; simpl; by rewrite Hd)) as Hst1.
    replace (Z.of_nat t + 1) with (Z.of_nat (S t)) by lia.
    destruct (IH (S t) ltac:(lia) fuel (with_buf b f s) (put32 d (4 + 4 * t) h) _ _ Hst1)
      as (s' & Es & Hst' & Hio); [by rewrite lookup_insert_eq|done|lia|lia|].
    exists s'. split_and!; [exact Es| |].
    + rewrite insert_insert_eq in Hst'. rewrite (drop_S hs h t Hh). cbn [put_words].
      replace (4 + 4 * t + 4)%nat with (4 + 4 * S t)%nat by lia.
      eapply fs_view_ext; [|exact Hst']. intros n. unfold set_block. by repeat case_decide.
    + eapply io_rel_trans; [|exact Hio]. by destruct s.
Qed.

Lemma write_head_wp (C : kernel -> Prop) g hs s dirty m k Q :
  fs_view i s ∅ dirty m k -> k_log s = g -> log_ok g hs -> lg_start g ∉ dirty ->
  (length dirty < NBUF)%nat ->
  (forall s1, k_disk s1 = k \/
     k_disk s1 = <[(Z.land ROOTDEV 1, lg_start g) := header (m (lg_start g)) hs]> k -> C s1) ->
  (forall s', fs_view i s' ∅ dirty (set_block m (lg_start g) (header (m (lg_start g)) hs))
       (<[(Z.land ROOTDEV 1, lg_start g) := header (m (lg_start g)) hs]> k) ->
     io_rel s s' -> Q tt s') ->
  wpr R C write_head s Q.
Proof.
  intros Hst Hlog Hg Hnd Hroom HC HQ. unfold write_head.
  eapply (wpr_step _ _ (gets k_log) _ s g s); [unfold gets; by rewrite Hlog|].
  destruct (log_small g hs 0 Hg ltac:(done)) as (-> & -> & _).
  pose proof (lo_end _ _ Hg) as Hend. set (n0 := lg_start g) in *.
  assert (Hn0 : n0 < FSSIZE) by (unfold LOGSIZE, MAXOPBLOCKS, FSSIZE in *; lia).
  apply wpr_bind. eapply (bread_wp C n0 s ∅ dirty m k); try done.
  { right. rewrite map_size_empty. lia. }
  { intros s1 Hs1. apply HC. by left. }
  intros b s1 Hst1 _ Hio1. rewrite (lo_n _ _ Hg).
  set (f := fun x : buf => x <| b_data ::= fun d => put32 d 0 (Z.of_nat (length hs)) |>).
  eapply (wpr_step _ _ _ _ _ tt (with_buf b f s1)); [reflexivity|].
  assert (Hb1 : (<[b := (n0, m n0)]> (∅ : gmap nat (Z * list Z))) !! b = Some (n0, m n0))
    by apply lookup_insert_eq.
  destruct (held_facts _ _ _ _ _ _ _ _ _ Hst1 Hb1) as (_ & _ & Hd & _).
  pose proof (set_data_view i s1 _ dirty m k b n0 _ f (put32 (m n0) 0 (Z.of_nat (length hs))) Hst1 Hb1
    ltac:(done) ltac:(unfold f; simpl; by rewrite Hd)) as Hst2. rewrite insert_insert_eq in Hst2.
  destruct (write_head_loop_view g hs (Z.to_nat LOGSIZE) 0 b n0 (put32 (m n0) 0 (Z.of_nat (length hs)))
    (with_buf b f s1) _ dirty _ k Hst2) as (s3 & E3 & Hst3 & Hio3);
    [by rewrite lookup_insert_eq| |done|lia|lia|].
  { change (k_log (with_buf b f s1)) with (k_log s1). by rewrite (io_rel_log s s1). }
  eapply wpr_step; [exact E3|]. rewrite insert_insert_eq in Hst3.
  change (drop 0 hs) with hs in Hst3. change (4 + 4 * 0)%nat with 4%nat in Hst3.
  fold (header (m n0) hs) in Hst3.
  assert (Hb3 : (<[b := (n0, header (m n0) hs)]> (∅ : gmap nat (Z * list Z))) !! b
    = Some (n0, header (m n0) hs)) by apply lookup_insert_eq.
  apply wpr_bind. eapply (bwrite_wp C b n0 (header (m n0) hs) s3); try done.
  { intros s4 Hs4. apply HC. by right. }
  intros s4 Hst4 Hio4. rewrite filter_ne_id in Hst4 by done.
  destruct (brelse_view i b n0 (header (m n0) hs) s4 _ _ _ _ Hst4 Hb3) as (s5 & E5 & Hst5 & Hio5).
  { right. by rewrite dblock_insert_eq. }
  rewrite delete_insert_eq, delete_empty in Hst5.
  eapply wpr_ok; [exact E5|]. apply HQ.
  - eapply fs_view_ext; [|exact Hst5]. intros n. unfold set_block. by repeat case_decide.
  - eapply io_rel_trans; [exact Hio1|]. eapply io_rel_trans; [|exact Hio5].
    eapply io_rel_trans; [|exact Hio4]. eapply io_rel_trans; [|exact Hio3]. by destruct s1.
Qed.

(** ** Installing the log *)

(** A block that is not pinned has its contents on disk. *)
Lemma view_clean s dirty m k n : fs_view i s ∅ dirty m k -> n ∉ dirty -> m n = dblock k ROOTDEV n.
Proof.
  intros [H1 H2 H3 H4] Hn. rewrite <- H3, <- H4. by eapply contents_clean.
Qed.

(** The disk [k] after the first [t] entries of [es] have been installed over
    [k0], whose log starts at [start]. *)
Record installed (start : Z) (k0 : gmap (Z * Z) (list Z)) (es : list (Z * list Z)) (t : nat)
    (k : gmap (Z * Z) (list Z)) : Prop := {
  in_log : forall b, start <= b < start + LOGSIZE -> dblock k ROOTDEV b = dblock k0 ROOTDEV b;
  in_home : forall b, ~ (start <= b < start + LOGSIZE) ->
    dblock k ROOTDEV b = install (take t es) b (dblock k0 ROOTDEV b);
}.

Lemma installed_next start k0 es t k e :
  installed start k0 es t k -> es !! t = Some e -> e.1 < start ->
  installed start k0 es (S t) (<[(Z.land ROOTDEV 1, e.1) := e.2]> k).
Proof.
  intros [H1 H2] He Hlt. split; intros b Hb.
  - rewrite dblock_insert_ne by lia. by apply H1.
  - rewrite (take_S_r _ _ e He), install_app. simpl. destruct (Z.eqb_spec e.1 b) as [<-|Hne].
    + apply dblock_insert_eq.
    + rewrite dblock_insert_ne by congruence. by apply H2.
Qed.

(** Pinned blocks are in the cache when they are needed, or there is room. *)
Definition install_room (hs : list Z) (t : nat) (dirty : list Z) : Prop :=
  (NoDup hs /\ forall j h, (t <= j)%nat -> hs !! j = Some h -> h ∈ dirty) \/
  (S (length dirty) < NBUF)%nat.

Lemma install_room_next hs t dirty h :
  hs !! t = Some h -> install_room hs t dirty ->
  install_room hs (S t) (filter (fun n => n <> h) dirty).
Proof.
  intros Hh [[Hn H]|H].
  - left. split; [done|]. intros j h' Hj Hh'. apply list_elem_of_filter. split.
    + intros ->. pose proof (NoDup_lookup _ _ _ _ Hn Hh Hh'). lia.
    + apply (H j); [lia|done].
  - right. pose proof (length_filter (fun n => n <> h) dirty). lia.
Qed.

Lemma install_loop_wp (C : kernel -> Prop) g hs es k0 fuel t s dirty m k Q :
  fs_view i s ∅ dirty m k -> k_log s = g -> log_ok g hs ->
  (forall b, lg_start g <= b -> b ∉ dirty) -> (length dirty < NBUF)%nat ->
  es.*1 = hs -> (forall j e, es !! j = Some e -> e.2 = dblock k0 ROOTDEV (lg_start g + 1 + Z.of_nat j)) ->
  install_room hs t dirty -> installed (lg_start g) k0 es t k ->
  (t <= length hs)%nat -> (Z.to_nat LOGSIZE <= fuel + t)%nat ->
  (forall s1 t', installed (lg_start g) k0 es t' (k_disk s1) -> C s1) ->
  (forall s' dirty' m' k', fs_view i s' ∅ dirty' m' k' -> io_rel s s' ->
     installed (lg_start g) k0 es (length hs) k' ->
     (forall n, n ∈ dirty' -> n ∈ dirty /\ n ∉ drop t hs) -> Q tt s') ->
  wpr R C (install_loop fuel (Z.of_nat t)) s Q.
Proof.
  intros Hst Hlog Hg Hlogb Hroom Hes Hdat Hir Hin. revert fuel s dirty m k Hst Hlog Hlogb Hroom Hir Hin.
  remember (length hs - t)%nat as r eqn:Er. revert t Er.
  induction r as [|r IH]; intros t Er fuel s dirty m k Hst Hlog Hlogb Hroom Hir Hin Ht Hf HC HQ.
  - assert (Hstop : install_loop fuel (Z.of_nat t) s = Ok tt s).
    { destruct fuel; cbn [install_loop]; rewrite (bind_ok (gets k_log) _ s g s) by (unfold gets; by rewrite Hlog);
        rewrite (lo_n _ _ Hg); (destruct (Z.ltb_spec (Z.of_nat t) (Z.of_nat (length hs))); [lia|]); done. }
    eapply wpr_ok; [exact Hstop|]. apply (HQ s dirty m k); [done|apply io_rel_refl| |].
    + by replace (length hs) with t by lia.
    + intros n Hn. split; [done|]. rewrite drop_ge by lia. apply not_elem_of_nil.
  - destruct (lookup_lt_is_Some_2 hs t ltac:(lia)) as [h Hh].
    pose proof (lo_n _ _ Hg) as Hn. pose proof (lo_room _ _ Hg) as Hrm.
    destruct fuel as [|fuel]; [lia|]. cbn [install_loop].
    eapply (wpr_step _ _ (gets k_log) _ s g s); [unfold gets; by rewrite Hlog|].
    rewrite Hn. destruct (Z.ltb_spec (Z.of_nat t) (Z.of_nat (length hs))); [|lia]. cbn [negb].
    destruct (log_small g hs (Z.of_nat t) Hg ltac:(lia)) as (-> & _ & ->).
    destruct (log_home g hs t h Hg Hh) as [Hu Hrange]. pose proof (lo_end _ _ Hg) as Hend.
    assert (He : exists e, es !! t = Some e /\ e.1 = h).
    { rewrite <- Hes in Hh. rewrite list_lookup_fmap in Hh. destruct (es !! t) as [e|]; [|done].
      exists e. split; [done|]. by injection Hh. }
    destruct He as (e & He & He1).
    set (lb := lg_start g + Z.of_nat t + 1).
    assert (Hlb : lg_start g <= lb < lg_start g + LOGSIZE) by (unfold lb; lia).
    assert (Hmlb : m lb = e.2).
    { rewrite (view_clean s dirty m k lb Hst) by (apply Hlogb; lia).
      rewrite (in_log _ _ _ _ _ Hin lb Hlb), (Hdat t e He). f_equal. unfold lb. lia. }
    assert (Hh2 : h ∈ dirty \/ (S (length dirty) < NBUF)%nat).
    { destruct Hir as [[_ H1]|H1]; [left|by right]. by apply (H1 t). }
    unfold LOGSIZE, MAXOPBLOCKS, FSSIZE in *.
    eapply (bread2_wp C lb h s dirty m k _ Q (lh_block (Z.of_nat t))); try done; try lia.
    { unfold FSSIZE. lia. } { unfold FSSIZE. lia. }
    { intros s1 Hio. eapply lh_block_ok; [done| |done]. by rewrite (io_rel_log s s1). }
    { intros s1 Hs1. apply (HC s1 t). by rewrite Hs1. }
    intros lbuf dbuf s1 Hst1 Hne Hio1.
    assert (Hin' : installed (lg_start g) k0 es (S t) (<[(Z.land ROOTDEV 1, h) := m lb]> k)).
    { rewrite Hmlb, <- He1. apply installed_next; [done|done|]. lia. }
    eapply (copy_wp C lbuf lb (m lb) dbuf h (m h)); try done.
    { rewrite lookup_insert_ne by done. by rewrite lookup_insert_eq. }
    { by rewrite lookup_insert_eq. }
    { lia. } { unfold FSSIZE. lia. }
    { right. apply (view_clean s dirty m k lb Hst). apply Hlogb. lia. }
    { intros s2 Hs2. apply (HC s2 (S t)). by rewrite Hs2. }
    intros s2 Hst2 Hio2. rewrite (proj2 (held_two lbuf dbuf _ _ _ Hne)) in Hst2.
    replace (Z.of_nat t + 1) with (Z.of_nat (S t)) by lia.
    eapply (IH (S t) ltac:(lia) fuel s2); [done| | | | |done|lia|lia|done|].
    { rewrite (io_rel_log s1 s2), (io_rel_log s s1); done. }
    { intros b Hb Hb'. apply list_elem_of_filter in Hb' as [_ Hb']. by apply (Hlogb b). }
    { pose proof (length_filter (fun n' => n' <> h) dirty). lia. }
    { by apply install_room_next. }
    intros s' dirty' m' k' Hst' Hio' Hin'' Hd'. apply (HQ s' dirty' m' k'); [done| |done|].
    + eapply io_rel_trans; [exact Hio1|]. by eapply io_rel_trans.
    + intros n Hn'. destruct (Hd' n Hn') as [H1 H2]. apply list_elem_of_filter in H1 as [H1 H3].
      split; [done|]. rewrite (drop_S hs h t Hh). by apply not_elem_of_cons.
Qed.

(** ** Disks and their logs *)

Definition in_log_area (start b : Z) : Prop := start <= b < start + LOGSIZE.

Lemma replay_empty start k b :
  hdr_n (dblock k ROOTDEV start) = 0 -> replay start k b = dblock k ROOTDEV b.
Proof. intros H. unfold replay, log_entries. by rewrite H. Qed.

Lemma log_entries_header start k d hs (f : Z -> list Z) :
  length d = Z.to_nat BSIZE -> (length hs <= Z.to_nat LOGSIZE)%nat ->
  Forall (fun h => 0 <= h < FSSIZE) hs -> dblock k ROOTDEV start = header d hs ->
  (forall j h, hs !! j = Some h -> dblock k ROOTDEV (start + 1 + Z.of_nat j) = f h) ->
  log_entries start k = (fun h => (h, f h)) <$> hs.
Proof.
  intros H1 H2 H3 H4 H5. destruct (header_facts d hs H1 H2 H3) as (_ & Hn & Hb).
  unfold log_entries. rewrite H4, Hn. apply list_eq. intros j. rewrite !list_lookup_fmap.
  destruct (decide (j < length hs)%nat) as [Hj|Hj].
  - destruct (lookup_lt_is_Some_2 hs j Hj) as [h Hh].
    rewrite lookup_seqZ_lt, Hh by lia. rewrite Z.add_0_l. simpl. by rewrite (Hb j h Hh), (H5 j h Hh).
  - rewrite lookup_seqZ_ge by lia. by rewrite (lookup_ge_None_2 hs) by lia.
Qed.

Lemma log_entries_same start k k' :
  hdr_n (dblock k ROOTDEV start) < LOGSIZE ->
  (forall b, in_log_area start b -> dblock k' ROOTDEV b = dblock k ROOTDEV b) ->
  log_entries start k' = log_entries start k.
Proof.
  intros Hn H. unfold log_entries. rewrite (H start) by (unfold in_log_area, LOGSIZE, MAXOPBLOCKS; lia).
  apply list_fmap_ext. intros j x Hx. apply lookup_seqZ in Hx as [Hx1 Hx2]. f_equal. apply H.
  unfold in_log_area. lia.
Qed.

(** A partly installed log replays to the same contents. *)
Lemma replay_installed start k0 es t k b :
  installed start k0 es t k -> log_entries start k0 = es ->
  hdr_n (dblock k0 ROOTDEV start) < LOGSIZE -> ~ in_log_area start b ->
  replay start k b = replay start k0 b.
Proof.
  intros [H1 H2] Hes Hn Hb. unfold replay.
  rewrite (log_entries_same start k0 k Hn H1), (H2 b Hb), Hes. apply install_again.
Qed.

Lemma install_all hs (m : Z -> list Z) b d :
  install ((fun h => (h, m h)) <$> hs) b d = if decide (b ∈ hs) then m b else d.
Proof.
  revert d; induction hs as [|h hs IH]; intros d.
  - destruct (decide (b ∈ [])) as [H|]; [by apply elem_of_nil in H|done].
  - change (install ((fun h => (h, m h)) <$> hs) b (if h =? b then m h else d)
      = if decide (b ∈ h :: hs) then m b else d). rewrite IH. destruct (decide (b ∈ hs)) as [Hb|Hb].
    + by rewrite decide_True by (by right).
    + destruct (Z.eqb_spec h b) as [->|Hne].
      * by rewrite decide_True by (by left).
      * rewrite decide_False; [done|]. rewrite elem_of_cons. intros [->|?]; done.
Qed.

(** A header that recovery can use: the log fits, and home blocks lie before
    it. *)
Definition header_ok (start : Z) (d : list Z) : Prop :=
  length d = Z.to_nat BSIZE /\ 0 <= hdr_n d < LOGSIZE /\
  forall j, 0 <= j < hdr_n d -> 0 <= hdr_block d j < start.

(** A disk whose log is empty, with room for a header. *)
Definition log_empty (start : Z) (k : gmap (Z * Z) (list Z)) : Prop :=
  hdr_n (dblock k ROOTDEV start) = 0 /\ length (dblock k ROOTDEV start) = Z.to_nat BSIZE.

Lemma log_empty_ok start k : log_empty start k -> header_ok start (dblock k ROOTDEV start).
Proof. intros [H1 H2]. unfold header_ok. rewrite H1. unfold LOGSIZE, MAXOPBLOCKS. split_and!; [done|lia..]. Qed.

Lemma log_home_range g hs : log_ok g hs -> Forall (fun h => 0 <= h < FSSIZE) hs.
Proof.
  intros Hg. eapply Forall_impl; [apply (lo_home _ _ Hg)|]. simpl. intros h Hh.
  pose proof (lo_end _ _ Hg). unfold LOGSIZE, MAXOPBLOCKS, FSSIZE in *. lia.
Qed.

Lemma log_len g hs : log_ok g hs -> (length hs < Z.to_nat LOGSIZE)%nat /\ (length hs < NBUF)%nat.
Proof.
  intros Hg. pose proof (lo_n _ _ Hg). pose proof (lo_room _ _ Hg).
  unfold LOGSIZE, MAXOPBLOCKS, NBUF in *. lia.
Qed.

Lemma header_ok_header d hs start :
  length d = Z.to_nat BSIZE -> (length hs < Z.to_nat LOGSIZE)%nat -> start <= FSSIZE ->
  Forall (fun h => 0 <= h < start) hs -> header_ok start (header d hs).
Proof.
  intros H1 H2 H3 H4.
  assert (H5 : Forall (fun h => 0 <= h < FSSIZE) hs) by (eapply Forall_impl; [exact H4|simpl; lia]).
  destruct (header_facts d hs H1 ltac:(lia) H5) as (G1 & G2 & G3). split_and!; [done|lia|lia|].
  intros j Hj. rewrite G2 in Hj.
  destruct (lookup_lt_is_Some_2 hs (Z.to_nat j) ltac:(lia)) as [h Hh].
  replace j with (Z.of_nat (Z.to_nat j)) by lia. rewrite (G3 _ _ Hh).
  apply (Forall_lookup_1 _ _ _ _ H4 Hh).
Qed.

(** ** Commit *)

(** What a crash during a commit may leave: all of the old contents, or all of
    the new ones. *)
Definition old_or_new (start : Z) (k : gmap (Z * Z) (list Z)) (m : Z -> list Z) (s1 : kernel) : Prop :=
  header_ok start (dblock (k_disk s1) ROOTDEV start) /\
  ((forall b, ~ in_log_area start b -> replay start (k_disk s1) b = dblock k ROOTDEV b) \/
   (forall b, ~ in_log_area start b -> replay start (k_disk s1) b = m b)).

(** A disk with a usable log that replays to the contents of [k0]. *)
Definition same_replay (start : Z) (k0 k : gmap (Z * Z) (list Z)) : Prop :=
  header_ok start (dblock k ROOTDEV start) /\
  forall b, ~ in_log_area start b -> replay start k b = replay start k0 b.

Definition log_cleared (g : log) : log := g <| lg_n := 0 |>.

Lemma log_ok_cleared g hs : log_ok g hs -> log_ok (log_cleared g) [].
Proof. intros [H1 H2 H3 H4 H5 H6 H7 H8]. split; try done. Qed.

(** The end of a commit and of a recovery, from a disk [k0] whose log is
    complete: the log is installed and cleared. *)
Lemma install_clear_wp (C : kernel -> Prop) g hs s dirty m k0 Q :
  fs_view i s ∅ dirty m k0 -> k_log s = g -> log_ok g hs ->
  (forall n, n ∈ dirty -> n ∈ hs) -> (length dirty < NBUF)%nat -> install_room hs 0 dirty ->
  header_ok (lg_start g) (dblock k0 ROOTDEV (lg_start g)) ->
  (log_entries (lg_start g) k0).*1 = hs ->
  (forall s1, same_replay (lg_start g) k0 (k_disk s1) -> C s1) ->
  (forall s' m' k', fs_view i s' ∅ [] m' k' -> k_log s' = log_cleared g -> io_rel s (s' <| k_log := g |>) ->
     log_empty (lg_start g) k' ->
     (forall b, ~ in_log_area (lg_start g) b -> dblock k' ROOTDEV b = replay (lg_start g) k0 b) ->
     Q tt s') ->
  wpr R C (install_trans;; set_lh_n 0;; write_head) s Q.
Proof.
  intros Hst Hlog Hg Hdh Hroom Hir Hok Hfst HC HQ. destruct (log_len g hs Hg) as [Hl1 Hl2].
  pose proof Hok as (Hlen & [_ Hhn] & _).
  set (start := lg_start g) in *. set (es := log_entries start k0) in *.
  assert (Hpart : forall t k, installed start k0 es t k -> same_replay start k0 k).
  { intros t k Hin. split; [|intros b Hb; by apply (replay_installed start k0 es t k b)].
    rewrite (in_log _ _ _ _ _ Hin); [done|]. unfold LOGSIZE, MAXOPBLOCKS. lia. }
  apply wpr_bind. unfold install_trans.
  eapply (install_loop_wp C g hs es k0 _ 0 s dirty m k0); try done; try lia.
  - intros b Hb Hin%Hdh. pose proof (proj1 (Forall_forall _ _) (lo_home _ _ Hg) b) as H.
    apply H in Hin. lia.
  - intros j e He. unfold es, log_entries in He. rewrite list_lookup_fmap in He.
    destruct (seqZ 0 (hdr_n (dblock k0 ROOTDEV start)) !! j) as [x|] eqn:Ex; [|done].
    apply lookup_seqZ in Ex as [-> Ex]. simpl in He. injection He as <-. simpl. f_equal.
  - intros s1 t' Hin. apply HC. by eapply Hpart.
  - intros s1 dirty' m1 k1 Hst1 Hio1 Hin1 Hd1.
    assert (dirty' = []) as ->.
    { destruct dirty' as [|n dirty']; [done|]. destruct (Hd1 n ltac:(by left)) as [H1 H2].
      rewrite drop_0 in H2. by destruct H2; apply Hdh. }
    assert (Hlog1 : k_log s1 = g) by (by rewrite (io_rel_log s s1)).
    eapply (wpr_step _ _ (set_lh_n 0) _ s1 tt (s1 <| k_log := log_cleared (k_log s1) |>));
      [reflexivity|]. rewrite Hlog1.
    set (s2 := s1 <| k_log := log_cleared g |>).
    assert (Hst2 : fs_view i s2 ∅ [] m1 k1) by (by apply fs_view_log).
    assert (Hs1 : m1 start = dblock k0 ROOTDEV start).
    { rewrite (view_clean s1 [] m1 k1 start Hst1 ltac:(apply not_elem_of_nil)).
      apply (in_log _ _ _ _ _ Hin1). unfold LOGSIZE, MAXOPBLOCKS. lia. }
    assert (Hhome : forall b, ~ in_log_area start b -> dblock k1 ROOTDEV b = replay start k0 b).
    { intros b Hb. rewrite (in_home _ _ _ _ _ Hin1 b Hb).
      by rewrite take_ge by (by rewrite <- Hfst, length_fmap). }
    destruct (header_facts (m1 start) [] ltac:(by rewrite Hs1) ltac:(simpl; lia) ltac:(constructor))
      as (Hh1 & Hh2 & _).
    set (k2 := <[(Z.land ROOTDEV 1, start) := header (m1 start) []]> k1).
    assert (Hk2 : forall b, ~ in_log_area start b -> dblock k2 ROOTDEV b = replay start k0 b).
    { intros b Hb. unfold k2. rewrite dblock_insert_ne; [by apply Hhome|]. intros ->. apply Hb.
      unfold in_log_area, LOGSIZE, MAXOPBLOCKS. lia. }
    assert (Hstart2 : dblock k2 ROOTDEV start = header (m1 start) []) by apply dblock_insert_eq.
    eapply (write_head_wp C (log_cleared g) [] s2 [] m1 k1); try done.
    + by eapply log_ok_cleared.
    + apply not_elem_of_nil.
    + unfold NBUF. simpl. lia.
    + intros s3 [Hs3|Hs3]; apply HC; rewrite Hs3.
      * by eapply Hpart.
      * change (lg_start (log_cleared g)) with start. fold k2. split.
        { rewrite Hstart2. apply header_ok_header; [by rewrite Hs1|simpl; lia| |constructor].
          pose proof (lo_end _ _ Hg). unfold start, LOGSIZE, MAXOPBLOCKS in *. lia. }
        intros b Hb. rewrite replay_empty; [by apply Hk2|]. by rewrite Hstart2.
    + intros s3 Hst3 Hio3. eapply HQ; [exact Hst3| | | |].
      * by rewrite (io_rel_log s2 s3).
      * destruct Hio1 as [Hio1 Hc1], Hio3 as [Hio3 Hc3]. split; [|by etransitivity].
        rewrite Hio3. unfold s2. rewrite Hio1, <- Hlog. by destruct s.
      * change (lg_start (log_cleared g)) with start. fold k2. unfold log_empty. by rewrite Hstart2.
      * exact Hk2.
Qed.

(** A commit, from a state in which exactly the recorded blocks are pinned. *)
Lemma commit_wp g hs s m k :
  fs_view i s ∅ hs m k -> k_log s = g -> log_ok g hs -> NoDup hs -> log_empty (lg_start g) k ->
  wpr R (old_or_new (lg_start g) k m) commit s (fun _ s' => exists m' k',
    fs_view i s' ∅ [] m' k' /\ k_log s' = log_cleared g /\ io_rel s (s' <| k_log := g |>) /\
    log_empty (lg_start g) k' /\
    forall b, ~ in_log_area (lg_start g) b -> dblock k' ROOTDEV b = m b).
Proof.
  intros Hst Hlog Hg Hnd [He1 He2]. destruct (log_len g hs Hg) as [Hl1 Hl2].
  set (start := lg_start g) in *. set (C := old_or_new start k m).
  unfold commit. apply wpr_bind, wpr_gets. rewrite Hlog, (lo_n _ _ Hg).
  destruct hs as [|h0 hs'].
  { apply wpr_ret. exists m, k. split_and!; try done.
    - rewrite Hlog. pose proof (lo_n _ _ Hg) as Hn. unfold log_cleared. change 0 with (Z.of_nat (@length Z [])).
      rewrite <- Hn. by destruct g.
    - rewrite <- Hlog. by destruct s.
    - intros b Hb. symmetry. apply (view_clean s [] m k b Hst). apply not_elem_of_nil. }
  set (hs := h0 :: hs') in *.
  destruct (Z.ltb_spec 0 (Z.of_nat (length hs))) as [_|H]; [|unfold hs in H; simpl in H; lia].
  cbn [when]. apply wpr_bind. unfold write_log.
  assert (Hstart : start ∉ hs).
  { intros Hin. apply (proj1 (Forall_forall _ _) (lo_home _ _ Hg)) in Hin. unfold start in Hin. lia. }
  assert (Hold : forall s1, same_home start k (k_disk s1) -> C s1).
  { intros s1 Hsame. assert (Hh : dblock (k_disk s1) ROOTDEV start = dblock k ROOTDEV start)
      by (apply Hsame; lia). split.
    - rewrite Hh. split_and!; [done|lia|unfold LOGSIZE, MAXOPBLOCKS; lia|lia].
    - left. intros b Hb. rewrite replay_empty by (by rewrite Hh).
      apply Hsame. unfold in_log_area in Hb. lia. }
  eapply (write_log_loop_wp C g hs _ 0 s hs m k); try done; try lia.
  { intros b Hb Hin. apply (proj1 (Forall_forall _ _) (lo_home _ _ Hg)) in Hin. lia. }
  intros s1 m1 k1 Hst1 Hio1 Hcopied Hsame.
  assert (Hsame1 : same_home start k k1) by (intros b Hb; apply Hsame; unfold start in Hb; lia).
  assert (Hm1 : m1 start = dblock k ROOTDEV start).
  { destruct (Hsame start ltac:(unfold start; lia)) as [_ ->]. by apply (view_clean s hs m k). }
  assert (Hhome : forall b, ~ in_log_area start b -> m1 b = m b).
  { intros b Hb. apply Hsame. unfold in_log_area, start in Hb. lia. }
  set (k2 := <[(Z.land ROOTDEV 1, start) := header (m1 start) hs]> k1).
  assert (Hk2 : dblock k2 ROOTDEV start = header (m1 start) hs) by apply dblock_insert_eq.
  destruct (header_facts (m1 start) hs ltac:(by rewrite Hm1) ltac:(lia) (log_home_range g hs Hg))
    as (Hh1 & Hh2 & _).
  assert (Hes : log_entries start k2 = (fun h => (h, m1 h)) <$> hs).
  { apply (log_entries_header start k2 (m1 start) hs m1); try done; [by rewrite Hm1|lia|by eapply log_home_range|].
    intros j h Hh. unfold k2. rewrite dblock_insert_ne by (unfold start; lia).
    unfold start. rewrite (Hcopied j h ltac:(lia) Hh). symmetry. apply Hhome.
    destruct (log_home g hs j h Hg Hh). unfold in_log_area, start. lia. }
  assert (Hok2 : header_ok start (header (m1 start) hs)).
  { pose proof (lo_end _ _ Hg).
    apply header_ok_header; [by rewrite Hm1|done|unfold start, LOGSIZE, MAXOPBLOCKS in *; lia|apply Hg]. }
  apply wpr_bind. eapply (write_head_wp C g hs s1 hs m1 k1); try done.
  { by rewrite (io_rel_log s s1). }
  { intros s2 [Hs2|Hs2].
    - apply Hold. by rewrite Hs2.
    - unfold C, old_or_new. rewrite Hs2. fold start. fold k2. split; [by rewrite Hk2|]. right.
      intros b Hb. unfold replay. rewrite Hes, install_all.
      rewrite <- (Hhome b Hb). destruct (decide (b ∈ hs)) as [|Hb']; [done|].
      unfold k2. rewrite dblock_insert_ne by (intros ->; apply Hb; unfold in_log_area, LOGSIZE, MAXOPBLOCKS; lia).
      symmetry. by apply (view_clean s1 hs m1 k1). }
  intros s2 Hst2 Hio2. fold start in Hst2. fold k2 in Hst2.
  assert (Hlog2 : k_log s2 = g) by (by rewrite (io_rel_log s1 s2), (io_rel_log s s1)).
  set (m2 := set_block m1 start (header (m1 start) hs)) in *.
  assert (Hm2 : forall b, ~ in_log_area start b -> m2 b = m b).
  { intros b Hb. unfold m2, set_block. rewrite decide_False; [by apply Hhome|].
    intros ->. apply Hb. unfold in_log_area, LOGSIZE, MAXOPBLOCKS. lia. }
  assert (Hes2 : log_entries start k2 = (fun h => (h, m2 h)) <$> hs).
  { rewrite Hes. apply list_fmap_ext. intros j h Hh. f_equal.
    unfold m2, set_block. rewrite decide_False; [done|]. destruct (log_home g hs j h Hg Hh). unfold start. lia. }
  assert (Hnew : forall b, ~ in_log_area start b -> replay start k2 b = m b).
  { intros b Hb. unfold replay. rewrite Hes2, install_all, <- (Hm2 b Hb).
    destruct (decide (b ∈ hs)); [done|]. symmetry. by apply (view_clean s2 hs m2 k2). }
  eapply (install_clear_wp C g hs s2 hs m2 k2); try done.
  - left. split; [done|]. intros j h _ Hh. by eapply list_elem_of_lookup_2.
  - fold start. by rewrite Hk2.
  - fold start. rewrite Hes2, <- list_fmap_compose. apply list_fmap_id.
  - intros s3 [Hs3 Hs4]. split; [done|]. right. intros b Hb. fold start in Hs4.
    rewrite (Hs4 b Hb). by apply Hnew.
  - intros s3 m3 k3 H1 H2 Hio3 H3 H4. exists m3, k3. split_and!; try done.
    { eapply io_rel_trans; [exact Hio1|]. by eapply io_rel_trans. }
    intros b Hb. fold start in H4. rewrite (H4 b Hb). by apply Hnew.
Qed.

(** ** Recovery *)

(** The log [g] with the header [d] read into memory. *)
Definition log_read (d : list Z) (g g' : log) : Prop :=
  log_ok g' (hdr_block d <$> seqZ 0 (hdr_n d)) /\ lg_start g' = lg_start g.

Lemma log_same s g : k_log s = g -> s <| k_log := g <| lg_block := lg_block g |> |> = s.
Proof. intros <-. destruct s as []. unfold update. simpl. by destruct k_log. Qed.

Lemma read_head_loop_ok d g n fuel t s :
  k_log s = g -> lg_n g = n -> length (lg_block g) = Z.to_nat LOGSIZE -> n < LOGSIZE ->
  (forall j, 0 <= j < n -> 0 <= hdr_block d j < FSSIZE) ->
  0 <= t -> (Z.to_nat LOGSIZE <= fuel + Z.to_nat t)%nat ->
  take (Z.to_nat t) (lg_block g) = hdr_block d <$> seqZ 0 t ->
  t <= n ->
  exists bs, read_head_loop fuel t d s = Ok tt (s <| k_log := g <| lg_block := bs |> |>) /\
    length bs = Z.to_nat LOGSIZE /\ take (Z.to_nat n) bs = hdr_block d <$> seqZ 0 n.
Proof.
  intros Hlog Hn Hlen Hlt Hblk Ht. remember (Z.to_nat (n - t)) as r eqn:Er. revert t Ht Er fuel s g Hlog Hn Hlen.
  induction r as [|r IH]; intros t Ht Er fuel s g Hlog Hn Hlen Hf Htk Htn.
  - assert (t = n) as -> by lia. exists (lg_block g). split_and!; [|done|done].
    destruct fuel; cbn [read_head_loop];
      (rewrite (bind_ok (gets _) _ s n s) by (unfold gets; by rewrite Hlog, Hn));
      (destruct (Z.ltb_spec n n); [lia|]); by rewrite log_same.
  - destruct fuel as [|fuel]; [unfold LOGSIZE, MAXOPBLOCKS in *; lia|]. cbn [read_head_loop].
    rewrite (bind_ok (gets _) _ s n s) by (unfold gets; by rewrite Hlog, Hn).
    destruct (Z.ltb_spec t n); [|lia]. cbn [negb].
    set (bs := <[Z.to_nat t := i32 (hdr_block d t)]> (lg_block g)).
    set (s1 := s <| k_log := g <| lg_block := bs |> |>).
    assert (Hset : set_lh_block t (hdr_block d t) s = Ok tt s1).
    { unfold set_lh_block. destruct (Z.leb_spec LOGSIZE t); [lia|].
      unfold modify. f_equal. unfold s1, bs. rewrite <- Hlog. by destruct s as []. }
    rewrite (bind_ok _ _ _ _ _ Hset).
    assert (Hi : i32 (hdr_block d t) = hdr_block d t).
    { pose proof (Hblk t ltac:(lia)) as Hb. unfold FSSIZE in Hb. apply i32_id. wrap_unfold. lia. }
    destruct (IH (t + 1) ltac:(lia) ltac:(lia) fuel s1 (g <| lg_block := bs |>)) as (bs' & E' & H1 & H2);
      [done|done| | | |lia|].
    + unfold bs. simpl. by rewrite length_insert.
    + lia.
    + simpl. unfold bs. replace (Z.to_nat (t + 1)) with (S (Z.to_nat t)) by lia.
      rewrite (take_S_r _ _ (hdr_block d t)).
      * rewrite take_insert_ge by lia. rewrite Htk. rewrite (seqZ_app 0 t 1) by lia.
        rewrite fmap_app. done.
      * rewrite list_lookup_insert_eq; [by rewrite Hi|]. rewrite Hlen. lia.
    + exists bs'. split_and!; [|done|done]. by rewrite E'.
Qed.

(** The log of a file system that is being mounted. *)
Record log_mounting (g : log) : Prop := {
  lm_dev : lg_dev g = ROOTDEV;
  lm_start : 0 <= lg_start g;
  lm_end : lg_start g + LOGSIZE <= FSSIZE;
  lm_len : length (lg_block g) = Z.to_nat LOGSIZE;
}.

Lemma log_ok_read g d bs :
  log_mounting g -> header_ok (lg_start g) d -> length bs = Z.to_nat LOGSIZE ->
  take (Z.to_nat (hdr_n d)) bs = hdr_block d <$> seqZ 0 (hdr_n d) ->
  log_ok (g <| lg_n := hdr_n d |> <| lg_block := bs |>) (hdr_block d <$> seqZ 0 (hdr_n d)).
Proof.
  intros [H1 H2 H3 H4] (G1 & G2 & G3) Hl Ht. split; simpl; try done.
  - rewrite length_fmap, length_seqZ. lia.
  - lia.
  - by rewrite length_fmap, length_seqZ.
  - apply Forall_fmap, Forall_forall. intros j Hj. apply elem_of_seqZ in Hj. simpl. apply G3. lia.
Qed.

Lemma read_head_wp (C : kernel -> Prop) g s m k Q :
  fs_view i s ∅ [] m k -> k_log s = g -> log_mounting g ->
  header_ok (lg_start g) (dblock k ROOTDEV (lg_start g)) ->
  (forall s1, k_disk s1 = k -> C s1) ->
  (forall s' g', fs_view i s' ∅ [] m k -> k_log s' = g' ->
     log_ok g' (hdr_block (dblock k ROOTDEV (lg_start g)) <$>
       seqZ 0 (hdr_n (dblock k ROOTDEV (lg_start g)))) -> lg_start g' = lg_start g ->
     io_rel s (s' <| k_log := g |>) -> Q tt s') ->
  wpr R C read_head s Q.
Proof.
  intros Hst Hlog Hm Hh HC HQ. unfold read_head. set (start := lg_start g) in *.
  set (d := dblock k ROOTDEV start) in *. pose proof Hm as [M1 M2 M3 M4]. pose proof Hh as (H1 & H2 & H3).
  eapply (wpr_step _ _ (gets k_log) _ s g s); [unfold gets; by rewrite Hlog|].
  rewrite M1. change (u32 ROOTDEV) with ROOTDEV. fold start.
  replace (u32 start) with start by (unfold start, LOGSIZE, MAXOPBLOCKS, FSSIZE in *; wrap_lia).
  assert (Hmd : m start = d) by (apply (view_clean s [] m k start Hst), not_elem_of_nil).
  apply wpr_bind. eapply (bread_wp C start s ∅ [] m k); try done.
  { unfold start, LOGSIZE, MAXOPBLOCKS, FSSIZE in *. lia. }
  { right. rewrite map_size_empty. unfold NBUF. simpl. lia. }
  intros b s1 Hst1 _ Hio1.
  assert (Hb1 : (<[b := (start, m start)]> (∅ : gmap nat (Z * list Z))) !! b = Some (start, m start))
    by apply lookup_insert_eq.
  destruct (held_facts _ _ _ _ _ _ _ _ _ Hst1 Hb1) as (_ & _ & Hd & _).
  apply wpr_bind, wpr_gets. rewrite Hd, Hmd.
  assert (Hlog1 : k_log s1 = g) by (by rewrite (io_rel_log s s1)).
  set (g1 := g <| lg_n := hdr_n d |>).
  eapply (wpr_step _ _ (set_lh_n _) _ s1 tt (s1 <| k_log := g1 |>)).
  { unfold set_lh_n, modify. f_equal. unfold g1. rewrite <- Hlog1. by destruct s1. }
  destruct (read_head_loop_ok d g1 (hdr_n d) (Z.to_nat LOGSIZE) 0 (s1 <| k_log := g1 |>))
    as (bs & Ebs & Hb3 & Hb4); try done; try lia.
  { intros j Hj. specialize (H3 j Hj). unfold start, LOGSIZE, MAXOPBLOCKS, FSSIZE in *. lia. }
  eapply wpr_step; [exact Ebs|].
  set (g2 := g1 <| lg_block := bs |>). set (s2 := (s1 <| k_log := g1 |>) <| k_log := g2 |>).
  assert (Hst2 : fs_view i s2 (<[b := (start, m start)]> ∅) [] m k) by (by apply fs_view_log, fs_view_log).
  destruct (brelse_view i b start (m start) s2 _ _ _ _ Hst2 Hb1) as (s3 & E3 & Hst3 & Hio3).
  { right. by rewrite Hmd. }
  rewrite delete_insert_eq, delete_empty in Hst3.
  eapply wpr_ok; [exact E3|]. apply (HQ s3 g2); [done| | |done|].
  - by rewrite (io_rel_log s2 s3).
  - by apply log_ok_read.
  - destruct Hio1 as [Hio1 Hc1], Hio3 as [Hio3 Hc3]. split; [|by etransitivity].
        rewrite Hio3. unfold s2. rewrite Hio1, <- Hlog. by destruct s.
Qed.

(** Recovery, from a disk whose header is well formed, leaves the contents
    that [replay] gives and an empty log; if it crashes, the disk still
    replays to the same contents. *)
Lemma recover_wp g s m k :
  fs_view i s ∅ [] m k -> k_log s = g -> log_mounting g ->
  header_ok (lg_start g) (dblock k ROOTDEV (lg_start g)) ->
  wpr R (fun s1 => same_replay (lg_start g) k (k_disk s1)) recover_from_log s
    (fun _ s' => exists m' k', fs_view i s' ∅ [] m' k' /\
      lg_n (k_log s') = 0 /\ lg_start (k_log s') = lg_start g /\ log_empty (lg_start g) k' /\
      forall b, ~ in_log_area (lg_start g) b -> dblock k' ROOTDEV b = replay (lg_start g) k b).
Proof.
  intros Hst Hlog Hm Hh. unfold recover_from_log. apply wpr_bind.
  eapply (read_head_wp _ g s m k); try done.
  { intros s1 Hs1. by rewrite Hs1. }
  intros s1 g' Hst1 Hlog1 Hg Hstart Hio. pose proof Hh as (H1 & H2 & H3).
  eapply (install_clear_wp _ g' _ s1 [] m k); try done; rewrite ?Hstart; try done; try lia.
  - intros n Hn. by apply elem_of_nil in Hn.
  - unfold NBUF. simpl. lia.
  - right. unfold NBUF. simpl. lia.
  - unfold log_entries. rewrite <- list_fmap_compose. done.
  - intros s2 m2 k2 G1 G2 _ G3 G4. exists m2, k2. split_and!; try done; rewrite G2; done.
Qed.
End log.

(** ** Crashes and reboots *)

(** A machine that has booted with the disk [k] and is about to recover the
    log: nothing is cached but clean blocks, nothing is in the log of memory. *)
Definition mounted (i : nat) (start : Z) (k : gmap (Z * Z) (list Z)) (s : kernel) : Prop :=
  (exists m, fs_view i s ∅ [] m k) /\ log_mounting (k_log s) /\ lg_start (k_log s) = start.

(** [recovers i R start k k']: a machine with disk [k] may crash any number of
    times during recovery; the recovery that completes leaves the disk [k']. *)
Inductive recovers `{Env} (i : nat) (R : kernel -> kernel -> Prop) (start : Z) :
    gmap (Z * Z) (list Z) -> gmap (Z * Z) (list Z) -> Prop :=
| rec_done k s s' :
    mounted i start k s -> returns R (recover_from_log s) tt s' ->
    recovers i R start k (k_disk s')
| rec_crash k s s1 k' :
    mounted i start k s -> crash_state R (recover_from_log s) s1 ->
    recovers i R start (k_disk s1) k' -> recovers i R start k k'.

Lemma recovers_replay {E : Env} {i R} {HD : Driver E i R} start k k' :
  recovers i R start k k' -> header_ok start (dblock k ROOTDEV start) ->
  log_empty start k' /\
  forall b, ~ in_log_area start b -> dblock k' ROOTDEV b = replay start k b.
Proof.
  induction 1 as [k s s' ([m Hst] & Hm & <-) Hr|k s s1 k' ([m Hst] & Hm & <-) Hc _ IH]; intros Hh;
    pose proof (recover_wp (HD:=HD) _ s m k Hst eq_refl Hm Hh) as Hw.
  - destruct (wpr_returns _ _ _ _ _ _ _ Hw Hr) as (m' & k' & Hst' & _ & _ & G3 & G4).
    by rewrite (st_disk _ _ _ _ _ _ Hst').
  - destruct (wpr_crash _ _ _ _ _ _ Hw Hc) as [G1 G2]. destruct (IH G1) as [I1 I2].
    split; [done|]. intros b Hb. rewrite I2 by done. by apply G2.
Qed.

(** ** Theorems *)

(** C25: [commit] of a transaction that modified the blocks [hs] in the cache
    neither panics nor loops: it copies them to the log, writes the header,
    installs the blocks in their home locations and erases the transaction.
    When it returns, the disk has the current contents of every block outside
    the log, no buffer is dirty, and the log is empty, on disk and in memory.
    [R] is what may happen while the process waits for the disk, whose driver
    is any that fulfils its contract. *)
Theorem commit_installs {E : Env} {i R} {HD : Driver E i R} hs s m k :
  fs_view i s ∅ hs m k -> log_ok (k_log s) hs -> NoDup hs -> log_empty (lg_start (k_log s)) k ->
  wpr R (fun _ => True) commit s (fun _ s' => exists m' k',
    fs_view i s' ∅ [] m' k' /\ k_log s' = log_cleared (k_log s) /\
    log_empty (lg_start (k_log s)) k' /\
    forall b, ~ in_log_area (lg_start (k_log s)) b -> dblock k' ROOTDEV b = m b).
Proof.
  intros H1 H2 H3 H4.
  eapply wpr_mono; [eapply wpr_crash_mono; [by apply (commit_wp (HD:=HD) (k_log s) hs s m k)|done]|].
  intros _ s' (m' & k' & G1 & G2 & _ & G3 & G4). by exists m', k'.
Qed.

(** C24: a crash at any moment of [commit], followed by any number of crashes
    during recovery and a recovery that completes, leaves the file system
    either as it was before the transaction or as the transaction made it, on
    every block outside the log; once [commit] has returned, as the transaction
    made it. *)
Theorem commit_crash_atomic {E : Env} {i R} {HD : Driver E i R} hs s m k :
  fs_view i s ∅ hs m k -> log_ok (k_log s) hs -> NoDup hs -> log_empty (lg_start (k_log s)) k ->
  let start := lg_start (k_log s) in
  let becomes k' (d : Z -> list Z) := forall b, ~ in_log_area start b -> dblock k' ROOTDEV b = d b in
  wpr R (fun s1 => forall k', recovers i R start (k_disk s1) k' ->
           becomes k' (dblock k ROOTDEV) \/ becomes k' m)
    commit s
    (fun _ s2 => forall k', recovers i R start (k_disk s2) k' -> becomes k' m).
Proof.
  intros H1 H2 H3 H4 start becomes.
  eapply wpr_mono; [eapply wpr_crash_mono; [by apply (commit_wp (HD:=HD) (k_log s) hs s m k)|]|].
  - intros s1 [Hh Hold] k' Hrec. destruct (recovers_replay _ _ _ Hrec Hh) as [_ G].
    destruct Hold as [Ho|Hn]; [left|right]; intros b Hb; rewrite (G b Hb); auto.
  - intros _ s2 (m' & k2 & Hv & _ & _ & He & Hd) k' Hrec. rewrite (st_disk _ _ _ _ _ _ Hv) in Hrec.
    destruct (recovers_replay _ _ _ Hrec) as [_ G].
    + by apply log_empty_ok.
    + intros b Hb. rewrite (G b Hb), replay_empty by (apply He). by apply Hd.
Qed.

(** C26: [recover_from_log] on a disk whose header is in range neither panics
    nor loops; it leaves the log empty and every other block as the log says,
    the last entry for a block winning. A crash at any moment of it leaves a
    disk from which recovery gives the same result. *)
Theorem recovery_replays {E : Env} {i R} {HD : Driver E i R} s k :
  let start := lg_start (k_log s) in
  mounted i start k s -> header_ok start (dblock k ROOTDEV start) ->
  wpr R (fun s1 => header_ok start (dblock (k_disk s1) ROOTDEV start) /\
           forall b, ~ in_log_area start b -> replay start (k_disk s1) b = replay start k b)
    recover_from_log s
    (fun _ s' => lg_n (k_log s') = 0 /\ log_empty start (k_disk s') /\
       forall b, ~ in_log_area start b -> dblock (k_disk s') ROOTDEV b = replay start k b).
Proof.
  intros start ([m Hv] & Hm & _) Hh.
  eapply wpr_mono; [by apply (recover_wp (HD:=HD) _ s m k)|].
  intros _ s' (m' & k' & Hv' & G1 & G2 & G3 & G4). by rewrite (st_disk _ _ _ _ _ _ Hv').
Qed.

(** ** Witnesses *)

(** Process 0 runs on the first CPU of a machine with an empty disk; the log
    starts at block 970. *)
Definition mounting (s : kernel) : kernel :=
  s <| k_cpus ::= alter (fun c => c <| c_proc := Some 0%nat |>) 0%nat |>
    <| k_havedisk1 := 1 |>
    <| k_log ::= fun g => g <| lg_dev := ROOTDEV |> <| lg_start := 970 |> <| lg_size := 30 |> |>.

Definition mount_example : kernel := mounting (after_binit kernel0).

(** The same machine with one modified block, 5, in the cache and in the log. *)
Definition modified_5 (b : buf) : buf :=
  b <| b_flags := 6 |> <| b_dev := ROOTDEV |> <| b_blockno := 5 |> <| b_data := replicate 512 7 |>.

Definition logged_5 (s : kernel) : kernel :=
  with_buf 7 modified_5 s
    <| k_log ::= fun g => g <| lg_n := 1 |> <| lg_block := 5 :: replicate 29 0 |> |>.

Definition commit_example : kernel := logged_5 mount_example.

Lemma mount_example_buf x :
  (x < NBUF)%nat ->
  let b := buf_at mount_example x in b_dev b = NODEV /\ b_flags b = 0.
Proof.
  intros Hx.
  assert (H : forallb (fun b => (b_dev b =? NODEV) && (b_flags b =? 0))
    (bc_buf (k_bcache mount_example)) = true) by (vm_compute; reflexivity).
  unfold buf_at. destruct (lookup_lt_is_Some_2 (bc_buf (k_bcache mount_example)) x) as [b E].
  { replace (length _) with NBUF by (vm_compute; reflexivity). exact Hx. }
  rewrite E. cbv zeta. rewrite forallb_forall in H.
  specialize (H b (proj1 (list_elem_of_In _ _) (list_elem_of_lookup_2 _ _ _ E))).
  apply andb_prop in H as [H1 H2]. apply Z.eqb_eq in H1, H2. exact (conj H1 H2).
Qed.

Lemma logged_5_buf s x :
  length (bc_buf (k_bcache s)) = NBUF ->
  buf_at (logged_5 s) x = if decide (x = 7%nat) then modified_5 (buf_at s x) else buf_at s x.
Proof.
  intros Hl. change (buf_at (logged_5 s) x) with (buf_at (with_buf 7 modified_5 s) x).
  apply buf_at_alter. rewrite Hl. unfold NBUF. lia.
Qed.

Lemma logged_5_inv s l :
  cache_inv s l -> (forall y, (y < NBUF)%nat -> b_dev (buf_at s y) = NODEV) ->
  cache_inv (logged_5 s) l.
Proof.
  intros Hc Hd. apply (cache_inv_bcache (with_buf 7 modified_5 s)); [done|].
  apply cache_inv_with; [done|unfold NBUF; lia|done|].
  intros y Hy _ _ E _. rewrite (Hd y Hy) in E. discriminate E.
Qed.

Lemma mount_example_len : length (bc_buf (k_bcache mount_example)) = NBUF.
Proof. vm_compute. reflexivity. Qed.

Lemma mounting_inv s l : cache_inv s l -> cache_inv (mounting s) l.
Proof. by apply cache_inv_bcache. Qed.

Lemma mount_example_inv : cache_inv mount_example (reverse (seq 0 NBUF)).
Proof. exact (mounting_inv _ _ binit_cache_inv). Qed.

Lemma mount_example_ready : ready 0 mount_example /\ ready 0 commit_example.
Proof.
  split; split; try (vm_compute; (reflexivity || lia || congruence));
    intros l Hl; unfold fs_lock in Hl; destruct_or! Hl; subst l; eexists; vm_compute; reflexivity.
Qed.

Lemma unused_good k dirty b : b_dev b = NODEV -> b_flags b = 0 -> buf_good k None dirty b.
Proof. intros H1 H2. split; unfold bflag; rewrite ?H1, ?H2; [by right|done|done|done]. Qed.

Lemma modified_5_good k b : buf_good k None [5] (modified_5 b).
Proof. split; simpl; [by left|done| |done]. intros _. split; [done|by left]. Qed.

Lemma mount_example_view : fs_view 0 mount_example ∅ [] (contents_of mount_example) ∅.
Proof.
  split; [exact (proj1 mount_example_ready)| |intros n; reflexivity|vm_compute; reflexivity]. split.
  - exists (reverse (seq 0 NBUF)). apply mount_example_inv.
  - intros x Hx. destruct (mount_example_buf x Hx) as [H1 H2]. rewrite lookup_empty.
    exact (unused_good _ _ _ H1 H2).
  - intros x [? H]. by rewrite lookup_empty in H.
  - intros n Hn. by apply elem_of_nil in Hn.
Qed.

Lemma commit_example_view : fs_view 0 commit_example ∅ [5] (contents_of commit_example) ∅.
Proof.
  split; [exact (proj2 mount_example_ready)| |intros n; reflexivity|vm_compute; reflexivity]. unfold commit_example. split.
  - exists (reverse (seq 0 NBUF)). apply logged_5_inv; [apply mount_example_inv|].
    intros y Hy. apply (mount_example_buf y Hy).
  - intros x Hx. destruct (mount_example_buf x Hx) as [H1 H2]. rewrite lookup_empty.
    rewrite logged_5_buf by (apply mount_example_len).
    revert H1 H2. generalize (buf_at mount_example x) as b. intros b H1 H2.
    assert (Hd : k_disk (logged_5 mount_example) = ∅) by (vm_compute; reflexivity). rewrite Hd.
    destruct (decide (x = 7)%nat) as [->|Hne].
    + apply modified_5_good.
    + exact (unused_good ∅ [5] b H1 H2).
  - intros x [? H]. by rewrite lookup_empty in H.
  - intros n ->%list_elem_of_singleton. exists 7%nat. split; [unfold NBUF; lia|].
    rewrite logged_5_buf by (apply mount_example_len). by rewrite decide_True.
Qed.

Lemma commit_example_log :
  log_ok (k_log commit_example) [5] /\ NoDup [5] /\ log_empty (lg_start (k_log commit_example)) ∅.
Proof.
  split_and!.
  - split; try (vm_compute; (reflexivity || congruence)). repeat constructor; vm_compute; congruence.
  - apply NoDup_singleton.
  - split; vm_compute; reflexivity.
Qed.

Lemma commit_installs_witness :
  @wpr unit (disk_rely 0) (fun _ => True) (@commit (ide_env 1)) commit_example (fun _ s' => exists m' k',
    fs_view 0 s' ∅ [] m' k' /\ k_log s' = log_cleared (k_log commit_example) /\
    log_empty (lg_start (k_log commit_example)) k' /\
    forall b, ~ in_log_area (lg_start (k_log commit_example)) b ->
      dblock k' ROOTDEV b = contents_of commit_example b).
Proof.
  destruct commit_example_log as (H1 & H2 & H3).
  exact (commit_installs (HD := ide_driver 0 0) [5] commit_example _ ∅ commit_example_view H1 H2 H3).
Defined.

Lemma commit_crash_atomic_witness :
  let start := lg_start (k_log commit_example) in
  let becomes k' (d : Z -> list Z) := forall b, ~ in_log_area start b -> dblock k' ROOTDEV b = d b in
  wpr (disk_rely 0) (fun s1 => forall k', @recovers (ide_env 1) 0 (disk_rely 0) start (k_disk s1) k' ->
           becomes k' (dblock ∅ ROOTDEV) \/ becomes k' (contents_of commit_example))
    (@commit (ide_env 1)) commit_example
    (fun _ s2 => forall k', @recovers (ide_env 1) 0 (disk_rely 0) start (k_disk s2) k' ->
       becomes k' (contents_of commit_example)).
Proof.
  destruct commit_example_log as (H1 & H2 & H3).
  exact (commit_crash_atomic (HD := ide_driver 0 0) [5] commit_example _ ∅ commit_example_view H1 H2 H3).
Defined.

Lemma mount_example_mounted : mounted 0 970 ∅ mount_example.
Proof.
  split_and!; [exact (ex_intro _ _ mount_example_view)| |vm_compute; reflexivity].
  split; vm_compute; (reflexivity || congruence).
Qed.

Lemma recovery_replays_witness :
  wpr (disk_rely 0) (fun s1 => header_ok 970 (dblock (k_disk s1) ROOTDEV 970) /\
           forall b, ~ in_log_area 970 b -> replay 970 (k_disk s1) b = replay 970 ∅ b)
    (@recover_from_log (ide_env 1)) mount_example
    (fun _ s' => lg_n (k_log s') = 0 /\ log_empty 970 (k_disk s') /\
       forall b, ~ in_log_area 970 b -> dblock (k_disk s') ROOTDEV b = replay 970 ∅ b).
Proof.
  apply (recovery_replays (HD := ide_driver 0 0) mount_example ∅ mount_example_mounted).
  apply log_empty_ok. split; vm_compute; reflexivity.
Defined.
