(* ===== verification/Inode.v ===== *)
(** fs.c, first part: the block allocator and the inode layer. *)
From S2P Require Import Prelude Memory Kernel CString Spinlock Sched Ide Bytes Bio Log.

Definition IPB : Z := BSIZE / 64.
Definition IBLOCK (i : Z) : Z := i / IPB + 2.
Definition BPB : Z := BSIZE * 8.
Definition BBLOCK (b ninodes : Z) : Z := b / BPB + ninodes / IPB + 3.

Definition T_DIR : Z := 1.
Definition T_FILE : Z := 2.
Definition T_DEV : Z := 3.

Definition inode_at (s : kernel) (i : nat) : inode := default inode0 (k_icache s !! i).

Definition set_inode (i : nat) (f : inode -> inode) : K unit :=
  modify (fun s => s <| k_icache ::= alter f i |>).

Definition iflag (ip : inode) (m : Z) : bool := has_bits (i_flags ip) m.

(** ** Blocks *)

(** The first clear bit of the bitmap block [d] from [bi], for a block below
    [size]. *)
Fixpoint bit_scan (fuel : nat) (bi b size : Z) (d : list Z) : option Z :=
  match fuel with
  | O => None
  | S fuel' =>
      if negb (b + bi <? size) then None
      else if Z.land (get8 d (Z.to_nat (bi / 8))) (Z.shiftl 1 (bi mod 8)) =? 0 then Some bi
      else bit_scan fuel' (bi + 1) b size d
  end.

Section fs.
Context {E : Env}.

Definition bzero (dev bno : Z) : K unit :=
  bp ← bread (u32 dev) (u32 bno);
  set_data bp block0;;
  log_write bp;;
  brelse bp.

Fixpoint balloc_loop (fuel : nat) (dev b : Z) (sb : superblock) : K Z :=
  if negb (b <? sb_size sb) then panic "balloc: out of blocks" else
  match fuel with
  | O => nofuel
  | S fuel' =>
      bp ← bread dev (BBLOCK b (sb_ninodes sb));
      d ← data_of bp;
      match bit_scan (Z.to_nat BPB) 0 b (sb_size sb) d with
      | Some bi =>
          let i := Z.to_nat (bi / 8) in
          set_data bp (put8 d i (Z.lor (get8 d i) (Z.shiftl 1 (bi mod 8))));;
          log_write bp;;
          brelse bp;;
          bzero dev (b + bi);;
          mret (b + bi)
      | None =>
          brelse bp;;
          balloc_loop fuel' dev (b + BPB) sb
      end
  end.

Definition balloc (dev : Z) : K Z :=
  sb ← readsb dev;
  balloc_loop (Z.to_nat (sb_size sb / BPB + 1)) dev 0 sb.

Definition bfree (dev b : Z) : K unit :=
  sb ← readsb dev;
  bp ← bread (u32 dev) (BBLOCK b (sb_ninodes sb));
  let bi := b mod BPB in
  let m := Z.shiftl 1 (bi mod 8) in
  let i := Z.to_nat (bi / 8) in
  d ← data_of bp;
  if Z.land (get8 d i) m =? 0 then panic "freeing free block" else
  set_data bp (put8 d i (Z.land (get8 d i) (Z.lnot m)));;
  log_write bp;;
  brelse bp.

(** ** Inodes *)

(** [struct dinode] number [inum] of a block of inodes. *)
Definition dinode_off (inum : Z) : nat := Z.to_nat (inum mod IPB * 64).

Definition dinode_type (d : list Z) (inum : Z) : Z := i16 (get16 d (dinode_off inum)).

(** The fields of the dinode copied to the in-memory inode, and back. *)
Definition dinode_read (d : list Z) (inum : Z) (ip : inode) : inode :=
  let o := dinode_off inum in
  ip <| i_type := i16 (get16 d o) |> <| i_major := i16 (get16 d (o + 2)) |>
     <| i_minor := i16 (get16 d (o + 4)) |> <| i_nlink := i16 (get16 d (o + 6)) |>
     <| i_size := get32 d (o + 8) |> <| i_addrs := get_words d (o + 12) 13 |>.

Definition dinode_write (ip : inode) (d : list Z) : list Z :=
  let o := dinode_off (i_inum ip) in
  let d := put16 d o (i_type ip) in
  let d := put16 d (o + 2) (i_major ip) in
  let d := put16 d (o + 4) (i_minor ip) in
  let d := put16 d (o + 6) (i_nlink ip) in
  let d := put32 d (o + 8) (i_size ip) in
  put_words d (o + 12) (i_addrs ip).

Definition iinit : K unit := initlock L_icache "icache".

Definition iget (dev inum : Z) : K nat :=
  acquire L_icache;;
  t ← gets k_icache;
  match find_first (fun ip => (0 <? i_ref ip) && (i_dev ip =? dev) && (i_inum ip =? inum)) t with
  | Some i =>
      set_inode i (fun ip => ip <| i_ref ::= fun n => i32 (n + 1) |>);;
      release L_icache;;
      mret i
  | None =>
      match find_first (fun ip => i_ref ip =? 0) t with
      | None => panic "iget: no inodes"
      | Some i =>
          set_inode i (fun ip => ip <| i_dev := dev |> <| i_inum := inum |> <| i_ref := 1 |>
                                    <| i_flags := 0 |>);;
          release L_icache;;
          mret i
      end
  end.

(** From inode [inum]; [fuel] is the number of inodes left. *)
Fixpoint ialloc_loop (fuel : nat) (dev type inum : Z) (sb : superblock) : K nat :=
  if negb (inum <? sb_ninodes sb) then panic "ialloc: no inodes" else
  match fuel with
  | O => nofuel
  | S fuel' =>
      bp ← bread dev (IBLOCK inum);
      d ← data_of bp;
      if dinode_type d inum =? 0 then
        let o := dinode_off inum in
        set_data bp (put16 (splice d o (replicate 64 0)) o type);;
        log_write bp;;
        brelse bp;;
        iget dev inum
      else
        brelse bp;;
        ialloc_loop fuel' dev type (inum + 1) sb
  end.

Definition ialloc (dev type : Z) : K nat :=
  sb ← readsb dev;
  ialloc_loop (Z.to_nat (sb_ninodes sb)) dev type 1 sb.

Definition iupdate (i : nat) : K unit :=
  ip ← gets (fun s => inode_at s i);
  bp ← bread (i_dev ip) (IBLOCK (i_inum ip));
  d ← data_of bp;
  ip ← gets (fun s => inode_at s i);
  set_data bp (dinode_write ip d);;
  log_write bp;;
  brelse bp.

Definition idup (i : nat) : K nat :=
  acquire L_icache;;
  set_inode i (fun ip => ip <| i_ref ::= fun n => i32 (n + 1) |>);;
  release L_icache;;
  mret i.

Definition ilock (i : nat) : K unit :=
  ip ← gets (fun s => inode_at s i);
  if i_ref ip <? 1 then panic "ilock" else
  acquire L_icache;;
  sleep_while wakeups (gets (fun s => iflag (inode_at s i) I_BUSY)) (Ch_inode i) L_icache;;
  set_inode i (fun ip => ip <| i_flags ::= fun f => Z.lor f I_BUSY |>);;
  release L_icache;;
  ip ← gets (fun s => inode_at s i);
  when (negb (iflag ip I_VALID))
    (bp ← bread (i_dev ip) (IBLOCK (i_inum ip));
     d ← data_of bp;
     set_inode i (fun ip => dinode_read d (i_inum ip) ip);;
     brelse bp;;
     set_inode i (fun ip => ip <| i_flags ::= fun f => Z.lor f I_VALID |>);;
     ip ← gets (fun s => inode_at s i);
     when (i_type ip =? 0) (panic "ilock: no type")).

Definition iunlock (i : nat) : K unit :=
  ip ← gets (fun s => inode_at s i);
  if negb (iflag ip I_BUSY) || (i_ref ip <? 1) then panic "iunlock" else
  acquire L_icache;;
  set_inode i (fun ip => ip <| i_flags ::= fun f => Z.land f (Z.lnot I_BUSY) |>);;
  wakeup (Ch_inode i);;
  release L_icache.

(** ** Inode content *)

Definition set_addr (i : nat) (k : nat) (a : Z) : K unit :=
  set_inode i (fun ip => ip <| i_addrs ::= <[k := a]> |>).

Definition addr_of (i : nat) (k : nat) : K Z :=
  gets (fun s => default 0 (i_addrs (inode_at s i) !! k)).

(** [ip->addrs[k]], allocated if it is 0. *)
Definition direct_block (i : nat) (k : nat) : K Z :=
  addr ← addr_of i k;
  if addr =? 0 then
    dev ← gets (fun s => i_dev (inode_at s i));
    addr ← balloc dev;
    set_addr i k addr;;
    mret addr
  else mret addr.

Definition bmap (i : nat) (bn : Z) : K Z :=
  if bn <? NDIRECT then direct_block i (Z.to_nat bn) else
  let bn := bn - NDIRECT in
  if bn <? NINDIRECT then
    addr ← direct_block i (Z.to_nat NDIRECT);
    dev ← gets (fun s => i_dev (inode_at s i));
    bp ← bread dev addr;
    a ← data_of bp;
    let addr := get32 a (4 * Z.to_nat bn) in
    addr ←
      (if addr =? 0 then
         dev ← gets (fun s => i_dev (inode_at s i));
         addr ← balloc dev;
         set_buf bp (fun x => x <| b_data ::= fun d => put32 d (4 * Z.to_nat bn) addr |>);;
         log_write bp;;
         mret addr
       else mret addr);
    brelse bp;;
    mret addr
  else panic "bmap: out of range".

(** [for(i = 0; i < NDIRECT; i++) if(ip->addrs[i]) ...] *)
Fixpoint free_direct (i : nat) (ks : list nat) : K unit :=
  match ks with
  | [] => mret tt
  | k :: ks' =>
      a ← addr_of i k;
      when (c_true a)
        (dev ← gets (fun s => i_dev (inode_at s i)); bfree dev a;; set_addr i k 0);;
      free_direct i ks'
  end.

(** [for(j = 0; j < NINDIRECT; j++) if(a[j]) bfree(ip->dev, a[j])] *)
Fixpoint free_indirect (i : nat) (addrs : list Z) : K unit :=
  match addrs with
  | [] => mret tt
  | a :: addrs' =>
      when (c_true a) (dev ← gets (fun s => i_dev (inode_at s i)); bfree dev a);;
      free_indirect i addrs'
  end.

Definition itrunc (i : nat) : K unit :=
  free_direct i (seq 0 (Z.to_nat NDIRECT));;
  a ← addr_of i (Z.to_nat NDIRECT);
  when (c_true a)
    (dev ← gets (fun s => i_dev (inode_at s i));
     bp ← bread dev a;
     d ← data_of bp;
     free_indirect i (get_words d 0 (Z.to_nat NINDIRECT));;
     brelse bp;;
     a ← addr_of i (Z.to_nat NDIRECT);
     bfree dev a;;
     set_addr i (Z.to_nat NDIRECT) 0);;
  set_inode i (fun ip => ip <| i_size := 0 |>);;
  iupdate i.

Definition iput (i : nat) : K unit :=
  acquire L_icache;;
  ip ← gets (fun s => inode_at s i);
  (if (i_ref ip =? 1) && iflag ip I_VALID && (i_nlink ip =? 0) then
     if iflag ip I_BUSY then panic "iput busy" else
     set_inode i (fun ip => ip <| i_flags ::= fun f => Z.lor f I_BUSY |>);;
     release L_icache;;
     itrunc i;;
     set_inode i (fun ip => ip <| i_type := 0 |>);;
     iupdate i;;
     acquire L_icache;;
     set_inode i (fun ip => ip <| i_flags := 0 |>);;
     wakeup (Ch_inode i)
   else mret tt);;
  set_inode i (fun ip => ip <| i_ref ::= fun n => i32 (n - 1) |>);;
  release L_icache.

Definition iunlockput (i : nat) : K unit := iunlock i;; iput i.
End fs.

(** [struct stat] *)
Record stat := Mkstat {
  st_type : Z;
  st_dev : Z;
  st_ino : Z;
  st_nlink : Z;
  st_size : Z;
}.

Definition stati (ip : inode) : stat :=
  Mkstat (i_type ip) (i32 (i_dev ip)) (i_inum ip) (i_nlink ip) (i_size ip).
