(* ===== verification/Umem.v ===== *)
(** User memory, as kernel code sees it: an access through a user virtual
    address is translated by the page tables the CPU has loaded.  The walk is
    the processor's; supervisor accesses need no [PTE_U], and writes need
    [PTE_W] since the kernel runs with [CR0_WP] set.  A missing translation is
    a page fault in kernel mode, which [trap] turns into a panic. *)
From S2P Require Import Prelude Memory Bytes Kernel Spinlock Kalloc Vm.

(** The kernel address of the byte at [va] in the address space [pgdir]. *)
Definition xlate (m : memory) (pgdir : Z) (write : bool) (va : Z) : option Z :=
  let ok e := has_bits e PTE_P && (negb write || has_bits e PTE_W) in
  let pde := load32 m (pgdir + 4 * PDX va) in
  if negb (ok pde) then None else
  let pte := load32 m (p2v (PTE_ADDR pde) + 4 * PTX va) in
  if negb (ok pte) then None else
  Some (p2v (PTE_ADDR pte) + va mod PGSIZE).

(** The page directory of the executing CPU. *)
Definition cur_pgdir (s : kernel) : Z := p2v (c_cr3 (mycpu s)).

Definition uread8 (va : Z) : K Z :=
  s ← get;
  match xlate (k_mem s) (cur_pgdir s) false va with
  | Some a => mret (load8 (k_mem s) a)
  | None => panic "trap"
  end.

Definition uwrite8 (va v : Z) : K unit :=
  s ← get;
  match xlate (k_mem s) (cur_pgdir s) true va with
  | Some a => modify (fun s => s <| k_mem ::= fun m => store8 m a v |>)
  | None => panic "trap"
  end.

Fixpoint uread (va : Z) (n : nat) : K (list Z) :=
  match n with
  | O => mret []
  | S n' => c ← uread8 va; l ← uread (u32 (va + 1)) n'; mret (c :: l)
  end.

Fixpoint uwrite (va : Z) (l : list Z) : K unit :=
  match l with
  | [] => mret tt
  | c :: l' => uwrite8 va c;; uwrite (u32 (va + 1)) l'
  end.

(** The little-endian word at [va]. *)
Definition uread32 (va : Z) : K Z :=
  l ← uread va 4;
  mret (default 0 (l !! 0%nat) + 2 ^ 8 * default 0 (l !! 1%nat)
        + 2 ^ 16 * default 0 (l !! 2%nat) + 2 ^ 24 * default 0 (l !! 3%nat)).

Definition uwrite32 (va v : Z) : K unit :=
  uwrite va [u8 v; u8 (v / 2 ^ 8); u8 (v / 2 ^ 16); u8 (v / 2 ^ 24)].

(** ** Buffers *)

(** Where bytes are copied to: a local object of the caller, which takes them
    from the result of the call, user memory, or a page of kernel memory; and
    where they come from. *)
Inductive dst := ToLocal | ToUser (a : Z) | ToKernel (a : Z).
Inductive src := FromLocal (l : list Z) | FromUser (a : Z).

Definition dst_add (d : dst) (n : Z) : dst :=
  match d with
  | ToLocal => ToLocal
  | ToUser a => ToUser (u32 (a + n))
  | ToKernel a => ToKernel (a + n)
  end.

Definition put_bytes (d : dst) (l : list Z) : K unit :=
  match d with
  | ToLocal => mret tt
  | ToUser a => uwrite a l
  | ToKernel a => modify (fun s => s <| k_mem ::= fun m => store_bytes m a l |>)
  end.

Definition get_bytes (b : src) (i n : Z) : K (list Z) :=
  match b with
  | FromLocal l => mret (slice l (Z.to_nat i) (Z.to_nat n))
  | FromUser a => uread (u32 (a + i)) (Z.to_nat n)
  end.

(** ** User memory as functions of the memory and the page directory *)

Fixpoint umem_write (m : memory) (pgdir va : Z) (l : list Z) : option memory :=
  match l with
  | [] => Some m
  | c :: l' =>
      match xlate m pgdir true va with
      | Some a => umem_write (store8 m a c) pgdir (u32 (va + 1)) l'
      | None => None
      end
  end.

Fixpoint umem_read (m : memory) (pgdir va : Z) (n : nat) : option (list Z) :=
  match n with
  | O => Some []
  | S n' =>
      match xlate m pgdir false va with
      | Some a => cons (load8 m a) <$> umem_read m pgdir (u32 (va + 1)) n'
      | None => None
      end
  end.

Lemma uwrite_eq va l s :
  uwrite va l s =
  match umem_write (k_mem s) (cur_pgdir s) va l with
  | Some m => Ok tt (s <| k_mem := m |>)
  | None => Panic "trap"
  end.
Proof.
  revert va s; induction l as [|c l IH]; intros va s; simpl.
  { by destruct s. }
  unfold uwrite8. krun. destruct (xlate (k_mem s) (cur_pgdir s) true va) as [a|]; [|done]. krun.
  rewrite IH. change (cur_pgdir (s <| k_mem ::= ?f |>)) with (cur_pgdir s). simpl.
  by destruct (umem_write _ _ _ _).
Qed.

Lemma uread_eq va n s :
  uread va n s =
  match umem_read (k_mem s) (cur_pgdir s) va n with
  | Some l => Ok l s
  | None => Panic "trap"
  end.
Proof.
  revert va; induction n as [|n IH]; intros va; simpl; [done|].
  unfold uread8. krun. destruct (xlate (k_mem s) (cur_pgdir s) false va) as [a|]; [|done]. krun.
  rewrite IH. by destruct (umem_read _ _ _ _).
Qed.
