(* ===== verification/Kbd.v ===== *)
(** kbd.c and kbd.h: the keyboard's scan codes turned into characters. *)
From S2P Require Import Prelude Memory Kernel CString Spinlock Console.

Definition SHIFT : Z := 0x01.
Definition CTL : Z := 0x02.
Definition ALT : Z := 0x04.
Definition CAPSLOCK : Z := 0x08.
Definition NUMLOCK : Z := 0x10.
Definition SCROLLLOCK : Z := 0x20.
Definition E0ESC : Z := 0x40.

Definition KEY_HOME : Z := 0xE0.
Definition KEY_END : Z := 0xE1.
Definition KEY_UP : Z := 0xE2.
Definition KEY_DN : Z := 0xE3.
Definition KEY_LF : Z := 0xE4.
Definition KEY_RT : Z := 0xE5.
Definition KEY_PGUP : Z := 0xE6.
Definition KEY_PGDN : Z := 0xE7.
Definition KEY_INS : Z := 0xE8.
Definition KEY_DEL : Z := 0xE9.

(** A 256-entry table with the given first entries and designated entries. *)
Definition table (first : list Z) (ds : list (nat * Z)) : list Z :=
  foldl (fun t d => <[d.1 := d.2]> t) (first ++ replicate (256 - length first) 0) ds.

(** [C('A') == Control-A], for a string of such characters. *)
Definition C (s : string) : list Z := (fun x => x - 64) <$> str s.

Definition shiftcode : list Z := table []
  [(0x1D, CTL); (0x2A, SHIFT); (0x36, SHIFT); (0x38, ALT); (0x9D, CTL); (0xB8, ALT)]%nat.

Definition togglecode : list Z := table []
  [(0x3A, CAPSLOCK); (0x45, NUMLOCK); (0x46, SCROLLLOCK)]%nat.

(** The entries the three maps share. *)
Definition keypad : list (nat * Z) :=
  [(0xC8, KEY_UP); (0xD0, KEY_DN); (0xC9, KEY_PGUP); (0xD1, KEY_PGDN); (0xCB, KEY_LF);
   (0xCD, KEY_RT); (0x97, KEY_HOME); (0xCF, KEY_END); (0xD2, KEY_INS); (0xD3, KEY_DEL)]%nat.

Definition normalmap : list Z := table
  ([0; 0x1B] ++ str "123456" ++ str "7890-=" ++ [8; 9] ++ str "qwertyuiop[]" ++ [10; 0] ++
   str "asdfghjkl;'`" ++ [0] ++ str "\zxcvbnm,./" ++ [0] ++ str "*" ++ [0] ++ str " " ++
   replicate 13 0 ++ str "789-456+1230." ++ replicate 4 0)
  ((0x9C%nat, 10) :: (0xB5%nat, 47) :: keypad).

Definition shiftmap : list Z := table
  ([0; 27] ++ str "!@#$%^" ++ str "&*()_+" ++ [8; 9] ++ str "QWERTYUIOP{}" ++ [10; 0] ++
   str "ASDFGHJKL:" ++ [34] ++ str "~" ++ [0] ++ str "|ZXCVBNM<>?" ++ [0] ++ str "*" ++ [0] ++
   str " " ++ replicate 13 0 ++ str "789-456+1230." ++ replicate 4 0)
  ((0x9C%nat, 10) :: (0xB5%nat, 47) :: keypad).

Definition ctlmap : list Z := table
  (replicate 16 0 ++ C "QWERTYUIOP" ++ [0; 0; 13; 0] ++ C "ASDFGHJKL" ++ [0; 0; 0; 0] ++
   C "\ZXCVBNM" ++ [0; 0] ++ C "/" ++ [0; 0])
  ((0x9C%nat, 13) :: (0xB5%nat, 47 - 64) :: keypad).

Definition entry (t : list Z) (i : Z) : Z := u8 (default 0 (t !! Z.to_nat i)).

(** [charcode[shift & (CTL | SHIFT)]] *)
Definition charcode (shift : Z) : list Z :=
  match Z.land shift (Z.lor CTL SHIFT) with
  | 0 => normalmap
  | 1 => shiftmap
  | _ => ctlmap
  end.

(** [kbdgetc] on the scan code the controller holds, if any, with the static
    variable [shift]. *)
Definition kbdgetc (code : option Z) (shift : Z) : Z * Z :=
  match code with
  | None => (-1, shift)
  | Some data =>
      if data =? 0xE0 then (0, Z.lor shift E0ESC)
      else if has_bits data 0x80 then
        let data := if has_bits shift E0ESC then data else Z.land data 0x7F in
        (0, Z.land shift (Z.lnot (Z.lor (entry shiftcode data) E0ESC)))
      else
        let '(data, shift) :=
          if has_bits shift E0ESC
          then (Z.lor data 0x80, Z.land shift (Z.lnot E0ESC)) else (data, shift) in
        let shift := Z.lor shift (entry shiftcode data) in
        let shift := Z.lxor shift (entry togglecode data) in
        let c := entry (charcode shift) data in
        let c :=
          if has_bits shift CAPSLOCK then
            if (97 <=? c) && (c <=? 122) then c + (65 - 97)
            else if (65 <=? c) && (c <=? 90) then c + (97 - 65)
            else c
          else c in
        (c, shift)
  end.

(** The characters of a sequence of scan codes. *)
Fixpoint kbd_chars (codes : list Z) (shift : Z) : list Z * Z :=
  match codes with
  | [] => ([], shift)
  | d :: codes' =>
      let '(c, shift) := kbdgetc (Some d) shift in
      let '(cs, shift) := kbd_chars codes' shift in
      (c :: cs, shift)
  end.

(** Typing "Hi" with the left shift key, then "i" with caps lock. *)
Lemma kbd_example :
  kbd_chars [0x2A; 0x23; 0xA3; 0xAA; 0x17; 0x97; 0x3A; 0xBA; 0x17; 0x97] 0
  = ([0; 72; 0; 0; 105; 0; 0; 0; 73; 0], CAPSLOCK).
Proof. vm_compute. reflexivity. Qed.
