(* ===== verification/Tty.v ===== *)
(** console.c, input side: the line buffer filled by the keyboard and serial
    interrupts, and the console as a device file; uart.c's and kbd.c's
    interrupt handlers, and proc.c's [procdump], which ^P runs.

    The characters an interrupt finds in the device are a list. *)
From S2P Require Import Prelude Memory Kernel CString Spinlock Console Sched Ide Bytes.
From S2P Require Import Bio Log Inode Vm Umem Kbd.

(** ** procdump *)

Definition state_name (s : procstate) : list Z :=
  match s with
  | UNUSED => str "unused" | EMBRYO => str "embryo" | SLEEPING => str "sleep "
  | RUNNABLE => str "runble" | RUNNING => str "run   " | ZOMBIE => str "zombie"
  end.

(** A string in a [char] array: up to its NUL. *)
Fixpoint cstr (l : list Z) : list Z :=
  match l with
  | [] => []
  | c :: l' => if c =? 0 then [] else c :: cstr l'
  end.

(** [for(i=0; i<10 && pc[i] != 0; i++) cprintf(" %p", pc[i])] *)
Fixpoint print_pcs (pcs : list Z) : K unit :=
  match pcs with
  | [] => mret tt
  | pc :: pcs' =>
      if pc =? 0 then mret tt
      else cprintf (Some (str " %p")) [AInt pc];; print_pcs pcs'
  end.

(** [p->context->ebp] is the fourth word of the context. *)
Fixpoint procdump_loop (is_ : list nat) : K unit :=
  match is_ with
  | [] => mret tt
  | i :: is' =>
      p ← gets (fun s => proc_at s i);
      (if state_eqb (p_state p) UNUSED then mret tt else
       cprintf (Some (str "%d %s %s"))
         [AInt (p_pid p); AStr (Some (state_name (p_state p))); AStr (Some (cstr (p_name p)))];;
       when (state_eqb (p_state p) SLEEPING)
         (m ← gets k_mem;
          print_pcs (getcallerpcs m (load32 m (p_context p + 12) + 8)));;
       cprintf (Some [c_newline]) []);;
      procdump_loop is'
  end.

Definition procdump : K unit := procdump_loop (seq 0 NPROC).

(** ** Line editing *)

Definition set_input (f : input -> input) : K unit := modify (fun s => s <| k_input ::= f |>).

Definition in_at (i : input) (k : Z) : Z := default 0 (in_buf i !! Z.to_nat (k mod INPUT_BUF)).

(** Erases the last character: [input.e--; consputc(BACKSPACE)]. *)
Definition erase : K unit :=
  set_input (fun i => i <| in_e ::= fun e => u32 (e - 1) |>);;
  consputc BACKSPACE.

Fixpoint kill_line (fuel : nat) : K unit :=
  i ← gets k_input;
  if negb (in_e i =? in_w i) && negb (in_at i (u32 (in_e i - 1)) =? c_newline) then
    match fuel with
    | O => nofuel
    | S fuel' => erase;; kill_line fuel'
    end
  else mret tt.

(** One character of [consoleintr]'s switch. *)
Definition console_char (c : Z) : K unit :=
  if c =? 16 (* ^P *) then procdump
  else if c =? 21 (* ^U *) then kill_line (Z.to_nat INPUT_BUF)
  else if (c =? 8) || (c =? 127) (* ^H, DEL *) then
    i ← gets k_input;
    when (negb (in_e i =? in_w i)) erase
  else
    i ← gets k_input;
    if negb (c =? 0) && (u32 (in_e i - in_r i) <? INPUT_BUF) then
      let c := if c =? 13 then 10 else c in
      set_input (fun i => i <| in_buf ::= <[Z.to_nat (in_e i mod INPUT_BUF) := i8 c]> |>
                             <| in_e ::= fun e => u32 (e + 1) |>);;
      consputc c;;
      i ← gets k_input;
      when ((c =? c_newline) || (c =? 4) || (in_e i =? u32 (in_r i + INPUT_BUF)))
        (set_input (fun i => i <| in_w := in_e i |>);;
         wakeup Ch_input_r)
    else mret tt.

Fixpoint console_chars (cs : list Z) : K unit :=
  match cs with
  | [] => mret tt
  | c :: cs' => if c <? 0 then mret tt else console_char c;; console_chars cs'
  end.

(** [cs] are the results of [getc] before it returns a negative one. *)
Definition consoleintr (cs : list Z) : K unit :=
  acquire L_input;;
  console_chars cs;;
  release L_input.

(** The static [shift] of [kbdgetc] is read and updated for each scan code. *)
Definition kbdintr (codes : list Z) : K unit :=
  shift ← gets k_shift;
  let '(cs, shift') := kbd_chars codes shift in
  modify (fun s => s <| k_shift := shift' |>);;
  consoleintr cs.

Definition uartintr (bytes : list Z) : K unit :=
  uart ← gets (fun s => co_uart (k_cons s));
  consoleintr (if c_true uart then bytes else []).

(** ** The console device *)

Section tty.
Context {E : Env}.

(** [while(input.r == input.w)]: [true] when the process was killed. *)
Fixpoint input_wait (fuel : nat) : K bool :=
  i ← gets k_input;
  if negb (in_r i =? in_w i) then mret false else
  cur ← deref_proc;
  p ← gets (fun s => proc_at s cur);
  if c_true (p_killed p) then mret true else
  match fuel with
  | O => nofuel
  | S fuel' => sleep Ch_input_r (Some L_input);; input_wait fuel'
  end.

(** [while(n > 0)]: the remaining count, or [None] when killed, and the bytes
    stored at [dst]. *)
Fixpoint consoleread_loop (n : nat) (d : dst) (target : Z) (got : list Z) :
    K (option Z * list Z) :=
  match n with
  | O => mret (Some 0, got)
  | S n' =>
      killed ← input_wait wakeups;
      if (killed : bool) then mret (None, got) else
      i ← gets k_input;
      let c := in_at i (in_r i) in
      set_input (fun i => i <| in_r ::= fun r => u32 (r + 1) |>);;
      if c =? 4 (* ^D *) then
        when (Z.of_nat n <? target) (set_input (fun i => i <| in_r ::= fun r => u32 (r - 1) |>));;
        mret (Some (Z.of_nat n), got)
      else
        put_bytes d [u8 c];;
        if c =? c_newline then mret (Some (Z.of_nat n'), got ++ [u8 c])
        else consoleread_loop n' (dst_add d 1) target (got ++ [u8 c])
  end.

Definition consoleread (ip : nat) (d : dst) (n : Z) : K (Z * list Z) :=
  iunlock ip;;
  let target := u32 n in
  acquire L_input;;
  r ← consoleread_loop (Z.to_nat n) d target [];
  release L_input;;
  ilock ip;;
  match r with
  | (None, got) => mret (-1, got)
  | (Some rest, got) => mret (if 0 <? n then i32 (target - rest) else i32 (target - n), got)
  end.

(** [for(i = 0; i < n; i++) consputc(buf[i] & 0xff)], with [n] steps left. *)
Fixpoint consolewrite_loop (n : nat) (buf : src) (i : Z) : K unit :=
  match n with
  | O => mret tt
  | S n' =>
      c ← get_bytes buf i 1;
      consputc (Z.land (default 0 (head c)) 255);;
      consolewrite_loop n' buf (i + 1)
  end.

Definition consolewrite (ip : nat) (buf : src) (n : Z) : K Z :=
  iunlock ip;;
  acquire L_cons;;
  consolewrite_loop (Z.to_nat n) buf 0;;
  release L_cons;;
  ilock ip;;
  mret n.
End tty.

(** The entry of [CONSOLE] in [devsw] is fixed by this function, the only one
    that writes the table; the interrupt controllers are not modelled. *)
Definition CONSOLE : Z := 1.

Definition consoleinit : K unit :=
  initlock L_cons "console";;
  initlock L_input "input";;
  modify (fun s => s <| k_cons ::= fun c => c <| co_locking := 1 |> |>).
