(* ===== verification/Fs.v ===== *)
(** fs.c, second part: the contents of inodes, directories and path names.

    A directory entry is 16 bytes: the inode number and a name of at most
    [DIRSIZ] characters.  Path names are C strings; names are arrays of
    [DIRSIZ] bytes. *)
From S2P Require Import Prelude Memory Kernel CString Spinlock Console Sched Ide Bytes.
From S2P Require Import Bio Log Inode Vm Umem Tty.

Section fs.
Context {E : Env}.

(** ** Inode content *)

(** From offset [off] with [tot] bytes copied; [got] are the bytes. *)
Fixpoint readi_loop (fuel : nat) (ip : nat) (d : dst) (off tot n : Z) (got : list Z) :
    K (list Z) :=
  if negb (tot <? n) then mret got else
  match fuel with
  | O => nofuel
  | S fuel' =>
      addr ← bmap ip (off / BSIZE);
      dev ← gets (fun s => i_dev (inode_at s ip));
      bp ← bread dev addr;
      let m := Z.min (n - tot) (BSIZE - off mod BSIZE) in
      data ← data_of bp;
      let chunk := slice data (Z.to_nat (off mod BSIZE)) (Z.to_nat m) in
      put_bytes d chunk;;
      brelse bp;;
      readi_loop fuel' ip (dst_add d m) (off + m) (tot + m) n (got ++ chunk)
  end.

(** [devsw[ip->major].read] is set for the console only. *)
Definition is_console (ip : inode) : bool := i_major ip =? CONSOLE.

(** The result, and the bytes copied to [d]. *)
Definition readi (ip : nat) (d : dst) (off n : Z) : K (Z * list Z) :=
  i ← gets (fun s => inode_at s ip);
  if i_type i =? T_DEV then
    if (i_major i <? 0) || (NDEV <=? i_major i) || negb (is_console i) then mret (-1, [])
    else consoleread ip d (i32 n)
  else
  if (i_size i <? off) || (u32 (off + n) <? off) then mret (-1, []) else
  let n := if i_size i <? u32 (off + n) then i_size i - off else n in
  got ← readi_loop (Z.to_nat (n / BSIZE + 2)) ip d off 0 n [];
  mret (i32 n, got).

(** The final offset of the loop of [writei]. *)
Fixpoint writei_loop (fuel : nat) (ip : nat) (b : src) (off tot n : Z) : K Z :=
  if negb (tot <? n) then mret off else
  match fuel with
  | O => nofuel
  | S fuel' =>
      addr ← bmap ip (off / BSIZE);
      dev ← gets (fun s => i_dev (inode_at s ip));
      bp ← bread dev addr;
      let m := Z.min (n - tot) (BSIZE - off mod BSIZE) in
      chunk ← get_bytes b tot m;
      set_buf bp (fun x => x <| b_data ::= fun d => splice d (Z.to_nat (off mod BSIZE)) chunk |>);;
      log_write bp;;
      brelse bp;;
      writei_loop fuel' ip b (off + m) (tot + m) n
  end.

Definition writei (ip : nat) (b : src) (off n : Z) : K Z :=
  i ← gets (fun s => inode_at s ip);
  if i_type i =? T_DEV then
    if (i_major i <? 0) || (NDEV <=? i_major i) || negb (is_console i) then mret (-1)
    else consolewrite ip b (i32 n)
  else
  if (i_size i <? off) || (u32 (off + n) <? off) then mret (-1) else
  if MAXFILE * BSIZE <? u32 (off + n) then mret (-1) else
  off' ← writei_loop (Z.to_nat (n / BSIZE + 2)) ip b off 0 n;
  size ← gets (fun s => i_size (inode_at s ip));
  when ((0 <? n) && (size <? off'))
    (set_inode ip (fun i => i <| i_size := off' |>);; iupdate ip);;
  mret (i32 n).

(** ** Directories *)

(** [strncmp] on two names, as arrays of [n] bytes (a name shorter than the
    array ends at its NUL): the difference of the first bytes that differ. *)
Fixpoint name_cmp (n : nat) (p q : list Z) : Z :=
  match n with
  | O => 0
  | S n' =>
      let a := default 0 (head p) in
      let b := default 0 (head q) in
      if negb (a =? 0) && (a =? b) then name_cmp n' (tail p) (tail q) else a - b
  end.

Definition namecmp (s t : list Z) : Z := name_cmp (Z.to_nat DIRSIZ) s t.

(** [struct dirent] *)
Definition de_size : Z := 16.
Definition de_inum (de : list Z) : Z := get16 de 0.
Definition de_name (de : list Z) : list Z := slice de 2 (Z.to_nat DIRSIZ).

(** [strncpy(de.name, name, DIRSIZ); de.inum = inum] *)
Definition pad_name (name : list Z) : list Z :=
  let n := take (Z.to_nat DIRSIZ) (cstr name) in n ++ replicate (Z.to_nat DIRSIZ - length n) 0.

Definition dirent (inum : Z) (name : list Z) : list Z :=
  put16 (0 :: 0 :: pad_name name) 0 inum.

(** [for(off = 0; off < dp->size; off += sizeof(de))] up to the first entry
    that satisfies [f]: its offset and the entry. *)
Fixpoint dir_scan (fuel : nat) (dp : nat) (off : Z) (f : list Z -> bool) :
    K (Z * option (list Z)) :=
  size ← gets (fun s => i_size (inode_at s dp));
  if negb (off <? size) then mret (off, None) else
  match fuel with
  | O => nofuel
  | S fuel' =>
      '(r, de) ← readi dp ToLocal off de_size;
      if negb (r =? de_size) then panic "dirlink read" else
      if f de then mret (off, Some de) else dir_scan fuel' dp (off + de_size) f
  end.

(** The number of entries of a directory. *)
Definition dir_fuel (dp : nat) : K nat :=
  gets (fun s => Z.to_nat (i_size (inode_at s dp) / de_size + 1)).

(** The inode, and the offset of the entry. *)
Definition dirlookup (dp : nat) (name : list Z) : K (option (nat * Z)) :=
  i ← gets (fun s => inode_at s dp);
  if negb (i_type i =? T_DIR) then panic "dirlookup not DIR" else
  fuel ← dir_fuel dp;
  '(off, de) ← dir_scan fuel dp 0
    (fun de => negb (de_inum de =? 0) && (namecmp name (de_name de) =? 0));
  match de with
  | None => mret None
  | Some de =>
      dev ← gets (fun s => i_dev (inode_at s dp));
      ip ← iget dev (de_inum de);
      mret (Some (ip, off))
  end.

Definition dirlink (dp : nat) (name : list Z) (inum : Z) : K Z :=
  r ← dirlookup dp name;
  match r with
  | Some (ip, _) => iput ip;; mret (-1)
  | None =>
      fuel ← dir_fuel dp;
      '(off, _) ← dir_scan fuel dp 0 (fun de => de_inum de =? 0);
      n ← writei dp (FromLocal (dirent inum name)) off de_size;
      if negb (n =? de_size) then panic "dirlink" else mret 0
  end.
End fs.

(** ** Paths *)

Definition c_slash : Z := 47.

(** The path without its leading slashes. *)
Fixpoint skip_slashes (path : list Z) : list Z :=
  match path with
  | c :: path' => if c =? c_slash then skip_slashes path' else path
  | [] => []
  end.

(** The characters before the next slash, and the rest. *)
Fixpoint path_elem (path : list Z) : list Z * list Z :=
  match path with
  | c :: path' =>
      if c =? c_slash then ([], path)
      else let '(e, rest) := path_elem path' in (c :: e, rest)
  | [] => ([], [])
  end.

(** The element and the path that follows it, or [None]; paths are given
    without their NUL.  Of [name] only the characters the name has are
    meaningful: at most [DIRSIZ]. *)
Definition skipelem (path : list Z) : option (list Z * list Z) :=
  let path := skip_slashes path in
  match path with
  | [] => None
  | _ =>
      let '(e, rest) := path_elem path in
      Some (take (Z.to_nat DIRSIZ) e, skip_slashes rest)
  end.

Section names.
Context {E : Env}.

(** The loop of [namex] from inode [ip]; [last] is the contents of [name]. *)
Fixpoint namex_loop (fuel : nat) (ip : nat) (path : list Z) (nameiparent : bool) (last : list Z) :
    K (option nat * list Z) :=
  match skipelem path with
  | None =>
      if nameiparent then iput ip;; mret (None, last) else mret (Some ip, last)
  | Some (name, path') =>
      match fuel with
      | O => nofuel
      | S fuel' =>
          ilock ip;;
          i ← gets (fun s => inode_at s ip);
          if negb (i_type i =? T_DIR) then iunlockput ip;; mret (None, name) else
          if nameiparent && bool_decide (path' = []) then iunlock ip;; mret (Some ip, name) else
          next ← dirlookup ip name;
          match next with
          | None => iunlockput ip;; mret (None, name)
          | Some (next, _) =>
              iunlockput ip;;
              namex_loop fuel' next path' nameiparent name
          end
      end
  end.

Definition namex (path : list Z) (nameiparent : bool) : K (option nat * list Z) :=
  ip ←
    (if bool_decide (head path = Some c_slash) then iget ROOTDEV ROOTINO
     else
       cur ← deref_proc;
       cwd ← gets (fun s => p_cwd (proc_at s cur));
       match cwd with Some i => idup i | None => panic "trap" end);
  namex_loop (length path) ip path nameiparent [].

Definition namei (path : list Z) : K (option nat) :=
  '(ip, _) ← namex path false;
  mret ip.

(** The parent directory, and the last element of the path. *)
Definition nameiparent (path : list Z) : K (option nat * list Z) := namex path true.
End names.
