(* ===== verification/Txn.v ===== *)
(** File system code inside a transaction.

    [txn start i s held hs m k] is what holds between [begin_op] and [end_op]:
    the blocks of the file system read as [m], the disk is still [k], the log
    header records the blocks [hs] that the transaction has modified, and the
    buffers [held] are in use.  The rules say what [bread], [log_write] and
    [brelse] do to it. *)
From S2P Require Import Prelude Memory Kernel CString Spinlock Sched Ide Bytes Bio.
From S2P Require Import Log Crash Wait Driver BioSpec LogSpec.

(** ** What file system code leaves alone *)

(** The state without processes, CPUs, locks, the cache, the disk and the
    entries of the log. *)
Definition stable (s : kernel) : kernel :=
  s <| k_ptable := [] |> <| k_cpus := [] |> <| k_locks := ∅ |>
    <| k_bcache := Mkbcache [] None None |> <| k_disk := ∅ |>
    <| k_log ::= fun g => g <| lg_n := 0 |> <| lg_block := [] |> |>.

Definition fs_rel (s s' : kernel) : Prop := stable s' = stable s /\ cur_cr3 s' = cur_cr3 s.

Lemma fs_rel_refl s : fs_rel s s.
Proof. done. Qed.

Lemma fs_rel_trans s1 s2 s3 : fs_rel s1 s2 -> fs_rel s2 s3 -> fs_rel s1 s3.
Proof. intros [H1 G1] [H2 G2]. split; congruence. Qed.

Lemma io_fs_rel s s' : io_rel s s' -> fs_rel s s'.
Proof. intros [H G]. split; [|done]. rewrite H. reflexivity. Qed.

Lemma fs_rel_icache s s' : fs_rel s s' -> k_icache s' = k_icache s.
Proof. intros [H _]. exact (f_equal k_icache H). Qed.

(** ** The log header *)

(** The blocks of the header after [log_write] of block [n]. *)
Definition log_add (n : Z) (hs : list Z) : list Z := if decide (n ∈ hs) then hs else hs ++ [n].

Lemma elem_of_log_add n x hs : x ∈ log_add n hs <-> x = n \/ x ∈ hs.
Proof.
  unfold log_add. case_decide; [|rewrite elem_of_app, list_elem_of_singleton; tauto].
  split; [tauto|]. by intros [->|].
Qed.

Lemma NoDup_log_add n hs : NoDup hs -> NoDup (log_add n hs).
Proof.
  intros H. unfold log_add. case_decide; [done|]. apply NoDup_app. split_and!; [done| |apply NoDup_singleton].
  intros x Hx ->%list_elem_of_singleton. done.
Qed.

Lemma length_log_add n hs : (length (log_add n hs) <= S (length hs))%nat.
Proof. unfold log_add. case_decide; [lia|]. rewrite length_app. simpl. lia. Qed.

Lemma log_index_spec n hs bs fuel t :
  take (length hs) bs = hs -> (t <= length hs <= t + fuel)%nat ->
  Forall (fun h => u32 h = h) hs -> n ∉ take t hs ->
  let i := log_index fuel (Z.of_nat t) (Z.of_nat (length hs)) n bs in
  exists j, i = Z.of_nat j /\ (j <= length hs)%nat /\
    if decide (n ∈ hs) then hs !! j = Some n else j = length hs.
Proof.
  intros Hbs. revert t. induction fuel as [|fuel IH]; intros t Ht Hu Hn; cbv zeta; cbn [log_index].
  { assert (t = length hs) as -> by lia. rewrite Z.ltb_irrefl. cbn [negb].
    exists (length hs). split_and!; [done|lia|]. rewrite firstn_all in Hn. by rewrite decide_False. }
  destruct (Z.ltb_spec (Z.of_nat t) (Z.of_nat (length hs))) as [Hlt|Hge]; cbn [negb].
  2: { assert (t = length hs) as -> by lia. exists (length hs). split_and!; [done|lia|].
       rewrite firstn_all in Hn. by rewrite decide_False. }
  destruct (lookup_lt_is_Some_2 hs t ltac:(lia)) as [h Hh].
  assert (Hb : bs !! t = Some h).
  { rewrite <- Hh, <- Hbs at 1. rewrite lookup_take_lt; [done|lia]. }
  rewrite Nat2Z.id, Hb. change (default 0 (Some h)) with h.
  rewrite (Forall_lookup_1 _ _ _ _ Hu Hh : u32 h = h).
  destruct (Z.eqb_spec h n) as [->|Hne].
  - exists t. split_and!; [done|lia|]. rewrite decide_True by (by eapply list_elem_of_lookup_2). done.
  - replace (Z.of_nat t + 1) with (Z.of_nat (S t)) by lia. apply IH; [lia|done|].
    rewrite (take_S_r hs t h Hh). rewrite elem_of_app, list_elem_of_singleton. intros [H|H]; congruence.
Qed.

(** The log after [log_write]. *)
Definition log_put (n : Z) (hs : list Z) (g : log) : log :=
  let hs' := log_add n hs in
  g <| lg_n := Z.of_nat (length hs') |> <| lg_block := hs' ++ drop (length hs') (lg_block g) |>.

Lemma log_ok_put n hs g :
  log_ok g hs -> 0 <= n < lg_start g -> Z.of_nat (length (log_add n hs)) < LOGSIZE ->
  log_ok (log_put n hs g) (log_add n hs).
Proof.
  intros [H1 H2 H3 H4 H5 H6 H7 H8] Hn Hl. split; simpl; try done.
  - rewrite length_app, length_drop, H4. unfold LOGSIZE, MAXOPBLOCKS in *. lia.
  - by rewrite take_app_length.
  - unfold log_add. case_decide; [done|]. apply Forall_app. split; [done|]. by apply Forall_singleton.
Qed.

(** Marking a held buffer dirty pins its block. *)
Lemma pin_view i s held dirty m k b n d :
  fs_view i s held dirty m k -> held !! b = Some (n, d) ->
  fs_view i (with_buf b (bset B_DIRTY) s) held (log_add n dirty) m k.
Proof.
  intros Hst Hh. pose proof Hst as [Hr Hc Hm Hk].
  destruct (held_facts _ _ _ _ _ _ _ _ _ Hst Hh) as (Hb & Ht & Hd & Hmn & Hbz & Hb').
  destruct (cd_inv _ _ _ Hc) as [l Hl]. set (s1 := with_buf b (bset B_DIRTY) s).
  assert (Hbuf : forall x, buf_at s1 x = if decide (x = b) then bset B_DIRTY (buf_at s x) else buf_at s x)
    by (intros x; by apply buf_at_alter).
  destruct (bset_dirty (buf_at s b)) as (F1 & F2 & F3). pose proof Ht as [T1 T2]%is_block_true.
  assert (Hc1 : cached s1 held (log_add n dirty)).
  { split.
    - exists l. apply cache_inv_with; try done.
      intros y Hy Hne Hnd E1 E2. apply Hne. symmetry. by apply (ci_unique _ _ Hl).
    - intros x Hx. rewrite Hbuf. destruct (cd_buf _ _ _ Hc x Hx) as [G1 G2 G3 G4].
      destruct (decide (x = b)) as [->|Hne].
      + rewrite Hh in *. split; rewrite ?F1, ?F2; [done|done| |done]. intros _.
        split; [done|]. apply elem_of_log_add. left. exact T2.
      + split; [done|done| |done]. intros H. destruct (G3 H). split; [done|]. apply elem_of_log_add. by right.
    - apply (cd_dom _ _ _ Hc).
    - intros n' [->|Hn']%elem_of_log_add.
      + exists b. rewrite Hbuf, decide_True by done. split_and!; done.
      + destruct (cd_pinned _ _ _ Hc n' Hn') as (x & Hx & Hxt & Hxd). exists x.
        rewrite Hbuf. case_decide; [|done]. subst. split_and!; done. }
  split; [by eapply ready_ext|done| |done]. intros n'. rewrite <- Hm.
  apply (contents_change s s1 held dirty _ _ b Hc Hc1 Hb); [|done|].
  - intros x Hx Hxb. by rewrite Hbuf, decide_False.
  - intros Hn'. assert (Hn : is_block ROOTDEV n' (buf_at s b) = true /\ is_block ROOTDEV n' (buf_at s1 b) = true).
    { rewrite Hbuf, decide_True in * by done. unfold is_block in *. simpl in *. tauto. }
    rewrite (contents_hit s held dirty n' b), (contents_hit s1 _ _ n' b Hc1 Hb) by (done || apply Hn).
    by rewrite Hbuf, decide_True.
Qed.

Lemma fs_view_settled i s held dirty m k :
  fs_view i s held dirty m k -> fs_view i (settled s) held dirty m k.
Proof.
  intros [G1 [G2 G3 G4 G5] G6 G7]. split; try done; [by apply ready_settled|]. split; try done.
  destruct G2 as [l G2]. exists l. by apply (cache_inv_bcache s).
Qed.

(** ** Transactions *)

Record txn (start : Z) (i : nat) (s : kernel) (held : gmap nat (Z * list Z)) (hs : list Z)
    (m : Z -> list Z) (k : gmap (Z * Z) (list Z)) : Prop := {
  tx_view : fs_view i s held hs m k;
  tx_log : log_ok (k_log s) hs;
  tx_nodup : NoDup hs;
  tx_start : lg_start (k_log s) = start;
}.

Lemma log_put_same n hs g :
  log_ok g hs -> n ∈ hs ->
  log_put n hs g = g /\ forall j, hs !! j = Some n -> <[j := n]> (lg_block g) = lg_block g.
Proof.
  intros Hg Hn. assert (E : log_put n hs g = g).
  { unfold log_put, log_add. rewrite decide_True by done. rewrite <- (lo_n _ _ Hg).
    assert (Hb : hs ++ drop (length hs) (lg_block g) = lg_block g).
    { etransitivity; [|apply (take_drop (length hs))]. by rewrite (lo_blocks _ _ Hg). }
    rewrite Hb. by destruct g. }
  split; [done|]. intros j Hj. apply list_insert_id.
  rewrite <- Hj, <- (lo_blocks _ _ Hg) at 1. rewrite lookup_take_lt; [done|]. by eapply lookup_lt_Some.
Qed.

Lemma log_put_new n hs g :
  log_ok g hs -> n ∉ hs ->
  log_put n hs g = g <| lg_block := <[length hs := n]> (lg_block g) |> <| lg_n := lg_n g + 1 |>.
Proof.
  intros Hg Hn. unfold log_put, log_add. rewrite decide_False by done.
  assert (Hl : (length hs < length (lg_block g))%nat).
  { rewrite (lo_len _ _ Hg). pose proof (lo_n _ _ Hg). pose proof (lo_room _ _ Hg). lia. }
  rewrite (lo_n _ _ Hg), length_app. simpl.
  assert (Hb : (hs ++ [n]) ++ drop (length hs + 1) (lg_block g) = <[length hs := n]> (lg_block g)).
  { rewrite insert_take_drop by done. rewrite (lo_blocks _ _ Hg), Nat.add_1_r. by rewrite <- app_assoc. }
  rewrite Hb. unfold update. simpl. f_equal. lia.
Qed.

Lemma set_log f g (s : kernel) : f (k_log s) = g -> s <| k_log ::= f |> = s <| k_log := g |>.
Proof. by intros <-. Qed.

Lemma log_write_run start i s held hs m k b n d :
  txn start i s held hs m k -> held !! b = Some (n, d) -> 0 <= n < start ->
  Z.of_nat (length (log_add n hs)) < LOGSIZE ->
  log_write b s = Ok tt (settled (with_buf b (bset B_DIRTY) (s <| k_log ::= log_put n hs |>))).
Proof.
  intros [Hst Hg Hnd Hs] Hh Hn Hroom. pose proof (st_ready _ _ _ _ _ _ Hst) as Hr.
  destruct (held_facts _ _ _ _ _ _ _ _ _ Hst Hh) as (Hb & Ht & _). pose proof Ht as [T1 T2]%is_block_true.
  assert (Hidle : idle L_log s) by (split_and!; [apply Hr..|apply Hr; unfold fs_lock; tauto]).
  unfold log_write. rewrite (bind_ok _ _ _ _ _ (acquire_idle _ _ Hidle)).
  rewrite (bind_ok (gets k_log) _ (acquired L_log s) (k_log s) (acquired L_log s) eq_refl).
  rewrite (bind_ok (gets (fun s => b_blockno (buf_at s b))) _ (acquired L_log s) n (acquired L_log s))
    by (unfold gets; change (buf_at (acquired L_log s) b) with (buf_at s b); by rewrite T2).
  pose proof (lo_end _ _ Hg) as Hend. rewrite Hs in Hend.
  assert (Hu : Forall (fun h => u32 h = h) hs).
  { apply Forall_lookup_2. intros j h Hj. by apply (log_home _ _ _ _ Hg Hj). }
  destruct (log_index_spec n hs (lg_block (k_log s)) (Z.to_nat LOGSIZE) 0 (lo_blocks _ _ Hg)
    ltac:(pose proof (log_len _ _ Hg); lia) Hu ltac:(apply not_elem_of_nil)) as (j & Ej & Hj & Hcase).
  change (Z.of_nat 0) with 0 in Ej. rewrite <- (lo_n _ _ Hg) in Ej. rewrite Ej.
  assert (Hj' : Z.of_nat j < LOGSIZE).
  { pose proof (lo_room _ _ Hg). rewrite (lo_n _ _ Hg) in *. lia. }
  unfold set_lh_block. destruct (Z.leb_spec LOGSIZE (Z.of_nat j)); [lia|].
  rewrite Nat2Z.id. replace (i32 n) with n.
  2: { unfold LOGSIZE, MAXOPBLOCKS, FSSIZE in *. symmetry. apply i32_id. wrap_unfold. lia. }
  set (g := log_put n hs (k_log s)). rewrite (set_log (log_put n hs) g s eq_refl).
  set (s1 := with_buf b (bset B_DIRTY) (s <| k_log := g |>)).
  assert (Hidle1 : idle L_log s1) by done.
  rewrite <- (release_acquired 0 L_log s1 ltac:(by eapply idle_cpu_ok) ltac:(done) (proj2 (proj2 Hidle1))).
  set (f := fun g => g <| lg_block ::= <[j := n]> |>).
  rewrite (bind_ok (modify _) _ _ tt ((acquired L_log s) <| k_log ::= f |>) eq_refl).
  assert (Hset : when (Z.of_nat j =? lg_n (k_log s)) (set_lh_n (lg_n (k_log s) + 1))
      ((acquired L_log s) <| k_log ::= f |>) = Ok tt ((acquired L_log s) <| k_log := g |>)).
  { rewrite (lo_n _ _ Hg). destruct (decide (n ∈ hs)) as [Hin|Hin].
    - destruct (log_put_same n hs _ Hg Hin) as [E1 E2].
      destruct (Z.eqb_spec (Z.of_nat j) (Z.of_nat (length hs))) as [E|_].
      { apply lookup_lt_Some in Hcase. lia. }
      rewrite (set_log f g); [done|]. unfold f, g. rewrite E1. change (k_log (acquired L_log s)) with (k_log s).
      unfold update. rewrite E2 by done. by destruct (k_log s).
    - subst j. rewrite Z.eqb_refl. unfold set_lh_n. cbn [when]. unfold modify.
      rewrite (set_log f _ (acquired L_log s) eq_refl). erewrite set_log; [reflexivity|].
      unfold f, g. rewrite (log_put_new n hs _ Hg Hin), (lo_n _ _ Hg). done. }
  rewrite (bind_ok _ _ _ _ _ Hset). reflexivity.
Qed.

(** A block that nobody holds and that has not been modified is as on disk. *)
Lemma txn_clean start i s held hs m k n :
  txn start i s held hs m k -> (forall b x, held !! b = Some x -> x.1 <> n) ->
  n ∈ hs \/ m n = dblock k ROOTDEV n.
Proof.
  intros [[Hr Hc Hm Hk] _ _ _] Hh. destruct (decide (n ∈ hs)) as [|Hn]; [by left|right].
  rewrite <- Hm, <- Hk. by apply (contents_clean s held hs n).
Qed.

Lemma set_buf_txn start i s held hs m k b n d f d' :
  txn start i s held hs m k -> held !! b = Some (n, d) ->
  (forall x, b_next (f x) = b_next x /\ b_prev (f x) = b_prev x /\ b_dev (f x) = b_dev x /\
     b_blockno (f x) = b_blockno x /\ b_flags (f x) = b_flags x) ->
  b_data (f (buf_at s b)) = d' ->
  txn start i (with_buf b f s) (<[b := (n, d')]> held) hs (set_block m n d') k.
Proof. intros [H1 H2 H3 H4] Hh Hf Hd. split; try done. by eapply set_data_view. Qed.

Lemma log_write_txn start i s held hs m k b n d :
  txn start i s held hs m k -> held !! b = Some (n, d) -> 0 <= n < start ->
  Z.of_nat (length (log_add n hs)) < LOGSIZE ->
  exists s', log_write b s = Ok tt s' /\ txn start i s' held (log_add n hs) m k /\ fs_rel s s'.
Proof.
  intros Htx Hh Hn Hroom. pose proof Htx as [H1 H2 H3 H4]. eexists. split; [by eapply log_write_run|].
  rewrite (set_log (log_put n hs) _ s eq_refl).
  assert (Hcpu : cpu_ok 0 s) by (by eapply ready_cpu_ok, st_ready). split.
  - split; [|apply log_ok_put; [done|by rewrite H4|done]|by apply NoDup_log_add|done].
    apply fs_view_settled. eapply pin_view; [|exact Hh]. by apply fs_view_log.
  - split; [done|]. etransitivity; [by apply cr3_settled|done].
Qed.

Lemma brelse_txn start i s held hs m k b n d :
  txn start i s held hs m k -> held !! b = Some (n, d) -> n ∈ hs \/ d = dblock k ROOTDEV n ->
  exists s', brelse b s = Ok tt s' /\ txn start i s' (delete b held) hs m k /\ fs_rel s s'.
Proof.
  intros [H1 H2 H3 H4] Hh Hd.
  destruct (brelse_view _ _ _ _ _ _ _ _ _ H1 Hh Hd) as (s' & E & Hv & Hio). exists s'.
  split_and!; [done| |by apply io_fs_rel]. split; rewrite ?(io_rel_log s s'); done.
Qed.

Section rules.
Context {E : Env} {i : nat} {R : kernel -> kernel -> Prop} {HD : Driver E i R}.
Context (start : Z) (C : kernel -> Prop).

(** [bread] of a block that nobody holds. *)
Lemma bread_txn n s held hs m k (Q : nat -> kernel -> Prop) :
  txn start i s held hs m k -> n < start ->
  (forall b x, held !! b = Some x -> x.1 <> n) ->
  n ∈ hs \/ (size held + length hs < NBUF)%nat ->
  (forall s1, k_disk s1 = k -> C s1) ->
  (forall b s', txn start i s' (<[b := (n, m n)]> held) hs m k -> held !! b = None ->
     fs_rel s s' -> b_data (buf_at s' b) = m n -> Q b s') ->
  wpr R C (bread ROOTDEV n) s Q.
Proof.
  intros Htx Hn Hh Hroom HC HQ. pose proof Htx as [H1 H2 H3 H4].
  eapply (bread_wp C n s held hs m k); try done.
  { pose proof (lo_end _ _ H2). unfold LOGSIZE, MAXOPBLOCKS in *. lia. }
  intros b s' Hv Hb Hio. apply HQ; [|done|by apply io_fs_rel|].
  - split; rewrite ?(io_rel_log s s'); done.
  - by apply (held_facts _ _ _ _ _ _ b n (m n) Hv); rewrite lookup_insert_eq.
Qed.

(** The end of an update of a block: new data, [log_write] and [brelse]. *)
Lemma update_steps b n d f d' s held hs m k :
  txn start i s held hs m k -> held !! b = Some (n, d) -> 0 <= n < start ->
  Z.of_nat (length (log_add n hs)) < LOGSIZE ->
  (forall x, b_next (f x) = b_next x /\ b_prev (f x) = b_prev x /\ b_dev (f x) = b_dev x /\
     b_blockno (f x) = b_blockno x /\ b_flags (f x) = b_flags x) ->
  b_data (f (buf_at s b)) = d' ->
  exists s2 s', log_write b (with_buf b f s) = Ok tt s2 /\ brelse b s2 = Ok tt s' /\
    txn start i s' (delete b held) (log_add n hs) (set_block m n d') k /\ fs_rel s s'.
Proof.
  intros Htx Hh Hn Hroom Hf Hd.
  pose proof (set_buf_txn _ _ _ _ _ _ _ _ _ _ _ _ Htx Hh Hf Hd) as T1.
  assert (Hh1 : <[b := (n, d')]> held !! b = Some (n, d')) by apply lookup_insert_eq.
  destruct (log_write_txn _ _ _ _ _ _ _ _ _ _ T1 Hh1 Hn Hroom) as (s2 & E2 & T2 & R2).
  destruct (brelse_txn _ _ _ _ _ _ _ _ _ _ T2 Hh1) as (s3 & E3 & T3 & R3).
  { left. apply elem_of_log_add. by left. }
  exists s2, s3. split_and!; [done|done|by rewrite delete_insert_eq in T3|].
  eapply fs_rel_trans; [|exact R3]. eapply fs_rel_trans; [|exact R2]. done.
Qed.

Lemma update_txn {A} b n d f d' s held hs m k (rest : K A) Q :
  txn start i s held hs m k -> held !! b = Some (n, d) -> 0 <= n < start ->
  Z.of_nat (length (log_add n hs)) < LOGSIZE ->
  (forall x, b_next (f x) = b_next x /\ b_prev (f x) = b_prev x /\ b_dev (f x) = b_dev x /\
     b_blockno (f x) = b_blockno x /\ b_flags (f x) = b_flags x) ->
  b_data (f (buf_at s b)) = d' ->
  (forall s', txn start i s' (delete b held) (log_add n hs) (set_block m n d') k -> fs_rel s s' ->
     wpr R C rest s' Q) ->
  wpr R C (set_buf b f;; log_write b;; brelse b;; rest) s Q.
Proof.
  intros Htx Hh Hn Hroom Hf Hd HQ.
  destruct (update_steps b n d f d' s held hs m k) as (s2 & s' & E2 & E3 & T3 & R3); [done..|].
  eapply (wpr_step _ _ _ _ _ tt (with_buf b f s)); [reflexivity|].
  eapply wpr_step; [exact E2|]. eapply wpr_step; [exact E3|]. by apply HQ.
Qed.

Lemma update_last b n d f d' s held hs m k Q :
  txn start i s held hs m k -> held !! b = Some (n, d) -> 0 <= n < start ->
  Z.of_nat (length (log_add n hs)) < LOGSIZE ->
  (forall x, b_next (f x) = b_next x /\ b_prev (f x) = b_prev x /\ b_dev (f x) = b_dev x /\
     b_blockno (f x) = b_blockno x /\ b_flags (f x) = b_flags x) ->
  b_data (f (buf_at s b)) = d' ->
  (forall s', txn start i s' (delete b held) (log_add n hs) (set_block m n d') k -> fs_rel s s' ->
     Q tt s') ->
  wpr R C (set_buf b f;; log_write b;; brelse b) s Q.
Proof.
  intros Htx Hh Hn Hroom Hf Hd HQ.
  destruct (update_steps b n d f d' s held hs m k) as (s2 & s' & E2 & E3 & T3 & R3); [done..|].
  eapply (wpr_step _ _ _ _ _ tt (with_buf b f s)); [reflexivity|].
  eapply wpr_step; [exact E2|]. eapply wpr_ok; [exact E3|]. by apply HQ.
Qed.
End rules.
