(* ===== verification/Balloc.v ===== *)
(** The block allocator of fs.c inside a transaction.

    The free map of the file system is one block of bits; [used] reads it.
    [balloc] takes a block that is free, marks it and fills it with zeroes, and
    [bfree] gives one back. *)
From S2P Require Import Prelude Memory Kernel CString Spinlock Sched Ide Bytes Bio.
From S2P Require Import Log Inode Crash Wait Driver BioSpec LogSpec Txn.

(** ** Layout *)

(** The parameters of a file system: its size, the number of inodes and the
    first block of the log. *)
Record geom := Mkgeom {
  g_size : Z;
  g_ninodes : Z;
  g_start : Z;
}.

Section layout.
Context (g : geom).

Definition bitmap_block : Z := BBLOCK 0 (g_ninodes g).
Definition data_start : Z := bitmap_block + 1.

Record geom_ok : Prop := {
  go_ninodes : 0 < g_ninodes g;
  go_data : data_start <= g_start g;
  go_log : g_start g <= g_size g;
  go_size : g_size g <= FSSIZE;
}.

(** Block [n] is marked in use. *)
Definition used (m : Z -> list Z) (n : Z) : bool :=
  Z.testbit (get8 (m bitmap_block) (Z.to_nat (n / 8))) (n mod 8).

Definition mark (d : list Z) (n : Z) : list Z :=
  let j := Z.to_nat (n / 8) in put8 d j (Z.lor (get8 d j) (Z.shiftl 1 (n mod 8))).

(** The contents of a file system: all blocks are arrays of [BSIZE] bytes, the
    superblock says where things are, and the blocks before the data are in
    use. *)
Record fs_ok (m : Z -> list Z) : Prop := {
  fk_block : forall n, 0 <= n < g_start g -> length (m n) = 512%nat /\ bytes_ok (m n);
  fk_size : sb_size (superblock_of (m 1)) = g_size g;
  fk_ninodes : sb_ninodes (superblock_of (m 1)) = g_ninodes g;
  fk_meta : forall n, 0 <= n < data_start -> used m n = true;
}.
End layout.

(** ** Bits *)

Lemma land_bit v n : 0 <= n -> (Z.land v (Z.shiftl 1 n) =? 0) = negb (Z.testbit v n).
Proof.
  intros H. rewrite Z.shiftl_1_l. destruct (Z.testbit v n) eqn:Hb; simpl.
  - apply Z.eqb_neq. intros E. apply (f_equal (fun z => Z.testbit z n)) in E.
    rewrite Z.land_spec, Hb, Z.pow2_bits_true, Z.bits_0 in E by done. done.
  - apply Z.eqb_eq. apply Z.bits_inj'. intros j Hj. rewrite Z.land_spec, Z.bits_0.
    destruct (decide (j = n)) as [->|]; [by rewrite Hb|].
    rewrite Z.pow2_bits_false by done. apply andb_false_r.
Qed.

Lemma u8_lor_bit v n : 0 <= v < 256 -> 0 <= n < 8 -> u8 (Z.lor v (Z.shiftl 1 n)) = Z.lor v (Z.shiftl 1 n).
Proof.
  intros Hv Hn. apply u8_id. rewrite Z.shiftl_1_l. unfold is_u8.
  assert (Hz : Z.lor v (2 ^ n) = Z.lor v (2 ^ n) mod 2 ^ 8).
  { apply Z.bits_inj'. intros j Hj. destruct (decide (j < 8)).
    - by rewrite Z.mod_pow2_bits_low by lia.
    - rewrite Z.mod_pow2_bits_high by lia. rewrite Z.lor_spec, Z.pow2_bits_false by lia.
      rewrite orb_false_r. replace v with (v mod 2 ^ 8) by (apply Z.mod_small; lia).
      apply Z.mod_pow2_bits_high. lia. }
  rewrite Hz. change (2 ^ 8) with 256. pose proof (Z.mod_pos_bound (Z.lor v (2 ^ n)) 256). lia.
Qed.

Lemma bit_scan_spec fuel bi b size d x :
  0 <= bi -> bi <= x < bi + Z.of_nat fuel -> b + x < size ->
  Z.testbit (get8 d (Z.to_nat (x / 8))) (x mod 8) = false ->
  exists y, bit_scan fuel bi b size d = Some y /\ bi <= y <= x /\
    Z.testbit (get8 d (Z.to_nat (y / 8))) (y mod 8) = false.
Proof.
  revert bi; induction fuel as [|fuel IH]; intros bi Hbi Hx Hsz Hfree; [lia|]. cbn [bit_scan].
  destruct (Z.ltb_spec (b + bi) size); [|lia]. cbn [negb].
  rewrite land_bit by (pose proof (Z.mod_pos_bound bi 8); lia).
  destruct (Z.testbit (get8 d (Z.to_nat (bi / 8))) (bi mod 8)) eqn:Eb; cbn [negb].
  - assert (x <> bi) by congruence. destruct (IH (bi + 1)) as (y & E & Hy & Hfy); [lia..|done|].
    exists y. split_and!; [done|lia..|done].
  - exists bi. split_and!; [done|lia..|done].
Qed.

Lemma mark_ok d n : length d = 512%nat -> bytes_ok d -> length (mark d n) = 512%nat /\ bytes_ok (mark d n).
Proof.
  intros H1 H2. unfold mark. split; [by rewrite length_put8|].
  by apply bytes_ok_put8.
Qed.

Lemma mark_bit d n x :
  length d = 512%nat -> bytes_ok d -> 0 <= n < 4096 -> 0 <= x ->
  Z.testbit (get8 (mark d n) (Z.to_nat (x / 8))) (x mod 8) =
  (x =? n) || Z.testbit (get8 d (Z.to_nat (x / 8))) (x mod 8).
Proof.
  intros Hl Hb Hn Hx. unfold mark.
  pose proof (Z.div_mod n 8 ltac:(lia)). pose proof (Z.mod_pos_bound n 8 ltac:(lia)).
  pose proof (Z.div_mod x 8 ltac:(lia)). pose proof (Z.mod_pos_bound x 8 ltac:(lia)).
  rewrite get8_put8 by lia. case_decide as E.
  - assert (Ed : x / 8 = n / 8) by lia. rewrite u8_lor_bit; [|by apply get8_range|lia].
    rewrite Z.lor_spec, Z.shiftl_1_l, Ed, orb_comm. f_equal. rewrite Z.pow2_bits_eqb by lia.
    destruct (Z.eqb_spec x n), (Z.eqb_spec (n mod 8) (x mod 8)); try done; lia.
  - assert (x <> n) by (intros ->; done). by destruct (Z.eqb_spec x n).
Qed.

(** ** Allocation *)

Lemma set_block_eq m n d : set_block m n d n = d.
Proof. unfold set_block. by rewrite decide_True. Qed.

Lemma set_block_ne m n d n' : n' <> n -> set_block m n d n' = m n'.
Proof. intros H. unfold set_block. by rewrite decide_False. Qed.

(** The blocks after the allocation of block [n]. *)
Definition allocated (g : geom) (m : Z -> list Z) (n : Z) : Z -> list Z :=
  set_block (set_block m (bitmap_block g) (mark (m (bitmap_block g)) n)) n block0.

Lemma bitmap_range g : geom_ok g -> 3 <= bitmap_block g < g_start g.
Proof.
  intros [H1 H2 H3 H4]. unfold data_start in H2. split; [|lia].
  change (bitmap_block g) with (0 + g_ninodes g / 8 + 3).
  pose proof (Z.div_pos (g_ninodes g) 8 ltac:(lia) ltac:(done)). lia.
Qed.

Lemma used_allocated g m n x :
  geom_ok g -> fs_ok g m -> data_start g <= n < g_start g -> 0 <= x ->
  used g (allocated g m n) x = (x =? n) || used g m x.
Proof.
  intros Hg Hm Hn Hx. pose proof (bitmap_range g Hg). pose proof (go_log g Hg). pose proof (go_size g Hg).
  unfold used, allocated, data_start in *. rewrite set_block_ne, set_block_eq by lia.
  destruct (fk_block g m Hm (bitmap_block g) ltac:(lia)). apply mark_bit; try done; unfold FSSIZE in *; lia.
Qed.

Lemma fs_ok_allocated g m n :
  geom_ok g -> fs_ok g m -> data_start g <= n < g_start g -> fs_ok g (allocated g m n).
Proof.
  intros Hg Hm Hn. pose proof (bitmap_range g Hg) as Hb. pose proof Hm as [H1 H2 H3 H4].
  assert (H1' : allocated g m n 1 = m 1).
  { unfold allocated, data_start in *. by rewrite !set_block_ne by lia. }
  split; [|by rewrite H1'|by rewrite H1'|].
  - intros x Hx. unfold allocated, set_block.
    case_decide; [split; [done|]|case_decide; [apply mark_ok; apply H1; lia|by apply H1]].
    unfold bytes_ok, block0. apply Forall_replicate. done.
  - intros x Hx. rewrite used_allocated by (done || lia). rewrite H4 by done. apply orb_true_r.
Qed.

(** Room in the log and in the cache for [c] more blocks. *)
Definition room (held : gmap nat (Z * list Z)) (hs : list Z) (c : nat) : Prop :=
  (size held + length hs + c < 30)%nat.

Lemma room_log held hs c n : room held hs (S c) -> Z.of_nat (length (log_add n hs)) < LOGSIZE.
Proof. unfold room, LOGSIZE, MAXOPBLOCKS. pose proof (length_log_add n hs). lia. Qed.

Lemma room_add held hs c n : room held hs (S c) -> room held (log_add n hs) c.
Proof. unfold room. pose proof (length_log_add n hs). lia. Qed.

Lemma room_cache held hs c : room held hs c -> (size held + length hs < NBUF)%nat.
Proof. unfold room, NBUF. lia. Qed.

(** The blocks held are data blocks in use. *)
Definition data_held (g : geom) (m : Z -> list Z) (held : gmap nat (Z * list Z)) : Prop :=
  forall b x, held !! b = Some x -> data_start g <= x.1 /\ used g m x.1 = true.

Lemma data_held_empty g m : data_held g m ∅.
Proof. intros b x H. by rewrite lookup_empty in H. Qed.

Section balloc.
Context {E : Env} {i : nat} {R : kernel -> kernel -> Prop} {HD : Driver E i R}.
Context (g : geom) (Hg : geom_ok g) (C : kernel -> Prop).

Abbreviation start := (g_start g).

Lemma readsb_txn s held hs m k (Q : superblock -> kernel -> Prop) :
  txn start i s held hs m k -> data_held g m held -> room held hs 0 ->
  (forall s1, k_disk s1 = k -> C s1) ->
  (forall s', txn start i s' held hs m k -> fs_rel s s' -> Q (superblock_of (m 1)) s') ->
  wpr R C (readsb ROOTDEV) s Q.
Proof.
  intros Htx Hh Hroom HC HQ. pose proof (bitmap_range g Hg) as Hb.
  assert (Hne : forall b x, held !! b = Some x -> x.1 <> 1).
  { intros b x Hx. destruct (Hh b x Hx). unfold data_start in *. lia. }
  unfold readsb. apply wpr_bind.
  eapply (bread_txn start C 1 s held hs m k); [done|lia|done|right; by eapply room_cache|done|].
  intros b s1 T1 Hbn R1 Hd. apply wpr_bind, wpr_gets. rewrite Hd.
  destruct (brelse_txn _ _ _ _ _ _ _ b 1 (m 1) T1 (lookup_insert_eq _ _ _)) as (s2 & E2 & T2 & R2).
  { by apply (txn_clean _ _ _ _ _ _ _ _ Htx). }
  eapply wpr_step; [exact E2|]. apply wpr_ret. rewrite delete_insert_id in T2 by done.
  apply HQ; [done|by eapply fs_rel_trans].
Qed.

Lemma bzero_txn n s held hs m k (Q : unit -> kernel -> Prop) :
  txn start i s held hs m k -> 0 <= n < start -> (forall b x, held !! b = Some x -> x.1 <> n) ->
  room held hs 1 -> (forall s1, k_disk s1 = k -> C s1) ->
  (forall s', txn start i s' held (log_add n hs) (set_block m n block0) k -> fs_rel s s' -> Q tt s') ->
  wpr R C (bzero ROOTDEV n) s Q.
Proof.
  intros Htx Hn Hh Hroom HC HQ. pose proof (go_log g Hg). pose proof (go_size g Hg).
  unfold bzero. replace (u32 n) with n by (symmetry; apply u32_id; unfold FSSIZE in *; wrap_unfold; lia).
  apply wpr_bind. eapply (bread_txn start C n s held hs m k); [done|lia|done|right; by eapply room_cache|done|].
  intros b s1 T1 Hbn R1 Hd.
  eapply (update_last start C b n (m n) _ block0 s1); [done|apply lookup_insert_eq|done|by eapply room_log|done|done|].
  intros s2 T2 R2. rewrite delete_insert_id in T2 by done.
  apply HQ; [done|by eapply fs_rel_trans].
Qed.

(** [balloc] when a block is free: it returns one, marked and zeroed. *)
Lemma balloc_txn s held hs m k x (Q : Z -> kernel -> Prop) :
  txn start i s held hs m k -> fs_ok g m -> data_held g m held -> room held hs 2 ->
  0 <= x < start -> used g m x = false ->
  (forall s1, k_disk s1 = k -> C s1) ->
  (forall n s', data_start g <= n < start -> used g m n = false ->
     txn start i s' held (log_add n (log_add (bitmap_block g) hs)) (allocated g m n) k ->
     fs_rel s s' -> Q n s') ->
  wpr R C (balloc ROOTDEV) s Q.
Proof.
  intros Htx Hm Hh Hroom Hx Hfree HC HQ. pose proof (bitmap_range g Hg) as Hb.
  pose proof (go_log g Hg). pose proof (go_size g Hg).
  unfold balloc. apply wpr_bind. eapply (readsb_txn s held hs m k); [done|done|unfold room in *; lia|done|].
  intros s1 T1 R1. rewrite (fk_size g m Hm).
  replace (Z.to_nat (g_size g / BPB + 1)) with 1%nat.
  2: { rewrite Z.div_small; [done|]. unfold FSSIZE in *. change BPB with 4096. lia. }
  cbn [balloc_loop]. rewrite (fk_size g m Hm). destruct (Z.ltb_spec 0 (g_size g)); [|lia]. cbn [negb].
  rewrite (fk_ninodes g m Hm). fold (bitmap_block g). apply wpr_bind.
  assert (Hne : forall b y, held !! b = Some y -> y.1 <> bitmap_block g).
  { intros b y Hy. destruct (Hh b y Hy). unfold data_start in *. lia. }
  eapply (bread_txn start C (bitmap_block g) s1 held hs m k);
    [done|lia|done|right; by eapply room_cache|done|].
  intros b s2 T2 Hbn R2 Hd. apply wpr_bind, wpr_gets. rewrite Hd.
  destruct (bit_scan_spec (Z.to_nat BPB) 0 0 (g_size g) (m (bitmap_block g)) x) as (n & En & Hn & Hnf);
    [lia| |lia|done|].
  { change (Z.of_nat (Z.to_nat BPB)) with 4096. unfold FSSIZE in *. lia. }
  rewrite En. change (used g m n = false) in Hnf.
  assert (Hds : data_start g <= n).
  { destruct (decide (data_start g <= n)); [done|]. rewrite (fk_meta g m Hm n) in Hnf by lia. done. }
  eapply (update_txn start C b (bitmap_block g) (m (bitmap_block g)) _ (mark (m (bitmap_block g)) n) s2);
    [done|apply lookup_insert_eq|lia|by eapply room_log|done|done|].
  intros s3 T3 R3. rewrite delete_insert_id in T3 by done. rewrite Z.add_0_l. apply wpr_bind.
  eapply (bzero_txn n s3); [done|lia| |by apply room_add|done|].
  { intros b' y Hy Ey. destruct (Hh b' y Hy) as [_ H']. rewrite Ey in H'. congruence. }
  intros s4 T4 R4. apply wpr_ret. apply HQ; [lia|done|done|].
  eapply fs_rel_trans; [exact R1|]. eapply fs_rel_trans; [exact R2|]. by eapply fs_rel_trans.
Qed.
End balloc.
