(* ===== verification/InodeSpec.v ===== *)
(** The blocks of a file: what [bmap] does.

    A file owns up to [MAXFILE] data blocks and one block of addresses.  [slot
    addrs m j] is the number of its [j]th block, [slot addrs m 140] that of the
    block of addresses, and 0 stands for a block that is not there. *)
From S2P Require Import Prelude Memory Kernel CString Spinlock Sched Ide Bytes Bio.
From S2P Require Import Log Inode Crash Wait Driver BioSpec LogSpec Txn Balloc.

(** ** Slots *)

Definition ad (addrs : list Z) (j : nat) : Z := default 0 (addrs !! j).

(** The slot of the block of addresses. *)
Definition IND : Z := 140.

Definition slot (addrs : list Z) (m : Z -> list Z) (j : Z) : Z :=
  if j <? NDIRECT then ad addrs (Z.to_nat j)
  else if j =? IND then ad addrs 12
  else if ad addrs 12 =? 0 then 0 else get32 (m (ad addrs 12)) (4 * Z.to_nat (j - NDIRECT)).

(** The blocks of a file are data blocks in use, and all different. *)
Record file_ok (g : geom) (m : Z -> list Z) (addrs : list Z) : Prop := {
  fo_len : length addrs = 13%nat;
  fo_block : forall j, 0 <= j <= IND -> slot addrs m j <> 0 ->
    data_start g <= slot addrs m j < g_start g /\ used g m (slot addrs m j) = true;
  fo_inj : forall j j', 0 <= j <= IND -> 0 <= j' <= IND -> slot addrs m j <> 0 ->
    slot addrs m j = slot addrs m j' -> j = j';
}.

(** ** Counting free blocks *)

Definition free_blocks (g : geom) (m : Z -> list Z) : list Z :=
  filter (fun n => used g m n = false) (seqZ (data_start g) (g_start g - data_start g)).

Definition nfree (g : geom) (m : Z -> list Z) : nat := length (free_blocks g m).

Lemma elem_of_free g m n :
  n ∈ free_blocks g m <-> used g m n = false /\ data_start g <= n < g_start g.
Proof.
  unfold free_blocks. rewrite list_elem_of_filter, elem_of_seqZ.
  split; (intros [? ?]; split; [done|lia]).
Qed.

Lemma nfree_pos g m : (0 < nfree g m)%nat -> exists n, data_start g <= n < g_start g /\ used g m n = false.
Proof.
  unfold nfree. intros H. destruct (free_blocks g m) as [|n l] eqn:E; [simpl in H; lia|].
  assert (Hn : n ∈ free_blocks g m) by (rewrite E; by left). apply elem_of_free in Hn. exists n. tauto.
Qed.

Lemma nfree_take g m m' n :
  used g m n = false -> data_start g <= n < g_start g ->
  (forall x, data_start g <= x -> used g m' x = (x =? n) || used g m x) ->
  nfree g m = S (nfree g m').
Proof.
  intros Hf Hn Hu. unfold nfree.
  assert (Hp : free_blocks g m ≡ₚ n :: free_blocks g m').
  { apply NoDup_Permutation.
    - apply NoDup_filter, NoDup_seqZ.
    - constructor; [|apply NoDup_filter, NoDup_seqZ]. rewrite elem_of_free, Hu, Z.eqb_refl by lia.
      intros [? _]. done.
    - intros x. rewrite elem_of_cons, !elem_of_free. split.
      + intros [H1 H2]. rewrite Hu by lia. destruct (Z.eqb_spec x n); [by left|right]. done.
      + intros [->|[H1 H2]]; [done|]. rewrite Hu in H1 by lia.
        apply orb_false_iff in H1 as [_ H1]. done. }
  by rewrite (Permutation_length Hp).
Qed.

Lemma nfree_same g m m' :
  m' (bitmap_block g) = m (bitmap_block g) -> nfree g m' = nfree g m.
Proof. intros H. unfold nfree, free_blocks, used. by rewrite H. Qed.

(** ** Giving a file a block *)

(** Block [n] becomes the block of slot [j], which had none. *)
Record grown (g : geom) (j n : Z) (addrs : list Z) (m : Z -> list Z) (addrs' : list Z) (m' : Z -> list Z) :
    Prop := {
  gr_none : slot addrs m j = 0;
  gr_len : length addrs' = length addrs;
  gr_slot : forall x, 0 <= x <= IND -> slot addrs' m' x = if decide (x = j) then n else slot addrs m x;
  gr_free : used g m n = false;
  gr_data : data_start g <= n < g_start g;
  gr_used : forall x, 0 <= x -> used g m' x = (x =? n) || used g m x;
  gr_zero : m' n = block0;
  gr_same : forall x, x <> bitmap_block g -> x <> n -> (x = slot addrs' m' IND -> x = 0) -> m' x = m x;
  gr_fs : fs_ok g m';
}.

Lemma grown_ok g j n addrs m addrs' m' :
  geom_ok g -> file_ok g m addrs -> 0 <= j <= IND -> grown g j n addrs m addrs' m' ->
  file_ok g m' addrs' /\ nfree g m = S (nfree g m').
Proof.
  intros Hg [F1 F2 F3] Hj G. pose proof (bitmap_range g Hg) as Hb.
  assert (Hds : 3 < data_start g) by (unfold data_start; lia).
  assert (Hfresh : forall x, 0 <= x <= IND -> slot addrs m x <> n).
  { intros x Hx E. pose proof (gr_data _ _ _ _ _ _ _ G). pose proof (gr_free _ _ _ _ _ _ _ G) as Hf.
    destruct (F2 x Hx) as [_ Hu]; [lia|]. congruence. }
  split; [split|].
  - by rewrite (gr_len _ _ _ _ _ _ _ G).
  - intros x Hx. rewrite (gr_slot _ _ _ _ _ _ _ G x Hx). case_decide.
    + intros _. split; [apply G|]. rewrite (gr_used _ _ _ _ _ _ _ G), Z.eqb_refl; [done|].
      pose proof (gr_data _ _ _ _ _ _ _ G). lia.
    + intros Hx0. destruct (F2 x Hx Hx0) as [H1 H2]. split; [done|].
      rewrite (gr_used _ _ _ _ _ _ _ G), H2 by lia. apply orb_true_r.
  - intros x y Hx Hy. rewrite !(gr_slot _ _ _ _ _ _ _ G) by done.
    repeat case_decide; subst; try done.
    + intros _ E. by destruct (Hfresh y Hy).
    + intros _ E. by destruct (Hfresh x Hx).
    + by apply F3.
  - apply (nfree_take g m m' n); [apply G..|]. intros x Hx. apply (gr_used _ _ _ _ _ _ _ G). lia.
Qed.

Lemma ad_insert addrs j n x :
  (j < length addrs)%nat -> ad (<[j := n]> addrs) x = if decide (x = j) then n else ad addrs x.
Proof.
  intros H. unfold ad. case_decide; [subst; by rewrite list_lookup_insert_eq|].
  by rewrite list_lookup_insert_ne.
Qed.

Lemma get32_block0 j : get32 block0 j = 0.
Proof.
  assert (H : forall x, get8 block0 x = 0).
  { intros x. unfold get8, block0. destruct (replicate _ 0 !! x) eqn:E; [|done].
    by apply lookup_replicate in E as [-> _]. }
  unfold get32. by rewrite !H.
Qed.

Lemma allocated_same g m n x : x <> bitmap_block g -> x <> n -> allocated g m n x = m x.
Proof. intros H1 H2. unfold allocated. by rewrite !set_block_ne. Qed.

(** The block of addresses survives the allocation of another block. *)
Lemma ind_same g m addrs n :
  geom_ok g -> file_ok g m addrs -> ad addrs 12 <> 0 -> used g m n = false ->
  allocated g m n (ad addrs 12) = m (ad addrs 12).
Proof.
  intros Hg [F1 F2 F3] Ha Hn. pose proof (bitmap_range g Hg).
  destruct (F2 IND ltac:(unfold IND; lia) Ha) as [H1 H2]. change (slot addrs m IND) with (ad addrs 12) in *.
  apply allocated_same; [unfold data_start in *; lia|congruence].
Qed.

Section grow.
Context (g : geom) (Hg : geom_ok g) (addrs : list Z) (m : Z -> list Z) (n : Z).
Context (Hf : file_ok g m addrs) (Hm : fs_ok g m).
Context (Hfree : used g m n = false) (Hn : data_start g <= n < g_start g).

Lemma grow_direct j :
  (j < 12)%nat -> ad addrs j = 0 ->
  grown g (Z.of_nat j) n addrs m (<[j := n]> addrs) (allocated g m n).
Proof.
  intros Hj Ha. pose proof (fo_len _ _ _ Hf) as Hl. split; try done.
  - unfold slot. destruct (Z.ltb_spec (Z.of_nat j) NDIRECT); [|unfold NDIRECT in *; lia]. by rewrite Nat2Z.id.
  - apply length_insert.
  - intros x Hx. unfold slot. rewrite !ad_insert by lia. rewrite (decide_False (P := 12%nat = j)) by lia.
    destruct (Z.ltb_spec x NDIRECT).
    + destruct (decide (x = Z.of_nat j)) as [->|]; [by rewrite Nat2Z.id, decide_True|].
      rewrite decide_False by lia. done.
    + unfold NDIRECT in *. rewrite (decide_False (P := x = Z.of_nat j)) by lia.
      destruct (Z.eqb_spec (ad addrs 12) 0); [done|]. by rewrite ind_same.
  - intros x Hx. by apply used_allocated.
  - apply set_block_eq.
  - intros x H1 H2 _. by apply allocated_same.
  - by apply fs_ok_allocated.
Qed.

Lemma grow_ind :
  ad addrs 12 = 0 -> grown g IND n addrs m (<[12%nat := n]> addrs) (allocated g m n).
Proof.
  intros Ha. pose proof (fo_len _ _ _ Hf) as Hl. pose proof (bitmap_range g Hg). split; try done.
  - apply length_insert.
  - intros x Hx. unfold slot. rewrite !ad_insert by lia.
    rewrite (decide_True (P := 12%nat = 12%nat)) by done. unfold NDIRECT, IND in *.
    destruct (Z.ltb_spec x 12).
    + rewrite !decide_False by lia. done.
    + destruct (Z.eqb_spec x 140); [by rewrite decide_True|]. rewrite decide_False by lia.
      destruct (Z.eqb_spec n 0); [pose proof Hn; unfold data_start in *; lia|]. rewrite Ha. simpl.
      unfold allocated. rewrite set_block_eq. apply get32_block0.
  - intros x Hx. by apply used_allocated.
  - apply set_block_eq.
  - intros x H1 H2 _. by apply allocated_same.
  - by apply fs_ok_allocated.
Qed.

Lemma grow_entry bn :
  12 <= bn < IND -> ad addrs 12 <> 0 -> slot addrs m bn = 0 ->
  let a := ad addrs 12 in
  grown g bn n addrs m addrs
    (set_block (allocated g m n) a (put32 (m a) (4 * Z.to_nat (bn - NDIRECT)) n)).
Proof.
  intros Hbn Ha H0 a. pose proof (fo_len _ _ _ Hf) as Hl. pose proof (bitmap_range g Hg) as Hb.
  pose proof (go_log g Hg). pose proof (go_size g Hg).
  destruct (fo_block _ _ _ Hf IND ltac:(unfold IND; lia) Ha) as [Ha1 Ha2].
  change (slot addrs m IND) with a in *.
  assert (Han : a <> n) by congruence.
  assert (Hab : a <> bitmap_block g) by (unfold data_start in *; lia).
  destruct (fk_block g m Hm a ltac:(unfold data_start in *; lia)) as [Hlen Hbytes].
  set (m' := set_block _ _ _).
  assert (Hma : m' a = put32 (m a) (4 * Z.to_nat (bn - NDIRECT)) n) by apply set_block_eq.
  assert (Hmb : forall x, x <> a -> m' x = allocated g m n x) by (intros x Hx; by apply set_block_ne).
  assert (Hn32 : u32 n = n).
  { apply u32_id. pose proof Hn. unfold FSSIZE, data_start in *. wrap_unfold. lia. }
  assert (Hus : forall x, used g m' x = used g (allocated g m n) x)
    by (intros x; unfold used; by rewrite Hmb).
  split; try done.
  - intros x Hx. unfold slot. fold a. rewrite Hma. unfold NDIRECT, IND in *.
    destruct (Z.ltb_spec x 12); [rewrite decide_False by lia; done|].
    destruct (Z.eqb_spec x 140); [rewrite decide_False by lia; done|].
    destruct (Z.eqb_spec a 0); [done|]. case_decide as E.
    + subst x. rewrite get32_put32; [done|]. rewrite Hlen. lia.
    + apply get32_put32_ne. lia.
  - intros x Hx. rewrite Hus. by apply used_allocated.
  - rewrite Hmb by done. apply set_block_eq.
  - intros x X1 X2 X3. change (slot addrs m' IND) with a in X3.
    rewrite Hmb; [by apply allocated_same|]. intros ->. by apply Ha, X3.
  - destruct (fs_ok_allocated g m n Hg Hm Hn) as [K1 K2 K3 K4]. split.
    + intros x Hx. unfold m', set_block. case_decide; [|by apply K1]. split; [by rewrite length_put32|].
      by apply bytes_ok_put32.
    + rewrite Hmb; [done|]. unfold data_start in *. lia.
    + rewrite Hmb; [done|]. unfold data_start in *. lia.
    + intros x Hx. rewrite Hus. by apply K4.
Qed.
End grow.

(** ** [bmap] *)

(** What a call of [bmap] for slot [bn] may do to a file. *)
Record extends (g : geom) (bn : Z) (addrs : list Z) (m : Z -> list Z) (addrs' : list Z) (m' : Z -> list Z) :
    Prop := {
  ex_file : file_ok g m' addrs';
  ex_fs : fs_ok g m';
  ex_old : forall x, 0 <= x <= IND -> slot addrs m x <> 0 -> slot addrs' m' x = slot addrs m x;
  ex_only : forall x, 0 <= x < IND -> x <> bn -> slot addrs' m' x = slot addrs m x;
  ex_same : forall x, 0 <= x -> used g m x = true -> x <> bitmap_block g ->
    (x = slot addrs' m' IND -> x = 0) -> m' x = m x;
  ex_used : forall x, 0 <= x -> used g m x = true -> used g m' x = true;
  ex_zero : slot addrs m bn = 0 -> slot addrs' m' bn <> 0 -> m' (slot addrs' m' bn) = block0;
  ex_fresh : forall x, 0 <= x <= IND -> slot addrs m x = 0 -> slot addrs' m' x <> 0 ->
    used g m (slot addrs' m' x) = false;
}.

Lemma extends_refl g bn addrs m : file_ok g m addrs -> fs_ok g m -> extends g bn addrs m addrs m.
Proof. intros H1 H2. by split. Qed.

Lemma grown_extends g j n bn addrs m addrs' m' :
  geom_ok g -> file_ok g m addrs -> 0 <= bn < IND -> j = bn \/ j = IND ->
  grown g j n addrs m addrs' m' -> extends g bn addrs m addrs' m'.
Proof.
  intros Hg Hf Hbn Hj G. assert (Hj' : 0 <= j <= IND) by (unfold IND in *; lia).
  destruct (grown_ok _ _ _ _ _ _ _ Hg Hf Hj' G) as [Hf' _].
  split; [done|apply G|..].
  - intros x Hx Hne. rewrite (gr_slot _ _ _ _ _ _ _ G x Hx). case_decide; [|done]. subst.
    by destruct Hne; apply G.
  - intros x Hx Hne. rewrite (gr_slot _ _ _ _ _ _ _ G) by lia. case_decide; [lia|done].
  - intros x _ Hx H1 H2. apply (gr_same _ _ _ _ _ _ _ G); try done. intros ->.
    pose proof (gr_free _ _ _ _ _ _ _ G). congruence.
  - intros x Hx Hu. rewrite (gr_used _ _ _ _ _ _ _ G), Hu by done. apply orb_true_r.
  - intros H0 Hne. rewrite (gr_slot _ _ _ _ _ _ _ G) in * by lia. case_decide; [apply G|done].
  - intros x Hx H0. rewrite (gr_slot _ _ _ _ _ _ _ G) by lia. case_decide; [intros _; apply G|done].
Qed.

Lemma extends_trans g bn a1 m1 a2 m2 a3 m3 :
  geom_ok g -> 0 <= bn < IND -> extends g bn a1 m1 a2 m2 -> extends g bn a2 m2 a3 m3 ->
  extends g bn a1 m1 a3 m3.
Proof.
  intros Hg Hbn X Y. pose proof (bitmap_range g Hg).
  assert (Hind : 0 <= IND <= IND) by (unfold IND; lia).
  split; [apply Y|apply Y|..].
  - intros x Hx Hne. rewrite (ex_old _ _ _ _ _ _ Y), (ex_old _ _ _ _ _ _ X); try done.
    by rewrite (ex_old _ _ _ _ _ _ X).
  - intros x Hx Hne. by rewrite (ex_only _ _ _ _ _ _ Y), (ex_only _ _ _ _ _ _ X).
  - intros x Hx Hu Hb Hi. rewrite (ex_same _ _ _ _ _ _ Y); [|done|by apply (ex_used _ _ _ _ _ _ X)|done|done].
    apply (ex_same _ _ _ _ _ _ X); try done. intros E.
    destruct (decide (slot a2 m2 IND = 0)) as [|Hne]; [congruence|].
    apply Hi. by rewrite (ex_old _ _ _ _ _ _ Y).
  - intros x Hx Hu. by apply (ex_used _ _ _ _ _ _ Y), (ex_used _ _ _ _ _ _ X).
  - intros H0 Hne. destruct (decide (slot a2 m2 bn = 0)) as [H2|H2].
    + by apply (ex_zero _ _ _ _ _ _ Y).
    + rewrite (ex_old _ _ _ _ _ _ Y) by (done || lia).
      destruct (fo_block _ _ _ (ex_file _ _ _ _ _ _ X) bn ltac:(lia) H2) as [Hd Hu].
      rewrite (ex_same _ _ _ _ _ _ Y); [by apply (ex_zero _ _ _ _ _ _ X)|unfold data_start in *; lia|done|unfold data_start in *; lia|].
      intros E. exfalso. pose proof (ex_old _ _ _ _ _ _ Y bn ltac:(lia) H2) as E'. rewrite <- E' in E, H2.
      pose proof (fo_inj _ _ _ (ex_file _ _ _ _ _ _ Y) bn IND ltac:(lia) Hind H2 E). lia.
  - intros x Hx H0 Hne. destruct (decide (slot a2 m2 x = 0)) as [H2|H2].
    + pose proof (ex_fresh _ _ _ _ _ _ Y x Hx H2 Hne) as Hu.
      destruct (used g m1 (slot a3 m3 x)) eqn:E1; [|done]. rewrite (ex_used _ _ _ _ _ _ X) in Hu; [done| |done].
      destruct (fo_block _ _ _ (ex_file _ _ _ _ _ _ Y) x Hx Hne). unfold data_start in *. lia.
    + rewrite (ex_old _ _ _ _ _ _ Y) by done. by apply (ex_fresh _ _ _ _ _ _ X).
Qed.

(** ** Inodes in the cache *)

Definition put_inode (ip : nat) (nd : inode) (s : kernel) : kernel :=
  s <| k_icache ::= <[ip := nd]> |>.

Lemma set_inode_put ip f s : set_inode ip f s = Ok tt (put_inode ip (f (inode_at s ip)) s).
Proof.
  unfold set_inode, modify, put_inode, inode_at, update. do 3 f_equal. apply list_eq. intros j.
  destruct (decide (ip = j)) as [->|]; [|by rewrite list_lookup_alter_ne, list_lookup_insert_ne].
  rewrite list_lookup_alter_eq. destruct (k_icache s !! j) as [nd|] eqn:E.
  - apply lookup_lt_Some in E as Hl. by rewrite list_lookup_insert_eq.
  - apply lookup_ge_None in E as Hl. by rewrite list_insert_ge, E.
Qed.

Lemma put_inode_put ip a b s : put_inode ip b (put_inode ip a s) = put_inode ip b s.
Proof. unfold put_inode, update. simpl. by rewrite list_insert_insert_eq. Qed.

Lemma put_inode_id ip s : put_inode ip (inode_at s ip) s = s.
Proof.
  unfold put_inode, update, inode_at. destruct (k_icache s !! ip) as [nd|] eqn:E; simpl.
  - rewrite list_insert_id by done. by destruct s.
  - apply lookup_ge_None in E. rewrite list_insert_ge by done. by destruct s.
Qed.

Lemma inode_at_put ip nd s : (ip < length (k_icache s))%nat -> inode_at (put_inode ip nd s) ip = nd.
Proof. intros H. unfold inode_at, put_inode. simpl. by rewrite list_lookup_insert_eq. Qed.

Lemma fs_rel_put ip nd s s' : fs_rel s s' -> fs_rel (put_inode ip nd s) (put_inode ip nd s').
Proof.
  intros [H G]. split; [|exact G]. exact (f_equal (fun t => t <| k_icache ::= <[ip := nd]> |>) H).
Qed.

Lemma fs_rel_put_trans ip a b s s1 s2 :
  fs_rel (put_inode ip a s) s1 -> fs_rel (put_inode ip b s1) s2 -> fs_rel (put_inode ip b s) s2.
Proof.
  intros H1 H2. eapply fs_rel_trans; [|exact H2].
  rewrite <- (put_inode_put ip a b s). by apply fs_rel_put.
Qed.

Lemma fs_rel_inode ip nd s s' :
  fs_rel (put_inode ip nd s) s' -> (ip < length (k_icache s))%nat ->
  inode_at s' ip = nd /\ length (k_icache s') = length (k_icache s).
Proof.
  intros H Hi. pose proof (fs_rel_icache _ _ H) as E. split.
  - unfold inode_at. rewrite E. by apply inode_at_put.
  - rewrite E. apply length_insert.
Qed.

Lemma fs_rel_inode_at s s' ip : fs_rel s s' -> inode_at s' ip = inode_at s ip.
Proof. intros H. unfold inode_at. by rewrite (fs_rel_icache _ _ H). Qed.

Lemma txn_inode start i s held hs m k ip nd :
  txn start i s held hs m k -> txn start i (put_inode ip nd s) held hs m k.
Proof.
  intros [[H1 [G1 G2 G3 G4] H2 H3] L1 L2 L3]. split; [|done..].
  split; [by eapply ready_ext| |done..]. split; try done.
  destruct G1 as [l G1]. exists l. by apply (cache_inv_bcache s).
Qed.

(** The block of addresses may have to be allocated. *)
Definition ind_need (addrs : list Z) : nat := if decide (ad addrs 12 = 0) then 1%nat else 0%nat.

(** The blocks that [bmap] may record in the log. *)
Definition bmap_logs (g : geom) (a ind : Z) (hs hs' : list Z) : Prop :=
  forall x, x ∈ hs' -> x ∈ hs \/ x = bitmap_block g \/ x = a \/ (x = ind /\ ind <> 0).

Section bmap.
Context {E : Env} {i : nat} {R : kernel -> kernel -> Prop} {HD : Driver E i R}.
Context (g : geom) (Hg : geom_ok g) (C : kernel -> Prop).

Abbreviation start := (g_start g).

(** A slot of the inode itself: a direct block, or the block of addresses. *)
Lemma direct_block_txn ip nd j s hs m k (Q : Z -> kernel -> Prop) :
  txn start i s ∅ hs m k -> fs_ok g m -> inode_at s ip = nd -> (ip < length (k_icache s))%nat ->
  i_dev nd = ROOTDEV -> room ∅ hs 2 ->
  (ad (i_addrs nd) j = 0 -> (0 < nfree g m)%nat) ->
  (forall s1, k_disk s1 = k -> C s1) ->
  (ad (i_addrs nd) j <> 0 -> Q (ad (i_addrs nd) j) s) ->
  (forall n s', ad (i_addrs nd) j = 0 -> used g m n = false -> data_start g <= n < start ->
     txn start i s' ∅ (log_add n (log_add (bitmap_block g) hs)) (allocated g m n) k ->
     fs_rel (put_inode ip (nd <| i_addrs := <[j := n]> (i_addrs nd) |>) s) s' -> Q n s') ->
  wpr R C (direct_block ip j) s Q.
Proof.
  intros Htx Hm Hnd Hip Hdev Hroom Hfree HC H1 H2.
  unfold direct_block. apply wpr_bind, wpr_gets. rewrite Hnd. change (default 0 _) with (ad (i_addrs nd) j).
  destruct (Z.eqb_spec (ad (i_addrs nd) j) 0) as [E0|E0]; [|apply wpr_ret; auto].
  apply wpr_bind, wpr_gets. rewrite Hnd, Hdev. apply wpr_bind.
  destruct (nfree_pos g m (Hfree E0)) as (x & Hx & Hxf). pose proof (bitmap_range g Hg).
  eapply (balloc_txn g Hg C s ∅ hs m k x); [done|done|apply data_held_empty|done| |done|done|].
  { unfold data_start in *. lia. }
  intros n s1 Hn Hnf T1 R1. eapply wpr_step; [apply set_inode_put|]. apply wpr_ret.
  assert (E1 : inode_at s1 ip = nd) by (unfold inode_at; rewrite (fs_rel_icache _ _ R1); exact Hnd).
  rewrite E1. apply H2; [done|done|done|by apply txn_inode|by apply fs_rel_put].
Qed.
(** A block that is there. *)
Lemma bmap_present ip nd bn s hs m k (Q : Z -> kernel -> Prop) :
  txn start i s ∅ hs m k -> inode_at s ip = nd -> i_dev nd = ROOTDEV ->
  file_ok g m (i_addrs nd) -> 0 <= bn < MAXFILE -> slot (i_addrs nd) m bn <> 0 -> room ∅ hs 0 ->
  (forall s1, k_disk s1 = k -> C s1) ->
  (forall s', txn start i s' ∅ hs m k -> fs_rel s s' -> Q (slot (i_addrs nd) m bn) s') ->
  wpr R C (bmap ip bn) s Q.
Proof.
  intros Htx Hnd Hdev Hf Hbn Hs Hroom HC HQ. change MAXFILE with 140 in Hbn.
  assert (Hdirect : forall j s0, inode_at s0 ip = nd -> ad (i_addrs nd) j <> 0 ->
    direct_block ip j s0 = Ok (ad (i_addrs nd) j) s0).
  { intros j s0 H0 Hj. unfold direct_block, addr_of. krun. rewrite H0.
    change (default 0 _) with (ad (i_addrs nd) j). by destruct (Z.eqb_spec (ad (i_addrs nd) j) 0). }
  unfold bmap. unfold slot in Hs, HQ. destruct (Z.ltb_spec bn NDIRECT) as [Hd|Hd].
  { eapply wpr_ok; [by apply Hdirect|]. apply HQ; [done|apply fs_rel_refl]. }
  destruct (Z.eqb_spec bn IND); [unfold IND in *; lia|].
  destruct (Z.eqb_spec (ad (i_addrs nd) 12) 0) as [|Ha]; [done|].
  destruct (Z.ltb_spec (bn - NDIRECT) NINDIRECT) as [_|H]; [|change NINDIRECT with 128 in H; unfold NDIRECT in *; lia].
  eapply wpr_step; [by apply Hdirect|]. apply wpr_bind, wpr_gets. rewrite Hnd, Hdev.
  change (Z.to_nat NDIRECT) with 12%nat. set (a := ad (i_addrs nd) 12) in *.
  destruct (fo_block _ _ _ Hf IND ltac:(unfold IND; lia) Ha) as [Ha1 Ha2].
  change (slot (i_addrs nd) m IND) with a in *. apply wpr_bind.
  assert (Hh : forall (b : nat) (x : Z * list Z), (∅ : gmap nat (Z * list Z)) !! b = Some x -> x.1 <> a)
    by (intros b x Hx; by rewrite lookup_empty in Hx).
  eapply (bread_txn start C a s ∅ hs m k); [done|lia|done|right; by eapply room_cache|done|].
  intros b s1 T1 Hb R1 Hdat. apply wpr_bind, wpr_gets. rewrite Hdat.
  destruct (Z.eqb_spec (get32 (m a) (4 * Z.to_nat (bn - NDIRECT))) 0) as [|_]; [done|].
  apply wpr_bind, wpr_ret.
  destruct (brelse_txn _ _ _ _ _ _ _ b a (m a) T1 (lookup_insert_eq _ _ _)) as (s2 & E2 & T2 & R2).
  { by apply (txn_clean _ _ _ _ _ _ _ _ Htx). }
  eapply wpr_step; [exact E2|]. apply wpr_ret. rewrite delete_insert_id in T2 by done.
  apply HQ; [done|by eapply fs_rel_trans].
Qed.

(** The part of [bmap] after the block of addresses is known, when the entry is
    empty. *)
Lemma bmap_entry ip nd bn s hs m k (Q : Z -> kernel -> Prop) :
  txn start i s ∅ hs m k -> fs_ok g m -> inode_at s ip = nd -> i_dev nd = ROOTDEV ->
  file_ok g m (i_addrs nd) -> NDIRECT <= bn < IND -> ad (i_addrs nd) 12 <> 0 ->
  slot (i_addrs nd) m bn = 0 -> room ∅ hs 4 -> (0 < nfree g m)%nat ->
  (forall s1, k_disk s1 = k -> C s1) ->
  (forall n s' hs' m', grown g bn n (i_addrs nd) m (i_addrs nd) m' ->
     bmap_logs g n (ad (i_addrs nd) 12) hs hs' -> txn start i s' ∅ hs' m' k -> fs_rel s s' -> Q n s') ->
  wpr R C (dev ← gets (fun s => i_dev (inode_at s ip));
    bp ← bread dev (ad (i_addrs nd) 12);
    a ← data_of bp;
    let addr := get32 a (4 * Z.to_nat (bn - NDIRECT)) in
    addr ←
      (if addr =? 0 then
         dev ← gets (fun s => i_dev (inode_at s ip));
         addr ← balloc dev;
         set_buf bp (fun x => x <| b_data ::= fun d => put32 d (4 * Z.to_nat (bn - NDIRECT)) addr |>);;
         log_write bp;;
         mret addr
       else mret addr);
    brelse bp;;
    mret addr) s Q.
Proof.
  intros Htx Hm Hnd Hdev Hf Hbn Ha Hs Hroom Hfree HC HQ. set (a := ad (i_addrs nd) 12) in *.
  destruct (fo_block _ _ _ Hf IND ltac:(unfold IND; lia) Ha) as [Ha1 Ha2].
  change (slot (i_addrs nd) m IND) with a in *. pose proof (bitmap_range g Hg).
  assert (Ha0 : 0 <= a < start) by (unfold data_start in *; lia).
  apply wpr_bind, wpr_gets. rewrite Hnd, Hdev. apply wpr_bind.
  assert (Hh : forall (b : nat) (x : Z * list Z), (∅ : gmap nat (Z * list Z)) !! b = Some x -> x.1 <> a)
    by (intros b x Hx; by rewrite lookup_empty in Hx).
  eapply (bread_txn start C a s ∅ hs m k); [done|lia|done|right; by eapply room_cache|done|].
  intros b s1 T1 Hb R1 Hdat. apply wpr_bind, wpr_gets. rewrite Hdat.
  assert (H0 : get32 (m a) (4 * Z.to_nat (bn - NDIRECT)) = 0).
  { unfold slot in Hs. fold a in Hs. destruct (Z.ltb_spec bn NDIRECT); [lia|].
    destruct (Z.eqb_spec bn IND); [lia|]. by destruct (Z.eqb_spec a 0). }
  cbv zeta. rewrite H0. cbn [Z.eqb]. apply wpr_bind.
  apply wpr_bind, wpr_gets. rewrite (fs_rel_inode_at _ _ ip R1), Hnd, Hdev. apply wpr_bind.
  destruct (nfree_pos g m Hfree) as (x & Hx & Hxf).
  assert (Hroom1 : room (<[b := (a, m a)]> ∅) hs 3).
  { unfold room in *. rewrite map_size_insert_None by done. rewrite map_size_empty in *. lia. }
  eapply (balloc_txn g Hg C s1 _ hs m k x); [done|done| |unfold room in *; lia| |done|done|].
  { intros b' y Hy. apply lookup_insert_Some in Hy as [[_ <-]|[_ Hy]]; [|by rewrite lookup_empty in Hy].
    simpl. split; [lia|done]. }
  { unfold data_start in *. lia. }
  intros n s2 Hn Hnf T2 R2.
  set (f := fun x : buf => x <| b_data ::= fun d => put32 d (4 * Z.to_nat (bn - NDIRECT)) n |>).
  eapply (wpr_step _ _ _ _ _ tt (with_buf b f s2)); [reflexivity|].
  assert (Hh2 : <[b := (a, m a)]> (∅ : gmap nat (Z * list Z)) !! b = Some (a, m a)) by apply lookup_insert_eq.
  assert (Hd2 : b_data (buf_at s2 b) = m a).
  { by apply (held_facts _ _ _ _ _ _ b a (m a) (tx_view _ _ _ _ _ _ _ T2)). }
  pose proof (set_buf_txn _ _ _ _ _ _ _ b a (m a) f (put32 (m a) (4 * Z.to_nat (bn - NDIRECT)) n) T2 Hh2
    ltac:(done) ltac:(simpl; by rewrite Hd2)) as T3.
  rewrite insert_insert_eq in T3.
  destruct (log_write_txn _ _ _ _ _ _ _ b a _ T3 (lookup_insert_eq _ _ _)) as (s4 & E4 & T4 & R4);
    [done|eapply room_log, room_add, room_add; exact Hroom1|].
  eapply wpr_step; [exact E4|]. apply wpr_ret.
  destruct (brelse_txn _ _ _ _ _ _ _ b a _ T4 (lookup_insert_eq _ _ _)) as (s5 & E5 & T5 & R5).
  { left. apply elem_of_log_add. by left. }
  eapply wpr_step; [exact E5|]. apply wpr_ret. rewrite delete_insert_id in T5 by done.
  eapply (HQ n s5); [by apply (grow_entry g Hg (i_addrs nd) m n Hf Hm Hnf Hn bn Hbn Ha Hs)| |exact T5|].
  - intros y. rewrite !elem_of_log_add. fold a. tauto.
  - eapply fs_rel_trans; [exact R1|]. eapply fs_rel_trans; [exact R2|].
    eapply fs_rel_trans; [|exact R5]. eapply fs_rel_trans; [|exact R4]. done.
Qed.

(** [bmap]: the block of the slot, allocated if it is not there. *)
Lemma bmap_txn ip nd bn s hs m k (Q : Z -> kernel -> Prop) :
  txn start i s ∅ hs m k -> fs_ok g m -> inode_at s ip = nd -> (ip < length (k_icache s))%nat ->
  i_dev nd = ROOTDEV -> file_ok g m (i_addrs nd) -> 0 <= bn < MAXFILE -> room ∅ hs 6 ->
  (ind_need (i_addrs nd) + 1 <= nfree g m)%nat ->
  (forall s1, k_disk s1 = k -> C s1) ->
  (forall a s' addrs' hs' m', txn start i s' ∅ hs' m' k ->
     fs_rel (put_inode ip (nd <| i_addrs := addrs' |>) s) s' ->
     extends g bn (i_addrs nd) m addrs' m' -> a = slot addrs' m' bn -> a <> 0 ->
     bmap_logs g a (ad addrs' 12) hs hs' ->
     (nfree g m + ind_need addrs' <= nfree g m' + ind_need (i_addrs nd) + 1)%nat ->
     (slot (i_addrs nd) m bn <> 0 -> addrs' = i_addrs nd) -> Q a s') ->
  wpr R C (bmap ip bn) s Q.
Proof.
  intros Htx Hm Hnd Hip Hdev Hf Hbn Hroom Hfree HC HQ. pose proof (bitmap_range g Hg) as Hbm.
  set (addrs := i_addrs nd) in *. assert (Hbn' : 0 <= bn < IND) by exact Hbn.
  assert (Hbi : 0 <= bn <= IND) by lia.
  assert (Hsame : put_inode ip (nd <| i_addrs := addrs |>) s = s).
  { transitivity (put_inode ip (inode_at s ip) s); [|apply put_inode_id]. rewrite Hnd. by destruct nd. }
  destruct (decide (slot addrs m bn = 0)) as [Hs|Hs].
  2: { eapply (bmap_present ip nd bn s hs m k); try done; [unfold room in *; lia|]. intros s' T1 R1.
       apply (HQ _ s' addrs hs m T1);
         [by rewrite Hsame|by apply extends_refl|done|done|intros x; tauto|lia|done]. }
  unfold bmap. destruct (Z.ltb_spec bn NDIRECT) as [Hd|Hd].
  - assert (Hj : slot addrs m bn = ad addrs (Z.to_nat bn)).
    { unfold slot. destruct (Z.ltb_spec bn NDIRECT); [done|lia]. }
    assert (Hj12 : (Z.to_nat bn < 12)%nat) by (unfold NDIRECT in *; lia).
    eapply (direct_block_txn ip nd (Z.to_nat bn) s hs m k); try done; [unfold room in *; lia|lia| |].
    { intros H. fold addrs in H. congruence. }
    intros n s' Ha Hnf Hn T1 R1.
    pose proof (grow_direct g Hg addrs m n Hf Hm Hnf Hn _ Hj12 Ha) as G. rewrite Z2Nat.id in G by lia.
    destruct (grown_ok _ _ _ _ _ _ _ Hg Hf Hbi G) as [_ Hn1].
    apply (HQ n s' (<[Z.to_nat bn := n]> addrs) _ _ T1 R1).
    + exact (grown_extends g bn n bn _ _ _ _ Hg Hf Hbn' (or_introl eq_refl) G).
    + rewrite (gr_slot _ _ _ _ _ _ _ G), decide_True by (done || lia). done.
    + unfold data_start in *. lia.
    + intros x. rewrite !elem_of_log_add. tauto.
    + unfold ind_need. rewrite ad_insert by (by rewrite (fo_len _ _ _ Hf); lia).
      rewrite (decide_False (P := 12%nat = Z.to_nat bn)) by lia. lia.
    + done.
  - destruct (Z.ltb_spec (bn - NDIRECT) NINDIRECT) as [_|H];
      [|change NINDIRECT with 128 in H; unfold IND, NDIRECT in *; lia].
    change (Z.to_nat NDIRECT) with 12%nat. apply wpr_bind.
    eapply (direct_block_txn ip nd 12 s hs m k); try done; [unfold room in *; lia|lia| |].
    + intros Ha. fold addrs. eapply (bmap_entry ip nd bn s hs m k); try done; [lia|unfold room in *; lia|lia|].
      intros n s' hs' m' G Hlog T1 R1. destruct (grown_ok _ _ _ _ _ _ _ Hg Hf Hbi G) as [_ Hn1].
      pose proof (gr_data _ _ _ _ _ _ _ G). fold addrs in G, Hlog.
      fold addrs in Hn1.
      apply (HQ n s' addrs hs' m' T1); [by rewrite Hsame| | |unfold data_start in *; lia|done|lia|done].
      * exact (grown_extends g bn n bn _ _ _ _ Hg Hf Hbn' (or_introl eq_refl) G).
      * rewrite (gr_slot _ _ _ _ _ _ _ G), decide_True by (done || lia). done.
    + intros n1 s1 Ha Hnf Hn T1 R1. fold addrs in Ha.
      pose proof (grow_ind g Hg addrs m n1 Hf Hm Hnf Hn Ha) as G1.
      destruct (grown_ok _ _ _ _ _ _ _ Hg Hf (conj (Z.lt_le_incl 0 IND eq_refl) (Z.le_refl IND)) G1) as [Hf1 Hn1].
      pose proof (grown_extends _ _ _ bn _ _ _ _ Hg Hf Hbn' (or_intror eq_refl) G1) as X1.
      set (addrs1 := <[12%nat := n1]> addrs) in *. set (m1 := allocated g m n1) in *.
      set (nd1 := nd <| i_addrs := addrs1 |>) in *.
      destruct (fs_rel_inode ip nd1 s s1 R1 Hip) as [E1 L1].
      assert (Ha1 : ad addrs1 12 = n1).
      { unfold addrs1. rewrite ad_insert by (rewrite (fo_len _ _ _ Hf); lia). by rewrite decide_True. }
      assert (Hneed : ind_need addrs = 1%nat /\ ind_need addrs1 = 0%nat).
      { unfold ind_need. rewrite Ha1. rewrite decide_True by done. rewrite decide_False; [done|].
        unfold data_start in *. lia. }
      rewrite <- Ha1. eapply (bmap_entry ip nd1 bn s1 _ m1 k Q T1); try done.
      * apply X1.
      * lia.
      * change (ad addrs1 12 <> 0). unfold data_start in *. lia.
      * change (slot addrs1 m1 bn = 0). rewrite (gr_slot _ _ _ _ _ _ _ G1 bn Hbi). rewrite decide_False by lia. done.
      * by apply room_add, room_add.
      * lia.
      * intros n s' hs' m' G Hlog T2 R2. change (i_addrs nd1) with addrs1 in *.
        destruct (grown_ok _ _ _ _ _ _ _ Hg Hf1 Hbi G) as [_ Hn2]. pose proof (gr_data _ _ _ _ _ _ _ G).
        apply (HQ n s' addrs1 hs' m' T2); [| | |unfold data_start in *; lia| |lia|done].
        -- eapply fs_rel_trans; [exact R1|exact R2].
        -- eapply extends_trans; [done|done|exact X1|].
           exact (grown_extends g bn n bn _ _ _ _ Hg Hf1 Hbn' (or_introl eq_refl) G).
        -- rewrite (gr_slot _ _ _ _ _ _ _ G), decide_True by done. done.
        -- intros x Hx. destruct (Hlog x Hx) as [Hx'|Hx']; [|tauto].
           rewrite !elem_of_log_add in Hx'. rewrite Ha1. unfold data_start in *.
           destruct Hx' as [->|[->|Hx']]; [|tauto|tauto]. do 3 right. split; [done|lia].
Qed.
End bmap.
