(* ===== verification/DinodeSpec.v ===== *)
(** Inodes on disk: what [iupdate] writes is what [ilock] reads.

    An inode is 64 bytes of a block of inodes.  [dinode_of m inum] is the inode
    that the blocks [m] hold under number [inum]. *)
From S2P Require Import Prelude Memory Kernel CString Spinlock Console Sched Ide Bytes Bio.
From S2P Require Import Log Inode Crash Wait Driver BioSpec LogSpec Txn Balloc InodeSpec.

(** ** Bytes *)

Lemma get8_put16_ne l i j v : (j < i \/ i + 2 <= j)%nat -> get8 (put16 l i v) j = get8 l j.
Proof. intros H. unfold put16. by rewrite !get8_put8_ne by lia. Qed.

Lemma get8_put_words_ne ws l i j :
  (j < i \/ i + 4 * length ws <= j)%nat -> get8 (put_words l i ws) j = get8 l j.
Proof.
  revert l i; induction ws as [|w ws IH]; intros l i H; simpl in *; [done|].
  rewrite IH by lia. apply get8_put32_ne. lia.
Qed.

Lemma get16_put16 l i v : (i + 2 <= length l)%nat -> get16 (put16 l i v) i = u16 v.
Proof.
  intros H. unfold get16, put16. rewrite !get8_put8 by (rewrite ?length_put8; lia).
  repeat (case_decide; try lia). wrap_lia.
Qed.

Lemma get16_ext l l' i : get8 l i = get8 l' i -> get8 l (i + 1) = get8 l' (i + 1) -> get16 l i = get16 l' i.
Proof. unfold get16. by intros -> ->. Qed.

Lemma get32_ext l l' i : (forall j, (i <= j < i + 4)%nat -> get8 l j = get8 l' j) -> get32 l i = get32 l' i.
Proof. intros H. unfold get32. by rewrite !H by lia. Qed.

Lemma get_words_ext l l' i n :
  (forall j, (i <= j < i + 4 * n)%nat -> get8 l j = get8 l' j) -> get_words l i n = get_words l' i n.
Proof.
  revert i; induction n as [|n IH]; intros i H; simpl; [done|]. f_equal.
  - apply get32_ext. intros j Hj. apply H. lia.
  - apply IH. intros j Hj. apply H. lia.
Qed.

(** ** Inodes in a block *)

(** The part of an inode that is on disk. *)
Definition dfields (nd : inode) : Z * Z * Z * Z * Z * list Z :=
  (i_type nd, i_major nd, i_minor nd, i_nlink nd, i_size nd, i_addrs nd).

Definition dinode_of (m : Z -> list Z) (inum : Z) : inode := dinode_read (m (IBLOCK inum)) inum inode0.

Definition is_i16 (x : Z) : Prop := - 2 ^ 15 <= x < 2 ^ 15.

(** The fields have values of their types. *)
Record inode_fits (nd : inode) : Prop := {
  if_type : is_i16 (i_type nd);
  if_major : is_i16 (i_major nd);
  if_minor : is_i16 (i_minor nd);
  if_nlink : is_i16 (i_nlink nd);
  if_size : is_u32 (i_size nd);
  if_len : length (i_addrs nd) = 13%nat;
  if_addrs : Forall is_u32 (i_addrs nd);
}.

Lemma dinode_off_range inum : (dinode_off inum + 64 <= 512)%nat.
Proof.
  unfold dinode_off. change IPB with 8. pose proof (Z.mod_pos_bound inum 8 ltac:(lia)). lia.
Qed.

Lemma i16_u16 x : is_i16 x -> i16 (u16 x) = x.
Proof. unfold is_i16. intros H. wrap_lia. Qed.

Lemma dinode_write_out nd d j :
  length (i_addrs nd) = 13%nat ->
  (j < dinode_off (i_inum nd) \/ dinode_off (i_inum nd) + 64 <= j)%nat ->
  get8 (dinode_write nd d) j = get8 d j.
Proof.
  intros Hl Hj. unfold dinode_write.
  rewrite get8_put_words_ne by (rewrite Hl; lia). rewrite get8_put32_ne by lia.
  by rewrite !get8_put16_ne by lia.
Qed.

Lemma length_dinode_write nd d : length (dinode_write nd d) = length d.
Proof. unfold dinode_write. by rewrite length_put_words, length_put32, !length_put16. Qed.

Lemma bytes_ok_dinode_write nd d : bytes_ok d -> bytes_ok (dinode_write nd d).
Proof. intros H. unfold dinode_write. by apply bytes_ok_put_words, bytes_ok_put32; do 4 apply bytes_ok_put16. Qed.

(** What has been written is read back. *)
Lemma dinode_read_write nd d x :
  inode_fits nd -> length d = 512%nat ->
  dfields (dinode_read (dinode_write nd d) (i_inum nd) x) = dfields nd.
Proof.
  intros [F1 F2 F3 F4 F5 F6 F7] Hd. pose proof (dinode_off_range (i_inum nd)) as Ho.
  unfold dfields, dinode_read. cbn [update i_type i_major i_minor i_nlink i_size i_addrs].
  unfold dinode_write. set (o := dinode_off (i_inum nd)) in *.
  assert (H16 : forall l i j v, (j + 2 <= i \/ i + 2 <= j)%nat -> get16 (put16 l i v) j = get16 l j).
  { intros l i j v H. apply get16_ext; apply get8_put16_ne; lia. }
  assert (H32 : forall l i j v, (j + 2 <= i)%nat -> get16 (put32 l i v) j = get16 l j).
  { intros l i j v H. apply get16_ext; apply get8_put32_ne; lia. }
  assert (Hw : forall ws l i j, (j + 2 <= i)%nat -> get16 (put_words l i ws) j = get16 l j).
  { intros ws l i j H. apply get16_ext; apply get8_put_words_ne; lia. }
  assert (Hg : forall l i v, length l = 512%nat -> (i + 2 <= 512)%nat -> is_i16 v -> i16 (get16 (put16 l i v) i) = v).
  { intros l i v Hl Hi Hv. rewrite get16_put16 by lia. by apply i16_u16. }
  repeat f_equal.
  - rewrite Hw, H32, !H16, Hg by (rewrite ?length_put16; done || lia). done.
  - rewrite Hw, H32, !H16, Hg by (rewrite ?length_put16; done || lia). done.
  - rewrite Hw, H32, !H16, Hg by (rewrite ?length_put16; done || lia). done.
  - rewrite Hw, H32, Hg by (rewrite ?length_put16; done || lia). done.
  - rewrite get32_put_words_ne by lia. rewrite get32_put32 by (rewrite !length_put16; lia). by apply u32_id.
  - rewrite <- F6 at 1. apply get_words_put_words; [|done]. rewrite length_put32, !length_put16, F6. lia.
Qed.

Lemma dinode_read_ext d d' inum x :
  (forall j, (dinode_off inum <= j < dinode_off inum + 64)%nat -> get8 d j = get8 d' j) ->
  dinode_read d inum x = dinode_read d' inum x.
Proof.
  intros H. unfold dinode_read.
  rewrite !(get16_ext d d') by (apply H; lia). rewrite (get32_ext d d') by (intros j Hj; apply H; lia).
  by rewrite (get_words_ext d d') by (intros j Hj; apply H; lia).
Qed.

(** The other inodes of the block are as before. *)
Lemma dinode_read_other nd d inum x :
  length (i_addrs nd) = 13%nat -> inum <> i_inum nd -> IBLOCK inum = IBLOCK (i_inum nd) ->
  dinode_read (dinode_write nd d) inum x = dinode_read d inum x.
Proof.
  intros Hl Hne Hb. apply dinode_read_ext. intros j Hj. apply dinode_write_out; [done|].
  unfold IBLOCK, dinode_off in *. change IPB with 8 in *.
  pose proof (Z.div_mod inum 8 ltac:(lia)). pose proof (Z.mod_pos_bound inum 8 ltac:(lia)).
  pose proof (Z.div_mod (i_inum nd) 8 ltac:(lia)). pose proof (Z.mod_pos_bound (i_inum nd) 8 ltac:(lia)). lia.
Qed.

(** ** [iupdate] *)

(** The blocks after the inode has been written. *)
Definition inode_put (m : Z -> list Z) (nd : inode) : Z -> list Z :=
  let b := IBLOCK (i_inum nd) in set_block m b (dinode_write nd (m b)).

Lemma iblock_range g inum :
  0 <= inum < g_ninodes g -> 2 <= IBLOCK inum < bitmap_block g.
Proof.
  intros H. unfold IBLOCK, bitmap_block, BBLOCK. change IPB with 8. change (0 / BPB) with 0.
  pose proof (Z.div_pos inum 8 ltac:(lia) ltac:(lia)).
  pose proof (Z.div_le_mono inum (g_ninodes g) 8 ltac:(lia) ltac:(lia)). lia.
Qed.

Section put.
Context (g : geom) (Hg : geom_ok g) (m : Z -> list Z) (nd : inode).
Context (Hinum : 0 <= i_inum nd < g_ninodes g) (Hfits : inode_fits nd) (Hm : fs_ok g m).

Lemma inode_put_other n : n <> IBLOCK (i_inum nd) -> inode_put m nd n = m n.
Proof. intros H. by apply set_block_ne. Qed.

Lemma inode_put_used n : used g (inode_put m nd) n = used g m n.
Proof.
  unfold used. rewrite inode_put_other; [done|]. pose proof (iblock_range g _ Hinum). lia.
Qed.

Lemma inode_put_fs : fs_ok g (inode_put m nd).
Proof.
  pose proof (iblock_range g _ Hinum) as Hb. destruct Hm as [K1 K2 K3 K4]. split.
  - intros n Hn. unfold inode_put, set_block. case_decide; [|by apply K1]. subst n.
    split; [by rewrite length_dinode_write; apply K1|by apply bytes_ok_dinode_write, K1].
  - rewrite inode_put_other by lia. done.
  - rewrite inode_put_other by lia. done.
  - intros n Hn. rewrite inode_put_used. by apply K4.
Qed.

Lemma dinode_of_put inum :
  dfields (dinode_of (inode_put m nd) inum) =
  if decide (inum = i_inum nd) then dfields nd else dfields (dinode_of m inum).
Proof.
  unfold dinode_of. case_decide as E.
  - subst inum. unfold inode_put. rewrite set_block_eq. apply dinode_read_write; [done|]. apply Hm.
    pose proof (iblock_range g _ Hinum). pose proof (bitmap_range g Hg). lia.
  - destruct (decide (IBLOCK inum = IBLOCK (i_inum nd))) as [Eb|Eb].
    + unfold inode_put. rewrite Eb, set_block_eq. by rewrite dinode_read_other by (done || apply Hfits).
    + by rewrite inode_put_other.
Qed.
End put.

Section iupdate.
Context {E : Env} {i : nat} {R : kernel -> kernel -> Prop} {HD : Driver E i R}.
Context (g : geom) (Hg : geom_ok g) (C : kernel -> Prop).

Abbreviation start := (g_start g).

Lemma iupdate_txn ip nd s hs m k (Q : unit -> kernel -> Prop) :
  txn start i s ∅ hs m k -> inode_at s ip = nd -> i_dev nd = ROOTDEV -> 0 <= i_inum nd < g_ninodes g ->
  room ∅ hs 1 -> (forall s1, k_disk s1 = k -> C s1) ->
  (forall s', txn start i s' ∅ (log_add (IBLOCK (i_inum nd)) hs) (inode_put m nd) k -> fs_rel s s' -> Q tt s') ->
  wpr R C (iupdate ip) s Q.
Proof.
  intros Htx Hnd Hdev Hinum Hroom HC HQ. pose proof (iblock_range g _ Hinum). pose proof (bitmap_range g Hg).
  unfold iupdate. apply wpr_bind, wpr_gets. rewrite Hnd, Hdev. apply wpr_bind. set (b := IBLOCK (i_inum nd)) in *.
  assert (Hh : forall (x : nat) (y : Z * list Z), (∅ : gmap nat (Z * list Z)) !! x = Some y -> y.1 <> b)
    by (intros x y Hx; by rewrite lookup_empty in Hx).
  eapply (bread_txn start C b s ∅ hs m k); [done|lia|done|right; by eapply room_cache|done|].
  intros bp s1 T1 Hb R1 Hd. apply wpr_bind, wpr_gets. apply wpr_bind, wpr_gets.
  rewrite Hd, (fs_rel_inode_at _ _ ip R1), Hnd.
  eapply (update_last start C bp b (m b) _ (dinode_write nd (m b)) s1);
    [done|apply lookup_insert_eq|lia|by eapply room_log|done|done|].
  intros s2 T2 R2. rewrite delete_insert_id in T2 by done. apply HQ; [done|by eapply fs_rel_trans].
Qed.
End iupdate.
