(* ===== verification/DataSpec.v ===== *)
(** The contents of a file: what [readi] and [writei] do.

    [fbyte addrs m p] is the byte at offset [p] of a file.  [readi] delivers the
    bytes asked for that the file has; [writei] replaces them, allocating blocks
    as the file grows, and touches nothing but the file's own blocks, its inode
    and the free map. *)
From S2P Require Import Prelude Memory Kernel CString Spinlock Console Sched Ide Bytes Bio.
From S2P Require Import Log Inode Vm Umem Tty Fs.
From S2P Require Import Crash Wait Driver BioSpec LogSpec Txn Balloc InodeSpec.

(** ** Copying out *)

(** Memory after [l] has been copied to [d]. *)
Definition put_mem (d : dst) (pgdir : Z) (l : list Z) (M : memory) : option memory :=
  match d with
  | ToLocal => Some M
  | ToUser a => umem_write M pgdir a l
  | ToKernel a => Some (store_bytes M a l)
  end.

Definition dst_ok (d : dst) : Prop := match d with ToUser a => is_u32 a | _ => True end.

Lemma put_bytes_eq d l s :
  put_bytes d l s =
  match put_mem d (cur_pgdir s) l (k_mem s) with
  | Some M => Ok tt (s <| k_mem := M |>)
  | None => Panic "trap"
  end.
Proof. destruct d as [|a|a]; simpl; [by destruct s|apply uwrite_eq|done]. Qed.

Lemma umem_write_app M pgdir a l1 l2 :
  is_u32 a ->
  umem_write M pgdir a (l1 ++ l2) =
  match umem_write M pgdir a l1 with
  | Some M' => umem_write M' pgdir (u32 (a + Z.of_nat (length l1))) l2
  | None => None
  end.
Proof.
  revert M a; induction l1 as [|c l1 IH]; intros M a Ha; simpl.
  { rewrite Z.add_0_r. by rewrite u32_id. }
  destruct (xlate M pgdir true a) as [x|]; [|done]. rewrite IH by apply u32_range.
  destruct (umem_write _ _ _ l1); [|done]. f_equal. wrap_unfold. rewrite Zplus_mod_idemp_l. f_equal. lia.
Qed.

Lemma store_bytes_app M a l1 l2 :
  store_bytes M a (l1 ++ l2) = store_bytes (store_bytes M a l1) (a + Z.of_nat (length l1)) l2.
Proof.
  revert M a; induction l1 as [|c l1 IH]; intros M a; simpl; [by rewrite Z.add_0_r|].
  rewrite IH. f_equal. lia.
Qed.

Lemma put_mem_app d pgdir l1 l2 M :
  dst_ok d ->
  put_mem d pgdir (l1 ++ l2) M =
  match put_mem d pgdir l1 M with
  | Some M' => put_mem (dst_add d (Z.of_nat (length l1))) pgdir l2 M'
  | None => None
  end.
Proof.
  intros Hd. destruct d as [|a|a]; simpl; [done|by apply umem_write_app|]. f_equal.
  apply store_bytes_app.
Qed.

Lemma dst_ok_add d n : dst_ok d -> dst_ok (dst_add d n).
Proof. destruct d; simpl; [done|intros _; apply u32_range|done]. Qed.

(** ** Bytes of a file *)

Definition fbyte (addrs : list Z) (m : Z -> list Z) (p : Z) : Z :=
  get8 (m (slot addrs m (p / BSIZE))) (Z.to_nat (p mod BSIZE)).

(** [n] bytes from offset [off]. *)
Definition fbytes (addrs : list Z) (m : Z -> list Z) (off n : Z) : list Z :=
  fbyte addrs m <$> seqZ off n.

Lemma length_fbytes addrs m off n : length (fbytes addrs m off n) = Z.to_nat n.
Proof. unfold fbytes. by rewrite length_fmap, length_seqZ. Qed.

Lemma fbytes_app addrs m off n1 n2 :
  0 <= n1 -> 0 <= n2 ->
  fbytes addrs m off (n1 + n2) = fbytes addrs m off n1 ++ fbytes addrs m (off + n1) n2.
Proof. intros H1 H2. unfold fbytes. by rewrite seqZ_app, fmap_app. Qed.

(** Part of a block is part of the file. *)
Lemma slice_fbytes addrs m off n :
  length (m (slot addrs m (off / BSIZE))) = 512%nat ->
  0 <= n <= BSIZE - off mod BSIZE ->
  slice (m (slot addrs m (off / BSIZE))) (Z.to_nat (off mod BSIZE)) (Z.to_nat n) = fbytes addrs m off n.
Proof.
  intros Hl Hn. unfold BSIZE in *. pose proof (Z.mod_pos_bound off 512 ltac:(lia)) as Ho.
  apply list_eq. intros j. unfold slice, fbytes. rewrite list_lookup_fmap.
  destruct (decide (j < Z.to_nat n)%nat) as [Hj|Hj].
  - rewrite lookup_take_lt, lookup_drop by lia. rewrite lookup_seqZ_lt by lia. simpl.
    unfold fbyte, BSIZE.
    replace ((off + Z.of_nat j) / 512) with (off / 512).
    2: { apply (Z.div_unique _ 512 _ (off mod 512 + Z.of_nat j)); [lia|].
         pose proof (Z.div_mod off 512 ltac:(lia)). lia. }
    replace ((off + Z.of_nat j) mod 512) with (off mod 512 + Z.of_nat j).
    2: { apply (Z.mod_unique _ 512 (off / 512)); [lia|]. pose proof (Z.div_mod off 512 ltac:(lia)). lia. }
    unfold get8. rewrite Z2Nat.inj_add, Nat2Z.id by lia.
    destruct (lookup_lt_is_Some_2 (m (slot addrs m (off / 512))) (Z.to_nat (off mod 512) + j)) as [x ->];
      [rewrite Hl; lia|done].
  - rewrite lookup_take_ge by lia. rewrite lookup_seqZ_ge by lia. done.
Qed.

(** A file on the file system's disk that is not a device. *)
Record file_data (g : geom) (m : Z -> list Z) (nd : inode) : Prop := {
  fd_dev : i_dev nd = ROOTDEV;
  fd_type : i_type nd <> T_DEV;
  fd_file : file_ok g m (i_addrs nd);
  fd_size : 0 <= i_size nd <= MAXFILE * BSIZE;
  fd_there : forall j, 0 <= j -> j * BSIZE < i_size nd -> slot (i_addrs nd) m j <> 0;
}.


(** ** Memory *)

Lemma fs_rel_fields s s' :
  fs_rel s s' -> k_mem s' = k_mem s /\ cur_pgdir s' = cur_pgdir s /\ k_icache s' = k_icache s.
Proof.
  intros [H G]. split_and!; [exact (f_equal k_mem H)| |exact (f_equal k_icache H)].
  unfold cur_pgdir. f_equal. exact G.
Qed.

Lemma fs_rel_mem M s s' : fs_rel s s' -> fs_rel (s <| k_mem := M |>) (s' <| k_mem := M |>).
Proof. intros [H G]. split; [|exact G]. exact (f_equal (fun t => t <| k_mem := M |>) H). Qed.

Lemma txn_mem start i s held hs m k M :
  txn start i s held hs m k -> txn start i (s <| k_mem := M |>) held hs m k.
Proof.
  intros [[H1 [G1 G2 G3 G4] H2 H3] L1 L2 L3]. split; [|done..].
  split; [by eapply ready_ext| |done..]. split; try done.
  destruct G1 as [l G1]. exists l. by apply (cache_inv_bcache s).
Qed.

(** The part of a transfer that falls into the block of offset [off]. *)
Lemma chunk_range off n :
  0 < n -> let c := Z.min n (BSIZE - off mod BSIZE) in
  0 < c <= n /\ c <= BSIZE - off mod BSIZE /\ (c < n -> (off + c) mod BSIZE = 0).
Proof.
  intros Hn c. pose proof (Z.mod_pos_bound off 512 ltac:(lia)). unfold c, BSIZE in *.
  split_and!; [lia..|]. intros Hc. rewrite Z.min_r by lia.
  symmetry. apply (Z.mod_unique _ 512 (off / 512 + 1)); [lia|]. pose proof (Z.div_mod off 512 ltac:(lia)). lia.
Qed.

Section data.
Context {E : Env} {i : nat} {R : kernel -> kernel -> Prop} {HD : Driver E i R}.
Context (g : geom) (Hg : geom_ok g) (C : kernel -> Prop).

Abbreviation start := (g_start g).

Lemma readi_done d off tot n got s hs m k addrs M (Q : list Z -> kernel -> Prop) :
  txn start i s ∅ hs m k -> n <= tot -> tot <= n ->
  put_mem d (cur_pgdir s) (fbytes addrs m off (n - tot)) (k_mem s) = Some M ->
  (forall s', txn start i s' ∅ hs m k -> fs_rel (s <| k_mem := M |>) s' ->
     Q (got ++ fbytes addrs m off (n - tot)) s') ->
  wpr R C (mret got) s Q.
Proof.
  intros Htx H1 H2 HM HQ. replace (n - tot) with 0 in * by lia.
  change (fbytes addrs m off 0) with (@nil Z) in *. rewrite app_nil_r in HQ. apply wpr_ret, HQ; [done|].
  assert (k_mem s = M) as <- by (destruct d; simpl in HM; congruence).
  replace (s <| k_mem := k_mem s |>) with s by (by destruct s). apply fs_rel_refl.
Qed.

Lemma readi_loop_txn fuel ip nd d off tot n got s hs m k M (Q : list Z -> kernel -> Prop) :
  txn start i s ∅ hs m k -> fs_ok g m -> inode_at s ip = nd -> file_data g m nd ->
  0 <= off -> 0 <= tot <= n -> off + (n - tot) <= i_size nd ->
  (tot < n -> n - tot + off mod BSIZE <= BSIZE * Z.of_nat fuel) ->
  dst_ok d -> put_mem d (cur_pgdir s) (fbytes (i_addrs nd) m off (n - tot)) (k_mem s) = Some M ->
  room ∅ hs 0 -> (forall s1, k_disk s1 = k -> C s1) ->
  (forall s', txn start i s' ∅ hs m k -> fs_rel (s <| k_mem := M |>) s' ->
     Q (got ++ fbytes (i_addrs nd) m off (n - tot)) s') ->
  wpr R C (readi_loop fuel ip d off tot n got) s Q.
Proof.
  intros Htx Hm Hnd Hf Hoff Htot Hsz Hfuel Hd HM Hroom HC HQ.
  revert d off tot got s Htx Hnd Hoff Htot Hsz Hfuel Hd HM HQ.
  induction fuel as [|fuel IH]; intros d off tot got s Htx Hnd Hoff Htot Hsz Hfuel Hd HM HQ; cbn [readi_loop].
  all: destruct (Z.ltb_spec tot n) as [Hlt|Hge]; cbn [negb].
  1: { specialize (Hfuel Hlt). pose proof (Z.mod_pos_bound off BSIZE ltac:(done)). lia. }
  1, 3: eapply (readi_done d off tot n got s hs m k (i_addrs nd) M); [done|lia|lia|done|done].
  specialize (Hfuel Hlt). destruct (chunk_range off (n - tot) ltac:(lia)) as (Hc1 & Hc2 & Hc3).
  set (c := Z.min (n - tot) (BSIZE - off mod BSIZE)) in *.
  pose proof (Z.mod_pos_bound off BSIZE ltac:(done)) as Hmod.
  pose proof (Z.div_mod off BSIZE ltac:(done)) as Hdiv.
  assert (Hbn : 0 <= off / BSIZE) by (apply Z.div_pos; done).
  assert (Hblk : off / BSIZE * BSIZE < i_size nd) by lia.
  pose proof (fd_there _ _ _ Hf _ Hbn Hblk) as Hslot. pose proof (fd_size _ _ _ Hf) as Hszm.
  assert (Hb140 : 0 <= off / BSIZE < MAXFILE) by (change (MAXFILE * BSIZE) with 71680 in Hszm;
    change MAXFILE with 140; change BSIZE with 512 in *; lia).
  apply wpr_bind. eapply (bmap_present g C ip nd (off / BSIZE) s hs m k); try done.
  { apply Hf. } { apply Hf. }
  intros s1 T1 R1. apply wpr_bind, wpr_gets. rewrite (fs_rel_inode_at _ _ ip R1), Hnd, (fd_dev _ _ _ Hf).
  set (a := slot (i_addrs nd) m (off / BSIZE)) in *.
  destruct (fo_block _ _ _ (fd_file _ _ _ Hf) (off / BSIZE)) as [Ha _]; [change IND with MAXFILE; lia|done|].
  fold a in Ha. apply wpr_bind.
  assert (Hh : forall (b : nat) (x : Z * list Z), (∅ : gmap nat (Z * list Z)) !! b = Some x -> x.1 <> a)
    by (intros b x Hx; by rewrite lookup_empty in Hx).
  eapply (bread_txn start C a s1 ∅ hs m k); [done|lia|done|right; by eapply room_cache|done|].
  intros b s2 T2 Hb R2 Hdat. apply wpr_bind, wpr_gets. rewrite Hdat. cbv zeta.
  pose proof (bitmap_range g Hg) as Hbr.
  destruct (fk_block g m Hm a ltac:(unfold data_start in *; lia)) as [Hlen _].
  pose proof (slice_fbytes (i_addrs nd) m off c Hlen ltac:(lia)) as Hsl. fold a in Hsl. rewrite Hsl.
  pose proof (fs_rel_trans _ _ _ R1 R2) as R12. destruct (fs_rel_fields _ _ R12) as (E1 & E2 & _).
  replace (n - tot) with (c + (n - tot - c)) in HM, HQ by lia.
  rewrite fbytes_app in HM, HQ by lia. rewrite put_mem_app in HM by done.
  destruct (put_mem d (cur_pgdir s) (fbytes (i_addrs nd) m off c) (k_mem s)) as [M1|] eqn:EM; [|done].
  rewrite length_fbytes, Z2Nat.id in HM by lia.
  eapply wpr_step. { rewrite put_bytes_eq, E1, E2, EM. reflexivity. }
  destruct (brelse_txn _ _ _ _ _ _ _ b a (m a) (txn_mem _ _ _ _ _ _ _ M1 T2) (lookup_insert_eq _ _ _))
    as (s3 & E3 & T3 & R3).
  { by apply (txn_clean _ _ _ _ _ _ _ _ T1). }
  eapply wpr_step; [exact E3|]. rewrite delete_insert_id in T3 by done.
  assert (R13 : fs_rel (s <| k_mem := M1 |>) s3) by (eapply fs_rel_trans; [by apply fs_rel_mem|exact R3]).
  destruct (fs_rel_fields _ _ R13) as (F1 & F2 & F3).
  apply IH; [done|by rewrite (fs_rel_inode_at _ _ ip R13)|lia|lia|lia| |by apply dst_ok_add| |].
  - intros H. rewrite Hc3 by lia. lia.
  - replace (n - (tot + c)) with (n - tot - c) by lia. rewrite F1, F2. exact HM.
  - intros s' T' R'. rewrite <- app_assoc. replace (n - (tot + c)) with (n - tot - c) by lia.
    apply HQ; [done|]. eapply fs_rel_trans; [|exact R']. by apply (fs_rel_mem M) in R13.
Qed.

(** [readi] inside the file. *)
Lemma readi_txn ip nd d off n s hs m k M (Q : Z * list Z -> kernel -> Prop) :
  txn start i s ∅ hs m k -> fs_ok g m -> inode_at s ip = nd -> file_data g m nd ->
  0 <= off <= i_size nd -> 0 <= n -> off + n < 2 ^ 32 -> dst_ok d ->
  let c := Z.min n (i_size nd - off) in
  put_mem d (cur_pgdir s) (fbytes (i_addrs nd) m off c) (k_mem s) = Some M ->
  room ∅ hs 0 -> (forall s1, k_disk s1 = k -> C s1) ->
  (forall s', txn start i s' ∅ hs m k -> fs_rel (s <| k_mem := M |>) s' ->
     Q (c, fbytes (i_addrs nd) m off c) s') ->
  wpr R C (readi ip d off n) s Q.
Proof.
  intros Htx Hm Hnd Hf Hoff Hn Hov Hd c HM Hroom HC HQ. pose proof (fd_size _ _ _ Hf) as Hsz.
  change (MAXFILE * BSIZE) with 71680 in Hsz.
  unfold readi. apply wpr_bind, wpr_gets. rewrite Hnd.
  destruct (Z.eqb_spec (i_type nd) T_DEV) as [H|_]; [by destruct (fd_type _ _ _ Hf)|].
  rewrite u32_id by (wrap_unfold; lia).
  destruct (Z.ltb_spec (i_size nd) off); [lia|]. destruct (Z.ltb_spec (off + n) off); [lia|]. cbn [orb].
  cbv zeta. replace (if i_size nd <? off + n then i_size nd - off else n) with c
    by (unfold c; destruct (Z.ltb_spec (i_size nd) (off + n)); lia).
  assert (Hc : 0 <= c) by (unfold c; lia). assert (Hcs : off + c <= i_size nd) by (unfold c; lia).
  apply wpr_bind. eapply (readi_loop_txn _ ip nd d off 0 c [] s hs m k M); try done; try lia.
  - intros _. pose proof (Z.mod_pos_bound off BSIZE ltac:(done)). pose proof (Z.div_mod c BSIZE ltac:(done)).
    pose proof (Z.mod_pos_bound c BSIZE ltac:(done)). pose proof (Z.div_pos c BSIZE ltac:(done) ltac:(done)).
    change BSIZE with 512 in *. lia.
  - by rewrite Z.sub_0_r.
  - intros s' T' R'. rewrite Z.sub_0_r. apply wpr_ret. rewrite i32_id by (wrap_unfold; lia). by apply HQ.
Qed.
End data.
