(* ===== verification/WriteSpec.v ===== *)
(** What [writei] does to a file. *)
From S2P Require Import Prelude Memory Kernel CString Spinlock Console Sched Ide Bytes Bio.
From S2P Require Import Log Inode Vm Umem Tty Fs.
From S2P Require Import Crash Wait Driver BioSpec LogSpec Txn Balloc InodeSpec DinodeSpec.
From S2P Require Import DataSpec.

(** ** The effect of a write *)

(** The blocks that [n] bytes at offset [off] lie in. *)
Definition spans (off n x : Z) : Prop := 0 < n /\ off / BSIZE <= x /\ x * BSIZE < off + n.

Lemma spans_byte off n p : off <= p < off + n -> spans off n (p / BSIZE).
Proof.
  intros H. unfold spans, BSIZE. pose proof (Z.div_mod p 512 ltac:(lia)).
  pose proof (Z.mod_pos_bound p 512 ltac:(lia)). split_and!; [lia| |lia].
  apply Z.div_le_mono; lia.
Qed.

(** The file [addrs] over the blocks [m] becomes [addrs'] over [m'] when [data]
    is written at [off]: blocks are added where the data needs them and start
    out zero, the data replaces what was there, and no block of another file
    changes. *)
Record written (g : geom) (off : Z) (data : list Z) (addrs : list Z) (m : Z -> list Z)
    (addrs' : list Z) (m' : Z -> list Z) : Prop := {
  wr_file : file_ok g m' addrs';
  wr_fs : fs_ok g m';
  wr_old : forall x, 0 <= x <= IND -> slot addrs m x <> 0 -> slot addrs' m' x = slot addrs m x;
  wr_only : forall x, 0 <= x < IND -> ~ spans off (Z.of_nat (length data)) x ->
    slot addrs' m' x = slot addrs m x;
  wr_there : forall x, 0 <= x < IND -> spans off (Z.of_nat (length data)) x -> slot addrs' m' x <> 0;
  wr_bytes : forall p, 0 <= p < MAXFILE * BSIZE -> slot addrs' m' (p / BSIZE) <> 0 ->
    fbyte addrs' m' p =
      if decide (off <= p < off + Z.of_nat (length data)) then default 0 (data !! Z.to_nat (p - off))
      else if decide (slot addrs m (p / BSIZE) = 0) then 0 else fbyte addrs m p;
  wr_same : forall x, 0 <= x -> used g m x = true -> x <> bitmap_block g ->
    (forall j, 0 <= j <= IND -> slot addrs' m' j = x -> x = 0) -> m' x = m x;
  wr_used : forall x, 0 <= x -> used g m x = true -> used g m' x = true;
  wr_fresh : forall x, 0 <= x <= IND -> slot addrs m x = 0 -> slot addrs' m' x <> 0 ->
    used g m (slot addrs' m' x) = false;
  wr_addrs : (forall x, 0 <= x < IND -> spans off (Z.of_nat (length data)) x -> slot addrs m x <> 0) ->
    addrs' = addrs;
}.

Lemma slot_range p : 0 <= p < MAXFILE * BSIZE -> 0 <= p / BSIZE < IND.
Proof.
  intros H. change (MAXFILE * BSIZE) with 71680 in H. unfold BSIZE, IND.
  split; [apply Z.div_pos; lia|]. apply Z.div_lt_upper_bound; lia.
Qed.

Lemma written_nil g off addrs m : file_ok g m addrs -> fs_ok g m -> written g off [] addrs m addrs m.
Proof.
  intros H1 H2. split; try done.
  - intros x Hx [S1 _]. done.
  - intros p Hp Hs. simpl. rewrite decide_False by lia. by rewrite decide_False.
Qed.

Lemma written_trans g off d1 d2 a1 m1 a2 m2 a3 m3 :
  geom_ok g -> 0 <= off -> written g off d1 a1 m1 a2 m2 ->
  written g (off + Z.of_nat (length d1)) d2 a2 m2 a3 m3 ->
  (d2 <> [] -> (off + Z.of_nat (length d1)) mod BSIZE = 0) ->
  written g off (d1 ++ d2) a1 m1 a3 m3.
Proof.
  intros Hg Hoff X Y Hal. pose proof (bitmap_range g Hg) as Hbm. set (l1 := Z.of_nat (length d1)) in *. set (l2 := Z.of_nat (length d2)) in *.
  assert (Hl : Z.of_nat (length (d1 ++ d2)) = l1 + l2) by (rewrite length_app; unfold l1, l2; lia).
  assert (Hsp : forall x, spans off (l1 + l2) x <-> spans off l1 x \/ spans (off + l1) l2 x).
  { intros x. unfold spans, BSIZE in *.
    pose proof (Z.div_mod off 512 ltac:(lia)). pose proof (Z.mod_pos_bound off 512 ltac:(lia)).
    pose proof (Z.div_mod (off + l1) 512 ltac:(lia)). pose proof (Z.mod_pos_bound (off + l1) 512 ltac:(lia)).
    destruct d2 as [|c d2]; [subst l2; simpl; split; [|lia]; intros ?; left; lia|].
    specialize (Hal ltac:(done)). lia. }
  split; [apply Y|apply Y|..].
  - intros x Hx Hne. rewrite (wr_old _ _ _ _ _ _ _ Y), (wr_old _ _ _ _ _ _ _ X); try done.
    by rewrite (wr_old _ _ _ _ _ _ _ X).
  - intros x Hx. rewrite Hl, Hsp. intros Hne.
    rewrite (wr_only _ _ _ _ _ _ _ Y), (wr_only _ _ _ _ _ _ _ X); try done; tauto.
  - intros x Hx. rewrite Hl, Hsp. intros [Hs|Hs]; [|by apply (wr_there _ _ _ _ _ _ _ Y)].
    pose proof (wr_there _ _ _ _ _ _ _ X x Hx Hs). rewrite (wr_old _ _ _ _ _ _ _ Y); [done|lia|done].
  - intros p Hp Hs. pose proof (slot_range p Hp) as Hr. rewrite Hl.
    rewrite (wr_bytes _ _ _ _ _ _ _ Y p Hp Hs). fold l1 l2. case_decide as D2.
    + rewrite (decide_True (P := off <= p < off + (l1 + l2))) by lia.
      rewrite lookup_app_r by (unfold l1 in *; lia). do 2 f_equal. unfold l1. lia.
    + destruct (decide (slot a2 m2 (p / BSIZE) = 0)) as [H2|H2].
      * assert (H1 : slot a1 m1 (p / BSIZE) = 0).
        { destruct (decide (slot a1 m1 (p / BSIZE) = 0)) as [|H1]; [done|].
          rewrite <- (wr_old _ _ _ _ _ _ _ X) in H1 by (done || lia). done. }
        rewrite (decide_True (P := slot a1 m1 (p / BSIZE) = 0)) by done.
        case_decide as D1; [|done]. exfalso. apply (wr_there _ _ _ _ _ _ _ X (p / BSIZE) Hr); [|done].
        apply spans_byte. fold l1. lia.
      * rewrite (wr_bytes _ _ _ _ _ _ _ X p Hp H2). fold l1. case_decide as D1.
        -- rewrite decide_True by lia. rewrite lookup_app_l by (unfold l1 in *; lia). done.
        -- by rewrite (decide_False (P := off <= p < off + (l1 + l2))) by lia.
  - intros x Hx Hu Hb Hj. rewrite (wr_same _ _ _ _ _ _ _ Y); [|done|by apply (wr_used _ _ _ _ _ _ _ X)|done|done].
    apply (wr_same _ _ _ _ _ _ _ X); try done. intros j Hj' E.
    destruct (decide (x = 0)) as [|Hne]; [done|]. apply (Hj j Hj').
    rewrite (wr_old _ _ _ _ _ _ _ Y); [done|done|congruence].
  - intros x Hx Hu. by apply (wr_used _ _ _ _ _ _ _ Y), (wr_used _ _ _ _ _ _ _ X).
  - intros x Hx H0 Hne. destruct (decide (slot a2 m2 x = 0)) as [H2|H2].
    + pose proof (wr_fresh _ _ _ _ _ _ _ Y x Hx H2 Hne) as Hu.
      destruct (used g m1 (slot a3 m3 x)) eqn:E1; [|done]. rewrite (wr_used _ _ _ _ _ _ _ X) in Hu; [done| |done].
      destruct (fo_block _ _ _ (wr_file _ _ _ _ _ _ _ Y) x Hx Hne). unfold data_start in *. lia.
    + rewrite (wr_old _ _ _ _ _ _ _ Y) by done. by apply (wr_fresh _ _ _ _ _ _ _ X).
  - rewrite Hl. intros H. assert (E : a2 = a1).
    { apply (wr_addrs _ _ _ _ _ _ _ X). intros x Hx Hs. apply H; [done|]. apply Hsp. by left. }
    rewrite <- E. apply (wr_addrs _ _ _ _ _ _ _ Y). intros x Hx Hs.
    assert (H0 : slot a1 m1 x <> 0) by (apply H; [done|]; apply Hsp; by right).
    rewrite (wr_old _ _ _ _ _ _ _ X); [done|lia|done].
Qed.

(** ** One block *)

Lemma slot_set addrs m a d x :
  (ad addrs 12 = a -> a = 0) -> slot addrs (set_block m a d) x = slot addrs m x.
Proof.
  intros H. unfold slot. destruct (x <? NDIRECT); [done|]. destruct (x =? IND); [done|].
  destruct (Z.eqb_spec (ad addrs 12) 0) as [|Hne]; [done|].
  rewrite set_block_ne; [done|]. intros E. apply Hne. by rewrite E, H.
Qed.

Lemma get8_splice d o c j :
  (o + length c <= length d)%nat ->
  get8 (splice d o c) j = if decide (o <= j < o + length c)%nat then default 0 (c !! (j - o)%nat) else get8 d j.
Proof.
  intros H. unfold get8, splice. case_decide as Hj.
  - rewrite lookup_app_r; rewrite length_take; [|lia]. rewrite Nat.min_l by lia.
    rewrite lookup_app_l by lia. done.
  - destruct (decide (j < o)%nat).
    + rewrite lookup_app_l by (rewrite length_take; lia). by rewrite lookup_take_lt.
    + rewrite lookup_app_r; rewrite length_take; [|lia]. rewrite Nat.min_l by lia.
      rewrite lookup_app_r by lia. rewrite lookup_drop. do 2 f_equal. lia.
Qed.

(** [bmap] followed by the update of the block. *)
Lemma chunk_written g off c addrs m addrs' m' :
  geom_ok g -> fs_ok g m -> file_ok g m addrs -> 0 <= off -> off / BSIZE < IND ->
  0 < Z.of_nat (length c) <= BSIZE - off mod BSIZE -> bytes_ok c ->
  extends g (off / BSIZE) addrs m addrs' m' ->
  (slot addrs m (off / BSIZE) <> 0 -> addrs' = addrs) ->
  let a := slot addrs' m' (off / BSIZE) in a <> 0 ->
  written g off c addrs m addrs'
    (set_block m' a (splice (m' a) (Z.to_nat (off mod BSIZE)) c)).
Proof.
  intros Hg Hm Hf Hoff Hbn Hc Hb X Haddrs a Ha. set (bn := off / BSIZE) in *.
  set (m2 := set_block _ _ _). pose proof (bitmap_range g Hg) as Hbm.
  assert (Hbn' : 0 <= bn < IND) by (split; [by apply Z.div_pos|done]).
  pose proof (ex_file _ _ _ _ _ _ X) as Hf'. pose proof (ex_fs _ _ _ _ _ _ X) as Hm'.
  destruct (fo_block _ _ _ Hf' bn ltac:(lia) Ha) as [Had Hau]. fold a in Had, Hau.
  assert (Hind : forall x, slot addrs' m2 x = slot addrs' m' x).
  { intros x. apply slot_set. intros E. exfalso.
    assert (Hbi : bn = IND) by (apply (fo_inj _ _ _ Hf'); [lia|unfold IND; lia|done|exact (eq_sym E)]). lia. }
  assert (Hma : m2 a = splice (m' a) (Z.to_nat (off mod BSIZE)) c) by apply set_block_eq.
  assert (Hmo : forall x, x <> a -> m2 x = m' x) by (intros x Hx; by apply set_block_ne).
  assert (Hus : forall x, used g m2 x = used g m' x).
  { intros x. unfold used. rewrite Hmo; [done|]. unfold data_start in *. lia. }
  destruct (fk_block g m' Hm' a ltac:(unfold data_start in *; lia)) as [Hlen Hbytes].
  pose proof (Z.mod_pos_bound off BSIZE ltac:(done)) as Hmod. pose proof (Z.div_mod off BSIZE ltac:(done)) as Hdiv.
  fold bn in Hdiv.
  assert (Hfit : (Z.to_nat (off mod BSIZE) + length c <= length (m' a))%nat) by (rewrite Hlen; unfold BSIZE in *; lia).
  assert (Hspan : forall x, spans off (Z.of_nat (length c)) x <-> x = bn).
  { intros x. unfold spans. fold bn. unfold BSIZE in *. lia. }
  assert (Hkeep : forall x, 0 <= x < IND -> slot addrs m x <> 0 -> m' (slot addrs m x) = m (slot addrs m x)).
  { intros x Hx Hs. destruct (fo_block _ _ _ Hf x ltac:(lia) Hs) as [Hd Hu].
    apply (ex_same _ _ _ _ _ _ X); [unfold data_start in *; lia|done|unfold data_start in *; lia|].
    intros E. exfalso. rewrite <- (ex_old _ _ _ _ _ _ X x ltac:(lia) Hs) in E.
    pose proof (ex_old _ _ _ _ _ _ X x ltac:(lia) Hs) as Eo.
    assert (x = IND) by (apply (fo_inj _ _ _ Hf'); [lia|unfold IND; lia|by rewrite Eo|done]). lia. }
  split.
  - destruct Hf' as [F1 F2 F3]. split; [done|..].
    + intros j Hj. rewrite Hind, Hus. by apply F2.
    + intros j j' Hj Hj'. rewrite !Hind. by apply F3.
  - destruct Hm' as [K1 K2 K3 K4]. split.
    + intros x Hx. unfold m2, set_block. case_decide; [|by apply K1]. split; [|by apply bytes_ok_splice].
      by rewrite length_splice.
    + rewrite Hmo; [done|]. unfold data_start in *. lia.
    + rewrite Hmo; [done|]. unfold data_start in *. lia.
    + intros x Hx. rewrite Hus. by apply K4.
  - intros x Hx Hs. rewrite Hind. by apply (ex_old _ _ _ _ _ _ X).
  - intros x Hx Hs. rewrite Hind. apply (ex_only _ _ _ _ _ _ X); [done|]. intros ->. by apply Hs, Hspan.
  - intros x Hx Hs. apply Hspan in Hs as ->. by rewrite Hind.
  - intros p Hp Hs. pose proof (slot_range p Hp) as Hr. unfold fbyte. rewrite Hind in *.
    pose proof (Z.mod_pos_bound p BSIZE ltac:(done)). pose proof (Z.div_mod p BSIZE ltac:(done)).
    destruct (decide (p / BSIZE = bn)) as [E|E].
    + rewrite E in *. fold a. rewrite Hma, get8_splice by done. unfold BSIZE in *. case_decide as D.
      * rewrite (decide_True (P := off <= p < off + Z.of_nat (length c))) by lia. do 2 f_equal. lia.
      * rewrite (decide_False (P := off <= p < off + Z.of_nat (length c))) by lia. case_decide as D0.
        -- unfold a. rewrite (ex_zero _ _ _ _ _ _ X) by done. unfold get8, block0.
           destruct (replicate _ 0 !! _) eqn:El; [|done]. by apply lookup_replicate in El as [-> _].
        -- unfold a. rewrite (ex_old _ _ _ _ _ _ X) by (done || lia). by rewrite Hkeep.
    + rewrite (decide_False (P := off <= p < off + Z.of_nat (length c))).
      2: { intros Hin. apply E, Hspan, spans_byte, Hin. }
      assert (Es : slot addrs' m' (p / BSIZE) = slot addrs m (p / BSIZE)) by (by apply (ex_only _ _ _ _ _ _ X)).
      rewrite Es in Hs. rewrite decide_False by done.
      rewrite Hmo; [by rewrite Es, Hkeep|]. intros Ea. apply E.
      apply (fo_inj _ _ _ Hf'); [lia|lia|by rewrite Es|exact Ea].
  - intros x Hx Hu Hnb Hj. rewrite Hmo.
    + apply (ex_same _ _ _ _ _ _ X); try done. intros ->. apply (Hj IND); [unfold IND; lia|apply Hind].
    + intros ->. apply Ha, (Hj bn); [lia|]. by rewrite Hind.
  - intros x Hx Hu. rewrite Hus. by apply (ex_used _ _ _ _ _ _ X).
  - intros x Hx. rewrite Hind. by apply (ex_fresh _ _ _ _ _ _ X).
  - intros H. apply Haddrs, H; [done|]. by apply Hspan.
Qed.

(** ** Copying in *)

(** [n] bytes of the source from its byte [j]. *)
Definition src_mem (b : src) (pgdir : Z) (M : memory) (j n : Z) : option (list Z) :=
  match b with
  | FromLocal l => if decide (j + n <= Z.of_nat (length l)) then Some (slice l (Z.to_nat j) (Z.to_nat n)) else None
  | FromUser a => umem_read M pgdir (u32 (a + j)) (Z.to_nat n)
  end.

Lemma get_bytes_ok b j n l s :
  src_mem b (cur_pgdir s) (k_mem s) j n = Some l -> get_bytes b j n s = Ok l s.
Proof.
  destruct b as [d|a]; simpl; [case_decide; [|done]; by intros [= <-]|].
  intros H. rewrite uread_eq. by rewrite H.
Qed.

Lemma length_umem_read M pgdir a n l : umem_read M pgdir a n = Some l -> length l = n.
Proof.
  revert a l; induction n as [|n IH]; intros a l; simpl; [by intros [= <-]|].
  destruct (xlate M pgdir false a); [|done]. destruct (umem_read _ _ _ n) as [l'|] eqn:E; [|done].
  intros [= <-]. simpl. f_equal. by eapply IH.
Qed.

Lemma umem_read_split M pgdir a n1 n2 l :
  is_u32 a -> umem_read M pgdir a (n1 + n2) = Some l ->
  umem_read M pgdir a n1 = Some (take n1 l) /\
  umem_read M pgdir (u32 (a + Z.of_nat n1)) n2 = Some (drop n1 l).
Proof.
  revert a l; induction n1 as [|n1 IH]; intros a l Ha; simpl.
  { rewrite Z.add_0_r, u32_id by done. done. }
  destruct (xlate M pgdir false a); [|done]. destruct (umem_read _ _ _ (n1 + n2)) as [l'|] eqn:E; [|done].
  intros [= <-]. destruct (IH _ _ (u32_range _) E) as [H1 H2]. simpl. rewrite H1. split; [done|].
  rewrite <- H2. f_equal. wrap_unfold. rewrite Zplus_mod_idemp_l. f_equal. lia.
Qed.

Lemma src_mem_length b pgdir M j n l : 0 <= j -> 0 <= n -> src_mem b pgdir M j n = Some l -> length l = Z.to_nat n.
Proof.
  intros Hj Hn. destruct b as [d|a]; simpl.
  - case_decide; [|done]. intros [= <-]. unfold slice. rewrite length_take, length_drop. lia.
  - apply length_umem_read.
Qed.

Lemma src_mem_split b pgdir M j n1 n2 l :
  0 <= j -> 0 <= n1 -> 0 <= n2 -> src_mem b pgdir M j (n1 + n2) = Some l ->
  src_mem b pgdir M j n1 = Some (take (Z.to_nat n1) l) /\
  src_mem b pgdir M (j + n1) n2 = Some (drop (Z.to_nat n1) l).
Proof.
  intros Hj H1 H2. destruct b as [d|a]; simpl.
  - case_decide; [|done]. intros [= <-]. rewrite !decide_True by lia. unfold slice. split; f_equal.
    + rewrite take_take. f_equal. lia.
    + rewrite skipn_firstn_comm, drop_drop. f_equal; [lia|f_equal; lia].
  - rewrite Z2Nat.inj_add by done. intros H.
    destruct (umem_read_split _ _ _ _ _ _ (u32_range _) H) as [G1 G2]. split; [done|].
    rewrite <- G2, Z2Nat.id by done. f_equal. wrap_unfold. rewrite Zplus_mod_idemp_l. f_equal. lia.
Qed.

(** ** The blocks logged *)

(** What the log may contain after slots [lo] to [hi] of a file were written. *)
Definition logs (g : geom) (hs0 : list Z) (addrs : list Z) (m : Z -> list Z) (lo hi : Z) (hs : list Z) : Prop :=
  forall x, x ∈ hs -> x ∈ hs0 \/ x = bitmap_block g \/ (x = ad addrs 12 /\ x <> 0) \/
    exists j, lo <= j < hi /\ x = slot addrs m j /\ x <> 0.

Lemma logs_length g hs0 addrs m lo hi hs :
  lo <= hi -> NoDup hs -> logs g hs0 addrs m lo hi hs ->
  Z.of_nat (length hs) <= Z.of_nat (length hs0) + 2 + (hi - lo).
Proof.
  intros Hr Hnd Hl.
  assert (Hsub : hs ⊆+ hs0 ++ bitmap_block g :: ad addrs 12 :: (slot addrs m <$> seqZ lo (hi - lo))).
  { apply NoDup_submseteq; [done|]. intros x Hx. rewrite elem_of_app, !elem_of_cons, list_elem_of_fmap.
    destruct (Hl x Hx) as [?|[?|[[? _]|(j & Hj & ? & _)]]]; [tauto..|].
    do 3 right. exists j. split; [done|]. apply elem_of_seqZ. lia. }
  apply submseteq_length in Hsub. rewrite length_app in Hsub. simpl in Hsub.
  rewrite length_fmap, length_seqZ in Hsub. lia.
Qed.

Lemma bmap_logs_length g a ind hs hs1 :
  NoDup hs1 -> bmap_logs g a ind hs hs1 -> (length hs1 <= length hs + 3)%nat.
Proof.
  intros Hnd Hl. assert (Hsub : hs1 ⊆+ hs ++ [bitmap_block g; a; ind]).
  { apply NoDup_submseteq; [done|]. intros x Hx. rewrite elem_of_app, !elem_of_cons, elem_of_nil.
    destruct (Hl x Hx) as [?|[?|[?|[? _]]]]; tauto. }
  apply submseteq_length in Hsub. rewrite length_app in Hsub. simpl in Hsub. lia.
Qed.

Lemma logs_mono g hs0 addrs m addrs' m' lo hi hi' hs :
  0 <= lo -> hi <= hi' -> hi <= IND -> logs g hs0 addrs m lo hi hs ->
  (forall x, 0 <= x <= IND -> slot addrs m x <> 0 -> slot addrs' m' x = slot addrs m x) ->
  logs g hs0 addrs' m' lo hi' hs.
Proof.
  intros Hlo Hhi Hi Hl Hold x Hx. destruct (Hl x Hx) as [H|[H|[[H Hne]|(j & Hj & H & Hne)]]]; [tauto..| |].
  - right. right. left. split; [|done]. rewrite H. symmetry. apply (Hold IND); [unfold IND; lia|].
    change (slot addrs m IND) with (ad addrs 12). congruence.
  - right. right. right. exists j. split_and!; [lia..| |done]. rewrite Hold; [done|lia|congruence].
Qed.

Lemma logs_step g hs0 addrs m addrs' m' lo bn a hs hs1 :
  0 <= lo <= bn -> bn <= IND -> logs g hs0 addrs m lo bn hs -> bmap_logs g a (ad addrs' 12) hs hs1 ->
  (forall x, 0 <= x <= IND -> slot addrs m x <> 0 -> slot addrs' m' x = slot addrs m x) ->
  a = slot addrs' m' bn -> a <> 0 ->
  logs g hs0 addrs' m' lo (bn + 1) (log_add a hs1).
Proof.
  intros Hlo Hbn Hl Hb Hold Ea Ha x Hx.
  assert (Hj : exists j, lo <= j < bn + 1 /\ a = slot addrs' m' j /\ a <> 0) by (exists bn; split_and!; [lia..|done|done]).
  apply elem_of_log_add in Hx as [->|Hx]; [tauto|].
  destruct (Hb x Hx) as [H|[H|[->|[-> H]]]]; [|tauto..].
  by apply (logs_mono g hs0 addrs m addrs' m' lo bn (bn + 1) hs); try lia.
Qed.

(** Offsets of the blocks of a transfer. *)
Lemma top_bounds off n :
  0 <= off -> 0 < n -> off + n <= MAXFILE * BSIZE ->
  let top := (off + n + 511) / 512 in
  off / BSIZE + 1 <= top <= IND /\ top * BSIZE < off + n + BSIZE.
Proof.
  intros H1 H2 H3 top. change (MAXFILE * BSIZE) with 71680 in H3. unfold BSIZE, IND in *.
  pose proof (Z.div_mod (off + n + 511) 512 ltac:(lia)). pose proof (Z.mod_pos_bound (off + n + 511) 512 ltac:(lia)).
  pose proof (Z.div_mod off 512 ltac:(lia)). pose proof (Z.mod_pos_bound off 512 ltac:(lia)). unfold top. lia.
Qed.

Section writei.
Context {E : Env} {i : nat} {R : kernel -> kernel -> Prop} {HD : Driver E i R}.
Context (g : geom) (Hg : geom_ok g) (C : kernel -> Prop).

Abbreviation start := (g_start g).

(** One turn of the loop of [writei]. *)
Lemma writei_chunk {A} ip nd b off tot c chunk s hs m k (rest : K A) Q :
  txn start i s ∅ hs m k -> fs_ok g m -> inode_at s ip = nd -> (ip < length (k_icache s))%nat ->
  i_dev nd = ROOTDEV -> file_ok g m (i_addrs nd) -> 0 <= off -> off / BSIZE < IND ->
  src_mem b (cur_pgdir s) (k_mem s) tot c = Some chunk -> bytes_ok chunk ->
  0 < Z.of_nat (length chunk) <= BSIZE - off mod BSIZE ->
  room ∅ hs 6 -> (ind_need (i_addrs nd) + 1 <= nfree g m)%nat ->
  (forall s1, k_disk s1 = k -> C s1) ->
  (forall s' addrs' m' hs1, let a := slot addrs' m' (off / BSIZE) in
     txn start i s' ∅ (log_add a hs1) m' k ->
     fs_rel (put_inode ip (nd <| i_addrs := addrs' |>) s) s' ->
     written g off chunk (i_addrs nd) m addrs' m' ->
     bmap_logs g a (ad addrs' 12) hs hs1 -> a <> 0 ->
     (nfree g m + ind_need addrs' <= nfree g m' + ind_need (i_addrs nd) + 1)%nat ->
     wpr R C rest s' Q) ->
  wpr R C (addr ← bmap ip (off / BSIZE);
    dev ← gets (fun s => i_dev (inode_at s ip));
    bp ← bread dev addr;
    chunk ← get_bytes b tot c;
    set_buf bp (fun x => x <| b_data ::= fun d => splice d (Z.to_nat (off mod BSIZE)) chunk |>);;
    log_write bp;;
    brelse bp;;
    rest) s Q.
Proof.
  intros Htx Hm Hnd Hip Hdev Hf Hoff Hbn Hsrc Hbytes Hlen Hroom Hfree HC HQ.
  pose proof (bitmap_range g Hg) as Hbm.
  assert (Hbn' : 0 <= off / BSIZE) by (by apply Z.div_pos).
  apply wpr_bind. eapply (bmap_txn g Hg C ip nd (off / BSIZE) s hs m k); try done.
  intros a s1 addrs' hs1 m1 T1 R1 X Ea Ha Hlog Hn1 Haddrs.
  destruct (fs_rel_inode ip _ s s1 R1 Hip) as [E1 L1].
  pose proof (ex_file _ _ _ _ _ _ X) as Hf1.
  destruct (fo_block _ _ _ Hf1 (off / BSIZE) ltac:(lia) ltac:(congruence)) as [Had Hau]. rewrite <- Ea in Had, Hau.
  apply wpr_bind, wpr_gets. rewrite E1. cbn [update i_dev]. change (i_dev (_ <| _ := _ |>)) with (i_dev nd).
  rewrite Hdev. apply wpr_bind.
  pose proof (bmap_logs_length _ _ _ _ _ (tx_nodup _ _ _ _ _ _ _ T1) Hlog) as Hl1.
  assert (Hroom1 : room ∅ hs1 3) by (unfold room in *; lia).
  assert (Hh : forall (b : nat) (x : Z * list Z), (∅ : gmap nat (Z * list Z)) !! b = Some x -> x.1 <> a)
    by (intros b' x Hx; by rewrite lookup_empty in Hx).
  eapply (bread_txn start C a s1 ∅ hs1 m1 k); [done|lia|done|right; by eapply room_cache|done|].
  intros bp s2 T2 Hb R2 Hdat.
  assert (R12 : fs_rel (put_inode ip (nd <| i_addrs := addrs' |>) s) s2) by (by eapply fs_rel_trans).
  destruct (fs_rel_fields _ _ R12) as (F1 & F2 & _).
  eapply wpr_step. { apply get_bytes_ok. rewrite F1, F2. exact Hsrc. }
  eapply (update_txn start C bp a (m1 a) _ (splice (m1 a) (Z.to_nat (off mod BSIZE)) chunk) s2);
    [done|apply lookup_insert_eq|unfold data_start in *; lia|by eapply room_log|done|simpl; by rewrite Hdat|].
  intros s3 T3 R3. rewrite delete_insert_id in T3 by done.
  pose proof (chunk_written g off chunk (i_addrs nd) m addrs' m1 Hg Hm Hf Hoff Hbn Hlen Hbytes X Haddrs) as W.
  cbv zeta in W. rewrite <- Ea in W. specialize (W Ha). set (m2 := set_block _ _ _) in *.
  assert (Ea2 : slot addrs' m2 (off / BSIZE) = a).
  { rewrite Ea. unfold m2. apply slot_set. intros Ei. exfalso.
    assert (Hbi : off / BSIZE = IND); [|lia].
    apply (fo_inj _ _ _ Hf1); [lia|unfold IND; lia|congruence|]. rewrite <- Ea. by rewrite <- Ei. }
  eapply (HQ s3 addrs' m2 hs1); rewrite ?Ea2; [done|by eapply fs_rel_trans|done|done|done|].
  rewrite (nfree_same g m1 m2); [done|]. unfold m2. apply set_block_ne. unfold data_start in *. lia.
Qed.

Lemma writei_end ip nd b off tot n data s hs hs0 lo hi m k (Q : Z -> kernel -> Prop) :
  txn start i s ∅ hs m k -> fs_ok g m -> inode_at s ip = nd -> file_ok g m (i_addrs nd) ->
  tot = n -> 0 <= off -> off <= MAXFILE * BSIZE ->
  0 <= tot -> src_mem b (cur_pgdir s) (k_mem s) tot (n - tot) = Some data ->
  let top := (off + (n - tot) + 511) / 512 in
  0 <= lo -> hi <= top -> logs g hs0 (i_addrs nd) m lo hi hs ->
  (forall s' addrs' m' hs', txn start i s' ∅ hs' m' k ->
     fs_rel (put_inode ip (nd <| i_addrs := addrs' |>) s) s' ->
     written g off data (i_addrs nd) m addrs' m' -> logs g hs0 addrs' m' lo top hs' ->
     Z.of_nat (nfree g m) + Z.of_nat (ind_need addrs') <=
       Z.of_nat (nfree g m') + Z.of_nat (ind_need (i_addrs nd)) + 0 ->
     Q (off + (n - tot)) s') ->
  Q off s.
Proof.
  intros Htx Hm Hnd Hf -> Hoff Hmax Htot Hsrc top Hlo Hhi Hlog HQ. unfold top in *. rewrite Z.sub_diag in *.
  rewrite Z.add_0_r in *. apply src_mem_length in Hsrc; [|done..].
  apply length_zero_iff_nil in Hsrc as ->.
  apply (HQ s (i_addrs nd) m hs); [done| |by apply written_nil| |].
  - replace (put_inode ip _ s) with s; [apply fs_rel_refl|].
    transitivity (put_inode ip (inode_at s ip) s); [by rewrite put_inode_id|]. rewrite Hnd. by destruct nd.
  - eapply logs_mono; [done|exact Hhi| |done|done]. etransitivity; [exact Hhi|].
    change (MAXFILE * BSIZE) with 71680 in Hmax. unfold IND.
    assert ((off + 511) / 512 < 141) by (apply Z.div_lt_upper_bound; lia). lia.
  - lia.
Qed.

Lemma writei_loop_txn fuel ip nd b off tot n data s hs hs0 lo hi m k (Q : Z -> kernel -> Prop) :
  txn start i s ∅ hs m k -> fs_ok g m -> inode_at s ip = nd -> (ip < length (k_icache s))%nat ->
  i_dev nd = ROOTDEV -> file_ok g m (i_addrs nd) ->
  0 <= off -> 0 <= tot <= n -> off + (n - tot) <= MAXFILE * BSIZE ->
  (tot < n -> n - tot + off mod BSIZE <= BSIZE * Z.of_nat fuel) ->
  src_mem b (cur_pgdir s) (k_mem s) tot (n - tot) = Some data -> bytes_ok data ->
  let top := (off + (n - tot) + 511) / 512 in
  0 <= lo <= hi -> hi <= top -> (tot < n -> hi <= off / BSIZE) -> logs g hs0 (i_addrs nd) m lo hi hs ->
  (tot < n -> Z.of_nat (length hs0) + (top - lo) + 8 <= 30) ->
  (tot < n -> Z.of_nat (ind_need (i_addrs nd)) + (top - off / BSIZE) <= Z.of_nat (nfree g m)) ->
  (forall s1, k_disk s1 = k -> C s1) ->
  (forall s' addrs' m' hs', txn start i s' ∅ hs' m' k ->
     fs_rel (put_inode ip (nd <| i_addrs := addrs' |>) s) s' ->
     written g off data (i_addrs nd) m addrs' m' -> logs g hs0 addrs' m' lo top hs' ->
     Z.of_nat (nfree g m) + Z.of_nat (ind_need addrs') <=
       Z.of_nat (nfree g m') + Z.of_nat (ind_need (i_addrs nd)) + (if tot <? n then top - off / BSIZE else 0) ->
     Q (off + (n - tot)) s') ->
  wpr R C (writei_loop fuel ip b off tot n) s Q.
Proof.
  revert nd off tot data s hs hi m. induction fuel as [|fuel IH];
    intros nd off tot data s hs hi m Htx Hm Hnd Hip Hdev Hf Hoff Htot Hmax Hfuel Hsrc Hbytes top
      Hlo Hhi Hhi' Hlog Hlen Hfree HC HQ; cbn [writei_loop].
  all: pose proof (Z.mod_pos_bound off BSIZE ltac:(done)) as Hmod;
    pose proof (Z.div_mod off BSIZE ltac:(done)) as Hdiv.
  all: destruct (Z.ltb_spec tot n) as [Hlt|Hge]; cbn [negb].
  1: { specialize (Hfuel Hlt). lia. }
  1, 3: apply wpr_ret; apply (writei_end ip nd b off tot n data s hs hs0 lo hi m k); try done; lia.
  specialize (Hfuel Hlt). specialize (Hlen Hlt). specialize (Hfree Hlt). specialize (Hhi' Hlt).
  destruct (chunk_range off (n - tot) ltac:(lia)) as (Hc1 & Hc2 & Hc3).
  set (c := Z.min (n - tot) (BSIZE - off mod BSIZE)) in *.
  destruct (top_bounds off (n - tot) Hoff ltac:(lia) Hmax) as [Ht1 Ht2]. fold top in Ht1, Ht2.
  replace (n - tot) with (c + (n - tot - c)) in Hsrc by lia.
  destruct (src_mem_split b (cur_pgdir s) (k_mem s) tot c (n - tot - c) data) as [Hs1 Hs2]; [lia..|done|].
  pose proof (src_mem_length b _ _ tot c _ ltac:(lia) ltac:(lia) Hs1) as Hl1.
  set (d1 := take (Z.to_nat c) data) in *. set (d2 := drop (Z.to_nat c) data) in *.
  assert (Hb12 : bytes_ok d1 /\ bytes_ok d2) by (split; [by apply Forall_take|by apply Forall_drop]).
  assert (Hlh : Z.of_nat (length hs) <= Z.of_nat (length hs0) + 2 + (hi - lo))
    by (apply (logs_length g hs0 (i_addrs nd) m); [lia|apply Htx|done]).
  eapply (writei_chunk ip nd b off tot c d1 s hs m k); try done; try lia.
  { apply Hb12. }
  { unfold room. rewrite map_size_empty. lia. }
  intros s1 addrs1 m1 hs1 a T1 R1 W1 Hl Ha Hn.
  destruct (fs_rel_inode ip _ s s1 R1 Hip) as [E1 L1]. destruct (fs_rel_fields _ _ R1) as (F1 & F2 & _).
  set (nd1 := nd <| i_addrs := addrs1 |>) in *.
  assert (Hl1' : Z.of_nat (length d1) = c) by lia.
  assert (Hdata : data = d1 ++ d2) by (symmetry; apply take_drop).
  assert (Hrem : n - (tot + c) = n - tot - c) by lia.
  assert (Htop : (off + c + (n - tot - c) + 511) / 512 = top) by (unfold top; f_equal; lia).
  pose proof (logs_step g hs0 (i_addrs nd) m addrs1 m1 lo (off / BSIZE) a hs hs1
    ltac:(lia) ltac:(lia) (logs_mono _ _ _ _ _ _ _ _ _ _ (proj1 Hlo) Hhi' ltac:(lia) Hlog (fun _ _ _ => eq_refl))
    Hl (wr_old _ _ _ _ _ _ _ W1) eq_refl Ha) as Hlog1.
  assert (Hnext : tot + c < n -> (off + c) / BSIZE = off / BSIZE + 1).
  { intros Hc. specialize (Hc3 ltac:(lia)).
    pose proof (Z.div_mod (off + c) BSIZE ltac:(done)). unfold BSIZE in *. lia. }
  eapply (IH nd1 (off + c) (tot + c) d2 s1 _ (off / BSIZE + 1) m1); rewrite ?Hrem, ?Htop; try done; try lia.
  - apply W1.
  - apply W1.
  - by rewrite F1, F2.
  - apply Hb12.
  - intros Hc. rewrite (Hnext Hc). change (i_addrs nd1) with addrs1. lia.
  - intros s' addrs' m' hs' T' R' W' L' N'. replace (off + c + (n - tot - c)) with (off + (n - tot)) by lia.
    eapply (HQ s' addrs' m' hs' T'); [by eapply fs_rel_put_trans| |done|].
    2: { change (i_addrs nd1) with addrs1 in N'.
         destruct (Z.ltb_spec (tot + c) n) as [Hc|Hc]; [rewrite (Hnext Hc) in N'|]; lia. }
    rewrite Hdata. eapply written_trans; [done|done|exact W1|by rewrite Hl1'|].
    rewrite Hl1'. intros Hne. apply Hc3. destruct (decide (c < n - tot)) as [|Hc]; [done|].
    destruct Hne. apply length_zero_iff_nil.
    rewrite (src_mem_length b _ _ (tot + c) (n - tot - c) d2 ltac:(lia) ltac:(lia) Hs2). lia.
Qed.
End writei.

(** ** Files *)

(** The contents of a file. *)
Definition fcontents (m : Z -> list Z) (nd : inode) : list Z := fbytes (i_addrs nd) m 0 (i_size nd).

(** Block [x] belongs to the file. *)
Definition owns (m : Z -> list Z) (nd : inode) (x : Z) : Prop :=
  x <> 0 /\ exists j, 0 <= j <= IND /\ slot (i_addrs nd) m j = x.

(** Files whose blocks do not change are the same. *)
Lemma slot_frame (m m' : Z -> list Z) addrs :
  (ad addrs 12 <> 0 -> m' (ad addrs 12) = m (ad addrs 12)) -> forall j, slot addrs m' j = slot addrs m j.
Proof.
  intros H j. unfold slot. destruct (j <? NDIRECT); [done|]. destruct (j =? IND); [done|].
  destruct (Z.eqb_spec (ad addrs 12) 0); [done|]. by rewrite H.
Qed.

Lemma fbytes_frame m m' addrs off n :
  (forall p, off <= p < off + n -> fbyte addrs m' p = fbyte addrs m p) ->
  fbytes addrs m' off n = fbytes addrs m off n.
Proof.
  intros H. unfold fbytes. apply list_fmap_ext. intros j p Hp. apply H.
  apply list_elem_of_lookup_2 in Hp. apply elem_of_seqZ in Hp. lia.
Qed.

Lemma file_frame g m m' nd :
  file_data g m nd ->
  (forall x, owns m nd x -> m' x = m x) -> (forall x, owns m nd x -> used g m' x = true) ->
  file_data g m' nd /\ fcontents m' nd = fcontents m nd /\ (forall j, slot (i_addrs nd) m' j = slot (i_addrs nd) m j).
Proof.
  intros [H1 H2 H3 H4 H5] Hsame Hused. destruct H3 as [F1 F2 F3].
  assert (Hs : forall j, slot (i_addrs nd) m' j = slot (i_addrs nd) m j).
  { apply slot_frame. intros Ha. apply Hsame. split; [done|]. exists IND. split; [unfold IND; lia|done]. }
  split_and!; [split; try done|..|done].
  - split; [done|..].
    + intros j Hj. rewrite Hs. intros Hne. split; [by apply F2|]. apply Hused. split; [done|]. by exists j.
    + intros j j' Hj Hj'. rewrite !Hs. by apply F3.
  - intros j Hj Hz. rewrite Hs. by apply H5.
  - apply fbytes_frame. intros p Hp. unfold fbyte. rewrite Hs. f_equal. apply Hsame.
    assert (Hr : 0 <= p / BSIZE < IND) by (apply slot_range; lia). split; [|by exists (p / BSIZE); split; [lia|]].
    apply H5; [lia|]. pose proof (Z.div_mod p BSIZE ltac:(done)). pose proof (Z.mod_pos_bound p BSIZE ltac:(done)). lia.
Qed.

(** ** [writei] *)

(** The number of blocks that [n] bytes at [off] lie in, counting the one of
    [off] itself. *)
Definition nblocks_at (off n : Z) : Z := (off + n + 511) / 512 - off / BSIZE.

Record file_written (g : geom) (off : Z) (data : list Z) (nd : inode) (m : Z -> list Z) (nd' : inode)
    (m' : Z -> list Z) : Prop := {
  fw_inode : nd' = nd <| i_addrs := i_addrs nd' |>
                      <| i_size := Z.max (i_size nd) (off + Z.of_nat (length data)) |>;
  fw_data : file_data g m' nd';
  fw_fits : inode_fits nd';
  fw_fs : fs_ok g m';
  fw_contents : fcontents m' nd' = splice (fcontents m nd) (Z.to_nat off) data;
  fw_synced : dfields (dinode_of m (i_inum nd)) = dfields nd ->
    dfields (dinode_of m' (i_inum nd)) = dfields nd';
  fw_dinodes : forall inum, 0 <= inum < g_ninodes g -> inum <> i_inum nd ->
    dfields (dinode_of m' inum) = dfields (dinode_of m inum);
  fw_others : forall nd2, file_data g m nd2 -> (forall x, owns m nd x -> owns m nd2 x -> False) ->
    file_data g m' nd2 /\ fcontents m' nd2 = fcontents m nd2 /\
    (forall x, owns m' nd2 x -> owns m nd2 x) /\ (forall x, owns m' nd' x -> owns m' nd2 x -> False);
  fw_free : Z.of_nat (nfree g m) + Z.of_nat (ind_need (i_addrs nd')) <=
    Z.of_nat (nfree g m') + Z.of_nat (ind_need (i_addrs nd)) + nblocks_at off (Z.of_nat (length data));
}.

Lemma lookup_splice l o d j :
  (o <= length l)%nat ->
  splice l o d !! j = if decide (o <= j < o + length d)%nat then d !! (j - o)%nat else l !! j.
Proof.
  intros H. unfold splice. case_decide as Hj.
  - rewrite lookup_app_r; rewrite length_take; [|lia]. rewrite Nat.min_l by lia. by rewrite lookup_app_l by lia.
  - destruct (decide (j < o)%nat).
    + rewrite lookup_app_l by (rewrite length_take; lia). by rewrite lookup_take_lt.
    + rewrite lookup_app_r; rewrite length_take; [|lia]. rewrite Nat.min_l by lia.
      rewrite lookup_app_r by lia. rewrite lookup_drop. f_equal. lia.
Qed.

Lemma lookup_fbytes addrs m n j :
  fbytes addrs m 0 n !! j = if decide (Z.of_nat j < n) then Some (fbyte addrs m (Z.of_nat j)) else None.
Proof.
  unfold fbytes. rewrite list_lookup_fmap. case_decide.
  - rewrite lookup_seqZ_lt by lia. done.
  - rewrite lookup_seqZ_ge by lia. done.
Qed.

Section written.
Context (g : geom) (Hg : geom_ok g) (off : Z) (data : list Z) (nd : inode) (m : Z -> list Z).
Context (Hm : fs_ok g m) (Hf : file_data g m nd) (Hfits : inode_fits nd).
Context (Hinum : 0 <= i_inum nd < g_ninodes g).
Context (Hoff : 0 <= off <= i_size nd) (Hmax : off + Z.of_nat (length data) <= MAXFILE * BSIZE).
Context (addrs' : list Z) (m1 : Z -> list Z) (W : written g off data (i_addrs nd) m addrs' m1).
Context (Hcost : Z.of_nat (nfree g m) + Z.of_nat (ind_need addrs') <=
  Z.of_nat (nfree g m1) + Z.of_nat (ind_need (i_addrs nd)) + nblocks_at off (Z.of_nat (length data))).

Abbreviation len := (Z.of_nat (length data)).
Abbreviation nd1 := (nd <| i_addrs := addrs' |> <| i_size := Z.max (i_size nd) (off + len) |>).

Lemma old_slot p : 0 <= p < i_size nd -> slot (i_addrs nd) m (p / BSIZE) <> 0.
Proof.
  intros Hp. apply (fd_there _ _ _ Hf); [apply Z.div_pos; [lia|done]|].
  pose proof (Z.div_mod p BSIZE ltac:(done)). pose proof (Z.mod_pos_bound p BSIZE ltac:(done)). lia.
Qed.

Lemma new_slot p : 0 <= p < Z.max (i_size nd) (off + len) -> slot addrs' m1 (p / BSIZE) <> 0.
Proof.
  intros Hp. pose proof (fd_size _ _ _ Hf). assert (Hr : 0 <= p / BSIZE < IND) by (apply slot_range; lia).
  destruct (decide (p < i_size nd)) as [H1|H1].
  - rewrite (wr_old _ _ _ _ _ _ _ W); [|lia|]; apply old_slot; lia.
  - apply (wr_there _ _ _ _ _ _ _ W); [done|]. apply spans_byte. lia.
Qed.

Lemma written_contents : fcontents m1 nd1 = splice (fcontents m nd) (Z.to_nat off) data.
Proof.
  pose proof (fd_size _ _ _ Hf). apply list_eq. intros j. unfold fcontents.
  rewrite lookup_splice by (rewrite length_fbytes; lia). cbn [update i_size i_addrs].
  rewrite !lookup_fbytes. case_decide as H1.
  - rewrite (wr_bytes _ _ _ _ _ _ _ W) by (lia || (apply new_slot; lia)). case_decide as H2.
    + rewrite decide_True by lia.
      destruct (lookup_lt_is_Some_2 data (Z.to_nat (Z.of_nat j - off))) as [x Hx]; [lia|]. rewrite Hx.
      replace (j - Z.to_nat off)%nat with (Z.to_nat (Z.of_nat j - off)) by lia. done.
    + rewrite (decide_False (P := (Z.to_nat off <= j < Z.to_nat off + length data)%nat)) by lia.
      rewrite (decide_True (P := Z.of_nat j < i_size nd)) by lia.
      rewrite decide_False; [done|]. apply old_slot. lia.
  - rewrite (decide_False (P := (Z.to_nat off <= j < Z.to_nat off + length data)%nat)) by lia.
    by rewrite decide_False by lia.
Qed.

Lemma written_data : file_data g m1 nd1.
Proof.
  pose proof (fd_size _ _ _ Hf). split; cbn [update i_dev i_type i_size i_addrs].
  - apply Hf.
  - apply Hf.
  - apply W.
  - lia.
  - intros j Hj Hz. assert (E : j = j * BSIZE / BSIZE) by (symmetry; by apply Z.div_mul).
    rewrite E. apply new_slot. unfold BSIZE in *. lia.
Qed.

Lemma written_fits : inode_fits nd1.
Proof.
  destruct Hfits as [F1 F2 F3 F4 F5 F6 F7]. pose proof (wr_file _ _ _ _ _ _ _ W) as Hf1.
  pose proof (fd_size _ _ _ Hf) as Hsz. pose proof (go_log g Hg). pose proof (go_size g Hg).
  pose proof (bitmap_range g Hg).
  split; cbn [update i_type i_major i_minor i_nlink i_size i_addrs]; try done.
  - change (MAXFILE * BSIZE) with 71680 in *. unfold is_u32. lia.
  - apply Hf1.
  - apply Forall_lookup_2. intros j a Ha.
    assert (Hj : (j < 13)%nat) by (rewrite <- (fo_len _ _ _ Hf1); by eapply lookup_lt_Some).
    set (x := if decide (j = 12%nat) then IND else Z.of_nat j).
    assert (Ex : slot addrs' m1 x = a).
    { unfold x, slot. case_decide.
      - subst j. simpl. unfold ad. by rewrite Ha.
      - unfold NDIRECT. destruct (Z.ltb_spec (Z.of_nat j) 12); [|lia]. unfold ad. by rewrite Nat2Z.id, Ha. }
    destruct (decide (a = 0)) as [->|Hne]; [unfold is_u32; lia|].
    destruct (fo_block _ _ _ Hf1 x) as [Hd _]; [unfold x, IND; case_decide; lia|congruence|].
    unfold is_u32, FSSIZE, data_start in *. lia.
Qed.

(** Blocks that are in use and not the file's. *)
Lemma written_other x :
  0 < x -> used g m x = true -> x <> bitmap_block g -> ~ owns m nd x -> m1 x = m x /\ ~ owns m1 nd1 x.
Proof.
  intros Hx Hu Hb Ho. assert (Hno : ~ owns m1 nd1 x).
  { intros [_ (j & Hj & Es)]. cbn [update i_addrs] in Es.
    destruct (decide (slot (i_addrs nd) m j = 0)) as [H0|H0].
    - pose proof (wr_fresh _ _ _ _ _ _ _ W j Hj H0 ltac:(rewrite Es; lia)) as Hf0. rewrite Es in Hf0. congruence.
    - apply Ho. split; [lia|]. exists j. split; [done|]. by rewrite <- (wr_old _ _ _ _ _ _ _ W). }
  split; [|done]. apply (wr_same _ _ _ _ _ _ _ W); [lia|done|done|].
  intros j Hj Es. destruct Hno. split; [lia|]. by exists j.
Qed.

Lemma owns_data nd2 x : file_data g m nd2 -> owns m nd2 x -> data_start g <= x < g_start g /\ used g m x = true.
Proof. intros [_ _ H _ _] [Hne (j & Hj & <-)]. by apply (fo_block _ _ _ H). Qed.

Lemma written_iblock inum : 0 <= inum < g_ninodes g -> m1 (IBLOCK inum) = m (IBLOCK inum).
Proof.
  intros H. pose proof (iblock_range g inum H) as Hr. pose proof (bitmap_range g Hg).
  apply written_other; [lia| |lia|].
  - apply (fk_meta g m Hm). unfold data_start. lia.
  - intros Ho%(owns_data nd); [|done]. unfold data_start in *. lia.
Qed.

Lemma written_others nd2 :
  file_data g m nd2 -> (forall x, owns m nd x -> owns m nd2 x -> False) ->
  file_data g m1 nd2 /\ fcontents m1 nd2 = fcontents m nd2 /\
  (forall x, owns m1 nd2 x -> owns m nd2 x) /\ (forall x, owns m1 nd1 x -> owns m1 nd2 x -> False).
Proof.
  intros H2 Hdis. pose proof (bitmap_range g Hg).
  assert (Hother : forall x, owns m nd2 x -> m1 x = m x /\ ~ owns m1 nd1 x /\ used g m1 x = true).
  { intros x Ho. destruct (owns_data nd2 x H2 Ho) as [Hd Hu]. unfold data_start in *.
    destruct (written_other x) as [H3 H4]; [lia|done|lia|intros Ho'; by eapply Hdis|].
    split_and!; [done..|]. apply (wr_used _ _ _ _ _ _ _ W); [lia|done]. }
  destruct (file_frame g m m1 nd2 H2) as (H3 & H4 & H5); [by apply Hother..|].
  assert (Hown : forall x, owns m1 nd2 x -> owns m nd2 x) by (intros x; unfold owns; by setoid_rewrite H5).
  split_and!; [done..|]. intros x Hx Hx2. by apply (Hother x); [apply Hown|].
Qed.

(** A file whose size does not change. *)
Lemma written_inside : off + len <= i_size nd -> file_written g off data nd m nd1 m1.
Proof.
  intros Hin. assert (Ea : addrs' = i_addrs nd).
  { apply (wr_addrs _ _ _ _ _ _ _ W). intros x Hx (Hl & _ & Hs). apply (fd_there _ _ _ Hf); lia. }
  assert (Es : Z.max (i_size nd) (off + len) = i_size nd) by lia. split.
  - done.
  - apply written_data.
  - apply written_fits.
  - apply W.
  - apply written_contents.
  - intros Hsync. unfold dinode_of in *. rewrite written_iblock by done. rewrite Hsync. unfold dfields.
    cbn [update i_type i_major i_minor i_nlink i_size i_addrs]. by rewrite Es, Ea.
  - intros inum H _. unfold dinode_of. by rewrite written_iblock.
  - intros nd2 H2 Hdis. by apply written_others.
  - exact Hcost.
Qed.

(** A file that grows: its inode is written too. *)
Lemma written_grow : file_written g off data nd m nd1 (inode_put m1 nd1).
Proof.
  assert (Hin1 : 0 <= i_inum nd1 < g_ninodes g) by exact Hinum.
  pose proof (iblock_range g _ Hin1) as Hr. pose proof (bitmap_range g Hg).
  assert (Hkeep : forall nd2, file_data g m1 nd2 ->
    file_data g (inode_put m1 nd1) nd2 /\ fcontents (inode_put m1 nd1) nd2 = fcontents m1 nd2 /\
    forall x, owns (inode_put m1 nd1) nd2 x -> owns m1 nd2 x).
  { intros nd2 H2. pose proof (fd_file _ _ _ H2) as Hf2.
    destruct (file_frame g m1 (inode_put m1 nd1) nd2 H2) as (? & ? & Hs);
      [| |split_and!; [done..|]; intros x [Hx (j & Hj & Ej)]; split; [done|]; exists j; by rewrite <- Hs];
      intros x [Hne (j & Hj & Ej)]; destruct (fo_block _ _ _ Hf2 j Hj ltac:(congruence)) as [Hd Hu]; rewrite Ej in *.
    - apply inode_put_other. unfold data_start in *. lia.
    - by rewrite inode_put_used. }
  split.
  - done.
  - apply Hkeep, written_data.
  - apply written_fits.
  - apply inode_put_fs; [done|apply W].
  - etransitivity; [apply Hkeep, written_data|apply written_contents].
  - intros _. rewrite (dinode_of_put g); [|done|done|apply written_fits|apply W]. by rewrite decide_True.
  - intros inum H1 Hne. rewrite (dinode_of_put g); [|done|done|apply written_fits|apply W].
    rewrite decide_False by done. unfold dinode_of. by rewrite written_iblock.
  - intros nd2 H2 Hdis. destruct (written_others nd2 H2 Hdis) as (H3 & H4 & H4' & H5).
    destruct (Hkeep nd2 H3) as (H6 & H7 & H8), (Hkeep nd1 written_data) as (_ & _ & H9).
    split_and!; [done|congruence|auto|]. intros x Hx1 Hx2. apply (H5 x); auto.
  - rewrite (nfree_same g m1 (inode_put m1 nd1)); [exact Hcost|]. apply inode_put_other. lia.
Qed.
End written.

Section write.
Context {E : Env} {i : nat} {R : kernel -> kernel -> Prop} {HD : Driver E i R}.
Context (g : geom) (Hg : geom_ok g) (C : kernel -> Prop).

Abbreviation start := (g_start g).

Lemma writei_txn ip nd b off n data s hs m k (Q : Z -> kernel -> Prop) :
  txn start i s ∅ hs m k -> fs_ok g m -> inode_at s ip = nd -> (ip < length (k_icache s))%nat ->
  file_data g m nd -> inode_fits nd -> 0 <= i_inum nd < g_ninodes g ->
  0 <= off <= i_size nd -> 0 <= n -> off + n <= MAXFILE * BSIZE ->
  src_mem b (cur_pgdir s) (k_mem s) 0 n = Some data -> bytes_ok data ->
  Z.of_nat (length hs) + nblocks_at off n <= 22 ->
  Z.of_nat (ind_need (i_addrs nd)) + nblocks_at off n <= Z.of_nat (nfree g m) ->
  (forall s1, k_disk s1 = k -> C s1) ->
  (forall s' nd' m' hs', txn start i s' ∅ hs' m' k -> fs_rel (put_inode ip nd' s) s' ->
     file_written g off data nd m nd' m' ->
     Z.of_nat (length hs') <= Z.of_nat (length hs) + nblocks_at off n + 3 -> Q n s') ->
  wpr R C (writei ip b off n) s Q.
Proof.
  intros Htx Hm Hnd Hip Hf Hfits Hinum Hoff Hn Hmax Hsrc Hbytes Hroom Hfree HC HQ.
  pose proof (fd_size _ _ _ Hf) as Hsz. change (MAXFILE * BSIZE) with 71680 in *.
  unfold writei. apply wpr_bind, wpr_gets. rewrite Hnd.
  destruct (Z.eqb_spec (i_type nd) T_DEV) as [H|_]; [by destruct (fd_type _ _ _ Hf)|].
  rewrite u32_id by (wrap_unfold; lia).
  destruct (Z.ltb_spec (i_size nd) off); [lia|]. destruct (Z.ltb_spec (off + n) off); [lia|]. cbn [orb].
  change (MAXFILE * BSIZE) with 71680. destruct (Z.ltb_spec 71680 (off + n)); [lia|]. apply wpr_bind.
  assert (Hlen : Z.of_nat (length data) = n).
  { pose proof (src_mem_length b (cur_pgdir s) (k_mem s) 0 n data ltac:(lia) Hn Hsrc). lia. }
  assert (Hdiv : 0 <= off / BSIZE <= (off + n + 511) / 512).
  { split; [apply Z.div_pos; [lia|done]|]. apply Z.div_le_mono; lia. }
  unfold nblocks_at in *.
  eapply (writei_loop_txn g Hg C _ ip nd b off 0 n data s hs hs (off / BSIZE) (off / BSIZE) m k);
    rewrite ?Z.sub_0_r; try done; try apply Hf; try lia.
  { intros _. pose proof (Z.mod_pos_bound off BSIZE ltac:(done)). pose proof (Z.div_mod n BSIZE ltac:(done)).
    pose proof (Z.mod_pos_bound n BSIZE ltac:(done)). pose proof (Z.div_pos n BSIZE ltac:(done) ltac:(done)).
    change BSIZE with 512 in *. lia. }
  { intros x Hx. by left. }
  intros s1 addrs' m1 hs1 T1 R1 W Hlog Hcost.
  pose proof (logs_length g hs addrs' m1 _ _ hs1 (proj2 Hdiv) (tx_nodup _ _ _ _ _ _ _ T1) Hlog) as Hl1.
  destruct (fs_rel_inode ip _ s s1 R1 Hip) as [E1 L1].
  apply wpr_bind, wpr_gets. rewrite E1. cbn [update i_size].
  assert (Hmax' : off + Z.of_nat (length data) <= MAXFILE * BSIZE)
    by (change (MAXFILE * BSIZE) with 71680; lia).
  rewrite (i32_id n) by (wrap_unfold; lia).
  set (nd1 := nd <| i_addrs := addrs' |> <| i_size := Z.max (i_size nd) (off + Z.of_nat (length data)) |>).
  assert (Hcost' : Z.of_nat (nfree g m) + Z.of_nat (ind_need addrs') <=
    Z.of_nat (nfree g m1) + Z.of_nat (ind_need (i_addrs nd)) + nblocks_at off (Z.of_nat (length data))).
  { unfold nblocks_at. rewrite Hlen. destruct (0 <? n); lia. }
  destruct (decide (off + n <= i_size nd)) as [Hin|Hgrow].
  - destruct (Z.ltb_spec (i_size nd) (off + n)); [lia|]. rewrite andb_false_r. cbn [when].
    apply wpr_bind, wpr_ret, wpr_ret. eapply (HQ s1 nd1 m1 hs1); [done| |by apply written_inside; try lia|lia].
    replace nd1 with (nd <| i_addrs := addrs' |>); [done|].
    unfold nd1. rewrite Hlen, Z.max_l by done. by destruct nd.
  - destruct (Z.ltb_spec 0 n); [|lia]. destruct (Z.ltb_spec (i_size nd) (off + n)); [|lia]. cbn [andb when].
    apply wpr_bind. eapply wpr_step; [apply set_inode_put|]. rewrite E1.
    replace ((nd <| i_addrs := addrs' |>) <| i_size := off + n |>) with nd1
      by (unfold nd1; rewrite Hlen, Z.max_r by lia; done).
    eapply (iupdate_txn g Hg C ip nd1 _ hs1 m1 k); try done.
    + by apply txn_inode.
    + apply inode_at_put. by rewrite L1.
    + apply Hf.
    + unfold room. rewrite map_size_empty. lia.
    + intros s2 T2 R2. apply wpr_ret. pose proof (length_log_add (IBLOCK (i_inum nd1)) hs1).
      eapply (HQ s2 nd1 (inode_put m1 nd1)); [done|by eapply fs_rel_put_trans|by apply written_grow|lia].
Qed.
End write.
