(* ===== verification/OpSpec.v ===== *)
(** The frame of a file system call: [begin_op] and [end_op] around a
    transaction, [ilock] and [iunlock] around the use of an inode. *)
From S2P Require Import Prelude Memory Kernel CString Spinlock Console Sched Ide Bytes Bio.
From S2P Require Import Log Inode Vm Umem Tty Fs.
From S2P Require Import Crash Wait Driver BioSpec LogSpec Txn Balloc InodeSpec DinodeSpec DataSpec.

(** ** Critical sections *)

Lemma ready_idle i s l : ready i s -> fs_lock l -> idle l s.
Proof. intros H Hl. split_and!; [apply H..|by apply H]. Qed.

Lemma ready_unlocked i s l : ready i s -> fs_lock l -> unlocked_run i l s.
Proof.
  intros H Hl. split; [by eapply ready_idle| |apply H..]. apply H. unfold fs_lock. tauto.
Qed.

(** [acquire], changes that involve neither CPUs nor locks, [release]. *)
Lemma section_end i s l s1 :
  ready i s1 -> fs_lock l -> s = acquired l s1 -> release l s = Ok tt (settled s1).
Proof.
  intros H Hl ->. apply (release_acquired 0); [by eapply ready_cpu_ok|done|by apply H].
Qed.

Lemma txn_settled start i s held hs m k :
  txn start i s held hs m k -> txn start i (settled s) held hs m k.
Proof. intros [H1 H2 H3 H4]. split; try done. by apply fs_view_settled. Qed.

Lemma fs_rel_settled i s : ready i s -> fs_rel s (settled s).
Proof. intros H. split; [done|]. by apply cr3_settled, (ready_cpu_ok i). Qed.

Lemma txn_ready start i s held hs m k : txn start i s held hs m k -> ready i s.
Proof. intros [H _ _ _]. apply H. Qed.

(** Waking processes. *)
Definition woken (chan : channel) (s : kernel) : kernel := s <| k_ptable ::= fmap (wake_proc chan) |>.

Lemma fs_view_woken i s held dirty m k chan :
  fs_view i s held dirty m k -> fs_view i (woken chan s) held dirty m k.
Proof.
  intros [G1 [G2 G3 G4 G5] G6 G7]. split; try done.
  - eapply ready_ext; try done. simpl. by rewrite length_fmap.
  - split; try done. destruct G2 as [l G2]. exists l. by apply (cache_inv_bcache s).
Qed.

Lemma txn_woken start i s held hs m k chan :
  txn start i s held hs m k -> txn start i (woken chan s) held hs m k.
Proof. intros [H1 H2 H3 H4]. split; try done. by apply fs_view_woken. Qed.

Lemma fs_rel_woken s chan : fs_rel s (woken chan s).
Proof. done. Qed.

Lemma wakeup_section i s l chan :
  ready i s -> fs_lock l -> l <> L_ptable ->
  wakeup chan (acquired l s) = Ok tt (acquired l (woken chan s)).
Proof.
  intros H Hl Hne. destruct (acquire_run i l s Hne (ready_unlocked i s l H Hl)) as (_ & Ha & _).
  by apply (wakeup_awake i l).
Qed.

(** ** [begin_op] and [end_op] *)

(** The log with [n] calls in progress. *)
Definition calls (n : Z) (s : kernel) : kernel :=
  s <| k_log := (k_log s) <| lg_outstanding := n |> |>.

Lemma fs_rel_calls n s s' : fs_rel s s' -> fs_rel (calls n s) (calls n s').
Proof.
  intros [H G]. split; [|exact G].
  exact (f_equal (fun t => t <| k_log := (k_log t) <| lg_outstanding := n |> |>) H).
Qed.

(** The log without its entries. *)
Definition log_frame (g : log) : log := g <| lg_n := 0 |> <| lg_block := [] |>.

Lemma fs_rel_with_log s s' a b a' b' :
  fs_rel (s <| k_log := a |>) (s' <| k_log := b |>) -> log_frame b' = log_frame a' ->
  fs_rel (s <| k_log := a' |>) (s' <| k_log := b' |>).
Proof.
  intros [H G] E. split; [|exact G].
  change (stable (s' <| k_log := b' |>)) with ((stable (s' <| k_log := b |>)) <| k_log := log_frame b' |>).
  rewrite H, E. reflexivity.
Qed.

Lemma fs_rel_log s s' :
  fs_rel s s' -> lg_outstanding (k_log s') = lg_outstanding (k_log s) /\
    lg_committing (k_log s') = lg_committing (k_log s).
Proof.
  intros [H _]. split; [exact (f_equal (fun t => lg_outstanding (k_log t)) H)|].
  exact (f_equal (fun t => lg_committing (k_log t)) H).
Qed.

Lemma calls_same n s : lg_outstanding (k_log s) = n -> calls n s = s.
Proof. intros <-. unfold calls, update. destruct s as []. simpl. by destruct k_log. Qed.

(** The transaction after a change of the log that concerns neither its entries
    nor its place. *)
Lemma txn_log start i s held hs m k g :
  txn start i s held hs m k -> log_ok g hs -> lg_start g = start ->
  txn start i (s <| k_log := g |>) held hs m k.
Proof. intros [H1 H2 H3 H4] Hg Hs. split; try done. by apply fs_view_log. Qed.

Lemma txn_calls start i s held hs m k n :
  txn start i s held hs m k -> txn start i (calls n s) held hs m k.
Proof. intros H. pose proof H as [_ [] _ ?]. by apply txn_log. Qed.

(** Process [i] runs and no file system call is in progress: the blocks are
    [m], and so is the disk [k] outside the log, which is empty. *)
Record at_rest (start : Z) (i : nat) (s : kernel) (m : Z -> list Z) (k : gmap (Z * Z) (list Z)) : Prop := {
  ar_txn : txn start i s ∅ [] m k;
  ar_calls : lg_outstanding (k_log s) = 0;
  ar_idle : lg_committing (k_log s) = 0;
  ar_empty : log_empty start k;
}.

Lemma begin_op_rest `{Env} start i s m k :
  at_rest start i s m k ->
  exists s', begin_op s = Ok tt s' /\ txn start i s' ∅ [] m k /\ fs_rel (calls 1 s) s'.
Proof.
  intros [Htx Hc Hi _]. pose proof (txn_ready _ _ _ _ _ _ _ Htx) as Hr.
  assert (Hl : fs_lock L_log) by (unfold fs_lock; tauto).
  assert (Hr1 : ready i (calls 1 s)) by (by eapply ready_ext).
  exists (settled (calls 1 s)). split_and!.
  - unfold begin_op. rewrite (bind_ok _ _ _ _ _ (acquire_idle L_log s (ready_idle i s _ Hr Hl))).
    assert (Hfull : log_full (acquired L_log s) = Ok false (acquired L_log s)).
    { unfold log_full, gets. change (k_log (acquired L_log s)) with (k_log s).
      rewrite Hi, Hc, (lo_n _ _ (tx_log _ _ _ _ _ _ _ Htx)). reflexivity. }
    assert (Hwait : sleep_while wakeups log_full Ch_log L_log (acquired L_log s) = Ok tt (acquired L_log s)).
    { destruct wakeups; cbn [sleep_while]; by rewrite (bind_ok _ _ _ _ _ Hfull). }
    rewrite (bind_ok _ _ _ _ _ Hwait). cbv beta.
    erewrite (bind_ok (modify _) _ (acquired L_log s)); [|reflexivity].
    apply (section_end i); [done|done|]. rewrite (set_log _ ((k_log s) <| lg_outstanding := 1 |>)); [done|].
    change (k_log (acquired L_log s)) with (k_log s). unfold update. by rewrite Hc.
  - by apply txn_settled, txn_calls.
  - by apply (fs_rel_settled i).
Qed.

Section end_op.
Context {E : Env} {i : nat} {R : kernel -> kernel -> Prop} {HD : Driver E i R}.
Context (start : Z).

(** The end of the only call in progress commits it. *)
Lemma end_op_wp s hs m k (Q : unit -> kernel -> Prop) :
  txn start i s ∅ hs m k -> lg_outstanding (k_log s) = 1 -> lg_committing (k_log s) = 0 ->
  log_empty start k ->
  (forall s' m' k', at_rest start i s' m' k' -> fs_rel (calls 0 s) s' ->
     (forall b, ~ in_log_area start b -> m' b = m b) -> Q tt s') ->
  wpr R (old_or_new start k m) end_op s Q.
Proof.
  intros Htx Hc Hi He HQ. pose proof (txn_ready _ _ _ _ _ _ _ Htx) as Hr.
  assert (Hl : fs_lock L_log) by (unfold fs_lock; tauto).
  set (g1 := (k_log s) <| lg_outstanding := 0 |> <| lg_committing := 1 |>).
  assert (Hg1 : log_ok g1 hs /\ lg_start g1 = start) by (pose proof Htx as [_ [] _ ?]; by split).
  set (s1 := s <| k_log := g1 |>).
  assert (T1 : txn start i s1 ∅ hs m k) by (apply txn_log; [done|apply Hg1..]).
  pose proof (txn_ready _ _ _ _ _ _ _ T1) as Hr1.
  unfold end_op. eapply wpr_step; [apply (acquire_idle L_log s (ready_idle i s _ Hr Hl))|].
  apply wpr_bind, wpr_modify, wpr_bind, wpr_gets. change (k_log (acquired L_log s)) with (k_log s).
  rewrite (set_log _ ((k_log s) <| lg_outstanding := 0 |>)).
  2: { change (k_log (acquired L_log s)) with (k_log s). unfold update. by rewrite Hc. }
  change (k_log (_ <| k_log := ?g |>)) with g. change (lg_committing (_ <| _ := _ |>)) with (lg_committing (k_log s)).
  rewrite Hi. change (c_true 0) with false. change (lg_outstanding (_ <| _ := _ |>) =? 0) with true.
  cbv zeta iota. apply wpr_bind, wpr_modify. eapply wpr_step.
  { apply (section_end i _ L_log s1 Hr1 Hl). reflexivity. }
  cbn [when]. apply wpr_bind.
  pose proof (txn_settled _ _ _ _ _ _ _ T1) as [V1 L1 N1 S1].
  pose proof (commit_wp (HD:=HD) g1 hs (settled s1) m k V1 eq_refl (proj1 Hg1) N1) as Hw.
  rewrite (proj2 Hg1) in Hw. eapply wpr_mono; [exact (Hw He)|].
  intros _ s2 (m' & k' & V2 & L2 & Hio & He' & Hd).
  assert (T2 : txn start i s2 ∅ [] m' k').
  { split; [done|rewrite L2; by eapply log_ok_cleared, Hg1|constructor|rewrite L2; apply Hg1]. }
  set (g3 := (k_log s2) <| lg_committing := 0 |>).
  assert (Hg3 : log_ok g3 [] /\ lg_start g3 = start) by (pose proof T2 as [_ [] _ ?]; by split).
  assert (T3 : txn start i (s2 <| k_log := g3 |>) ∅ [] m' k') by (apply txn_log; [done|apply Hg3..]).
  pose proof (txn_woken _ _ _ _ _ _ _ Ch_log T3) as T4.
  eapply wpr_step; [apply (acquire_idle L_log s2 (ready_idle i s2 _ (txn_ready _ _ _ _ _ _ _ T2) Hl))|].
  apply wpr_bind, wpr_modify. eapply wpr_step.
  { apply (wakeup_section i _ L_log Ch_log (txn_ready _ _ _ _ _ _ _ T3) Hl). done. }
  eapply wpr_ok; [by apply (section_end i _ L_log _ (txn_ready _ _ _ _ _ _ _ T4) Hl)|].
  apply (HQ _ m' k').
  - split; [by apply txn_settled| |done|done].
    change (lg_outstanding (k_log s2) = 0). by rewrite L2.
  - eapply fs_rel_trans; [|by apply (fs_rel_settled i), (txn_ready _ _ _ _ _ _ _ T4)].
    eapply fs_rel_trans; [|apply fs_rel_woken]. apply (fs_rel_with_log s s2 g1 g1).
    + eapply fs_rel_trans; [by apply (fs_rel_settled i)|by apply io_fs_rel].
    + unfold g3. rewrite L2. unfold log_frame, g1, update. simpl. by rewrite Hi.
  - intros b Hb. rewrite <- (Hd b Hb). apply (view_clean (i:=i) s2 [] m' k' b V2). apply not_elem_of_nil.
Qed.
End end_op.

(** ** [ilock] and [iunlock] *)

Lemma iflag_set nd a c :
  0 <= a -> 0 <= c ->
  iflag (nd <| i_flags := Z.lor (i_flags nd) (2 ^ a) |>) (2 ^ c) = (a =? c) || iflag nd (2 ^ c).
Proof.
  intros Ha Hc. unfold iflag. simpl. rewrite !has_bits_bit by done.
  rewrite Z.lor_spec, Z.pow2_bits_eqb by done. apply orb_comm.
Qed.

Lemma iflag_clear nd a c :
  0 <= a -> 0 <= c ->
  iflag (nd <| i_flags := Z.land (i_flags nd) (Z.lnot (2 ^ a)) |>) (2 ^ c) = negb (a =? c) && iflag nd (2 ^ c).
Proof.
  intros Ha Hc. unfold iflag. simpl. rewrite !has_bits_bit by done.
  rewrite Z.land_spec, Z.lnot_spec, Z.pow2_bits_eqb by done. apply andb_comm.
Qed.

(** Inode [ip] of the cache is in use, unlocked, and the inode [inum] of the
    blocks [m], if it has been read. *)
Record cached_inode (g : geom) (m : Z -> list Z) (inum : Z) (nd : inode) : Prop := {
  cn_dev : i_dev nd = ROOTDEV;
  cn_inum : i_inum nd = inum;
  cn_range : 0 <= inum < g_ninodes g;
  cn_ref : 1 <= i_ref nd;
  cn_unlocked : iflag nd I_BUSY = false;
  cn_synced : iflag nd I_VALID = true -> dfields nd = dfields (dinode_of m inum);
}.

(** The same inode, locked and read. *)
Record locked_inode (g : geom) (m : Z -> list Z) (inum : Z) (nd : inode) : Prop := {
  ln_dev : i_dev nd = ROOTDEV;
  ln_inum : i_inum nd = inum;
  ln_range : 0 <= inum < g_ninodes g;
  ln_ref : 1 <= i_ref nd;
  ln_locked : iflag nd I_BUSY = true;
  ln_valid : iflag nd I_VALID = true;
  ln_synced : dfields nd = dfields (dinode_of m inum);
}.

Lemma iunlock_txn start i ip nd s hs m k :
  txn start i s ∅ hs m k -> inode_at s ip = nd -> iflag nd I_BUSY = true -> 1 <= i_ref nd ->
  exists s', iunlock ip s = Ok tt s' /\ txn start i s' ∅ hs m k /\
    fs_rel (put_inode ip (nd <| i_flags := Z.land (i_flags nd) (Z.lnot I_BUSY) |>) s) s'.
Proof.
  intros Htx Hnd Hb Href. pose proof (txn_ready _ _ _ _ _ _ _ Htx) as Hr.
  assert (Hl : fs_lock L_icache) by (unfold fs_lock; tauto).
  set (nd' := nd <| i_flags := _ |>).
  pose proof (txn_inode _ _ _ _ _ _ _ ip nd' Htx) as T1.
  pose proof (txn_woken _ _ _ _ _ _ _ (Ch_inode ip) T1) as T2.
  eexists. split_and!.
  - unfold iunlock. rewrite (bind_ok (gets _) _ s nd s) by (unfold gets; by rewrite Hnd).
    rewrite Hb. destruct (Z.ltb_spec (i_ref nd) 1); [lia|]. cbn [negb orb].
    rewrite (bind_ok _ _ _ _ _ (acquire_idle L_icache s (ready_idle i s _ Hr Hl))).
    rewrite (bind_ok _ _ _ _ _ (set_inode_put ip _ (acquired L_icache s))).
    change (inode_at (acquired L_icache s) ip) with (inode_at s ip). rewrite Hnd.
    rewrite (bind_ok _ _ _ _ _ (wakeup_section i _ L_icache (Ch_inode ip) (txn_ready _ _ _ _ _ _ _ T1) Hl ltac:(done))).
    by apply (section_end i _ L_icache _ (txn_ready _ _ _ _ _ _ _ T2) Hl).
  - by apply txn_settled.
  - eapply fs_rel_trans; [apply fs_rel_woken|]. by apply (fs_rel_settled i), (txn_ready _ _ _ _ _ _ _ T2).
Qed.

Section ilock.
Context {E : Env} {i : nat} {R : kernel -> kernel -> Prop} {HD : Driver E i R}.
Context (g : geom) (Hg : geom_ok g) (C : kernel -> Prop).

Abbreviation start := (g_start g).

(** The first half: the lock is taken. *)
Lemma ilock_enter {A} ip nd s hs m k (rest : K A) Q :
  txn start i s ∅ hs m k -> inode_at s ip = nd -> iflag nd I_BUSY = false ->
  let nd' := nd <| i_flags := Z.lor (i_flags nd) I_BUSY |> in
  (forall s', txn start i s' ∅ hs m k -> fs_rel (put_inode ip nd' s) s' -> wpr R C rest s' Q) ->
  wpr R C (acquire L_icache;;
    sleep_while wakeups (gets (fun s => iflag (inode_at s ip) I_BUSY)) (Ch_inode ip) L_icache;;
    set_inode ip (fun ip => ip <| i_flags ::= fun f => Z.lor f I_BUSY |>);;
    release L_icache;;
    rest) s Q.
Proof.
  intros Htx Hnd Hb nd' HQ. pose proof (txn_ready _ _ _ _ _ _ _ Htx) as Hr.
  assert (Hl : fs_lock L_icache) by (unfold fs_lock; tauto).
  pose proof (txn_inode _ _ _ _ _ _ _ ip nd' Htx) as T1.
  eapply wpr_step; [apply (acquire_idle L_icache s (ready_idle i s _ Hr Hl))|].
  assert (Hcond : gets (fun s => iflag (inode_at s ip) I_BUSY) (acquired L_icache s) = Ok false (acquired L_icache s)).
  { unfold gets. change (inode_at (acquired L_icache s) ip) with (inode_at s ip). by rewrite Hnd, Hb. }
  eapply (wpr_step _ _ (sleep_while _ _ _ _)).
  { destruct wakeups; cbn [sleep_while]; by rewrite (bind_ok _ _ _ _ _ Hcond). }
  eapply wpr_step; [apply set_inode_put|].
  change (inode_at (acquired L_icache s) ip) with (inode_at s ip). rewrite Hnd.
  eapply wpr_step; [by apply (section_end i _ L_icache _ (txn_ready _ _ _ _ _ _ _ T1) Hl)|].
  apply HQ; [by apply txn_settled|]. by apply (fs_rel_settled i), (txn_ready _ _ _ _ _ _ _ T1).
Qed.

Lemma ilock_txn ip nd inum s hs m k (Q : unit -> kernel -> Prop) :
  txn start i s ∅ hs m k -> inode_at s ip = nd -> (ip < length (k_icache s))%nat ->
  cached_inode g m inum nd -> i_type (dinode_of m inum) <> 0 -> room ∅ hs 0 ->
  (forall s1, k_disk s1 = k -> C s1) ->
  (forall s' nd', txn start i s' ∅ hs m k -> fs_rel (put_inode ip nd' s) s' ->
     locked_inode g m inum nd' -> Q tt s') ->
  wpr R C (ilock ip) s Q.
Proof.
  intros Htx Hnd Hip [N1 N2 N3 N4 N5 N6] Hty Hroom HC HQ.
  unfold ilock. apply wpr_bind, wpr_gets. rewrite Hnd.
  destruct (Z.ltb_spec (i_ref nd) 1); [lia|].
  apply (ilock_enter ip nd s hs m k); [done..|]. intros s1 T1 R1. set (nd1 := nd <| i_flags := _ |>) in *.
  destruct (fs_rel_inode ip nd1 s s1 R1 Hip) as [E1 L1]. apply wpr_bind, wpr_gets. rewrite E1.
  assert (HB : iflag nd1 I_BUSY = true) by (etransitivity; [by apply (iflag_set nd 0 0)|done]).
  assert (HV : iflag nd1 I_VALID = iflag nd I_VALID) by (apply (iflag_set nd 0 1); done).
  rewrite HV. destruct (iflag nd I_VALID) eqn:EV; cbn [negb when].
  { apply wpr_ret, (HQ s1 nd1); [done..|]. split; try done. by apply N6. }
  change (i_dev nd1) with (i_dev nd). change (i_inum nd1) with (i_inum nd). rewrite N1, N2.
  pose proof (iblock_range g inum N3). pose proof (bitmap_range g Hg). apply wpr_bind.
  assert (Hh : forall (b : nat) (x : Z * list Z), (∅ : gmap nat (Z * list Z)) !! b = Some x -> x.1 <> IBLOCK inum)
    by (intros b x Hx; by rewrite lookup_empty in Hx).
  eapply (bread_txn start C (IBLOCK inum) s1 ∅ hs m k); [done|lia|done|right; by eapply room_cache|done|].
  intros bp s2 T2 Hb R2 Hd. apply wpr_bind, wpr_gets. rewrite Hd.
  eapply wpr_step; [apply set_inode_put|]. rewrite (fs_rel_inode_at _ _ ip R2), E1.
  set (nd2 := dinode_read _ _ nd1).
  destruct (brelse_txn _ _ _ _ _ _ _ bp (IBLOCK inum) (m (IBLOCK inum)) (txn_inode _ _ _ _ _ _ _ ip nd2 T2)
    (lookup_insert_eq _ _ _)) as (s3 & E3 & T3 & R3).
  { by apply (txn_clean _ _ _ _ _ _ _ _ T1). }
  eapply wpr_step; [exact E3|]. rewrite delete_insert_id in T3 by done.
  assert (R3' : fs_rel (put_inode ip nd2 s) s3).
  { eapply fs_rel_trans; [|exact R3]. rewrite <- (put_inode_put ip nd1). apply fs_rel_put. by eapply fs_rel_trans. }
  destruct (fs_rel_inode ip nd2 s s3 R3' Hip) as [E4 L4].
  eapply wpr_step; [apply set_inode_put|]. rewrite E4. set (nd3 := nd2 <| i_flags ::= _ |>).
  assert (L5 : (ip < length (k_icache s3))%nat) by (by rewrite L4).
  apply wpr_bind, wpr_gets. rewrite inode_at_put by done.
  assert (Hdf : dfields nd3 = dfields (dinode_of m inum)) by (change (i_inum nd1) with (i_inum nd) in *; by subst inum).
  assert (Hty3 : i_type nd3 = i_type (dinode_of m inum)) by (by injection Hdf).
  rewrite Hty3. destruct (Z.eqb_spec (i_type (dinode_of m inum)) 0); [done|]. cbn [when].
  apply wpr_ret, (HQ _ nd3); [by apply txn_inode| |].
  - rewrite <- (put_inode_put ip nd2). by apply fs_rel_put.
  - split; try done.
    + etransitivity; [by apply (iflag_set nd2 1 0)|exact HB].
    + etransitivity; [by apply (iflag_set nd2 1 1)|done].
Qed.
End ilock.
