(* ===== verification/File.v ===== *)
(** pipe.c and file.c: pipes and open files. *)
From S2P Require Import Prelude Memory Kernel CString Spinlock Console Sched Kalloc Ide.
From S2P Require Import Bytes Bio Log Inode Vm Umem Tty Fs.

(** ** pipe.c *)

(** A pipe is the page [p] it was allocated in. *)
Definition pipe_at (s : kernel) (p : Z) : pipe :=
  default (Mkpipe [] 0 0 0 0) (k_pipes s !! p).

Definition set_pipe (p : Z) (f : pipe -> pipe) : K unit :=
  modify (fun s => s <| k_pipes ::= alter f p |>).

(** [sizeof(struct spinlock)], the offset of [data] in [struct pipe]. *)
Definition pipe_data_off : Z := 52.

Definition pipe_full (p : pipe) : bool := pi_nwrite p =? u32 (pi_nread p + PIPESIZE).
Definition pipe_empty (p : pipe) : bool := pi_nread p =? pi_nwrite p.

(** [p->data[p->nwrite++ % PIPESIZE] = c] and [p->data[p->nread++ % PIPESIZE]] *)
Definition pipe_put (c : Z) (p : pipe) : pipe :=
  p <| pi_data ::= <[Z.to_nat (pi_nwrite p mod PIPESIZE) := c]> |>
    <| pi_nwrite ::= fun n => u32 (n + 1) |>.
Definition pipe_byte (p : pipe) : Z := default 0 (pi_data p !! Z.to_nat (pi_nread p mod PIPESIZE)).
Definition pipe_take (p : pipe) : pipe := p <| pi_nread ::= fun n => u32 (n + 1) |>.

Definition cur_killed : K bool :=
  cur ← deref_proc;
  gets (fun s => c_true (p_killed (proc_at s cur))).

Definition pipeclose (p : Z) (writable : bool) : K unit :=
  acquire (L_pipe p);;
  (if writable then
     set_pipe p (fun x => x <| pi_writeopen := 0 |>);; wakeup (Ch_pipe_nread p)
   else
     set_pipe p (fun x => x <| pi_readopen := 0 |>);; wakeup (Ch_pipe_nwrite p));;
  x ← gets (fun s => pipe_at s p);
  if (pi_readopen x =? 0) && (pi_writeopen x =? 0) then
    release (L_pipe p);;
    modify (fun s => s <| k_pipes ::= delete p |> <| k_locks ::= delete (L_pipe p) |>);;
    kfree p
  else release (L_pipe p).

Section file.
Context {E : Env}.

(** [while(p->nwrite == p->nread + PIPESIZE)]: [false] when the write is to be
    given up, with the lock released. *)
Fixpoint write_wait (fuel : nat) (p : Z) : K bool :=
  x ← gets (fun s => pipe_at s p);
  if negb (pipe_full x) then mret true else
  hangup ← (if pi_readopen x =? 0 then mret true else cur_killed);
  if (hangup : bool) then release (L_pipe p);; mret false else
  match fuel with
  | O => nofuel
  | S fuel' =>
      wakeup (Ch_pipe_nread p);;
      sleep (Ch_pipe_nwrite p) (Some (L_pipe p));;
      write_wait fuel' p
  end.

(** [n] bytes still to write, from [addr]. *)
Fixpoint pipewrite_loop (n : nat) (p addr : Z) : K bool :=
  match n with
  | O => mret true
  | S n' =>
      ok ← write_wait wakeups p;
      if negb ok then mret false else
      c ← uread8 addr;
      set_pipe p (pipe_put c);;
      pipewrite_loop n' p (u32 (addr + 1))
  end.

Definition pipewrite (p addr n : Z) : K Z :=
  acquire (L_pipe p);;
  ok ← pipewrite_loop (Z.to_nat n) p addr;
  if negb ok then mret (-1) else
  wakeup (Ch_pipe_nread p);;
  release (L_pipe p);;
  mret n.

(** [while(p->nread == p->nwrite && p->writeopen)]: [false] when killed. *)
Fixpoint read_wait (fuel : nat) (p : Z) : K bool :=
  x ← gets (fun s => pipe_at s p);
  if negb (pipe_empty x && c_true (pi_writeopen x)) then mret true else
  killed ← cur_killed;
  if (killed : bool) then release (L_pipe p);; mret false else
  match fuel with
  | O => nofuel
  | S fuel' => sleep (Ch_pipe_nread p) (Some (L_pipe p));; read_wait fuel' p
  end.

(** The number of bytes read, with [n] steps left after [i]. *)
Fixpoint piperead_loop (n : nat) (p addr i : Z) : K Z :=
  match n with
  | O => mret i
  | S n' =>
      x ← gets (fun s => pipe_at s p);
      if pipe_empty x then mret i else
      set_pipe p pipe_take;;
      uwrite8 (u32 (addr + i)) (pipe_byte x);;
      piperead_loop n' p addr (i + 1)
  end.

Definition piperead (p addr n : Z) : K Z :=
  acquire (L_pipe p);;
  ok ← read_wait wakeups p;
  if negb ok then mret (-1) else
  i ← piperead_loop (Z.to_nat n) p addr 0;
  wakeup (Ch_pipe_nwrite p);;
  release (L_pipe p);;
  mret i.

(** ** file.c *)

Definition file_at (s : kernel) (f : nat) : file := default file0 (k_ftable s !! f).

Definition set_file (f : nat) (g : file -> file) : K unit :=
  modify (fun s => s <| k_ftable ::= alter g f |>).

Definition fileinit : K unit := initlock L_ftable "ftable".

Definition filealloc : K (option nat) :=
  acquire L_ftable;;
  t ← gets k_ftable;
  match find_first (fun f => f_ref f =? 0) t with
  | Some f =>
      set_file f (fun x => x <| f_ref := 1 |>);;
      release L_ftable;;
      mret (Some f)
  | None =>
      release L_ftable;;
      mret None
  end.

Definition filedup (f : nat) : K nat :=
  acquire L_ftable;;
  x ← gets (fun s => file_at s f);
  if f_ref x <? 1 then panic "filedup" else
  set_file f (fun x => x <| f_ref ::= fun n => i32 (n + 1) |>);;
  release L_ftable;;
  mret f.

Definition ip_of (f : file) : K nat :=
  match f_ip f with Some ip => mret ip | None => panic "trap" end.

Definition fileclose (f : nat) : K unit :=
  acquire L_ftable;;
  x ← gets (fun s => file_at s f);
  if f_ref x <? 1 then panic "fileclose" else
  set_file f (fun x => x <| f_ref ::= fun n => i32 (n - 1) |>);;
  ff ← gets (fun s => file_at s f);
  if 0 <? f_ref ff then release L_ftable else
  set_file f (fun x => x <| f_ref := 0 |> <| f_type := FD_NONE |>);;
  release L_ftable;;
  match f_type ff with
  | FD_PIPE => pipeclose (f_pipe ff) (c_true (f_writable ff))
  | FD_INODE => begin_op;; ip ← ip_of ff; iput ip;; end_op
  | FD_NONE => mret tt
  end.

Definition filestat (f : nat) : K (option stat) :=
  x ← gets (fun s => file_at s f);
  match f_type x with
  | FD_INODE =>
      ip ← ip_of x;
      ilock ip;;
      i ← gets (fun s => inode_at s ip);
      let st := stati i in
      iunlock ip;;
      mret (Some st)
  | _ => mret None
  end.

Definition fileread (f : nat) (addr n : Z) : K Z :=
  x ← gets (fun s => file_at s f);
  if f_readable x =? 0 then mret (-1) else
  match f_type x with
  | FD_PIPE => piperead (f_pipe x) addr n
  | FD_INODE =>
      ip ← ip_of x;
      ilock ip;;
      off ← gets (fun s => f_off (file_at s f));
      '(r, _) ← readi ip (ToUser addr) off (u32 n);
      when (0 <? r) (set_file f (fun x => x <| f_off ::= fun o => u32 (o + r) |>));;
      iunlock ip;;
      mret r
  | FD_NONE => panic "fileread"
  end.

(** [((LOGSIZE-1-1-2) / 2) * 512] *)
Definition write_max : Z := (LOGSIZE - 1 - 1 - 2) / 2 * 512.

(** The value of [i] when the loop of [filewrite] ends. *)
Fixpoint filewrite_loop (fuel : nat) (f ip : nat) (addr i n : Z) : K Z :=
  if negb (i <? n) then mret i else
  match fuel with
  | O => nofuel
  | S fuel' =>
      let n1 := Z.min (n - i) write_max in
      begin_op;;
      ilock ip;;
      off ← gets (fun s => f_off (file_at s f));
      r ← writei ip (FromUser (u32 (addr + i))) off (u32 n1);
      when (0 <? r) (set_file f (fun x => x <| f_off ::= fun o => u32 (o + r) |>));;
      iunlock ip;;
      end_op;;
      if r <? 0 then mret i else
      if negb (r =? n1) then panic "short filewrite" else
      filewrite_loop fuel' f ip addr (i + r) n
  end.

Definition filewrite (f : nat) (addr n : Z) : K Z :=
  x ← gets (fun s => file_at s f);
  if f_writable x =? 0 then mret (-1) else
  match f_type x with
  | FD_PIPE => pipewrite (f_pipe x) addr n
  | FD_INODE =>
      ip ← ip_of x;
      i ← filewrite_loop (Z.to_nat (n / write_max + 1)) f ip addr 0 n;
      mret (if i =? n then n else -1)
  | FD_NONE => panic "filewrite"
  end.

(** The two ends of a new pipe.  [initlock] on a fresh page adds the lock. *)
Definition new_pipe (p : Z) : K unit :=
  modify (fun s => s <| k_pipes ::=
    <[p := Mkpipe (load_bytes (k_mem s) (p + pipe_data_off) (Z.to_nat PIPESIZE)) 0 0 1 1]> |>);;
  modify (fun s => s <| k_locks ::= <[L_pipe p := unlocked "pipe"]> |>).

Definition pipe_bad (p : Z) (f0 f1 : option nat) : K (option (nat * nat)) :=
  when (c_true p) (kfree p);;
  (match f0 with Some f => fileclose f | None => mret tt end);;
  (match f1 with Some f => fileclose f | None => mret tt end);;
  mret None.

Definition pipealloc : K (option (nat * nat)) :=
  f0 ← filealloc;
  match f0 with
  | None => pipe_bad 0 None None
  | Some r =>
      f1 ← filealloc;
      match f1 with
      | None => pipe_bad 0 f0 None
      | Some w =>
          p ← kalloc;
          if p =? 0 then pipe_bad 0 f0 f1 else
          new_pipe p;;
          set_file r (fun x => x <| f_type := FD_PIPE |> <| f_readable := 1 |>
                                <| f_writable := 0 |> <| f_pipe := p |>);;
          set_file w (fun x => x <| f_type := FD_PIPE |> <| f_readable := 0 |>
                                <| f_writable := 1 |> <| f_pipe := p |>);;
          mret (Some (r, w))
      end
  end.
End file.
