(* ===== verification/PipeSpec.v ===== *)
(** Pipes are first-in first-out queues of at most 512 bytes.

    [queue x] is what the ring buffer of the pipe [x] holds, oldest byte first;
    the two counters run freely over 32 bits.  [pipewrite] appends its bytes in
    order, waiting when the ring is full, and [piperead] removes what it
    delivers from the front. *)
From S2P Require Import Prelude Memory Kernel Crash CString Spinlock Console Sched Wait.
From S2P Require Import Kalloc Ide Bytes Bio Log Inode Vm Umem Tty.
From S2P Require Import Fs File.

(** ** The ring *)

Definition ring_at (x : pipe) (k : Z) : Z := default 0 (pi_data x !! Z.to_nat (k mod PIPESIZE)).

Definition count (x : pipe) : Z := u32 (pi_nwrite x - pi_nread x).

Definition queue (x : pipe) : list Z := (fun j => ring_at x (pi_nread x + j)) <$> seqZ 0 (count x).

Record pipe_inv (x : pipe) : Prop := {
  pv_len : length (pi_data x) = Z.to_nat PIPESIZE;
  pv_read : is_u32 (pi_nread x);
  pv_write : is_u32 (pi_nwrite x);
  pv_count : count x <= PIPESIZE;
}.

Lemma count_range x : 0 <= count x < 2 ^ 32.
Proof. unfold count. wrap_unfold. apply Z.mod_pos_bound. lia. Qed.

Lemma length_queue x : length (queue x) = Z.to_nat (count x).
Proof. unfold queue. by rewrite length_fmap, length_seqZ. Qed.

Lemma pipe_full_count x : pipe_inv x -> pipe_full x = (count x =? PIPESIZE).
Proof.
  intros [_ H1 H2 H3]. unfold pipe_full, count, PIPESIZE in *.
  apply eq_true_iff_eq. rewrite !Z.eqb_eq. wrap_unfold.
  pose proof (Z.mod_pos_bound (pi_nread x + 512) (2 ^ 32) ltac:(lia)).
  pose proof (Z.mod_pos_bound (pi_nwrite x - pi_nread x) (2 ^ 32) ltac:(lia)).
  Z.to_euclidean_division_equations. lia.
Qed.

Lemma pipe_empty_count x : pipe_inv x -> pipe_empty x = (count x =? 0).
Proof.
  intros [_ H1 H2 H3]. unfold pipe_empty, count in *.
  apply eq_true_iff_eq. rewrite !Z.eqb_eq. wrap_unfold.
  Z.to_euclidean_division_equations. lia.
Qed.

Lemma put_count x c : pipe_inv x -> count x < PIPESIZE -> count (pipe_put c x) = count x + 1.
Proof.
  intros [_ H1 H2 H3]. unfold pipe_put, count, PIPESIZE in *. simpl. wrap_unfold. intros H.
  rewrite Zminus_mod_idemp_l.
  replace (pi_nwrite x + 1 - pi_nread x) with (pi_nwrite x - pi_nread x + 1) by lia.
  rewrite <- Zplus_mod_idemp_l. apply Z.mod_small.
  pose proof (Z.mod_pos_bound (pi_nwrite x - pi_nread x) (2 ^ 32) ltac:(lia)). lia.
Qed.

Lemma take_count x : pipe_inv x -> 0 < count x -> count (pipe_take x) = count x - 1.
Proof.
  intros [_ H1 H2 H3]. unfold pipe_take, count in *. simpl. wrap_unfold. intros H.
  rewrite Zminus_mod_idemp_r.
  replace (pi_nwrite x - (pi_nread x + 1)) with (pi_nwrite x - pi_nread x - 1) by lia.
  rewrite <- Zminus_mod_idemp_l. apply Z.mod_small.
  pose proof (Z.mod_pos_bound (pi_nwrite x - pi_nread x) (2 ^ 32) ltac:(lia)). lia.
Qed.

(** The write counter, modulo the size of the ring. *)
Lemma nwrite_mod x : pi_nwrite x mod PIPESIZE = (pi_nread x + count x) mod PIPESIZE.
Proof.
  unfold count, PIPESIZE. wrap_unfold.
  replace (2 ^ 32) with (512 * 8388608) by done.
  rewrite Z.rem_mul_r by done. rewrite Z.add_assoc, (Z.mul_comm 512), Z.mod_add by done.
  rewrite Zplus_mod_idemp_r. f_equal. lia.
Qed.

Lemma u32_mod_ring k : (u32 k) mod PIPESIZE = k mod PIPESIZE.
Proof.
  unfold PIPESIZE. wrap_unfold. replace (2 ^ 32) with (512 * 8388608) by done.
  rewrite Z.rem_mul_r by done. rewrite (Z.mul_comm 512), Z.mod_add by done. apply Z.mod_mod. done.
Qed.

Lemma put_inv x c : pipe_inv x -> count x < PIPESIZE -> pipe_inv (pipe_put c x).
Proof.
  intros H Hc. pose proof (put_count x c H Hc) as E. destruct H as [H0 H1 H2 H3].
  split; [by simpl; rewrite length_insert|done|apply u32_range|lia].
Qed.

Lemma take_inv x : pipe_inv x -> 0 < count x -> pipe_inv (pipe_take x).
Proof.
  intros H Hc. pose proof (take_count x H Hc) as E. destruct H as [H0 H1 H2 H3].
  split; [done|apply u32_range|done|lia].
Qed.

Lemma ring_at_put x c k :
  pipe_inv x -> ring_at (pipe_put c x) k =
  if decide (k mod PIPESIZE = pi_nwrite x mod PIPESIZE) then c else ring_at x k.
Proof.
  intros [H _ _ _]. unfold ring_at, pipe_put, PIPESIZE in *. simpl.
  pose proof (Z.mod_pos_bound k 512 ltac:(lia)).
  pose proof (Z.mod_pos_bound (pi_nwrite x) 512 ltac:(lia)).
  case_decide as E.
  - rewrite E, list_lookup_insert_eq by lia. done.
  - by rewrite list_lookup_insert_ne by lia.
Qed.

Lemma queue_put x c : pipe_inv x -> count x < PIPESIZE -> queue (pipe_put c x) = queue x ++ [c].
Proof.
  intros H Hc. unfold queue. rewrite put_count by done. pose proof (count_range x).
  replace (count x + 1) with (Z.of_nat (S (Z.to_nat (count x)))) by lia.
  rewrite seqZ_S, fmap_app, Z2Nat.id by lia. f_equal.
  - apply list_fmap_ext. intros i j Hj. apply lookup_seqZ in Hj as [-> Hj].
    change (pi_nread (pipe_put c x)) with (pi_nread x). rewrite ring_at_put by done.
    rewrite decide_False; [done|]. rewrite nwrite_mod. unfold PIPESIZE in *. intros E.
    apply (f_equal (fun z => (z - (pi_nread x + (0 + Z.of_nat i))) mod 512)) in E.
    rewrite !Zminus_mod_idemp_l in E.
    replace (pi_nread x + (0 + Z.of_nat i) - (pi_nread x + (0 + Z.of_nat i))) with 0 in E by lia.
    rewrite (Z.mod_small (_ - _)) in E by lia. rewrite Z.mod_0_l in E; lia.
  - simpl. f_equal. rewrite ring_at_put by done. by rewrite decide_True by (by rewrite nwrite_mod).
Qed.

Lemma queue_take x : pipe_inv x -> 0 < count x -> queue x = pipe_byte x :: queue (pipe_take x).
Proof.
  intros H Hc. unfold queue. rewrite take_count by done.
  rewrite seqZ_cons by lia. rewrite fmap_cons, Z.add_0_r. f_equal.
  change (Z.succ 0) with (1 + 0). rewrite <- fmap_add_seqZ, <- list_fmap_compose.
  replace (Z.pred (count x)) with (count x - 1) by lia.
  apply list_fmap_ext. intros i j Hj. unfold compose, ring_at.
  change (pi_nread (pipe_take x)) with (u32 (pi_nread x + 1)).
  change (pi_data (pipe_take x)) with (pi_data x). do 3 f_equal.
  rewrite <- (Zplus_mod_idemp_l (u32 _)), u32_mod_ring, Zplus_mod_idemp_l. f_equal. lia.
Qed.

(** ** Waiting *)

(** The bytes [l] are at [addr] in the running process's memory. *)
Definition ubuf (addr : Z) (l : list Z) (s : kernel) : Prop :=
  forall j c, l !! j = Some c -> uread8 (u32 (addr + Z.of_nat j)) s = Ok c s.

Lemma ubuf_ext addr l s s' :
  k_mem s' = k_mem s -> cur_cr3 s' = cur_cr3 s -> ubuf addr l s -> ubuf addr l s'.
Proof.
  intros Hm Hc H j c Hj. specialize (H j c Hj). revert H. unfold cur_cr3 in Hc. unfold uread8, cur_pgdir.
  krun. rewrite Hm, Hc. destruct (xlate _ _ _ _); [|done]. krun. by intros [= ->].
Qed.

Lemma ubuf_cons addr c l s :
  ubuf addr (c :: l) s -> uread8 (u32 addr) s = Ok c s /\ ubuf (u32 (addr + 1)) l s.
Proof.
  intros H. split.
  - specialize (H 0%nat c eq_refl). by rewrite Z.add_0_r in H.
  - intros j d Hj. specialize (H (S j) d Hj).
    replace (u32 (u32 (addr + 1) + Z.of_nat j)) with (u32 (addr + Z.of_nat (S j))); [done|].
    wrap_unfold. rewrite Zplus_mod_idemp_l. f_equal. lia.
Qed.

(** Up to [n] bytes can be written at [addr] in the running process's memory. *)
Definition uwritable (addr : Z) (n : nat) (s : kernel) : Prop :=
  forall l, (length l <= n)%nat -> is_Some (umem_write (k_mem s) (cur_pgdir s) addr l).

Lemma uwritable_ext addr n s s' :
  k_mem s' = k_mem s -> cur_cr3 s' = cur_cr3 s -> uwritable addr n s -> uwritable addr n s'.
Proof. intros Hm Hc H l Hl. unfold cur_pgdir, cur_cr3 in *. rewrite Hm, Hc. by apply H. Qed.

(** The running process is killed, or the other end is closed. *)
Definition hung_up (open : pipe -> Z) (p : Z) (i : nat) (s : kernel) : Prop :=
  open (pipe_at s p) = 0 \/ p_killed (proc_at s i) <> 0.

Section pipe.
Context {EE : Env} (i : nat) (p : Z).

(** What others may do to the pipe while process [i] sleeps in [pipewrite]:
    take bytes from the front, and close the read end.  They wake it when there
    is room, or when it is to give up; its buffer stays. *)
Definition write_rely (addr : Z) (l : list Z) (s s' : kernel) : Prop :=
  resumed i (L_pipe p) s' /\ k_pipes s' !! p = Some (pipe_at s' p) /\ pipe_inv (pipe_at s' p) /\
  (exists d, queue (pipe_at s p) = d ++ queue (pipe_at s' p)) /\
  (pipe_full (pipe_at s' p) = false \/ hung_up pi_readopen p i s') /\ ubuf addr l s'.

(** And while it sleeps in [piperead]: anything that keeps the ring well formed.
    They wake it when there is something to read or when it is to give up; it
    can still write its buffer of [n] bytes. *)
Definition read_rely (addr : Z) (n : nat) (s s' : kernel) : Prop :=
  resumed i (L_pipe p) s' /\ k_pipes s' !! p = Some (pipe_at s' p) /\ pipe_inv (pipe_at s' p) /\
  (pipe_empty (pipe_at s' p) = false \/ hung_up pi_writeopen p i s') /\ uwritable addr n s'.

Lemma cur_killed_run s :
  curproc s = Some i -> cur_killed s = Ok (c_true (p_killed (proc_at s i))) s.
Proof. intros H. unfold cur_killed, deref_proc. krun. by rewrite H. Qed.

(** The pipe in the hands of process [i], which has the pipe's lock. *)
Record has_pipe (s : kernel) : Prop := {
  hp_awake : awake i (L_pipe p) s;
  hp_some : k_pipes s !! p = Some (pipe_at s p);
  hp_inv : pipe_inv (pipe_at s p);
}.

Lemma alter_id_pipes s : s <| k_pipes ::= alter id p |> = s.
Proof. unfold update. rewrite alter_id by done. by destruct s. Qed.

Lemma pipe_at_set f s :
  k_pipes s !! p = Some (pipe_at s p) ->
  let s' := s <| k_pipes ::= alter f p |> in
  pipe_at s' p = f (pipe_at s p) /\ k_pipes s' !! p = Some (f (pipe_at s p)).
Proof.
  intros H s'. unfold pipe_at at 1, s'. simpl. by rewrite lookup_alter_eq, H.
Qed.

Lemma has_pipe_set f s :
  has_pipe s -> (pipe_inv (pipe_at s p) -> pipe_inv (f (pipe_at s p))) ->
  has_pipe (s <| k_pipes ::= alter f p |>).
Proof.
  intros [H1 H2 H3] Hf. destruct (pipe_at_set f s H2) as [E1 E2].
  split; [destruct H1; by split|by rewrite E1|rewrite E1; auto].
Qed.

Lemma has_pipe_rel s s' :
  has_pipe s -> awake i (L_pipe p) s' -> k_pipes s' = k_pipes s -> has_pipe s'.
Proof. intros [H1 H2 H3] Ha E. split; [done|unfold pipe_at..]; by rewrite E. Qed.

Lemma write_wait_eq n :
  write_wait n p =
  (x ← gets (fun s => pipe_at s p);
   if negb (pipe_full x) then mret true else
   hangup ← (if pi_readopen x =? 0 then mret true else cur_killed);
   if (hangup : bool) then release (L_pipe p);; mret false else
   match n with
   | O => nofuel
   | S n' =>
       wakeup (Ch_pipe_nread p);;
       sleep (Ch_pipe_nwrite p) (Some (L_pipe p));;
       write_wait n' p
   end).
Proof. by destruct n. Qed.

(** The two ways out of [write_wait]: there is room, or the write is given up
    and the lock released. *)
Definition write_ready (addr : Z) (l : list Z) (q : list Z) (Q : bool -> kernel -> Prop) : Prop :=
  (forall s', has_pipe s' -> ubuf addr l s' -> count (pipe_at s' p) < PIPESIZE ->
     (exists d, q = d ++ queue (pipe_at s' p)) -> Q true s') /\
  (forall s', unlocked_run i (L_pipe p) s' -> pipe_inv (pipe_at s' p) ->
     count (pipe_at s' p) = PIPESIZE ->
     (exists d, q = d ++ queue (pipe_at s' p)) -> hung_up pi_readopen p i s' -> Q false s').

Lemma write_wait_now R C n addr l q s Q :
  write_ready addr l q Q ->
  has_pipe s -> ubuf addr l s -> (exists d, q = d ++ queue (pipe_at s p)) ->
  (pipe_full (pipe_at s p) = false \/ hung_up pi_readopen p i s) ->
  wpr R C (write_wait n p) s Q.
Proof.
  intros [HT HF] Hp Hl Hq Hor. rewrite write_wait_eq.
  pose proof (pipe_full_count _ (hp_inv _ Hp)) as Hfull.
  pose proof (pv_count _ (hp_inv _ Hp)) as Hcnt.
  eapply wpr_step; [reflexivity|]. cbv beta. rewrite Hfull in *.
  destruct (Z.eqb_spec (count (pipe_at s p)) PIPESIZE) as [Ec|Ec]; cbn [negb].
  2: { apply wpr_ret, HT; [done..|lia|done]. }
  destruct Hor as [Hor|Hor]; [done|].
  eapply (wpr_step _ _ _ _ _ true s).
  { destruct (Z.eqb_spec (pi_readopen (pipe_at s p)) 0) as [_|Hne]; [done|].
    destruct Hor as [?|Hk]; [done|]. rewrite cur_killed_run by apply Hp. f_equal.
    unfold c_true. by destruct (Z.eqb_spec (p_killed (proc_at s i)) 0). }
  destruct (release_run i (L_pipe p) s ltac:(done) (hp_awake _ Hp)) as (E1 & H1 & _).
  eapply wpr_step; [exact E1|]. apply wpr_ret, HF; [done|apply Hp|done..].
Qed.

(** [write_wait], which may sleep. *)
Lemma write_wait_wp n addr l s Q :
  has_pipe s -> ubuf addr l s -> write_ready addr l (queue (pipe_at s p)) Q ->
  wpr (write_rely addr l) (fun _ => True) (write_wait (S n) p) s Q.
Proof.
  intros Hp Hl HQ.
  destruct (pipe_full (pipe_at s p)) eqn:Ef.
  2: { eapply write_wait_now; [done..| |by left]. by exists []. }
  destruct (decide (hung_up pi_readopen p i s)) as [Hu|Hu].
  { eapply write_wait_now; [done..| |by right]. by exists []. }
  rewrite write_wait_eq. eapply wpr_step; [reflexivity|]. cbv beta. rewrite Ef. cbn [negb].
  assert (Hu12 : pi_readopen (pipe_at s p) <> 0 /\ p_killed (proc_at s i) = 0)
    by (unfold hung_up in Hu; lia). destruct Hu12 as [Hu1 Hu2].
  eapply (wpr_step _ _ _ _ _ false s).
  { destruct (Z.eqb_spec (pi_readopen (pipe_at s p)) 0); [done|].
    rewrite cur_killed_run by apply Hp. f_equal.
    unfold c_true. by destruct (Z.eqb_spec (p_killed (proc_at s i)) 0). }
  destruct (wakeup_awake i _ (Ch_pipe_nread p) s (hp_awake _ Hp)) as [E1 H1].
  eapply wpr_step; [exact E1|]. apply wpr_bind.
  apply (sleep_wp _ _ _ _ i); [done|done|done|].
  intros s1 s2 Hrel (R1 & R2 & R3 & R4 & R5 & R6). split; [done|].
  intros s3 Hrel3 Hcr3 _ Ht3 Ha.
  assert (Hs1 : k_pipes s1 = k_pipes s) by (by rewrite Hrel).
  assert (Hs3 : k_pipes s3 = k_pipes s2 /\ k_mem s3 = k_mem s2) by (by rewrite Hrel3).
  destruct Hs3 as [Hs3 Hm3]. assert (Hx : pipe_at s3 p = pipe_at s2 p) by (unfold pipe_at; by rewrite Hs3).
  apply (write_wait_now _ _ _ addr l (queue (pipe_at s p))); [done| |by eapply ubuf_ext| |].
  - split; [done|by rewrite Hs3, Hx|by rewrite Hx].
  - rewrite Hx. unfold pipe_at in R4 |- *. by rewrite Hs1 in R4.
  - unfold hung_up. by rewrite Hx, (proc_at_woken i s2 s3).
Qed.

(** [pipewrite]'s loop: [l1] has been written, [l] is still to write. *)
Lemma pipewrite_loop_wp n addr l0 l1 l s q (Q : bool -> kernel -> Prop) :
  wakeups = S n -> has_pipe s -> ubuf addr l0 s -> l0 = l1 ++ l ->
  (exists d, q ++ l1 = d ++ queue (pipe_at s p)) ->
  (forall s', has_pipe s' -> (exists d, q ++ l0 = d ++ queue (pipe_at s' p)) -> Q true s') ->
  (forall s' j, unlocked_run i (L_pipe p) s' -> pipe_inv (pipe_at s' p) ->
     (j < length l0)%nat -> count (pipe_at s' p) = PIPESIZE ->
     (exists d, q ++ take j l0 = d ++ queue (pipe_at s' p)) -> hung_up pi_readopen p i s' -> Q false s') ->
  wpr (write_rely addr l0) (fun _ => True)
    (pipewrite_loop (length l) p (u32 (addr + Z.of_nat (length l1)))) s Q.
Proof.
  intros Hw. revert l1 s. induction l as [|c l IH]; intros l1 s Hp Hl Hl0 [d Hd] HT HF.
  { apply wpr_ret, HT; [done|]. exists d. by rewrite Hl0, app_nil_r. }
  cbn [length pipewrite_loop]. rewrite Hw. apply wpr_bind.
  eapply (write_wait_wp n addr l0); [done..|]. split.
  - intros s1 Hp1 Hl1 Hc1 [d1 Hd1].
    eapply (wpr_step _ _ _ _ _ c s1).
    { apply Hl1. rewrite Hl0. by rewrite list_lookup_middle. }
    eapply wpr_step; [reflexivity|].
    replace (u32 (u32 (addr + Z.of_nat (length l1)) + 1))
      with (u32 (addr + Z.of_nat (length (l1 ++ [c])))).
    2: { rewrite length_app. simpl. wrap_unfold. rewrite Zplus_mod_idemp_l. f_equal. lia. }
    destruct (pipe_at_set (pipe_put c) s1 (hp_some _ Hp1)) as [E1 _].
    apply IH; [| |by rewrite Hl0, <- app_assoc| |done|done].
    + apply has_pipe_set; [done|]. intros _. apply put_inv; [apply Hp1|done].
    + by apply (ubuf_ext _ _ s1).
    + exists (d ++ d1). rewrite E1, queue_put by (done || apply Hp1).
      rewrite (app_assoc q), Hd, Hd1. by rewrite !app_assoc.
  - intros s1 H1 Hi1 H2 [d1 Hd1] H4. cbn [negb]. apply wpr_ret.
    apply (HF s1 (length l1)); [done|done| |done| |done].
    + rewrite Hl0, length_app. simpl. lia.
    + exists (d ++ d1). by rewrite Hl0, take_app_length, Hd, Hd1, app_assoc.
Qed.

(** ** Reading *)

(** The pipe after [n] bytes have been taken. *)
Lemma take_queue n x :
  pipe_inv x -> (n <= length (queue x))%nat ->
  pipe_inv (Nat.iter n pipe_take x) /\ queue (Nat.iter n pipe_take x) = drop n (queue x) /\
  pi_readopen (Nat.iter n pipe_take x) = pi_readopen x.
Proof.
  revert x; induction n as [|n IH]; intros x Hx Hn; [by rewrite drop_0|].
  rewrite Nat.iter_succ_r. rewrite length_queue in Hn.
  pose proof (queue_take x Hx ltac:(lia)) as Hq. rewrite Hq.
  assert (Hi : pipe_inv (pipe_take x)) by (apply take_inv; [done|lia]).
  destruct (IH (pipe_take x) Hi) as (A & B & D); [|by split_and!].
  rewrite length_queue, take_count by (done || lia). lia.
Qed.

(** The copying loop of [piperead] is [uwrite] of the front of the queue. *)
Lemma piperead_loop_run n addr k s m :
  k_pipes s !! p = Some (pipe_at s p) -> pipe_inv (pipe_at s p) ->
  let bs := take n (queue (pipe_at s p)) in
  umem_write (k_mem s) (cur_pgdir s) (u32 (addr + k)) bs = Some m ->
  piperead_loop n p addr k s =
    Ok (k + Z.of_nat (length bs))
      (s <| k_mem := m |> <| k_pipes ::= alter (Nat.iter (length bs) pipe_take) p |>).
Proof.
  revert k s; induction n as [|n IH]; intros k s Hs Hi bs; cbn [piperead_loop].
  { intros [= <-]. simpl. rewrite Z.add_0_r. f_equal. rewrite alter_id_pipes. by destruct s. }
  rewrite (bind_ok (gets _) _ s (pipe_at s p) s eq_refl).
  rewrite pipe_empty_count by done. pose proof (count_range (pipe_at s p)).
  destruct (Z.eqb_spec (count (pipe_at s p)) 0) as [E0|E0].
  - unfold bs. assert (Hq : queue (pipe_at s p) = []) by (apply nil_length_inv; rewrite length_queue; lia).
    rewrite Hq. intros [= <-]. simpl. rewrite Z.add_0_r. f_equal. rewrite alter_id_pipes. by destruct s.
  - unfold bs. rewrite (queue_take _ Hi) by lia. cbn [take umem_write length].
    set (x := pipe_at s p) in *. set (s2 := s <| k_pipes ::= alter pipe_take p |>).
    rewrite (bind_ok (set_pipe p pipe_take) _ s tt s2 eq_refl).
    destruct (pipe_at_set pipe_take s Hs) as [P1 P2]. fold s2 in P1, P2. fold x in P1, P2.
    destruct (xlate (k_mem s) (cur_pgdir s) true (u32 (addr + k))) as [a|] eqn:Ex; [|done]. intros Eu.
    set (s4 := s2 <| k_mem ::= fun m => store8 m a (pipe_byte x) |>).
    rewrite (bind_ok (uwrite8 _ _) _ s2 tt s4).
    2: { unfold uwrite8. krun. change (cur_pgdir s2) with (cur_pgdir s).
         change (k_mem s2) with (k_mem s). by rewrite Ex. }
    change (pipe_at s2 p) with (pipe_at s4 p) in P1. change (k_pipes s2) with (k_pipes s4) in P2.
    replace (k + Z.of_nat (S _)) with
      (k + 1 + Z.of_nat (length (take n (queue (pipe_at s4 p))))) by (rewrite P1; lia).
    rewrite (IH (k + 1) s4); rewrite ?P1; [|done|apply take_inv; [done|lia]|].
    + f_equal. unfold update. simpl. f_equal. rewrite alter_alter_eq.
      apply alter_ext. intros y _. symmetry. apply Nat.iter_succ_r.
    + change (cur_pgdir s4) with (cur_pgdir s).
      change (k_mem s4) with (store8 (k_mem s) a (pipe_byte x)). rewrite <- Eu. f_equal.
      wrap_unfold. rewrite Zplus_mod_idemp_l. f_equal. lia.
Qed.

Lemma read_wait_eq n :
  read_wait n p =
  (x ← gets (fun s => pipe_at s p);
   if negb (pipe_empty x && c_true (pi_writeopen x)) then mret true else
   killed ← cur_killed;
   if (killed : bool) then release (L_pipe p);; mret false else
   match n with
   | O => nofuel
   | S n' => sleep (Ch_pipe_nread p) (Some (L_pipe p));; read_wait n' p
   end).
Proof. by destruct n. Qed.

(** The two ways out of [read_wait]; [x0] is the pipe at its start. *)
Definition read_ready (addr : Z) (n : nat) (x0 : pipe) (Q : bool -> kernel -> Prop) : Prop :=
  (forall s', has_pipe s' -> uwritable addr n s' ->
     (queue (pipe_at s' p) = [] -> pi_writeopen (pipe_at s' p) = 0) ->
     (queue x0 <> [] \/ pi_writeopen x0 = 0 -> pipe_at s' p = x0) -> Q true s') /\
  (forall s', unlocked_run i (L_pipe p) s' -> p_killed (proc_at s' i) <> 0 ->
     queue (pipe_at s' p) = [] -> queue x0 = [] -> Q false s').

Lemma queue_nil x : pipe_inv x -> pipe_empty x = true <-> queue x = [].
Proof.
  intros Hx. rewrite pipe_empty_count, Z.eqb_eq by done. pose proof (count_range x). split.
  - intros H0. apply nil_length_inv. rewrite length_queue. lia.
  - intros H0%(f_equal length). rewrite length_queue in H0. simpl in H0. lia.
Qed.

Lemma c_true_nonzero z : c_true z = true <-> z <> 0.
Proof. unfold c_true. destruct (Z.eqb_spec z 0); naive_solver. Qed.

Lemma read_wait_now R C n k addr x0 s Q :
  read_ready addr k x0 Q -> has_pipe s -> uwritable addr k s ->
  (queue x0 <> [] \/ pi_writeopen x0 = 0 -> pipe_at s p = x0) ->
  (pipe_empty (pipe_at s p) = false \/ hung_up pi_writeopen p i s) ->
  wpr R C (read_wait n p) s Q.
Proof.
  intros [HT HF] Hp Hl Hx0 Hor. rewrite read_wait_eq.
  pose proof (queue_nil _ (hp_inv _ Hp)) as Hnil.
  eapply wpr_step; [reflexivity|]. cbv beta.
  destruct (pipe_empty (pipe_at s p) && c_true (pi_writeopen (pipe_at s p))) eqn:Et; cbn [negb].
  2: { apply wpr_ret, HT; [done..| |done]. intros Hq. apply Hnil in Hq. rewrite Hq in Et. simpl in Et.
       apply not_true_iff_false in Et. rewrite c_true_nonzero in Et. lia. }
  apply andb_prop in Et as [Et1 Et2]. apply c_true_nonzero in Et2.
  destruct Hor as [?|[?|Hk]]; [congruence|done|].
  eapply (wpr_step _ _ _ _ _ true s).
  { rewrite cur_killed_run by apply Hp. f_equal. by apply c_true_nonzero. }
  destruct (release_run i (L_pipe p) s ltac:(done) (hp_awake _ Hp)) as (E1 & H1 & _).
  eapply wpr_step; [exact E1|]. apply wpr_ret, HF; [done|done|by apply Hnil|].
  destruct (queue x0) as [|] eqn:Eq; [done|]. exfalso.
  apply Hnil in Et1. rewrite Hx0, Eq in Et1 by (by left). done.
Qed.

Lemma read_wait_wp n k addr s Q :
  has_pipe s -> uwritable addr k s -> read_ready addr k (pipe_at s p) Q ->
  wpr (read_rely addr k) (fun _ => True) (read_wait (S n) p) s Q.
Proof.
  intros Hp Hl HQ.
  destruct (pipe_empty (pipe_at s p)) eqn:Ef.
  2: { eapply read_wait_now; [done..|by left]. }
  destruct (decide (hung_up pi_writeopen p i s)) as [Hu|Hu].
  { eapply read_wait_now; [done..|by right]. }
  assert (Hu12 : pi_writeopen (pipe_at s p) <> 0 /\ p_killed (proc_at s i) = 0)
    by (unfold hung_up in Hu; lia). destruct Hu12 as [Hu1 Hu2].
  rewrite read_wait_eq. eapply wpr_step; [reflexivity|]. cbv beta. rewrite Ef.
  rewrite (proj2 (c_true_nonzero _) Hu1). cbn [negb andb].
  eapply (wpr_step _ _ _ _ _ false s).
  { rewrite cur_killed_run by apply Hp. by rewrite Hu2. }
  apply wpr_bind. apply (sleep_wp _ _ _ _ i); [done|apply Hp|done|].
  intros s1 s2 Hrel (R1 & R2 & R3 & R5 & R6). split; [done|].
  intros s3 Hrel3 Hcr3 _ Ht3 Ha.
  assert (Hs3 : k_pipes s3 = k_pipes s2 /\ k_mem s3 = k_mem s2) by (by rewrite Hrel3).
  destruct Hs3 as [Hs3 Hm3]. assert (Hx : pipe_at s3 p = pipe_at s2 p) by (unfold pipe_at; by rewrite Hs3).
  apply (read_wait_now _ _ _ k addr (pipe_at s p)); [done| |by eapply uwritable_ext| |].
  - split; [done|by rewrite Hs3, Hx|by rewrite Hx].
  - apply queue_nil in Ef; [|apply Hp]. intros [?|?]; done.
  - unfold hung_up. by rewrite Hx, (proc_at_woken i s2 s3).
Qed.

(** What [pipewrite] of the bytes [l] does to a pipe that held [q]. *)
Definition write_outcome (q l : list Z) (r : Z) (s' : kernel) : Prop :=
  unlocked_run i (L_pipe p) s' /\ pipe_inv (pipe_at s' p) /\
  ((r = Z.of_nat (length l) /\ exists d, q ++ l = d ++ queue (pipe_at s' p)) \/
   (r = -1 /\ hung_up pi_readopen p i s' /\ exists j d, (j < length l)%nat /\
      q ++ take j l = d ++ queue (pipe_at s' p) /\ length (queue (pipe_at s' p)) = 512%nat)).

(** What [piperead] of up to [n] bytes does: [s1] is the state in which it
    copies, the one it was called in if there was something to read. *)
Definition read_outcome (addr : Z) (n : nat) (x0 : pipe) (r : Z) (s' : kernel) : Prop :=
  unlocked_run i (L_pipe p) s' /\
  ((exists s1, has_pipe s1 /\ (queue x0 <> [] \/ pi_writeopen x0 = 0 -> pipe_at s1 p = x0) /\
      (queue (pipe_at s1 p) = [] -> pi_writeopen (pipe_at s1 p) = 0) /\
      let bs := take n (queue (pipe_at s1 p)) in
      r = Z.of_nat (length bs) /\
      umem_write (k_mem s1) (cur_pgdir s1) addr bs = Some (k_mem s') /\
      pipe_inv (pipe_at s' p) /\ queue (pipe_at s' p) = drop n (queue (pipe_at s1 p))) \/
   (r = -1 /\ p_killed (proc_at s' i) <> 0 /\ queue (pipe_at s' p) = [] /\ queue x0 = [])).

End pipe.

(** C31: [pipewrite] appends its bytes to the pipe in order, however often it
    has to wait for room while readers take bytes from the front: what was in
    the pipe followed by what it wrote is what the readers have taken followed
    by what is in the pipe when it returns, at most 512 bytes.  It returns the
    number of bytes, or -1 with some of them written when it finds the pipe full
    and is killed or the read end closed. *)
Theorem pipewrite_fifo `{EE : Env} i p addr l s n :
  wakeups = S n -> unlocked_run i (L_pipe p) s -> k_pipes s !! p = Some (pipe_at s p) ->
  pipe_inv (pipe_at s p) -> is_u32 addr -> ubuf addr l s ->
  wpr (write_rely i p addr l) (fun _ => True) (pipewrite p addr (Z.of_nat (length l))) s
    (write_outcome i p (queue (pipe_at s p)) l).
Proof.
  intros Hw Hr Hs Hi Ha Hl. unfold pipewrite.
  destruct (acquire_run i (L_pipe p) s ltac:(done) Hr) as (E1 & H1 & C1).
  eapply wpr_step; [exact E1|]. apply wpr_bind. rewrite Nat2Z.id.
  set (s1 := acquired (L_pipe p) s) in *.
  replace addr with (u32 (addr + Z.of_nat (length (@nil Z)))) at 2
    by (simpl; rewrite Z.add_0_r; by apply u32_id).
  apply (pipewrite_loop_wp i p n addr l [] l s1 (queue (pipe_at s p))); [done| |by apply (ubuf_ext _ _ s)|done| | |].
  - split; [done|done|done].
  - exists []. by rewrite app_nil_r.
  - intros s2 Hp2 Hd2. cbn [negb].
    destruct (wakeup_awake i _ (Ch_pipe_nread p) s2 (hp_awake _ _ _ Hp2)) as [E2 H2].
    eapply wpr_step; [exact E2|].
    destruct (release_run i (L_pipe p) _ ltac:(done) H2) as (E3 & H3 & _).
    eapply wpr_step; [exact E3|]. apply wpr_ret. split_and!; [done|apply Hp2|by left].
  - intros s2 j H2 Hi2 Hj Hc [d Hd] Hu. cbn [negb]. apply wpr_ret. split_and!; [done|done|].
    right. split_and!; [done|done|]. exists j, d. by rewrite length_queue, Hc.
Qed.

(** C32: [piperead] waits while the pipe is empty and has a writer, then copies
    the oldest bytes of the pipe, in order and as many as are there, to the
    caller's buffer and removes exactly those from the pipe; it returns how
    many, 0 only at the end of the stream, or -1 when it is killed while the
    pipe is empty. *)
Theorem piperead_fifo `{EE : Env} i p addr k s n :
  wakeups = S n -> unlocked_run i (L_pipe p) s -> k_pipes s !! p = Some (pipe_at s p) ->
  pipe_inv (pipe_at s p) -> is_u32 addr -> uwritable addr k s ->
  wpr (read_rely i p addr k) (fun _ => True) (piperead p addr (Z.of_nat k)) s
    (read_outcome i p addr k (pipe_at s p)).
Proof.
  intros Hw Hr Hs Hi Ha Hl. unfold piperead.
  destruct (acquire_run i (L_pipe p) s ltac:(done) Hr) as (E1 & H1 & C1).
  eapply wpr_step; [exact E1|]. apply wpr_bind. rewrite Nat2Z.id, Hw.
  set (s1 := acquired (L_pipe p) s) in *.
  apply (read_wait_wp i p n k addr s1); [by split|by apply (uwritable_ext _ _ s)|]. split.
  - intros s2 Hp2 Hw2 Hz2 Hx2. cbn [negb].
    set (bs := take k (queue (pipe_at s2 p))).
    destruct (Hw2 bs) as [m Hm]; [unfold bs; rewrite length_take; lia|].
    eapply wpr_step.
    { apply (piperead_loop_run p k addr 0 s2 m); [apply Hp2|apply Hp2|].
      rewrite Z.add_0_r, u32_id by done. exact Hm. }
    fold bs. rewrite Z.add_0_l.
    set (s3 := s2 <| k_mem := m |> <| k_pipes ::= alter (Nat.iter (length bs) pipe_take) p |>).
    destruct (take_queue (length bs) (pipe_at s2 p) (hp_inv _ _ _ Hp2)) as (T1 & T2 & _).
    { unfold bs. rewrite length_take. lia. }
    assert (Hp3 : has_pipe i p s3).
    { apply (has_pipe_set i p _ (s2 <| k_mem := m |>)); [|done].
      destruct Hp2 as [[] ? ?]. by split. }
    destruct (pipe_at_set p (Nat.iter (length bs) pipe_take) (s2 <| k_mem := m |>)) as [P3 _];
      [apply Hp2|]. change (pipe_at s3 p = Nat.iter (length bs) pipe_take (pipe_at s2 p)) in P3.
    destruct (wakeup_awake i _ (Ch_pipe_nwrite p) s3 (hp_awake _ _ _ Hp3)) as [E4 H4].
    eapply wpr_step; [exact E4|].
    destruct (release_run i (L_pipe p) _ ltac:(done) H4) as (E5 & H5 & _).
    eapply wpr_step; [exact E5|]. apply wpr_ret. split; [done|]. left. exists s2.
    split; [done|]. split; [done|]. split; [done|]. split; [done|]. split; [exact Hm|]. split; [apply Hp3|].
    etransitivity; [exact (f_equal queue P3)|]. rewrite T2. unfold bs. rewrite length_take.
    destruct (decide (k <= length (queue (pipe_at s2 p)))%nat); [by rewrite Nat.min_l|].
    rewrite Nat.min_r, !drop_ge by lia. done.
  - intros s2 H2 Hk2 Hq2 Hq0. cbn [negb]. apply wpr_ret. split; [done|]. by right.
Qed.

(** Process 0 has one page of memory at address 0, with the bytes 7, 8 and 9 at
    its start, and a pipe with the bytes 5 and 6 whose counters are about to
    wrap. *)
Definition user_page : memory :=
  store_bytes (store32 (store32 ∅ (KERNBASE + 4096) (8192 + 7)) (KERNBASE + 8192) (12288 + 7))
    (KERNBASE + 12288) [7; 8; 9].

Definition pipe_example : kernel :=
  running0
    <| k_mem := user_page |>
    <| k_cpus ::= alter (fun c => c <| c_cr3 := 4096 |>) 0%nat |>
    <| k_pipes := {[4096 := Mkpipe (<[510%nat := 5]> (<[511%nat := 6]> (replicate 512 0)))
                               (2 ^ 32 - 2) 0 1 1]} |>
    <| k_locks ::= <[L_pipe 4096 := unlocked "pipe"]> |>.

Lemma pipe_example_queue : queue (pipe_at pipe_example 4096) = [5; 6].
Proof. vm_compute. reflexivity. Qed.

Lemma pipe_example_run :
  unlocked_run 0 (L_pipe 4096) pipe_example /\
  k_pipes pipe_example !! 4096 = Some (pipe_at pipe_example 4096) /\
  pipe_inv (pipe_at pipe_example 4096).
Proof.
  split_and!.
  - split; [split_and!; [vm_compute; lia|reflexivity|by eexists]|by eexists|reflexivity|vm_compute; lia].
  - reflexivity.
  - split; vm_compute; intuition congruence.
Qed.

Lemma pipe_example_ubuf : ubuf 0 [7; 8; 9] pipe_example.
Proof.
  intros [|[|[|j]]] c; [intros [= <-]..|intros [=]]; vm_compute; reflexivity.
Qed.

Lemma pipewrite_fifo_witness :
  wpr (write_rely 0 4096 0 [7; 8; 9]) (fun _ => True)
    (@pipewrite (ide_env 1) 4096 0 3) pipe_example (write_outcome 0 4096 [5; 6] [7; 8; 9]).
Proof.
  rewrite <- pipe_example_queue. destruct pipe_example_run as (H1 & H2 & H3).
  apply (@pipewrite_fifo (ide_env 1) 0 4096 0 [7; 8; 9] pipe_example 0 eq_refl H1 H2 H3).
  - wrap_unfold. lia.
  - apply pipe_example_ubuf.
Defined.

Lemma pipe_example_writable : uwritable 0 2 pipe_example.
Proof.
  intros l Hl. destruct l as [|a [|b [|]]]; simpl in Hl; [by eexists|..|lia];
    eexists; vm_compute; reflexivity.
Qed.

Lemma piperead_fifo_witness :
  wpr (read_rely 0 4096 0 2) (fun _ => True)
    (@piperead (ide_env 1) 4096 0 2) pipe_example
    (read_outcome 0 4096 0 2 (pipe_at pipe_example 4096)).
Proof.
  destruct pipe_example_run as (H1 & H2 & H3).
  apply (@piperead_fifo (ide_env 1) 0 4096 0 2 pipe_example 0 eq_refl H1 H2 H3).
  - wrap_unfold. lia.
  - apply pipe_example_writable.
Defined.
