(* ===== verification/FileSpec.v ===== *)
(** Files on disk, and what [fileread] and [filewrite] do to them.

    The file system is seen as a partial function from inode numbers to the
    contents of files.  [fs_inv] is the invariant of the blocks that makes this
    view sound: every live inode describes a file whose blocks are its own. *)
From S2P Require Import Prelude Memory Kernel CString Spinlock Console Sched Ide Bytes Bio.
From S2P Require Import Log Inode Vm Umem Tty Fs File.
From S2P Require Import Crash Wait Driver BioSpec LogSpec Txn Balloc InodeSpec DinodeSpec DataSpec.
From S2P Require Import WriteSpec OpSpec.

(** ** The file system as a function *)

(** Inode [inum] as [ilock] reads it. *)
Definition disk_inode (m : Z -> list Z) (inum : Z) : inode :=
  (dinode_of m inum) <| i_dev := ROOTDEV |> <| i_inum := inum |>.

(** A file or a directory. *)
Definition live (m : Z -> list Z) (inum : Z) : bool :=
  negb (i_type (dinode_of m inum) =? 0) && negb (i_type (dinode_of m inum) =? T_DEV).

Definition files (g : geom) (m : Z -> list Z) (inum : Z) : option (list Z) :=
  if decide (0 <= inum < g_ninodes g) then
    if live m inum then Some (fcontents m (disk_inode m inum)) else None
  else None.

(** Bytes [d] written at offset [off] of file [inum]. *)
Definition file_put (inum off : Z) (d : list Z) (F : Z -> option (list Z)) (j : Z) : option (list Z) :=
  if decide (j = inum) then (fun c => splice c (Z.to_nat off) d) <$> F j else F j.

Record fs_inv (g : geom) (m : Z -> list Z) : Prop := {
  fi_ok : fs_ok g m;
  fi_file : forall j, 0 <= j < g_ninodes g -> live m j = true -> file_data g m (disk_inode m j);
  fi_disjoint : forall j j', 0 <= j < g_ninodes g -> 0 <= j' < g_ninodes g -> j <> j' ->
    live m j = true -> live m j' = true ->
    forall x, owns m (disk_inode m j) x -> owns m (disk_inode m j') x -> False;
}.

Lemma files_Some g m j c :
  files g m j = Some c <-> 0 <= j < g_ninodes g /\ live m j = true /\ c = fcontents m (disk_inode m j).
Proof.
  unfold files. case_decide; [|by split; [|intros (? & _)]]. destruct (live m j); [|by split; [|intros (_ & ? & _)]].
  split; [by intros [= <-]|]. by intros (_ & _ & ->).
Qed.

(** Only the fields that are on disk matter. *)
Lemma file_data_dfields g m nd nd' :
  dfields nd' = dfields nd -> i_dev nd' = ROOTDEV -> file_data g m nd -> file_data g m nd'.
Proof.
  unfold dfields. intros [= E1 _ _ _ E5 E6] Hd [H1 H2 H3 H4 H5]. by split; rewrite ?E1, ?E5, ?E6.
Qed.

Lemma fcontents_dfields m nd nd' : dfields nd' = dfields nd -> fcontents m nd' = fcontents m nd.
Proof. unfold dfields, fcontents. intros [= _ _ _ _ -> ->]. done. Qed.

Lemma owns_dfields m nd nd' x : dfields nd' = dfields nd -> owns m nd' x -> owns m nd x.
Proof. unfold dfields, owns. intros [= _ _ _ _ _ ->]. done. Qed.

Lemma dfields_disk m j : dfields (disk_inode m j) = dfields (dinode_of m j).
Proof. reflexivity. Qed.

Definition of_dfields (t : Z * Z * Z * Z * Z * list Z) : inode :=
  let '(ty, major, minor, nlink, size, addrs) := t in
  inode0 <| i_type := ty |> <| i_major := major |> <| i_minor := minor |> <| i_nlink := nlink |>
         <| i_size := size |> <| i_addrs := addrs |>.

Lemma disk_inode_eq m m' j :
  dfields (dinode_of m' j) = dfields (dinode_of m j) -> disk_inode m' j = disk_inode m j /\ live m' j = live m j.
Proof.
  intros E. assert (Ed : dinode_of m' j = dinode_of m j).
  { transitivity (of_dfields (dfields (dinode_of m' j))); [reflexivity|]. by rewrite E. }
  unfold disk_inode, live. by rewrite Ed.
Qed.

Lemma live_dfields m nd j : dfields nd = dfields (dinode_of m j) ->
  live m j = negb (i_type nd =? 0) && negb (i_type nd =? T_DEV).
Proof. unfold dfields, live. by intros [= -> _ _ _ _ _]. Qed.

(** ** Words of bytes *)

Lemma dinode_fits g m j : geom_ok g -> fs_ok g m -> 0 <= j < g_ninodes g -> inode_fits (dinode_of m j).
Proof.
  intros Hg Hm Hj. pose proof (iblock_range g j Hj). pose proof (bitmap_range g Hg).
  destruct (fk_block g m Hm (IBLOCK j) ltac:(lia)) as [_ Hb].
  destruct (get_words_u32 (m (IBLOCK j)) (dinode_off j + 12) 13 Hb) as [H1 H2].
  split; simpl; try done; [unfold is_i16; wrap_lia..|by apply get32_u32].
Qed.

Lemma inode_fits_dfields nd nd' : dfields nd' = dfields nd -> inode_fits nd -> inode_fits nd'.
Proof.
  unfold dfields. intros [= E1 E2 E3 E4 E5 E6] [H1 H2 H3 H4 H5 H6 H7].
  by split; rewrite ?E1, ?E2, ?E3, ?E4, ?E5, ?E6.
Qed.

(** ** Blocks outside the log *)

Section ext.
Context (g : geom) (Hg : geom_ok g) (m m' : Z -> list Z).
Context (Hsame : forall b, 0 <= b < g_start g -> m' b = m b).

Lemma ext_inode j : 0 <= j < g_ninodes g -> disk_inode m' j = disk_inode m j /\ live m' j = live m j.
Proof.
  intros Hj. pose proof (iblock_range g j Hj). pose proof (bitmap_range g Hg).
  apply disk_inode_eq. unfold dinode_of. by rewrite Hsame by lia.
Qed.

Lemma ext_fs_ok : fs_ok g m -> fs_ok g m'.
Proof.
  intros [H1 H2 H3 H4]. pose proof (bitmap_range g Hg). split.
  - intros n Hn. rewrite Hsame by done. by apply H1.
  - by rewrite Hsame by lia.
  - by rewrite Hsame by lia.
  - intros n Hn. unfold used. rewrite Hsame by lia. by apply H4.
Qed.

Lemma ext_file nd :
  file_data g m nd ->
  file_data g m' nd /\ fcontents m' nd = fcontents m nd /\ forall x, owns m' nd x <-> owns m nd x.
Proof.
  intros H. pose proof (bitmap_range g Hg).
  destruct (file_frame g m m' nd H) as (G1 & G2 & G3).
  - intros x Ho. destruct (owns_data g m nd x H Ho). apply Hsame. unfold data_start in *. lia.
  - intros x Ho. unfold used. rewrite Hsame by lia. by apply (owns_data g m nd x H Ho).
  - split_and!; [done..|]. intros x. unfold owns. by setoid_rewrite G3.
Qed.

Lemma fs_inv_ext : fs_inv g m -> fs_inv g m' /\ forall j, files g m' j = files g m j.
Proof.
  intros [H1 H2 H3].
  assert (Hf : forall j, 0 <= j < g_ninodes g -> live m j = true ->
    file_data g m' (disk_inode m j) /\ fcontents m' (disk_inode m j) = fcontents m (disk_inode m j) /\
    forall x, owns m' (disk_inode m j) x <-> owns m (disk_inode m j) x) by (intros j Hj Hl; apply ext_file; auto).
  split.
  - split; [by apply ext_fs_ok|..].
    + intros j Hj. destruct (ext_inode j Hj) as [-> ->]. intros Hl. by apply Hf.
    + intros j j' Hj Hj' Hne. destruct (ext_inode j Hj) as [-> ->], (ext_inode j' Hj') as [-> ->].
      intros Hl Hl' x. rewrite (proj2 (proj2 (Hf j Hj Hl))), (proj2 (proj2 (Hf j' Hj' Hl'))). by apply H3.
  - intros j. unfold files. case_decide as Hj; [|done]. destruct (ext_inode j Hj) as [-> ->].
    destruct (live m j) eqn:Hl; [|done]. f_equal. by apply Hf.
Qed.
End ext.

(** ** A file has been written *)

Section put.
Context (g : geom) (Hg : geom_ok g) (m : Z -> list Z) (inum off : Z) (data : list Z) (nd nd' : inode) (m' : Z -> list Z).
Context (Hinv : fs_inv g m) (Hnd : locked_inode g m inum nd) (Hlive : live m inum = true).
Context (W : file_written g off data nd m nd' m').

Lemma put_fields : dfields (dinode_of m' inum) = dfields nd' /\ i_dev nd' = ROOTDEV /\ i_type nd' = i_type nd.
Proof.
  pose proof (ln_inum _ _ _ _ Hnd) as E. split_and!.
  - rewrite <- E. apply (fw_synced _ _ _ _ _ _ _ W). rewrite E. symmetry. apply Hnd.
  - apply (fw_data _ _ _ _ _ _ _ W).
  - by rewrite (fw_inode _ _ _ _ _ _ _ W).
Qed.

Lemma put_other j : 0 <= j < g_ninodes g -> j <> inum -> disk_inode m' j = disk_inode m j /\ live m' j = live m j.
Proof.
  intros Hj Hne. apply disk_inode_eq. apply (fw_dinodes _ _ _ _ _ _ _ W); [done|].
  by rewrite (ln_inum _ _ _ _ Hnd).
Qed.

Lemma put_live : live m' inum = true.
Proof.
  destruct put_fields as (E1 & _ & E2). rewrite (live_dfields m' nd' inum) by done. rewrite E2.
  rewrite <- (live_dfields m nd inum); [done|apply Hnd].
Qed.

Lemma put_others j :
  0 <= j < g_ninodes g -> j <> inum -> live m j = true ->
  file_data g m' (disk_inode m j) /\ fcontents m' (disk_inode m j) = fcontents m (disk_inode m j) /\
  (forall x, owns m' (disk_inode m j) x -> owns m (disk_inode m j) x) /\
  (forall x, owns m' nd' x -> owns m' (disk_inode m j) x -> False).
Proof.
  intros Hj Hne Hl. apply (fw_others _ _ _ _ _ _ _ W); [by apply Hinv|].
  intros x Hx Hx'. eapply (fi_disjoint g m Hinv inum j); try done; [apply Hnd|].
  eapply owns_dfields; [|exact Hx]. rewrite dfields_disk. apply Hnd.
Qed.

Lemma fs_inv_put :
  fs_inv g m' /\ (forall j, files g m' j = file_put inum off data (files g m) j).
Proof.
  destruct put_fields as (E1 & E2 & E3). pose proof (ln_range _ _ _ _ Hnd) as Hin.
  assert (Hown : forall x, owns m' (disk_inode m' inum) x -> owns m' nd' x)
    by (intros x; apply owns_dfields; by rewrite dfields_disk).
  split.
  - split; [apply W|..].
    + intros j Hj. destruct (decide (j = inum)) as [->|Hne].
      * intros _. apply (file_data_dfields g m' nd'); [by rewrite dfields_disk|done|apply W].
      * destruct (put_other j Hj Hne) as [-> ->]. intros Hl. by apply put_others.
    + intros j j' Hj Hj' Hne. destruct (decide (j = inum)) as [->|H1], (decide (j' = inum)) as [->|H2]; [done|..].
      * destruct (put_other j' Hj' H2) as [-> ->]. intros _ Hl x Hx.
        destruct (put_others j' Hj' H2 Hl) as (_ & _ & _ & Hd). by apply Hd, Hown.
      * destruct (put_other j Hj H1) as [-> ->]. intros Hl _ x Hx Hx'.
        destruct (put_others j Hj H1 Hl) as (_ & _ & _ & Hd). by apply (Hd x); [apply Hown|].
      * destruct (put_other j Hj H1) as [-> ->], (put_other j' Hj' H2) as [-> ->]. intros Hl Hl' x Hx Hx'.
        apply (fi_disjoint g m Hinv j j' Hj Hj' Hne Hl Hl' x); by apply put_others.
  - intros j. unfold file_put, files. case_decide as Hj; [|by case_decide].
    destruct (decide (j = inum)) as [->|Hne].
    + rewrite put_live, Hlive. simpl. f_equal.
      rewrite (fcontents_dfields m' nd') by (by rewrite dfields_disk).
      rewrite (fcontents_dfields m nd); [apply W|]. rewrite dfields_disk. symmetry. apply Hnd.
    + destruct (put_other j Hj Hne) as [-> ->]. destruct (live m j) eqn:Hl; [|done]. f_equal. by apply put_others.
Qed.
End put.

(** ** Open files *)

(** File [f] with the offset [o]. *)
Definition move (f : nat) (o : Z) (s : kernel) : kernel :=
  s <| k_ftable ::= alter (fun x => x <| f_off := o |>) f |>.

Lemma move_id f s : move f (f_off (file_at s f)) s = s.
Proof.
  unfold move, update, file_at.
  replace (alter _ f (k_ftable s)) with (k_ftable s); [by destruct s|]. apply list_eq. intros j.
  rewrite list_lookup_alter. case_decide as E; [|done]. subst j. destruct (k_ftable s !! f) as [x|]; [|done].
  simpl. by destruct x.
Qed.

Lemma move_move f a b s : move f b (move f a s) = move f b s.
Proof.
  unfold move, update. simpl. f_equal. apply list_eq. intros j. rewrite !list_lookup_alter.
  case_decide; [|done]. rewrite decide_True by done. by destruct (k_ftable s !! f).
Qed.

Lemma advance_move f r s o :
  u32 (f_off (file_at s f) + r) = o ->
  set_file f (fun x => x <| f_off ::= fun o => u32 (o + r) |>) s = Ok tt (move f o s).
Proof.
  intros <-. unfold set_file, modify, move, update, file_at. do 2 f_equal. apply list_eq. intros j.
  rewrite !list_lookup_alter. case_decide as E; [|done]. subst j. by destruct (k_ftable s !! f).
Qed.

Lemma file_at_move f o s :
  file_at (move f o s) f = if decide (f < length (k_ftable s))%nat then (file_at s f) <| f_off := o |> else file0.
Proof.
  unfold file_at, move. simpl. rewrite list_lookup_alter_eq.
  case_decide as H; [by destruct (lookup_lt_is_Some_2 _ _ H) as [x ->]|]. by rewrite lookup_ge_None_2 by lia.
Qed.

Lemma txn_move start i s held hs m k f o :
  txn start i s held hs m k -> txn start i (move f o s) held hs m k.
Proof.
  intros [[H1 [G1 G2 G3 G4] H2 H3] L1 L2 L3]. split; [|done..].
  split; [by eapply ready_ext| |done..]. split; try done.
  destruct G1 as [l G1]. exists l. by apply (cache_inv_bcache s).
Qed.

Lemma fs_rel_move f o s s' : fs_rel s s' -> fs_rel (move f o s) (move f o s').
Proof. intros [H G]. split; [|exact G]. exact (f_equal (move f o) H). Qed.

Lemma fs_rel_moves ip a b f o o' s s1 s2 :
  fs_rel (put_inode ip a (move f o s)) s1 -> fs_rel (put_inode ip b (move f o' s1)) s2 ->
  fs_rel (put_inode ip b (move f o' s)) s2.
Proof.
  intros H1 H2. apply (fs_rel_move f o') in H1. eapply (fs_rel_put_trans ip a); [|exact H2].
  rewrite <- (move_move f o o' s). exact H1.
Qed.

Lemma fs_rel_file s s' f : fs_rel s s' -> file_at s' f = file_at s f.
Proof. intros [H _]. unfold file_at. by rewrite (f_equal k_ftable H : k_ftable s' = k_ftable s). Qed.

(** File [f] is open on inode [inum], whose contents are [c]. *)
Record open_file (g : geom) (m : Z -> list Z) (s : kernel) (f ip : nat) (inum : Z) (c : list Z) : Prop := {
  op_type : f_type (file_at s f) = FD_INODE;
  op_ip : f_ip (file_at s f) = Some ip;
  op_slot : (ip < length (k_icache s))%nat;
  op_cached : cached_inode g m inum (inode_at s ip);
  op_file : files g m inum = Some c;
  op_off : 0 <= f_off (file_at s f) <= Z.of_nat (length c);
}.

Lemma unlock_cached g m inum nd :
  locked_inode g m inum nd -> cached_inode g m inum (nd <| i_flags := Z.land (i_flags nd) (Z.lnot I_BUSY) |>).
Proof.
  intros [H1 H2 H3 H4 H5 H6 H7]. split; try done. etransitivity; [by apply (iflag_clear nd 0 0)|done].
Qed.

Lemma length_fcontents m nd : 0 <= i_size nd -> Z.of_nat (length (fcontents m nd)) = i_size nd.
Proof. intros H. unfold fcontents. rewrite length_fbytes. lia. Qed.

(** What [readi] delivers. *)
Lemma fbytes_contents m nd off n :
  0 <= off <= i_size nd -> 0 <= n ->
  fbytes (i_addrs nd) m off (Z.min n (i_size nd - off)) =
  take (Z.to_nat n) (drop (Z.to_nat off) (fcontents m nd)).
Proof.
  intros Ho Hn. unfold fcontents. replace (i_size nd) with (off + (i_size nd - off)) at 2 by lia.
  rewrite fbytes_app by lia. rewrite drop_app_ge by (rewrite length_fbytes; lia).
  rewrite length_fbytes, Nat.sub_diag, drop_0, Z.add_0_l.
  destruct (decide (n <= i_size nd - off)).
  - rewrite Z.min_l by done. replace (i_size nd - off) with (n + (i_size nd - off - n)) by lia.
    rewrite fbytes_app by lia. rewrite take_app_le by (rewrite length_fbytes; lia).
    by rewrite take_ge by (rewrite length_fbytes; lia).
  - rewrite Z.min_r by lia. by rewrite take_ge by (rewrite length_fbytes; lia).
Qed.

(** The inode of an open file, locked. *)
Lemma locked_file g m inum nd c :
  geom_ok g -> fs_inv g m -> locked_inode g m inum nd -> files g m inum = Some c ->
  file_data g m nd /\ inode_fits nd /\ c = fcontents m nd /\ live m inum = true.
Proof.
  intros Hg Hinv [H1 H2 H3 H4 H5 H6 H7] (_ & Hl & ->)%files_Some. split_and!.
  - apply (file_data_dfields g m (disk_inode m inum)); [by rewrite dfields_disk|done|by apply Hinv].
  - apply (inode_fits_dfields (dinode_of m inum)); [done|]. by apply (dinode_fits g); [|apply Hinv|].
  - apply fcontents_dfields. by rewrite dfields_disk.
  - done.
Qed.

(** ** Writing in pieces *)

Lemma splice_app c o d1 d2 :
  (o <= length c)%nat -> splice (splice c o d1) (o + length d1) d2 = splice c o (d1 ++ d2).
Proof.
  intros H. assert (Hl : (o + length d1 <= length (splice c o d1))%nat).
  { unfold splice. rewrite !length_app, length_take. lia. }
  apply list_eq. intros j. rewrite !lookup_splice by done. rewrite length_app.
  destruct (decide (o + length d1 <= j < o + length d1 + length d2)%nat).
  - rewrite decide_True by lia. rewrite lookup_app_r by lia. f_equal. lia.
  - destruct (decide (o <= j < o + length d1)%nat).
    + rewrite decide_True by lia. by rewrite lookup_app_l by lia.
    + by rewrite decide_False by lia.
Qed.

Lemma splice_nil c o : splice c o [] = c.
Proof. unfold splice. simpl. rewrite Nat.add_0_r. apply take_drop. Qed.

Lemma file_put_app inum off d1 d2 F c j :
  F inum = Some c -> 0 <= off <= Z.of_nat (length c) ->
  file_put inum (off + Z.of_nat (length d1)) d2 (file_put inum off d1 F) j = file_put inum off (d1 ++ d2) F j.
Proof.
  intros Hc Ho. unfold file_put. case_decide; [|done]. subst j. rewrite Hc. simpl. f_equal.
  rewrite Z2Nat.inj_add, Nat2Z.id by lia. apply splice_app. lia.
Qed.

Lemma file_put_nil inum off F j : file_put inum off [] F j = F j.
Proof. unfold file_put. case_decide; [|done]. destruct (F j); simpl; [|done]. by rewrite splice_nil. Qed.

Lemma file_put_ext inum off d F F' j : F j = F' j -> file_put inum off d F j = file_put inum off d F' j.
Proof. unfold file_put. by intros ->. Qed.

Lemma at_rest_txn start i s s' m k :
  at_rest start i s m k -> txn start i s' ∅ [] m k ->
  lg_outstanding (k_log s') = lg_outstanding (k_log s) -> lg_committing (k_log s') = lg_committing (k_log s) ->
  at_rest start i s' m k.
Proof. intros [H1 H2 H3 H4] T E1 E2. by split; rewrite ?E1, ?E2. Qed.

Section file.
Context {E : Env} {i : nat} {R : kernel -> kernel -> Prop} {HD : Driver E i R}.
Context (g : geom) (Hg : geom_ok g).

Abbreviation start := (g_start g).

(** The offset moves by the number of bytes transferred. *)
Lemma advance_wp {A} C f r o s (rest : K A) Q :
  f_off (file_at s f) + r = o -> 0 <= r -> 0 <= o < 2 ^ 32 -> wpr R C rest (move f o s) Q ->
  wpr R C (when (0 <? r) (set_file f (fun x => x <| f_off ::= fun o => u32 (o + r) |>));; rest) s Q.
Proof.
  intros Ho Hr Hb H. destruct (Z.ltb_spec 0 r) as [Hr'|Hr']; cbn [when].
  - eapply wpr_step; [apply (advance_move f r s o); rewrite u32_id; [done|unfold is_u32; lia]|done].
  - apply wpr_bind, wpr_ret. assert (r = 0) as -> by lia. rewrite Z.add_0_r in Ho. subst o. by rewrite move_id in H.
Qed.

Lemma fileread_wp s m k f ip inum c addr n M (C : kernel -> Prop) (Q : Z -> kernel -> Prop) :
  at_rest start i s m k -> fs_inv g m -> open_file g m s f ip inum c -> f_readable (file_at s f) <> 0 ->
  0 <= n < 2 ^ 31 -> is_u32 addr ->
  let off := f_off (file_at s f) in
  let d := take (Z.to_nat n) (drop (Z.to_nat off) c) in
  umem_write (k_mem s) (cur_pgdir s) addr d = Some M ->
  (forall s1, k_disk s1 = k -> C s1) ->
  (forall s' nd', at_rest start i s' m k -> cached_inode g m inum nd' ->
     fs_rel (put_inode ip nd' (move f (off + Z.of_nat (length d)) (s <| k_mem := M |>))) s' ->
     Q (Z.of_nat (length d)) s') ->
  wpr R C (fileread f addr n) s Q.
Proof.
  intros Hrest Hinv [O1 O2 O3 O4 O5 O6] Hrd Hn Haddr off d HM HC HQ. pose proof Hrest as [Htx R2 R3 R4].
  unfold fileread. apply wpr_bind, wpr_gets.
  destruct (Z.eqb_spec (f_readable (file_at s f)) 0) as [H|_]; [done|]. rewrite O1. unfold ip_of. rewrite O2.
  apply wpr_bind, wpr_ret, wpr_bind.
  assert (Hty : i_type (dinode_of m inum) <> 0).
  { apply files_Some in O5 as (_ & Hl & _). unfold live in Hl.
    destruct (Z.eqb_spec (i_type (dinode_of m inum)) 0); [done|done]. }
  assert (Hroom : room ∅ [] 0) by (unfold room; rewrite map_size_empty; simpl; lia).
  eapply (ilock_txn g Hg C ip (inode_at s ip) inum s [] m k); try done.
  intros s1 nd1 T1 F1 L1. apply wpr_bind, wpr_gets. rewrite (fs_rel_file _ _ f F1).
  change (f_off (file_at (put_inode ip nd1 s) f)) with off.
  destruct (fs_rel_inode ip nd1 s s1 F1 O3) as [E1 E2]. destruct (fs_rel_fields _ _ F1) as (E3 & E4 & _).
  destruct (locked_file g m inum nd1 c Hg Hinv L1 O5) as (Hfd & _ & Ec & _).
  pose proof (fd_size _ _ _ Hfd) as Hsz. change (MAXFILE * BSIZE) with 71680 in Hsz.
  assert (Hlc : Z.of_nat (length c) = i_size nd1) by (rewrite Ec; apply length_fcontents; lia).
  fold off in O6. rewrite (u32_id n) by (unfold is_u32; lia). apply wpr_bind.
  assert (Hd : fbytes (i_addrs nd1) m off (Z.min n (i_size nd1 - off)) = d).
  { unfold d. rewrite Ec. apply fbytes_contents; lia. }
  assert (Hld : Z.min n (i_size nd1 - off) = Z.of_nat (length d)) by (rewrite <- Hd, length_fbytes; lia).
  eapply (readi_txn g Hg C ip nd1 (ToUser addr) off n s1 [] m k M); try done; try lia.
  { apply Hinv. } { cbn [put_mem]. rewrite Hd, E3, E4. exact HM. }
  intros s2 T2 F2. cbv beta iota zeta. rewrite Hld.
  assert (F12 : fs_rel (put_inode ip nd1 (s <| k_mem := M |>)) s2).
  { eapply fs_rel_trans; [|exact F2]. by apply (fs_rel_mem M) in F1. }
  set (o := off + Z.of_nat (length d)).
  apply (advance_wp C f _ o); [|lia|unfold o; lia|].
  { rewrite (fs_rel_file _ _ f F12). done. }
  pose proof (txn_move _ _ _ _ _ _ _ f o T2) as T3. set (sm := move f o (s <| k_mem := M |>)).
  assert (F3 : fs_rel (put_inode ip nd1 sm) (move f o s2)) by exact (fs_rel_move f o _ _ F12).
  assert (Hip : (ip < length (k_icache sm))%nat) by exact O3.
  destruct (fs_rel_inode ip nd1 sm (move f o s2) F3 Hip) as [E5 E6].
  destruct (iunlock_txn start i ip nd1 (move f o s2) [] m k T3 E5 (ln_locked _ _ _ _ L1) (ln_ref _ _ _ _ L1))
    as (s4 & X4 & T4 & F4).
  eapply wpr_step; [exact X4|]. apply wpr_ret. set (nd4 := nd1 <| i_flags := _ |>) in *.
  assert (F5 : fs_rel (put_inode ip nd4 sm) s4) by (by eapply fs_rel_put_trans).
  apply (HQ s4 nd4); [|by apply unlock_cached|done].
  destruct (fs_rel_log _ _ F5). by eapply at_rest_txn.
Qed.

(** ** Crashes *)

(** If the machine stops in state [s1], the log restores files that satisfy
    [P]. *)
Definition crash_ok (P : (Z -> option (list Z)) -> Prop) (s1 : kernel) : Prop :=
  header_ok start (dblock (k_disk s1) ROOTDEV start) /\
  exists m, fs_inv g m /\ P (files g m) /\
    forall b, ~ in_log_area start b -> replay start (k_disk s1) b = m b.

Lemma crash_rest P s m k s1 :
  at_rest start i s m k -> fs_inv g m -> P (files g m) -> k_disk s1 = k -> crash_ok P s1.
Proof.
  intros [Htx _ _ He] Hinv HP Hk. unfold crash_ok. rewrite Hk. split; [by apply log_empty_ok|].
  exists m. split_and!; [done..|]. intros b Hb. rewrite replay_empty by apply He. symmetry.
  apply (view_clean (i:=i) s [] m k b); [apply Htx|apply not_elem_of_nil].
Qed.

Lemma crash_commit P s m k m1 s1 :
  at_rest start i s m k -> fs_inv g m -> P (files g m) -> fs_inv g m1 -> P (files g m1) ->
  old_or_new start k m1 s1 -> crash_ok P s1.
Proof.
  intros [Htx _ _ He] Hinv HP Hinv1 HP1 [Hh [Ho|Hn]]; (split; [done|]); [exists m|exists m1]; split_and!; try done.
  intros b Hb. rewrite (Ho b Hb). symmetry. apply (view_clean (i:=i) s [] m k b); [apply Htx|apply not_elem_of_nil].
Qed.

Lemma crash_mono (P P' : (Z -> option (list Z)) -> Prop) s1 :
  (forall F, P F -> P' F) -> crash_ok P s1 -> crash_ok P' s1.
Proof. intros H [H1 (m & H2 & H3 & H4)]. split; [done|]. exists m. auto. Qed.

(** Recovery brings such files back. *)
Lemma crash_recovers P s1 k' :
  crash_ok P s1 -> recovers i R start (k_disk s1) k' ->
  fs_inv g (dblock k' ROOTDEV) /\
  exists F, P F /\ forall j, files g (dblock k' ROOTDEV) j = F j.
Proof.
  intros [H1 (m & H2 & H3 & H4)] Hrec. destruct (recovers_replay (HD:=HD) _ _ _ Hrec H1) as [_ G].
  destruct (fs_inv_ext g Hg m (dblock k' ROOTDEV)) as [G1 G2]; [|done|].
  - intros b Hb. rewrite (G b), (H4 b); unfold in_log_area; [done|lia..].
  - split; [done|]. by exists (files g m).
Qed.

(** ** [filewrite] *)

(** Of the bytes [d] to be written, the first [j] have been: all of them, or
    those of some of the transactions of [write_max] bytes. *)
Definition prefix_written (inum off : Z) (d : list Z) (F0 F : Z -> option (list Z)) : Prop :=
  exists j, 0 <= j <= Z.of_nat (length d) /\ (j = Z.of_nat (length d) \/ j mod write_max = 0) /\
    forall x, F x = file_put inum off (take (Z.to_nat j) d) F0 x.

(** The blocks a file is to be given for its addresses. *)
Definition need (m : Z -> list Z) (inum : Z) : Z := Z.of_nat (ind_need (i_addrs (dinode_of m inum))).

Lemma need_dfields m inum nd :
  dfields nd = dfields (dinode_of m inum) -> need m inum = Z.of_nat (ind_need (i_addrs nd)).
Proof. intros H. unfold need. by rewrite <- (f_equal snd H : i_addrs nd = i_addrs (dinode_of m inum)). Qed.

Lemma rest_ext m1 m' inum nd :
  (forall b, ~ in_log_area start b -> m' b = m1 b) -> cached_inode g m1 inum nd ->
  cached_inode g m' inum nd /\ nfree g m' = nfree g m1 /\ dinode_of m' inum = dinode_of m1 inum.
Proof.
  intros H [H1 H2 H3 H4 H5 H6]. pose proof (iblock_range g inum H3). pose proof (bitmap_range g Hg).
  assert (Ed : dinode_of m' inum = dinode_of m1 inum) by (unfold dinode_of; rewrite H by (unfold in_log_area; lia); done).
  split_and!; [|apply nfree_same, H; unfold in_log_area; lia|done]. split; try done. by rewrite Ed.
Qed.

(** The inode of an open file can be locked. *)
Lemma open_type m s f ip inum c : open_file g m s f ip inum c -> i_type (dinode_of m inum) <> 0.
Proof.
  intros [_ _ _ _ (_ & Hl & _)%files_Some _]. unfold live in Hl.
  by destruct (Z.eqb_spec (i_type (dinode_of m inum)) 0).
Qed.

(** The part of a transaction of [filewrite] under the lock of the inode. *)
Lemma write_locked_wp {A} s m k f ip inum c addr n d nd (C : kernel -> Prop) (rest : Z -> K A) Q :
  txn start i s ∅ [] m k -> fs_inv g m -> inode_at s ip = nd -> (ip < length (k_icache s))%nat ->
  locked_inode g m inum nd -> files g m inum = Some c ->
  let off := f_off (file_at s f) in
  0 <= off <= Z.of_nat (length c) -> 0 < n <= write_max -> off + n <= MAXFILE * BSIZE -> is_u32 addr ->
  umem_read (k_mem s) (cur_pgdir s) addr (Z.to_nat n) = Some d -> bytes_ok d ->
  need m inum + nblocks_at off n <= Z.of_nat (nfree g m) ->
  (forall s1, k_disk s1 = k -> C s1) ->
  (forall s' m' hs' nd', txn start i s' ∅ hs' m' k -> fs_inv g m' -> cached_inode g m' inum nd' ->
     (forall j, files g m' j = file_put inum off d (files g m) j) ->
     fs_rel (put_inode ip nd' (move f (off + n) s)) s' ->
     Z.of_nat (nfree g m) + need m' inum <= Z.of_nat (nfree g m') + need m inum + nblocks_at off n ->
     wpr R C (rest n) s' Q) ->
  wpr R C (off ← gets (fun s => f_off (file_at s f));
    r ← writei ip (FromUser addr) off (u32 n);
    when (0 <? r) (set_file f (fun x => x <| f_off ::= fun o => u32 (o + r) |>));;
    iunlock ip;;
    rest r) s Q.
Proof.
  intros Htx Hinv Hnd Hip Hlk Hc off Hoff Hn Hmax Haddr Hsrc Hbytes Hfree HC HQ.
  destruct (locked_file g m inum nd c Hg Hinv Hlk Hc) as (Hfd & Hfits & Ec & Hlive).
  pose proof (fd_size _ _ _ Hfd) as Hsz. change (MAXFILE * BSIZE) with 71680 in Hsz, Hmax.
  change write_max with 6656 in Hn.
  assert (Hlc : Z.of_nat (length c) = i_size nd) by (rewrite Ec; apply length_fcontents; lia).
  pose proof (ln_inum _ _ _ _ Hlk) as Hin. pose proof (ln_range _ _ _ _ Hlk) as Hrg.
  assert (Hneed : need m inum = Z.of_nat (ind_need (i_addrs nd))).
  { by apply need_dfields, Hlk. }
  assert (Hld : Z.of_nat (length d) = n) by (rewrite (length_umem_read _ _ _ _ _ Hsrc); lia).
  apply wpr_bind, wpr_gets. fold off. rewrite (u32_id n) by (unfold is_u32; lia). apply wpr_bind.
  assert (Hnb : nblocks_at off n <= 14).
  { unfold nblocks_at. change BSIZE with 512. pose proof (Z.div_mod off 512 ltac:(lia)).
    pose proof (Z.mod_pos_bound off 512 ltac:(lia)). apply Z.lt_succ_r, Z.lt_sub_lt_add_r, Z.div_lt_upper_bound; lia. }
  eapply (writei_txn g Hg C ip nd (FromUser addr) off n d s [] m k); try done; try lia.
  { apply Hinv. } { simpl. by rewrite Z.add_0_r, u32_id. }  { simpl length. lia. }
  intros s2 nd2 m2 hs2 T2 F2 W _.
  destruct (fs_inv_put g m inum off d nd nd2 m2 Hinv Hlk Hlive W) as [Hinv2 Hfiles2].
  destruct (put_fields g m inum off d nd nd2 m2 Hlk W) as (Hdf2 & Hdev2 & _).
  set (o := off + n). apply (advance_wp C f _ o); [|lia|unfold o; lia|].
  { rewrite (fs_rel_file _ _ f F2). done. }
  pose proof (txn_move _ _ _ _ _ _ _ f o T2) as T3. set (sm := move f o s).
  assert (F3 : fs_rel (put_inode ip nd2 sm) (move f o s2)) by exact (fs_rel_move f o _ _ F2).
  destruct (fs_rel_inode ip nd2 sm (move f o s2) F3 Hip) as [E5 E6].
  assert (Hlk2 : locked_inode g m2 inum nd2).
  { pose proof Hlk as [H1 H2 H3 H4 H5 H6 H7]. rewrite (fw_inode _ _ _ _ _ _ _ W) in *. split; try done. }
  destruct (iunlock_txn start i ip nd2 (move f o s2) hs2 m2 k T3 E5 (ln_locked _ _ _ _ Hlk2) (ln_ref _ _ _ _ Hlk2))
    as (s4 & X4 & T4 & F4).
  eapply wpr_step; [exact X4|]. eapply (HQ s4 m2 hs2); [done|done|by apply unlock_cached|done| |].
  - by eapply fs_rel_put_trans.
  - pose proof (fw_free _ _ _ _ _ _ _ W) as Hfr. rewrite Hld in Hfr.
    rewrite Hneed, (need_dfields m2 inum nd2) by done. lia.
Qed.

(** One transaction of [filewrite]. *)
Lemma write_op_wp {A} s m k f ip inum c addr n d (C : kernel -> Prop) (rest : Z -> K A) Q :
  at_rest start i s m k -> fs_inv g m -> open_file g m s f ip inum c ->
  let off := f_off (file_at s f) in
  0 < n <= write_max -> off + n <= MAXFILE * BSIZE -> is_u32 addr ->
  umem_read (k_mem s) (cur_pgdir s) addr (Z.to_nat n) = Some d -> bytes_ok d ->
  need m inum + nblocks_at off n <= Z.of_nat (nfree g m) ->
  (forall s1, crash_ok (fun F => forall j, F j = files g m j) s1 -> C s1) ->
  (forall s1, crash_ok (fun F => forall j, F j = file_put inum off d (files g m) j) s1 -> C s1) ->
  (forall s' m' k' nd', at_rest start i s' m' k' -> fs_inv g m' -> cached_inode g m' inum nd' ->
     (forall j, files g m' j = file_put inum off d (files g m) j) ->
     fs_rel (put_inode ip nd' (move f (off + n) s)) s' ->
     Z.of_nat (nfree g m) + need m' inum <= Z.of_nat (nfree g m') + need m inum + nblocks_at off n ->
     wpr R C (rest n) s' Q) ->
  wpr R C (begin_op;; ilock ip;;
    off ← gets (fun s => f_off (file_at s f));
    r ← writei ip (FromUser addr) off (u32 n);
    when (0 <? r) (set_file f (fun x => x <| f_off ::= fun o => u32 (o + r) |>));;
    iunlock ip;;
    end_op;;
    rest r) s Q.
Proof.
  intros Hrest Hinv Hopen off Hn Hmax Haddr Hsrc Hbytes Hfree HC0 HC1 HQ.
  pose proof Hopen as [O1 O2 O3 O4 O5 O6]. pose proof Hrest as [Htx R2 R3 R4].
  assert (HC : forall s1, k_disk s1 = k -> C s1) by (intros s1 Hs; apply HC0; by eapply crash_rest).
  destruct (begin_op_rest start i s m k Hrest) as (s0 & X0 & T0 & F0). eapply wpr_step; [exact X0|].
  apply wpr_bind.
  pose proof (fs_rel_icache _ _ F0) as Ei.
  eapply (ilock_txn g Hg C ip (inode_at s ip) inum s0 [] m k); try done.
  { unfold inode_at. by rewrite Ei. } { by rewrite Ei. } { by eapply open_type. }
  { unfold room. rewrite map_size_empty. simpl. lia. }
  intros s1 nd1 T1 F1 L1.
  assert (F01 : fs_rel (put_inode ip nd1 (calls 1 s)) s1)
    by (eapply fs_rel_trans; [by apply fs_rel_put|exact F1]).
  destruct (fs_rel_inode ip nd1 (calls 1 s) s1 F01 O3) as [E1 E2].
  destruct (fs_rel_fields _ _ F01) as (E3 & E4 & _). pose proof (fs_rel_file _ _ f F01) as E5.
  assert (Eoff : f_off (file_at s1 f) = off) by (by rewrite E5).
  eapply (write_locked_wp s1 m k f ip inum c addr n d nd1 C (fun r => end_op;; rest r));
    rewrite ?Eoff; try done.
  { by rewrite E2. } { by rewrite E3, E4. }
  intros s2 m2 hs2 nd2 T2 Hinv2 Hc2 Hf2 F2 Hfree2.
  assert (F02 : fs_rel (put_inode ip nd2 (move f (off + n) (calls 1 s))) s2)
    by (eapply fs_rel_put_trans; [exact (fs_rel_move f (off + n) _ _ F01)|exact F2]).
  destruct (fs_rel_log _ _ F02) as [G1 G2]. apply wpr_bind.
  eapply wpr_crash_mono; [eapply (end_op_wp start s2 hs2 m2 k); try done|].
  - rewrite G2. exact R3.
  - intros s3 m3 k3 A3 F3 Hm3. destruct (rest_ext m2 m3 inum nd2 Hm3 Hc2) as (H1 & H2 & H3).
    destruct (fs_inv_ext g Hg m2 m3) as [H4 H5]; [|done|].
    { intros b Hb. apply Hm3. unfold in_log_area. lia. }
    apply (HQ s3 m3 k3 nd2); [done..| | |unfold need in *; rewrite H2, H3; exact Hfree2].
    + intros j. by rewrite H5.
    + eapply fs_rel_trans; [|exact F3]. apply (fs_rel_calls 0) in F02.
      rewrite <- (calls_same 0 s R2). exact F02.
  - intros s3 Hs3. destruct Hs3 as [Hh Hs3]. destruct Hs3 as [Ho|Hn3].
    + apply HC0. eapply (crash_commit _ s m k m); try done. by split; [|left].
    + apply HC1. split; [done|]. by exists m2.
Qed.

(** ** The loop of [filewrite] *)

Lemma open_file_next m s m' s' f ip inum c c' o nd' :
  open_file g m s f ip inum c -> fs_rel (put_inode ip nd' (move f o s)) s' ->
  cached_inode g m' inum nd' -> files g m' inum = Some c' -> 0 <= o <= Z.of_nat (length c') ->
  open_file g m' s' f ip inum c' /\ f_off (file_at s' f) = o.
Proof.
  intros [O1 O2 O3 O4 O5 O6] F Hc Hf Ho.
  assert (Hlt : (f < length (k_ftable s))%nat).
  { destruct (decide (f < length (k_ftable s))%nat) as [|H]; [done|]. unfold file_at in O1.
    by rewrite lookup_ge_None_2 in O1 by lia. }
  pose proof (fs_rel_file _ _ f F) as Ef. change (file_at (put_inode ip nd' (move f o s)) f) with (file_at (move f o s) f) in Ef.
  rewrite file_at_move, decide_True in Ef by done.
  destruct (fs_rel_inode ip nd' (move f o s) s' F O3) as [E1 E2].
  assert (Eo : f_off (file_at s' f) = o) by (by rewrite Ef). split; [|done].
  split; rewrite ?Ef, ?E1, ?E2; done.
Qed.

(** What has been written when a transaction is done and the next one has
    written the first part of the rest. *)
Lemma prefix_next inum off d1 d2 F c F1 F' :
  Z.of_nat (length d1) = write_max \/ d2 = [] -> F inum = Some c -> 0 <= off <= Z.of_nat (length c) ->
  (forall j, F1 j = file_put inum off d1 F j) ->
  prefix_written inum (off + Z.of_nat (length d1)) d2 F1 F' -> prefix_written inum off (d1 ++ d2) F F'.
Proof.
  intros Hl Hc Ho HF1 (j & Hj & Hm & HF'). exists (Z.of_nat (length d1) + j). rewrite length_app. split_and!; [lia..| |].
  - destruct Hm as [->|Hm]; [left; lia|]. destruct Hl as [->| ->]; [right|left; simpl in *; lia].
    change write_max with 6656 in *. rewrite Z.add_mod, Hm by lia. done.
  - intros x. rewrite HF', (file_put_ext _ _ _ _ _ x (HF1 x)), (file_put_app inum off d1 _ F c) by done.
    f_equal. rewrite Z2Nat.inj_add, Nat2Z.id by lia. symmetry. apply take_app_add.
Qed.

Lemma nblocks_split off a b :
  0 <= off -> 0 <= a -> 0 <= b -> nblocks_at off a + nblocks_at (off + a) b <= nblocks_at off (a + b) + 1.
Proof.
  intros H1 H2 H3. unfold nblocks_at. replace (off + a + b) with (off + (a + b)) by lia.
  change BSIZE with 512.
  assert ((off + a + 511) / 512 <= (off + a) / 512 + 1); [|lia].
  pose proof (Z.div_mod (off + a) 512 ltac:(lia)). pose proof (Z.mod_pos_bound (off + a) 512 ltac:(lia)).
  apply Z.lt_succ_r, Z.div_lt_upper_bound; lia.
Qed.

(** A run of [r] bytes is cut into transactions of [write_max]; each may count
    one block twice. *)
Lemma write_cut off r :
  0 <= off -> 0 < r -> let n1 := Z.min r write_max in
  0 < n1 <= write_max /\ n1 <= r /\ (n1 = write_max \/ r - n1 = 0) /\
  nblocks_at off n1 <= nblocks_at off r + r / write_max /\
  (0 < r - n1 -> nblocks_at off n1 + nblocks_at (off + n1) (r - n1) + (r - n1) / write_max <=
     nblocks_at off r + r / write_max).
Proof.
  intros Ho Hr n1. change write_max with 6656 in *. unfold n1. split_and!; [lia..| |].
  - assert (0 <= r / 6656) by (apply Z.div_pos; lia).
    assert (nblocks_at off (Z.min r 6656) <= nblocks_at off r); [|lia].
    unfold nblocks_at. apply Z.sub_le_mono_r, Z.div_le_mono; lia.
  - intros H. rewrite Z.min_r by lia. pose proof (nblocks_split off 6656 (r - 6656) Ho ltac:(lia) ltac:(lia)) as Hs.
    replace (6656 + (r - 6656)) with r in Hs by lia.
    replace (r / 6656) with ((r - 6656) / 6656 + 1); [lia|].
    rewrite <- (Z.div_add _ 1) by lia. f_equal. lia.
Qed.

Lemma prefix_none inum off d F F' : (forall j, F' j = F j) -> prefix_written inum off d F F'.
Proof.
  intros H. exists 0. split_and!; [lia..|by right|]. intros x. by rewrite H, file_put_nil.
Qed.

Lemma filewrite_loop_wp fuel s m k f ip inum c addr j n d (C : kernel -> Prop) (Q : Z -> kernel -> Prop) :
  at_rest start i s m k -> fs_inv g m -> open_file g m s f ip inum c ->
  let off := f_off (file_at s f) in
  0 <= j <= n -> n - j <= write_max * Z.of_nat fuel -> off + (n - j) <= MAXFILE * BSIZE ->
  umem_read (k_mem s) (cur_pgdir s) (u32 (addr + j)) (Z.to_nat (n - j)) = Some d -> bytes_ok d ->
  (j < n -> need m inum + nblocks_at off (n - j) + (n - j) / write_max <= Z.of_nat (nfree g m)) ->
  (forall s1, crash_ok (prefix_written inum off d (files g m)) s1 -> C s1) ->
  (forall s' m' k' nd', at_rest start i s' m' k' -> fs_inv g m' -> cached_inode g m' inum nd' ->
     (forall x, files g m' x = file_put inum off d (files g m) x) ->
     fs_rel (put_inode ip nd' (move f (off + (n - j)) s)) s' -> Q n s') ->
  wpr R C (filewrite_loop fuel f ip addr j n) s Q.
Proof.
  revert s m k c j d. induction fuel as [|fuel IH];
    intros s m k c j d Hrest Hinv Hopen off Hj Hfuel Hmax Hsrc Hbytes Hfree HC HQ; cbn [filewrite_loop].
  all: pose proof (length_umem_read _ _ _ _ _ Hsrc) as Hld; pose proof (op_off _ _ _ _ _ _ _ Hopen) as Hoff; fold off in Hoff.
  all: destruct (Z.ltb_spec j n) as [Hlt|Hge]; cbn [negb].
  1: lia.
  1, 3: assert (j = n) as -> by lia; rewrite Z.sub_diag in *; apply length_zero_iff_nil in Hld as ->;
    apply wpr_ret; eapply (HQ s m k (inode_at s ip)); [done|done|by eapply op_cached| |];
    [intros x; by rewrite file_put_nil|unfold off; rewrite Z.add_0_r, move_id, put_inode_id; apply fs_rel_refl].
  specialize (Hfree Hlt). destruct (write_cut off (n - j) ltac:(lia) ltac:(lia)) as (Hn1 & Hn2 & Hn3 & Hnb & Hnext).
  set (n1 := Z.min (n - j) write_max) in *.
  replace (Z.to_nat (n - j)) with (Z.to_nat n1 + Z.to_nat (n - j - n1))%nat in Hsrc by lia.
  destruct (umem_read_split _ _ _ _ _ _ (u32_range _) Hsrc) as [Hs1 Hs2].
  set (d1 := take (Z.to_nat n1) d) in *. set (d2 := drop (Z.to_nat n1) d) in *.
  assert (Hd : d = d1 ++ d2) by (symmetry; apply take_drop).
  pose proof (length_umem_read _ _ _ _ _ Hs1) as Hl1. pose proof (length_umem_read _ _ _ _ _ Hs2) as Hl2.
  assert (Hl1' : Z.of_nat (length d1) = n1) by lia.
  assert (Hcut : Z.of_nat (length d1) = write_max \/ d2 = []).
  { rewrite Hl1'. destruct Hn3 as [->|Hz]; [by left|right]. apply length_zero_iff_nil. lia. }
  pose proof (op_file _ _ _ _ _ _ _ Hopen) as Hc.
  eapply (write_op_wp s m k f ip inum c (u32 (addr + j)) n1 d1 C); fold off; try done; try lia.
  - apply u32_range.
  - by apply Forall_take.
  - intros s1 H1. apply HC. eapply crash_mono; [|exact H1]. intros F HF. by apply prefix_none.
  - intros s1 H1. apply HC. eapply crash_mono; [|exact H1]. intros F HF. rewrite Hd.
    eapply (prefix_next inum off d1 d2 (files g m) c F); try done. by apply prefix_none.
  - intros s' m' k' nd' A' I' C' F' L' N'.
    destruct (Z.ltb_spec n1 0); [lia|]. rewrite Z.eqb_refl. cbn [negb].
    set (c' := splice c (Z.to_nat off) d1).
    assert (Hc' : files g m' inum = Some c') by (rewrite F'; unfold file_put; rewrite decide_True, Hc by done; done).
    assert (Hlc : off + n1 <= Z.of_nat (length c')).
    { unfold c', splice. rewrite !length_app, length_take. lia. }
    destruct (open_file_next m s m' s' f ip inum c c' (off + n1) nd' Hopen L' C' Hc' ltac:(lia)) as [O' Eo].
    destruct (fs_rel_fields _ _ L') as (E3 & E4 & _).
    eapply (IH s' m' k' c' (j + n1) d2); rewrite ?Eo; try done; try lia.
    + change write_max with 6656 in *. lia.
    + rewrite E3, E4. replace (n - (j + n1)) with (n - j - n1) by lia.
      change (umem_read (k_mem s) (cur_pgdir s) (u32 (addr + (j + n1))) (Z.to_nat (n - j - n1)) = Some d2).
      rewrite <- Hs2. f_equal. rewrite Z2Nat.id by lia. wrap_unfold. rewrite Zplus_mod_idemp_l. f_equal. lia.
    + by apply Forall_drop.
    + intros Hm. replace (n - (j + n1)) with (n - j - n1) by lia. lia.
    + intros s1 H1. apply HC. eapply crash_mono; [|exact H1]. intros F HF. rewrite Hd.
      eapply (prefix_next inum off d1 d2 (files g m) c (files g m')); try done. by rewrite Hl1'.
    + intros s2 m2 k2 nd2 A2 I2 C2 F2 L2. apply (HQ s2 m2 k2 nd2); try done.
      * intros x. rewrite F2, Hd, (file_put_ext _ _ _ _ _ x (F' x)). rewrite <- Hl1'. by apply (file_put_app inum off d1 d2 _ c).
      * replace (off + (n - j)) with (off + n1 + (n - (j + n1))) by lia. by eapply fs_rel_moves.
Qed.

Lemma filewrite_wp s m k f ip inum c addr n d (C : kernel -> Prop) (Q : Z -> kernel -> Prop) :
  at_rest start i s m k -> fs_inv g m -> open_file g m s f ip inum c -> f_writable (file_at s f) <> 0 ->
  let off := f_off (file_at s f) in
  0 <= n -> off + n <= MAXFILE * BSIZE -> is_u32 addr ->
  umem_read (k_mem s) (cur_pgdir s) addr (Z.to_nat n) = Some d -> bytes_ok d ->
  need m inum + nblocks_at off n + n / write_max <= Z.of_nat (nfree g m) ->
  (forall s1, crash_ok (prefix_written inum off d (files g m)) s1 -> C s1) ->
  (forall s' m' k' nd', at_rest start i s' m' k' -> fs_inv g m' -> cached_inode g m' inum nd' ->
     (forall x, files g m' x = file_put inum off d (files g m) x) ->
     fs_rel (put_inode ip nd' (move f (off + n) s)) s' -> Q n s') ->
  wpr R C (filewrite f addr n) s Q.
Proof.
  intros Hrest Hinv Hopen Hwr off Hn Hmax Haddr Hsrc Hbytes Hfree HC HQ.
  unfold filewrite. apply wpr_bind, wpr_gets.
  destruct (Z.eqb_spec (f_writable (file_at s f)) 0) as [H|_]; [done|].
  rewrite (op_type _ _ _ _ _ _ _ Hopen). unfold ip_of. rewrite (op_ip _ _ _ _ _ _ _ Hopen).
  apply wpr_bind, wpr_ret, wpr_bind.
  eapply (filewrite_loop_wp _ s m k f ip inum c addr 0 n d C); rewrite ?Z.sub_0_r, ?Z.add_0_r; try done.
  - change write_max with 6656. pose proof (Z.div_mod n 6656 ltac:(lia)). pose proof (Z.mod_pos_bound n 6656 ltac:(lia)).
    pose proof (Z.div_pos n 6656 Hn ltac:(lia)). lia.
  - by rewrite u32_id.
  - intros s' m' k' nd' A' I' C' F' L'. apply wpr_ret. rewrite Z.eqb_refl. by apply (HQ s' m' k' nd').
Qed.
End file.

(** ** Theorems *)

(** C6: [fileread] of an open file returns the number of bytes between the
    offset and the end of the file, at most [n], copies exactly those bytes of
    the file to the user's memory, advances the offset by their number, and
    changes nothing else: not the file system, not the disk. *)
Theorem fileread_correct {E : Env} {i R} {HD : Driver E i R} g s m k f ip inum c addr n M :
  geom_ok g -> at_rest (g_start g) i s m k -> fs_inv g m -> open_file g m s f ip inum c ->
  f_readable (file_at s f) <> 0 -> 0 <= n < 2 ^ 31 -> is_u32 addr ->
  let off := f_off (file_at s f) in
  let d := take (Z.to_nat n) (drop (Z.to_nat off) c) in
  umem_write (k_mem s) (cur_pgdir s) addr d = Some M ->
  wpr R (fun s1 => k_disk s1 = k) (fileread f addr n) s (fun r s' =>
    r = Z.of_nat (length d) /\ at_rest (g_start g) i s' m k /\
    exists nd', cached_inode g m inum nd' /\ fs_rel (put_inode ip nd' (move f (off + r) (s <| k_mem := M |>))) s').
Proof.
  intros Hg H1 H2 H3 H4 H5 H6 off d HM.
  eapply (fileread_wp g Hg s m k f ip inum c addr n M); try done.
  intros s' nd' A' C' F'. split_and!; [done..|]. by exists nd'.
Qed.

(** C5: [filewrite] of [n] bytes to an open file writes all of them and returns
    [n]: seen as a function from inode numbers to contents, the file system has
    changed by the bytes of the user's memory replacing those at the offset, and
    in no other way; it still satisfies its invariant, and the offset has
    advanced.  The file may grow, up to [MAXFILE] blocks, as long as there are
    free blocks. *)
Theorem filewrite_correct {E : Env} {i R} {HD : Driver E i R} g s m k f ip inum c addr n d :
  geom_ok g -> at_rest (g_start g) i s m k -> fs_inv g m -> open_file g m s f ip inum c ->
  f_writable (file_at s f) <> 0 ->
  let off := f_off (file_at s f) in
  0 <= n -> off + n <= MAXFILE * BSIZE -> is_u32 addr ->
  umem_read (k_mem s) (cur_pgdir s) addr (Z.to_nat n) = Some d -> bytes_ok d ->
  need m inum + nblocks_at off n + n / write_max <= Z.of_nat (nfree g m) ->
  wpr R (fun _ => True) (filewrite f addr n) s (fun r s' =>
    r = n /\ exists m' k' nd', at_rest (g_start g) i s' m' k' /\ fs_inv g m' /\ cached_inode g m' inum nd' /\
      (forall j, files g m' j = file_put inum off d (files g m) j) /\
      fs_rel (put_inode ip nd' (move f (off + n) s)) s').
Proof.
  intros Hg H1 H2 H3 H4 off H5 H6 H7 H8 H9 H10.
  eapply (filewrite_wp g Hg s m k f ip inum c addr n d); try done.
  intros s' m' k' nd' A' I' C' F' L'. split; [done|]. by exists m', k', nd'.
Qed.

(** C4: a crash at any moment of [filewrite], followed by any number of crashes
    during recovery and a recovery that completes, leaves a file system that
    satisfies its invariant and in which the file has received a prefix of the
    data, made of whole transactions, while every other file is as before. *)
Theorem filewrite_crash_safe {E : Env} {i R} {HD : Driver E i R} g s m k f ip inum c addr n d :
  geom_ok g -> at_rest (g_start g) i s m k -> fs_inv g m -> open_file g m s f ip inum c ->
  f_writable (file_at s f) <> 0 ->
  let off := f_off (file_at s f) in
  0 <= n -> off + n <= MAXFILE * BSIZE -> is_u32 addr ->
  umem_read (k_mem s) (cur_pgdir s) addr (Z.to_nat n) = Some d -> bytes_ok d ->
  need m inum + nblocks_at off n + n / write_max <= Z.of_nat (nfree g m) ->
  wpr R (fun s1 => forall k', recovers i R (g_start g) (k_disk s1) k' ->
      fs_inv g (dblock k' ROOTDEV) /\
      prefix_written inum off d (files g m) (files g (dblock k' ROOTDEV)))
    (filewrite f addr n) s
    (fun _ s' => forall k', recovers i R (g_start g) (k_disk s') k' ->
      fs_inv g (dblock k' ROOTDEV) /\
      forall j, files g (dblock k' ROOTDEV) j = file_put inum off d (files g m) j).
Proof.
  intros Hg H1 H2 H3 H4 off H5 H6 H7 H8 H9 H10.
  eapply (filewrite_wp g Hg s m k f ip inum c addr n d); try done.
  - intros s1 Hs1 k' Hrec. destruct (crash_recovers g Hg _ s1 k' Hs1 Hrec) as [G1 (F & (j & Hj & Hm & HF) & G2)].
    split; [done|]. exists j. split_and!; [lia..|done|]. intros x. by rewrite G2, HF.
  - intros s' m' k1 nd' A' I' C' F' L' k' Hrec.
    assert (Hok : crash_ok g (fun F => forall j, F j = files g m' j) s').
    { eapply (crash_rest g _ s' m' k1 s'); try done. apply (ar_txn _ _ _ _ _ A'). }
    destruct (crash_recovers g Hg _ s' k' Hok Hrec) as [G1 (F & HF & G2)].
    split; [done|]. intros x. by rewrite G2, HF, F'.
Qed.
