(* ===== verification/Proc.v ===== *)
(** proc.c: creation, growth and end of processes.

    The trap frame and the initial context of a process are words of its
    kernel stack.  The addresses of [trapret] and [forkret] and the program
    embedded in the kernel are those of an [Image]. *)
From S2P Require Import Prelude Memory Kernel CString Spinlock Console Sched Kalloc Ide.
From S2P Require Import Bytes Bio Log Inode Vm Umem Tty Fs File.

(** What the linker puts in the kernel image. *)
Class Image := {
  trapret_addr : Z;
  forkret_addr : Z;
  initcode_start : Z;
  initcode_size : Z;
}.

(** ** Trap frames (x86.h) *)

Definition tf_size : Z := 76.
Definition tf_eax : Z := 28.
Definition tf_es : Z := 40.
Definition tf_ds : Z := 44.
Definition tf_trapno : Z := 48.
Definition tf_err : Z := 52.
Definition tf_eip : Z := 56.
Definition tf_cs : Z := 60.
Definition tf_eflags : Z := 64.
Definition tf_esp : Z := 68.
Definition tf_ss : Z := 72.

Definition store16 (m : memory) (a v : Z) : memory := store8 (store8 m a v) (a + 1) (v / 2 ^ 8).
Definition load16 (m : memory) (a : Z) : Z := load8 m a + 2 ^ 8 * load8 m (a + 1).

Definition SEG_UCODE : Z := 4.
Definition SEG_UDATA : Z := 5.
Definition DPL_USER : Z := 3.

(** ** Creation *)

Definition pinit : K unit := initlock L_ptable "ptable".

(** [10000 / tickets]; a division by zero traps in the kernel. *)
Definition stride_of (tickets : Z) : K Z :=
  if tickets =? 0 then panic "trap" else mret (Z.quot 10000 tickets).

Definition debugging : K bool := gets (fun s => c_true (k_isDebug s)).
Definition round_robin : K bool := gets (fun s => c_true (k_isRoundRobin s)).

Section proc.
Context {E : Env} {I : Image}.

(** The tickets, pass and stride of the new process [p]. *)
Definition alloc_stride (p : nat) (tickets : Z) : K unit :=
  set_proc p (fun x => x <| p_tickets := tickets |>);;
  set_proc p (fun x => x <| p_pass := 0 |>);;
  stride ← stride_of tickets;
  set_proc p (fun x => x <| p_stride := stride |>);;
  set_proc p (fun x => x <| p_limitpass := stride |>);;
  dbg ← debugging;
  pid ← gets (fun s => p_pid (proc_at s p));
  when dbg (cprintf (Some (str "
|-Processo pid %d criado com %d tickets-|
")) [AInt pid; AInt tickets]).

Definition allocproc (tickets : Z) : K (option nat) :=
  acquire L_ptable;;
  t ← gets k_ptable;
  match find_first (fun p => state_eqb (p_state p) UNUSED) t with
  | None => release L_ptable;; mret None
  | Some p =>
      set_proc p (fun x => x <| p_state := EMBRYO |>);;
      pid ← gets k_nextpid;
      modify (fun s => s <| k_nextpid := i32 (pid + 1) |>);;
      set_proc p (fun x => x <| p_pid := pid |>);;
      rr ← round_robin;
      when (negb rr) (alloc_stride p tickets);;
      release L_ptable;;
      kstack ← kalloc;
      set_proc p (fun x => x <| p_kstack := kstack |>);;
      if kstack =? 0 then
        set_proc p (fun x => x <| p_state := UNUSED |>);; mret None
      else
        let sp := u32 (kstack + KSTACKSIZE - tf_size) in
        set_proc p (fun x => x <| p_tf := sp |>);;
        set_mem (fun m => store32 m (u32 (sp - 4)) trapret_addr);;
        let context := u32 (sp - 4 - 20) in
        set_proc p (fun x => x <| p_context := context |>);;
        set_mem (fun m => memset m context 0 20);;
        set_mem (fun m => store32 m (context + 16) forkret_addr);;
        mret (Some p)
  end.

(** [safestrcpy(p->name, s, sizeof(p->name))] for a C string [s]. *)
Definition copy_name (s : list Z) (name : list Z) : list Z :=
  splice name 0 (take 15 s ++ [0]).

Definition userinit : K unit :=
  p ← allocproc 300;
  modify (fun s => s <| k_initproc := p |>);;
  match p with
  | None => panic "trap"
  | Some p =>
      pgdir ← setupkvm;
      set_proc p (fun x => x <| p_pgdir := pgdir |>);;
      if pgdir =? 0 then panic "userinit: out of memory?" else
      inituvm pgdir initcode_start initcode_size;;
      set_proc p (fun x => x <| p_sz := PGSIZE |>);;
      tf ← gets (fun s => p_tf (proc_at s p));
      let ds := Z.lor (Z.shiftl SEG_UDATA 3) DPL_USER in
      set_mem (fun m => memset m tf 0 tf_size);;
      set_mem (fun m => store16 m (tf + tf_cs) (Z.lor (Z.shiftl SEG_UCODE 3) DPL_USER));;
      set_mem (fun m => store16 m (tf + tf_ds) ds);;
      set_mem (fun m => store16 m (tf + tf_es) ds);;
      set_mem (fun m => store16 m (tf + tf_ss) ds);;
      set_mem (fun m => store32 m (tf + tf_eflags) FL_IF);;
      set_mem (fun m => store32 m (tf + tf_esp) PGSIZE);;
      set_mem (fun m => store32 m (tf + tf_eip) 0);;
      set_proc p (fun x => x <| p_name ::= copy_name (str "initcode") |>);;
      cwd ← namei (str "/");
      set_proc p (fun x => x <| p_cwd := cwd |>);;
      set_proc p (fun x => x <| p_state := RUNNABLE |>)
  end.

Definition growproc (n : Z) : K Z :=
  cur ← deref_proc;
  p ← gets (fun s => proc_at s cur);
  let sz := p_sz p in
  sz' ←
    (if 0 <? n then allocuvm (p_pgdir p) sz (u32 (sz + n))
     else if n <? 0 then deallocuvm (p_pgdir p) sz (u32 (sz + n))
     else mret sz);
  if negb (n =? 0) && (sz' =? 0) then mret (-1) else
  set_proc cur (fun x => x <| p_sz := sz' |>);;
  switchuvm cur;;
  mret 0.

(** [for(i = 0; i < NOFILE; i++) if(proc->ofile[i]) np->ofile[i] = filedup(...)] *)
Fixpoint dup_files (cur np : nat) (fds : list nat) : K unit :=
  match fds with
  | [] => mret tt
  | i :: fds' =>
      f ← gets (fun s => default None (p_ofile (proc_at s cur) !! i));
      (match f with
       | None => mret tt
       | Some f =>
           f' ← filedup f;
           set_proc np (fun x => x <| p_ofile ::= <[i := Some f']> |>)
       end);;
      dup_files cur np fds'
  end.

Definition forks (tickets : Z) : K Z :=
  np ← allocproc tickets;
  match np with
  | None => mret (-1)
  | Some np =>
      dbg ← debugging;
      pid ← gets (fun s => p_pid (proc_at s np));
      when dbg (cprintf (Some (str "
|-Fork pid %d executado com tickets %d-|")) [AInt pid; AInt tickets]);;
      cur ← deref_proc;
      p ← gets (fun s => proc_at s cur);
      pgdir ← copyuvm (p_pgdir p) (p_sz p);
      set_proc np (fun x => x <| p_pgdir := pgdir |>);;
      if pgdir =? 0 then
        kstack ← gets (fun s => p_kstack (proc_at s np));
        kfree kstack;;
        set_proc np (fun x => x <| p_kstack := 0 |>);;
        set_proc np (fun x => x <| p_state := UNUSED |>);;
        mret (-1)
      else
        set_proc np (fun x => x <| p_sz := p_sz p |>);;
        set_proc np (fun x => x <| p_parent := Some cur |>);;
        ntf ← gets (fun s => p_tf (proc_at s np));
        set_mem (fun m => store_bytes m ntf (load_bytes m (p_tf p) (Z.to_nat tf_size)));;
        set_proc np (fun x => x <| p_tickets := tickets |>);;
        set_proc np (fun x => x <| p_pass := 0 |>);;
        stride ← stride_of tickets;
        set_proc np (fun x => x <| p_stride := stride |>);;
        set_proc np (fun x => x <| p_limitpass := stride |>);;
        set_mem (fun m => store32 m (ntf + tf_eax) 0);;
        dup_files cur np (seq 0 NOFILE);;
        cwd ← (match p_cwd p with Some i => idup i | None => panic "trap" end);
        set_proc np (fun x => x <| p_cwd := Some cwd |>);;
        pid ← gets (fun s => p_pid (proc_at s np));
        rr ← round_robin;
        when rr (acquire L_ptable);;
        set_proc np (fun x => x <| p_state := RUNNABLE |>);;
        name ← gets (fun s => p_name (proc_at s cur));
        set_proc np (fun x => x <| p_name ::= copy_name (cstr name) |>);;
        rr ← round_robin;
        when rr (release L_ptable);;
        mret pid
  end.

Definition fork : K Z := forks 500.
Definition forkLowest : K Z := forks 100.
Definition forkLow : K Z := forks 300.
Definition forkMedium : K Z := forks 500.
Definition forkHigh : K Z := forks 750.
Definition forkHighest : K Z := forks 990.

(** ** End *)

Definition proc_chan (p : option nat) : channel :=
  match p with Some i => Ch_proc i | None => Ch_null end.

(** The loop that closes the files of [exit]. *)
Fixpoint close_files (cur : nat) (fds : list nat) : K unit :=
  match fds with
  | [] => mret tt
  | fd :: fds' =>
      f ← gets (fun s => default None (p_ofile (proc_at s cur) !! fd));
      (match f with
       | None => mret tt
       | Some f =>
           fileclose f;;
           set_proc cur (fun x => x <| p_ofile ::= <[fd := None]> |>)
       end);;
      close_files cur fds'
  end.

(** The loop that passes the children of [cur] to [init]. *)
Fixpoint abandon (cur : nat) (init : option nat) (ps : list nat) : K unit :=
  match ps with
  | [] => mret tt
  | i :: ps' =>
      p ← gets (fun s => proc_at s i);
      (if bool_decide (p_parent p = Some cur) then
         set_proc i (fun x => x <| p_parent := init |>);;
         when (state_eqb (p_state p) ZOMBIE) (wakeup1 (proc_chan init))
       else mret tt);;
      abandon cur init ps'
  end.

Definition exit : K unit :=
  dbg ← debugging;
  when dbg
    (cur ← deref_proc;
     p ← gets (fun s => proc_at s cur);
     cprintf (Some (str "
|-Processo finalizado PID[%d] Tickets[%d] Passos[%d] -|
")) [AInt (p_pid p); AInt (p_tickets p); AInt (p_pass p)]);;
  me ← gets curproc;
  init ← gets k_initproc;
  if bool_decide (me = init) then panic "init exiting" else
  cur ← deref_proc;
  close_files cur (seq 0 NOFILE);;
  rr ← round_robin;
  when rr begin_op;;
  cwd ← gets (fun s => p_cwd (proc_at s cur));
  (match cwd with Some i => iput i | None => panic "trap" end);;
  rr ← round_robin;
  when rr end_op;;
  set_proc cur (fun x => x <| p_cwd := None |>);;
  acquire L_ptable;;
  parent ← gets (fun s => p_parent (proc_at s cur));
  wakeup1 (proc_chan parent);;
  init ← gets k_initproc;
  abandon cur init (seq 0 NPROC);;
  set_proc cur (fun x => x <| p_state := ZOMBIE |>);;
  sched;;
  panic "zombie exit".

Definition is_child (cur : nat) (p : proc) : bool := bool_decide (p_parent p = Some cur).

(** The endless loop of [wait]; [fuel] is the number of times the process is
    woken without finding a zombie. *)
Fixpoint wait_loop (fuel : nat) (cur : nat) : K Z :=
  t ← gets k_ptable;
  match find_first (fun p => is_child cur p && state_eqb (p_state p) ZOMBIE) t with
  | Some i =>
      p ← gets (fun s => proc_at s i);
      let pid := p_pid p in
      kfree (p_kstack p);;
      set_proc i (fun x => x <| p_kstack := 0 |>);;
      freevm (p_pgdir p);;
      set_proc i (fun x => x <| p_state := UNUSED |> <| p_pid := 0 |> <| p_parent := None |>
                            <| p_name ::= <[0%nat := 0]> |> <| p_killed := 0 |>);;
      release L_ptable;;
      mret pid
  | None =>
      let havekids := existsb (is_child cur) t in
      killed ← gets (fun s => c_true (p_killed (proc_at s cur)));
      if negb havekids || killed then release L_ptable;; mret (-1) else
      match fuel with
      | O => nofuel
      | S fuel' => sleep (Ch_proc cur) (Some L_ptable);; wait_loop fuel' cur
      end
  end.

Definition wait : K Z :=
  acquire L_ptable;;
  cur ← deref_proc;
  wait_loop wakeups cur.

Definition forkret : K unit :=
  rr ← round_robin;
  if (rr : bool) then
    release L_ptable;;
    first ← gets k_first;
    when (c_true first)
      (modify (fun s => s <| k_first := 0 |>);; initlog)
  else release L_ptable.
End proc.

Definition switchDebug : K Z :=
  modify (fun s => s <| k_isDebug ::= fun x => c_bool (x =? 0) |>);;
  gets k_isDebug.
