(* ===== verification/Exec.v ===== *)
(** exec.c, with [loaduvm] of vm.c: loading a program. *)
From S2P Require Import Prelude Memory Kernel CString Spinlock Console Sched Kalloc Ide.
From S2P Require Import Bytes Bio Log Inode Vm Umem Tty Fs File.
From S2P Require Import Proc.

(** ** elf.h *)

Definition ELF_MAGIC : Z := 0x464C457F.
Definition ELF_PROG_LOAD : Z := 1.

(** The fields of [struct elfhdr] (52 bytes) that are used. *)
Definition elf_size : Z := 52.
Definition elf_magic (h : list Z) : Z := get32 h 0.
Definition elf_entry (h : list Z) : Z := get32 h 24.
Definition elf_phoff (h : list Z) : Z := get32 h 28.
Definition elf_phnum (h : list Z) : Z := get16 h 44.

(** [struct proghdr] (32 bytes). *)
Definition ph_size : Z := 32.
Record proghdr := Mkproghdr {
  ph_type : Z;
  ph_off : Z;
  ph_vaddr : Z;
  ph_paddr : Z;
  ph_filesz : Z;
  ph_memsz : Z;
  ph_flags : Z;
  ph_align : Z;
}.
Definition proghdr_of (d : list Z) : proghdr :=
  Mkproghdr (get32 d 0) (get32 d 4) (get32 d 8) (get32 d 12) (get32 d 16) (get32 d 20)
    (get32 d 24) (get32 d 28).

(** The bytes of an array of words. *)
Definition word_bytes (w : Z) : list Z := [u8 w; u8 (w / 2 ^ 8); u8 (w / 2 ^ 16); u8 (w / 2 ^ 24)].

(** The path after its last slash. *)
Fixpoint last_elem (s last : list Z) : list Z :=
  match s with
  | [] => last
  | c :: s' => last_elem s' (if c =? c_slash then s' else last)
  end.

Section exec.
Context {E : Env} {I : Image}.

Fixpoint loaduvm_loop (fuel : nat) (pgdir addr : Z) (ip : nat) (offset i sz : Z) : K Z :=
  if negb (i <? sz) then mret 0 else
  match fuel with
  | O => nofuel
  | S fuel' =>
      pte ← walkpgdir pgdir (u32 (addr + i)) false;
      if pte =? 0 then panic "loaduvm: address should exist" else
      v ← gets (fun s => load32 (k_mem s) pte);
      let n := if sz - i <? PGSIZE then sz - i else PGSIZE in
      '(r, _) ← readi ip (ToKernel (p2v (PTE_ADDR v))) (u32 (offset + i)) n;
      if negb (r =? n) then mret (-1) else
      loaduvm_loop fuel' pgdir addr ip offset (u32 (i + PGSIZE)) sz
  end.

Definition loaduvm (pgdir addr : Z) (ip : nat) (offset sz : Z) : K Z :=
  if negb (addr mod PGSIZE =? 0) then panic "loaduvm: addr must be page aligned" else
  loaduvm_loop (Z.to_nat (sz / PGSIZE + 1)) pgdir addr ip offset 0 sz.

(** The loop over the program headers: the size of the image, or [None] at
    [goto bad]. *)
Fixpoint load_segments (n : nat) (pgdir : Z) (ip : nat) (off sz : Z) : K (option Z) :=
  match n with
  | O => mret (Some sz)
  | S n' =>
      '(r, d) ← readi ip ToLocal (u32 off) ph_size;
      if negb (r =? ph_size) then mret None else
      let ph := proghdr_of d in
      if negb (ph_type ph =? ELF_PROG_LOAD)
      then load_segments n' pgdir ip (i32 (off + ph_size)) sz else
      if ph_memsz ph <? ph_filesz ph then mret None else
      sz ← allocuvm pgdir sz (u32 (ph_vaddr ph + ph_memsz ph));
      if sz =? 0 then mret None else
      r ← loaduvm pgdir (ph_vaddr ph) ip (ph_off ph) (ph_filesz ph);
      if r <? 0 then mret None else
      load_segments n' pgdir ip (i32 (off + ph_size)) sz
  end.

(** The loop that pushes the argument strings: the stack pointer and the
    addresses of the strings, or [None] at [goto bad]. *)
Fixpoint push_args (argv : list (list Z)) (argc pgdir sp : Z) (ustack : list Z) :
    K (option (Z * list Z)) :=
  match argv with
  | [] => mret (Some (sp, ustack))
  | a :: argv' =>
      if MAXARG <=? argc then mret None else
      let sp := Z.land (u32 (sp - (Z.of_nat (length a) + 1))) (u32 (Z.lnot 3)) in
      r ← copyout pgdir sp (a ++ [0]);
      if r <? 0 then mret None else
      push_args argv' (argc + 1) pgdir sp (ustack ++ [sp])
  end.

(** The label [bad]; [ip] is [None] once the inode has been released. *)
Definition exec_bad (pgdir : Z) (ip : option nat) : K Z :=
  when (c_true pgdir) (freevm pgdir);;
  (match ip with Some ip => iunlockput ip;; end_op | None => mret tt end);;
  mret (-1).

(** Replaces the image of the current process. *)
Definition exec_commit (path : list Z) (pgdir sz sp entry : Z) : K Z :=
  cur ← deref_proc;
  set_proc cur (fun x => x <| p_name ::= copy_name (last_elem path path) |>);;
  oldpgdir ← gets (fun s => p_pgdir (proc_at s cur));
  set_proc cur (fun x => x <| p_pgdir := pgdir |>);;
  set_proc cur (fun x => x <| p_sz := sz |>);;
  tf ← gets (fun s => p_tf (proc_at s cur));
  set_mem (fun m => store32 m (tf + tf_eip) entry);;
  set_mem (fun m => store32 m (tf + tf_esp) sp);;
  switchuvm cur;;
  freevm oldpgdir;;
  mret 0.

(** From the allocation of the user stack. *)
Definition exec_stack (path : list Z) (argv : list (list Z)) (pgdir sz entry : Z) : K Z :=
  let sz := PGROUNDUP sz in
  sz ← allocuvm pgdir sz (u32 (sz + 2 * PGSIZE));
  if sz =? 0 then exec_bad pgdir None else
  clearpteu pgdir (sz - 2 * PGSIZE);;
  r ← push_args argv 0 pgdir sz [];
  match r with
  | None => exec_bad pgdir None
  | Some (sp, args) =>
      let argc := Z.of_nat (length args) in
      let ustack := [0xffffffff; argc; u32 (sp - (argc + 1) * 4)] ++ args ++ [0] in
      let sp := u32 (sp - (3 + argc + 1) * 4) in
      r ← copyout pgdir sp (concat (word_bytes <$> ustack));
      if r <? 0 then exec_bad pgdir None
      else exec_commit path pgdir sz sp entry
  end.

Definition exec (path : list Z) (argv : list (list Z)) : K Z :=
  begin_op;;
  ip ← namei path;
  match ip with
  | None => end_op;; mret (-1)
  | Some ip =>
      ilock ip;;
      '(r, elf) ← readi ip ToLocal 0 elf_size;
      if u32 r <? elf_size then exec_bad 0 (Some ip) else
      if negb (elf_magic elf =? ELF_MAGIC) then exec_bad 0 (Some ip) else
      pgdir ← setupkvm;
      if pgdir =? 0 then exec_bad 0 (Some ip) else
      sz ← load_segments (Z.to_nat (elf_phnum elf)) pgdir ip (i32 (elf_phoff elf)) 0;
      match sz with
      | None => exec_bad pgdir (Some ip)
      | Some sz =>
          iunlockput ip;;
          end_op;;
          exec_stack path argv pgdir sz (elf_entry elf)
      end
  end.
End exec.
