(* ===== verification/Bootmain.v ===== *)
(** bootmain.c: the boot loader, which reads an ELF kernel from the disk.

    It runs on physical memory and the disk controller.  [spin] is how often the
    status of the controller is read before the model gives up. *)
From S2P Require Import Prelude Memory Kernel CString Hw Ata Console Bytes Exec.

Definition SECTSIZE : Z := 512.
Definition ELF_SCRATCH : Z := 65536.

Section bootmain.
Context {D : Type} `{!Device D}.

Abbreviation B := (M (board D memory)).

Fixpoint waitdisk (spin : nat) : B unit :=
  r ← inb 503;
  if Z.land r 192 =? 64 then mret tt
  else match spin with O => nofuel | S spin' => waitdisk spin' end.

(** [insl], to memory. *)
Definition insl (port addr : Z) (cnt : nat) : B unit :=
  l ← in_words port cnt;
  lift (modify (fun m => store_bytes m addr (bytes_of_words l))).

Definition readsect (spin : nat) (dst offset : Z) : B unit :=
  waitdisk spin;;
  outb 498 1;;
  outb 499 offset;;
  outb 500 (Z.shiftr offset 8);;
  outb 501 (Z.shiftr offset 16);;
  outb 502 (Z.lor (Z.shiftr offset 24) 224);;
  outb 503 32;;
  waitdisk spin;;
  insl 496 dst (Z.to_nat (SECTSIZE / 4)).

Fixpoint readseg_loop (fuel spin : nat) (pa epa offset : Z) : B unit :=
  if pa <? epa then
    match fuel with
    | O => nofuel
    | S fuel' =>
        readsect spin pa offset;;
        readseg_loop fuel' spin (u32 (pa + SECTSIZE)) epa (u32 (offset + 1))
    end
  else mret tt.

Definition readseg (spin : nat) (pa count offset : Z) : B unit :=
  let epa := u32 (pa + count) in
  let pa := u32 (pa - offset mod SECTSIZE) in
  let offset := offset / SECTSIZE + 1 in
  readseg_loop (Z.to_nat (count / SECTSIZE + 2)) spin pa epa offset.

(** The loop over the [n] program headers from [ph] on. *)
Fixpoint load_kernel (spin n : nat) (ph : Z) : B unit :=
  match n with
  | O => mret tt
  | S n' =>
      pa ← lift (gets (fun m => load32 m (ph + 12)));
      filesz ← lift (gets (fun m => load32 m (ph + 16)));
      off ← lift (gets (fun m => load32 m (ph + 4)));
      readseg spin pa filesz off;;
      memsz ← lift (gets (fun m => load32 m (ph + 20)));
      filesz ← lift (gets (fun m => load32 m (ph + 16)));
      when (filesz <? memsz) (lift (modify (fun m => stosb m (u32 (pa + filesz)) 0 (memsz - filesz))));;
      load_kernel spin n' (u32 (ph + ph_size))
  end.

(** The address of the kernel's entry point, or [None] when what was read is not
    an ELF file. *)
Definition bootmain (spin : nat) : B (option Z) :=
  readseg spin ELF_SCRATCH 4096 0;;
  magic ← lift (gets (fun m => load32 m ELF_SCRATCH));
  if negb (magic =? ELF_MAGIC) then mret None else
  phoff ← lift (gets (fun m => load32 m (ELF_SCRATCH + 28)));
  phnum ← lift (gets (fun m => load8 m (ELF_SCRATCH + 44) + 2 ^ 8 * load8 m (ELF_SCRATCH + 45)));
  load_kernel spin (Z.to_nat phnum) (u32 (ELF_SCRATCH + phoff));;
  entry ← lift (gets (fun m => load32 m (ELF_SCRATCH + 24)));
  mret (Some entry).
End bootmain.

(** ** Reading a sector *)

Section read.
Context {D : Type} `{!Device D, !Ata D}.

Lemma waitdisk_poll spin (d : D) m :
  waitdisk spin (Mkboard d m) = match poll spin d with Some (_, d') => Ok tt (Mkboard d' m) | None => NoFuel end.
Proof.
  revert d; induction spin as [|spin IH]; intros d; cbn [waitdisk poll];
    unfold inb, in_reg, mbind, M_bind, mret, M_ret; cbn [bd_dev bd_st res_bind];
    destruct (d_in (Port8 503) d) as [v d1]; cbn [res_bind]; case_match; done || apply IH.
Qed.

(** What the loader writes to the command block. *)
Lemma readsect_command offset :
  0 <= offset < 2 ^ 28 ->
  [(Port8 498, u8 1); (Port8 499, u8 offset); (Port8 500, u8 (Z.shiftr offset 8)); (Port8 501, u8 (Z.shiftr offset 16));
   (Port8 502, u8 (Z.lor (Z.shiftr offset 24) 224)); (Port8 503, u8 32)] = command 32 0 offset.
Proof.
  intros Ho. unfold command. rewrite !Z.shiftr_div_pow2 by lia. repeat f_equal.
  assert (Hb : 0 <= offset / 2 ^ 24 < 16) by (Z.to_euclidean_division_equations; lia).
  assert (forall b, 0 <= b < 16 -> u8 (Z.lor b 224) = 224 + 16 * 0 + b) as H; [|by apply H].
  clear. intros b Hb. assert (exists n, (n < 16)%nat /\ b = Z.of_nat n) as (n & Hn & ->) by (exists (Z.to_nat b); lia).
  do 16 (destruct n as [|n]; [done|]). lia.
Qed.

Lemma readsect_spec spin dst offset x (d : D) m :
  ata_idle x d -> (ata_patience <= spin)%nat -> 0 <= offset < 2 ^ 28 ->
  length (x 0 offset) = 512%nat -> Forall is_u8 (x 0 offset) ->
  exists d', readsect spin dst offset (Mkboard d m) = Ok tt (Mkboard d' (store_bytes m dst (x 0 offset))) /\ ata_idle x d'.
Proof.
  intros Hi Hs Ho Hl Hb. destruct (ata_idle_poll x d Hi) as (st & d1 & E1 & H1).
  pose proof (ata_read x 0 offset d1 H1 ltac:(lia) Ho) as H2.
  destruct (ata_read_poll x 0 offset _ H2) as (st' & d3 & E3 & _ & H3).
  destruct (ata_data_in x 0 offset d3 H3 Hl) as (d4 & E4 & H4). exists d4. split; [|done].
  unfold readsect. rewrite (bind_ok _ _ _ tt (Mkboard d1 m)) by (rewrite waitdisk_poll; by rewrite (poll_mono _ spin d _ E1 Hs)).
  unfold outb, out_reg, mbind, M_bind. cbn [res_bind bd_dev bd_st].
  rewrite <- readsect_command in E3 by done. cbn [outs foldl] in E3.
  rewrite waitdisk_poll, (poll_mono _ spin _ _ E3 Hs). cbn [res_bind].
  unfold insl, mbind, M_bind. rewrite in_words_ins. change (Z.to_nat (SECTSIZE / 4)) with 128%nat. rewrite E4.
  cbn [res_bind lift modify lift_res bd_dev bd_st]. rewrite words_u32 by done. unfold lift. cbn.
  by rewrite (bytes_words _ 128).
Qed.
End read.

(** ** Reading a segment *)

(** The file [img], of [nsect] whole sectors, is on drive 0 from sector 1 on. *)
Definition on_disk (x : sectors) (img : list Z) (nsect : Z) : Prop :=
  Forall is_u8 img /\ 0 <= nsect < 2 ^ 28 - 1 /\ Z.of_nat (length img) = SECTSIZE * nsect /\
  forall k, 0 <= k < nsect -> x 0 (k + 1) = slice img (Z.to_nat (SECTSIZE * k)) 512.

(** Byte [i] of the file. *)
Definition file_at (img : list Z) (i : Z) : Z := get8 img (Z.to_nat i).

(** [m'] is [m] with the bytes of the file from [i] on at [lo, hi). *)
Definition loaded (img : list Z) (lo hi i : Z) (m m' : memory) : Prop :=
  forall a, load8 m' a = if decide (lo <= a < hi) then file_at img (i + (a - lo)) else load8 m a.

Section readseg.
Context {D : Type} `{!Device D, !Ata D} (x : sectors) (img : list Z) (nsect : Z) (spin : nat).
Context (Hdisk : on_disk x img nsect) (Hspin : (ata_patience <= spin)%nat).

Lemma sector_loaded m pa k :
  0 <= k < nsect -> loaded img pa (pa + SECTSIZE) (SECTSIZE * k) m (store_bytes m pa (x 0 (k + 1))).
Proof.
  intros Hk a. destruct Hdisk as (Hb & _ & Hl & Hx). rewrite (Hx k Hk). unfold slice, SECTSIZE in *.
  rewrite load8_store_bytes, length_take, length_drop.
  replace (Z.of_nat (512 `min` (length img - Z.to_nat (512 * k)))) with 512 by lia.
  case_decide as Ha; [|done]. rewrite lookup_take_lt by lia. rewrite lookup_drop. unfold file_at, get8.
  replace (Z.to_nat (512 * k) + Z.to_nat (a - pa))%nat with (Z.to_nat (512 * k + (a - pa))) by lia.
  destruct (img !! _) eqn:E; [|done]. simpl. apply u8_id. by eapply Forall_lookup_1.
Qed.

Lemma readseg_loop_spec n fuel pa epa k (d : D) m :
  ata_idle x d -> (n <= fuel)%nat -> 0 <= pa -> 0 <= k -> k + Z.of_nat n <= nsect ->
  pa + SECTSIZE * Z.of_nat n < 2 ^ 32 -> epa <= pa + SECTSIZE * Z.of_nat n < epa + SECTSIZE ->
  exists d' m', readseg_loop fuel spin pa epa (k + 1) (Mkboard d m) = Ok tt (Mkboard d' m') /\ ata_idle x d' /\
    loaded img pa (pa + SECTSIZE * Z.of_nat n) (SECTSIZE * k) m m'.
Proof.
  revert fuel pa k d m; induction n as [|n IH]; intros fuel pa k d m Hi Hf Hp Hk Hn Hw He.
  - exists d, m. split_and!; [|done|].
    + destruct fuel; cbn [readseg_loop]; (destruct (Z.ltb_spec pa epa); [lia|done]).
    + intros a. case_decide; [lia|done].
  - destruct fuel as [|fuel]; [lia|]. cbn [readseg_loop]. unfold SECTSIZE in *. destruct (Z.ltb_spec pa epa); [|lia].
    pose proof Hdisk as (Hb & Hns & Hl & Hx). unfold SECTSIZE in Hl.
    destruct (readsect_spec spin pa (k + 1) x d m Hi Hspin) as (d1 & E1 & Hi1); [lia|..].
    { rewrite Hx by lia. unfold slice, SECTSIZE. rewrite length_take, length_drop. lia. }
    { rewrite Hx by lia. unfold slice. by apply Forall_take, Forall_drop. }
    rewrite (bind_ok _ _ _ _ _ E1). pose proof (sector_loaded m pa k ltac:(lia)) as Hs. unfold SECTSIZE in Hs.
    rewrite !u32_id by (unfold is_u32; lia).
    destruct (IH fuel (pa + 512) (k + 1) d1 (store_bytes m pa (x 0 (k + 1)))) as (d' & m' & E & Hi' & Hm); try lia; [done|].
    exists d', m'. split_and!; [done|done|]. intros a. rewrite Hm, Hs.
    repeat case_decide; try lia; try done. f_equal. lia.
Qed.

Lemma readseg_spec pa count offset (d : D) m :
  ata_idle x d -> is_u32 pa -> 0 <= count -> 0 <= offset -> offset mod SECTSIZE <= pa ->
  pa + count + SECTSIZE < 2 ^ 32 -> offset + count <= Z.of_nat (length img) ->
  exists d' m' hi, readseg spin pa count offset (Mkboard d m) = Ok tt (Mkboard d' m') /\ ata_idle x d' /\
    pa + count <= hi /\ loaded img (pa - offset mod SECTSIZE) hi (SECTSIZE * (offset / SECTSIZE)) m m'.
Proof.
  intros Hi Hpa Hc Ho Hlo Hhi Hend. unfold readseg. pose proof Hdisk as (_ & Hns & Hl & _).
  pose proof (Z.div_mod offset SECTSIZE ltac:(done)). pose proof (Z.mod_pos_bound offset SECTSIZE ltac:(done)).
  set (r := offset mod SECTSIZE) in *. set (q := offset / SECTSIZE) in *.
  set (n := (count + r + 511) / SECTSIZE).
  assert (Hn : count + r <= SECTSIZE * n < count + r + SECTSIZE) by (unfold n, SECTSIZE in *; Z.to_euclidean_division_equations; lia).
  assert (Hq : 0 <= q) by (unfold q, SECTSIZE in *; Z.to_euclidean_division_equations; lia).
  rewrite !u32_id by (unfold is_u32, SECTSIZE in *; lia).
  destruct (readseg_loop_spec (Z.to_nat n) (Z.to_nat (count / SECTSIZE + 2)) (pa - r) (pa + count) q d m) as (d' & m' & E & Hi' & Hm);
    try (unfold SECTSIZE in *; lia); [done|unfold n, SECTSIZE in *; Z.to_euclidean_division_equations; lia|].
  exists d', m', (pa - r + SECTSIZE * Z.of_nat (Z.to_nat n)). split_and!; try done. unfold SECTSIZE in *. lia.
Qed.
End readseg.

(** ** Loading the kernel *)

(** Program header [i] of the file. *)
Definition phdr (img : list Z) (i : Z) : proghdr := proghdr_of (drop (Z.to_nat (elf_phoff img + ph_size * i)) img).

Definition seg_size (ph : proghdr) : Z := Z.max (ph_filesz ph) (ph_memsz ph).
Definition seg_start (ph : proghdr) : Z := ph_paddr ph - ph_off ph mod SECTSIZE.

(** The headers are in the first page of the file, and the segments lie above
    the loader's scratch page, in increasing order and below 4 GB. *)
Definition loadable (img : list Z) : Prop :=
  elf_phoff img + ph_size * elf_phnum img <= 4096 <= Z.of_nat (length img) /\
  (forall i, 0 <= i < elf_phnum img -> let ph := phdr img i in
     ELF_SCRATCH + 4096 <= seg_start ph /\ ph_paddr ph + seg_size ph + SECTSIZE < 2 ^ 32 /\
     ph_off ph + ph_filesz ph <= Z.of_nat (length img)) /\
  (forall i j, 0 <= i < j -> j < elf_phnum img ->
     ph_paddr (phdr img i) + seg_size (phdr img i) <= seg_start (phdr img j)).

(** The segment is in memory, zeroes after its [filesz] bytes. *)
Definition in_memory (img : list Z) (m : memory) (ph : proghdr) : Prop :=
  forall j, 0 <= j < seg_size ph ->
    load8 m (ph_paddr ph + j) = if decide (j < ph_filesz ph) then file_at img (ph_off ph + j) else 0.

(** The first page of the file is in the scratch page. *)
Definition scratch (img : list Z) (m : memory) : Prop :=
  forall a, 0 <= a < 4096 -> load8 m (ELF_SCRATCH + a) = file_at img a.

Lemma get32_drop l k i : get32 (drop k l) i = get32 l (k + i).
Proof. unfold get32, get8. by rewrite !lookup_drop, !Nat.add_assoc. Qed.

Lemma scratch_load32 img m a : scratch img m -> 0 <= a -> a + 4 <= 4096 -> load32 m (ELF_SCRATCH + a) = get32 img (Z.to_nat a).
Proof.
  intros H Ha Hb. unfold load32, get32. rewrite <- !Z.add_assoc, !H by lia. unfold file_at.
  by rewrite !Z2Nat.inj_add by lia.
Qed.

(** The bytes after the file's. *)
Lemma zeroed m pa filesz memsz a :
  0 <= filesz ->
  load8 (if filesz <? memsz then stosb m (pa + filesz) 0 (memsz - filesz) else m) a =
  if decide (filesz <= a - pa < memsz) then 0 else load8 m a.
Proof.
  intros H. destruct (Z.ltb_spec filesz memsz); [|case_decide; [lia|done]].
  unfold stosb. rewrite load8_fill_bytes. repeat case_decide; done || lia.
Qed.

Section load.
Context {D : Type} `{!Device D, !Ata D} (x : sectors) (img : list Z) (nsect : Z) (spin : nat).
Context (Hdisk : on_disk x img nsect) (Hspin : (ata_patience <= spin)%nat) (Hload : loadable img).

(** Field [f] of program header [i]. *)
Lemma phdr_field i f m :
  0 <= i < elf_phnum img -> 0 <= f <= 28 -> scratch img m ->
  load32 m (ELF_SCRATCH + (elf_phoff img + ph_size * i) + f) =
  get32 (drop (Z.to_nat (elf_phoff img + ph_size * i)) img) (Z.to_nat f).
Proof.
  intros Hi Hf Hm. destruct Hload as (Hph & _). destruct Hdisk as (Hb & _).
  pose proof (get32_u32 img 28 Hb) as Ho. fold (elf_phoff img) in Ho. unfold ph_size, is_u32 in *.
  rewrite <- Z.add_assoc, (scratch_load32 img) by (done || lia). rewrite get32_drop. f_equal. lia.
Qed.

(** One turn of the loop. *)
Lemma load_one i n (d : D) m :
  0 <= i < elf_phnum img -> ata_idle x d -> scratch img m ->
  exists d' m', load_kernel spin (S n) (ELF_SCRATCH + (elf_phoff img + ph_size * i)) (Mkboard d m) =
      load_kernel spin n (ELF_SCRATCH + (elf_phoff img + ph_size * (i + 1))) (Mkboard d' m') /\ ata_idle x d' /\
    scratch img m' /\ in_memory img m' (phdr img i) /\
    forall a, a < seg_start (phdr img i) -> load8 m' a = load8 m a.
Proof.
  intros Hi Hd Hm. destruct Hload as (Hph & Hseg & _). destruct (Hseg i Hi) as (H1 & H2 & H3). clear Hseg.
  pose proof Hdisk as (Hb & _). set (ph := phdr img i) in *.
  pose proof (get32_u32 img 28 Hb) as Ho. fold (elf_phoff img) in Ho.
  assert (Hu : is_u32 (ph_paddr ph) /\ is_u32 (ph_filesz ph) /\ is_u32 (ph_memsz ph) /\ is_u32 (ph_off ph)).
  { split_and!; apply get32_u32; by apply Forall_drop. }
  destruct Hu as (Hu1 & Hu2 & Hu3 & Hu4). unfold is_u32 in *.
  destruct (readseg_spec x img nsect spin Hdisk Hspin (ph_paddr ph) (ph_filesz ph) (ph_off ph) d m) as (d' & m1 & hi & E & Hd' & Hhi & Hm1);
    [done|done|lia|lia|unfold seg_start, ELF_SCRATCH in *; lia|unfold seg_size, SECTSIZE in *; lia|lia|].
  assert (Hs1 : scratch img m1).
  { intros a Ha. rewrite Hm1, Hm by lia. case_decide; [|done]. unfold seg_start in *. lia. }
  exists d', (if ph_filesz ph <? ph_memsz ph then stosb m1 (ph_paddr ph + ph_filesz ph) 0 (ph_memsz ph - ph_filesz ph) else m1).
  split_and!; [|done| | |].
  - cbn [load_kernel]. rewrite !lift_gets, !phdr_field by (done || lia).
    change (get32 _ (Z.to_nat 12)) with (ph_paddr ph).
       change (get32 _ (Z.to_nat 16)) with (ph_filesz ph). change (get32 _ (Z.to_nat 4)) with (ph_off ph).
    rewrite (bind_ok _ _ _ _ _ E), !lift_gets, !phdr_field by (done || lia).
    change (get32 _ (Z.to_nat 20)) with (ph_memsz ph). change (get32 _ (Z.to_nat 16)) with (ph_filesz ph).
    rewrite !u32_id by (unfold is_u32, ph_size, ELF_SCRATCH, seg_size, SECTSIZE in *; lia).
    replace (ELF_SCRATCH + (elf_phoff img + ph_size * i) + ph_size) with (ELF_SCRATCH + (elf_phoff img + ph_size * (i + 1)))
      by lia. by destruct (ph_filesz ph <? ph_memsz ph).
  - intros a Ha. rewrite <- Hs1 by done. rewrite zeroed by lia. case_decide; [|done].
    unfold seg_start, ELF_SCRATCH, SECTSIZE in *. pose proof (Z.mod_pos_bound (ph_off ph) 512). lia.
  - intros j Hj. rewrite zeroed, Z.add_simpl_l by lia. unfold seg_size in Hj. repeat case_decide; try lia.
    rewrite Hm1. rewrite decide_True by (unfold SECTSIZE in *; pose proof (Z.mod_pos_bound (ph_off ph) 512); lia).
    f_equal. pose proof (Z.div_mod (ph_off ph) SECTSIZE ltac:(done)). lia.
  - intros a Ha. rewrite zeroed, Hm1 by lia. unfold seg_start, SECTSIZE in *.
    pose proof (Z.mod_pos_bound (ph_off ph) 512). repeat case_decide; done || lia.
Qed.

Lemma load_kernel_spec n i (d : D) m :
  0 <= i -> i + Z.of_nat n = elf_phnum img -> ata_idle x d -> scratch img m ->
  (forall k, 0 <= k < i -> in_memory img m (phdr img k)) ->
  exists d' m', load_kernel spin n (ELF_SCRATCH + (elf_phoff img + ph_size * i)) (Mkboard d m) = Ok tt (Mkboard d' m') /\
    ata_idle x d' /\ scratch img m' /\ forall k, 0 <= k < elf_phnum img -> in_memory img m' (phdr img k).
Proof.
  revert i d m; induction n as [|n IH]; intros i d m Hi Hn Hd Hm Hk.
  - exists d, m. split_and!; try done. intros k Hkk. apply Hk. lia.
  - destruct (load_one i n d m ltac:(lia) Hd Hm) as (d1 & m1 & E & Hd1 & Hs1 & Hi1 & Ho1). rewrite E.
    apply IH; [lia|lia|done|done|]. intros k Hkk. destruct (decide (k = i)) as [->|Hne]; [done|].
    intros j Hj. rewrite Ho1; [apply Hk; [lia|done]|].
    destruct Hload as (_ & _ & Hord). specialize (Hord k i ltac:(lia) ltac:(lia)). lia.
Qed.

End load.

(** C9: Let drive 0 hold a file of whole sectors, of at least a page, from sector 1
    on, behind a controller that follows the protocol.  If the file is not an
    ELF file the loader returns.  If it is, with its program headers in the
    first page and its segments in increasing order above the scratch page,
    the loader ends by entering the kernel at the file's entry point, with
    every segment in memory at its physical address: its bytes of the file,
    and zeroes up to its size in memory. *)
Theorem bootmain_correct {D} `{!Device D, !Ata D} x img nsect spin (d : D) m :
  on_disk x img nsect -> ata_idle x d -> (ata_patience <= spin)%nat -> 4096 <= Z.of_nat (length img) ->
  (elf_magic img = ELF_MAGIC -> loadable img) ->
  exists d' m',
    bootmain spin (Mkboard d m) =
      Ok (if elf_magic img =? ELF_MAGIC then Some (elf_entry img) else None) (Mkboard d' m') /\
    (elf_magic img = ELF_MAGIC -> forall i, 0 <= i < elf_phnum img -> in_memory img m' (phdr img i)).
Proof.
  intros Hdisk Hd Hspin Hlen Hload. unfold bootmain. pose proof Hdisk as (Hb & _ & Hl & _).
  destruct (readseg_spec x img nsect spin Hdisk Hspin ELF_SCRATCH 4096 0 d m) as (d1 & m1 & hi & E1 & Hd1 & Hhi & Hm1);
    [done|unfold is_u32, ELF_SCRATCH; lia|lia|lia|done|unfold ELF_SCRATCH, SECTSIZE; lia|lia|].
  rewrite (bind_ok _ _ _ _ _ E1).
  assert (Hs : scratch img m1).
  { intros a Ha. rewrite Hm1. change (0 mod SECTSIZE) with 0. rewrite decide_True by lia. unfold file_at. do 2 f_equal.
    change (SECTSIZE * (0 / SECTSIZE)) with 0. lia. }
  assert (E : forall a mm, scratch img mm -> 0 <= a -> a + 4 <= 4096 -> load32 mm (ELF_SCRATCH + a) = get32 img (Z.to_nat a))
    by (intros; by apply scratch_load32).
  pose proof (E 0 m1 Hs ltac:(lia) ltac:(lia)) as E0. rewrite Z.add_0_r in E0. rewrite lift_gets, E0. change (Z.to_nat 0) with 0%nat.
  fold (elf_magic img). destruct (Z.eqb_spec (elf_magic img) ELF_MAGIC) as [Hmag|Hmag]; cbn [negb].
  2: { exists d1, m1. split; [done|]. by intros. }
  specialize (Hload Hmag). rewrite !lift_gets, E by (done || lia). change (get32 img (Z.to_nat 28)) with (elf_phoff img).
  rewrite Hs, (Hs 45) by lia. change (file_at img 44 + _) with (elf_phnum img).
  pose proof Hload as (Hph & _). pose proof (get32_u32 img 28 Hb) as Ho. fold (elf_phoff img) in Ho.
  assert (Hn : 0 <= elf_phnum img).
  { unfold elf_phnum, get16. pose proof (get8_u8 img 44 Hb). pose proof (get8_u8 img 45 Hb). wrap_unfold. cbn [Nat.add]. lia. }
  destruct (load_kernel_spec x img nsect spin Hdisk Hspin Hload (Z.to_nat (elf_phnum img)) 0 d1 m1) as (d2 & m2 & E2 & Hd2 & Hs2 & Hin);
    [lia|lia|done|done|intros; lia|].
  rewrite Z.mul_0_r, Z.add_0_r in E2. unfold ph_size, is_u32 in *.
  rewrite u32_id by (unfold is_u32, ELF_SCRATCH; lia). rewrite (bind_ok _ _ _ _ _ E2), lift_gets, E by (done || lia).
  exists d2, m2. by split.
Qed.

(** ** A kernel of one segment *)

(** A file of ten sectors; the segment is the last two sectors, loaded at 1 MB
    and followed by 512 zeroes. *)
Definition tiny_kernel : list Z :=
  let ph l i := put_words l i [1; 4096; 2148532224; 1048576; 1024; 1536; 7; 4096] in
  let l := put_words (replicate 4096 0) 0 [ELF_MAGIC] in
  let l := put_words l 24 [1048588; 52] in
  ph (put16 l 44 1) 52%nat ++ replicate 1024 9.

Definition tiny_disk : sim :=
  Mksim ∅ (list_to_map ((fun k => ((0, Z.of_nat k + 1), slice tiny_kernel (512 * k) 512)) <$> seq 0 10)) [] None false.

Lemma tiny_on_disk : on_disk (sim_sectors tiny_disk) tiny_kernel 10.
Proof.
  split_and!; [|lia|lia|vm_compute; reflexivity|].
  - apply Forall_forall. intros y Hy. assert (forallb (fun v => (0 <=? v) && (v <? 256)) tiny_kernel = true) as H by (vm_compute; reflexivity).
    rewrite forallb_forall in H. specialize (H y (proj1 (list_elem_of_In _ _) Hy)). wrap_unfold. lia.
  - intros k Hk. assert (exists n, (n < 10)%nat /\ k = Z.of_nat n) as (n & Hn & ->) by (exists (Z.to_nat k); lia).
    do 10 (destruct n as [|n]; [vm_compute; reflexivity|]). lia.
Qed.

Lemma tiny_loadable : loadable tiny_kernel.
Proof.
  assert (Hn : elf_phnum tiny_kernel = 1) by (vm_compute; reflexivity).
  split_and!; [vm_compute; congruence..| |]; rewrite Hn.
  - intros i Hi. replace i with 0 by lia. split_and!; vm_compute; congruence.
  - lia.
Qed.

Lemma bootmain_correct_witness : exists d' m',
  bootmain 1 (Mkboard tiny_disk ∅) = Ok (Some 1048588) (Mkboard d' m') /\
  load8 m' 1048579 = 9 /\ load8 m' (1048576 + 1024) = 0.
Proof.
  destruct (bootmain_correct (sim_sectors tiny_disk) tiny_kernel 10 1 tiny_disk ∅) as (d' & m' & E & H).
  - exact tiny_on_disk.
  - split; [|done]. by intros dr n.
  - exact (Nat.le_refl 1).
  - vm_compute. congruence.
  - intros _. exact tiny_loadable.
  - exists d', m'. split; [rewrite E; f_equal|].
    assert (Hin : in_memory tiny_kernel m' (phdr tiny_kernel 0)) by (apply H; [vm_compute; reflexivity|split; vm_compute; congruence]).
    split; [pose proof (Hin 3) as G|pose proof (Hin 1024) as G].
    + change (ph_paddr (phdr tiny_kernel 0) + 3) with 1048579 in G. rewrite G by (vm_compute; split; congruence). vm_compute. reflexivity.
    + change (ph_paddr (phdr tiny_kernel 0) + 1024) with (1048576 + 1024) in G. rewrite G by (vm_compute; split; congruence).
      vm_compute. reflexivity.
Defined.
