(* ===== verification/Syscall.v ===== *)
(** syscall.c and sysproc.c: the arguments of system calls, and the calls about
    processes. *)
From S2P Require Import Prelude Memory Kernel CString Spinlock Console Sched Kalloc Ide.
From S2P Require Import Bytes Bio Log Inode Vm Umem Tty Fs File.
From S2P Require Import Proc Exec.

(** ** Arguments *)

Definition cur_sz : K Z := cur ← deref_proc; gets (fun s => p_sz (proc_at s cur)).

Definition fetchint (addr : Z) : K (option Z) :=
  sz ← cur_sz;
  if (sz <=? addr) || (sz <? u32 (addr + 4)) then mret None else
  v ← uread32 addr;
  mret (Some (i32 v)).

(** The string from [s], for at most [n] bytes. *)
Fixpoint fetchstr_loop (n : nat) (s : Z) : K (option (list Z)) :=
  match n with
  | O => mret None
  | S n' =>
      c ← uread8 s;
      if c =? 0 then mret (Some []) else
      r ← fetchstr_loop n' (s + 1);
      mret (match r with Some l => Some (c :: l) | None => None end)
  end.

Definition fetchstr (addr : Z) : K (option (list Z)) :=
  sz ← cur_sz;
  if sz <=? addr then mret None else
  fetchstr_loop (Z.to_nat (sz - addr)) addr.

Definition argint (n : Z) : K (option Z) :=
  cur ← deref_proc;
  esp ← gets (fun s => load32 (k_mem s) (p_tf (proc_at s cur) + tf_esp));
  fetchint (u32 (esp + 4 + 4 * n)).

Definition argptr (n size : Z) : K (option Z) :=
  i ← argint n;
  match i with
  | None => mret None
  | Some i =>
      sz ← cur_sz;
      if (sz <=? u32 i) || (sz <? u32 (u32 i + size)) then mret None
      else mret (Some (u32 i))
  end.

Definition argstr (n : Z) : K (option (list Z)) :=
  addr ← argint n;
  match addr with
  | None => mret None
  | Some addr => fetchstr (u32 addr)
  end.

(** ** sysproc.c *)

Section sysproc.
Context {E : Env} {I : Image}.

Definition sys_forkLowest : K Z := forkLowest.
Definition sys_forkLow : K Z := forkLow.
Definition sys_forkMedium : K Z := forkMedium.
Definition sys_forkHigh : K Z := forkHigh.
Definition sys_forkHighest : K Z := forkHighest.
Definition sys_fork : K Z := fork.
Definition sys_switchDebug : K Z := _ ← switchDebug; mret 0.
Definition sys_exit : K Z := exit;; mret 0.
Definition sys_wait : K Z := wait.

Definition sys_kill : K Z :=
  pid ← argint 0;
  match pid with None => mret (-1) | Some pid => kill pid end.

Definition sys_getpid : K Z := cur ← deref_proc; gets (fun s => p_pid (proc_at s cur)).

Definition sys_sbrk : K Z :=
  n ← argint 0;
  match n with
  | None => mret (-1)
  | Some n =>
      addr ← cur_sz;
      r ← growproc n;
      if r <? 0 then mret (-1) else mret (i32 addr)
  end.

(** [while(ticks - ticks0 < n)]: [false] when the process was killed, with the
    lock released. *)
Fixpoint sleep_ticks (fuel : nat) (ticks0 n : Z) : K bool :=
  ticks ← gets k_ticks;
  if negb (u32 (ticks - ticks0) <? u32 n) then mret true else
  killed ← cur_killed;
  if (killed : bool) then release L_tickslock;; mret false else
  match fuel with
  | O => nofuel
  | S fuel' => sleep Ch_ticks (Some L_tickslock);; sleep_ticks fuel' ticks0 n
  end.

Definition sys_sleep : K Z :=
  n ← argint 0;
  match n with
  | None => mret (-1)
  | Some n =>
      acquire L_tickslock;;
      ticks0 ← gets k_ticks;
      ok ← sleep_ticks wakeups ticks0 n;
      if negb ok then mret (-1) else
      release L_tickslock;;
      mret 0
  end.

Definition sys_uptime : K Z :=
  acquire L_tickslock;;
  xticks ← gets k_ticks;
  release L_tickslock;;
  mret (i32 xticks).

(** The format asks for five numbers and four are passed. *)
Definition sys_pidInfo : K unit :=
  cur ← deref_proc;
  p ← gets (fun s => proc_at s cur);
  cprintf (Some (str "
===================
Pid: %d
Stride: %d
Pass: %d
LimitPass %d
Tickets: %d")) [AInt (p_pid p); AInt (p_pass p); AInt (p_limitpass p); AInt (p_tickets p)].
End sysproc.
