(* ===== verification/Sysfile.v ===== *)
(** sysfile.c: the system calls on files; and the dispatch of system calls. *)
From S2P Require Import Prelude Memory Kernel CString Spinlock Console Sched Kalloc Ide.
From S2P Require Import Bytes Bio Log Inode Vm Umem Tty Fs File.
From S2P Require Import Proc Exec Syscall.

(** ** fcntl.h *)
Definition O_RDONLY : Z := 0x000.
Definition O_WRONLY : Z := 0x001.
Definition O_RDWR : Z := 0x002.
Definition O_CREATE : Z := 0x200.

(** ** Descriptors *)

(** The descriptor and the file. *)
Definition argfd (n : Z) : K (option (nat * nat)) :=
  fd ← argint n;
  match fd with
  | None => mret None
  | Some fd =>
      if (fd <? 0) || (Z.of_nat NOFILE <=? fd) then mret None else
      cur ← deref_proc;
      f ← gets (fun s => default None (p_ofile (proc_at s cur) !! Z.to_nat fd));
      mret (match f with Some f => Some (Z.to_nat fd, f) | None => None end)
  end.

Definition fdalloc (f : nat) : K Z :=
  cur ← deref_proc;
  fds ← gets (fun s => p_ofile (proc_at s cur));
  match find_first (fun o => bool_decide (o = None)) fds with
  | Some fd =>
      set_proc cur (fun x => x <| p_ofile ::= <[fd := Some f]> |>);;
      mret (Z.of_nat fd)
  | None => mret (-1)
  end.

(** [struct stat] in memory: type, dev, ino, nlink and size at offsets 0, 4, 8,
    12 and 16 of its 20 bytes; [stati] does not write the padding. *)
Definition put_stat (st : stat) (a : Z) : K unit :=
  uwrite a [u8 (st_type st); u8 (st_type st / 2 ^ 8)];;
  uwrite (u32 (a + 4)) (word_bytes (st_dev st));;
  uwrite (u32 (a + 8)) (word_bytes (st_ino st));;
  uwrite (u32 (a + 12)) [u8 (st_nlink st); u8 (st_nlink st / 2 ^ 8)];;
  uwrite (u32 (a + 16)) (word_bytes (st_size st)).

Section sysfile.
Context {E : Env} {I : Image}.

Definition sys_dup : K Z :=
  r ← argfd 0;
  match r with
  | None => mret (-1)
  | Some (_, f) =>
      fd ← fdalloc f;
      if fd <? 0 then mret (-1) else
      _ ← filedup f;
      mret fd
  end.

(** The file, the address and the count of [read] and [write]. *)
Definition arg_io : K (option (nat * Z * Z)) :=
  r ← argfd 0;
  match r with
  | None => mret None
  | Some (_, f) =>
      n ← argint 2;
      match n with
      | None => mret None
      | Some n =>
          p ← argptr 1 n;
          mret (match p with Some p => Some (f, p, n) | None => None end)
      end
  end.

Definition sys_read : K Z :=
  r ← arg_io;
  match r with None => mret (-1) | Some (f, p, n) => fileread f p n end.

Definition sys_write : K Z :=
  r ← arg_io;
  match r with None => mret (-1) | Some (f, p, n) => filewrite f p n end.

Definition sys_close : K Z :=
  r ← argfd 0;
  match r with
  | None => mret (-1)
  | Some (fd, f) =>
      cur ← deref_proc;
      set_proc cur (fun x => x <| p_ofile ::= <[fd := None]> |>);;
      fileclose f;;
      mret 0
  end.

Definition sys_fstat : K Z :=
  r ← argfd 0;
  match r with
  | None => mret (-1)
  | Some (_, f) =>
      st ← argptr 1 20;
      match st with
      | None => mret (-1)
      | Some a =>
          r ← filestat f;
          match r with
          | Some st => put_stat st a;; mret 0
          | None => mret (-1)
          end
      end
  end.

(** ** Links *)

Definition add_nlink (ip : nat) (n : Z) : K unit :=
  set_inode ip (fun i => i <| i_nlink ::= fun k => i16 (k + n) |>).

(** The label [bad] of [sys_link]. *)
Definition link_bad (ip : nat) : K Z :=
  ilock ip;;
  add_nlink ip (-1);;
  iupdate ip;;
  iunlockput ip;;
  end_op;;
  mret (-1).

Definition link_paths (old new : list Z) : K Z :=
  begin_op;;
  ip ← namei old;
  match ip with
  | None => end_op;; mret (-1)
  | Some ip =>
      ilock ip;;
      i ← gets (fun s => inode_at s ip);
      if i_type i =? T_DIR then iunlockput ip;; end_op;; mret (-1) else
      add_nlink ip 1;;
      iupdate ip;;
      iunlock ip;;
      '(dp, name) ← nameiparent new;
      match dp with
      | None => link_bad ip
      | Some dp =>
          ilock dp;;
          d ← gets (fun s => inode_at s dp);
          i ← gets (fun s => inode_at s ip);
          r ← (if negb (i_dev d =? i_dev i) then mret (-1) else dirlink dp name (i_inum i));
          if r <? 0 then iunlockput dp;; link_bad ip else
          iunlockput dp;;
          iput ip;;
          end_op;;
          mret 0
      end
  end.

Definition sys_link : K Z :=
  old ← argstr 0;
  match old with
  | None => mret (-1)
  | Some old =>
      new ← argstr 1;
      match new with None => mret (-1) | Some new => link_paths old new end
  end.

(** From the third entry; [fuel] is the number of entries. *)
Fixpoint isdirempty_loop (fuel : nat) (dp : nat) (off : Z) : K bool :=
  size ← gets (fun s => i_size (inode_at s dp));
  if negb (off <? size) then mret true else
  match fuel with
  | O => nofuel
  | S fuel' =>
      '(r, de) ← readi dp ToLocal off de_size;
      if negb (r =? de_size) then panic "isdirempty: readi" else
      if negb (de_inum de =? 0) then mret false
      else isdirempty_loop fuel' dp (off + de_size)
  end.

Definition isdirempty (dp : nat) : K bool :=
  fuel ← dir_fuel dp;
  isdirempty_loop fuel dp (2 * de_size).

Definition unlink_bad (dp : nat) : K Z := iunlockput dp;; end_op;; mret (-1).

Definition unlink_path (path : list Z) : K Z :=
  begin_op;;
  '(dp, name) ← nameiparent path;
  match dp with
  | None => end_op;; mret (-1)
  | Some dp =>
      ilock dp;;
      if (namecmp name (str ".") =? 0) || (namecmp name (str "..") =? 0) then unlink_bad dp else
      r ← dirlookup dp name;
      match r with
      | None => unlink_bad dp
      | Some (ip, off) =>
          ilock ip;;
          i ← gets (fun s => inode_at s ip);
          if i_nlink i <? 1 then panic "unlink: nlink < 1" else
          empty ← (if i_type i =? T_DIR then isdirempty ip else mret true);
          if negb empty then iunlockput ip;; unlink_bad dp else
          n ← writei dp (FromLocal (replicate 16 0)) off de_size;
          if negb (n =? de_size) then panic "unlink: writei" else
          i ← gets (fun s => inode_at s ip);
          when (i_type i =? T_DIR) (add_nlink dp (-1);; iupdate dp);;
          iunlockput dp;;
          add_nlink ip (-1);;
          iupdate ip;;
          iunlockput ip;;
          end_op;;
          mret 0
      end
  end.

Definition sys_unlink : K Z :=
  path ← argstr 0;
  match path with None => mret (-1) | Some path => unlink_path path end.

(** ** Creation *)

(** The new inode, locked. *)
Definition create (path : list Z) (type major minor : Z) : K (option nat) :=
  '(dp, name) ← nameiparent path;
  match dp with
  | None => mret None
  | Some dp =>
      ilock dp;;
      r ← dirlookup dp name;
      match r with
      | Some (ip, _) =>
          iunlockput dp;;
          ilock ip;;
          i ← gets (fun s => inode_at s ip);
          if (type =? T_FILE) && (i_type i =? T_FILE) then mret (Some ip)
          else iunlockput ip;; mret None
      | None =>
          dev ← gets (fun s => i_dev (inode_at s dp));
          ip ← ialloc dev type;
          ilock ip;;
          set_inode ip (fun i => i <| i_major := major |> <| i_minor := minor |>
                                   <| i_nlink := 1 |>);;
          iupdate ip;;
          inum ← gets (fun s => i_inum (inode_at s ip));
          (if type =? T_DIR then
             add_nlink dp 1;;
             iupdate dp;;
             r ← dirlink ip (str ".") inum;
             if r <? 0 then panic "create dots" else
             dnum ← gets (fun s => i_inum (inode_at s dp));
             r ← dirlink ip (str "..") dnum;
             if r <? 0 then panic "create dots" else mret tt
           else mret tt);;
          r ← dirlink dp name inum;
          if r <? 0 then panic "create: dirlink" else
          iunlockput dp;;
          mret (Some ip)
      end
  end.

(** The locked inode to open, or [None] after [end_op]. *)
Definition open_inode (path : list Z) (omode : Z) : K (option nat) :=
  if has_bits omode O_CREATE then
    ip ← create path T_FILE 0 0;
    match ip with
    | None => end_op;; mret None
    | Some ip => mret (Some ip)
    end
  else
    ip ← namei path;
    match ip with
    | None => end_op;; mret None
    | Some ip =>
        ilock ip;;
        i ← gets (fun s => inode_at s ip);
        if (i_type i =? T_DIR) && negb (omode =? O_RDONLY)
        then iunlockput ip;; end_op;; mret None
        else mret (Some ip)
    end.

Definition open_path (path : list Z) (omode : Z) : K Z :=
  begin_op;;
  ip ← open_inode path omode;
  match ip with
  | None => mret (-1)
  | Some ip =>
      f ← filealloc;
      match f with
      | None => iunlockput ip;; end_op;; mret (-1)
      | Some f =>
          fd ← fdalloc f;
          if fd <? 0 then fileclose f;; iunlockput ip;; end_op;; mret (-1) else
          iunlock ip;;
          end_op;;
          set_file f (fun x => x <| f_type := FD_INODE |> <| f_ip := Some ip |> <| f_off := 0 |>
            <| f_readable := c_bool (negb (has_bits omode O_WRONLY)) |>
            <| f_writable := c_bool (has_bits omode O_WRONLY || has_bits omode O_RDWR) |>);;
          mret fd
      end
  end.

Definition sys_open : K Z :=
  path ← argstr 0;
  match path with
  | None => mret (-1)
  | Some path =>
      omode ← argint 1;
      match omode with None => mret (-1) | Some omode => open_path path omode end
  end.

(** The end of [mkdir] and [mknod]. *)
Definition made (ip : option nat) : K Z :=
  match ip with
  | None => end_op;; mret (-1)
  | Some ip => iunlockput ip;; end_op;; mret 0
  end.

Definition sys_mkdir : K Z :=
  begin_op;;
  path ← argstr 0;
  ip ← (match path with Some path => create path T_DIR 0 0 | None => mret None end);
  made ip.

Definition sys_mknod : K Z :=
  begin_op;;
  path ← argstr 0;
  ip ←
    (match path with
     | None => mret None
     | Some path =>
         major ← argint 1;
         match major with
         | None => mret None
         | Some major =>
             minor ← argint 2;
             match minor with
             | None => mret None
             | Some minor => create path T_DEV (i16 major) (i16 minor)
             end
         end
     end);
  made ip.

Definition sys_chdir : K Z :=
  begin_op;;
  path ← argstr 0;
  ip ← (match path with Some path => namei path | None => mret None end);
  match ip with
  | None => end_op;; mret (-1)
  | Some ip =>
      ilock ip;;
      i ← gets (fun s => inode_at s ip);
      if negb (i_type i =? T_DIR) then iunlockput ip;; end_op;; mret (-1) else
      iunlock ip;;
      cur ← deref_proc;
      cwd ← gets (fun s => p_cwd (proc_at s cur));
      (match cwd with Some i => iput i | None => panic "trap" end);;
      end_op;;
      set_proc cur (fun x => x <| p_cwd := Some ip |>);;
      mret 0
  end.

(** The loop of [sys_exec] over the argument vector, from entry [i]; [n] is
    the number of entries left of [argv]. *)
Fixpoint fetch_argv (n : nat) (uargv i : Z) : K (option (list (list Z))) :=
  match n with
  | O => mret None
  | S n' =>
      uarg ← fetchint (u32 (uargv + 4 * i));
      match uarg with
      | None => mret None
      | Some uarg =>
          if uarg =? 0 then mret (Some []) else
          a ← fetchstr (u32 uarg);
          match a with
          | None => mret None
          | Some a =>
              r ← fetch_argv n' uargv (i + 1);
              mret (match r with Some l => Some (a :: l) | None => None end)
          end
      end
  end.

Definition sys_exec : K Z :=
  path ← argstr 0;
  match path with
  | None => mret (-1)
  | Some path =>
      uargv ← argint 1;
      match uargv with
      | None => mret (-1)
      | Some uargv =>
          argv ← fetch_argv (Z.to_nat MAXARG) (u32 uargv) 0;
          match argv with None => mret (-1) | Some argv => exec path argv end
      end
  end.

Definition set_fd (cur : nat) (fd : Z) (f : option nat) : K unit :=
  set_proc cur (fun x => x <| p_ofile ::= <[Z.to_nat fd := f]> |>).

Definition sys_pipe : K Z :=
  a ← argptr 0 8;
  match a with
  | None => mret (-1)
  | Some a =>
      r ← pipealloc;
      match r with
      | None => mret (-1)
      | Some (rf, wf) =>
          cur ← deref_proc;
          fd0 ← fdalloc rf;
          fd1 ← (if fd0 <? 0 then mret (-1) else fdalloc wf);
          if (fd0 <? 0) || (fd1 <? 0) then
            when (0 <=? fd0) (set_fd cur fd0 None);;
            fileclose rf;;
            fileclose wf;;
            mret (-1)
          else
            uwrite32 a fd0;;
            uwrite32 (u32 (a + 4)) fd1;;
            mret 0
      end
  end.

(** ** syscall.c: dispatch *)

(** [syscalls[num]], by the numbers of syscall.h.  [sys_pidInfo] has no result;
    [%eax] is whatever it leaves there, here 0. *)
Definition syscalls (num : Z) : option (K Z) :=
  match num with
  | 1 => Some sys_fork | 2 => Some sys_exit | 3 => Some sys_wait | 4 => Some sys_pipe
  | 5 => Some sys_read | 6 => Some sys_kill | 7 => Some sys_exec | 8 => Some sys_fstat
  | 9 => Some sys_chdir | 10 => Some sys_dup | 11 => Some sys_getpid | 12 => Some sys_sbrk
  | 13 => Some sys_sleep | 14 => Some sys_uptime | 15 => Some sys_open | 16 => Some sys_write
  | 17 => Some sys_mknod | 18 => Some sys_unlink | 19 => Some sys_link | 20 => Some sys_mkdir
  | 21 => Some sys_close | 22 => Some sys_switchDebug | 23 => Some (sys_pidInfo;; mret 0)
  | 24 => Some forkLowest | 25 => Some forkLow | 26 => Some forkMedium | 27 => Some forkHigh
  | 28 => Some forkHighest
  | _ => None
  end.

Definition set_eax (v : Z) : K unit :=
  cur ← deref_proc;
  tf ← gets (fun s => p_tf (proc_at s cur));
  set_mem (fun m => store32 m (tf + tf_eax) v).

Definition syscall : K unit :=
  cur ← deref_proc;
  num ← gets (fun s => i32 (load32 (k_mem s) (p_tf (proc_at s cur) + tf_eax)));
  match syscalls num with
  | Some call => r ← call; set_eax r
  | None =>
      p ← gets (fun s => proc_at s cur);
      cprintf (Some (str "%d %s: unknown sys call %d
")) [AInt (p_pid p); AStr (Some (cstr (p_name p))); AInt num];;
      set_eax (-1)
  end.
End sysfile.
