(* ===== verification/Trap.v ===== *)
(** trap.c: the handler of traps and interrupts, with the stride accounting at
    each interrupt.

    What the devices hold when their interrupt arrives is an [event]; the
    acknowledgement of the interrupt controller is not modelled. *)
From S2P Require Import Prelude Memory Kernel CString Spinlock Console Sched Kalloc Ide.
From S2P Require Import Bytes Bio Log Inode Vm Umem Tty Fs File.
From S2P Require Import Proc Exec Syscall Sysfile.

Definition T_SYSCALL : Z := 64.
Definition T_IRQ0 : Z := 32.
Definition IRQ_TIMER : Z := 0.
Definition IRQ_KBD : Z := 1.
Definition IRQ_COM1 : Z := 4.
Definition IRQ_IDE : Z := 14.
Definition IRQ_SPURIOUS : Z := 31.

Record event := Mkevent {
  ev_disk_ok : bool;
  ev_codes : list Z;
  ev_bytes : list Z;
  ev_cr2 : Z;
}.

Definition no_event : event := Mkevent true [] [] 0.

Section trap.
Context {E : Env} {I : Image}.

Definition exit_if_killed : K unit :=
  killed ← cur_killed;
  when killed exit.

(** [if(proc && proc->killed && (tf->cs&3) == DPL_USER) exit()] *)
Definition exit_if_killed_user (cs : Z) : K unit :=
  cur ← gets curproc;
  match cur with
  | None => mret tt
  | Some i =>
      killed ← gets (fun s => c_true (p_killed (proc_at s i)));
      when (killed && (Z.land cs 3 =? DPL_USER)) exit
  end.

(** The two tests on a RUNNING process at the end of [trap]. *)
Definition trap_account (trapno : Z) : K unit :=
  cur ← gets curproc;
  match cur with
  | None => mret tt
  | Some i =>
      p ← gets (fun s => proc_at s i);
      if state_eqb (p_state p) RUNNING then
        let '(p', must_yield) := clock_account (trapno =? T_IRQ0 + IRQ_TIMER) p in
        set_proc i (fun _ => p');;
        when must_yield yield
      else mret tt
  end.

Definition timer_tick : K unit :=
  id ← gets (fun s => c_id (mycpu s));
  when (id =? 0)
    (acquire L_tickslock;;
     modify (fun s => s <| k_ticks ::= fun t => u32 (t + 1) |>);;
     wakeup Ch_ticks;;
     release L_tickslock).

(** The [default] case: a fault of the kernel, or of a user program. *)
Definition fault (tf trapno cs : Z) (ev : event) : K unit :=
  cur ← gets curproc;
  id ← gets (fun s => c_id (mycpu s));
  eip ← gets (fun s => load32 (k_mem s) (tf + tf_eip));
  err ← gets (fun s => load32 (k_mem s) (tf + tf_err));
  match cur with
  | Some i =>
      if Z.land cs 3 =? 0 then
        cprintf (Some (str "unexpected trap %d from cpu %d eip %x (cr2=0x%x)
")) [AInt trapno; AInt id; AInt eip; AInt (ev_cr2 ev)];;
        panic "trap"
      else
        p ← gets (fun s => proc_at s i);
        cprintf (Some (str "pid %d %s: trap %d err %d on cpu %d eip 0x%x addr 0x%x--kill proc
")) [AInt (p_pid p); AStr (Some (cstr (p_name p))); AInt trapno; AInt err; AInt id; AInt eip;
     AInt (ev_cr2 ev)];;
        set_proc i (fun x => x <| p_killed := 1 |>)
  | None =>
      cprintf (Some (str "unexpected trap %d from cpu %d eip %x (cr2=0x%x)
")) [AInt trapno; AInt id; AInt eip; AInt (ev_cr2 ev)];;
      panic "trap"
  end.

(** The [switch] on the trap number. *)
Definition irq (tf trapno cs : Z) (ev : event) : K unit :=
  if trapno =? T_IRQ0 + IRQ_TIMER then timer_tick
  else if trapno =? T_IRQ0 + IRQ_IDE then ideintr (ev_disk_ok ev)
  else if trapno =? T_IRQ0 + IRQ_IDE + 1 then mret tt
  else if trapno =? T_IRQ0 + IRQ_KBD then kbdintr (ev_codes ev)
  else if trapno =? T_IRQ0 + IRQ_COM1 then uartintr (ev_bytes ev)
  else if (trapno =? T_IRQ0 + 7) || (trapno =? T_IRQ0 + IRQ_SPURIOUS) then
    id ← gets (fun s => c_id (mycpu s));
    eip ← gets (fun s => load32 (k_mem s) (tf + tf_eip));
    cprintf (Some (str "cpu%d: spurious interrupt at %x:%x
")) [AInt id; AInt cs; AInt eip]
  else fault tf trapno cs ev.

Definition trap (ev : event) (tf : Z) : K unit :=
  trapno ← gets (fun s => load32 (k_mem s) (tf + tf_trapno));
  cs ← gets (fun s => load16 (k_mem s) (tf + tf_cs));
  if trapno =? T_SYSCALL then
    exit_if_killed;;
    cur ← deref_proc;
    set_proc cur (fun x => x <| p_tf := tf |>);;
    syscall;;
    exit_if_killed
  else
    irq tf trapno cs ev;;
    exit_if_killed_user cs;;
    trap_account trapno;;
    exit_if_killed_user cs.
End trap.
