(* ===== verification/Typed.v ===== *)
(** The types of the kernel's data, and that the code of locks, scheduler,
    memory, disk and log keeps them.

    A state is [typed] when every table has its length, every integer of the
    kernel's variables and tables is in the range of its C type (the output of
    the console is left out), and every pointer into a table is null or an index
    of the table.  [wt P m] says that [m] keeps the types, at every switch and when
    it returns, and that its result satisfies [P].  The accesses of the model to
    tables, which are total, are then accesses inside the tables. *)
From S2P Require Import Prelude Memory Kernel CString Spinlock Console Sched Kalloc Ide.
From S2P Require Import Bytes Bio Log Inode Vm VmSpec VmCopy.

(** ** Types *)

Definition is_i16 (x : Z) : Prop := - 2 ^ 15 <= x < 2 ^ 15.
Definition is_i8 (x : Z) : Prop := - 2 ^ 7 <= x < 2 ^ 7.

(** A pointer into a table of [n] elements. *)
Definition idx (n : nat) (o : option nat) : Prop := match o with Some i => (i < n)%nat | None => True end.

(** A result that may be missing. *)
Definition opt {A} (P : A -> Prop) (o : option A) : Prop := match o with Some a => P a | None => True end.

Definition chan_ok (c : channel) : Prop :=
  match c with
  | Ch_proc p => (p < NPROC)%nat
  | Ch_buf b => (b < NBUF)%nat
  | Ch_inode i => (i < NINODE)%nat
  | _ => True
  end.

Record cpu_typed (c : cpu) : Prop := {
  ct_id : is_u8 (c_id c);
  ct_ncli : is_i32 (c_ncli c);
  ct_intena : is_i32 (c_intena c);
  ct_proc : idx NPROC (c_proc c);
  ct_cr3 : is_u32 (c_cr3 c);
  ct_esp0 : is_u32 (c_esp0 c);
}.

Record proc_typed (p : proc) : Prop := {
  pt_sz : is_u32 (p_sz p);
  pt_pgdir : is_u32 (p_pgdir p);
  pt_kstack : is_u32 (p_kstack p);
  pt_pid : is_i32 (p_pid p);
  pt_parent : idx NPROC (p_parent p);
  pt_tf : is_u32 (p_tf p);
  pt_context : is_u32 (p_context p);
  pt_chan : chan_ok (p_chan p);
  pt_killed : is_i32 (p_killed p);
  pt_nofile : length (p_ofile p) = NOFILE;
  pt_ofile : Forall (idx NFILE) (p_ofile p);
  pt_cwd : idx NINODE (p_cwd p);
  pt_namelen : length (p_name p) = 16%nat;
  pt_name : bytes_ok (p_name p);
  pt_tickets : is_i32 (p_tickets p);
  pt_usage : is_i32 (p_usage p);
  pt_stride : is_i32 (p_stride p);
  pt_pass : is_i32 (p_pass p);
  pt_limitpass : is_i32 (p_limitpass p);
}.

Record file_typed (f : file) : Prop := {
  ft_ref : is_i32 (f_ref f);
  ft_readable : is_u8 (f_readable f);
  ft_writable : is_u8 (f_writable f);
  ft_pipe : is_u32 (f_pipe f);
  ft_ip : idx NINODE (f_ip f);
  ft_off : is_u32 (f_off f);
}.

Record inode_typed (i : inode) : Prop := {
  it_dev : is_u32 (i_dev i);
  it_inum : is_u32 (i_inum i);
  it_ref : is_i32 (i_ref i);
  it_flags : is_i32 (i_flags i);
  it_type : is_i16 (i_type i);
  it_major : is_i16 (i_major i);
  it_minor : is_i16 (i_minor i);
  it_nlink : is_i16 (i_nlink i);
  it_size : is_u32 (i_size i);
  it_naddrs : length (i_addrs i) = 13%nat;
  it_addrs : Forall is_u32 (i_addrs i);
}.

Definition block_typed (d : list Z) : Prop := length d = Z.to_nat BSIZE /\ bytes_ok d.

Record buf_typed (b : buf) : Prop := {
  bt_flags : is_i32 (b_flags b);
  bt_dev : is_u32 (b_dev b);
  bt_blockno : is_u32 (b_blockno b);
  bt_prev : idx NBUF (b_prev b);
  bt_next : idx NBUF (b_next b);
  bt_qnext : idx NBUF (b_qnext b);
  bt_data : block_typed (b_data b);
}.

Record log_typed (g : log) : Prop := {
  gt_start : is_i32 (lg_start g);
  gt_size : is_i32 (lg_size g);
  gt_outstanding : is_i32 (lg_outstanding g);
  gt_committing : is_i32 (lg_committing g);
  gt_dev : is_i32 (lg_dev g);
  gt_n : is_i32 (lg_n g);
  gt_nblock : length (lg_block g) = Z.to_nat LOGSIZE;
  gt_block : Forall is_i32 (lg_block g);
}.

Record pipe_typed (p : pipe) : Prop := {
  it_ndata : length (pi_data p) = Z.to_nat PIPESIZE;
  it_data : bytes_ok (pi_data p);
  it_nread : is_u32 (pi_nread p);
  it_nwrite : is_u32 (pi_nwrite p);
  it_readopen : is_i32 (pi_readopen p);
  it_writeopen : is_i32 (pi_writeopen p);
}.

Record input_typed (i : input) : Prop := {
  nt_nbuf : length (in_buf i) = Z.to_nat INPUT_BUF;
  nt_buf : Forall is_i8 (in_buf i);
  nt_r : is_u32 (in_r i);
  nt_w : is_u32 (in_w i);
  nt_e : is_u32 (in_e i);
}.

Definition lock_typed (l : spinlock) : Prop := is_u32 (lk_locked l) /\ idx NCPU (lk_cpu l).

Record typed (s : kernel) : Prop := {
  ty_mem : mem_ok (k_mem s);
  ty_use_lock : is_i32 (k_use_lock s);
  ty_freelist : is_u32 (k_freelist s);
  ty_locks : map_Forall (fun _ => lock_typed) (k_locks s);
  ty_ncpu : length (k_cpus s) = NCPU;
  ty_cpus : Forall cpu_typed (k_cpus s);
  ty_me : (k_me s < NCPU)%nat;
  ty_nproc : length (k_ptable s) = NPROC;
  ty_ptable : Forall proc_typed (k_ptable s);
  ty_initproc : idx NPROC (k_initproc s);
  ty_nextpid : is_i32 (k_nextpid s);
  ty_isRoundRobin : is_i32 (k_isRoundRobin s);
  ty_isDebug : is_i32 (k_isDebug s);
  ty_first : is_i32 (k_first s);
  ty_ticks : is_u32 (k_ticks s);
  ty_kpgdir : is_u32 (k_kpgdir s);
  ty_nfile : length (k_ftable s) = NFILE;
  ty_ftable : Forall file_typed (k_ftable s);
  ty_ninode : length (k_icache s) = NINODE;
  ty_icache : Forall inode_typed (k_icache s);
  ty_nbuf : length (bc_buf (k_bcache s)) = NBUF;
  ty_bufs : Forall buf_typed (bc_buf (k_bcache s));
  ty_head_prev : idx NBUF (bc_head_prev (k_bcache s));
  ty_head_next : idx NBUF (bc_head_next (k_bcache s));
  ty_log : log_typed (k_log s);
  ty_disk : map_Forall (fun _ => block_typed) (k_disk s);
  ty_idequeue : idx NBUF (k_idequeue s);
  ty_havedisk1 : is_i32 (k_havedisk1 s);
  ty_pipes : map_Forall (fun _ => pipe_typed) (k_pipes s);
  ty_input : input_typed (k_input s);
}.

(** ** Code that keeps the types *)

Fixpoint rt {A} (P : A -> Prop) (r : res kernel A) : Prop :=
  match r with
  | Ok a s => P a /\ typed s
  | Swtch s k => typed s /\ forall s', typed s' -> rt P (k s')
  | _ => True
  end.

Definition wt {A} (P : A -> Prop) (m : K A) : Prop := forall s, typed s -> rt P (m s).

(** The result of unit functions. *)
Definition any {A} (_ : A) : Prop := True.

Create HintDb ty discriminated.
Create HintDb wt discriminated.
#[export] Hint Constants Opaque : wt ty.

Lemma any_intro {A} (a : A) : any a.
Proof. exact I. Qed.

#[export] Hint Resolve any_intro : ty.

(** ** Rules *)

Lemma rt_mono {A} (P Q : A -> Prop) r : rt P r -> (forall a, P a -> Q a) -> rt Q r.
Proof. intros H HPQ. induction r; cbn in *; [naive_solver|done..|]. destruct H. split; [done|]. auto. Qed.

Lemma wt_mono {A} (P Q : A -> Prop) m : wt P m -> (forall a, P a -> Q a) -> wt Q m.
Proof. intros H HPQ s Hs. eapply rt_mono; [by apply H|done]. Qed.

Lemma rt_bind {A B} (P : A -> Prop) (Q : B -> Prop) (f : A -> K B) r :
  rt P r -> (forall a, P a -> wt Q (f a)) -> rt Q (res_bind f r).
Proof.
  intros H Hf. induction r as [a s| | | |s k IH]; cbn in *; try done.
  - destruct H. by apply Hf.
  - destruct H as [H1 H2]. split; [done|]. intros s' Hs'. apply IH; [by apply H2].
Qed.

Lemma wt_bind {A B} (P : A -> Prop) (Q : B -> Prop) (f : A -> K B) m :
  wt P m -> (forall a, P a -> wt Q (f a)) -> wt Q (m ≫= f).
Proof. intros H Hf s Hs. unfold mbind, K_bind, M_bind. eapply rt_bind; [by apply H|done]. Qed.

Lemma wt_ret {A} (P : A -> Prop) a : P a -> wt P (mret a).
Proof. intros H s Hs. done. Qed.

(** The result of a read is what some typed state holds. *)
Lemma wt_gets {A} (f : kernel -> A) : wt (fun a => exists s, typed s /\ a = f s) (gets f).
Proof. intros s Hs. cbn. split; [by exists s|done]. Qed.

Lemma wt_get : wt (fun s => typed s) get.
Proof. intros s Hs. done. Qed.

Lemma wt_modify f : (forall s, typed s -> typed (f s)) -> wt any (modify f).
Proof. intros H s Hs. split; [done|by apply H]. Qed.

Lemma wt_panic {A} (P : A -> Prop) msg : wt P (panic msg).
Proof. by intros s Hs. Qed.

Lemma wt_hang {A} (P : A -> Prop) : wt P hang.
Proof. by intros s Hs. Qed.

Lemma wt_nofuel {A} (P : A -> Prop) : wt P nofuel.
Proof. by intros s Hs. Qed.

Lemma wt_swtch : wt any swtch.
Proof. intros s Hs. split; [done|]. intros s' Hs'. done. Qed.

Lemma wt_when b m : (b = true -> wt any m) -> wt any (when b m).
Proof. intros H. destruct b; [by apply H|by apply wt_ret]. Qed.

(** [gets] right before code that uses the state it read. *)
Lemma wt_gets_bind {A B} (Q : B -> Prop) (g : kernel -> A) (f : A -> K B) :
  (forall s, typed s -> rt Q (f (g s) s)) -> wt Q (gets g ≫= f).
Proof. intros H s Hs. by apply H. Qed.

(** ** Values *)

Lemma is_u32_u32 x : is_u32 (u32 x). Proof. apply u32_range. Qed.
Lemma is_i32_i32 x : is_i32 (i32 x). Proof. apply i32_range. Qed.
Lemma is_i16_i16 x : is_i16 (i16 x). Proof. unfold is_i16. wrap_lia. Qed.
Lemma is_i8_i8 x : is_i8 (i8 x). Proof. unfold is_i8. wrap_lia. Qed.
Lemma p2v_u32 a : is_u32 (p2v a). Proof. apply u32_range. Qed.
Lemma v2p_u32 a : is_u32 (v2p a). Proof. apply u32_range. Qed.
Lemma KERNBASE_u32 : is_u32 KERNBASE. Proof. done. Qed.

Lemma idx_None n : idx n None. Proof. exact I. Qed.

Lemma typed_default {A} (P : A -> Prop) d l i : Forall P l -> P d -> P (default d (l !! i)).
Proof. intros Hl Hd. destruct (l !! i) eqn:E; [|done]. by eapply Forall_lookup_1. Qed.

Lemma block0_typed : block_typed block0.
Proof. split; [done|]. by apply Forall_replicate. Qed.

Lemma proc0_typed : proc_typed proc0.
Proof. constructor; try done; by apply Forall_replicate. Qed.

Lemma inode0_typed : inode_typed inode0.
Proof. constructor; try done. by apply Forall_replicate. Qed.

Lemma buf0_typed : buf_typed buf0.
Proof. constructor; try done. apply block0_typed. Qed.

Lemma typed_proc s i : typed s -> proc_typed (proc_at s i).
Proof. intros H. apply (typed_default proc_typed); [apply H|apply proc0_typed]. Qed.

Lemma typed_inode s i : typed s -> inode_typed (inode_at s i).
Proof. intros H. apply (typed_default inode_typed); [apply H|apply inode0_typed]. Qed.

Lemma typed_buf s b : typed s -> buf_typed (buf_at s b).
Proof. intros H. apply (typed_default buf_typed); [apply H|apply buf0_typed]. Qed.

Lemma typed_cpu s : typed s -> cpu_typed (mycpu s).
Proof. intros H. apply (typed_default cpu_typed); [apply H|done]. Qed.

Lemma typed_lock s l : typed s -> lock_typed (lock_at s l).
Proof. intros H. unfold lock_at. destruct (k_locks s !! l) eqn:E; [|done]. by eapply (ty_locks s H). Qed.

Lemma typed_disk s dev b : typed s -> block_typed (disk_block s dev b).
Proof. intros H. unfold disk_block. destruct (k_disk s !! _) eqn:E; [|apply block0_typed]. by eapply (ty_disk s H). Qed.

Lemma typed_curproc s : typed s -> idx NPROC (curproc s).
Proof. intros H. apply (typed_cpu s H). Qed.

Lemma typed_load32 s a : typed s -> is_u32 (load32 (k_mem s) a).
Proof. intros H. apply load32_range, H. Qed.

Lemma typed_next s p : typed s -> idx NBUF (next_of s p).
Proof. intros H. destruct p; cbn; [apply (typed_buf s n H)|apply H]. Qed.

Lemma typed_prev s p : typed s -> idx NBUF (prev_of s p).
Proof. intros H. destruct p; cbn; [apply (typed_buf s n H)|apply H]. Qed.

Lemma find_first_lt {A} (f : A -> bool) l i : find_first f l = Some i -> (i < length l)%nat.
Proof. intros (x & H & _)%find_first_Some. by apply lookup_lt_Some in H. Qed.

#[export] Hint Resolve p2v_u32 v2p_u32 KERNBASE_u32 is_u32_u32 is_i32_i32 is_i16_i16 is_i8_i8 u8_range idx_None
  block0_typed typed_proc typed_inode typed_buf typed_cpu typed_lock typed_disk typed_curproc typed_load32
  typed_next typed_prev
  ct_ncli ct_intena ct_proc ct_cr3 ct_esp0
  pt_sz pt_pgdir pt_kstack pt_pid pt_parent pt_tf pt_context pt_killed pt_ofile pt_cwd pt_name pt_tickets pt_stride pt_pass
  pt_limitpass pt_nofile pt_namelen
  ft_ref ft_readable ft_writable ft_pipe ft_ip ft_off
  it_dev it_inum it_ref it_flags it_type it_major it_minor it_nlink it_size it_naddrs it_addrs
  bt_flags bt_dev bt_blockno bt_prev bt_next bt_qnext bt_data
  gt_start gt_size gt_outstanding gt_committing gt_dev gt_n gt_nblock gt_block
  ty_mem ty_freelist ty_initproc ty_nextpid ty_ticks ty_kpgdir ty_log ty_idequeue ty_input ty_ptable ty_ftable ty_icache
  ty_nproc ty_nfile ty_ninode ty_me : ty.

(** ** Updates *)

(** Fields of an updated record. *)
Ltac ty_record := cbn [
  c_id c_ncli c_intena c_proc c_if c_cr3 c_esp0
  p_sz p_pgdir p_kstack p_state p_pid p_parent p_tf p_context p_chan p_killed p_ofile p_cwd p_name p_tickets p_usage p_stride
  p_pass p_limitpass f_type f_ref f_readable f_writable f_pipe f_ip f_off
  i_dev i_inum i_ref i_flags i_type i_major i_minor i_nlink i_size i_addrs
  b_flags b_dev b_blockno b_prev b_next b_qnext b_data
  lg_start lg_size lg_outstanding lg_committing lg_dev lg_n lg_block
  pi_data pi_nread pi_nwrite pi_readopen pi_writeopen in_buf in_r in_w in_e lk_locked lk_name lk_cpu
  update eta eta_cpu eta_proc eta_file eta_inode eta_buf eta_log eta_pipe eta_input eta_spinlock ].

(** A value has its type by the types of the parts, or by arithmetic. *)
Ltac ty_lia :=
  unfold is_u32, is_i32, is_u8, is_i16, is_i8, NPROC, NCPU, NOFILE, NFILE, NINODE, NBUF in *; cbn [idx opt chan_ok] in *; lia.

Ltac ty := solve [ auto 2 with ty | eauto 6 with ty | cbn [idx opt chan_ok] in *; eauto 6 with ty | ty_lia ].

Ltac ty_update := let x := fresh "x" in let Hx := fresh in intros x Hx; ty_record; destruct Hx; repeat case_match; constructor; ty_record; try done; try ty.

Lemma typed_set_proc i f s :
  (forall p, proc_typed p -> proc_typed (f p)) -> typed s -> typed (s <| k_ptable ::= alter f i |>).
Proof. intros Hf []. constructor; cbn; try done; [by rewrite length_alter|]. apply Forall_alter; auto. Qed.

Lemma wt_set_proc i f : (forall p, proc_typed p -> proc_typed (f p)) -> wt any (set_proc i f).
Proof. intros Hf. apply wt_modify. intros s. by apply typed_set_proc. Qed.

Lemma wt_set_cpu f : (forall c, cpu_typed c -> cpu_typed (f c)) -> wt any (set_cpu f).
Proof.
  intros Hf. apply wt_modify. intros s []. constructor; cbn; try done; [by rewrite length_alter|].
  apply Forall_alter; auto.
Qed.

Lemma wt_set_buf b f : (forall x, buf_typed x -> buf_typed (f x)) -> wt any (set_buf b f).
Proof.
  intros Hf. apply wt_modify. intros s []. constructor; cbn; try done; [by rewrite length_alter|].
  apply Forall_alter; auto.
Qed.

Lemma wt_set_inode i f : (forall x, inode_typed x -> inode_typed (f x)) -> wt any (set_inode i f).
Proof.
  intros Hf. apply wt_modify. intros s []. constructor; cbn; try done; [by rewrite length_alter|].
  apply Forall_alter; auto.
Qed.

Lemma wt_set_lock l f : (forall x, lock_typed x -> lock_typed (f x)) -> wt any (set_lock l f).
Proof.
  intros Hf. apply wt_modify. intros s Hs. pose proof (typed_lock s l Hs). destruct Hs. constructor; cbn; try done.
  apply map_Forall_insert_2; auto.
Qed.

Lemma wt_set_mem f : (forall m, mem_ok m -> mem_ok (f m)) -> wt any (set_mem f).
Proof. intros Hf. apply wt_modify. intros s []. constructor; cbn; try done. auto. Qed.

Lemma wt_set_log f : (forall g, log_typed g -> log_typed (f g)) -> wt any (modify (fun s => s <| k_log ::= f |>)).
Proof. intros Hf. apply wt_modify. intros s []. constructor; cbn; try done. auto. Qed.

(** ** Automation *)

Lemma wt_gets_any {A} (f : kernel -> A) : wt any (gets f).
Proof. by intros s Hs. Qed.

#[export] Hint Resolve wt_gets_any wt_get wt_panic wt_nofuel wt_hang wt_swtch : wt.
#[export] Hint Extern 8 (is_u32 _) => ty : wt.
#[export] Hint Extern 8 (is_i32 _) => ty : wt.
#[export] Hint Extern 8 (is_i16 _) => ty : wt.
#[export] Hint Extern 8 (_ < _)%nat => ty : wt.
#[export] Hint Extern 8 (idx _ _) => ty : wt.
#[export] Hint Extern 8 (chan_ok _) => ty : wt.
#[export] Hint Extern 8 (bytes_ok _) => ty : wt.
#[export] Hint Extern 8 (block_typed _) => ty : wt.

(** The values read from the state. *)
Ltac wt_value :=
  cbv beta in *;
  repeat match goal with
  | H : any _ |- _ => clear H
  | H : exists s, typed s /\ ?a = @?f s |- _ => destruct H as (? & ? & ->)
  | x : unit |- _ => destruct x
  end.

(** Splits on a value; a pointer that is not null is an index. *)
Ltac wt_split x :=
  try (eassert (idx _ x) by ty);
  destruct x eqn:?; cbn [idx opt fst snd] in *; destruct_and?.

Ltac wt_prim :=
  lazymatch goal with
  | |- wt _ (gets _) => apply wt_gets
  | |- wt _ (set_proc _ _) => first [solve [eauto 4 with wt] | apply wt_set_proc; ty_update]
  | |- wt _ (set_cpu _) => apply wt_set_cpu; ty_update
  | |- wt _ (set_buf _ _) => first [solve [eauto 4 with wt] | apply wt_set_buf; ty_update]
  | |- wt _ (set_lock _ _) => apply wt_set_lock; intros ? []; split; ty_record; ty
  | |- wt _ (set_inode _ _) => first [solve [eauto 4 with wt] | apply wt_set_inode; ty_update]
  | |- wt _ (set_mem _) => apply wt_set_mem; eauto with ty xv6
  | |- wt _ (modify (fun s => update k_log _ s)) => first [solve [eauto 4 with wt] | apply wt_set_log; ty_update]
  | |- wt _ _ => solve [eauto 4 with wt]
  end.

Ltac wt_step :=
  match goal with
  | |- wt _ (mret _) => apply wt_ret; cbn [fst snd]; try solve [exact I | ty]
  | |- wt _ (let '(_, _) := ?x in _) => destruct x; cbn [fst snd] in *
  | |- wt _ (if ?b then _ else _) => wt_split b
  | |- wt _ (match ?x with _ => _ end) => wt_split x
  | |- wt _ (when _ _) => apply wt_when; intros ?
  | |- wt _ (_ ≫= _) =>
      first [eapply wt_bind; [wt_prim|intros; wt_value] | eapply (wt_bind (A := unit) any); [|intros; wt_value]]
  | |- wt _ _ => first [wt_prim | eapply wt_mono; [solve [wt_prim]|intros; wt_value; try done]]
  end.

Ltac wt_run := repeat wt_step.

(** ** Locks *)

Lemma wt_initlock l name : wt any (initlock l name).
Proof. apply wt_set_lock. done. Qed.

Lemma wt_readeflags : wt (fun v => is_i32 (Z.land v FL_IF)) readeflags.
Proof. eapply wt_mono; [apply wt_gets|]. intros a (s & _ & ->). case_match; done. Qed.

Lemma wt_cli : wt any cli.
Proof. unfold cli. wt_run. Qed.

Lemma wt_sti : wt any sti.
Proof. unfold sti. wt_run. Qed.
#[export] Hint Resolve wt_initlock wt_readeflags wt_cli wt_sti : wt.

Lemma wt_pushcli : wt any pushcli.
Proof. unfold pushcli. wt_run. Qed.

Lemma wt_popcli : wt any popcli.
Proof. unfold popcli. wt_run. Qed.

Lemma wt_holding l : wt any (holding l).
Proof. eapply wt_mono; [apply wt_gets|done]. Qed.
#[export] Hint Resolve wt_pushcli wt_popcli wt_holding : wt.

Lemma wt_xchg_locked l v : is_u32 v -> wt any (xchg_locked l v).
Proof. intros Hv. unfold xchg_locked. wt_run. Qed.
#[export] Hint Resolve wt_xchg_locked : wt.

Lemma wt_acquire l : wt any (acquire l).
Proof.
  unfold acquire. wt_run. apply wt_modify. intros s Hs. pose proof (typed_lock s l Hs) as [H _]. pose proof (ty_me s Hs).
  destruct Hs. constructor; cbn; try done. by apply map_Forall_insert_2.
Qed.

Lemma wt_release l : wt any (release l).
Proof. unfold release. wt_run. Qed.
#[export] Hint Resolve wt_acquire wt_release : wt.

(** ** The scheduler *)

Lemma wt_deref_proc : wt (fun i => (i < NPROC)%nat) deref_proc.
Proof. unfold deref_proc. wt_run. Qed.
#[export] Hint Resolve wt_deref_proc : wt.

Lemma wt_switchkvm : wt any switchkvm.
Proof. unfold switchkvm. wt_run. Qed.

Lemma wt_switchuvm p : wt any (switchuvm p).
Proof. unfold switchuvm. wt_run. Qed.

Lemma wt_set_curproc p : idx NPROC p -> wt any (set_curproc p).
Proof. intros H. unfold set_curproc. wt_run. Qed.
#[export] Hint Resolve wt_switchkvm wt_switchuvm wt_set_curproc : wt.

Lemma wt_rr_visit p : (p < NPROC)%nat -> wt any (rr_visit p).
Proof. intros Hp. unfold rr_visit. wt_run. Qed.
#[export] Hint Resolve wt_rr_visit : wt.

Lemma wt_rr_scan l : Forall (fun p => p < NPROC)%nat l -> wt any (rr_scan l).
Proof. induction 1; cbn [rr_scan]; wt_run. Qed.


Lemma stride_account_typed p : proc_typed p -> proc_typed (stride_account p).
Proof. unfold stride_account. intros []. repeat case_match; constructor; ty_record; try done; ty. Qed.

Lemma seq_lt n : Forall (fun i => i < n)%nat (seq 0 n).
Proof. apply Forall_forall. intros i Hi%elem_of_seq. lia. Qed.
#[export] Hint Resolve wt_rr_scan seq_lt : wt.

Lemma wt_rr_round : wt any rr_round.
Proof. unfold rr_round. wt_run. Qed.

Lemma wt_stride_round : wt any stride_round.
Proof.
  unfold stride_round. do 3 wt_step. rename x into s0. assert (stride_pick (k_ptable s0) < NPROC)%nat.
  { pose proof (ty_nproc s0 ltac:(done)) as E. rewrite <- E. apply stride_pick_lt. by destruct (k_ptable s0). }
  eapply wt_bind; [apply wt_set_proc, stride_account_typed|intros; wt_run].
Qed.
#[export] Hint Resolve wt_rr_round wt_stride_round : wt.

Lemma wt_turns_of round turns : wt any round -> wt any (turns_of round turns).
Proof. intros H. induction turns; cbn [turns_of]; wt_run. Qed.
#[export] Hint Resolve wt_turns_of : wt.

Lemma wt_scheduler turns : wt any (scheduler turns).
Proof. unfold scheduler. wt_run. Qed.

Lemma wt_sched : wt any sched.
Proof. unfold sched. wt_run. Qed.
#[export] Hint Resolve wt_sched : wt.

Lemma wt_yield : wt any yield.
Proof. unfold yield. wt_run. Qed.

Lemma wt_sleep chan lk : chan_ok chan -> wt any (sleep chan lk).
Proof. intros H. unfold sleep. wt_run. Qed.
#[export] Hint Resolve wt_yield wt_sleep : wt.

Lemma wt_sleep_while fuel cond chan lk : wt any cond -> chan_ok chan -> wt any (sleep_while fuel cond chan lk).
Proof. intros H Hc. induction fuel; cbn [sleep_while]; wt_run. Qed.
#[export] Hint Resolve wt_sleep_while : wt.

Lemma wake_proc_typed chan p : proc_typed p -> proc_typed (wake_proc chan p).
Proof. unfold wake_proc. intros []. case_match; constructor; ty_record; done. Qed.

Lemma wt_wakeup1 chan : wt any (wakeup1 chan).
Proof.
  apply wt_modify. intros s []. constructor; cbn; try done; [by rewrite length_fmap|].
  apply Forall_fmap. eapply Forall_impl; [done|]. apply wake_proc_typed.
Qed.
#[export] Hint Resolve wt_wakeup1 : wt.

Lemma wt_wakeup chan : wt any (wakeup chan).
Proof. unfold wakeup. wt_run. Qed.

Lemma wt_kill pid : wt is_i32 (kill pid).
Proof. unfold kill. wt_run. Qed.
#[export] Hint Resolve wt_wakeup wt_kill : wt.

(** ** Pages *)

Lemma mem_ok_memset' m v c n : mem_ok m -> mem_ok (memset m v c n).
Proof.
  intros Hm. unfold memset, stosb, stosl. case_match; [|by apply mem_ok_fill_bytes].
  generalize (Z.to_nat (n / 4)) as k, v. intros k. revert m Hm. induction k as [|k IH]; intros m Hm v'; [done|].
  cbn [stosl_n]. by apply IH, mem_ok_store32.
Qed.

Lemma mem_ok_memmove' m dst src n : mem_ok m -> mem_ok (memmove m dst src n).
Proof.
  intros Hm. unfold memmove. case_match; generalize (Z.to_nat n) as k; [generalize (dst + n), (src + n)|generalize dst, src];
    intros a b k; revert a b m Hm; induction k as [|k IH]; intros a b m Hm; cbn; auto with xv6.
Qed.

#[export] Hint Resolve mem_ok_memset' mem_ok_memmove' mem_ok_store8 mem_ok_store32 mem_ok_store_bytes mem_ok_fill_bytes : ty.

Lemma wt_klock : wt any klock.
Proof. unfold klock. wt_run. Qed.

Lemma wt_kunlock : wt any kunlock.
Proof. unfold kunlock. wt_run. Qed.
#[export] Hint Resolve wt_klock wt_kunlock : wt.

Lemma wt_set_freelist f : (forall s, typed s -> is_u32 (f s)) -> wt any (modify (fun s => s <| k_freelist := f s |>)).
Proof. intros H. apply wt_modify. intros s Hs. specialize (H s Hs). by destruct Hs; constructor. Qed.
#[export] Hint Resolve wt_set_freelist : wt.

Lemma wt_kfree v : is_u32 v -> wt any (kfree v).
Proof. intros H. unfold kfree. wt_run. Qed.

Lemma wt_kalloc : wt is_u32 kalloc.
Proof. unfold kalloc. wt_run. Qed.
#[export] Hint Resolve wt_kfree wt_kalloc : wt.

Lemma wt_freerange_loop fuel p vend : is_u32 p -> wt any (freerange_loop fuel p vend).
Proof. revert p; induction fuel; intros p Hp; cbn [freerange_loop]; wt_run. Qed.
#[export] Hint Resolve wt_freerange_loop : wt.

(** ** Console output *)

Lemma wt_set_cons f : wt any (modify (fun s => s <| k_cons ::= f |>)).
Proof. apply wt_modify. intros s []. by constructor. Qed.
#[export] Hint Resolve wt_set_cons : wt.

Lemma wt_consputc c : wt any (consputc c).
Proof. unfold consputc. wt_run. Qed.
#[export] Hint Resolve wt_consputc : wt.

Lemma wt_consputs l : wt any (consputs l).
Proof. induction l; cbn [consputs]; wt_run. Qed.

Lemma wt_printint x b sg : wt any (printint x b sg).
Proof. apply wt_consputs. Qed.

Lemma wt_arg_int args : wt any (arg_int args).
Proof. unfold arg_int. wt_run. Qed.

Lemma wt_arg_str args : wt any (arg_str args).
Proof. unfold arg_str. wt_run. Qed.
#[export] Hint Resolve wt_consputs wt_printint wt_arg_int wt_arg_str : wt.

Lemma wt_cprintf_loop fmt args : wt any (cprintf_loop fmt args).
Proof.
  assert (forall n fmt args, (length fmt <= n)%nat -> wt any (cprintf_loop fmt args)) as H; [|by eapply H].
  clear. induction n as [|n IH]; intros fmt args Hn; destruct fmt as [|c [|c' fmt]]; cbn [cprintf_loop length] in *; try lia;
    wt_run; try (apply IH; cbn [length] in *; lia).
Qed.
#[export] Hint Resolve wt_cprintf_loop : wt.

Lemma wt_cprintf fmt args : wt any (cprintf fmt args).
Proof. unfold cprintf. wt_run. Qed.
#[export] Hint Resolve wt_cprintf : wt.

(** ** Page tables *)

(** The address of an entry: inside a page, which may be the last one. *)
Lemma wt_walkpgdir pgdir va alloc : wt any (walkpgdir pgdir va alloc).
Proof. unfold walkpgdir. wt_run. Qed.
#[export] Hint Resolve wt_walkpgdir : wt.

Lemma wt_mappages_loop fuel pgdir a last pa perm : wt is_i32 (mappages_loop fuel pgdir a last pa perm).
Proof. revert a pa; induction fuel; intros a pa; cbn [mappages_loop]; wt_run. Qed.

Lemma wt_mappages pgdir va size pa perm : wt is_i32 (mappages pgdir va size pa perm).
Proof. apply wt_mappages_loop. Qed.
#[export] Hint Resolve wt_mappages : wt.

Lemma wt_map_kernel pgdir l : is_u32 pgdir -> wt is_u32 (map_kernel pgdir l).
Proof. intros H. induction l; cbn [map_kernel]; wt_run. Qed.
#[export] Hint Resolve wt_map_kernel : wt.

Lemma wt_setupkvm : wt is_u32 setupkvm.
Proof. unfold setupkvm. wt_run. Qed.
#[export] Hint Resolve wt_setupkvm : wt.

Lemma wt_kvmalloc : wt any kvmalloc.
Proof. unfold kvmalloc. wt_run. apply wt_modify. intros s []. by constructor. Qed.

Lemma wt_nonnull a : wt any (nonnull a).
Proof. unfold nonnull. wt_run. Qed.
#[export] Hint Resolve wt_nonnull : wt.

Lemma wt_inituvm pgdir init sz : wt any (inituvm pgdir init sz).
Proof. unfold inituvm. wt_run. Qed.

Lemma wt_deallocuvm_loop fuel pgdir a oldsz : wt any (deallocuvm_loop fuel pgdir a oldsz).
Proof. revert a; induction fuel; intros a; cbn [deallocuvm_loop]; wt_run. Qed.
#[export] Hint Resolve wt_inituvm wt_deallocuvm_loop : wt.

Lemma wt_deallocuvm pgdir oldsz newsz : is_u32 oldsz -> is_u32 newsz -> wt is_u32 (deallocuvm pgdir oldsz newsz).
Proof. intros H1 H2. unfold deallocuvm. wt_run. Qed.

Lemma wt_allocuvm_loop fuel pgdir a newsz : wt any (allocuvm_loop fuel pgdir a newsz).
Proof. revert a; induction fuel; intros a; cbn [allocuvm_loop]; wt_run. Qed.
#[export] Hint Resolve wt_deallocuvm wt_allocuvm_loop : wt.

Lemma wt_allocuvm pgdir oldsz newsz : is_u32 oldsz -> is_u32 newsz -> wt is_u32 (allocuvm pgdir oldsz newsz).
Proof. intros H1 H2. unfold allocuvm. wt_run. Qed.

Lemma wt_free_tables pgdir l : wt any (free_tables pgdir l).
Proof. induction l; cbn [free_tables]; wt_run. Qed.
#[export] Hint Resolve wt_allocuvm wt_free_tables : wt.

Lemma wt_freevm pgdir : is_u32 pgdir -> wt any (freevm pgdir).
Proof. intros H. unfold freevm. wt_run. Qed.

Lemma wt_clearpteu pgdir uva : wt any (clearpteu pgdir uva).
Proof. unfold clearpteu. wt_run. Qed.

Lemma wt_copyuvm_loop fuel pgdir d i sz : wt any (copyuvm_loop fuel pgdir d i sz).
Proof. revert i; induction fuel; intros i; cbn [copyuvm_loop]; wt_run. Qed.
#[export] Hint Resolve wt_freevm wt_clearpteu wt_copyuvm_loop : wt.

Lemma wt_copyuvm pgdir sz : wt is_u32 (copyuvm pgdir sz).
Proof. unfold copyuvm. wt_run. Qed.

Lemma wt_uva2ka pgdir uva : wt is_u32 (uva2ka pgdir uva).
Proof. unfold uva2ka. wt_run. Qed.
#[export] Hint Resolve wt_copyuvm wt_uva2ka : wt.

Lemma wt_copyout_loop fuel pgdir va l : wt is_i32 (copyout_loop fuel pgdir va l).
Proof. revert va l; induction fuel; intros va l; cbn [copyout_loop]; wt_run. Qed.

Lemma wt_copyout pgdir va l : wt is_i32 (copyout pgdir va l).
Proof. apply wt_copyout_loop. Qed.
#[export] Hint Resolve wt_copyout : wt.

(** ** Disk *)

Lemma i32_sign x : is_i32 x <-> Z.shiftr x 31 = 0 \/ Z.shiftr x 31 = -1.
Proof. rewrite Z.shiftr_div_pow2 by lia. unfold is_i32. split; intros; Z.to_euclidean_division_equations; lia. Qed.

Lemma is_i32_lor x y : is_i32 x -> is_i32 y -> is_i32 (Z.lor x y).
Proof. rewrite !i32_sign, Z.shiftr_lor. by intros [-> | ->] [-> | ->]; [left|right..]. Qed.

Lemma is_i32_land x y : is_i32 x -> is_i32 y -> is_i32 (Z.land x y).
Proof. rewrite !i32_sign, Z.shiftr_land. by intros [-> | ->] [-> | ->]; [left..|right]. Qed.
#[export] Hint Resolve is_i32_lor is_i32_land : ty.

Lemma bset_typed m b : is_i32 m -> buf_typed b -> buf_typed (bset m b).
Proof. intros Hm. unfold bset. revert b. ty_update. Qed.

Lemma bclear_typed m b : is_i32 (Z.lnot m) -> buf_typed b -> buf_typed (bclear m b).
Proof. intros Hm. unfold bclear. revert b. ty_update. Qed.

Lemma wt_bset b m : is_i32 m -> wt any (set_buf b (bset m)).
Proof. intros Hm. apply wt_set_buf. intros x. by apply bset_typed. Qed.

Lemma wt_bclear b m : is_i32 (Z.lnot m) -> wt any (set_buf b (bclear m)).
Proof. intros Hm. apply wt_set_buf. intros x. by apply bclear_typed. Qed.

Lemma flags_i32 : is_i32 B_BUSY /\ is_i32 B_VALID /\ is_i32 B_DIRTY /\ is_i32 (Z.lnot B_BUSY) /\ is_i32 (Z.lnot B_DIRTY).
Proof. done. Qed.
#[export] Hint Extern 5 (wt _ (set_buf _ (bset _))) => apply wt_bset; apply flags_i32 : wt.
#[export] Hint Extern 5 (wt _ (set_buf _ (bclear _))) => apply wt_bclear; apply flags_i32 : wt.

Lemma wt_set_data b d : block_typed d -> wt any (set_data b d).
Proof. intros Hd. unfold set_data. wt_run. Qed.

Lemma wt_data_of b : wt block_typed (data_of b).
Proof. eapply wt_mono; [apply wt_gets|]. intros a (s & Hs & ->). ty. Qed.

Lemma wt_disk_write dev blockno d : block_typed d -> wt any (disk_write dev blockno d).
Proof. intros Hd. apply wt_modify. intros s []. constructor; cbn; try done. by apply map_Forall_insert_2. Qed.

Lemma wt_set_idequeue q : idx NBUF q -> wt any (modify (fun s => s <| k_idequeue := q |>)).
Proof. intros H. apply wt_modify. intros s []. by constructor. Qed.
#[export] Hint Resolve wt_set_data wt_data_of wt_disk_write wt_set_idequeue : wt.

Lemma wt_idestart b : wt any (idestart b).
Proof. unfold idestart. wt_run. Qed.
#[export] Hint Resolve wt_idestart : wt.

Lemma wt_ideintr ok : wt any (ideintr ok).
Proof. unfold ideintr. wt_run. Qed.

Lemma wt_queue_append fuel p b : (b < NBUF)%nat -> wt any (queue_append fuel p b).
Proof. intros Hb. revert p; induction fuel; intros p; cbn [queue_append]; wt_run. Qed.
#[export] Hint Resolve wt_ideintr wt_queue_append : wt.

Lemma wt_iderw fuel b : (b < NBUF)%nat -> wt any (iderw fuel b).
Proof. intros Hb. unfold iderw. wt_run. Qed.

Lemma wt_mem_iderw disksize b : wt any (mem_iderw disksize b).
Proof. unfold mem_iderw. wt_run. Qed.

(** ** The buffer cache and the log *)

(** What the code above the disk asks of its driver. *)
Class EnvTyped (E : Env) : Prop := wt_disk_rw b : (b < NBUF)%nat -> wt any (disk_rw b).

#[export] Instance ide_env_typed n : EnvTyped (ide_env n).
Proof. intros b. apply wt_iderw. Qed.

#[export] Instance mem_env_typed n disksize : EnvTyped (mem_env n disksize).
Proof. intros b _. apply wt_mem_iderw. Qed.
#[export] Hint Resolve wt_disk_rw : wt.

Lemma wt_set_next p v : idx NBUF v -> wt any (set_next p v).
Proof. intros H. unfold set_next. destruct p; wt_run. apply wt_modify. intros s []. by constructor. Qed.

Lemma wt_set_prev p v : idx NBUF v -> wt any (set_prev p v).
Proof. intros H. unfold set_prev. destruct p; wt_run. apply wt_modify. intros s []. by constructor. Qed.
#[export] Hint Resolve wt_set_next wt_set_prev : wt.

Lemma wt_link_front b : (b < NBUF)%nat -> wt any (link_front b).
Proof. intros H. unfold link_front. wt_run. Qed.
#[export] Hint Resolve wt_link_front : wt.

Lemma wt_binit_loop l : Forall (fun b => b < NBUF)%nat l -> wt any (binit_loop l).
Proof. induction 1; cbn [binit_loop]; wt_run. Qed.
#[export] Hint Resolve wt_binit_loop : wt.

Lemma wt_binit : wt any binit.
Proof. unfold binit. wt_run. Qed.

Lemma scan_list_idx fuel link f s p :
  typed s -> (forall b, buf_typed b -> idx NBUF (link b)) -> idx NBUF p -> idx NBUF (scan_list fuel link f s p).
Proof.
  intros Hs Hl. revert p; induction fuel as [|fuel IH]; intros [b|] Hp; cbn [scan_list]; try done.
  case_match; [done|]. apply IH, Hl. ty.
Qed.

Lemma retag_typed dev blockno b : is_u32 dev -> is_u32 blockno -> buf_typed b -> buf_typed (retag dev blockno b).
Proof. intros H1 H2. unfold retag. revert b. ty_update. Qed.

Lemma wt_retag b dev blockno : is_u32 dev -> is_u32 blockno -> wt any (set_buf b (retag dev blockno)).
Proof. intros H1 H2. apply wt_set_buf. intros x. by apply retag_typed. Qed.
#[export] Hint Resolve scan_list_idx : ty.
#[export] Hint Resolve wt_retag : wt.

Lemma wt_bget_loop fuel dev blockno : is_u32 dev -> is_u32 blockno -> wt (fun b => b < NBUF)%nat (bget_loop fuel dev blockno).
Proof. intros H1 H2. induction fuel; cbn [bget_loop]; wt_run. Qed.
#[export] Hint Resolve wt_bget_loop : wt.
