(* ===== verification/TypedFs.v ===== *)
(** The code of the buffer cache, the log, the file system, the console and the
    pipes keeps the types of the kernel's data. *)
From S2P Require Import Prelude Memory Kernel CString Spinlock Console Sched Kalloc Ide.
From S2P Require Import Bytes Bio Log Inode Vm VmSpec VmCopy Umem Kbd Tty Fs File Typed.

Lemma wt_oob {A} (P : A -> Prop) : wt P oob.
Proof. apply wt_panic. Qed.
#[export] Hint Resolve wt_oob : wt.

Section fs.
Context {E : Env} {HE : EnvTyped E}.

(** ** bio.c and log.c *)

Lemma wt_bget dev blockno : is_u32 dev -> is_u32 blockno -> wt (fun b => b < NBUF)%nat (bget dev blockno).
Proof using HE. intros H1 H2. unfold bget. wt_run. Qed.
#[local] Hint Resolve wt_bget : wt.

Lemma wt_bread dev blockno : is_u32 dev -> is_u32 blockno -> wt (fun b => b < NBUF)%nat (bread dev blockno).
Proof using HE. intros H1 H2. unfold bread. wt_run. Qed.

Lemma wt_bwrite b : (b < NBUF)%nat -> wt any (bwrite b).
Proof using HE. intros H. unfold bwrite. wt_run. Qed.

Lemma wt_brelse b : (b < NBUF)%nat -> wt any (brelse b).
Proof. intros H. unfold brelse. wt_run. Qed.
#[local] Hint Resolve wt_bread wt_bwrite wt_brelse : wt.

Record sb_typed (sb : superblock) : Prop := {
  st_size : is_u32 (sb_size sb);
  st_nblocks : is_u32 (sb_nblocks sb);
  st_ninodes : is_u32 (sb_ninodes sb);
  st_nlog : is_u32 (sb_nlog sb);
}.
#[local] Hint Resolve st_size st_nblocks st_ninodes st_nlog : ty.

Lemma block_get32 d i : block_typed d -> is_u32 (get32 d i).
Proof. intros [_ H]. by apply get32_u32. Qed.
#[local] Hint Resolve block_get32 : ty.

Lemma wt_readsb dev : wt sb_typed (readsb dev).
Proof using HE. unfold readsb. wt_run. constructor; by apply block_get32. Qed.

Lemma wt_lh_block i : wt is_i32 (lh_block i).
Proof.
  unfold lh_block. wt_run. eapply Forall_lookup_1; [|done]. ty.
Qed.

Lemma wt_set_lh_block i v : wt (fun _ => i < LOGSIZE) (set_lh_block i v).
Proof.
  unfold set_lh_block. wt_step; [apply wt_oob|]. eapply wt_mono; [apply wt_set_log|intros; lia].
  intros g []. constructor; ty_record; try done; [by rewrite length_insert|]. apply Forall_insert; [done|]. ty.
Qed.

Lemma wt_set_lh_n n : is_i32 n -> wt any (set_lh_n n).
Proof. intros H. unfold set_lh_n. wt_run. Qed.
#[local] Hint Resolve wt_readsb wt_lh_block wt_set_lh_block wt_set_lh_n : wt.

Lemma block_put32 d i v : block_typed d -> block_typed (put32 d i v).
Proof. intros [H1 H2]. split; [by rewrite length_put32|by apply bytes_ok_put32]. Qed.
#[local] Hint Resolve block_put32 : ty.

Lemma hdr_n_i32 d : is_i32 (hdr_n d). Proof. apply i32_range. Qed.
Lemma ROOTDEV_i32 : is_i32 ROOTDEV /\ is_u32 ROOTDEV /\ is_u32 ROOTINO. Proof. done. Qed.
#[local] Hint Resolve hdr_n_i32 : ty.
#[local] Hint Extern 2 => apply ROOTDEV_i32 : ty.

Lemma wt_install_loop fuel tail : wt any (install_loop fuel tail).
Proof using HE. revert tail; induction fuel; intros tail; cbn [install_loop]; wt_run. Qed.

Lemma wt_install_trans : wt any install_trans.
Proof using HE. apply wt_install_loop. Qed.

Lemma wt_read_head_loop fuel i d : wt any (read_head_loop fuel i d).
Proof. revert i; induction fuel; intros i; cbn [read_head_loop]; wt_run. Qed.
#[local] Hint Resolve wt_install_trans wt_read_head_loop : wt.

Lemma wt_read_head : wt any read_head.
Proof using HE. unfold read_head. wt_run. Qed.

Lemma wt_write_head_loop fuel i b : wt any (write_head_loop fuel i b).
Proof. revert i; induction fuel; intros i; cbn [write_head_loop]; wt_run. Qed.
#[local] Hint Resolve wt_read_head wt_write_head_loop : wt.

Lemma wt_write_head : wt any write_head.
Proof using HE. unfold write_head. wt_run. Qed.
#[local] Hint Resolve wt_write_head : wt.

Lemma wt_recover_from_log : wt any recover_from_log.
Proof using HE. unfold recover_from_log. wt_run. Qed.
#[local] Hint Resolve wt_recover_from_log : wt.

Lemma wt_initlog : wt any initlog.
Proof using HE. unfold initlog. wt_run. Qed.

Lemma wt_log_full : wt any log_full.
Proof. apply wt_gets_any. Qed.
#[local] Hint Resolve wt_log_full : wt.

Lemma wt_begin_op : wt any begin_op.
Proof. unfold begin_op. wt_run. Qed.

Lemma wt_write_log_loop fuel tail : wt any (write_log_loop fuel tail).
Proof using HE. revert tail; induction fuel; intros tail; cbn [write_log_loop]; wt_run. Qed.

Lemma wt_write_log : wt any write_log.
Proof using HE. apply wt_write_log_loop. Qed.
#[local] Hint Resolve wt_write_log : wt.

Lemma wt_commit : wt any commit.
Proof using HE. unfold commit. wt_run. Qed.
#[local] Hint Resolve wt_commit : wt.

Lemma wt_end_op : wt any end_op.
Proof using HE. unfold end_op. wt_run. Qed.
#[local] Hint Resolve wt_begin_op wt_end_op wt_initlog : wt.

Lemma wt_log_write b : (b < NBUF)%nat -> wt any (log_write b).
Proof.
  intros Hb. unfold log_write. wt_run. apply wt_set_lh_n. assert (is_i32 (lg_n (k_log x))) by ty.
  rewrite Z.eqb_eq in *. unfold LOGSIZE, MAXOPBLOCKS, is_i32 in *. lia.
Qed.
#[local] Hint Resolve wt_log_write : wt.

(** ** fs.c: blocks and inodes *)

Lemma block_put8 d i v : block_typed d -> block_typed (put8 d i v).
Proof. intros [H1 H2]. split; [by rewrite length_put8|by apply bytes_ok_put8]. Qed.

Lemma block_put16 d i v : block_typed d -> block_typed (put16 d i v).
Proof. intros [H1 H2]. split; [by rewrite length_put16|by apply bytes_ok_put16]. Qed.

Lemma block_splice d i l :
  block_typed d -> bytes_ok l -> (i + length l <= Z.to_nat BSIZE)%nat -> block_typed (splice d i l).
Proof. intros [H1 H2] Hl Hi. split; [rewrite length_splice; [done|lia]|by apply bytes_ok_splice]. Qed.

Lemma BBLOCK_u32 b n : is_u32 b -> is_u32 n -> is_u32 (BBLOCK b n).
Proof. unfold BBLOCK, is_u32. change BPB with 4096. change IPB with 8. intros. Z.to_euclidean_division_equations; lia. Qed.

Lemma IBLOCK_u32 i : is_u32 i -> is_u32 (IBLOCK i).
Proof. unfold IBLOCK, is_u32. change IPB with 8. intros. Z.to_euclidean_division_equations; lia. Qed.
#[local] Hint Resolve block_put8 block_put16 BBLOCK_u32 IBLOCK_u32 : ty.

Lemma wt_bzero dev bno : wt any (bzero dev bno).
Proof using HE. unfold bzero. wt_run. Qed.
#[local] Hint Resolve wt_bzero : wt.

Lemma bit_scan_range fuel bi b size d r : bit_scan fuel bi b size d = Some r -> bi <= r /\ b + r < size.
Proof.
  revert bi; induction fuel as [|fuel IH]; intros bi; cbn [bit_scan]; [done|].
  destruct (Z.ltb_spec (b + bi) size); cbn [negb]; [|done]. case_match; [intros [= <-]; lia|].
  intros [H1 H2]%IH. lia.
Qed.

Lemma wt_balloc_loop fuel dev b sb : is_u32 dev -> 0 <= b -> sb_typed sb -> wt is_u32 (balloc_loop fuel dev b sb).
Proof using HE.
  intros Hd Hb Hsb. revert b Hb; induction fuel as [|fuel IH]; intros b Hb; cbn [balloc_loop];
    (wt_step; [apply wt_panic|]); [apply wt_nofuel|]. apply negb_false_iff, Z.ltb_lt in Heqb0.
  pose proof (st_size sb Hsb). assert (is_u32 b) by ty. wt_run.
  - apply bit_scan_range in Heqo. ty.
  - apply IH. unfold BPB, BSIZE. lia.
Qed.
#[local] Hint Resolve wt_balloc_loop : wt.

Lemma wt_balloc dev : is_u32 dev -> wt is_u32 (balloc dev).
Proof using HE. intros H. unfold balloc. wt_run. apply wt_balloc_loop; ty. Qed.

Lemma wt_bfree dev b : is_u32 b -> wt any (bfree dev b).
Proof using HE. intros H. unfold bfree. wt_run. Qed.
#[local] Hint Resolve wt_balloc wt_bfree : wt.

Lemma wt_iget dev inum : is_u32 dev -> is_u32 inum -> wt (fun i => i < NINODE)%nat (iget dev inum).
Proof.
  intros H1 H2. unfold iget. wt_run; apply find_first_lt in Heqo || apply find_first_lt in Heqo0; rewrite ty_ninode in * by done; done.
Qed.
#[local] Hint Resolve wt_iget : wt.

Lemma wt_ialloc_loop fuel dev type inum sb :
  is_u32 dev -> 0 <= inum -> sb_typed sb -> wt (fun i => i < NINODE)%nat (ialloc_loop fuel dev type inum sb).
Proof using HE.
  intros Hd Hi Hsb. revert inum Hi; induction fuel as [|fuel IH]; intros inum Hi; cbn [ialloc_loop];
    (wt_step; [apply wt_panic|]); [apply wt_nofuel|]. apply negb_false_iff, Z.ltb_lt in Heqb.
  pose proof (st_ninodes sb Hsb). assert (is_u32 inum) by ty. wt_run.
  - apply wt_set_data, block_put16, block_splice; [ty|by apply Forall_replicate|].
    rewrite length_replicate. unfold dinode_off. change IPB with 8. change BSIZE with 512.
    pose proof (Z.mod_pos_bound inum 8 ltac:(lia)). lia.
  - apply IH. lia.
Qed.

Lemma wt_ialloc dev type : is_u32 dev -> wt (fun i => i < NINODE)%nat (ialloc dev type).
Proof using HE. intros H. unfold ialloc. wt_run. apply wt_ialloc_loop; ty. Qed.

Lemma block_dinode_write ip d : block_typed d -> block_typed (dinode_write ip d).
Proof.
  intros [H1 H2]. unfold dinode_write. split.
  - by rewrite length_put_words, length_put32, !length_put16.
  - by apply bytes_ok_put_words, bytes_ok_put32; do 4 apply bytes_ok_put16.
Qed.
#[local] Hint Resolve block_dinode_write : ty.
#[local] Hint Resolve wt_ialloc : wt.

Lemma wt_iupdate i : wt any (iupdate i).
Proof using HE. unfold iupdate. wt_run. Qed.

Lemma wt_idup i : (i < NINODE)%nat -> wt (fun i => i < NINODE)%nat (idup i).
Proof. intros H. unfold idup. wt_run. Qed.

Lemma iflags_i32 : is_i32 I_BUSY /\ is_i32 I_VALID /\ is_i32 (Z.lnot I_BUSY).
Proof. done. Qed.
#[local] Hint Extern 2 => apply iflags_i32 : ty.

Lemma dinode_read_typed d n i : block_typed d -> inode_typed i -> inode_typed (dinode_read d n i).
Proof.
  intros [H1 H2] []. unfold dinode_read. destruct (get_words_u32 d (dinode_off n + 12) 13 H2). constructor; ty_record; try done; try ty.
  by apply get32_u32.
Qed.

Lemma wt_dinode_read d i : block_typed d -> wt any (set_inode i (fun ip => dinode_read d (i_inum ip) ip)).
Proof. intros H. apply wt_set_inode. intros x. by apply dinode_read_typed. Qed.
#[local] Hint Resolve wt_iupdate wt_idup wt_dinode_read : wt.

Lemma wt_ilock i : (i < NINODE)%nat -> wt any (ilock i).
Proof using HE. intros H. unfold ilock. wt_run. Qed.

Lemma wt_iunlock i : wt any (iunlock i).
Proof. unfold iunlock. wt_run. Qed.

Lemma wt_set_addr i k a : is_u32 a -> wt any (set_addr i k a).
Proof. intros H. unfold set_addr. wt_run; [by rewrite length_insert|by apply Forall_insert]. Qed.

Lemma wt_addr_of i k : wt is_u32 (addr_of i k).
Proof. eapply wt_mono; [apply wt_gets|]. intros a (s & Hs & ->). apply (typed_default is_u32); ty. Qed.
#[local] Hint Resolve wt_ilock wt_iunlock wt_set_addr wt_addr_of : wt.

Lemma wt_direct_block i k : wt is_u32 (direct_block i k).
Proof using HE. unfold direct_block. wt_run. Qed.
#[local] Hint Resolve wt_direct_block : wt.

Lemma wt_bmap i bn : wt is_u32 (bmap i bn).
Proof using HE.
  unfold bmap. wt_run. eapply (wt_bind is_u32); [wt_run|intros; wt_run].
Qed.
#[local] Hint Resolve wt_bmap : wt.

Lemma wt_free_direct i l : wt any (free_direct i l).
Proof using HE. induction l; cbn [free_direct]; wt_run. Qed.

Lemma wt_free_indirect i l : Forall is_u32 l -> wt any (free_indirect i l).
Proof using HE. induction 1; cbn [free_indirect]; wt_run. Qed.

Lemma block_words d n : block_typed d -> Forall is_u32 (get_words d 0 n).
Proof. intros [_ H]. by apply get_words_u32. Qed.
#[local] Hint Resolve wt_free_direct wt_free_indirect block_words : wt.

Lemma wt_itrunc i : wt any (itrunc i).
Proof using HE. unfold itrunc. wt_run. Qed.
#[local] Hint Resolve wt_itrunc : wt.

Lemma wt_iput i : wt any (iput i).
Proof using HE. unfold iput. wt_run. Qed.
#[local] Hint Resolve wt_iput : wt.

Lemma wt_iunlockput i : wt any (iunlockput i).
Proof using HE. unfold iunlockput. wt_run. Qed.
#[local] Hint Resolve wt_iunlockput : wt.

(** ** User memory *)

Lemma wt_uread8 va : wt is_u8 (uread8 va).
Proof. unfold uread8. wt_run. apply ty_mem; done. Qed.

Lemma wt_uwrite8 va v : wt any (uwrite8 va v).
Proof. unfold uwrite8. wt_run. apply wt_set_mem. ty. Qed.
#[local] Hint Resolve wt_uread8 wt_uwrite8 : wt.

Lemma wt_uread va n : wt (fun l => bytes_ok l /\ length l = n) (uread va n).
Proof.
  revert va; induction n as [|n IH]; intros va; cbn [uread]; wt_run; [by split; [apply Forall_nil|]|].
  destruct H0. split; [by apply Forall_cons|]. cbn [length]. lia.
Qed.

Lemma wt_uwrite va l : wt any (uwrite va l).
Proof. revert va; induction l; intros va; cbn [uwrite]; wt_run. Qed.
#[local] Hint Resolve wt_uread wt_uwrite : wt.

Lemma wt_uread32 va : wt is_u32 (uread32 va).
Proof.
  unfold uread32. wt_run. destruct H as [H El]. destruct a as [|a [|b [|c [|d []]]]]; try done. cbn.
  unfold bytes_ok in H. rewrite !Forall_cons in H. unfold is_u8, is_u32 in *. lia.
Qed.

Lemma wt_uwrite32 va v : wt any (uwrite32 va v).
Proof. apply wt_uwrite. Qed.

Lemma wt_put_bytes d l : wt any (put_bytes d l).
Proof. unfold put_bytes. wt_run. apply wt_set_mem. ty. Qed.
#[local] Hint Resolve wt_uread32 wt_uwrite32 wt_put_bytes : wt.

(** A source of at least [n] bytes. *)
Definition src_typed (b : src) (n : Z) : Prop :=
  match b with FromLocal l => bytes_ok l /\ n <= Z.of_nat (length l) | FromUser _ => True end.

Lemma wt_get_bytes b n i m :
  src_typed b n -> 0 <= i -> 0 <= m -> i + m <= n -> wt (fun l => bytes_ok l /\ length l = Z.to_nat m) (get_bytes b i m).
Proof.
  intros Hb Hi Hm Hn. destruct b as [l|a]; cbn in *; wt_run. destruct Hb as [H1 H2]. unfold slice. split.
  - by apply Forall_take, Forall_drop.
  - rewrite length_take, length_drop. lia.
Qed.

(** ** The console *)

Lemma wt_print_pcs l : wt any (print_pcs l).
Proof. induction l; cbn [print_pcs]; wt_run. Qed.
#[local] Hint Resolve wt_print_pcs : wt.

Lemma wt_procdump_loop l : wt any (procdump_loop l).
Proof. induction l; cbn [procdump_loop]; wt_run. Qed.

Lemma wt_procdump : wt any procdump.
Proof. apply wt_procdump_loop. Qed.
#[local] Hint Resolve wt_procdump : wt.

Lemma wt_set_input f : (forall i, input_typed i -> input_typed (f i)) -> wt any (set_input f).
Proof. intros H. apply wt_modify. intros s []. constructor; cbn; try done. by apply H. Qed.
#[local] Hint Extern 3 (wt _ (set_input _)) => apply wt_set_input; ty_update : wt.

Lemma wt_erase : wt any erase.
Proof. unfold erase. wt_run. Qed.
#[local] Hint Resolve wt_erase : wt.

Lemma wt_kill_line fuel : wt any (kill_line fuel).
Proof. induction fuel; cbn [kill_line]; wt_run. Qed.
#[local] Hint Resolve wt_kill_line : wt.

Lemma wt_console_char c : wt any (console_char c).
Proof.
  unfold console_char. wt_run. apply wt_set_input. ty_update; first [by rewrite length_insert | apply Forall_insert; [done|]; ty].
Qed.
#[local] Hint Resolve wt_console_char : wt.

Lemma wt_console_chars l : wt any (console_chars l).
Proof. induction l; cbn [console_chars]; wt_run. Qed.
#[local] Hint Resolve wt_console_chars : wt.

Lemma wt_consoleintr l : wt any (consoleintr l).
Proof. unfold consoleintr. wt_run. Qed.
#[local] Hint Resolve wt_consoleintr : wt.

Lemma wt_kbdintr l : wt any (kbdintr l).
Proof. unfold kbdintr. wt_run. apply wt_modify. intros s []. by constructor. Qed.

Lemma wt_uartintr l : wt any (uartintr l).
Proof. unfold uartintr. wt_run. Qed.

Lemma wt_input_wait fuel : wt any (input_wait fuel).
Proof. induction fuel; cbn [input_wait]; wt_run. Qed.
#[local] Hint Resolve wt_kbdintr wt_uartintr wt_input_wait : wt.

Lemma wt_consoleread_loop n d target got : bytes_ok got -> wt (fun p => bytes_ok p.2) (consoleread_loop n d target got).
Proof.
  revert d got; induction n as [|n IH]; intros d got Hg; cbn [consoleread_loop]; wt_run; try done;
    [|apply IH]; cbn [snd]; apply Forall_app; split; [done| |done|]; apply Forall_singleton; ty.
Qed.

Lemma wt_consoleread ip d n : (ip < NINODE)%nat -> wt (fun p => is_i32 p.1 /\ bytes_ok p.2) (consoleread ip d n).
Proof using HE.
  intros H. unfold consoleread. wt_run. eapply wt_bind; [apply wt_consoleread_loop, Forall_nil_2|intros; wt_run].
  all: split; [cbn [fst]; try case_match; ty|done].
Qed.
#[local] Hint Resolve wt_consoleread : wt.

Lemma wt_consolewrite_loop n b i : src_typed b (i + Z.of_nat n) -> 0 <= i -> wt any (consolewrite_loop n b i).
Proof.
  revert i; induction n as [|n IH]; intros i Hb Hi; cbn [consolewrite_loop]; wt_run.
  eapply wt_bind; [apply (wt_get_bytes b (i + Z.of_nat (S n))); try done; lia|intros; wt_run].
  apply IH; [|lia]. by replace (i + 1 + Z.of_nat n) with (i + Z.of_nat (S n)) by lia.
Qed.

Lemma wt_consolewrite ip b n : (ip < NINODE)%nat -> is_i32 n -> src_typed b n -> wt is_i32 (consolewrite ip b n).
Proof using HE.
  intros Hi Hn Hb. unfold consolewrite. wt_run. apply wt_consolewrite_loop; [|lia].
  destruct b; cbn in *; [|done]. destruct Hb. split; [done|]. lia.
Qed.

Lemma src_typed_le b n n' : src_typed b n -> n' <= n -> src_typed b n'.
Proof. destruct b; cbn; [|done]. intros [H1 H2] H. split; [done|lia]. Qed.

(** ** fs.c: contents, directories and paths *)

Lemma wt_readi_loop fuel ip d off tot n got : bytes_ok got -> wt bytes_ok (readi_loop fuel ip d off tot n got).
Proof using HE.
  revert d off tot got; induction fuel as [|fuel IH]; intros d off tot got Hg; cbn [readi_loop]; wt_run.
  apply IH. apply Forall_app. split; [done|]. match goal with H : block_typed _ |- _ => destruct H end.
  by apply Forall_take, Forall_drop.
Qed.

Lemma wt_readi ip d off n : (ip < NINODE)%nat -> wt (fun p => is_i32 p.1 /\ bytes_ok p.2) (readi ip d off n).
Proof using HE.
  intros Hi. unfold readi. wt_run; try (split; [ty|by apply Forall_nil]).
  eapply wt_bind; [apply wt_readi_loop, Forall_nil_2|intros; wt_run].
Qed.
#[local] Hint Resolve wt_readi : wt.

Lemma wt_writei_loop fuel ip b off tot n :
  src_typed b n -> 0 <= off -> 0 <= tot <= n -> wt (fun r => r = off + (n - tot)) (writei_loop fuel ip b off tot n).
Proof using HE.
  intros Hb. revert off tot; induction fuel as [|fuel IH]; intros off tot Ho Ht; cbn [writei_loop];
    (wt_step; [wt_run; lia|]); [apply wt_nofuel|]. apply negb_false_iff, Z.ltb_lt in Heqb0.
  set (m := Z.min _ _). pose proof (Z.mod_pos_bound off BSIZE ltac:(done)) as Hmod. assert (0 <= m /\ tot + m <= n) by lia.
  do 3 wt_step. eapply wt_bind; [apply (wt_get_bytes b n); try done; lia|]. intros c [Hc1 Hc2].
  eapply wt_bind; [apply wt_set_buf|intros; wt_run].
  - intros y []. constructor; ty_record; try done. apply block_splice; [done|done|]. rewrite Hc2. lia.
  - eapply wt_mono; [apply IH; lia|]. intros r ->. lia.
Qed.

Lemma wt_writei ip b off n :
  (ip < NINODE)%nat -> 0 <= off -> is_u32 n -> src_typed b n -> wt is_i32 (writei ip b off n).
Proof using HE.
  intros Hi Ho Hn Hb. unfold writei. wt_run.
  - apply wt_consolewrite; [done|ty|]. eapply src_typed_le; [done|]. wrap_lia.
  - eapply wt_bind; [apply wt_writei_loop; [done|unfold is_u32 in *; lia..]|]. intros off' ->.
    apply orb_false_iff in Heqb1 as [Hs Hw]. apply Z.ltb_ge in Hs, Hw. assert (is_u32 (i_size (inode_at x ip))) by ty.
    assert (is_u32 (off + (n - 0))) by wrap_lia. wt_run.
Qed.
#[local] Hint Resolve wt_writei : wt.

Lemma wt_dir_scan fuel dp off f :
  (dp < NINODE)%nat -> 0 <= off -> wt (fun p => 0 <= p.1 /\ forall de, p.2 = Some de -> bytes_ok de /\ is_u32 p.1) (dir_scan fuel dp off f).
Proof using HE.
  intros Hd. revert off; induction fuel as [|fuel IH]; intros off Ho; cbn [dir_scan]; wt_run; try done.
  - split; [done|]. intros de [= <-]. apply negb_false_iff, Z.ltb_lt in Heqb. assert (is_u32 (i_size (inode_at x dp))) by ty.
    naive_solver ty.
  - apply IH. unfold de_size. lia.
Qed.

Lemma wt_dir_fuel dp : wt any (dir_fuel dp).
Proof. apply wt_gets_any. Qed.
#[local] Hint Resolve wt_dir_fuel : wt.

(** The offset found is inside the directory. *)
Lemma wt_dirlookup dp name :
  (dp < NINODE)%nat -> wt (opt (fun p => (p.1 < NINODE)%nat /\ is_u32 p.2)) (dirlookup dp name).
Proof using HE.
  intros Hd. unfold dirlookup. wt_run. eapply wt_bind; [by apply wt_dir_scan|]. intros [off de] [H1 H2]. cbn [fst snd] in *.
  wt_run; try done. destruct (H2 _ eq_refl) as [Hde Hoff]. eapply wt_bind; [apply wt_iget; [ty|]|intros; wt_run].
  pose proof (get16_u16 l 0 Hde). unfold de_inum. ty.
Qed.

Lemma bytes_ok_take n l : bytes_ok l -> bytes_ok (take n l).
Proof. apply Forall_take. Qed.

Lemma bytes_ok_cstr l : bytes_ok l -> bytes_ok (cstr l).
Proof. induction 1; cbn [cstr]; [apply Forall_nil_2|]. case_match; [apply Forall_nil_2|]. by apply Forall_cons. Qed.
#[local] Hint Resolve bytes_ok_take bytes_ok_cstr : ty.

Lemma dirent_typed inum name : bytes_ok name -> src_typed (FromLocal (dirent inum name)) de_size.
Proof.
  intros H. assert (H' : bytes_ok (take (Z.to_nat DIRSIZ) (cstr name))) by ty. unfold dirent, pad_name. cbn [src_typed]. split.
  - apply bytes_ok_put16. repeat apply Forall_cons_2; [wrap_lia..|]. apply Forall_app. split; [done|]. by apply Forall_replicate.
  - rewrite length_put16. cbn [length]. rewrite length_app, length_replicate, length_take. change (Z.to_nat DIRSIZ) with 14%nat.
    unfold de_size. lia.
Qed.

Lemma wt_dirlink dp name inum : (dp < NINODE)%nat -> bytes_ok name -> wt is_i32 (dirlink dp name inum).
Proof using HE.
  intros Hd Hn. unfold dirlink. eapply wt_bind; [by apply wt_dirlookup|]. intros r Hr. wt_run.
  eapply wt_bind; [by apply wt_dir_scan|]. intros [off de] [H1 H2]. cbn [fst] in *.
  eapply wt_bind; [apply wt_writei; [done|done|done|by apply dirent_typed]|intros; wt_run].
Qed.
#[local] Hint Resolve wt_dirlink : wt.

Lemma bytes_ok_skip_slashes l : bytes_ok l -> bytes_ok (skip_slashes l).
Proof. induction 1; cbn [skip_slashes]; [apply Forall_nil_2|]. case_match; [done|]. by apply Forall_cons. Qed.

Lemma bytes_ok_path_elem l : bytes_ok l -> bytes_ok (path_elem l).1 /\ bytes_ok (path_elem l).2.
Proof.
  induction 1 as [|c l Hc Hl IH]; cbn [path_elem]; [split; apply Forall_nil_2|].
  case_match; [split; [apply Forall_nil_2|by apply Forall_cons]|]. destruct (path_elem l). cbn [fst snd] in *. destruct IH.
  split; [by apply Forall_cons|done].
Qed.

Lemma bytes_ok_skipelem path name rest : bytes_ok path -> skipelem path = Some (name, rest) -> bytes_ok name /\ bytes_ok rest.
Proof.
  intros H%bytes_ok_skip_slashes. unfold skipelem. destruct (skip_slashes path) eqn:Es; [done|]. destruct (bytes_ok_path_elem _ H).
  destruct (path_elem _). intros [= <- <-]. cbn [fst snd] in *. split; [by apply bytes_ok_take|by apply bytes_ok_skip_slashes].
Qed.

Lemma wt_namex_loop fuel ip path parent last :
  (ip < NINODE)%nat -> bytes_ok path -> bytes_ok last ->
  wt (fun p => idx NINODE p.1 /\ bytes_ok p.2) (namex_loop fuel ip path parent last).
Proof using HE.
  revert ip path last; induction fuel as [|fuel IH]; intros ip path last Hi Hp Hl; cbn [namex_loop];
    (destruct (skipelem path) as [[name rest]|] eqn:Ek; [apply bytes_ok_skipelem in Ek as [Hn Hr]; [|done]|]); wt_run.
  eapply wt_bind; [by apply wt_dirlookup|]. intros r Hr'. wt_run.
Qed.
#[local] Hint Resolve wt_namex_loop : wt.

Lemma wt_namex path parent : bytes_ok path -> wt (fun p => idx NINODE p.1 /\ bytes_ok p.2) (namex path parent).
Proof using HE.
  intros Hp. unfold namex. eapply (wt_bind (fun i => i < NINODE)%nat); [wt_run|]. intros i Hi. by apply wt_namex_loop, Forall_nil_2.
Qed.
#[local] Hint Resolve wt_namex : wt.

Lemma wt_namei path : bytes_ok path -> wt (idx NINODE) (namei path).
Proof using HE. intros H. unfold namei. eapply wt_bind; [by apply wt_namex|]. intros [ip n] [Hi _]. by apply wt_ret. Qed.

Lemma wt_nameiparent path : bytes_ok path -> wt (fun p => idx NINODE p.1 /\ bytes_ok p.2) (nameiparent path).
Proof using HE. apply wt_namex. Qed.
#[local] Hint Resolve wt_namei wt_nameiparent : wt.

(** ** pipe.c and file.c *)

Lemma typed_file st f : typed st -> file_typed (file_at st f).
Proof. intros H. apply (typed_default file_typed); [apply H|done]. Qed.
#[local] Hint Resolve typed_file : ty.

Lemma wt_set_file f g : (forall x, file_typed x -> file_typed (g x)) -> wt any (set_file f g).
Proof.
  intros Hg. apply wt_modify. intros st []. constructor; cbn; try done; [by rewrite length_alter|]. apply Forall_alter; auto.
Qed.
#[local] Hint Extern 3 (wt _ (set_file _ _)) => apply wt_set_file; ty_update : wt.

Lemma wt_set_pipe p f : (forall x, pipe_typed x -> pipe_typed (f x)) -> wt any (set_pipe p f).
Proof.
  intros Hf. apply wt_modify. intros st []. constructor; cbn; try done. intros q x Hx.
  destruct (decide (p = q)) as [->|Hne].
  - rewrite lookup_alter_eq in Hx. destruct (k_pipes st !! q) eqn:Eq; [|done]. injection Hx as <-. eauto.
  - rewrite lookup_alter_ne in Hx by done. eauto.
Qed.
#[local] Hint Extern 3 (wt _ (set_pipe _ _)) => apply wt_set_pipe; ty_update : wt.

Lemma wt_cur_killed : wt any cur_killed.
Proof. unfold cur_killed. wt_run. Qed.
#[local] Hint Resolve wt_cur_killed : wt.

Lemma wt_pipeclose p w : is_u32 p -> wt any (pipeclose p w).
Proof.
  intros Hp. unfold pipeclose. wt_run. apply wt_modify. intros st []. constructor; cbn; try done; by apply map_Forall_delete.
Qed.

Lemma wt_write_wait fuel p : wt any (write_wait fuel p).
Proof.
  induction fuel; cbn [write_wait]; wt_run; (eapply (wt_bind any); [wt_run|intros; wt_run]).
Qed.
#[local] Hint Resolve wt_pipeclose wt_write_wait : wt.

Lemma wt_pipe_put p c : is_u8 c -> wt any (set_pipe p (pipe_put c)).
Proof.
  intros Hc. apply wt_set_pipe. unfold pipe_put. ty_update; [by rewrite length_insert|by apply Forall_insert].
Qed.

Lemma wt_pipe_take p : wt any (set_pipe p pipe_take).
Proof. apply wt_set_pipe. unfold pipe_take. ty_update. Qed.
#[local] Hint Resolve wt_pipe_put wt_pipe_take : wt.

Lemma wt_pipewrite_loop n p addr : wt any (pipewrite_loop n p addr).
Proof. revert addr; induction n; intros addr; cbn [pipewrite_loop]; wt_run. Qed.
#[local] Hint Resolve wt_pipewrite_loop : wt.

Lemma wt_pipewrite p addr n : is_i32 n -> wt is_i32 (pipewrite p addr n).
Proof. intros Hn. unfold pipewrite. wt_run. Qed.

Lemma wt_read_wait fuel p : wt any (read_wait fuel p).
Proof. induction fuel; cbn [read_wait]; wt_run. Qed.

Lemma wt_piperead_loop n p addr i : wt (fun r => i <= r <= i + Z.of_nat n) (piperead_loop n p addr i).
Proof.
  revert i; induction n as [|n IH]; intros i; cbn [piperead_loop]; wt_run; lia.
Qed.
#[local] Hint Resolve wt_pipewrite wt_read_wait wt_piperead_loop : wt.

Lemma wt_piperead p addr n : is_i32 n -> wt is_i32 (piperead p addr n).
Proof. intros Hn. unfold piperead. wt_run. Qed.
#[local] Hint Resolve wt_piperead : wt.

Lemma wt_filealloc : wt (idx NFILE) filealloc.
Proof.
  unfold filealloc. wt_run. apply find_first_lt in Heqo. rewrite ty_nfile in Heqo by done. done.
Qed.

Lemma wt_filedup f : (f < NFILE)%nat -> wt (fun f => f < NFILE)%nat (filedup f).
Proof. intros Hf. unfold filedup. wt_run. Qed.

Lemma wt_ip_of f : file_typed f -> wt (fun i => i < NINODE)%nat (ip_of f).
Proof. intros Hf. unfold ip_of. wt_run. Qed.
#[local] Hint Resolve wt_filealloc wt_filedup wt_ip_of typed_file : wt.

Lemma wt_fileclose f : wt any (fileclose f).
Proof using HE. unfold fileclose. wt_run. Qed.

Lemma wt_filestat f : wt any (filestat f).
Proof using HE. unfold filestat. wt_run. Qed.

Lemma wt_fileread f addr n : is_i32 n -> wt is_i32 (fileread f addr n).
Proof using HE. intros Hn. unfold fileread. wt_run. Qed.
#[local] Hint Resolve wt_fileclose wt_filestat wt_fileread : wt.

Lemma wt_filewrite_loop fuel f ip addr i n :
  (ip < NINODE)%nat -> is_i32 n -> 0 <= i -> wt any (filewrite_loop fuel f ip addr i n).
Proof using HE.
  intros Hi Hn. revert i; induction fuel as [|fuel IH]; intros i Hi'; cbn [filewrite_loop]; wt_run.
  eapply wt_bind; [apply wt_writei; [done|by apply ft_off, typed_file|ty|done]|intros; wt_run].
  apply negb_false_iff, Z.eqb_eq in Heqb1. apply negb_false_iff, Z.ltb_lt in Heqb. apply IH. unfold write_max in *. lia.
Qed.

Lemma wt_filewrite f addr n : is_i32 n -> wt is_i32 (filewrite f addr n).
Proof using HE.
  intros Hn. unfold filewrite. wt_run. eapply wt_bind; [apply wt_filewrite_loop; [done|done|lia]|intros; wt_run].
  case_match; ty.
Qed.

Lemma wt_new_pipe p : wt any (new_pipe p).
Proof.
  unfold new_pipe. wt_run; apply wt_modify; intros st []; constructor; cbn; try done; apply map_Forall_insert_2; try done.
  constructor; try done. apply Forall_lookup_2. intros i c. cbn [pi_data]. rewrite load_bytes_lookup.
  case_decide; [|done]. intros [= <-]. done.
Qed.

Lemma wt_pipe_bad p f0 f1 : is_u32 p -> wt (fun r => r = None) (pipe_bad p f0 f1).
Proof using HE. intros Hp. unfold pipe_bad. wt_run. Qed.
#[local] Hint Resolve wt_filewrite wt_new_pipe wt_pipe_bad : wt.

Lemma wt_pipealloc : wt (opt (fun p => (p.1 < NFILE)%nat /\ (p.2 < NFILE)%nat)) pipealloc.
Proof using HE. unfold pipealloc. wt_run; naive_solver. Qed.
#[local] Hint Resolve wt_pipealloc : wt.
End fs.

#[export] Hint Resolve wt_readsb wt_initlog wt_begin_op wt_end_op wt_ialloc wt_iupdate wt_idup wt_ilock wt_iunlock wt_iput
  wt_iunlockput wt_uread8 wt_uwrite8 wt_uread wt_uwrite wt_uread32 wt_uwrite32 wt_kbdintr wt_uartintr wt_readi wt_writei
  wt_dir_fuel wt_dirlookup wt_dirlink wt_namei wt_nameiparent wt_cur_killed wt_filealloc wt_filedup wt_ip_of wt_fileclose
  wt_filestat wt_fileread wt_filewrite wt_pipealloc wt_iget typed_file : wt.
#[export] Hint Extern 3 (wt _ (set_file _ _)) => apply wt_set_file; ty_update : wt.
#[export] Hint Resolve typed_file block_get32 bytes_ok_take bytes_ok_cstr : ty.
