(* ===== verification/TypedSys.v ===== *)
(** The types of the kernel's data are kept by everything that enters the
    kernel: system calls, interrupts and faults, the scheduler, and the boot. *)
From S2P Require Import Prelude Memory Kernel CString Spinlock Console Sched Kalloc Ide.
From S2P Require Import Bytes Bio Log Inode Vm VmSpec VmCopy Umem Kbd Tty Fs File Proc Exec Syscall Sysfile Trap Typed TypedFs.

Lemma str_bytes_ok t : bytes_ok (str t).
Proof.
  induction t as [|c t IH]; cbn [str]; [apply Forall_nil_2|]. apply Forall_cons. split; [|done].
  pose proof (Ascii.N_ascii_bounded c). unfold is_u8. lia.
Qed.
#[export] Hint Resolve str_bytes_ok : ty.

(** ** proc.c *)

Lemma wt_pinit : wt any pinit.
Proof. apply wt_initlock. Qed.

Lemma wt_stride_of t : is_i32 t -> wt is_i32 (stride_of t).
Proof.
  intros H. unfold stride_of. wt_run. apply Z.eqb_neq in Heqb. pose proof (Z.quot_abs 10000 t Heqb).
  pose proof (Z.quot_le_upper_bound 10000 (Z.abs t) 10000 ltac:(lia) ltac:(lia)). 
  change (Z.abs 10000) with 10000 in *. unfold is_i32. lia.
Qed.

Lemma wt_debugging : wt any debugging.
Proof. apply wt_gets_any. Qed.

Lemma wt_round_robin : wt any round_robin.
Proof. apply wt_gets_any. Qed.
#[export] Hint Resolve wt_pinit wt_stride_of wt_debugging wt_round_robin : wt.

Lemma copy_name_typed s name :
  bytes_ok s -> length name = 16%nat -> bytes_ok name -> length (copy_name s name) = 16%nat /\ bytes_ok (copy_name s name).
Proof.
  intros Hs Hl Hn. unfold copy_name. split.
  - rewrite length_splice; [done|]. rewrite length_app, length_take. cbn [length]. lia.
  - apply bytes_ok_splice; [done|]. apply Forall_app. split; [by apply bytes_ok_take|]. by apply Forall_singleton.
Qed.

Lemma wt_set_name p s : bytes_ok s -> wt any (set_proc p (fun x => x <| p_name ::= copy_name s |>)).
Proof. intros Hs. apply wt_set_proc. intros x []. destruct (copy_name_typed s (p_name x)); [done..|]. by constructor. Qed.
#[export] Hint Resolve wt_set_name : wt.

(** A file descriptor. *)
Lemma typed_ofile s c i : typed s -> idx NFILE (default None (p_ofile (proc_at s c) !! i)).
Proof. intros H. apply (typed_default (idx NFILE)); [ty|done]. Qed.

Lemma wt_set_ofile p i f : idx NFILE f -> wt any (set_proc p (fun x => x <| p_ofile ::= <[i := f]> |>)).
Proof. intros H. apply wt_set_proc. ty_update; [by rewrite length_insert|by apply Forall_insert]. Qed.
#[export] Hint Resolve typed_ofile : ty.
#[export] Hint Resolve wt_set_ofile : wt.

Section proc.
Context {E : Env} {HE : EnvTyped E} {I : Image}.

Lemma wt_alloc_stride p t : is_i32 t -> wt any (alloc_stride p t).
Proof. intros H. unfold alloc_stride. wt_run. Qed.
#[local] Hint Resolve wt_alloc_stride : wt.

Lemma wt_set_nextpid n : is_i32 n -> wt any (modify (fun s => s <| k_nextpid := n |>)).
Proof. intros H. apply wt_modify. intros s []. by constructor. Qed.
#[local] Hint Resolve wt_set_nextpid : wt.

Lemma wt_allocproc t : is_i32 t -> wt (idx NPROC) (allocproc t).
Proof.
  intros H. unfold allocproc. wt_run; apply find_first_lt in Heqo; rewrite ty_nproc in Heqo by done; done.
Qed.
#[local] Hint Resolve wt_allocproc : wt.

Lemma wt_set_initproc p : idx NPROC p -> wt any (modify (fun s => s <| k_initproc := p |>)).
Proof. intros H. apply wt_modify. intros s []. by constructor. Qed.

Lemma mem_ok_store16 m a v : mem_ok m -> mem_ok (store16 m a v).
Proof. intros H. by do 2 apply mem_ok_store8. Qed.

Lemma PGSIZE_u32 : is_u32 PGSIZE.
Proof. done. Qed.
#[local] Hint Resolve wt_set_initproc : wt.
#[local] Hint Resolve mem_ok_store16 PGSIZE_u32 : ty.

Lemma wt_userinit : wt any userinit.
Proof using HE. unfold userinit. wt_run. Qed.

Lemma wt_growproc n : wt is_i32 (growproc n).
Proof. unfold growproc. do 2 wt_step. eapply (wt_bind is_u32); [wt_run|intros; wt_run]. Qed.

Lemma wt_dup_files cur np fds : wt any (dup_files cur np fds).
Proof. induction fds; cbn [dup_files]; wt_run. Qed.
#[local] Hint Resolve wt_dup_files : wt.

Lemma wt_forks t : is_i32 t -> wt is_i32 (forks t).
Proof using HE.
  intros H. unfold forks. wt_run. eapply (wt_bind (fun i => i < NINODE)%nat); [wt_run|intros; wt_run].
Qed.
#[local] Hint Resolve wt_forks : wt.

Lemma wt_close_files cur fds : wt any (close_files cur fds).
Proof using HE. induction fds; cbn [close_files]; wt_run. Qed.

Lemma wt_abandon cur init ps : idx NPROC init -> wt any (abandon cur init ps).
Proof. intros H. induction ps; cbn [abandon]; wt_run. Qed.
#[local] Hint Resolve wt_close_files wt_abandon : wt.

Lemma wt_exit : wt any exit.
Proof using HE. unfold exit. wt_run. Qed.

Lemma wt_wait_loop fuel cur : (cur < NPROC)%nat -> wt is_i32 (wait_loop fuel cur).
Proof.
  intros Hc. induction fuel; cbn [wait_loop]; wt_run.
  all: first [by rewrite length_insert | by apply Forall_insert].
Qed.
#[local] Hint Resolve wt_exit wt_wait_loop : wt.

Lemma wt_wait : wt is_i32 wait.
Proof. unfold wait. wt_run. Qed.

Lemma wt_forkret : wt any forkret.
Proof using HE. unfold forkret. wt_run. apply wt_modify. intros s []. by constructor. Qed.

Lemma wt_switchDebug : wt any switchDebug.
Proof. unfold switchDebug. wt_run. apply wt_modify. intros s []. constructor; cbn; try done. unfold c_bool. case_match; done. Qed.
#[local] Hint Resolve wt_wait wt_forkret wt_switchDebug wt_growproc wt_userinit : wt.

(** ** exec.c *)

Lemma wt_loaduvm_loop fuel pgdir addr ip off i sz : (ip < NINODE)%nat -> wt is_i32 (loaduvm_loop fuel pgdir addr ip off i sz).
Proof using HE. intros H. revert i; induction fuel; intros i; cbn [loaduvm_loop]; wt_run. Qed.

Lemma wt_loaduvm pgdir addr ip off sz : (ip < NINODE)%nat -> wt is_i32 (loaduvm pgdir addr ip off sz).
Proof using HE. intros H. unfold loaduvm. wt_run. by apply wt_loaduvm_loop. Qed.
#[local] Hint Resolve wt_loaduvm : wt.

Lemma wt_load_segments n pgdir ip off sz :
  (ip < NINODE)%nat -> is_u32 sz -> wt (fun r => forall v, r = Some v -> is_u32 v) (load_segments n pgdir ip off sz).
Proof using HE.
  intros H. revert off sz; induction n as [|n IH]; intros off sz Hs; cbn [load_segments]; wt_run; naive_solver.
Qed.

Lemma wt_push_args argv argc pgdir sp ustack : wt any (push_args argv argc pgdir sp ustack).
Proof. revert argc sp ustack; induction argv; intros; cbn [push_args]; wt_run. Qed.

Lemma wt_exec_bad pgdir ip : is_u32 pgdir -> wt is_i32 (exec_bad pgdir ip).
Proof using HE. intros H. unfold exec_bad. wt_run. Qed.
#[local] Hint Resolve wt_push_args wt_exec_bad : wt.

Lemma bytes_ok_last_elem s last : bytes_ok s -> bytes_ok last -> bytes_ok (last_elem s last).
Proof. intros H. revert last; induction H; intros last Hl; cbn [last_elem]; [done|]. apply IHForall. by case_match. Qed.
#[local] Hint Resolve bytes_ok_last_elem : ty.

Lemma wt_exec_commit path pgdir sz sp entry :
  bytes_ok path -> is_u32 pgdir -> is_u32 sz -> wt is_i32 (exec_commit path pgdir sz sp entry).
Proof. intros H1 H2 H3. unfold exec_commit. wt_run. Qed.
#[local] Hint Resolve wt_exec_commit : wt.

Lemma PGROUNDUP_u32 sz : is_u32 (PGROUNDUP sz).
Proof.
  unfold PGROUNDUP. pose proof (u32_range (sz + PGSIZE - 1)). change (PGSIZE - 1) with (Z.ones 12).
  rewrite <- Z.ldiff_land, Z.ldiff_ones_r by lia. rewrite Z.shiftl_mul_pow2, Z.shiftr_div_pow2 by lia. wrap_lia.
Qed.
#[local] Hint Resolve PGROUNDUP_u32 : ty.

Lemma wt_exec_stack path argv pgdir sz entry : bytes_ok path -> is_u32 pgdir -> is_u32 sz -> wt is_i32 (exec_stack path argv pgdir sz entry).
Proof using HE. intros H1 H2 H3. unfold exec_stack. wt_run. Qed.
#[local] Hint Resolve wt_load_segments wt_exec_stack : wt.

Lemma wt_exec path argv : bytes_ok path -> wt is_i32 (exec path argv).
Proof using HE.
  intros Hp. unfold exec. wt_run.
Qed.
#[local] Hint Resolve wt_exec : wt.

(** ** syscall.c, sysproc.c and sysfile.c *)

Lemma wt_cur_sz : wt is_u32 cur_sz.
Proof. unfold cur_sz. do 1 wt_step. eapply wt_mono; [apply wt_gets|]. intros r (s & Hs & ->). ty. Qed.
#[local] Hint Resolve wt_cur_sz : wt.

Lemma wt_fetchint addr : wt (opt is_i32) (fetchint addr).
Proof. unfold fetchint. wt_run. Qed.

Lemma wt_fetchstr_loop n a : wt (opt bytes_ok) (fetchstr_loop n a).
Proof.
  revert a; induction n as [|n IH]; intros a; cbn [fetchstr_loop]; wt_run; try done; [by apply Forall_nil_2|].
  case_match; cbn in *; [by apply Forall_cons|done].
Qed.

Lemma wt_fetchstr addr : wt (opt bytes_ok) (fetchstr addr).
Proof. unfold fetchstr. wt_run. apply wt_fetchstr_loop. Qed.
#[local] Hint Resolve wt_fetchint wt_fetchstr : wt.

Lemma wt_argint n : wt (opt is_i32) (argint n).
Proof. unfold argint. wt_run. Qed.
#[local] Hint Resolve wt_argint : wt.

Lemma wt_argptr n size : wt (opt is_u32) (argptr n size).
Proof. unfold argptr. wt_run. Qed.

Lemma wt_argstr n : wt (opt bytes_ok) (argstr n).
Proof. unfold argstr. wt_run. Qed.
#[local] Hint Resolve wt_argptr wt_argstr : wt.

Lemma wt_sys_kill : wt any sys_kill.
Proof. unfold sys_kill. wt_run. Qed.

Lemma wt_sys_sbrk : wt any sys_sbrk.
Proof using HE. unfold sys_sbrk. wt_run. Qed.

Lemma wt_sleep_ticks fuel t n : wt any (sleep_ticks fuel t n).
Proof. induction fuel; cbn [sleep_ticks]; wt_run. Qed.
#[local] Hint Resolve wt_sleep_ticks : wt.

Lemma wt_sys_sleep : wt any sys_sleep.
Proof. unfold sys_sleep. wt_run. Qed.

Lemma wt_sys_uptime : wt any sys_uptime.
Proof. unfold sys_uptime. wt_run. Qed.

Lemma wt_sys_pidInfo : wt any sys_pidInfo.
Proof. unfold sys_pidInfo. wt_run. Qed.

(** A descriptor and its file. *)
Lemma wt_argfd n : wt (opt (fun p => p.2 < NFILE)%nat) (argfd n).
Proof.
  unfold argfd. wt_run. pose proof (typed_ofile x a0 (Z.to_nat z) ltac:(done)) as Hf. by destruct (default None _).
Qed.

Lemma wt_fdalloc f : (f < NFILE)%nat -> wt any (fdalloc f).
Proof. intros H. unfold fdalloc. wt_run. Qed.

Lemma wt_put_stat st a : wt any (put_stat st a).
Proof. unfold put_stat. wt_run. Qed.
#[local] Hint Resolve wt_argfd wt_fdalloc wt_put_stat : wt.

Lemma wt_sys_dup : wt any sys_dup.
Proof. unfold sys_dup. wt_run. Qed.

Lemma wt_arg_io : wt (opt (fun p => is_i32 p.2)) arg_io.
Proof. unfold arg_io. wt_run. by case_match. Qed.
#[local] Hint Resolve wt_arg_io : wt.

Lemma wt_sys_read : wt any sys_read.
Proof using HE. unfold sys_read. wt_run. Qed.

Lemma wt_sys_write : wt any sys_write.
Proof using HE. unfold sys_write. wt_run. Qed.

Lemma wt_sys_close : wt any sys_close.
Proof using HE. unfold sys_close. wt_run. Qed.

Lemma wt_sys_fstat : wt any sys_fstat.
Proof using HE. unfold sys_fstat. wt_run. Qed.

Lemma wt_add_nlink ip n : wt any (add_nlink ip n).
Proof. unfold add_nlink. wt_run. Qed.
#[local] Hint Resolve wt_add_nlink : wt.

Lemma wt_link_bad ip : (ip < NINODE)%nat -> wt any (link_bad ip).
Proof using HE. intros H. unfold link_bad. wt_run. Qed.
#[local] Hint Resolve wt_link_bad : wt.

Lemma wt_link_paths old new : bytes_ok old -> bytes_ok new -> wt any (link_paths old new).
Proof using HE. intros H1 H2. unfold link_paths. wt_run. eapply (wt_bind is_i32); [wt_run|intros; wt_run]. Qed.
#[local] Hint Resolve wt_link_paths : wt.

Lemma wt_sys_link : wt any sys_link.
Proof using HE. unfold sys_link. wt_run. Qed.

Lemma wt_isdirempty_loop fuel dp off : (dp < NINODE)%nat -> wt any (isdirempty_loop fuel dp off).
Proof using HE. intros H. revert off; induction fuel; intros off; cbn [isdirempty_loop]; wt_run. Qed.
#[local] Hint Resolve wt_isdirempty_loop : wt.

Lemma wt_isdirempty dp : (dp < NINODE)%nat -> wt any (isdirempty dp).
Proof using HE. intros H. unfold isdirempty. wt_run. Qed.

Lemma wt_unlink_bad dp : wt any (unlink_bad dp).
Proof using HE. unfold unlink_bad. wt_run. Qed.
#[local] Hint Resolve wt_isdirempty wt_unlink_bad : wt.

Lemma zeroes_typed : src_typed (FromLocal (replicate 16 0)) de_size /\ is_u32 de_size.
Proof. split; [|done]. split; [by apply Forall_replicate|done]. Qed.
#[local] Hint Extern 3 (src_typed _ _) => apply zeroes_typed : wt.
#[local] Hint Extern 3 (is_u32 de_size) => apply zeroes_typed : wt.
#[local] Hint Extern 8 (0 <= _) => ty : wt.

Lemma wt_unlink_path path : bytes_ok path -> wt any (unlink_path path).
Proof using HE. intros H. unfold unlink_path. wt_run. eapply (wt_bind any); [wt_run|intros; wt_run]. Qed.
#[local] Hint Resolve wt_unlink_path : wt.

Lemma wt_sys_unlink : wt any sys_unlink.
Proof using HE. unfold sys_unlink. wt_run. Qed.

Lemma wt_create path type major minor :
  bytes_ok path -> is_i16 major -> is_i16 minor -> wt (idx NINODE) (create path type major minor).
Proof using HE. intros H1 H2 H3. unfold create. wt_run. Qed.
#[local] Hint Resolve wt_create : wt.
#[local] Hint Extern 8 (is_i16 _) => ty : wt.

Lemma wt_open_inode path omode : bytes_ok path -> wt (idx NINODE) (open_inode path omode).
Proof using HE. intros H. unfold open_inode. wt_run. Qed.
#[local] Hint Resolve wt_open_inode : wt.

Lemma c_bool_u8 b : is_u8 (c_bool b).
Proof. by destruct b. Qed.
#[local] Hint Resolve c_bool_u8 : ty.

Lemma wt_open_path path omode : bytes_ok path -> wt any (open_path path omode).
Proof using HE. intros H. unfold open_path. wt_run. Qed.
#[local] Hint Resolve wt_open_path : wt.

Lemma wt_sys_open : wt any sys_open.
Proof using HE. unfold sys_open. wt_run. Qed.

Lemma wt_made ip : wt any (made ip).
Proof using HE. unfold made. wt_run. Qed.
#[local] Hint Resolve wt_made : wt.

Lemma wt_sys_mkdir : wt any sys_mkdir.
Proof using HE. unfold sys_mkdir. wt_run. eapply (wt_bind any); [wt_run|intros; wt_run]. Qed.

Lemma wt_sys_mknod : wt any sys_mknod.
Proof using HE. unfold sys_mknod. wt_run. eapply (wt_bind any); [wt_run|intros; wt_run]. Qed.

Lemma wt_sys_chdir : wt any sys_chdir.
Proof using HE. unfold sys_chdir. wt_run. eapply (wt_bind (idx NINODE)); [wt_run|intros; wt_run]. Qed.

Lemma wt_fetch_argv n uargv i : wt any (fetch_argv n uargv i).
Proof. revert i; induction n; intros i; cbn [fetch_argv]; wt_run. Qed.
#[local] Hint Resolve wt_fetch_argv : wt.

Lemma wt_sys_exec : wt any sys_exec.
Proof using HE. unfold sys_exec. wt_run. Qed.

Lemma wt_set_fd cur fd f : idx NFILE f -> wt any (set_fd cur fd f).
Proof. intros H. by apply wt_set_ofile. Qed.
#[local] Hint Resolve wt_set_fd : wt.

Lemma wt_sys_pipe : wt any sys_pipe.
Proof using HE. unfold sys_pipe. wt_run. eapply (wt_bind any); [wt_run|intros; wt_run]. Qed.

Lemma wt_sys_fork : wt any sys_fork.
Proof using HE. eapply wt_mono; [by apply wt_forks|done]. Qed.

Lemma wt_forkLowest : wt any forkLowest.
Proof using HE. eapply wt_mono; [by apply wt_forks|done]. Qed.

Lemma wt_forkLow : wt any forkLow.
Proof using HE. eapply wt_mono; [by apply wt_forks|done]. Qed.

Lemma wt_forkMedium : wt any forkMedium.
Proof using HE. eapply wt_mono; [by apply wt_forks|done]. Qed.

Lemma wt_forkHigh : wt any forkHigh.
Proof using HE. eapply wt_mono; [by apply wt_forks|done]. Qed.

Lemma wt_forkHighest : wt any forkHighest.
Proof using HE. eapply wt_mono; [by apply wt_forks|done]. Qed.

Lemma wt_sys_getpid : wt any sys_getpid.
Proof. unfold sys_getpid. wt_run. Qed.

Lemma wt_sys_wait : wt any sys_wait.
Proof. unfold sys_wait. wt_run. Qed.

Lemma wt_sys_exit : wt any sys_exit.
Proof using HE. unfold sys_exit. wt_run. Qed.

Lemma wt_sys_switchDebug : wt any sys_switchDebug.
Proof. unfold sys_switchDebug. wt_run. Qed.
#[local] Hint Resolve wt_sys_kill wt_sys_sbrk wt_sys_sleep wt_sys_uptime wt_sys_pidInfo wt_sys_dup wt_sys_read wt_sys_write
  wt_sys_close wt_sys_fstat wt_sys_link wt_sys_unlink wt_sys_open wt_sys_mkdir wt_sys_mknod wt_sys_chdir wt_sys_exec
  wt_sys_pipe wt_sys_getpid wt_sys_wait wt_sys_exit wt_sys_switchDebug wt_sys_fork wt_forkLowest wt_forkLow wt_forkMedium
  wt_forkHigh wt_forkHighest : wt.

Lemma wt_syscalls num call : syscalls num = Some call -> wt any call.
Proof using HE.
  intros H. unfold syscalls in H. repeat (case_match; try discriminate H; subst). all: injection H as <-; wt_run.
Qed.

Lemma wt_set_eax v : wt any (set_eax v).
Proof. unfold set_eax. wt_run. Qed.
#[local] Hint Resolve wt_syscalls wt_set_eax : wt.

Lemma wt_syscall : wt any syscall.
Proof using HE. unfold syscall. wt_run. Qed.
#[local] Hint Resolve wt_syscall : wt.

(** ** trap.c *)

Lemma wt_exit_if_killed : wt any exit_if_killed.
Proof using HE. unfold exit_if_killed. wt_run. Qed.

Lemma wt_exit_if_killed_user cs : wt any (exit_if_killed_user cs).
Proof using HE. unfold exit_if_killed_user. wt_run. Qed.

Lemma clock_account_typed timer p : proc_typed p -> proc_typed (clock_account timer p).1.
Proof. unfold clock_account. intros []. case_match; cbn [fst]; constructor; ty_record; try done; ty. Qed.

Lemma wt_trap_account trapno : wt any (trap_account trapno).
Proof.
  unfold trap_account. do 4 wt_step; [|by apply wt_ret]. destruct (clock_account _ _) as [p' y] eqn:Ec.
  assert (proc_typed p') by (change p' with (p', y).1; rewrite <- Ec; apply clock_account_typed; ty).
  eapply wt_bind; [by apply wt_set_proc|intros; wt_run].
Qed.

Lemma wt_timer_tick : wt any timer_tick.
Proof. unfold timer_tick. wt_run. apply wt_modify. intros s []. constructor; try done. apply u32_range. Qed.

Lemma wt_fault tf trapno cs ev : wt any (fault tf trapno cs ev).
Proof. unfold fault. wt_run. Qed.
#[local] Hint Resolve wt_exit_if_killed wt_exit_if_killed_user wt_trap_account wt_timer_tick wt_fault : wt.

Lemma wt_irq tf trapno cs ev : wt any (irq tf trapno cs ev).
Proof. unfold irq. wt_run. Qed.
#[local] Hint Resolve wt_irq : wt.

Lemma wt_trap ev tf : is_u32 tf -> wt any (trap ev tf).
Proof using HE. intros H. unfold trap. wt_run. Qed.

(** ** The kernel *)

Lemma wt_consoleinit : wt any consoleinit.
Proof. unfold consoleinit. wt_run. Qed.

Lemma wt_freerange vstart vend : wt any (freerange vstart vend).
Proof. unfold freerange. apply wt_freerange_loop. ty. Qed.
#[local] Hint Resolve wt_freerange : wt.

Lemma wt_kinit1 vstart vend : wt any (kinit1 vstart vend).
Proof. unfold kinit1. wt_run. apply wt_modify. intros s []. by constructor. Qed.

Lemma wt_kinit2 vstart vend : wt any (kinit2 vstart vend).
Proof. unfold kinit2. wt_run. apply wt_modify. intros s []. by constructor. Qed.

(** What runs in the kernel: the handler of traps, with whatever the devices
    hold, the scheduler of a processor, the first steps of a process, and the
    initialisers. *)
Inductive entry : K unit -> Prop :=
| entry_trap ev tf : is_u32 tf -> entry (trap ev tf)
| entry_scheduler turns : entry (scheduler turns)
| entry_forkret : entry forkret
| entry_kinit1 vstart vend : entry (kinit1 vstart vend)
| entry_kinit2 vstart vend : entry (kinit2 vstart vend)
| entry_kvmalloc : entry kvmalloc
| entry_consoleinit : entry consoleinit
| entry_pinit : entry pinit
| entry_binit : entry binit
| entry_fileinit : entry fileinit
| entry_iinit : entry iinit
| entry_userinit : entry userinit.

Lemma entry_typed m : entry m -> wt any m.
Proof using HE.
  destruct 1; eauto using wt_trap, wt_scheduler, wt_forkret, wt_kinit1, wt_kinit2, wt_kvmalloc, wt_consoleinit, wt_initlock,
    wt_binit, wt_userinit.
Qed.

(** A state of the kernel, with what the threads that have switched away still
    do. *)
Definition system : Type := kernel * list (kernel -> res kernel unit).

(** The state after a run ends or switches away; a run that panics or spins
    stops the system. *)
Inductive outcome (ts : list (kernel -> res kernel unit)) : res kernel unit -> system -> Prop :=
| outcome_ok a s : outcome ts (Ok a s) (s, ts)
| outcome_swtch s k : outcome ts (Swtch s k) (s, k :: ts).

(** The runs of the system: some code enters the kernel, or a thread that has
    switched away goes on; between the runs another processor takes over, and
    processes write to memory. *)
Inductive runs : system -> Prop :=
| runs_boot kend kdata : runs (kernel_boot kend kdata, [])
| runs_enter s ts m c : runs (s, ts) -> entry m -> outcome ts (m s) c -> runs c
| runs_resume s ts1 k ts2 c : runs (s, ts1 ++ k :: ts2) -> outcome (ts1 ++ ts2) (k s) c -> runs c
| runs_cpu s ts i : runs (s, ts) -> (i < NCPU)%nat -> runs (s <| k_me := i |>, ts)
| runs_user s ts a v : runs (s, ts) -> runs (s <| k_mem ::= fun m => store8 m a v |>, ts).

Definition thread_typed (k : kernel -> res kernel unit) : Prop := forall s, typed s -> rt any (k s).

Lemma boot_typed kend kdata : typed (kernel_boot kend kdata).
Proof.
  constructor; try done; try (apply Forall_replicate; first [apply proc0_typed | apply inode0_typed | apply buf0_typed | done]).
  - intros l x H%elem_of_list_to_map_2. repeat (apply elem_of_cons in H as [[= -> ->]|H]; [done|]). by apply elem_of_nil in H.
  - cbn. unfold NCPU. lia.
  - constructor; try done. by apply Forall_replicate.
  - constructor; try done. by apply Forall_replicate.
Qed.

Lemma outcome_typed ts r c :
  outcome ts r c -> rt any r -> Forall thread_typed ts -> typed c.1 /\ Forall thread_typed c.2.
Proof. destruct 1; cbn; intros [H1 H2] Ht; split; auto. Qed.

Lemma runs_typed_threads c : runs c -> typed c.1 /\ Forall thread_typed c.2.
Proof using HE.
  induction 1 as [kend kdata|s ts m c H [Hs Ht] Hm Ho|s ts1 k ts2 c H [Hs Ht] Ho|s ts i H [Hs Ht] Hi|s ts a v H [Hs Ht]].
  - split; [apply boot_typed|done].
  - eapply outcome_typed; [done|by apply (entry_typed m Hm)|done].
  - cbn [fst snd] in *. rewrite Forall_app, Forall_cons in Ht. destruct Ht as (Ht1 & Hk & Ht2).
    eapply outcome_typed; [done|by apply Hk|by apply Forall_app].
  - split; [|done]. cbn [fst] in *. destruct Hs; by constructor.
  - split; [|done]. cbn [fst] in *. destruct Hs; constructor; cbn; try done. by apply mem_ok_store8.
Qed.
End proc.


