(* ===== verification/Machine.v ===== *)
(** One CPU running the stride scheduler: the kernel's code refines the policy
    of Stride.v.

    A slice of the machine is the code itself: a turn of the scheduler up to
    its switch, the chosen process on its way out of the kernel, its program in
    user mode up to the clock interrupt, the handler of that interrupt up to
    its switch, and the rest of the turn.  The processes are the compute-bound
    ones of teste1.c to teste5.c: their programs make no system calls, but may
    leave any contents in memory. *)
From S2P Require Import Prelude Memory Kernel CString Spinlock Console Sched.
From S2P Require Import Kalloc Ide Bytes Bio Log Inode Vm Umem Tty.
From S2P Require Import Fs File Proc Exec Syscall Sysfile Trap Stride.

(** The kernel, with what each process will do when it is switched to. *)
Record machine := Mkmachine {
  m_kernel : kernel;
  m_resume : nat -> kernel -> res kernel unit;
}.

(** What a program has made of memory when the clock interrupts it, and where
    its trap frame then lies. *)
Record user := Mkuser {
  u_mem : memory;
  u_tf : Z;
}.

(** The frame of a clock interrupt. *)
Definition clock_frame (u : user) : Prop :=
  load32 (u_mem u) (u_tf u + tf_trapno) = T_IRQ0 + IRQ_TIMER.

Section machine.
Context {E : Env} {I : Image}.

(** The program runs and is interrupted: the gate turns interrupts off. *)
Definition interrupted (u : user) (s : kernel) : kernel :=
  s <| k_mem := u_mem u |> <| k_cpus ::= alter (fun c => c <| c_if := false |>) (k_me s) |>.

Definition machine_slice (u : user) (m : machine) : option (nat * machine) :=
  match stride_round (m_kernel m) with
  | Swtch s1 turn =>
      match curproc s1 with
      | Some i =>
          match m_resume m i s1 with
          | Ok _ s2 =>
              match trap no_event (u_tf u) (interrupted u s2) with
              | Swtch s3 k =>
                  match turn s3 with
                  | Ok _ s4 => Some (i, Mkmachine s4 (fun j => if decide (j = i) then k else m_resume m j))
                  | _ => None
                  end
              | _ => None
              end
          | _ => None
          end
      | None => None
      end
  | _ => None
  end.

Fixpoint machine_run (us : list user) (m : machine) : option (list nat * machine) :=
  match us with
  | [] => Some ([], m)
  | u :: us' =>
      '(i, m1) ← machine_slice u m;
      '(picks, m2) ← machine_run us' m1;
      Some (i :: picks, m2)
  end.

(** A process that gave up the CPU in [yield] at the end of [trap]: it gives
    back [ptable.lock] and returns to its program. *)
Definition resumes (i : nat) (f : kernel -> res kernel unit) : Prop :=
  forall s, holds_only L_ptable s -> curproc s = Some i -> p_killed (proc_at s i) = 0 ->
  exists n, f s = Ok tt (released L_ptable
    (s <| k_cpus ::= alter (fun c => c <| c_intena := n |>) (k_me s) |>)).

Record machine_inv (m : machine) : Prop := {
  mi_idle : idle L_ptable (m_kernel m);
  mi_ticks : lock_free L_tickslock (m_kernel m);
  mi_table : k_ptable (m_kernel m) <> [];
  mi_proc : forall i p, candidate (k_ptable (m_kernel m)) i p ->
    p_pgdir p <> 0 /\ p_killed p = 0 /\ resumes i (m_resume m i);
}.

(** ** The end of a clock interrupt *)

(** The process a clock interrupt has charged, about to be switched away. *)
Definition charged (p : proc) : proc := (fst (clock_account true p)) <| p_state := RUNNABLE |>.

Lemma yield_swtch i s :
  idle L_ptable s -> curproc s = Some i -> (i < length (k_ptable s))%nat ->
  yield s = Swtch ((acquired L_ptable s) <| k_ptable ::= alter (fun p => p <| p_state := RUNNABLE |>) i |>)
    (set_cpu (fun c => c <| c_intena := c_intena (mycpu (acquired L_ptable s)) |>);; release L_ptable).
Proof.
  intros Hi Hcur Hlt. unfold yield. rewrite (bind_ok _ _ _ _ _ (acquire_idle _ _ Hi)).
  pose proof (holds_acquired _ _ Hi) as Hh. set (s1 := acquired L_ptable s) in *.
  assert (Hc1 : curproc s1 = Some i) by (unfold s1; rewrite curproc_acquired; [done|apply Hi]).
  rewrite (bind_ok deref_proc _ s1 i s1) by (unfold deref_proc; krun; by rewrite Hc1).
  set (s2 := s1 <| k_ptable ::= alter (fun p => p <| p_state := RUNNABLE |>) i |>).
  rewrite (bind_ok (set_proc _ _) _ s1 tt s2 eq_refl).
  unfold mbind, K_bind, M_bind. rewrite (sched_swtch i s2); [done|done|done|].
  unfold s2. rewrite proc_at_set by done. by rewrite decide_True.
Qed.

Lemma timer_tick_ok s :
  idle L_ptable s -> lock_free L_tickslock s ->
  exists s' (f : proc -> proc), timer_tick s = Ok tt s' /\
    k_ptable s' = f <$> k_ptable s /\ (f = id \/ f = wake_proc Ch_ticks) /\
    idle L_ptable s' /\ lock_free L_tickslock s' /\ curproc s' = curproc s /\
    k_me s' = k_me s /\ k_mem s' = k_mem s.
Proof.
  intros Hi Ht. unfold timer_tick. rewrite (bind_ok (gets _) _ s (c_id (mycpu s)) s eq_refl).
  destruct (c_id (mycpu s) =? 0); unfold when.
  2: { exists s, id. split_and!; try done; [by rewrite list_fmap_id|by left]. }
  assert (Hit : idle L_tickslock s) by (split_and!; [apply Hi..|done]).
  pose proof (holds_acquired _ _ Hit) as Hh.
  rewrite (bind_ok _ _ _ _ _ (acquire_idle _ _ Hit)).
  set (s1 := acquired L_tickslock (s <| k_ticks ::= fun t => u32 (t + 1) |>)).
  rewrite (bind_ok (modify (fun s => s <| k_ticks ::= fun t => u32 (t + 1) |>)) _
    (acquired L_tickslock s) tt s1 eq_refl).
  assert (Hs1 : settled s1 = s1) by (by apply (settled_holds L_tickslock)).
  rewrite (bind_ok _ _ s1 tt (s1 <| k_ptable ::= fmap (wake_proc Ch_ticks) |>)).
  2: { rewrite <- Hs1 at 2. apply (wakeup_run 1); [by eapply (holds_cpu_ok L_tickslock)|done|].
       apply lock_free_acquired; [done|apply Hi]. }
  set (s2 := s <| k_ticks ::= fun t => u32 (t + 1) |> <| k_ptable ::= fmap (wake_proc Ch_ticks) |>).
  change (s1 <| k_ptable ::= fmap (wake_proc Ch_ticks) |>) with (acquired L_tickslock s2).
  assert (Hi2 : idle L_ptable s2) by exact Hi.
  rewrite (release_acquired 0 L_tickslock s2 (idle_cpu_ok _ _ Hi2) ltac:(done) Ht).
  exists (settled s2), (wake_proc Ch_ticks).
  assert (Hc : mycpu (settled s2) = settle_cpu (mycpu s)) by exact (mycpu_settled s2 (proj1 Hi2)).
  assert (Hn : c_ncli (mycpu (settled s2)) = 0 /\ curproc (settled s2) = curproc s).
  { unfold curproc. rewrite Hc. unfold settle_cpu. destruct (_ =? 0); split; (done || apply Hi). }
  split; [done|]. split; [done|]. split; [by right|]. split.
  { split_and!; [by simpl; rewrite length_alter; apply Hi|apply Hn|by apply lock_free_settled, Hi]. }
  split_and!; [by apply lock_free_settled|apply Hn|done|done].
Qed.

Lemma not_killed cs i s :
  curproc s = Some i -> p_killed (proc_at s i) = 0 -> exit_if_killed_user cs s = Ok tt s.
Proof.
  intros Hc Hk. unfold exit_if_killed_user.
  rewrite (bind_ok (gets curproc) _ s (Some i) s) by (unfold gets; by rewrite Hc).
  by rewrite (bind_ok (gets _) _ s false s) by (unfold gets; by rewrite Hk).
Qed.

Lemma resumes_yield i cs n :
  resumes i ((set_cpu (fun c => c <| c_intena := n |>);; release L_ptable);; exit_if_killed_user cs).
Proof.
  intros s Hh Hc Hk. exists n.
  set (s1 := s <| k_cpus ::= alter (fun c => c <| c_intena := n |>) (k_me s) |>).
  assert (Hcpu : mycpu s1 = (mycpu s) <| c_intena := n |>) by (apply mycpu_set; [done|apply Hh]).
  assert (Hh1 : holds_only L_ptable s1).
  { revert Hh. unfold holds_only. rewrite Hcpu. simpl. by rewrite length_alter. }
  rewrite (bind_ok _ _ s tt (released L_ptable s1)).
  2: { rewrite (bind_ok (set_cpu _) _ s tt s1 eq_refl). by apply release_holds. }
  apply (not_killed cs i); [|done].
  rewrite curproc_released by apply Hh1. unfold curproc. by rewrite Hcpu.
Qed.

Lemma trap_account_clock i s :
  idle L_ptable s -> curproc s = Some i -> (i < length (k_ptable s))%nat ->
  p_state (proc_at s i) = RUNNING ->
  exists n, trap_account (T_IRQ0 + IRQ_TIMER) s =
    Swtch ((acquired L_ptable s) <| k_ptable ::= alter charged i |>)
      (set_cpu (fun c => c <| c_intena := n |>);; release L_ptable).
Proof.
  intros Hi Hcur Hlt Hst. unfold trap_account.
  rewrite (bind_ok (gets curproc) _ s (Some i) s) by (unfold gets; by rewrite Hcur).
  rewrite (bind_ok (gets _) _ s (proc_at s i) s eq_refl).
  unfold state_eqb. rewrite Hst, bool_decide_true by done. rewrite Z.eqb_refl.
  destruct (clock_account true (proc_at s i)) as [p' y] eqn:Ep.
  assert (Hy : y = true) by (unfold clock_account in Ep; rewrite orb_true_r in Ep; by simplify_eq).
  subst y. set (s1 := s <| k_ptable ::= alter (fun _ => p') i |>).
  rewrite (bind_ok (set_proc _ _) _ s tt s1 eq_refl). unfold when.
  eexists. rewrite (yield_swtch i s1); [|done|done|by simpl; rewrite length_alter].
  f_equal. unfold s1.
  change (acquired L_ptable (s <| k_ptable ::= ?f |>)) with ((acquired L_ptable s) <| k_ptable ::= f |>).
  rewrite set_proc_twice. unfold update. f_equal. apply list_alter_ext; [|done].
  intros p Hp. unfold charged, compose. unfold proc_at in Ep. simpl in Hp. rewrite Hp in Ep.
  simpl in Ep. by rewrite Ep.
Qed.

(** A clock interrupt of a program. *)
Lemma trap_clock u i s :
  clock_frame u -> k_mem s = u_mem u -> idle L_ptable s -> lock_free L_tickslock s ->
  curproc s = Some i -> (i < length (k_ptable s))%nat ->
  p_state (proc_at s i) = RUNNING -> p_killed (proc_at s i) = 0 ->
  exists s3 k (f : proc -> proc), trap no_event (u_tf u) s = Swtch s3 k /\
    holds_only L_ptable s3 /\ lock_free L_tickslock s3 /\
    k_ptable s3 = alter charged i (f <$> k_ptable s) /\ (f = id \/ f = wake_proc Ch_ticks) /\
    resumes i k.
Proof.
  intros Hu Hm Hi Ht Hcur Hlt Hst Hk. unfold trap.
  rewrite (bind_ok (gets _) _ s (T_IRQ0 + IRQ_TIMER) s) by (unfold gets; by rewrite Hm, Hu).
  set (cs := load16 (k_mem s) (u_tf u + tf_cs)).
  rewrite (bind_ok (gets (fun s => load16 (k_mem s) (u_tf u + tf_cs))) _ s cs s eq_refl).
  change (T_IRQ0 + IRQ_TIMER =? T_SYSCALL) with false. cbv iota.
  destruct (timer_tick_ok s Hi Ht) as (s1 & f & E1 & T1 & Hf & I1 & L1 & C1 & M1 & _).
  assert (Ep : proc_at s1 i = proc_at s i).
  { unfold proc_at in *. rewrite T1, list_lookup_fmap.
    destruct (lookup_lt_is_Some_2 _ _ Hlt) as [p Hp]. rewrite Hp in *. simpl in *.
    destruct Hf as [-> | ->]; [done|]. unfold wake_proc, state_eqb. by rewrite Hst. }
  assert (Hlt1 : (i < length (k_ptable s1))%nat) by (by rewrite T1, length_fmap).
  rewrite (bind_ok (irq (u_tf u) (T_IRQ0 + IRQ_TIMER) cs no_event) _ s tt s1 E1).
  rewrite (bind_ok _ _ s1 tt s1) by (apply (not_killed cs i); [by rewrite C1|by rewrite Ep]).
  destruct (trap_account_clock i s1) as [n E2]; [done|by rewrite C1|done|by rewrite Ep|].
  eexists _, _, f. split_and!.
  - unfold mbind at 1, K_bind, M_bind. rewrite E2. reflexivity.
  - apply (holds_acquired _ _ I1).
  - apply lock_free_acquired; [done|]. apply L1.
  - simpl. by rewrite T1.
  - done.
  - apply (resumes_yield i cs n).
Qed.

(** ** The accounts of a table *)

(** What the policy looks at: two tables with the same accounts are the same to
    it. *)
Definition account (p : proc) : bool * Z * Z * Z * Z :=
  (eligible p, p_pass p, p_limitpass p, p_stride p, p_tickets p).

Lemma account_wake chan p : account (wake_proc chan p) = account p.
Proof.
  unfold account, wake_proc. destruct (state_eqb (p_state p) SLEEPING) eqn:Es; [|done].
  apply bool_decide_eq_true_1 in Es. simpl. case_bool_decide; [|done].
  unfold eligible. simpl. by rewrite Es.
Qed.

Lemma account_fields p q :
  account p = account q ->
  p_pass p = p_pass q /\ p_limitpass p = p_limitpass q /\
  p_stride p = p_stride q /\ p_tickets p = p_tickets q /\ eligible p = eligible q.
Proof. unfold account. intros ?. by simplify_eq. Qed.

Lemma account_charged p q : account p = account q -> account (charged p) = account (charged q).
Proof.
  intros (H1 & H2 & H3 & H4 & _)%account_fields.
  unfold account, charged, clock_account, eligible. rewrite !orb_true_r. simpl.
  by rewrite H1, H2, H3, H4.
Qed.

Lemma account_stride p q :
  account p = account q -> account (stride_account p) = account (stride_account q).
Proof.
  intros (H1 & H2 & H3 & H4 & _)%account_fields.
  unfold stride_account. rewrite H1, H2, H3.
  destruct (_ <=? _); simpl; rewrite ?H1; destruct (_ <? 0);
    unfold account, eligible; simpl; by rewrite ?H1, ?H2, ?H3, ?H4.
Qed.

Lemma account_slice p q : account p = account q -> account (slice_proc p) = account (slice_proc q).
Proof. intros H. by apply account_charged, account_stride. Qed.

Lemma stride_scan_account t t' : forall i j p q,
  account <$> t = account <$> t' -> account p = account q ->
  stride_scan i t j p = stride_scan i t' j q.
Proof.
  revert t'. induction t as [|a t IH]; intros [|b t'] i j p q Ht Hp; try done.
  rewrite !fmap_cons in Ht. assert (Hab : account a = account b) by congruence.
  assert (Ht' : account <$> t = account <$> t') by congruence. simpl.
  pose proof (account_fields _ _ Hab) as (-> & _ & _ & _ & ->).
  pose proof (account_fields _ _ Hp) as (-> & _). destruct (_ && _); by apply IH.
Qed.

Lemma stride_pick_account t t' : account <$> t = account <$> t' -> stride_pick t = stride_pick t'.
Proof.
  intros H. apply stride_scan_account; [done|].
  destruct t as [|a t], t' as [|b t']; try done. rewrite !fmap_cons in H. simpl. congruence.
Qed.

Lemma account_alter (f g : proc -> proc) (i : nat) (t t' : list proc) :
  (forall p q, account p = account q -> account (f p) = account (g q)) ->
  account <$> t = account <$> t' -> account <$> alter f i t = account <$> alter g i t'.
Proof.
  intros Hfg Ht. apply list_eq. intros j. rewrite !list_lookup_fmap, !list_lookup_alter.
  assert (Hj : account <$> t !! j = account <$> t' !! j) by (by rewrite <- !list_lookup_fmap, Ht).
  case_decide; [subst j|done]. destruct (t !! i), (t' !! i); try done. simpl in *. f_equal. apply Hfg.
  congruence.
Qed.

Lemma slice_account t t' : account <$> t = account <$> t' -> account <$> slice t = account <$> slice t'.
Proof.
  intros H. unfold slice. rewrite (stride_pick_account _ _ H). apply account_alter; [|done].
  apply account_slice.
Qed.

Lemma run_slices_account n t t' :
  account <$> t = account <$> t' ->
  fst (run_slices n t) = fst (run_slices n t') /\
  account <$> snd (run_slices n t) = account <$> snd (run_slices n t').
Proof.
  revert t t'; induction n as [|n IH]; intros t t' H; [done|]. simpl.
  destruct (IH _ _ (slice_account _ _ H)) as [H1 H2].
  destruct (run_slices n (slice t)), (run_slices n (slice t')). simpl in *.
  by rewrite H1, (stride_pick_account _ _ H).
Qed.

(** ** A slice of the machine *)

(** The table after a slice: slot [i] is charged twice, and the others may have
    been woken. *)
Definition after_slice (f : proc -> proc) (i : nat) (t : list proc) : list proc :=
  alter charged i (f <$> alter stride_account i t).

Definition tick_wakes (f : proc -> proc) : Prop := f = id \/ f = wake_proc Ch_ticks.

Lemma tick_keeps f p :
  tick_wakes f -> account (f p) = account p /\ p_pgdir (f p) = p_pgdir p /\ p_killed (f p) = p_killed p.
Proof.
  intros [-> | ->]; [done|]. split; [apply account_wake|].
  unfold wake_proc. by destruct (_ && _).
Qed.

Lemma stride_account_keeps p :
  p_pgdir (stride_account p) = p_pgdir p /\ p_killed (stride_account p) = p_killed p.
Proof. unfold stride_account. simpl. repeat case_match; done. Qed.

Lemma charged_keeps p : p_pgdir (charged p) = p_pgdir p /\ p_killed (charged p) = p_killed p.
Proof. unfold charged, clock_account. by rewrite orb_true_r. Qed.

Lemma after_slice_account f t :
  tick_wakes f -> account <$> after_slice f (stride_pick t) t = account <$> slice t.
Proof.
  intros Hf. unfold after_slice, slice.
  change slice_proc with (charged ∘ stride_account).
  transitivity (account <$> alter charged (stride_pick t) (alter stride_account (stride_pick t) t)).
  - apply account_alter; [apply account_charged|]. rewrite <- list_fmap_compose.
    apply list_fmap_ext. intros j p _. by apply tick_keeps.
  - by rewrite list_alter_alter_eq.
Qed.

Lemma after_slice_lookup f i t j q :
  tick_wakes f -> after_slice f i t !! j = Some q ->
  exists q0, t !! j = Some q0 /\ p_pgdir q = p_pgdir q0 /\ p_killed q = p_killed q0 /\
    (j <> i -> account q = account q0).
Proof.
  intros Hf. unfold after_slice. destruct (decide (j = i)) as [->|Hne].
  - rewrite list_lookup_alter_eq, list_lookup_fmap, list_lookup_alter_eq.
    destruct (t !! i) as [q0|]; [|done]. cbn [fmap option_fmap option_map]. intros [= <-]. exists q0.
    destruct (tick_keeps f (stride_account q0) Hf) as (_ & A2 & A3).
    destruct (stride_account_keeps q0) as [C2 C3], (charged_keeps (f (stride_account q0))) as [D2 D3].
    split_and!; [done|congruence|congruence|done].
  - rewrite list_lookup_alter_ne, list_lookup_fmap, list_lookup_alter_ne by done.
    destruct (t !! j) as [q0|]; intros ?; simplify_eq/=. exists q0.
    destruct (tick_keeps f q0 Hf) as (A1 & A2 & A3). by split_and!.
Qed.

Lemma candidate_after f t j q :
  t <> [] -> tick_wakes f -> candidate (after_slice f (stride_pick t) t) j q ->
  exists q0, candidate t j q0 /\ p_pgdir q = p_pgdir q0 /\ p_killed q = p_killed q0.
Proof.
  intros Hne Hf [Hj Hc]. destruct (after_slice_lookup _ _ _ _ _ Hf Hj) as (q0 & H0 & H1 & H2 & H3).
  exists q0. split; [|done]. split; [done|].
  destruct (decide (j = stride_pick t)) as [->|Hji].
  - destruct (stride_pick_spec t Hne) as (pm & [G1 G2] & _). by simplify_eq.
  - destruct Hc as [->|Hc]; [by left|right].
    by destruct (account_fields _ _ (H3 Hji)) as (_ & _ & _ & _ & <-).
Qed.

Lemma mycpu_interrupted u s :
  (k_me s < length (k_cpus s))%nat -> mycpu (interrupted u s) = (mycpu s) <| c_if := false |>.
Proof. intros H. unfold mycpu at 1, interrupted. simpl. by rewrite mycpu_alter. Qed.

Lemma interrupted_len u s :
  (k_me s < length (k_cpus s))%nat -> (k_me (interrupted u s) < length (k_cpus (interrupted u s)))%nat.
Proof. unfold interrupted. simpl. by rewrite length_alter. Qed.

(** Between the switch to process [i] and its clock interrupt. *)
Lemma user_runs u i n s :
  dispatched i s -> lock_free L_tickslock s ->
  let s2 := interrupted u (released L_ptable
    (s <| k_cpus ::= alter (fun c => c <| c_intena := n |>) (k_me s) |>)) in
  idle L_ptable s2 /\ lock_free L_tickslock s2 /\ curproc s2 = Some i /\
  k_ptable s2 = k_ptable s /\ k_mem s2 = u_mem u.
Proof.
  intros (Hh & Hc & _) Ht s2.
  set (s1 := s <| k_cpus ::= alter (fun c => c <| c_intena := n |>) (k_me s) |>).
  assert (Hcpu : mycpu s1 = (mycpu s) <| c_intena := n |>) by (apply mycpu_set; [done|apply Hh]).
  assert (Hh1 : holds_only L_ptable s1).
  { revert Hh. unfold holds_only. rewrite Hcpu. simpl. by rewrite length_alter. }
  destruct (idle_released _ _ Hh1) as (I1 & I2 & I3).
  assert (Hc2 : mycpu s2 = (mycpu (released L_ptable s1)) <| c_if := false |>)
    by exact (mycpu_interrupted u _ I1).
  split; [split_and!; [by apply interrupted_len|by rewrite Hc2|exact I3]|].
  split_and!; [| |done|done].
  - destruct Ht as [name Hn]. exists name. simpl. by rewrite lookup_insert_ne.
  - unfold curproc. rewrite Hc2, mycpu_released by apply Hh1. simpl. rewrite Hcpu. exact Hc.
Qed.

Lemma machine_slice_ok u m :
  machine_inv m -> clock_frame u ->
  exists m', machine_slice u m = Some (stride_pick (k_ptable (m_kernel m)), m') /\
    machine_inv m' /\
    account <$> k_ptable (m_kernel m') = account <$> slice (k_ptable (m_kernel m)).
Proof.
  intros [M1 M2 M3 M4] Hu. unfold machine_slice. destruct m as [s rs]. simpl in *.
  set (i := stride_pick (k_ptable s)).
  assert (Hlt : (i < length (k_ptable s))%nat) by (by apply stride_pick_lt).
  destruct (lookup_lt_is_Some_2 _ _ Hlt) as [p Hp].
  assert (Hcand : candidate (k_ptable s) i p).
  { destruct (stride_pick_spec _ M3) as (pm & [G1 G2] & _). fold i in G1, G2. by simplify_eq. }
  destruct (M4 i p Hcand) as (Hpg & Hk & Hres).
  destruct (stride_round_swtch s M1 M3) as (s1 & -> & T1 & D1 & R1 & L1).
  { fold i. unfold proc_at. by rewrite Hp. }
  fold i in T1, D1. pose proof D1 as (Hh1 & Hc1 & St1 & _). rewrite Hc1.
  assert (Hp1 : proc_at s1 i = stride_account p)
    by (unfold proc_at; by rewrite T1, list_lookup_alter_eq, Hp).
  assert (Ht1 : lock_free L_tickslock s1) by (destruct M2 as [nm Hn]; exists nm; by rewrite L1).
  destruct (Hres s1 Hh1 Hc1) as [n ->].
  { by rewrite Hp1, (proj2 (stride_account_keeps p)). }
  destruct (user_runs u i n s1 D1 Ht1) as (I2 & L2 & C2 & T2 & M2').
  set (s2 := interrupted u _) in *.
  assert (Hp2 : proc_at s2 i = stride_account p) by (unfold proc_at; by rewrite T2).
  destruct (trap_clock u i s2) as (s3 & k & f & -> & Hh3 & L3 & T3 & Hf & Hk3);
    [done|done|done|done|done| | | |].
  { by rewrite T2, T1, length_alter. }
  { by rewrite Hp2, <- Hp1. }
  { by rewrite Hp2, (proj2 (stride_account_keeps p)). }
  destruct (stride_round_back s3 Hh3) as (s4 & -> & T4 & _ & I4 & _ & _ & L4).
  assert (T : k_ptable s4 = after_slice f i (k_ptable s)) by (by rewrite T4, T3, T2, T1).
  eexists. split; [done|]. simpl. split; [|rewrite T; by apply after_slice_account].
  split; simpl; [done| | |].
  - destruct L3 as [nm Hn]. exists nm. by rewrite L4.
  - rewrite T. unfold after_slice. intros E0. apply (f_equal length) in E0.
    rewrite length_alter, length_fmap, length_alter in E0. simpl in E0. lia.
  - intros j q Hq. rewrite T in Hq. destruct (candidate_after f _ j q M3 Hf Hq) as (q0 & Q1 & Q2 & Q3).
    destruct (M4 j q0 Q1) as (N1 & N2 & N3). split_and!; [congruence..|]. by case_decide; subst.
Qed.

(** C3: the kernel's code implements the stride policy.  Take any number of
    compute-bound processes, all of which gave up the CPU at a clock
    interrupt.  Whatever their programs do to memory until the next clock
    interrupts, the turns of [scheduler], the switches and [trap] never panic,
    hang or lose a process: they dispatch exactly the slots that the policy
    picks, one slice after the other, and leave it the same accounts. *)
Theorem stride_machine_refines us m :
  machine_inv m -> Forall clock_frame us ->
  let policy := run_slices (length us) (k_ptable (m_kernel m)) in
  exists m', machine_run us m = Some (fst policy, m') /\ machine_inv m' /\
    account <$> k_ptable (m_kernel m') = account <$> snd policy.
Proof.
  intros Hm Hus. revert m Hm. induction Hus as [|u us Hu _ IH]; intros m Hm policy.
  { by exists m. }
  destruct (machine_slice_ok u m Hm Hu) as (m1 & E1 & Hm1 & A1).
  destruct (IH m1 Hm1) as (m2 & E2 & Hm2 & A2).
  destruct (run_slices_account (length us) _ _ A1) as [P1 P2].
  unfold policy. simpl. rewrite E1. simpl. rewrite E2. simpl.
  destruct (run_slices (length us) (slice (k_ptable (m_kernel m)))). simpl in *.
  exists m2. rewrite P1. split_and!; [done|done|]. by rewrite A2.
Qed.
End machine.

(** Two processes with 100 and 990 tickets, switched away in [yield]. *)
Definition two_children : machine :=
  {| m_kernel := kernel0 <| k_ptable := (fun p => p <| p_pgdir := 4096 |>) <$> [child 1 100; child 2 990] |>;
     m_resume := fun _ => release L_ptable |}.

Definition clock (a : Z) : user :=
  {| u_mem := store32 ∅ (a + tf_trapno) 32; u_tf := a |}.

Definition image0 : Image :=
  {| trapret_addr := 0; forkret_addr := 0; initcode_start := 0; initcode_size := 0 |}.

Lemma release_resumes i : resumes i (release L_ptable).
Proof.
  intros s Hh _ _. exists (c_intena (mycpu s)). rewrite (release_holds _ _ Hh). do 2 f_equal.
  rewrite (cpus_set_ext (k_me s) _ id); [|done|apply Hh|by destruct (mycpu s)].
  unfold update. rewrite list_alter_id by done. by destruct s.
Qed.

Lemma two_children_inv : machine_inv two_children.
Proof.
  split.
  - split_and!; [vm_compute; lia|reflexivity|by eexists].
  - by eexists.
  - discriminate.
  - intros i p [Hi _]. split_and!; [| |apply release_resumes];
      destruct i as [|[|]]; simplify_eq/=; (discriminate || reflexivity).
Qed.

Lemma stride_machine_refines_witness :
  exists m', @machine_run (ide_env 1) image0 [clock 4096; clock 8192; clock 4096] two_children
      = Some ([0; 1; 1]%nat, m') /\ machine_inv m' /\
    account <$> k_ptable (m_kernel m')
      = account <$> snd (run_slices 3 (k_ptable (m_kernel two_children))).
Proof.
  apply (@stride_machine_refines (ide_env 1) image0 [clock 4096; clock 8192; clock 4096] two_children
    two_children_inv).
  repeat constructor; vm_compute; reflexivity.
Defined.
