(* ===== verification/Apic.v ===== *)
(** picirq.c, ioapic.c, lapic.c, timer.c and uart.c: the interrupt controllers,
    the clock and the serial port, and the parts of console.c and ide.c that
    set their devices up.

    The code runs on the kernel's state, the variables these files declare and
    the devices.  Output of the kernel that goes through cprintf is that of
    Console.v. *)
From S2P Require Import Prelude Memory Kernel CString Spinlock Console Sched Hw.
From S2P Require Import Ata Ide IdePorts Kalloc Bytes Bio Log Inode Vm Umem Tty Fs File Proc Exec Syscall Sysfile Trap.

(** ** Descriptors (mmu.h) *)

(** [struct segdesc] and [struct gatedesc], field by field. *)
Record segdesc := Mksegdesc {
  sd_lim_15_0 : Z; sd_base_15_0 : Z; sd_base_23_16 : Z; sd_type : Z; sd_s : Z; sd_dpl : Z; sd_p : Z;
  sd_lim_19_16 : Z; sd_avl : Z; sd_rsv1 : Z; sd_db : Z; sd_g : Z; sd_base_31_24 : Z;
}.

Record gatedesc := Mkgatedesc {
  gd_off_15_0 : Z; gd_cs : Z; gd_args : Z; gd_rsv1 : Z; gd_type : Z; gd_s : Z; gd_dpl : Z; gd_p : Z;
  gd_off_31_16 : Z;
}.

Definition segdesc0 : segdesc := Mksegdesc 0 0 0 0 0 0 0 0 0 0 0 0 0.
Definition gatedesc0 : gatedesc := Mkgatedesc 0 0 0 0 0 0 0 0 0.

(** ** State *)

(** The kernel with the variables of mp.c ([ismp], [ncpu], [ioapicid], [bcpu]),
    lapic.c ([lapic] and the counter of [cpunum]), ioapic.c, picirq.c and
    trap.c ([idt]), the tables and flags of [cpus] that only these files use,
    and the descriptor table registers of the executing CPU. *)
Record hw := Mkhw {
  h_kernel : kernel;
  h_ismp : Z;
  h_ncpu : Z;
  h_ioapicid : Z;
  h_bcpu : Z;
  h_lapic : Z;
  h_cpunum_n : Z;
  h_ioapic : Z;
  h_irqmask : Z;
  h_idt : list gatedesc;
  h_gdt : list (list segdesc);
  h_started : list Z;
  h_gdtr : Z * Z;
  h_idtr : Z * Z;
  h_gs : Z;
}.
#[export] Instance eta_hw : Eta hw := fun h =>
  Mkhw (h_kernel h) (h_ismp h) (h_ncpu h) (h_ioapicid h) (h_bcpu h) (h_lapic h) (h_cpunum_n h) (h_ioapic h)
    (h_irqmask h) (h_idt h) (h_gdt h) (h_started h) (h_gdtr h) (h_idtr h) (h_gs h).

Definition IRQ_SLAVE : Z := 2.
Definition IRQ_ERROR : Z := 19.
Definition NSEGS : nat := 7.

(** The data segment as the loader leaves it. *)
Definition hw_boot (k : kernel) : hw :=
  Mkhw k 0 0 0 0 0 0 0 (Z.land 0xFFFF (Z.lnot (Z.shiftl 1 IRQ_SLAVE))) (replicate 256 gatedesc0)
    (replicate NCPU (replicate NSEGS segdesc0)) (replicate NCPU 0) (0, 0) (0, 0) 0.

Section apic.
Context {D : Type} `{!Device D}.

Abbreviation H := (M (board D hw)).

(** Kernel code. *)
Fixpoint kernel_res {A} (h : hw) (r : res kernel A) : res hw A :=
  match r with
  | Ok a s => Ok a (h <| h_kernel := s |>)
  | Panic msg => Panic msg
  | Hang => Hang
  | NoFuel => NoFuel
  | Swtch s k => Swtch (h <| h_kernel := s |>) (fun h' => kernel_res h' (k (h_kernel h')))
  end.

Definition liftK {A} (m : K A) : H A := lift (fun h => kernel_res h (m (h_kernel h))).

Definition get_hw {A} (f : hw -> A) : H A := lift (gets f).
Definition set_hw (f : hw -> hw) : H unit := lift (modify f).

(** ** picirq.c *)

Definition IO_PIC1 : Z := 0x20.
Definition IO_PIC2 : Z := 0xA0.

Definition picsetmask (mask : Z) : H unit :=
  set_hw (fun h => h <| h_irqmask := mask |>);;
  outb (IO_PIC1 + 1) mask;;
  outb (IO_PIC2 + 1) (Z.shiftr mask 8).

Definition picenable (irq : Z) : H unit :=
  mask ← get_hw h_irqmask;
  picsetmask (u16 (Z.land mask (Z.lnot (Z.shiftl 1 irq)))).

Definition picinit : H unit :=
  outb (IO_PIC1 + 1) 0xFF;;
  outb (IO_PIC2 + 1) 0xFF;;
  outb IO_PIC1 0x11;;
  outb (IO_PIC1 + 1) T_IRQ0;;
  outb (IO_PIC1 + 1) (Z.shiftl 1 IRQ_SLAVE);;
  outb (IO_PIC1 + 1) 0x3;;
  outb IO_PIC2 0x11;;
  outb (IO_PIC2 + 1) (T_IRQ0 + 8);;
  outb (IO_PIC2 + 1) IRQ_SLAVE;;
  outb (IO_PIC2 + 1) 0x3;;
  outb IO_PIC1 0x68;;
  outb IO_PIC1 0x0a;;
  outb IO_PIC2 0x68;;
  outb IO_PIC2 0x0a;;
  mask ← get_hw h_irqmask;
  when (negb (mask =? 0xFFFF)) (picsetmask mask).

(** ** ioapic.c *)

Definition IOAPIC : Z := 0xFEC00000.
Definition REG_ID : Z := 0x00.
Definition REG_VER : Z := 0x01.
Definition REG_TABLE : Z := 0x10.
Definition INT_DISABLED : Z := 0x00010000.

Definition ioapicread (reg : Z) : H Z :=
  a ← get_hw h_ioapic;
  out_reg (Mmio a) reg;;
  in_reg (Mmio (a + 16)).

Definition ioapicwrite (reg data : Z) : H unit :=
  a ← get_hw h_ioapic;
  out_reg (Mmio a) reg;;
  out_reg (Mmio (a + 16)) data.

(** The loop over the interrupts from [i] on. *)
Fixpoint ioapic_mask (n : nat) (i : Z) : H unit :=
  match n with
  | O => mret tt
  | S n' =>
      ioapicwrite (REG_TABLE + 2 * i) (Z.lor INT_DISABLED (T_IRQ0 + i));;
      ioapicwrite (REG_TABLE + 2 * i + 1) 0;;
      ioapic_mask n' (i + 1)
  end.

Definition ioapicinit : H unit :=
  ismp ← get_hw h_ismp;
  if negb (c_true ismp) then mret tt else
  set_hw (fun h => h <| h_ioapic := IOAPIC |>);;
  ver ← ioapicread REG_VER;
  let maxintr := Z.land (Z.shiftr (u32 ver) 16) 0xFF in
  idr ← ioapicread REG_ID;
  let id := Z.shiftr (u32 idr) 24 in
  ioapicid ← get_hw h_ioapicid;
  when (negb (id =? ioapicid))
    (liftK (cprintf (Some (str "ioapicinit: id isn't equal to ioapicid; not a MP
")) []));;
  ioapic_mask (Z.to_nat (maxintr + 1)) 0.

Definition ioapicenable (irq cpunum : Z) : H unit :=
  ismp ← get_hw h_ismp;
  if negb (c_true ismp) then mret tt else
  ioapicwrite (REG_TABLE + 2 * irq) (T_IRQ0 + irq);;
  ioapicwrite (REG_TABLE + 2 * irq + 1) (u32 (Z.shiftl cpunum 24)).

(** ** lapic.c *)

(** Registers, as indices of an array of words, and their bits. *)
Definition ID : Z := 0x0020 / 4.
Definition VER : Z := 0x0030 / 4.
Definition TPR : Z := 0x0080 / 4.
Definition EOI : Z := 0x00B0 / 4.
Definition SVR : Z := 0x00F0 / 4.
Definition ENABLE : Z := 0x00000100.
Definition ESR : Z := 0x0280 / 4.
Definition ICRLO : Z := 0x0300 / 4.
Definition INIT : Z := 0x00000500.
Definition STARTUP : Z := 0x00000600.
Definition DELIVS : Z := 0x00001000.
Definition ASSERT : Z := 0x00004000.
Definition LEVEL : Z := 0x00008000.
Definition BCAST : Z := 0x00080000.
Definition ICRHI : Z := 0x0310 / 4.
Definition TIMER : Z := 0x0320 / 4.
Definition X1 : Z := 0x0000000B.
Definition PERIODIC : Z := 0x00020000.
Definition PCINT : Z := 0x0340 / 4.
Definition LINT0 : Z := 0x0350 / 4.
Definition LINT1 : Z := 0x0360 / 4.
Definition ERROR : Z := 0x0370 / 4.
Definition MASKED : Z := 0x00010000.
Definition TICR : Z := 0x0380 / 4.
Definition TDCR : Z := 0x03E0 / 4.

(** [lapic[index]] *)
Definition lapicr (index : Z) : H Z :=
  a ← get_hw h_lapic;
  v ← in_reg (Mmio (a + 4 * index));
  mret (u32 v).

Definition lapicw (index value : Z) : H unit :=
  a ← get_hw h_lapic;
  out_reg (Mmio (a + 4 * index)) (u32 value);;
  _ ← lapicr ID;
  mret tt.

(** [while(lapic[ICRLO] & DELIVS)] *)
Fixpoint lapic_wait (spin : nat) : H unit :=
  v ← lapicr ICRLO;
  if negb (has_bits v DELIVS) then mret tt
  else match spin with O => nofuel | S spin' => lapic_wait spin' end.

Definition lapicinit (spin : nat) : H unit :=
  a ← get_hw h_lapic;
  if negb (c_true a) then mret tt else
  lapicw SVR (Z.lor ENABLE (T_IRQ0 + IRQ_SPURIOUS));;
  lapicw TDCR X1;;
  lapicw TIMER (Z.lor PERIODIC (T_IRQ0 + IRQ_TIMER));;
  lapicw TICR 10000000;;
  lapicw LINT0 MASKED;;
  lapicw LINT1 MASKED;;
  ver ← lapicr VER;
  when (4 <=? Z.land (Z.shiftr ver 16) 0xFF) (lapicw PCINT MASKED);;
  lapicw ERROR (T_IRQ0 + IRQ_ERROR);;
  lapicw ESR 0;;
  lapicw ESR 0;;
  lapicw EOI 0;;
  lapicw ICRHI 0;;
  lapicw ICRLO (Z.lor (Z.lor BCAST INIT) LEVEL);;
  lapic_wait spin;;
  lapicw TPR 0.

(** The warning of [cpunum] names the caller, whose address is [ra]. *)
Definition cpunum (ra : Z) : H Z :=
  eflags ← liftK readeflags;
  when (has_bits eflags FL_IF)
    (n ← get_hw h_cpunum_n;
     set_hw (fun h => h <| h_cpunum_n := i32 (n + 1) |>);;
     when (n =? 0)
       (liftK (cprintf (Some (str "cpu called from %x with interrupts enabled
")) [AInt ra])));;
  a ← get_hw h_lapic;
  if c_true a then v ← lapicr ID; mret (Z.shiftr v 24)
  else mret 0.

Definition lapiceoi : H unit :=
  a ← get_hw h_lapic;
  when (c_true a) (lapicw EOI 0).

Definition CMOS_PORT : Z := 0x70.
Definition CMOS_RETURN : Z := 0x71.

(** [microdelay] does nothing. *)
Definition lapicstartap (apicid addr : Z) : H unit :=
  outb CMOS_PORT 0xF;;
  outb (CMOS_PORT + 1) 0x0A;;
  let wrv := p2v (Z.lor (Z.shiftl 0x40 4) 0x67) in
  liftK (set_mem (fun m => store16 m wrv 0));;
  liftK (set_mem (fun m => store16 m (wrv + 2) (Z.shiftr addr 4)));;
  lapicw ICRHI (i32 (Z.shiftl apicid 24));;
  lapicw ICRLO (Z.lor (Z.lor INIT LEVEL) ASSERT);;
  lapicw ICRLO (Z.lor INIT LEVEL);;
  lapicw ICRHI (i32 (Z.shiftl apicid 24));;
  lapicw ICRLO (Z.lor STARTUP (Z.shiftr addr 12));;
  lapicw ICRHI (i32 (Z.shiftl apicid 24));;
  lapicw ICRLO (Z.lor STARTUP (Z.shiftr addr 12)).

(** The CMOS clock. *)
Definition CMOS_STATA : Z := 0x0a.
Definition CMOS_STATB : Z := 0x0b.
Definition CMOS_UIP : Z := 2 ^ 7.
Definition SECS : Z := 0x00.
Definition MINS : Z := 0x02.
Definition HOURS : Z := 0x04.
Definition DAY : Z := 0x07.
Definition MONTH : Z := 0x08.
Definition YEAR : Z := 0x09.

(** [struct rtcdate] (date.h) *)
Record rtcdate := Mkrtcdate { rd_second : Z; rd_minute : Z; rd_hour : Z; rd_day : Z; rd_month : Z; rd_year : Z }.

#[export] Instance rtcdate_eq_dec : EqDecision rtcdate.
Proof. solve_decision. Defined.

Definition cmos_read (reg : Z) : H Z :=
  outb CMOS_PORT reg;;
  inb CMOS_RETURN.

Definition fill_rtcdate : H rtcdate :=
  second ← cmos_read SECS;
  minute ← cmos_read MINS;
  hour ← cmos_read HOURS;
  day ← cmos_read DAY;
  month ← cmos_read MONTH;
  year ← cmos_read YEAR;
  mret (Mkrtcdate second minute hour day month year).

(** [CONV(x)] *)
Definition from_bcd (x : Z) : Z := Z.shiftr x 4 * 10 + Z.land x 0xf.

Definition convert (r : rtcdate) : rtcdate :=
  Mkrtcdate (from_bcd (rd_second r)) (from_bcd (rd_minute r)) (from_bcd (rd_hour r)) (from_bcd (rd_day r))
    (from_bcd (rd_month r)) (from_bcd (rd_year r)).

(** Reads the time until it finds it the same twice, with no update in
    progress. *)
Fixpoint stable_date (spin : nat) : H rtcdate :=
  t1 ← fill_rtcdate;
  let again := match spin with O => nofuel | S spin' => stable_date spin' end in
  sta ← cmos_read CMOS_STATA;
  if has_bits sta CMOS_UIP then again else
  t2 ← fill_rtcdate;
  if decide (t1 = t2) then mret t1 else again.

Definition cmostime (spin : nat) : H rtcdate :=
  sb ← cmos_read CMOS_STATB;
  let bcd := Z.land sb 4 =? 0 in
  t1 ← stable_date spin;
  let t1 := if bcd then convert t1 else t1 in
  mret (Mkrtcdate (rd_second t1) (rd_minute t1) (rd_hour t1) (rd_day t1) (rd_month t1) (rd_year t1 + 2000)).

(** ** timer.c *)

Definition IO_TIMER1 : Z := 0x040.
Definition TIMER_DIV (x : Z) : Z := (1193182 + x / 2) / x.
Definition TIMER_MODE : Z := IO_TIMER1 + 3.
Definition TIMER_SEL0 : Z := 0x00.
Definition TIMER_RATEGEN : Z := 0x04.
Definition TIMER_16BIT : Z := 0x30.

Definition timerinit : H unit :=
  outb TIMER_MODE (Z.lor (Z.lor TIMER_SEL0 TIMER_RATEGEN) TIMER_16BIT);;
  outb IO_TIMER1 (TIMER_DIV 100 mod 256);;
  outb IO_TIMER1 (TIMER_DIV 100 / 256);;
  picenable IRQ_TIMER.

(** ** uart.c *)

Definition COM1 : Z := 0x3f8.

Definition has_uart : H bool := get_hw (fun h => c_true (co_uart (k_cons (h_kernel h)))).

(** [for(i = 0; i < 128 && !(inb(COM1+5) & 0x20); i++)] *)
Fixpoint uart_wait (n : nat) : H unit :=
  match n with
  | O => mret tt
  | S n' =>
      v ← inb (COM1 + 5);
      if has_bits v 0x20 then mret tt else uart_wait n'
  end.

Definition uartputc_port (c : Z) : H unit :=
  uart ← has_uart;
  if negb uart then mret tt else
  uart_wait 128;;
  outb (COM1 + 0) c.

Fixpoint uart_puts (l : list Z) : H unit :=
  match l with
  | [] => mret tt
  | c :: l' => uartputc_port c;; uart_puts l'
  end.

Definition uartgetc : H Z :=
  uart ← has_uart;
  if negb uart then mret (-1) else
  st ← inb (COM1 + 5);
  if negb (has_bits st 0x01) then mret (-1) else
  inb (COM1 + 0).

Definition uartinit : H unit :=
  outb (COM1 + 2) 0;;
  outb (COM1 + 3) 0x80;;
  outb (COM1 + 0) (115200 / 9600);;
  outb (COM1 + 1) 0;;
  outb (COM1 + 3) 0x03;;
  outb (COM1 + 4) 0;;
  outb (COM1 + 1) 0x01;;
  st ← inb (COM1 + 5);
  if st =? 0xFF then mret tt else
  liftK (modify (fun s => s <| k_cons ::= fun c => c <| co_uart := 1 |> |>));;
  _ ← inb (COM1 + 2);
  _ ← inb (COM1 + 0);
  picenable IRQ_COM1;;
  ioapicenable IRQ_COM1 0;;
  uart_puts (str "xv6...
").

(** ** console.c, ide.c *)

Definition consoleinit_irq : H unit :=
  liftK consoleinit;;
  picenable IRQ_KBD;;
  ioapicenable IRQ_KBD 0.

(** [for(i=0; i<1000; i++) if(inb(0x1f7) != 0)] *)
Fixpoint find_disk1 (n : nat) : H unit :=
  match n with
  | O => mret tt
  | S n' =>
      v ← inb 503;
      if negb (v =? 0) then liftK (modify (fun s => s <| k_havedisk1 := 1 |>))
      else find_disk1 n'
  end.

Definition ideinit (spin : nat) : H unit :=
  liftK (initlock L_idelock "ide");;
  picenable IRQ_IDE;;
  ncpu ← get_hw h_ncpu;
  ioapicenable IRQ_IDE (ncpu - 1);;
  _ ← idewait spin false;
  outb 502 (Z.lor 0xe0 (Z.shiftl 1 4));;
  find_disk1 1000;;
  outb 502 (Z.lor 0xe0 (Z.shiftl 0 4)).

(** ** vm.c, trap.c: descriptor tables *)

Definition SEG_KCODE : Z := 1.
Definition SEG_KDATA : Z := 2.
Definition SEG_KCPU : Z := 3.
Definition STA_X : Z := 0x8.
Definition STA_W : Z := 0x2.
Definition STA_R : Z := 0x2.
Definition STS_IG32 : Z := 0xE.
Definition STS_TG32 : Z := 0xF.

Definition SEG (type base lim dpl : Z) : segdesc :=
  Mksegdesc (Z.land (Z.shiftr lim 12) 0xffff) (Z.land base 0xffff) (Z.land (Z.shiftr base 16) 0xff) type 1 dpl 1
    (Z.shiftr lim 28) 0 0 1 1 (Z.shiftr base 24).

Definition SETGATE (istrap sel off d : Z) : gatedesc :=
  Mkgatedesc (Z.land off 0xffff) sel 0 0 (if c_true istrap then STS_TG32 else STS_IG32) 0 d 1 (Z.shiftr off 16).
End apic.
