(* ===== verification/Mp.v ===== *)
(** mp.c: the tables in which the BIOS describes the processors and interrupt
    controllers.

    The tables are bytes of low memory.  [mpinit] reads the entries of the
    configuration table one after the other; [fuel] bounds their number. *)
From S2P Require Import Prelude Memory Kernel CString Spinlock Console Sched Hw.
From S2P Require Import Ata Ide IdePorts Kalloc Bytes Bio Log Inode Vm Umem Tty Fs File Proc Exec Syscall Sysfile Trap Apic.

(** ** mp.h *)

(** [struct mp] (16 bytes) and [struct mpconf] (44 bytes), by their address. *)
Definition mp_size : Z := 16.
Definition mp_physaddr (m : memory) (p : Z) : Z := load32 m (p + 4).
Definition mp_imcrp (m : memory) (p : Z) : Z := load8 m (p + 12).

Definition mpconf_size : Z := 44.
Definition conf_length (m : memory) (p : Z) : Z := load16 m (p + 4).
Definition conf_version (m : memory) (p : Z) : Z := load8 m (p + 6).
Definition conf_lapicaddr (m : memory) (p : Z) : Z := load32 m (p + 36).

(** [struct mpproc] (20 bytes) and [struct mpioapic] (8 bytes). *)
Definition mpproc_size : Z := 20.
Definition mpproc_apicid (m : memory) (p : Z) : Z := load8 m (p + 1).
Definition mpproc_flags (m : memory) (p : Z) : Z := load8 m (p + 3).
Definition MPBOOT : Z := 0x02.
Definition mpioapic_size : Z := 8.
Definition mpioapic_apicno (m : memory) (p : Z) : Z := load8 m (p + 1).

Definition MPPROC : Z := 0x00.
Definition MPBUS : Z := 0x01.
Definition MPIOAPIC : Z := 0x02.
Definition MPIOINTR : Z := 0x03.
Definition MPLINTR : Z := 0x04.

(** ** The search *)

(** The sum of [n] bytes. *)
Fixpoint sum_bytes (m : memory) (addr : Z) (n : nat) : Z :=
  match n with
  | O => 0
  | S n' => load8 m addr + sum_bytes m (addr + 1) n'
  end.

Definition sum (m : memory) (addr len : Z) : Z := u8 (sum_bytes m addr (Z.to_nat len)).

(** [memcmp(p, sig, 4) == 0] *)
Definition has_sig (m : memory) (p : Z) (sig : string) : bool := bool_decide (load_bytes m p 4 = str sig).

(** The loop of [mpsearch1] over [n] places from [p] on; 0 is the null pointer. *)
Fixpoint mpsearch_from (m : memory) (p : Z) (n : nat) : Z :=
  match n with
  | O => 0
  | S n' =>
      if has_sig m p "_MP_" && (sum m p mp_size =? 0) then p
      else mpsearch_from m (p + mp_size) n'
  end.

Definition mpsearch1 (m : memory) (a len : Z) : Z := mpsearch_from m (p2v a) (Z.to_nat (len / mp_size)).

Definition mpsearch (m : memory) : Z :=
  let bda := p2v 0x400 in
  let p := Z.shiftl (Z.lor (Z.shiftl (load8 m (bda + 0x0F)) 8) (load8 m (bda + 0x0E))) 4 in
  let found :=
    if c_true p then mpsearch1 m p 1024
    else mpsearch1 m (u32 (Z.lor (Z.shiftl (load8 m (bda + 0x14)) 8) (load8 m (bda + 0x13)) * 1024 - 1024)) 1024 in
  if c_true found then found else mpsearch1 m 0xF0000 0x10000.

(** The addresses of the configuration table and of the structure that points to
    it. *)
Definition mpconfig (m : memory) : option (Z * Z) :=
  let mp := mpsearch m in
  if (mp =? 0) || (mp_physaddr m mp =? 0) then None else
  let conf := p2v (mp_physaddr m mp) in
  if negb (has_sig m conf "PCMP") then None else
  if negb (conf_version m conf =? 1) && negb (conf_version m conf =? 4) then None else
  if negb (sum m conf (conf_length m conf) =? 0) then None else
  Some (conf, mp).

Section mp.
Context {D : Type} `{!Device D}.

Abbreviation H := (M (board D hw)).

Definition mem8 (a : Z) : H Z := get_hw (fun h => load8 (k_mem (h_kernel h)) a).

(** A [MPPROC] entry. *)
Definition mp_proc (p : Z) : H unit :=
  apicid ← get_hw (fun h => mpproc_apicid (k_mem (h_kernel h)) p);
  ncpu ← get_hw h_ncpu;
  when (negb (ncpu =? apicid))
    (liftK (cprintf (Some (str "mpinit: ncpu=%d apicid=%d
")) [AInt ncpu; AInt apicid]);;
     set_hw (fun h => h <| h_ismp := 0 |>));;
  flags ← get_hw (fun h => mpproc_flags (k_mem (h_kernel h)) p);
  if negb ((0 <=? ncpu) && (ncpu <? Z.of_nat NCPU)) then liftK oob else
  when (has_bits flags MPBOOT) (set_hw (fun h => h <| h_bcpu := ncpu |>));;
  liftK (modify (fun s => s <| k_cpus ::= alter (fun c => c <| c_id := u8 ncpu |>) (Z.to_nat ncpu) |>));;
  set_hw (fun h => h <| h_ncpu := ncpu + 1 |>).

(** The loop over the entries. *)
Fixpoint mp_entries (fuel : nat) (p e : Z) : H unit :=
  if negb (p <? e) then mret tt else
  match fuel with
  | O => nofuel
  | S fuel' =>
      type ← mem8 p;
      if type =? MPPROC then mp_proc p;; mp_entries fuel' (p + mpproc_size) e
      else if type =? MPIOAPIC then
        apicno ← get_hw (fun h => mpioapic_apicno (k_mem (h_kernel h)) p);
        set_hw (fun h => h <| h_ioapicid := apicno |>);;
        mp_entries fuel' (p + mpioapic_size) e
      else if (type =? MPBUS) || (type =? MPIOINTR) || (type =? MPLINTR) then
        mp_entries fuel' (p + 8) e
      else
        liftK (cprintf (Some (str "mpinit: unknown config type %x
")) [AInt type]);;
        set_hw (fun h => h <| h_ismp := 0 |>);;
        mp_entries fuel' p e
  end.

Definition mpinit (fuel : nat) : H unit :=
  set_hw (fun h => h <| h_bcpu := 0 |>);;
  c ← get_hw (fun h => mpconfig (k_mem (h_kernel h)));
  match c with
  | None => mret tt
  | Some (conf, mp) =>
      set_hw (fun h => h <| h_ismp := 1 |>);;
      a ← get_hw (fun h => conf_lapicaddr (k_mem (h_kernel h)) conf);
      set_hw (fun h => h <| h_lapic := a |>);;
      len ← get_hw (fun h => conf_length (k_mem (h_kernel h)) conf);
      mp_entries fuel (conf + mpconf_size) (conf + len);;
      ismp ← get_hw h_ismp;
      if negb (c_true ismp) then
        set_hw (fun h => h <| h_ncpu := 1 |>);;
        set_hw (fun h => h <| h_lapic := 0 |>);;
        set_hw (fun h => h <| h_ioapicid := 0 |>)
      else
        imcrp ← get_hw (fun h => mp_imcrp (k_mem (h_kernel h)) mp);
        when (c_true imcrp)
          (outb 0x22 0x70;;
           v ← inb 0x23;
           outb 0x23 (Z.lor v 1))
  end.

(** [bcpu-cpus]: [h_bcpu] is the index. *)
Definition mpbcpu : H Z := get_hw h_bcpu.
End mp.

(** ** Tables *)

(** The entries of a table, with what [mpinit] reads of them. *)
Inductive mpentry :=
| MpProc (apicid flags : Z)
| MpIoapic (apicno : Z)
| MpOther (type : Z).

Definition entry_size (e : mpentry) : Z := match e with MpProc _ _ => 20 | _ => 8 end.

Definition entry_at (m : memory) (p : Z) (e : mpentry) : Prop :=
  match e with
  | MpProc apicid flags => load8 m p = MPPROC /\ mpproc_apicid m p = apicid /\ mpproc_flags m p = flags
  | MpIoapic apicno => load8 m p = MPIOAPIC /\ mpioapic_apicno m p = apicno
  | MpOther type => load8 m p = type /\ (type = MPBUS \/ type = MPIOINTR \/ type = MPLINTR)
  end.

Fixpoint entries_at (m : memory) (p : Z) (es : list mpentry) : Prop :=
  match es with
  | [] => True
  | e :: es' => entry_at m p e /\ entries_at m (p + entry_size e) es'
  end.

Definition entries_size (es : list mpentry) : Z := foldr (fun e n => entry_size e + n) 0 es.

(** The processors and the I/O APICs of a table, in order. *)
Definition procs (es : list mpentry) : list (Z * Z) :=
  omap (fun e => match e with MpProc a f => Some (a, f) | _ => None end) es.
Definition ioapics (es : list mpentry) : list Z :=
  omap (fun e => match e with MpIoapic a => Some a | _ => None end) es.

(** The processors are numbered from [n] on. *)
Fixpoint numbered (n : Z) (ps : list (Z * Z)) : bool :=
  match ps with
  | [] => true
  | (a, _) :: ps' => (a =? n) && numbered (n + 1) ps'
  end.

(** The boot processor: the last with the flag, or [b]. *)
Fixpoint boot_cpu (n b : Z) (ps : list (Z * Z)) : Z :=
  match ps with
  | [] => b
  | (_, f) :: ps' => boot_cpu (n + 1) (if has_bits f MPBOOT then n else b) ps'
  end.

(** ** Reading a table *)

(** The console as it is before [consoleinit]. *)
Definition quiet (s : kernel) : Prop := co_locking (k_cons s) = 0 /\ co_panicked (k_cons s) = 0.

Lemma cprintf_quiet fmt args l s :
  quiet s -> format fmt args = Some l -> cprintf (Some fmt) args s = Ok tt (printed l s).
Proof.
  intros [H1 H2] Hf. unfold cprintf. krun. rewrite H1. cbn [c_true negb Z.eqb]. krun.
  rewrite (cprintf_loop_run fmt args l s Hf H2). reflexivity.
Qed.

Lemma quiet_printed l s : quiet s -> quiet (printed l s).
Proof. intros [H1 H2]. unfold quiet. simpl. by destruct (co_fixed_puts l (k_cons s)) as [-> ->]. Qed.

(** What the loop leaves of the state [h] after entries with the processors
    [ps] and the I/O APICs [ios]; [h0] is the state before the first entry. *)
Record mp_read (ps : list (Z * Z)) (ios : list Z) (h0 h : hw) : Prop := {
  mr_ncpu : h_ncpu h = h_ncpu h0 + Z.of_nat (length ps);
  mr_bcpu : h_bcpu h = boot_cpu (h_ncpu h0) (h_bcpu h0) ps;
  mr_ismp : h_ismp h = if numbered (h_ncpu h0) ps then h_ismp h0 else 0;
  mr_ioapicid : h_ioapicid h = default (h_ioapicid h0) (last ios);
  mr_lapic : h_lapic h = h_lapic h0;
  mr_irqmask : h_irqmask h = h_irqmask h0;
  mr_mem : k_mem (h_kernel h) = k_mem (h_kernel h0);
  mr_quiet : quiet (h_kernel h);
  mr_cpus : length (k_cpus (h_kernel h)) = length (k_cpus (h_kernel h0));
  mr_id i : h_ncpu h0 <= i < h_ncpu h -> (Z.to_nat i < length (k_cpus (h_kernel h0)))%nat ->
    c_id <$> k_cpus (h_kernel h) !! Z.to_nat i = Some i;
  mr_old i : 0 <= i < h_ncpu h0 -> c_id <$> k_cpus (h_kernel h) !! Z.to_nat i = c_id <$> k_cpus (h_kernel h0) !! Z.to_nat i;
}.

Section read.
Context {D : Type} `{!Device D}.

Lemma get_hw_bind {A B} (f : hw -> A) (k : A -> M (board D hw) B) d h :
  (get_hw f ≫= k) (Mkboard d h) = k (f h) (Mkboard d h).
Proof. done. Qed.

Lemma set_hw_bind {B} f (k : unit -> M (board D hw) B) d h :
  (set_hw f ≫= k) (Mkboard d h) = k tt (Mkboard d (f h)).
Proof. done. Qed.

Lemma liftK_ok {A} (m : K A) (d : D) h a s :
  m (h_kernel h) = Ok a s -> liftK m (Mkboard d h) = Ok a (Mkboard d (h <| h_kernel := s |>)).
Proof. intros E. unfold liftK, lift. cbn. by rewrite E. Qed.

Lemma mp_proc_spec p apicid flags (d : D) h :
  entry_at (k_mem (h_kernel h)) p (MpProc apicid flags) -> 0 <= h_ncpu h < Z.of_nat NCPU -> quiet (h_kernel h) ->
  exists h', mp_proc p (Mkboard d h) = Ok tt (Mkboard d h') /\ mp_read [(apicid, flags)] [] h h'.
Proof.
  intros (_ & Ha & Hf) Hn Hq. unfold mp_proc. rewrite !get_hw_bind, Ha.
  set (ids := [AInt (h_ncpu h); AInt apicid]).
  assert (exists l, format (str "mpinit: ncpu=%d apicid=%d
") ids = Some l) as [l El] by (eexists; reflexivity).
  set (h1 := if h_ncpu h =? apicid then h else h <| h_kernel ::= printed l |> <| h_ismp := 0 |>).
  rewrite (bind_ok _ _ _ tt (Mkboard d h1)).
  2: { unfold h1. destruct (h_ncpu h =? apicid); cbn [negb when]; [done|].
       by rewrite (bind_ok _ _ _ _ _ (liftK_ok _ d h tt _ (cprintf_quiet _ _ l _ Hq El))). }
  assert (E1 : k_mem (h_kernel h1) = k_mem (h_kernel h) /\ k_cpus (h_kernel h1) = k_cpus (h_kernel h) /\ quiet (h_kernel h1) /\
    h_bcpu h1 = h_bcpu h /\ h_ioapicid h1 = h_ioapicid h /\ h_lapic h1 = h_lapic h /\ h_irqmask h1 = h_irqmask h).
  { unfold h1. destruct (h_ncpu h =? apicid); [done|]. split_and!; try done. by apply quiet_printed. }
  destruct E1 as (M1 & M2 & M3 & M4 & M5 & M6 & M7).
  rewrite get_hw_bind, M1, Hf. replace ((0 <=? h_ncpu h) && (h_ncpu h <? Z.of_nat NCPU)) with true by lia. cbn [negb].
  set (h2 := if has_bits flags MPBOOT then h1 <| h_bcpu := h_ncpu h |> else h1).
  rewrite (bind_ok _ _ _ tt (Mkboard d h2)) by (unfold h2; by destruct (has_bits flags MPBOOT)).
  assert (E2 : k_mem (h_kernel h2) = k_mem (h_kernel h) /\ k_cpus (h_kernel h2) = k_cpus (h_kernel h) /\ quiet (h_kernel h2) /\
    h_ismp h2 = h_ismp h1 /\ h_ioapicid h2 = h_ioapicid h /\ h_lapic h2 = h_lapic h /\ h_irqmask h2 = h_irqmask h)
    by (unfold h2; by destruct (has_bits flags MPBOOT)).
  destruct E2 as (N1 & N2 & N3 & N4 & N5 & N6 & N7).
  eexists. split; [reflexivity|]. split; cbn -[Z.to_nat Z.of_nat]; try done; try lia.
  - unfold h2. by destruct (has_bits flags MPBOOT).
  - rewrite N4, andb_true_r. unfold h1. rewrite Z.eqb_sym. by destruct (apicid =? h_ncpu h).
  - by rewrite length_alter, N2.
  - intros i Hi Hl. replace i with (h_ncpu h) in * by lia. rewrite N2, list_lookup_alter_eq.
    destruct (lookup_lt_is_Some_2 _ _ Hl) as [c ->]. cbn. f_equal. apply u8_id. wrap_unfold. unfold NCPU in Hn. lia.
  - intros i Hi. rewrite N2, list_lookup_alter_ne by lia. done.
Qed.

Lemma numbered_app n ps1 ps2 : numbered n (ps1 ++ ps2) = numbered n ps1 && numbered (n + Z.of_nat (length ps1)) ps2.
Proof.
  revert n; induction ps1 as [|[a f] ps1 IH]; intros n; cbn [app numbered length].
  - by rewrite Z.add_0_r.
  - rewrite IH, andb_assoc. do 2 f_equal. lia.
Qed.

Lemma boot_cpu_app n b ps1 ps2 :
  boot_cpu n b (ps1 ++ ps2) = boot_cpu (n + Z.of_nat (length ps1)) (boot_cpu n b ps1) ps2.
Proof.
  revert n b; induction ps1 as [|[a f] ps1 IH]; intros n b; cbn [app boot_cpu length].
  - by rewrite Z.add_0_r.
  - rewrite IH. f_equal. lia.
Qed.

Lemma mp_read_app ps1 ios1 ps2 ios2 h0 h1 h2 :
  0 <= h_ncpu h0 -> mp_read ps1 ios1 h0 h1 -> mp_read ps2 ios2 h1 h2 -> mp_read (ps1 ++ ps2) (ios1 ++ ios2) h0 h2.
Proof.
  intros H0 [A1 A2 A3 A4 A5 A6 A7 A8 A9 A10 A11] [B1 B2 B3 B4 B5 B6 B7 B8 B9 B10 B11]. split; try congruence.
  - rewrite B1, A1, length_app. lia.
  - by rewrite boot_cpu_app, B2, A1, A2.
  - rewrite numbered_app, B3, A1, A3. 
    destruct (numbered (h_ncpu h0) ps1); cbn [andb]; by destruct (numbered (h_ncpu h0 + _) ps2).
  - rewrite B4, A4, last_app. by destruct (last ios2).
  - intros i Hi Hl. destruct (decide (i < h_ncpu h1)).
    + rewrite B11 by lia. apply A10; [lia|done].
    + apply B10; [lia|]. by rewrite A9.
  - intros i Hi. rewrite B11 by lia. by apply A11.
Qed.

Lemma mp_read_nil h : quiet (h_kernel h) -> mp_read [] [] h h.
Proof. intros H. split; try done; cbn; lia. Qed.

Lemma entries_size_pos es : 0 <= entries_size es.
Proof. induction es as [|e es IH]; [done|]. cbn. unfold entries_size in IH. destruct e; cbn; lia. Qed.

(** One turn of the loop. *)
Lemma mp_entries_step x fuel p e (d : D) h :
  entry_at (k_mem (h_kernel h)) p x -> p < e -> 0 <= h_ncpu h ->
  h_ncpu h + Z.of_nat (length (procs [x])) <= Z.of_nat NCPU -> quiet (h_kernel h) ->
  exists h1, mp_entries (S fuel) p e (Mkboard d h) = mp_entries fuel (p + entry_size x) e (Mkboard d h1) /\
    mp_read (procs [x]) (ioapics [x]) h h1.
Proof.
  intros He Hlt Hn Hc Hq. cbn [mp_entries]. destruct (Z.ltb_spec p e); [|lia]. cbn [negb]. unfold mem8. rewrite get_hw_bind.
  destruct x as [a f|a|t]; cbn [entry_size].
  - pose proof He as (Ht & _). rewrite Ht. cbn [Z.eqb MPPROC].
    destruct (mp_proc_spec p a f d h He) as (h1 & E & Hr); [cbn in Hc; lia|done|].
    rewrite (bind_ok _ _ _ _ _ E). by exists h1.
  - destruct He as (Ht & Ha). rewrite Ht. cbn [Z.eqb Pos.eqb MPPROC MPIOAPIC]. rewrite get_hw_bind, Ha, set_hw_bind.
    eexists. split; [done|]. split; try done; cbn; lia.
  - destruct He as (Ht & Ho). rewrite Ht.
    replace (t =? MPPROC) with false by (unfold MPPROC, MPBUS, MPIOINTR, MPLINTR in *; lia).
    replace (t =? MPIOAPIC) with false by (unfold MPIOAPIC, MPBUS, MPIOINTR, MPLINTR in *; lia).
    replace ((t =? MPBUS) || (t =? MPIOINTR) || (t =? MPLINTR)) with true by lia.
    exists h. split; [done|]. by apply mp_read_nil.
Qed.

Lemma procs_cons x es : procs (x :: es) = procs [x] ++ procs es.
Proof. by destruct x. Qed.

Lemma ioapics_cons x es : ioapics (x :: es) = ioapics [x] ++ ioapics es.
Proof. by destruct x. Qed.

Lemma mp_entries_spec es fuel p e (d : D) h :
  entries_at (k_mem (h_kernel h)) p es -> e = p + entries_size es -> 0 <= h_ncpu h ->
  h_ncpu h + Z.of_nat (length (procs es)) <= Z.of_nat NCPU -> quiet (h_kernel h) -> (length es <= fuel)%nat ->
  exists h', mp_entries fuel p e (Mkboard d h) = Ok tt (Mkboard d h') /\ mp_read (procs es) (ioapics es) h h'.
Proof.
  revert fuel p h; induction es as [|x es IH]; intros fuel p h He Ee Hn Hc Hq Hf.
  { exists h. split; [|by apply mp_read_nil]. subst. cbn [entries_size foldr]. rewrite Z.add_0_r.
    destruct fuel; cbn [mp_entries]; by rewrite Z.ltb_irrefl. }
  destruct fuel as [|fuel]; [cbn in Hf; lia|]. destruct He as [He Hes]. cbn [length] in Hf.
  pose proof (entries_size_pos es) as Hsz. unfold entries_size in *. cbn [foldr] in Ee.
  rewrite procs_cons, length_app in Hc.
  destruct (mp_entries_step x fuel p e d h He) as (h1 & E & Hr); [destruct x; cbn [entry_size] in *; lia|lia|lia|done|].
  rewrite E. destruct (IH fuel (p + entry_size x) h1) as (h' & E' & Hr').
  - by rewrite (mr_mem _ _ _ _ Hr).
  - lia.
  - rewrite (mr_ncpu _ _ _ _ Hr). lia.
  - rewrite (mr_ncpu _ _ _ _ Hr). lia.
  - apply Hr.
  - lia.
  - exists h'. split; [done|]. rewrite procs_cons, ioapics_cons. by eapply mp_read_app.
Qed.

(** An entry of a type that is not in mp.h. *)
Definition unknown_at (m : memory) (p : Z) : Prop := ~ (0 <= load8 m p <= 4) /\ is_u8 (load8 m p).

Lemma unknown_loops fuel p e (d : D) h :
  unknown_at (k_mem (h_kernel h)) p -> p < e -> quiet (h_kernel h) -> mp_entries fuel p e (Mkboard d h) = NoFuel.
Proof.
  intros [Hu Hu8] Hlt. revert h Hu Hu8; induction fuel as [|fuel IH]; intros h Hu Hu8 Hq; cbn [mp_entries];
    (destruct (Z.ltb_spec p e); [|lia]); cbn [negb]; [done|].
  unfold mem8. rewrite get_hw_bind. set (t := load8 _ p) in *. unfold is_u8 in Hu8.
  replace (t =? MPPROC) with false by (unfold MPPROC; lia). replace (t =? MPIOAPIC) with false by (unfold MPIOAPIC; lia).
  replace ((t =? MPBUS) || (t =? MPIOINTR) || (t =? MPLINTR)) with false by (unfold MPBUS, MPIOINTR, MPLINTR; lia).
  assert (exists l, format (str "mpinit: unknown config type %x
") [AInt t] = Some l) as [l El] by (eexists; reflexivity).
  rewrite (bind_ok _ _ _ _ _ (liftK_ok _ d h tt _ (cprintf_quiet _ _ l _ Hq El))), set_hw_bind.
  apply IH; [done|done|]. by apply quiet_printed.
Qed.

Lemma mp_entries_unknown es fuel p e (d : D) h :
  entries_at (k_mem (h_kernel h)) p es -> unknown_at (k_mem (h_kernel h)) (p + entries_size es) -> p + entries_size es < e ->
  0 <= h_ncpu h -> h_ncpu h + Z.of_nat (length (procs es)) <= Z.of_nat NCPU -> quiet (h_kernel h) ->
  mp_entries fuel p e (Mkboard d h) = NoFuel.
Proof.
  revert fuel p h; induction es as [|x es IH]; intros fuel p h He Hu Hlt Hn Hc Hq.
  { cbn in Hu, Hlt. rewrite Z.add_0_r in *. by apply unknown_loops. }
  destruct He as [He Hes]. pose proof (entries_size_pos es) as Hsz. unfold entries_size in *. cbn [foldr] in *.
  rewrite procs_cons, length_app in Hc.
  assert (p < e) by (destruct x; cbn [entry_size] in *; lia).
  destruct fuel as [|fuel]; [cbn [mp_entries]; by destruct (Z.ltb_spec p e); [|lia]|].
  destruct (mp_entries_step x fuel p e d h He) as (h1 & E & Hr); [lia|lia|lia|done|]. rewrite E.
  apply IH; try (rewrite (mr_mem _ _ _ _ Hr)); try (rewrite (mr_ncpu _ _ _ _ Hr)); try lia; [done| |apply Hr].
  by rewrite <- Z.add_assoc.
Qed.
End read.

(** C11: [mpinit] on a table the search has found, with entries of known types only
    and at most [NCPU] processors.  When the processors are numbered 0, 1, 2,
    ... in the order of the table, it records them: [ncpu] is their number, each
    has its number as id, [bcpu] is the last with the boot flag, [lapic] and
    [ioapicid] are those of the table.  Otherwise the machine is treated as
    one without further processors or controllers. *)
Theorem mpinit_correct {D} `{!Device D} fuel (d : D) h es conf mp :
  let m := k_mem (h_kernel h) in
  mpconfig m = Some (conf, mp) -> entries_at m (conf + mpconf_size) es ->
  conf_length m conf = mpconf_size + entries_size es -> (length (procs es) <= NCPU)%nat ->
  h_ncpu h = 0 -> length (k_cpus (h_kernel h)) = NCPU -> quiet (h_kernel h) -> (length es <= fuel)%nat ->
  exists d' h', mpinit fuel (Mkboard d h) = Ok tt (Mkboard d' h') /\
    if numbered 0 (procs es) then
      h_ismp h' = 1 /\ h_ncpu h' = Z.of_nat (length (procs es)) /\ h_bcpu h' = boot_cpu 0 0 (procs es) /\
      h_lapic h' = conf_lapicaddr m conf /\ h_ioapicid h' = default (h_ioapicid h) (last (ioapics es)) /\
      forall i, 0 <= i < h_ncpu h' -> c_id <$> k_cpus (h_kernel h') !! Z.to_nat i = Some i
    else h_ismp h' = 0 /\ h_ncpu h' = 1 /\ h_lapic h' = 0 /\ h_ioapicid h' = 0.
Proof.
  intros m Hconf Hes Hlen Hp Hn Hc Hq Hf. unfold mpinit. rewrite set_hw_bind, get_hw_bind.
  set (h0 := h <| h_bcpu := 0 |>). change (k_mem (h_kernel h0)) with m. rewrite Hconf.
  rewrite set_hw_bind, get_hw_bind, set_hw_bind, get_hw_bind.
  set (h1 := h0 <| h_ismp := 1 |> <| h_lapic := _ |>). change (k_mem (h_kernel h1)) with m. rewrite Hlen.
  destruct (mp_entries_spec es fuel (conf + mpconf_size) (conf + (mpconf_size + entries_size es)) d h1)
    as (h2 & E & Hr); try done; [lia|cbn; lia|cbn; lia|].
  rewrite (bind_ok _ _ _ _ _ E), get_hw_bind. destruct Hr as [R1 R2 R3 R4 R5 R6 R7 R8 R9 R10 R11].
  cbn [h_ncpu h_ismp h_bcpu h_ioapicid h1 h0 update eta eta_hw] in *. rewrite Hn in *.
  destruct (numbered 0 (procs es)) eqn:En; rewrite R3.
  - cbn [c_true Z.eqb negb]. rewrite get_hw_bind.
    assert (exists d', when (c_true (mp_imcrp (k_mem (h_kernel h2)) mp))
      (outb 0x22 0x70;; v ← inb 0x23; outb 0x23 (Z.lor v 1)) (Mkboard d h2) = Ok tt (Mkboard d' h2)) as [d' Ed].
    { destruct (c_true _); [|by exists d]. cbn [when]. unfold outb, inb, in_reg, out_reg, mbind, M_bind. cbn [res_bind bd_dev bd_st].
      destruct (d_in _ _). by eexists. }
    exists d', h2. split; [done|]. split_and!; try done. intros i Hi. apply R10; [done|].
    change (k_cpus (h_kernel h1)) with (k_cpus (h_kernel h)). rewrite Hc. lia.
  - eexists d, _. split; [reflexivity|]. by split_and!.
Qed.

(** C12: A table with an entry of a type that mp.h does not have, after entries of
    known types: [mpinit] reports the type and stays at the entry, so that no
    number of turns of its loop is enough and the kernel does not boot. *)
Theorem mpinit_unknown_hangs {D} `{!Device D} fuel (d : D) h es conf mp :
  let m := k_mem (h_kernel h) in
  mpconfig m = Some (conf, mp) -> entries_at m (conf + mpconf_size) es ->
  unknown_at m (conf + mpconf_size + entries_size es) -> mpconf_size + entries_size es < conf_length m conf ->
  (length (procs es) <= NCPU)%nat -> h_ncpu h = 0 -> quiet (h_kernel h) ->
  mpinit fuel (Mkboard d h) = NoFuel.
Proof.
  intros m Hconf Hes Hu Hlen Hp Hn Hq. unfold mpinit. rewrite set_hw_bind, get_hw_bind.
  set (h0 := h <| h_bcpu := 0 |>). change (k_mem (h_kernel h0)) with m. rewrite Hconf.
  rewrite set_hw_bind, get_hw_bind, set_hw_bind, get_hw_bind.
  set (h1 := h0 <| h_ismp := 1 |> <| h_lapic := _ |>). change (k_mem (h_kernel h1)) with m.
  unfold mbind at 1, M_bind at 1. rewrite (mp_entries_unknown es); try done; [lia|cbn; lia|cbn; lia].
Qed.

(** ** A machine with two processors *)

(** A table at 0x9000, with its checksum. *)
Definition mp_table (entries : list Z) : list Z :=
  let head c := str "PCMP" ++ [u8 (44 + Z.of_nat (length entries)); 0; 4; c] ++ replicate 28 0 ++ [0; 0; 0xE0; 0xFE; 0; 0; 0; 0] in
  head (u8 (- foldr Z.add 0 (head 0 ++ entries))) ++ entries.

Definition mp_pointer : list Z :=
  let p c := str "_MP_" ++ [0; 0x90; 0; 0; 1; 4; c; 0; 0; 0; 0; 0] in p (u8 (- foldr Z.add 0 (p 0))).

Definition mp_memory (entries : list Z) : memory :=
  store_bytes (store_bytes ∅ (p2v 0xF0000) mp_pointer) (p2v 0x9000) (mp_table entries).

Definition two_cpus : list Z :=
  [0; 0; 17; 3] ++ replicate 16 0 ++ [0; 1; 17; 1] ++ replicate 16 0 ++ [1; 0; 0; 0; 0; 0; 0; 0] ++ [2; 7; 17; 1; 0; 0; 0xC0; 0xFE].

Definition mp_machine : hw := hw_boot (kernel0 <| k_mem := mp_memory two_cpus |>).

(** A device that answers every read with 0. *)
Definition null_device : Device unit := {| d_in := fun _ d => (0, d); d_out := fun _ _ d => d |}.

Lemma mpinit_correct_witness : exists h',
  @mpinit unit null_device 4 (Mkboard tt mp_machine) = Ok tt (Mkboard tt h') /\
  h_ncpu h' = 2 /\ h_lapic h' = 0xFEE00000 /\ h_ioapicid h' = 7 /\ h_bcpu h' = 0.
Proof.
  destruct (@mpinit_correct unit null_device 4 tt mp_machine [MpProc 0 3; MpProc 1 1; MpOther 1; MpIoapic 7] (p2v 0x9000) (p2v 0xF0000))
    as ([] & h' & E & H).
  - vm_compute. reflexivity.
  - repeat split; try (vm_compute; reflexivity). left. reflexivity.
  - vm_compute. reflexivity.
  - vm_compute. lia.
  - reflexivity.
  - reflexivity.
  - split; reflexivity.
  - vm_compute. lia.
  - exists h'. split; [exact E|]. cbn [numbered procs omap list_omap Z.eqb Z.add Pos.add Pos.eqb andb] in H.
    destruct H as (_ & H1 & H2 & H3 & H4 & _). rewrite H1, H2, H3, H4. split_and!; vm_compute; reflexivity.
Defined.

(** The same machine with one entry of type 5. *)
Lemma mpinit_unknown_hangs_witness :
  @mpinit unit null_device 1000 (Mkboard tt (hw_boot (kernel0 <| k_mem := mp_memory (two_cpus ++ [5; 0; 0; 0; 0; 0; 0; 0]) |>))) = NoFuel.
Proof.
  apply (mpinit_unknown_hangs 1000 tt _ [MpProc 0 3; MpProc 1 1; MpOther 1; MpIoapic 7] (p2v 0x9000) (p2v 0xF0000)).
  - vm_compute. reflexivity.
  - repeat split; try (vm_compute; reflexivity). left. reflexivity.
  - split; [intros [_ H]; vm_compute in H; congruence|]. vm_compute. split; congruence.
  - vm_compute. reflexivity.
  - vm_compute. lia.
  - reflexivity.
  - split; reflexivity.
Defined.
