(* ===== verification/Main.v ===== *)
(** main.c, with [seginit] of vm.c and [tvinit] and [idtinit] of trap.c: from the
    entry of the kernel to the scheduler, on the boot processor and on the
    others.

    The addresses that the linker assigns are arguments.  [spin] bounds the
    polling loops, [waits] the turns of the loop that waits for a processor to
    start, and [fuel] the entries of the table that [mpinit] reads. *)
From S2P Require Import Prelude Memory Kernel CString Spinlock Console Sched Hw.
From S2P Require Import Ata Ide IdePorts Kalloc Bytes Bio Log Inode Vm Umem Tty Fs File Proc Exec Syscall Sysfile Trap Apic Mp.

(** Addresses: of [cpus[i].cpu] and [cpus[i].gdt], of [idt], of the entry points
    in [vectors], of the code for the other processors, of [mpenter] and
    [entrypgdir], and the return addresses of the calls of [cpunum]. *)
Class Linked := {
  cpu_local_addr : nat -> Z;
  gdt_addr : nat -> Z;
  idt_addr : Z;
  vectors : nat -> Z;
  entryother_start : Z;
  entryother_size : Z;
  mpenter_addr : Z;
  entrypgdir_addr : Z;
  seginit_ra : Z;
  startothers_ra : Z;
}.

(** [entrypgdir]: the first 4 MB of memory, at 0 and at [KERNBASE]. *)
Definition PTE_PS : Z := 0x080.
Definition entrypgdir : list Z :=
  let pde := Z.lor (Z.lor (Z.lor 0 PTE_P) PTE_W) PTE_PS in
  <[Z.to_nat (Z.shiftr KERNBASE 22) := pde]> (<[0%nat := pde]> (replicate 1024 0)).

Section main.
Context {D : Type} `{!Device D} {E : Env} {I : Image} {L : Linked}.

Abbreviation H := (M (board D hw)).

(** ** Descriptor tables *)

(** [c = &cpus[cpunum()]]; an index outside [cpus] ends the run. *)
Definition seginit : H unit :=
  n ← cpunum seginit_ra;
  if negb (n <? Z.of_nat NCPU) then liftK oob else
  let c := Z.to_nat n in
  let set i d := set_hw (fun h => h <| h_gdt ::= alter (fun g => <[Z.to_nat i := d]> g) c |>) in
  set SEG_KCODE (SEG (Z.lor STA_X STA_R) 0 0xffffffff 0);;
  set SEG_KDATA (SEG STA_W 0 0xffffffff 0);;
  set SEG_UCODE (SEG (Z.lor STA_X STA_R) 0 0xffffffff DPL_USER);;
  set SEG_UDATA (SEG STA_W 0 0xffffffff DPL_USER);;
  set SEG_KCPU (SEG STA_W (cpu_local_addr c) 8 0);;
  set_hw (fun h => h <| h_gdtr := (gdt_addr c, 8 * Z.of_nat NSEGS - 1) |>);;
  set_hw (fun h => h <| h_gs := Z.shiftl SEG_KCPU 3 |>);;
  liftK (modify (fun s => s <| k_me := c |>));;
  liftK (set_cpu (fun x => x <| c_proc := None |>)).

Fixpoint tvinit_loop (n i : nat) : H unit :=
  match n with
  | O => mret tt
  | S n' =>
      set_hw (fun h => h <| h_idt ::= <[i := SETGATE 0 (Z.shiftl SEG_KCODE 3) (vectors i) 0]> |>);;
      tvinit_loop n' (S i)
  end.

Definition tvinit : H unit :=
  tvinit_loop 256 0;;
  set_hw (fun h => h <| h_idt ::= <[Z.to_nat T_SYSCALL :=
    SETGATE 1 (Z.shiftl SEG_KCODE 3) (vectors (Z.to_nat T_SYSCALL)) DPL_USER]> |>);;
  liftK (initlock L_tickslock "time").

Definition idtinit : H unit := set_hw (fun h => h <| h_idtr := (idt_addr, 8 * 256 - 1) |>).

(** ** Starting *)

Definition cpu_id : H Z := get_hw (fun h => c_id (mycpu (h_kernel h))).

(** Common CPU setup code. *)
Definition mpmain (turns : nat) : H unit :=
  id ← cpu_id;
  liftK (cprintf (Some (str "cpu%d: starting
")) [AInt id]);;
  idtinit;;
  set_hw (fun h => h <| h_started ::= <[k_me (h_kernel h) := 1]> |>);;
  liftK (scheduler turns).

(** Other CPUs. *)
Definition mpenter (spin turns : nat) : H unit :=
  liftK switchkvm;;
  seginit;;
  lapicinit spin;;
  mpmain turns.

(** [while(c->started == 0)]: other processors run meanwhile. *)
Fixpoint wait_started (waits c : nat) : H unit :=
  st ← get_hw (fun h => default 0 (h_started h !! c));
  if c_true st then mret tt
  else match waits with O => nofuel | S waits' => swtch;; wait_started waits' c end.

(** The loop over the processors from [c] on. *)
Fixpoint start_cpus (waits n c : nat) : H unit :=
  match n with
  | O => mret tt
  | S n' =>
      me ← cpunum startothers_ra;
      if Z.of_nat c =? me then start_cpus waits n' (S c) else
      let code := p2v 0x7000 in
      stack ← liftK kalloc;
      liftK (set_mem (fun m => store32 m (code - 4) (u32 (stack + KSTACKSIZE))));;
      liftK (set_mem (fun m => store32 m (code - 8) mpenter_addr));;
      liftK (set_mem (fun m => store32 m (code - 12) (v2p entrypgdir_addr)));;
      id ← get_hw (fun h => c_id (default cpu0 (k_cpus (h_kernel h) !! c)));
      lapicstartap id (v2p code);;
      wait_started waits c;;
      start_cpus waits n' (S c)
  end.

Definition startothers (waits : nat) : H unit :=
  let code := p2v 0x7000 in
  liftK (set_mem (fun m => memmove m code entryother_start entryother_size));;
  ncpu ← get_hw h_ncpu;
  start_cpus waits (Z.to_nat ncpu) 0.

(** The initialisers of the devices and of the tables, from [picinit] to
    [timerinit]. *)
Definition main_devices (spin : nat) : H unit :=
  picinit;;
  ioapicinit;;
  consoleinit_irq;;
  uartinit;;
  liftK pinit;;
  tvinit;;
  liftK binit;;
  liftK fileinit;;
  liftK iinit;;
  ideinit spin;;
  ismp ← get_hw h_ismp;
  when (negb (c_true ismp)) timerinit.

Definition main (fuel spin waits turns : nat) : H unit :=
  kend ← get_hw (fun h => k_end (h_kernel h));
  liftK (kinit1 kend (p2v (4 * 1024 * 1024)));;
  liftK kvmalloc;;
  mpinit fuel;;
  lapicinit spin;;
  seginit;;
  id ← cpu_id;
  liftK (cprintf (Some (str "
cpu%d: starting xv6

")) [AInt id]);;
  main_devices spin;;
  startothers waits;;
  liftK (kinit2 (p2v (4 * 1024 * 1024)) (p2v PHYSTOP));;
  liftK userinit;;
  mpmain turns.
End main.
