(* ===== verification/Ints.v ===== *)
(** Which interrupts reach the kernel, and where: what the initialisation of the
    devices in main.c leaves in the two 8259A controllers, in the I/O APIC and
    in the interrupt descriptor table.

    The controllers are parameters; [Ints] states the part of their documented
    behaviour that decides which lines are delivered at which vector. *)
From S2P Require Import Prelude Memory Kernel CString Spinlock Console Sched Hw.
From S2P Require Import Ata Ide IdePorts Kalloc Bytes Bio Log Inode Vm Umem Tty Fs File Proc Exec Syscall Sysfile Trap Apic Mp Main.

(** ** The controllers *)

(** An 8259A: its mask, the vector of its first line, and how many of the
    initialisation words ICW2 to ICW4 it still expects. *)
Record pic := Mkpic {
  pc_mask : Z;
  pc_vector : Z;
  pc_expect : Z;
}.

(** A write to the command port: ICW1 has bit 4 set, and clears the mask. *)
Definition pic_cmd (v : Z) (p : pic) : pic :=
  if Z.testbit v 4 then Mkpic 0 (pc_vector p) 3 else p.

(** A write to the data port: one of the expected words (ICW2 is the vector), or
    the mask. *)
Definition pic_data (v : Z) (p : pic) : pic :=
  if pc_expect p =? 3 then Mkpic (pc_mask p) v 2
  else if pc_expect p =? 0 then Mkpic v (pc_vector p) 0
  else Mkpic (pc_mask p) (pc_vector p) (pc_expect p - 1).

(** The two 8259A, and the selected register and the registers of the I/O
    APIC. *)
Record ints := Mkints {
  in_master : pic;
  in_slave : pic;
  in_sel : Z;
  in_regs : gmap Z Z;
}.

Definition io_reg (x : ints) (r : Z) : Z := default 0 (in_regs x !! r).

Definition ints_out (r : reg) (v : Z) (x : ints) : ints :=
  if decide (r = Port8 0x20) then Mkints (pic_cmd v (in_master x)) (in_slave x) (in_sel x) (in_regs x)
  else if decide (r = Port8 0x21) then Mkints (pic_data v (in_master x)) (in_slave x) (in_sel x) (in_regs x)
  else if decide (r = Port8 0xA0) then Mkints (in_master x) (pic_cmd v (in_slave x)) (in_sel x) (in_regs x)
  else if decide (r = Port8 0xA1) then Mkints (in_master x) (pic_data v (in_slave x)) (in_sel x) (in_regs x)
  else if decide (r = Mmio IOAPIC) then Mkints (in_master x) (in_slave x) v (in_regs x)
  else if decide (r = Mmio (IOAPIC + 16)) then Mkints (in_master x) (in_slave x) (in_sel x) (<[in_sel x := v]> (in_regs x))
  else x.

Class Ints (D : Type) `{!Device D} := {
  ints_of : D -> ints;
  ints_write r v d : ints_of (d_out r v d) = ints_out r v (ints_of d);
  ints_read r d : ints_of (snd (d_in r d)) = ints_of d;
  ints_data d : fst (d_in (Mmio (IOAPIC + 16)) d) = io_reg (ints_of d) (in_sel (ints_of d));
}.

(** ** Invariants *)

Section ints.
Context {D : Type} `{!Device D, !Ints D}.

(** The 8259A are initialised, with the vectors of trap.c, and deliver the lines
    in [en] and the line that connects the slave. *)
Record pic_routes (en : gset Z) (h : hw) (d : D) : Prop := {
  pr_master : in_master (ints_of d) = Mkpic (u8 (h_irqmask h)) T_IRQ0 0;
  pr_slave : in_slave (ints_of d) = Mkpic (u8 (Z.shiftr (h_irqmask h) 8)) (T_IRQ0 + 8) 0;
  pr_mask i : 0 <= i < 16 -> Z.testbit (h_irqmask h) i = bool_decide ((i ∉ en) /\ i <> IRQ_SLAVE);
  pr_range : 0 <= h_irqmask h < 2 ^ 16;
}.

(** Of its [n] lines, the I/O APIC delivers those in [en], to the CPUs given
    there. *)
Definition io_routes (n : Z) (en : gmap Z Z) (h : hw) (d : D) : Prop :=
  h_ioapic h = IOAPIC /\
  forall i, 0 <= i < n ->
    io_reg (ints_of d) (REG_TABLE + 2 * i) =
      (match en !! i with Some _ => T_IRQ0 + i | None => Z.lor INT_DISABLED (T_IRQ0 + i) end) /\
    io_reg (ints_of d) (REG_TABLE + 2 * i + 1) = match en !! i with Some c => u32 (Z.shiftl c 24) | None => 0 end.

(** A run that returns, with the kernel's state and the devices changed as [Q]
    says. *)
Definition returns {A} (m : M (board D hw) A) (h : hw) (d : D) (Q : A -> hw -> D -> Prop) : Prop :=
  exists a h' d', m (Mkboard d h) = Ok a (Mkboard d' h') /\ Q a h' d'.

Lemma returns_bind {A B} (m : M (board D hw) A) (k : A -> M (board D hw) B) h d Q :
  returns m h d (fun a h' d' => returns (k a) h' d' Q) -> returns (m ≫= k) h d Q.
Proof.
  intros (a & h1 & d1 & E1 & b & h2 & d2 & E2 & HQ). exists b, h2, d2. split; [|done]. by rewrite (bind_ok _ _ _ _ _ E1).
Qed.

Lemma returns_mono {A} (m : M (board D hw) A) h d (P Q : A -> hw -> D -> Prop) :
  returns m h d P -> (forall a h' d', P a h' d' -> Q a h' d') -> returns m h d Q.
Proof. intros (a & h1 & d1 & E1 & H) HPQ. exists a, h1, d1. auto. Qed.

Lemma returns_out r v h d Q : Q tt h (d_out r v d) -> returns (out_reg r v) h d Q.
Proof. intros H. by exists tt, h, (d_out r v d). Qed.

Lemma returns_outb p v h d Q : Q tt h (d_out (Port8 p) (u8 v) d) -> returns (outb p v) h d Q.
Proof. intros H. by exists tt, h, (d_out (Port8 p) (u8 v) d). Qed.

Lemma returns_in r h d Q : Q (fst (d_in r d)) h (snd (d_in r d)) -> returns (in_reg r) h d Q.
Proof. intros H. unfold returns, in_reg. cbn. destruct (d_in r d) as [v d']. by exists v, h, d'. Qed.

Lemma returns_inb p h d Q :
  Q (u8 (fst (d_in (Port8 p) d))) h (snd (d_in (Port8 p) d)) -> returns (inb p) h d Q.
Proof. intros H. apply returns_bind, returns_in. by eexists _, _, _. Qed.

Lemma returns_get {A} (f : hw -> A) h d (Q : A -> hw -> D -> Prop) : Q (f h) h d -> returns (get_hw f) h d Q.
Proof. intros H. by exists (f h), h, d. Qed.

Lemma returns_set f h d Q : Q tt (f h) d -> returns (set_hw f) h d Q.
Proof. intros H. by exists tt, (f h), d. Qed.

Lemma returns_ret {A} (a : A) h d (Q : A -> hw -> D -> Prop) : Q a h d -> returns (mret a) h d Q.
Proof. intros H. by exists a, h, d. Qed.

Lemma returns_liftK {A} (m : K A) h d a s (Q : A -> hw -> D -> Prop) :
  m (h_kernel h) = Ok a s -> Q a (h <| h_kernel := s |>) d -> returns (liftK m) h d Q.
Proof. intros E H. exists a, (h <| h_kernel := s |>), d. split; [|done]. by apply liftK_ok. Qed.
End ints.

(** Executes the accesses at the head of a program. *)
Ltac returns_steps :=
  repeat match goal with
  | |- returns (?m ≫= ?k) ?h ?d ?Q => refine (returns_bind m k h d Q _)
  | |- returns (outb ?p ?v) ?h ?d ?Q => refine (returns_outb p v h d Q _); cbv beta
  | |- returns (out_reg ?r ?v) ?h ?d ?Q => refine (returns_out r v h d Q _); cbv beta
  | |- returns (inb ?p) ?h ?d ?Q => refine (returns_inb p h d Q _); cbv beta
  | |- returns (in_reg ?r) ?h ?d ?Q => refine (returns_in r h d Q _); cbv beta
  | |- returns (get_hw ?f) ?h ?d ?Q => refine (returns_get f h d Q _); cbv beta
  | |- returns (set_hw ?f) ?h ?d ?Q => refine (returns_set f h d Q _); cbv beta
  | |- returns (mret ?a) ?h ?d ?Q => refine (returns_ret a h d Q _); cbv beta
  end.

Section pic.
Context {D : Type} `{!Device D, !Ints D}.

Lemma picinit_spec h (d : D) :
  h_irqmask h = 0xFFFB ->
  returns picinit h d (fun _ h' d' => h' = h /\ in_regs (ints_of d') = in_regs (ints_of d) /\ pic_routes ∅ h' d').
Proof.
  intros Hm. unfold picinit. returns_steps. rewrite Hm. cbn [Z.eqb Pos.eqb negb when]. unfold picsetmask. returns_steps.
  assert (Eh : h <| h_irqmask := 0xFFFB |> = h) by (rewrite <- Hm; by destruct h). cbv beta. rewrite Eh. split; [done|]. split; [by rewrite !ints_write|].
  split; rewrite ?ints_write, ?Hm; try lia.
  - reflexivity.
  - reflexivity.
  - intros i Hi. assert (exists n, (n < 16)%nat /\ i = Z.of_nat n) as (n & Hn & ->) by (exists (Z.to_nat i); lia).
    do 16 (destruct n as [|n]; [vm_compute; reflexivity|]). lia.
Qed.

Lemma mask_bits m irq :
  0 <= m < 2 ^ 16 -> 0 <= irq ->
  let m' := u16 (Z.land m (Z.lnot (Z.shiftl 1 irq))) in
  (forall i, 0 <= i < 16 -> Z.testbit m' i = Z.testbit m i && negb (i =? irq)) /\ 0 <= m' < 2 ^ 16.
Proof.
  intros Hm Hi m'. split; [|apply Z.mod_pos_bound; lia]. intros i Hii. unfold m', u16.
  rewrite Z.mod_pow2_bits_low, Z.land_spec, Z.lnot_spec, Z.shiftl_spec by lia. do 2 f_equal.
  destruct (Z.eqb_spec i irq) as [->|Hne]; [by rewrite Z.sub_diag|].
  destruct (decide (i < irq)); [by rewrite Z.testbit_neg_r by lia|].
  apply (Z.pow2_bits_false 0). lia.
Qed.

Lemma pic_masks v w (d : D) :
  let x := ints_of d in
  ints_of (d_out (Port8 (IO_PIC2 + 1)) w (d_out (Port8 (IO_PIC1 + 1)) v d)) =
  Mkints (pic_data v (in_master x)) (pic_data w (in_slave x)) (in_sel x) (in_regs x).
Proof. by rewrite !ints_write. Qed.

Lemma picenable_spec irq en h (d : D) :
  0 <= irq < 16 -> pic_routes en h d ->
  returns (picenable irq) h d (fun _ h' d' =>
    (exists mask, h' = h <| h_irqmask := mask |>) /\ pic_routes ({[irq]} ∪ en) h' d' /\ in_regs (ints_of d') = in_regs (ints_of d)).
Proof.
  intros Hi [P1 P2 P3 P4]. unfold picenable, picsetmask. returns_steps.
  destruct (mask_bits (h_irqmask h) irq P4 ltac:(lia)) as [Hb Hr]. set (mask := u16 _) in *.
  pose proof (pic_masks (u8 mask) (u8 (Z.shiftr mask 8)) d) as Ed. cbn zeta in Ed. rewrite P1, P2 in Ed.
  split_and!; [by eexists| |by rewrite Ed]. split; rewrite ?Ed; try done. cbn [h_irqmask update eta eta_hw].
  intros i Hii. rewrite (Hb i Hii), (P3 i Hii). destruct (Z.eqb_spec i irq) as [->|Hne]; cbn [negb].
  - rewrite andb_false_r. symmetry. apply bool_decide_eq_false. set_solver.
  - rewrite andb_true_r. apply bool_decide_ext. set_solver.
Qed.

(** ** The I/O APIC *)

Lemma ioapicwrite_spec r v h (d : D) :
  h_ioapic h = IOAPIC ->
  returns (ioapicwrite r v) h d (fun _ h' d' => h' = h /\
    ints_of d' = Mkints (in_master (ints_of d)) (in_slave (ints_of d)) r (<[r := v]> (in_regs (ints_of d)))).
Proof. intros Hi. unfold ioapicwrite. returns_steps. rewrite Hi, !ints_write. done. Qed.

Lemma ioapicread_spec r h (d : D) :
  h_ioapic h = IOAPIC ->
  returns (ioapicread r) h d (fun v h' d' => h' = h /\ v = io_reg (ints_of d) r /\
    ints_of d' = Mkints (in_master (ints_of d)) (in_slave (ints_of d)) r (in_regs (ints_of d))).
Proof. intros Hi. unfold ioapicread. returns_steps. rewrite Hi, ints_data, ints_read, !ints_write. done. Qed.

(** The 8259A, and the I/O APIC of an MP machine; [io] gives the number of its
    lines and those it delivers. *)
Record routes (en : gset Z) (io : option (Z * gmap Z Z)) (h : hw) (d : D) : Prop := {
  rt_pic : pic_routes en h d;
  rt_io : match io with
          | None => h_ismp h = 0
          | Some (n, m) => h_ismp h <> 0 /\ io_routes n m h d
          end;
}.

Lemma routes_ext en io h h' (d d' : D) :
  routes en io h d -> h_irqmask h' = h_irqmask h -> h_ismp h' = h_ismp h -> h_ioapic h' = h_ioapic h ->
  ints_of d' = ints_of d -> routes en io h' d'.
Proof.
  intros [[P1 P2 P3 P4] Q] H1 H2 H3 H4. split; [split; rewrite ?H4, ?H1; done|].
  unfold io_routes in *. rewrite H2, H3, H4. done.
Qed.

Lemma picenable_routes irq en io h (d : D) :
  0 <= irq < 16 -> routes en io h d ->
  returns (picenable irq) h d (fun _ h' d' =>
    routes ({[irq]} ∪ en) io h' d' /\ exists mask, h' = h <| h_irqmask := mask |>).
Proof.
  intros Hi [P Q]. eapply returns_mono; [by apply (picenable_spec irq en)|].
  intros _ h' d' ([mask ->] & P' & Hr). split; [|by exists mask]. split; [done|].
  unfold io_routes, io_reg in *. rewrite Hr. done.
Qed.

Lemma ioapicenable_routes irq c en io h (d : D) :
  0 <= irq -> routes en io h d ->
  returns (ioapicenable irq c) h d (fun _ h' d' =>
    routes en ((fun '(n, m) => (n, <[irq := c]> m)) <$> io) h' d' /\ h' = h).
Proof.
  intros Hi [P Q]. unfold ioapicenable. returns_steps. destruct io as [[n m]|]; cbn [fmap option_fmap option_map].
  2: { rewrite Q. cbn [c_true Z.eqb negb]. returns_steps. done. }
  destruct Q as (Hm & Ha & Hr). destruct (c_true_spec (h_ismp h)); [|done]. cbn [negb]. refine (returns_bind _ _ _ _ _ _).
  eapply returns_mono; [by apply ioapicwrite_spec|]. intros _ h1 d1 [-> E1].
  eapply returns_mono; [by apply ioapicwrite_spec|]. intros _ h2 d2 [-> E2]. split; [|done].
  destruct P as [P1 P2 P3 P4]. split; [split; rewrite ?E2, ?E1; done|]. split; [done|]. split; [done|].
  intros i Hii. unfold io_reg. rewrite E2, E1. cbn [in_regs]. unfold REG_TABLE. destruct (decide (irq = i)) as [->|Hne].
  - rewrite (lookup_insert_ne _ (16 + 2 * i + 1) (16 + 2 * i)) by lia. rewrite !lookup_insert_eq. done.
  - rewrite !lookup_insert_ne by lia. by apply Hr.
Qed.

Lemma ioapic_mask_spec n i h (d : D) :
  h_ioapic h = IOAPIC -> 0 <= i ->
  returns (ioapic_mask n i) h d (fun _ h' d' => h' = h /\
    in_master (ints_of d') = in_master (ints_of d) /\ in_slave (ints_of d') = in_slave (ints_of d) /\
    (forall r, r < REG_TABLE + 2 * i -> io_reg (ints_of d') r = io_reg (ints_of d) r) /\
    forall j, i <= j < i + Z.of_nat n ->
      io_reg (ints_of d') (REG_TABLE + 2 * j) = Z.lor INT_DISABLED (T_IRQ0 + j) /\ io_reg (ints_of d') (REG_TABLE + 2 * j + 1) = 0).
Proof.
  intros Ha. revert i d; induction n as [|n IH]; intros i d Hi; cbn [ioapic_mask].
  { returns_steps. split_and!; try done. lia. }
  refine (returns_bind _ _ _ _ _ _). eapply returns_mono; [by apply ioapicwrite_spec|]. intros _ h1 d1 [-> E1].
  refine (returns_bind _ _ _ _ _ _). eapply returns_mono; [by apply ioapicwrite_spec|]. intros _ h2 d2 [-> E2].
  eapply returns_mono; [apply IH; lia|]. intros _ h3 d3 (-> & M1 & M2 & M3 & M4). rewrite E2, E1 in M1, M2.
  assert (Hr : forall r, r < REG_TABLE + 2 * (i + 1) -> io_reg (ints_of d3) r =
    default 0 (<[REG_TABLE + 2 * i + 1 := 0]> (<[REG_TABLE + 2 * i := Z.lor INT_DISABLED (T_IRQ0 + i)]> (in_regs (ints_of d))) !! r)).
  { intros r Hrr. rewrite M3 by lia. unfold io_reg. rewrite E2, E1. done. }
  split_and!; [done|done|done| |].
  - intros r Hrr. rewrite Hr by lia. rewrite !lookup_insert_ne by lia. done.
  - intros j Hj. destruct (decide (j = i)) as [->|]; [|apply M4; lia]. rewrite !Hr by lia.
    rewrite lookup_insert_ne, !lookup_insert_eq by lia. done.
Qed.

(** The number of lines of the I/O APIC. *)
Definition io_lines (x : ints) : Z := Z.land (Z.shiftr (u32 (io_reg x REG_VER)) 16) 0xFF + 1.

Lemma io_lines_pos x : 0 < io_lines x.
Proof. unfold io_lines. assert (0 <= Z.land (Z.shiftr (u32 (io_reg x REG_VER)) 16) 0xFF) by (apply Z.land_nonneg; lia). lia. Qed.

(** What the initialisers leave of the variables. *)
Definition keeps_hw (h h' : hw) : Prop := h_ismp h' = h_ismp h /\ h_ncpu h' = h_ncpu h /\ h_idt h' = h_idt h.

Lemma ioapicinit_routes h (d : D) :
  pic_routes ∅ h d -> quiet (h_kernel h) ->
  returns ioapicinit h d (fun _ h' d' => keeps_hw h h' /\
    routes ∅ (if h_ismp h =? 0 then None else Some (io_lines (ints_of d), ∅)) h' d').
Proof.
  intros P Hq. unfold ioapicinit. returns_steps. destruct (c_true_spec (h_ismp h)) as [Hm|Hm]; cbn [negb].
  2: { returns_steps. split; [done|]. assert (h_ismp h = 0) as -> by lia. split; [done|cbn; lia]. }
  destruct (Z.eqb_spec (h_ismp h) 0); [done|]. returns_steps.
  set (h1 := h <| h_ioapic := IOAPIC |>). eapply returns_mono; [by apply ioapicread_spec|].
  intros ver h2 d2 (-> & -> & E2). refine (returns_bind _ _ _ _ _ _). eapply returns_mono; [by apply ioapicread_spec|].
  intros idr h3 d3 (-> & _ & E3). returns_steps. rewrite E2 in E3. cbn [in_master in_slave in_regs] in E3.
  assert (exists l, format (str "ioapicinit: id isn't equal to ioapicid; not a MP
") [] = Some l) as [l El] by (eexists; reflexivity).
  set (h4 := if Z.shiftr (u32 idr) 24 =? h_ioapicid h1 then h1 else h1 <| h_kernel := printed l (h_kernel h1) |>).
  refine (returns_mono _ _ _ (fun _ h' d' => h' = h4 /\ d' = d3) _ _ _).
  { unfold h4. destruct (Z.shiftr (u32 idr) 24 =? h_ioapicid h1); cbn [negb when]; [by returns_steps|].
    eapply returns_liftK; [by apply cprintf_quiet|]. done. }
  intros _ h' d' [-> ->]. assert (K4 : keeps_hw h h4 /\ h_ioapic h4 = IOAPIC /\ h_irqmask h4 = h_irqmask h)
    by (unfold h4; by destruct (_ =? _)). destruct K4 as (K4 & A4 & I4).
  change (Z.land (Z.shiftr (u32 (io_reg (ints_of d) REG_VER)) 16) 0xFF + 1) with (io_lines (ints_of d)).
  eapply returns_mono; [by apply ioapic_mask_spec|]. intros _ h' d' (-> & M1 & M2 & _ & M4). split; [done|].
  destruct P as [P1 P2 P3 P4]. rewrite E3 in M1, M2. cbn [in_master in_slave] in M1, M2. split.
  - split; rewrite ?M1, ?M2, ?I4; done.
  - split; [destruct K4 as (-> & _); done|]. split; [done|]. intros i Hi. rewrite lookup_empty. apply M4.
    pose proof (io_lines_pos (ints_of d)). lia.
Qed.

(** ** Code that does not use the controllers *)

Definition calm {A} (m : M (board D hw) A) : Prop :=
  forall en io h d, routes en io h d -> returns m h d (fun _ h' d' => routes en io h' d' /\ keeps_hw h h').

Lemma calm_bind {A B} (m : M (board D hw) A) (k : A -> M (board D hw) B) : calm m -> (forall a, calm (k a)) -> calm (m ≫= k).
Proof.
  intros Hm Hk en io h d R. apply returns_bind. eapply returns_mono; [by apply Hm|]. intros a h1 d1 [R1 K1].
  eapply returns_mono; [by apply Hk|]. intros b h2 d2 [R2 (K2 & K3 & K4)]. split; [done|].
  destruct K1 as (? & ? & ?). split_and!; congruence.
Qed.

Lemma calm_ret {A} (a : A) : calm (mret a).
Proof. intros en io h d R. by apply returns_ret. Qed.

Lemma calm_get {A} (f : hw -> A) : calm (get_hw f).
Proof. intros en io h d R. by apply returns_get. Qed.

Lemma calm_liftK {A} (m : K A) : (forall s, exists a s', m s = Ok a s') -> calm (liftK m).
Proof.
  intros Hm en io h d R. destruct (Hm (h_kernel h)) as (a & s & E). eapply returns_liftK; [exact E|].
  split; [|done]. by eapply routes_ext.
Qed.

Definition controller_port (p : Z) : bool := (p =? 0x20) || (p =? 0x21) || (p =? 0xA0) || (p =? 0xA1).

Lemma calm_outb p v : controller_port p = false -> calm (outb p v).
Proof.
  intros Hp en io h d R. apply returns_outb. split; [|done]. eapply routes_ext; [exact R|done..|].
  rewrite ints_write. unfold ints_out, controller_port in *.
  repeat (rewrite decide_False by (intros [=]; lia || done)). done.
Qed.

Lemma calm_inb p : calm (inb p).
Proof. intros en io h d R. apply returns_inb. split; [|done]. eapply routes_ext; [exact R|done..|]. apply ints_read. Qed.

#[local] Hint Resolve calm_ret calm_get calm_inb : core.

Lemma calm_uart_wait n : calm (uart_wait n).
Proof. induction n as [|n IH]; [apply calm_ret|]. apply calm_bind; [auto|]. intros v. by destruct (has_bits v 0x20). Qed.

Lemma calm_uart_puts l : calm (uart_puts l).
Proof.
  induction l as [|c l IH]; [apply calm_ret|]. apply calm_bind; [|intros _; exact IH].
  apply calm_bind; [apply calm_get|]. intros [|]; cbn [negb]; [|apply calm_ret].
  apply calm_bind; [apply calm_uart_wait|intros _; by apply calm_outb].
Qed.

Lemma calm_modify f : calm (liftK (modify f)).
Proof. apply calm_liftK. intros s. by eexists tt, _. Qed.

Lemma calm_initlock l name : calm (liftK (initlock l name)).
Proof. apply calm_liftK. intros s. by eexists tt, _. Qed.

Lemma calm_find_disk1 n : calm (find_disk1 n).
Proof.
  induction n as [|n IH]; [apply calm_ret|]. apply calm_bind; [apply calm_inb|]. intros v.
  destruct (negb (v =? 0)); [apply calm_modify|exact IH].
Qed.

Lemma calm_idewait spin chk : (forall d : D, exists st d', poll spin d = Some (st, d')) -> calm (idewait spin chk).
Proof.
  intros Hp en io h d R. destruct (Hp d) as (st & d' & E).
  assert (Hi : ints_of d' = ints_of d).
  { clear R Hp. revert d E; induction spin as [|n IH]; intros d; cbn [poll]; pose proof (ints_read (Port8 503) d) as Hr;
      destruct (d_in (Port8 503) d) as [v d1]; cbn [snd] in Hr; case_match; try done; [by intros [= _ <-]..|].
    intros E. by rewrite (IH d1 E). }
  eexists _, h, d'. split; [rewrite idewait_poll, E; reflexivity|]. split; [|done]. by eapply routes_ext.
Qed.

(** Kernel code that always returns. *)
Definition total {A} (m : K A) : Prop := forall s, exists a s', m s = Ok a s'.

Lemma total_bind {A B} (m : K A) (k : A -> K B) : total m -> (forall a, total (k a)) -> total (m ≫= k).
Proof.
  intros Hm Hk s. destruct (Hm s) as (a & s1 & E). destruct (Hk a s1) as (b & s2 & E2). exists b, s2.
  by rewrite (bind_ok _ _ _ _ _ E).
Qed.

Lemma total_modify f : total (modify f).
Proof. intros s. by eexists tt, _. Qed.

Lemma total_gets {A} (f : kernel -> A) : total (gets f).
Proof. intros s. by eexists _, s. Qed.

Lemma total_binit : total binit.
Proof.
  assert (Hn : forall p v, total (set_next p v)) by (intros [b|] v; apply total_modify).
  assert (Hp : forall p v, total (set_prev p v)) by (intros [b|] v; apply total_modify).
  assert (Hl : forall bs, total (binit_loop bs)).
  { induction bs as [|b bs IH]; [intros s; by exists tt, s|]. cbn [binit_loop]. unfold link_front.
    repeat first [apply total_bind; [|intros ?] | apply total_gets | apply Hn | apply Hp | apply total_modify | exact IH]. }
  unfold binit. apply total_bind; [apply total_modify|intros _].
  apply total_bind; [apply Hp|intros _]. apply total_bind; [apply Hn|intros _]. apply Hl.
Qed.

(** ** The descriptor table *)

(** The address a gate leads to. *)
Definition gate_offset (g : gatedesc) : Z := gd_off_15_0 g + 2 ^ 16 * gd_off_31_16 g.

(** A gate to [off] in the kernel's code segment, that [int] in user mode may
    use or not. *)
Definition gate_to (off : Z) (user : bool) (g : gatedesc) : Prop :=
  gate_offset g = off /\ gd_cs g = 8 /\ gd_p g = 1 /\ gd_s g = 0 /\
  if user then gd_type g = STS_TG32 /\ gd_dpl g = 3 else gd_type g = STS_IG32 /\ gd_dpl g = 0.

Lemma SETGATE_to istrap off d :
  is_u32 off -> d = (if c_true istrap then 3 else 0) -> gate_to off (c_true istrap) (SETGATE istrap (Z.shiftl SEG_KCODE 3) off d).
Proof.
  intros Ho ->. unfold SETGATE. split_and!; try done; [|by destruct (c_true istrap)].
  unfold gate_offset. cbn. change 0xffff with (Z.ones 16). rewrite Z.land_ones, Z.shiftr_div_pow2 by lia.
  pose proof (Z.div_mod off (2 ^ 16)). lia.
Qed.

Lemma tvinit_loop_spec {L : Linked} n i h (d : D) :
  (i + n <= length (h_idt h))%nat ->
  returns (tvinit_loop n i) h d (fun _ h' d' => d' = d /\ (exists t, h' = h <| h_idt := t |>) /\
    length (h_idt h') = length (h_idt h) /\
    (forall j, (i <= j < i + n)%nat -> h_idt h' !! j = Some (SETGATE 0 (Z.shiftl SEG_KCODE 3) (vectors j) 0)) /\
    forall j, (j < i)%nat -> h_idt h' !! j = h_idt h !! j).
Proof.
  revert i h; induction n as [|n IH]; intros i h Hl; cbn [tvinit_loop].
  { returns_steps. split_and!; try done; [exists (h_idt h); by destruct h|lia]. }
  returns_steps. set (h1 := h <| h_idt ::= _ |>).
  assert (E1 : h_idt h1 = <[i := SETGATE 0 (Z.shiftl SEG_KCODE 3) (vectors i) 0]> (h_idt h)) by done.
  eapply returns_mono; [apply IH; rewrite E1, length_insert; lia|].
  intros _ h' d' (-> & [t ->] & E2 & E3 & E4). rewrite E1, length_insert in E2. split_and!; [done|by exists t|done| |].
  - intros j Hj. destruct (decide (j = i)) as [->|]; [|apply E3; lia]. rewrite E4, E1 by lia.
    apply list_lookup_insert_eq. lia.
  - intros j Hj. rewrite E4, E1 by lia. apply list_lookup_insert_ne. lia.
Qed.

Lemma tvinit_spec {L : Linked} en io h (d : D) :
  length (h_idt h) = 256%nat -> (forall i, is_u32 (vectors i)) -> routes en io h d ->
  returns tvinit h d (fun _ h' d' => routes en io h' d' /\ h_ismp h' = h_ismp h /\ h_ncpu h' = h_ncpu h /\
    forall i, (i < 256)%nat -> exists g, h_idt h' !! i = Some g /\ gate_to (vectors i) (Z.of_nat i =? T_SYSCALL) g).
Proof.
  intros Hl Hv R. unfold tvinit. refine (returns_bind _ _ _ _ _ _).
  eapply returns_mono; [apply tvinit_loop_spec; lia|]. intros _ h1 d1 (-> & [t ->] & E1 & E2 & _).
  refine (returns_bind _ _ _ _ _ _). refine (returns_set _ _ _ _ _). eapply returns_liftK; [reflexivity|].
  split_and!; [by eapply routes_ext|done|done|]. cbn [h_idt update eta eta_hw] in *. intros i Hi.
  destruct (Z.eqb_spec (Z.of_nat i) T_SYSCALL) as [E|E].
  - replace (Z.to_nat T_SYSCALL) with i by lia. rewrite list_lookup_insert_eq by lia. eexists. split; [done|].
    by apply (SETGATE_to 1).
  - rewrite list_lookup_insert_ne by (unfold T_SYSCALL in *; lia). rewrite E2 by lia. eexists. split; [done|].
    by apply (SETGATE_to 0).
Qed.

(** ** The initialisation *)

(** The routes change from [en], [io] to [en'], [io']. *)
Definition reroutes {A} (m : M (board D hw) A) (en : gset Z) (io : option (Z * gmap Z Z)) (en' : gset Z)
    (io' : option (Z * gmap Z Z)) : Prop :=
  forall h d, routes en io h d -> returns m h d (fun _ h' d' => routes en' io' h' d' /\ keeps_hw h h').

Lemma reroutes_bind {A B} (m : M (board D hw) A) (k : A -> M (board D hw) B) en io en1 io1 en2 io2 :
  reroutes m en io en1 io1 -> (forall a, reroutes (k a) en1 io1 en2 io2) -> reroutes (m ≫= k) en io en2 io2.
Proof.
  intros Hm Hk h d R. apply returns_bind. eapply returns_mono; [by apply Hm|]. intros a h1 d1 [R1 K1].
  eapply returns_mono; [by apply Hk|]. intros b h2 d2 [R2 (K2 & K3 & K4)]. split; [done|].
  destruct K1 as (? & ? & ?). split_and!; congruence.
Qed.

Lemma calm_reroutes {A} (m : M (board D hw) A) en io : calm m -> reroutes m en io en io.
Proof. intros H h d R. by apply H. Qed.

(** The routes with a line added. *)
Definition add_line (irq c : Z) (io : option (Z * gmap Z Z)) : option (Z * gmap Z Z) :=
  (fun '(n, m) => (n, <[irq := c]> m)) <$> io.

Lemma pic_reroutes irq en io : 0 <= irq < 16 -> reroutes (picenable irq) en io ({[irq]} ∪ en) io.
Proof.
  intros Hi h d R. eapply returns_mono; [by apply picenable_routes|]. intros _ h' d' [R' [mask ->]]. done.
Qed.

Lemma io_reroutes irq c en io : 0 <= irq -> reroutes (ioapicenable irq c) en io en (add_line irq c io).
Proof.
  intros Hi h d R. eapply returns_mono; [by apply ioapicenable_routes|]. by intros _ h' d' [R' ->].
Qed.

Lemma consoleinit_reroutes en io :
  reroutes consoleinit_irq en io ({[IRQ_KBD]} ∪ en) (add_line IRQ_KBD 0 io).
Proof.
  eapply reroutes_bind; [apply calm_reroutes, calm_liftK; intros s; by eexists tt, _|]. intros _.
  eapply reroutes_bind; [by apply pic_reroutes|]. intros _. by apply io_reroutes.
Qed.

Lemma uartinit_routes en io h h0 (d : D) :
  routes en io h0 d -> keeps_hw h h0 ->
  returns uartinit h0 d (fun _ h' d' => keeps_hw h h' /\ exists uart : bool,
    if uart then routes ({[IRQ_COM1]} ∪ en) (add_line IRQ_COM1 0 io) h' d' else routes en io h' d').
Proof.
  intros R K. unfold uartinit.
  assert (Hseq : forall A (m : M (board D hw) A) (B : Type) (k : A -> M (board D hw) B) h1 d1 Q, calm m -> routes en io h1 d1 -> keeps_hw h h1 ->
    (forall a h2 d2, routes en io h2 d2 -> keeps_hw h h2 -> returns (k a) h2 d2 Q) -> returns (m ≫= k) h1 d1 Q).
  { intros A m B k h1 d1 Q Hm R0 K0 Hk. apply returns_bind. eapply returns_mono; [by apply Hm|].
    intros a h2 d2 [R1 (K1 & K2 & K3)]. apply Hk; [done|]. destruct K0 as (? & ? & ?). split_and!; congruence. }
  do 7 (apply Hseq; [by apply calm_outb|done|done|]; clear dependent d h0; intros _ h0 d R K).
  apply Hseq; [apply calm_inb|done|done|]; clear dependent d h0; intros st h0 d R K.
  destruct (st =? 0xFF); [apply returns_ret; split; [done|by exists false]|].
  apply Hseq; [apply calm_modify|done|done|]; clear dependent d h0; intros _ h0 d R K.
  do 2 (apply Hseq; [apply calm_inb|done|done|]; clear dependent d h0; intros ? h0 d R K).
  eapply returns_mono.
  - eapply (reroutes_bind _ _ en io); [by apply pic_reroutes|intros _|exact R].
    eapply reroutes_bind; [by apply io_reroutes|intros _]. apply calm_reroutes, calm_uart_puts.
  - intros _ h' d' [R' (K1 & K2 & K3)]. split; [|by exists true]. destruct K as (? & ? & ?). split_and!; congruence.
Qed.

Lemma ideinit_reroutes spin n en io h (d : D) :
  (forall d : D, exists st d', poll spin d = Some (st, d')) -> routes en io h d -> h_ncpu h = n ->
  returns (ideinit spin) h d (fun _ h' d' => routes ({[IRQ_IDE]} ∪ en) (add_line IRQ_IDE (n - 1) io) h' d' /\ keeps_hw h h').
Proof.
  intros Hp R Hn. unfold ideinit. apply returns_bind.
  eapply returns_mono; [by apply calm_initlock|]. intros _ h1 d1 [R1 (K1 & K2 & K3)].
  apply returns_bind. eapply returns_mono; [by apply (pic_reroutes IRQ_IDE en io)|]. intros _ h2 d2 [R2 (K4 & K5 & K6)].
  apply returns_bind, returns_get. replace (h_ncpu h2) with n by congruence.
  eapply returns_mono.
  - eapply reroutes_bind; [by apply io_reroutes|intros _|exact R2].
    eapply reroutes_bind; [by apply calm_reroutes, calm_idewait|intros _].
    eapply reroutes_bind; [by apply calm_reroutes, calm_outb|intros _].
    eapply reroutes_bind; [apply calm_reroutes, calm_find_disk1|intros _]. by apply calm_reroutes, calm_outb.
  - intros _ h' d' [R' (K7 & K8 & K9)]. split; [done|]. split_and!; congruence.
Qed.
Lemma timerinit_reroutes en io : reroutes timerinit en io ({[IRQ_TIMER]} ∪ en) io.
Proof.
  eapply reroutes_bind; [by apply calm_reroutes, calm_outb|intros _].
  eapply reroutes_bind; [by apply calm_reroutes, calm_outb|intros _].
  eapply reroutes_bind; [by apply calm_reroutes, calm_outb|intros _]. by apply pic_reroutes.
Qed.

(** From [binit] on. *)
Lemma main_tail_routes spin n en io h (d : D) :
  (forall d : D, exists st d', poll spin d = Some (st, d')) -> routes en io h d -> h_ncpu h = n ->
  returns (liftK binit;; liftK fileinit;; liftK iinit;; ideinit spin;;
           ismp ← get_hw h_ismp; when (negb (c_true ismp)) timerinit) h d
    (fun _ h' d' => h_idt h' = h_idt h /\
       routes ((if h_ismp h =? 0 then {[IRQ_TIMER]} else ∅) ∪ ({[IRQ_IDE]} ∪ en)) (add_line IRQ_IDE (n - 1) io) h' d').
Proof.
  intros Hp R Hn.
  apply returns_bind. eapply returns_mono; [exact (calm_liftK binit total_binit en io h d R)|]. intros _ h1 d1 [R1 (A1 & A2 & A3)].
  apply returns_bind. eapply returns_mono; [exact (calm_initlock _ _ en io h1 d1 R1)|]. intros _ h2 d2 [R2 (B1 & B2 & B3)].
  apply returns_bind. eapply returns_mono; [exact (calm_initlock _ _ en io h2 d2 R2)|]. intros _ h3 d3 [R3 (C1 & C2 & C3)].
  apply returns_bind. eapply returns_mono; [apply (ideinit_reroutes spin n en io h3 d3 Hp R3); congruence|].
  intros _ h4 d4 [R4 (D1 & D2 & D3)]. apply returns_bind, returns_get.
  replace (h_ismp h4) with (h_ismp h) by congruence. assert (Hidt : h_idt h4 = h_idt h) by congruence.
  destruct (Z.eqb_spec (h_ismp h) 0) as [->|Hne].
  - cbn [c_true Z.eqb negb when]. eapply returns_mono; [exact (timerinit_reroutes _ _ h4 d4 R4)|].
    intros _ h5 d5 [R5 (_ & _ & E3)]. split; [congruence|done].
  - destruct (c_true_spec (h_ismp h)); [|lia]. cbn [negb when]. apply returns_ret. by rewrite union_empty_l_L.
Qed.
End pic.

(** The lines that are enabled, and their CPUs in the I/O APIC. *)
Definition enabled (uart mp : bool) : gset Z :=
  (if mp then ∅ else {[IRQ_TIMER]}) ∪ ({[IRQ_IDE]} ∪ ((if uart then {[IRQ_COM1]} else ∅) ∪ {[IRQ_KBD]})).

Definition io_enabled (uart : bool) (ncpu : Z) : gmap Z Z :=
  <[IRQ_IDE := ncpu - 1]> (if uart then <[IRQ_COM1 := 0]> {[IRQ_KBD := 0]} else {[IRQ_KBD := 0]}).


(** ** A machine *)

(** The controllers alone, with a disk that is always ready and no serial port
    data; the I/O APIC has 24 lines. *)
#[local] Instance bench : Device ints := {|
  d_in r x := (if decide (r = Mmio (IOAPIC + 16)) then io_reg x (in_sel x) else if decide (r = Port8 503) then 64 else 0, x);
  d_out := ints_out;
|}.

#[local] Instance bench_ints : Ints ints.
Proof. refine {| ints_of := id |}; [done|done|]. intros d. done. Defined.

Definition bench0 : ints := Mkints (Mkpic 0 0 0) (Mkpic 0 0 0) 0 {[REG_VER := 23 * 2 ^ 16]}.

#[local] Instance bench_linked : Linked := {|
  cpu_local_addr i := 2148532224 + 200 * Z.of_nat i; gdt_addr i := 2148532224 + 200 * Z.of_nat i + 112;
  idt_addr := 2148536320; vectors i := 2148544512 + 16 * (Z.of_nat i mod 256); entryother_start := 2148528128; entryother_size := 100;
  mpenter_addr := 2148540416; entrypgdir_addr := 2148548608; seginit_ra := 2148540500; startothers_ra := 2148540600 |}.

