(* ===== verification/Asm.v ===== *)
(** The instructions of the assembly files, as far as they use them.

    The state of the processor has the general and segment registers, the flags,
    the control registers, the descriptor table register, memory and the
    devices.  Memory is indexed by the addresses that the code uses: kernel
    virtual addresses once paging is on, physical ones before.  The program is
    a map from linear addresses, which the instruction pointer holds, to
    instructions, and [len] gives the length of each; where the linker puts the
    code and how it is encoded is a parameter.

    Of the arithmetic flags only the zero flag is kept up to date: no other one
    is tested. *)
From S2P Require Import Prelude Memory Kernel Spinlock Hw.

Inductive gpr := EAX | ECX | EDX | EBX | ESP | EBP | ESI | EDI.
Inductive sreg := CS | DS | ES | FS | GS | SS.
Inductive creg := CR0 | CR3 | CR4.

Record regs := Mkregs {
  r_eax : Z; r_ecx : Z; r_edx : Z; r_ebx : Z; r_esp : Z; r_ebp : Z; r_esi : Z; r_edi : Z;
}.
#[export] Instance eta_regs : Eta regs := fun r =>
  Mkregs (r_eax r) (r_ecx r) (r_edx r) (r_ebx r) (r_esp r) (r_ebp r) (r_esi r) (r_edi r).

Record segs := Mksegs { s_cs : Z; s_ds : Z; s_es : Z; s_fs : Z; s_gs : Z; s_ss : Z }.
#[export] Instance eta_segs : Eta segs := fun s => Mksegs (s_cs s) (s_ds s) (s_es s) (s_fs s) (s_gs s) (s_ss s).

Definition getr (r : gpr) (x : regs) : Z :=
  match r with
  | EAX => r_eax x | ECX => r_ecx x | EDX => r_edx x | EBX => r_ebx x
  | ESP => r_esp x | EBP => r_ebp x | ESI => r_esi x | EDI => r_edi x
  end.

Definition setr (r : gpr) (v : Z) (x : regs) : regs :=
  match r with
  | EAX => x <| r_eax := v |> | ECX => x <| r_ecx := v |> | EDX => x <| r_edx := v |> | EBX => x <| r_ebx := v |>
  | ESP => x <| r_esp := v |> | EBP => x <| r_ebp := v |> | ESI => x <| r_esi := v |> | EDI => x <| r_edi := v |>
  end.

Definition gets_ (s : sreg) (x : segs) : Z :=
  match s with CS => s_cs x | DS => s_ds x | ES => s_es x | FS => s_fs x | GS => s_gs x | SS => s_ss x end.

Definition sets (s : sreg) (v : Z) (x : segs) : segs :=
  match s with
  | CS => x <| s_cs := v |> | DS => x <| s_ds := v |> | ES => x <| s_es := v |>
  | FS => x <| s_fs := v |> | GS => x <| s_gs := v |> | SS => x <| s_ss := v |>
  end.

(** A byte, word or long operand is named by the suffix of the instruction; the
    operands are in the order of the sources. *)
Inductive instr :=
| Movl_ir (imm : Z) (d : gpr)
| Movl_rr (s d : gpr)
| Movl_mr (disp : Z) (base d : gpr)
| Movl_rm (s : gpr) (disp : Z) (base : gpr)
| Movl_ar (addr : Z) (d : gpr)
| Movl_cr (c : creg) (d : gpr)
| Movl_rc (s : gpr) (c : creg)
| Movw_ir (imm : Z) (d : gpr)
| Movw_rs (s : gpr) (d : sreg)
| Movw_rr (s d : gpr)
| Movb_ir (imm : Z) (d : gpr)
| Orl_ir (imm : Z) (d : gpr)
| Addl_ir (imm : Z) (d : gpr)
| Xorw_rr (s d : gpr)
| Testb_ir (imm : Z) (d : gpr)
| Pushl_r (s : gpr) | Pushl_s (s : sreg) | Pushl_i (imm : Z) | Pushal
| Popl_r (d : gpr) | Popl_s (d : sreg) | Popal
| Inb (port : Z) | Outb (port : Z) | Outw
| Cli
| Lgdt (addr : Z)
| Jmp (a : Z) | Jmp_r (s : gpr) | Jnz (a : Z) | Ljmp (sel a : Z)
| Call (a : Z) | Call_a (addr : Z)
| Int (n : Z)
| Ret | Iret.

#[export] Instance gpr_eq_dec : EqDecision gpr.
Proof. solve_decision. Defined.
#[export] Instance sreg_eq_dec : EqDecision sreg.
Proof. solve_decision. Defined.
#[export] Instance creg_eq_dec : EqDecision creg.
Proof. solve_decision. Defined.
#[export] Instance instr_eq_dec : EqDecision instr.
Proof. solve_decision. Defined.

(** Flags and control bits (mmu.h). *)
Definition FL_ZF : Z := 64.
Definition CR0_PE : Z := 1.
Definition CR0_WP : Z := 0x10000.
Definition CR0_PG : Z := 0x80000000.
Definition CR4_PSE : Z := 16.

Record mach (D : Type) := Mkmach {
  m_regs : regs;
  m_segs : segs;
  m_eip : Z;
  m_eflags : Z;
  m_cr0 : Z;
  m_cr3 : Z;
  m_cr4 : Z;
  m_gdtr : Z * Z;
  m_mem : memory;
  m_dev : D;
}.
Global Arguments Mkmach {D} m_regs m_segs m_eip m_eflags m_cr0 m_cr3 m_cr4 m_gdtr m_mem m_dev.
Global Arguments m_regs {D} m.
Global Arguments m_segs {D} m.
Global Arguments m_eip {D} m.
Global Arguments m_eflags {D} m.
Global Arguments m_cr0 {D} m.
Global Arguments m_cr3 {D} m.
Global Arguments m_cr4 {D} m.
Global Arguments m_gdtr {D} m.
Global Arguments m_mem {D} m.
Global Arguments m_dev {D} m.
#[export] Instance eta_mach {D} : Eta (mach D) := fun m =>
  Mkmach (m_regs m) (m_segs m) (m_eip m) (m_eflags m) (m_cr0 m) (m_cr3 m) (m_cr4 m) (m_gdtr m) (m_mem m) (m_dev m).

(** ** Execution *)

Section asm.
Context {D : Type} `{!Device D}.
Implicit Types st : mach D.

Definition reg_at st (r : gpr) : Z := getr r (m_regs st).
Definition set_reg (r : gpr) (v : Z) st : mach D := st <| m_regs ::= setr r v |>.

Definition push (v : Z) st : mach D :=
  let sp := u32 (reg_at st ESP - 4) in
  (set_reg ESP sp st) <| m_mem ::= fun m => store32 m sp v |>.

(** The word at the top of the stack, and the stack without [n] bytes. *)
Definition top st : Z := load32 (m_mem st) (reg_at st ESP).
Definition drop_stack (n : Z) st : mach D := set_reg ESP (u32 (reg_at st ESP + n)) st.

(** The low half and the low byte of a register replaced. *)
Definition low16 (v w : Z) : Z := v - v mod 2 ^ 16 + w mod 2 ^ 16.
Definition low8 (v w : Z) : Z := v - v mod 2 ^ 8 + w mod 2 ^ 8.

Definition set_zf (b : bool) st : mach D :=
  st <| m_eflags ::= fun f => if b then Z.lor f FL_ZF else Z.land f (Z.lnot FL_ZF) |>.

Definition getc (c : creg) st : Z := match c with CR0 => m_cr0 st | CR3 => m_cr3 st | CR4 => m_cr4 st end.
Definition setc (c : creg) (v : Z) st : mach D :=
  match c with CR0 => st <| m_cr0 := v |> | CR3 => st <| m_cr3 := v |> | CR4 => st <| m_cr4 := v |> end.

Definition jump (a : Z) st : mach D := st <| m_eip := a |>.

(** Data addresses: segments have base 0 in protected mode, and 16 times the
    selector in real mode. *)
Definition linear st (a : Z) : Z :=
  if has_bits (m_cr0 st) CR0_PE then a else 16 * s_ds (m_segs st) + a.

(** The limit and the base at [a]; in real mode the base has 24 bits. *)
Definition load_gdtr st (a : Z) : Z * Z :=
  let m := m_mem st in
  let b := load32 m (a + 2) in
  (load8 m a + 2 ^ 8 * load8 m (a + 1), if has_bits (m_cr0 st) CR0_PE then b else b mod 2 ^ 24).

(** The base of the segment of a selector, when the descriptor table has a present
    32-bit code segment for it. *)
Definition code_base (m : memory) (gdtr : Z * Z) (sel : Z) : option Z :=
  let d := gdtr.2 + sel - sel mod 8 in
  if (sel - sel mod 8 + 7 <=? gdtr.1) && (Z.land (load8 m (d + 5)) 0x98 =? 0x98) && has_bits (load8 m (d + 6)) 0x40
  then Some (load8 m (d + 2) + 2 ^ 8 * load8 m (d + 3) + 2 ^ 16 * load8 m (d + 4) + 2 ^ 24 * load8 m (d + 7))
  else None.

(** A far jump in protected mode; without a code segment it faults, which is not
    modelled. *)
Definition far_jump (sel a : Z) st : option (mach D) :=
  if has_bits (m_cr0 st) CR0_PE
  then b ← code_base (m_mem st) (m_gdtr st) sel; Some ((jump (u32 (b + a)) st) <| m_segs ::= sets CS sel |>)
  else None.

(** Return from an interrupt; to another privilege level the stack pointer is
    restored too. *)
Definition iret st : mach D :=
  let cpl := s_cs (m_segs st) mod 4 in
  let m := m_mem st in
  let sp := reg_at st ESP in
  let ld i := load32 m (u32 (sp + 4 * i)) in
  let st1 := (drop_stack 12 st) <| m_eip := ld 0 |> <| m_segs ::= sets CS (u16 (ld 1)) |> <| m_eflags := ld 2 |> in
  if cpl <? u16 (ld 1) mod 4
  then (set_reg ESP (ld 3) st1) <| m_segs ::= sets SS (u16 (ld 4)) |>
  else st1.

(** The effect of an instruction, after the instruction pointer has moved on.
    [Int] is the interrupt it causes, which is an argument. *)
Definition exec (int : Z -> mach D -> option (mach D)) (i : instr) st : option (mach D) :=
  let r := reg_at st in
  match i with
  | Movl_ir imm d => Some (set_reg d (u32 imm) st)
  | Movl_rr s d => Some (set_reg d (r s) st)
  | Movl_mr disp base d => Some (set_reg d (load32 (m_mem st) (u32 (r base + disp))) st)
  | Movl_rm s disp base => Some (st <| m_mem ::= fun m => store32 m (u32 (r base + disp)) (r s) |>)
  | Movl_ar addr d => Some (set_reg d (load32 (m_mem st) (linear st addr)) st)
  | Movl_cr c d => Some (set_reg d (getc c st) st)
  | Movl_rc s c => Some (setc c (r s) st)
  | Movw_ir imm d => Some (set_reg d (low16 (r d) imm) st)
  | Movw_rs s d => Some (st <| m_segs ::= sets d (u16 (r s)) |>)
  | Movw_rr s d => Some (set_reg d (low16 (r d) (r s)) st)
  | Movb_ir imm d => Some (set_reg d (low8 (r d) imm) st)
  | Orl_ir imm d => let v := Z.lor (r d) imm in Some (set_zf (v =? 0) (set_reg d v st))
  | Addl_ir imm d => let v := u32 (r d + imm) in Some (set_zf (v =? 0) (set_reg d v st))
  | Xorw_rr s d =>
      let v := Z.lxor (u16 (r d)) (u16 (r s)) in Some (set_zf (v =? 0) (set_reg d (low16 (r d) v) st))
  | Testb_ir imm d => Some (set_zf (Z.land (u8 (r d)) imm =? 0) st)
  | Pushl_r s => Some (push (r s) st)
  | Pushl_s s => Some (push (gets_ s (m_segs st)) st)
  | Pushl_i imm => Some (push (u32 imm) st)
  | Pushal =>
      let sp := r ESP in
      Some (push (r EDI) (push (r ESI) (push (r EBP) (push sp
             (push (r EBX) (push (r EDX) (push (r ECX) (push (r EAX) st))))))))
  | Popl_r d => Some (set_reg d (top st) (drop_stack 4 st))
  | Popl_s d => Some ((drop_stack 4 st) <| m_segs ::= sets d (u16 (top st)) |>)
  | Popal =>
      let ld i := load32 (m_mem st) (u32 (r ESP + 4 * i)) in
      Some (drop_stack 32 (set_reg EAX (ld 7) (set_reg ECX (ld 6) (set_reg EDX (ld 5) (set_reg EBX (ld 4)
             (set_reg EBP (ld 2) (set_reg ESI (ld 1) (set_reg EDI (ld 0) st))))))))
  | Inb port =>
      let '(v, d) := d_in (Port8 port) (m_dev st) in Some ((set_reg EAX (low8 (r EAX) v) st) <| m_dev := d |>)
  | Outb port => Some (st <| m_dev ::= d_out (Port8 port) (u8 (r EAX)) |>)
  | Outw => Some (st <| m_dev ::= d_out (Port16 (u16 (r EDX))) (u16 (r EAX)) |>)
  | Cli => Some (st <| m_eflags ::= fun f => Z.land f (Z.lnot FL_IF) |>)
  | Lgdt addr => Some (st <| m_gdtr := load_gdtr st (linear st addr) |>)
  | Jmp a => Some (jump a st)
  | Jmp_r s => Some (jump (r s) st)
  | Jnz a => Some (if has_bits (m_eflags st) FL_ZF then st else jump a st)
  | Ljmp sel a => far_jump sel a st
  | Call a => Some (jump a (push (m_eip st) st))
  | Call_a addr => Some (jump (load32 (m_mem st) (linear st addr)) (push (m_eip st) st))
  | Int n => int n st
  | Ret => Some (jump (top st) (drop_stack 4 st))
  | Iret => Some (iret st)
  end.
End asm.

Lemma u16_low16 v w : u16 (low16 v w) = u16 w.
Proof.
  unfold u16, low16. rewrite Zplus_mod_idemp_r.
  replace (v - v mod 2 ^ 16) with (v / 2 ^ 16 * 2 ^ 16) by (Z.to_euclidean_division_equations; lia).
  by rewrite Z.add_comm, Z.mod_add by lia.
Qed.

Lemma u8_low8 v w : u8 (low8 v w) = u8 w.
Proof.
  unfold u8, low8. rewrite Zplus_mod_idemp_r.
  replace (v - v mod 2 ^ 8) with (v / 2 ^ 8 * 2 ^ 8) by (Z.to_euclidean_division_equations; lia).
  by rewrite Z.add_comm, Z.mod_add by lia.
Qed.

(** ** Programs *)

(** Instructions that go on with the next one. *)
Definition straight (i : instr) : bool :=
  match i with
  | Jmp _ | Jmp_r _ | Jnz _ | Ljmp _ _ | Call _ | Call_a _ | Int _ | Ret | Iret => false
  | _ => true
  end.

(** The code in memory: the instruction at an address, and how long it is; the
    encoding of an instruction is not the same in code of 16 and of 32 bits. *)
Class Code := { code : Z -> option instr; len : Z -> instr -> Z }.

Section program.
Context {D : Type} `{!Device D} `{!Code}.
Implicit Types st : mach D.

(** The instructions [l] at address [a] and the following ones. *)
Fixpoint located (a : Z) (l : list instr) : Prop :=
  match l with
  | [] => True
  | i :: l' => code a = Some i /\ located (u32 (a + len a i)) l'
  end.

(** The address after [l]. *)
Fixpoint after (a : Z) (l : list instr) : Z := match l with [] => a | i :: l' => after (u32 (a + len a i)) l' end.

Definition advance (i : instr) st : mach D := jump (u32 (m_eip st + len (m_eip st) i)) st.

Variable int : Z -> mach D -> option (mach D).

Definition step st : option (mach D) := i ← code (m_eip st); exec int i (advance i st).

Fixpoint run (n : nat) st : option (mach D) := match n with O => Some st | S n' => st' ← step st; run n' st' end.

(** Straight-line code, without the program. *)
Fixpoint exec_seq (l : list instr) st : option (mach D) :=
  match l with [] => Some st | i :: l' => st' ← exec int i (advance i st); exec_seq l' st' end.

Lemma exec_straight i st st' : straight i = true -> exec int i st = Some st' -> m_eip st' = m_eip st.
Proof.
  destruct i; try done; cbn [exec]; intros _; try (by intros [= <-]).
  - intros [= <-]. by destruct c.
  - destruct (d_in _ _). by intros [= <-].
Qed.

Lemma exec_seq_app l k st : exec_seq (l ++ k) st = st' ← exec_seq l st; exec_seq k st'.
Proof.
  revert st; induction l as [|i l IH]; intros st; [done|]. cbn. destruct (exec int i (advance i st)); [|done]. apply IH.
Qed.

Lemma run_app n k st : run (n + k) st = st' ← run n st; run k st'.
Proof. revert st; induction n as [|n IH]; intros st; [done|]. cbn. destruct (step st); [|done]. cbn. apply IH. Qed.

Lemma run_seq l st :
  located (m_eip st) l -> forallb straight (removelast l) = true -> run (length l) st = exec_seq l st.
Proof.
  revert st; induction l as [|i l IH]; intros st; [done|]. cbn [located length run exec_seq]. intros [Hc Hl] Hs.
  unfold step. rewrite Hc. cbn [mbind option_bind]. destruct (exec int i (advance i st)) as [st'|] eqn:E; [|done]. cbn.
  destruct l as [|j l]; [done|]. change (removelast (i :: j :: l)) with (i :: removelast (j :: l)) in Hs. cbn [forallb] in Hs.
  apply andb_true_iff in Hs as [Hi Hs]. apply IH; [|done]. by rewrite (exec_straight _ _ _ Hi E).
Qed.

(** Some number of steps leads from [st] to [st']. *)
Definition reaches st st' : Prop := exists n, run n st = Some st'.

Lemma reaches_trans st1 st2 st3 : reaches st1 st2 -> reaches st2 st3 -> reaches st1 st3.
Proof. intros [n E1] [k E2]. exists (n + k)%nat. by rewrite run_app, E1. Qed.

Lemma reaches_seq l st st' :
  located (m_eip st) l -> forallb straight (removelast l) = true -> exec_seq l st = Some st' -> reaches st st'.
Proof. intros Hl Hs E. exists (length l). by rewrite run_seq. Qed.
End program.

(** ** The stack *)

Section stack.
Context {D : Type}.
Implicit Types st : mach D.

Definition pushes (l : list Z) st : mach D := foldl (fun st v => push v st) st l.

(** Pushing a list: the last element is on top, and nothing outside the new part
    of the stack changes. *)
Lemma pushes_spec l st :
  4 * Z.of_nat (length l) <= reg_at st ESP < 2 ^ 32 ->
  exists m', pushes l st = (set_reg ESP (reg_at st ESP - 4 * Z.of_nat (length l)) st) <| m_mem := m' |> /\
    same_outside (reg_at st ESP - 4 * Z.of_nat (length l)) (reg_at st ESP) (m_mem st) m' /\
    forall i v, l !! i = Some v -> is_u32 v -> load32 m' (reg_at st ESP - 4 * (Z.of_nat i + 1)) = v.
Proof.
  revert st; induction l as [|v l IH]; intros st Hsp.
  { exists (m_mem st). split_and!; [|done|done]. change (4 * Z.of_nat (length [])) with 0. rewrite Z.sub_0_r. by destruct st as [[] []]. }
  cbn [length] in *. set (sp := reg_at st ESP) in *. change (pushes (v :: l) st) with (pushes l (push v st)).
  assert (Esp : reg_at (push v st) ESP = sp - 4) by (change (u32 (sp - 4) = sp - 4); apply u32_id; wrap_lia).
  destruct (IH (push v st)) as (m' & E & Ho & Hl); rewrite Esp in *; [lia|].
  assert (Em : m_mem (push v st) = store32 (m_mem st) (sp - 4) v).
  { change (store32 (m_mem st) (u32 (sp - 4)) v = store32 (m_mem st) (sp - 4) v). f_equal. apply u32_id. wrap_lia. }
  exists m'. rewrite E. split_and!.
  - replace (sp - 4 - 4 * Z.of_nat (length l)) with (sp - 4 * Z.of_nat (S (length l))) by lia. done.
  - intros a Ha. rewrite Ho by lia. rewrite Em. apply load8_store32_out. lia.
  - intros [|i] w Hi Hw; cbn in Hi.
    + injection Hi as ->. rewrite (load32_ext (m_mem (push w st)) m'); [rewrite Em; replace (sp - 4 * (Z.of_nat 0 + 1)) with (sp - 4) by lia; by apply load32_store32_eq|].
      intros a Ha. apply Ho. lia.
    + replace (sp - 4 * (Z.of_nat (S i) + 1)) with (sp - 4 - 4 * (Z.of_nat i + 1)) by lia. by apply Hl.
Qed.

Lemma pushes_app l k st : pushes (l ++ k) st = pushes k (pushes l st).
Proof. apply foldl_app. Qed.

Lemma pushes_mem_ok l st : mem_ok (m_mem st) -> mem_ok (m_mem (pushes l st)).
Proof. revert st; induction l as [|v l IH]; intros st Hm; [done|]. apply IH. by apply mem_ok_store32. Qed.

Lemma pushes_reg l st r : r <> ESP -> reg_at (pushes l st) r = reg_at st r.
Proof. intros Hr. revert st; induction l as [|v l IH]; intros st; [done|]. etransitivity; [apply IH|by destruct r]. Qed.

Lemma pushes_segs l st : m_segs (pushes l st) = m_segs st.
Proof. revert st; induction l as [|v l IH]; intros st; [done|]. by etransitivity; [apply IH|]. Qed.

(** Changes of the other registers commute with pushes. *)
Lemma pushes_comm (f : mach D -> mach D) l st :
  (forall v st, push v (f st) = f (push v st)) -> pushes l (f st) = f (pushes l st).
Proof. intros Hf. revert st; induction l as [|v l IH]; intros st; [done|]. cbn. rewrite Hf. apply IH. Qed.

(** The stack read upwards from the stack pointer. *)
Lemma pushes_words l st :
  4 * Z.of_nat (length l) <= reg_at st ESP < 2 ^ 32 ->
  exists m', pushes (reverse l) st = (set_reg ESP (reg_at st ESP - 4 * Z.of_nat (length l)) st) <| m_mem := m' |> /\
    same_outside (reg_at st ESP - 4 * Z.of_nat (length l)) (reg_at st ESP) (m_mem st) m' /\
    forall i v, l !! i = Some v -> is_u32 v ->
      load32 m' (reg_at st ESP - 4 * Z.of_nat (length l) + 4 * Z.of_nat i) = v.
Proof.
  intros Hsp. destruct (pushes_spec (reverse l) st) as (m' & E & Ho & Hl); rewrite length_reverse in *; [done|].
  exists m'. split_and!; [done|done|]. intros i v Hi Hv. pose proof (lookup_lt_Some _ _ _ Hi).
  rewrite <- (Hl (length l - S i)%nat v); [f_equal; lia| |done].
  rewrite reverse_lookup by lia. replace (length l - S (length l - S i))%nat with i by lia. done.
Qed.

Lemma pushes_esp l st :
  4 * Z.of_nat (length l) <= reg_at st ESP < 2 ^ 32 ->
  reg_at (pushes l st) ESP = reg_at st ESP - 4 * Z.of_nat (length l).
Proof. intros Hsp. destruct (pushes_spec l st) as (m' & -> & _); [done|]. done. Qed.
End stack.

Section located.
Context `{!Code}.

Lemma after_app a l k : after a (l ++ k) = after (after a l) k.
Proof. revert a; induction l as [|i l IH]; intros a; [done|]. apply IH. Qed.

Lemma located_app a l k : located a (l ++ k) <-> located a l /\ located (after a l) k.
Proof. revert a; induction l as [|i l IH]; intros a; cbn; [tauto|]. rewrite IH. tauto. Qed.
End located.

(** ** Evaluation *)

(** Executes instructions on a state given by its parts; arithmetic and accesses
    to memory are left as they are. *)
Ltac asm_parts st :=
  destruct st as [[eax ecx edx ebx esp ebp esi edi] [cs ds es fs gs ss] eip fl cr0 cr3 cr4 gdtr mem dev].
Ltac asm_exec :=
  lazy [exec_seq mbind option_bind app exec advance jump set_reg reg_at push setr getr sets gets_ m_regs m_segs m_eip
    m_eflags m_cr0 m_cr3 m_cr4 m_gdtr m_mem m_dev update eta eta_mach eta_regs eta_segs r_eax r_ecx r_edx r_ebx r_esp
    r_ebp r_esi r_edi s_cs s_ds s_es s_fs s_gs s_ss pushes foldl top drop_stack setc getc after set_zf].

(** Removes the wrap-around of address computations that stay in range. *)
Ltac asm_addr :=
  repeat match goal with
  | |- context [u32 ?x] => lazymatch x with context [u32 _] => fail | _ => rewrite (u32_id x) by wrap_lia end
  end;
  repeat match goal with
  | |- context [?x + ?a + ?b] =>
      is_ground a; is_ground b; let c := eval vm_compute in (a + b) in replace (x + a + b) with (x + c) by lia
  end.
