(* ===== verification/TrapAsm.v ===== *)
(** swtch.S, trapasm.S, the entry points that vectors.pl generates and the stubs
    of usys.S: the code between the C of the kernel and the processor.

    A call of a C function is its entry, with the return address on top of the
    stack and the arguments above it, and any later state in which it has
    returned.  The theorems say what holds at the entry and what follows from
    such a state. *)
From S2P Require Import Prelude Memory Kernel Spinlock Hw Sched Inode Vm Proc Trap Apic Main Ints Asm.

(** ** Contexts (proc.h) *)

Record context := Mkcontext { ctx_edi : Z; ctx_esi : Z; ctx_ebx : Z; ctx_ebp : Z; ctx_eip : Z }.

Definition load_context (m : memory) (a : Z) : context :=
  Mkcontext (load32 m a) (load32 m (a + 4)) (load32 m (a + 8)) (load32 m (a + 12)) (load32 m (a + 16)).

Definition swtch_S : list instr := [
  Movl_mr 4 ESP EAX;
  Movl_mr 8 ESP EDX;
  Pushl_r EBP;
  Pushl_r EBX;
  Pushl_r ESI;
  Pushl_r EDI;
  Movl_rm ESP 0 EAX;
  Movl_rr EDX ESP;
  Popl_r EDI;
  Popl_r ESI;
  Popl_r EBX;
  Popl_r EBP;
  Ret].

(** Registers hold 32-bit values, and segment registers 16-bit ones. *)
Definition regs_ok (r : regs) : Prop := forall x, is_u32 (getr x r).
Definition segs_ok (s : segs) : Prop := forall x, 0 <= gets_ x s < 2 ^ 16.

Section swtch.
Context {D : Type} `{!Device D} `{!Code}.
Variable int : Z -> mach D -> option (mach D).
Implicit Types st : mach D.

(** The context of a caller: the registers that calls preserve, and the address
    the call returns to. *)
Definition caller_context st : context :=
  Mkcontext (reg_at st EDI) (reg_at st ESI) (reg_at st EBX) (reg_at st EBP) (top st).

(** The state runs on from the context [c], whose words end at [sp]. *)
Definition resumed (c : context) (sp : Z) st : Prop :=
  reg_at st EDI = ctx_edi c /\ reg_at st ESI = ctx_esi c /\ reg_at st EBX = ctx_ebx c /\
  reg_at st EBP = ctx_ebp c /\ m_eip st = ctx_eip c /\ reg_at st ESP = sp.

(** What [swtch] does not touch. *)
Definition same_system st st' : Prop :=
  m_segs st' = m_segs st /\ m_eflags st' = m_eflags st /\ m_cr0 st' = m_cr0 st /\ m_cr3 st' = m_cr3 st /\
  m_cr4 st' = m_cr4 st /\ m_gdtr st' = m_gdtr st /\ m_dev st' = m_dev st.


Lemma swtch_exec st :
  let old := load32 (m_mem st) (u32 (reg_at st ESP + 4)) in
  let new := load32 (m_mem st) (u32 (reg_at st ESP + 8)) in
  let st1 := pushes [reg_at st EBP; reg_at st EBX; reg_at st ESI; reg_at st EDI] st in
  let m := store32 (m_mem st1) (u32 (old + 0)) (reg_at st1 ESP) in
  exists st', exec_seq int swtch_S st = Some st' /\ m_mem st' = m /\ same_system st st' /\
    (new + 20 < 2 ^ 32 -> 0 <= new -> resumed (load_context m new) (new + 20) st').
Proof.
  intros old new st1 m. subst old new st1 m. asm_parts st. unfold swtch_S, resumed, same_system. asm_exec.
  set (m := store32 _ _ _). set (new := load32 mem (u32 (esp + 8))). eexists. do 2 (split; [reflexivity|]).
  split; [done|]. intros Hn Hn0. unfold load_context. cbn [ctx_edi ctx_esi ctx_ebx ctx_ebp ctx_eip].
  cbn [m_regs m_eip r_esp r_ebx r_ebp r_esi r_edi].
  assert (E1 : u32 (new + 4) = new + 4) by (apply u32_id; wrap_lia).
  assert (E2 : u32 (new + 4 + 4) = new + 8) by (rewrite u32_id; wrap_lia).
  assert (E3 : u32 (new + 8 + 4) = new + 12) by (rewrite u32_id; wrap_lia).
  assert (E4 : u32 (new + 12 + 4) = new + 16) by (rewrite u32_id; wrap_lia).
  rewrite E1, E2, E3, E4. split_and!; [done..|]. rewrite u32_id; wrap_lia.
Qed.

(** The first [n] bytes from [a] and [k] from [b] do not overlap. *)
Definition apart (a n b k : Z) : Prop := a + n <= b \/ b + k <= a.

(** A call [swtch(old, new)]: the arguments are on the stack; [*old], the part of
    the stack in use with the four words below it, and [*new] do not overlap. *)
Record swtch_call st (old new : Z) : Prop := {
  sc_code : located (m_eip st) swtch_S;
  sc_regs : regs_ok (m_regs st);
  sc_sp : 16 <= reg_at st ESP <= 2 ^ 32 - 12;
  sc_old : load32 (m_mem st) (reg_at st ESP + 4) = old;
  sc_new : load32 (m_mem st) (reg_at st ESP + 8) = new;
  sc_old_range : 0 <= old < 2 ^ 32;
  sc_new_range : 0 <= new < 2 ^ 32 - 20;
  sc_old_new : apart old 4 new 20;
  sc_old_sp : apart old 4 (reg_at st ESP - 16) 20;
  sc_new_sp : apart new 20 (reg_at st ESP - 16) 16;
}.

Lemma load_context_ext m m' a :
  (forall b, a <= b < a + 20 -> load8 m' b = load8 m b) -> load_context m' a = load_context m a.
Proof. intros Hm. unfold load_context. f_equal; apply load32_ext; intros i Hi; apply Hm; lia. Qed.

(** The caller's context is saved below its stack, [*old] points to it, and the
    processor runs on from the context [*new]. *)
Lemma swtch_spec st old new :
  swtch_call st old new ->
  exists st', run int 13 st = Some st' /\ same_system st st' /\
    resumed (load_context (m_mem st) new) (new + 20) st' /\
    load32 (m_mem st') old = reg_at st ESP - 16 /\
    load_context (m_mem st') (reg_at st ESP - 16) = caller_context st /\
    forall a, ~ (reg_at st ESP - 16 <= a < reg_at st ESP) -> ~ (old <= a < old + 4) ->
      load8 (m_mem st') a = load8 (m_mem st) a.
Proof.
  intros [Hc Hr Hsp Ho Hn Ho4 Hn20 Hon Hos Hns]. change 13%nat with (length swtch_S). rewrite run_seq by done.
  destruct (swtch_exec st) as (st' & -> & Em & Hs & Hres).
  rewrite (u32_id (reg_at st ESP + 4)), (u32_id (reg_at st ESP + 8)) in * by wrap_lia. rewrite Ho, Hn in *.
  destruct (pushes_spec [reg_at st EBP; reg_at st EBX; reg_at st ESI; reg_at st EDI] st) as (m1 & E1 & Hm1 & Hl).
  { change (length _) with 4%nat. lia. }
  change (4 * Z.of_nat (length _)) with 16 in E1, Hm1. rewrite E1 in Em, Hres. set (sp := reg_at st ESP) in *.
  change (m_mem st' = store32 m1 (u32 (old + 0)) (sp - 16)) in Em.
  rewrite Z.add_0_r, u32_id in Em, Hres by wrap_lia. unfold apart in *.
  assert (Hsame : forall a, ~ (sp - 16 <= a < sp) -> ~ (old <= a < old + 4) -> load8 (m_mem st') a = load8 (m_mem st) a).
  { intros a Ha1 Ha2. rewrite Em, load8_store32_out by lia. apply Hm1. lia. }
  exists st'. split_and!; [done|done| | | |done].
  - change (new + 20 < 2 ^ 32 -> 0 <= new -> resumed (load_context (store32 m1 old (sp - 16)) new) (new + 20) st') in Hres.
    rewrite <- Em, (load_context_ext (m_mem st) (m_mem st')) in Hres; [apply Hres; lia|]. intros b Hb. apply Hsame; lia.
  - rewrite Em. apply load32_store32_eq. wrap_lia.
  - assert (Hp : forall i v, [reg_at st EBP; reg_at st EBX; reg_at st ESI; reg_at st EDI] !! i = Some v -> is_u32 v ->
        load32 (m_mem st') (sp - 4 * (Z.of_nat i + 1)) = v).
    { intros i v Hi Hv. rewrite <- (Hl i v Hi Hv). apply load32_ext. intros a Ha. rewrite Em. apply load8_store32_out.
      apply lookup_lt_Some in Hi. cbn [length] in Hi. lia. }
    unfold load_context, caller_context. f_equal.
    + apply (Hp 3%nat); [done|apply (Hr EDI)].
    + replace (sp - 16 + 4) with (sp - 12) by lia. apply (Hp 2%nat); [done|apply (Hr ESI)].
    + replace (sp - 16 + 8) with (sp - 8) by lia. apply (Hp 1%nat); [done|apply (Hr EBX)].
    + replace (sp - 16 + 12) with (sp - 4) by lia. apply (Hp 0%nat); [done|apply (Hr EBP)].
    + replace (sp - 16 + 16) with sp by lia. apply load32_ext. intros a Ha. apply Hsame; lia.
Qed.
End swtch.

(** ** Trap frames (x86.h) *)

Record trapframe := Mktrapframe {
  t_edi : Z; t_esi : Z; t_ebp : Z; t_oesp : Z; t_ebx : Z; t_edx : Z; t_ecx : Z; t_eax : Z;
  t_gs : Z; t_fs : Z; t_es : Z; t_ds : Z; t_trapno : Z;
  t_err : Z; t_eip : Z; t_cs : Z; t_eflags : Z;
  t_esp : Z; t_ss : Z;
}.
#[export] Instance eta_trapframe : Eta trapframe := fun f =>
  Mktrapframe (t_edi f) (t_esi f) (t_ebp f) (t_oesp f) (t_ebx f) (t_edx f) (t_ecx f) (t_eax f) (t_gs f) (t_fs f) (t_es f)
    (t_ds f) (t_trapno f) (t_err f) (t_eip f) (t_cs f) (t_eflags f) (t_esp f) (t_ss f).

Definition load_tf (m : memory) (a : Z) : trapframe :=
  Mktrapframe (load32 m a) (load32 m (a + 4)) (load32 m (a + 8)) (load32 m (a + 12)) (load32 m (a + 16))
    (load32 m (a + 20)) (load32 m (a + 24)) (load32 m (a + tf_eax)) (load16 m (a + 32)) (load16 m (a + 36))
    (load16 m (a + tf_es)) (load16 m (a + tf_ds)) (load32 m (a + tf_trapno)) (load32 m (a + tf_err))
    (load32 m (a + tf_eip)) (load16 m (a + tf_cs)) (load32 m (a + tf_eflags)) (load32 m (a + tf_esp))
    (load16 m (a + tf_ss)).

Lemma load16_load32 m a : mem_ok m -> load16 m a = u16 (load32 m a).
Proof.
  intros Hm. unfold load16, load32, u16. pose proof (Hm a). pose proof (Hm (a + 1)). unfold is_u8 in *.
  change (2 ^ 24) with (2 ^ 8 * 2 ^ 16). rewrite <- !Z.add_assoc. symmetry.
  replace (load8 m a + (2 ^ 8 * load8 m (a + 1) + (2 ^ 16 * load8 m (a + 2) + 2 ^ 8 * 2 ^ 16 * load8 m (a + 3))))
    with (load8 m a + 2 ^ 8 * load8 m (a + 1) + (load8 m (a + 2) + 2 ^ 8 * load8 m (a + 3)) * 2 ^ 16) by lia.
  rewrite Z.mod_add by lia. apply Z.mod_small. lia.
Qed.

(** ** The code *)

(** The labels that the assembly files use and do not define. *)
Class Labels := { alltraps_addr : Z; trap_addr : Z }.

Section traps.
Context {D : Type} `{!Device D} `{!Code} {I : Image} {L : Linked} {T : Labels}.
Implicit Types st : mach D.

(** [vectorn] of vectors.pl. *)
Definition vector_S (n : Z) : list instr :=
  (if negb ((n =? 8) || ((n >=? 10) && (n <=? 14)) || (n =? 17)) then [Pushl_i 0] else []) ++
  [Pushl_i n; Jmp alltraps_addr].

(** [alltraps] up to the call of [trap], and from there to [trapret]. *)
Definition alltraps_call : list instr := [
  Pushl_s DS;
  Pushl_s ES;
  Pushl_s FS;
  Pushl_s GS;
  Pushal;
  Movw_ir (Z.shiftl SEG_KDATA 3) EAX;
  Movw_rs EAX DS;
  Movw_rs EAX ES;
  Movw_ir (Z.shiftl SEG_KCPU 3) EAX;
  Movw_rs EAX FS;
  Movw_rs EAX GS;
  Pushl_r ESP;
  Call trap_addr].
Definition alltraps_back : list instr := [Addl_ir 4 ESP].

Definition trapret_S : list instr := [
  Popal;
  Popl_s GS;
  Popl_s FS;
  Popl_s ES;
  Popl_s DS;
  Addl_ir 0x8 ESP;
  Iret].

Definition alltraps_S : list instr := alltraps_call ++ alltraps_back ++ trapret_S.

(** The code is in memory. *)
Record loaded : Prop := {
  loaded_alltraps : located alltraps_addr alltraps_S;
  loaded_trapret : after alltraps_addr (alltraps_call ++ alltraps_back) = trapret_addr;
  loaded_vectors n : (n < 256)%nat -> located (vectors n) (vector_S (Z.of_nat n));
}.

(** The parts of [alltraps]. *)
Lemma loaded_parts : loaded ->
  located alltraps_addr alltraps_call /\ located (after alltraps_addr alltraps_call) alltraps_back /\
  located trapret_addr trapret_S.
Proof.
  intros [Ha Et _]. unfold alltraps_S in Ha. apply located_app in Ha as [H1 H2]. apply located_app in H2 as [H2 H3].
  rewrite <- Et, after_app. done.
Qed.

(** ** Interrupts *)

Definition FL_TF : Z := 0x100.
Definition FL_NT : Z := 0x4000.
Definition FL_RF : Z := 0x10000.
Definition FL_VM : Z := 0x20000.

(** The exceptions for which the processor pushes an error code. *)
Definition error_code (n : Z) : bool := existsb (Z.eqb n) [8; 10; 11; 12; 13; 14; 17].

Definition user_mode st : bool := s_cs (m_segs st) mod 4 =? 3.

(** The words that the processor pushes. *)
Definition hw_words st : list Z :=
  (if user_mode st then [s_ss (m_segs st); reg_at st ESP] else []) ++ [m_eflags st; s_cs (m_segs st); m_eip st].

Definition hw_stack (ss0 esp0 : Z) st : mach D :=
  if user_mode st then (set_reg ESP esp0 st) <| m_segs ::= sets SS ss0 |> else st.

(** The flags that a gate clears: an interrupt gate also disables interrupts. *)
Definition gate_mask (g : gatedesc) : Z :=
  let m := Z.lor (Z.lor FL_TF FL_NT) (Z.lor FL_RF FL_VM) in if gd_type g =? STS_IG32 then Z.lor FL_IF m else m.

(** What an interrupt does: [idt] is the descriptor table, [ss0] and [esp0] are
    the kernel stack of the task state segment, [err] is the error code if there
    is one, and [soft] tells the [int] instruction.  An interrupt that may not
    use the gate causes another one, which is not modelled. *)
Definition interrupt (idt : list gatedesc) (ss0 esp0 : Z) (soft : bool) (err n : Z) st : option (mach D) :=
  g ← idt !! Z.to_nat n;
  if (gd_p g =? 0) || (soft && (gd_dpl g <? s_cs (m_segs st) mod 4)) then None else
  let st1 := pushes (hw_words st ++ if error_code n && negb soft then [err] else []) (hw_stack ss0 esp0 st) in
  Some (st1 <| m_segs ::= sets CS (gd_cs g) |> <| m_eip := gate_offset g |>
            <| m_eflags ::= fun f => Z.land f (Z.lnot (gate_mask g)) |>).

Variable int : Z -> mach D -> option (mach D).

Lemma vector_exec n st :
  exec_seq int (vector_S n) st =
    Some (jump alltraps_addr (pushes ((if error_code n then [] else [0]) ++ [u32 n]) st)).
Proof.
  unfold vector_S. replace (error_code n) with ((n =? 8) || ((n >=? 10) && (n <=? 14)) || (n =? 17)).
  { by destruct (_ || _ || _). }
  unfold error_code. cbn. rewrite Z.geb_leb. apply eq_true_iff_eq.
  rewrite !orb_true_iff, andb_true_iff, !Z.eqb_eq, !Z.leb_le. lia.
Qed.

Lemma vector_straight n : forallb straight (removelast (vector_S n)) = true.
Proof. unfold vector_S. by destruct (negb _). Qed.

(** The code that builds the frame only pushes words and sets registers that are
    not pushed any more. *)
Definition set_kernel (a eax : Z) st : mach D :=
  (set_reg EAX eax (jump a st)) <| m_segs ::= fun s =>
    Mksegs (s_cs s) (Z.shiftl SEG_KDATA 3) (Z.shiftl SEG_KDATA 3) (Z.shiftl SEG_KCPU 3) (Z.shiftl SEG_KCPU 3) (s_ss s) |>.

Lemma alltraps_exec st :
  let s1 := pushes [s_ds (m_segs st); s_es (m_segs st); s_fs (m_segs st); s_gs (m_segs st)] st in
  let s2 := pushes [reg_at st EAX; reg_at st ECX; reg_at st EDX; reg_at st EBX; reg_at s1 ESP; reg_at st EBP;
                    reg_at st ESI; reg_at st EDI] s1 in
  exists eax, exec_seq int alltraps_call st =
    Some (set_kernel trap_addr eax (pushes [reg_at s2 ESP; after (m_eip st) alltraps_call] s2)).
Proof.
  intros s1 s2. subst s1 s2. asm_parts st. unfold alltraps_call, set_kernel. asm_exec. rewrite !u16_low16.
  eexists. reflexivity.
Qed.

(** The state that the frame [f] at [tf] describes: of a return to user mode it
    has the stack too. *)
Definition restored (f : trapframe) (tf : Z) st : mach D :=
  let user := 0 <? t_cs f mod 4 in
  Mkmach
    (Mkregs (t_eax f) (t_ecx f) (t_edx f) (t_ebx f) (if user then t_esp f else tf + tf_esp) (t_ebp f) (t_esi f) (t_edi f))
    (Mksegs (t_cs f) (t_ds f) (t_es f) (t_fs f) (t_gs f) (if user then t_ss f else s_ss (m_segs st)))
    (t_eip f) (t_eflags f) (m_cr0 st) (m_cr3 st) (m_cr4 st) (m_gdtr st) (m_mem st) (m_dev st).

Lemma trapret_exec st tf :
  mem_ok (m_mem st) -> reg_at st ESP = tf -> 0 <= tf <= 2 ^ 32 - 76 -> s_cs (m_segs st) mod 4 = 0 ->
  exec_seq int trapret_S st = Some (restored (load_tf (m_mem st) tf) tf st).
Proof.
  intros Hm Esp Hr Hcs. asm_parts st. cbn in Hm, Esp, Hcs. subst esp. unfold trapret_S. asm_exec. unfold iret. asm_exec.
  rewrite Hcs. asm_addr. unfold restored, load_tf. asm_exec. rewrite !load16_load32 by done.
  cbn [t_cs t_eax t_ecx t_edx t_ebx t_esp t_ebp t_esi t_edi t_ds t_es t_fs t_gs t_ss t_eip t_eflags].
  change (4 * 0) with 0. rewrite Z.add_0_r. change (u16 (load32 mem (tf + tf_cs))) with (u16 (load32 mem (tf + 60))).
  by destruct (0 <? _).
Qed.

(** The frame of an interrupt [n] with error code [err] in state [st], at [tf].
    From the kernel the last two fields are words of the interrupted stack. *)
Definition frame_of (n err tf : Z) st : trapframe :=
  let sp := reg_at st ESP in
  Mktrapframe (reg_at st EDI) (reg_at st ESI) (reg_at st EBP) (tf + 32) (reg_at st EBX) (reg_at st EDX) (reg_at st ECX)
    (reg_at st EAX) (s_gs (m_segs st)) (s_fs (m_segs st)) (s_es (m_segs st)) (s_ds (m_segs st)) n
    (if error_code n then err else 0) (m_eip st) (s_cs (m_segs st)) (m_eflags st)
    (if user_mode st then sp else load32 (m_mem st) sp)
    (if user_mode st then s_ss (m_segs st) else load16 (m_mem st) (sp + 4)).

(** The words on the kernel stack when [trap] is called, from the stack pointer up. *)
Definition entry_words (n err tf : Z) st : list Z :=
  [after alltraps_addr alltraps_call; tf; reg_at st EDI; reg_at st ESI; reg_at st EBP; tf + 32; reg_at st EBX; reg_at st EDX;
   reg_at st ECX; reg_at st EAX; s_gs (m_segs st); s_fs (m_segs st); s_es (m_segs st); s_ds (m_segs st); n;
   if error_code n then err else 0; m_eip st; s_cs (m_segs st); m_eflags st] ++
  if user_mode st then [reg_at st ESP; s_ss (m_segs st)] else [].

(** The address of the frame. *)
Definition frame_addr (esp0 : Z) st : Z := if user_mode st then esp0 - 76 else reg_at st ESP - 68.

(** [alltraps] after words were pushed and registers other than those of the frame
    set. *)
Lemma alltraps_after (C : mach D -> mach D) l st0 tf :
  (forall v st, push v (C st) = C (push v st)) -> (forall st, m_regs (C st) = m_regs st) ->
  (forall st, m_eip (C st) = alltraps_addr) ->
  (forall st, exists cs, m_segs (C st) = (m_segs st) <| s_cs := cs |>) ->
  tf = reg_at st0 ESP - 4 * Z.of_nat (length l) - 48 -> 0 <= tf -> reg_at st0 ESP < 2 ^ 32 ->
  exists eax, exec_seq int alltraps_call (C (pushes l st0)) =
    Some (set_kernel trap_addr eax (C (pushes (l ++ [s_ds (m_segs st0); s_es (m_segs st0); s_fs (m_segs st0);
      s_gs (m_segs st0); reg_at st0 EAX; reg_at st0 ECX; reg_at st0 EDX; reg_at st0 EBX; tf + 32; reg_at st0 EBP;
      reg_at st0 ESI; reg_at st0 EDI; tf; after alltraps_addr alltraps_call]) st0))).
Proof.
  intros Hc Hr He Hs Etf Htf Hsp. set (Y := pushes l st0).
  assert (Esp : reg_at Y ESP = tf + 48) by (subst Y; rewrite pushes_esp by lia; lia).
  assert (HR : forall r, r <> ESP -> reg_at (C Y) r = reg_at st0 r).
  { intros r Hne. transitivity (reg_at Y r); [unfold reg_at; by rewrite Hr|by apply pushes_reg]. }
  assert (HC : forall k st, pushes k (C st) = C (pushes k st)) by (intros; by apply pushes_comm).
  assert (HE : forall st, reg_at (C st) ESP = reg_at st ESP) by (intros; unfold reg_at; by rewrite Hr).
  destruct (Hs Y) as [cs Ecs]. destruct (alltraps_exec (C Y)) as [eax E]. exists eax. rewrite E, Ecs, !HR by done. clear E.
  rewrite He, !HC, !HE. change (m_segs Y) with (m_segs (pushes l st0)). rewrite pushes_segs. do 3 f_equal.
  rewrite <- !pushes_app. fold Y. cbn [s_ds s_es s_fs s_gs update eta eta_segs app].
  rewrite (pushes_esp [_; _; _; _]), Esp by (rewrite Esp; change (length _) with 4%nat; lia).
  replace (tf + 48 - _) with (tf + 32) by (change (length _) with 4%nat; lia).
  rewrite (pushes_esp [_; _; _; _; _; _; _; _; _; _; _; _]), Esp by (rewrite Esp; change (length _) with 12%nat; lia).
  replace (tf + 48 - _) with tf by (change (length _) with 12%nat; lia).
  rewrite (pushes_app l). done.
Qed.

Record state_ok st : Prop := {
  so_regs : regs_ok (m_regs st);
  so_segs : segs_ok (m_segs st);
  so_eip : is_u32 (m_eip st);
  so_eflags : is_u32 (m_eflags st);
  so_mem : mem_ok (m_mem st);
}.

(** There is room on the kernel stack for the frame and the call. *)
Definition stack_room (esp0 : Z) st : Prop := 8 <= frame_addr esp0 st /\ frame_addr esp0 st + 76 < 2 ^ 32.

(** From the interrupt to the call of [trap]: a sequence of pushes. *)
Lemma entry_exec idt ss0 esp0 (soft : bool) err (n : nat) g st :
  loaded -> (n < 256)%nat -> idt !! n = Some g -> gate_to (vectors n) (Z.of_nat n =? T_SYSCALL) g ->
  (soft = true -> Z.of_nat n = T_SYSCALL) -> stack_room esp0 st ->
  let tf := frame_addr esp0 st in
  exists k eax, (st1 ← interrupt idt ss0 esp0 soft err (Z.of_nat n) st; run int k st1) =
    Some (set_kernel trap_addr eax
      ((pushes (reverse (entry_words (Z.of_nat n) err tf st)) (hw_stack ss0 esp0 st))
         <| m_segs ::= sets CS (Z.shiftl SEG_KCODE 3) |> <| m_eflags ::= fun f => Z.land f (Z.lnot (gate_mask g)) |>)).
Proof.
  intros Hl Hn Hg (Eoff & Ecs & Ep & Es & Hty) Hsoft [Hr1 Hr2] tf. unfold interrupt. rewrite Nat2Z.id, Hg. cbn [mbind option_bind].
  rewrite Ep, Ecs, Eoff.
  assert (Hd : soft && (gd_dpl g <? s_cs (m_segs st) mod 4) = false).
  { destruct soft; [|done]. rewrite Hsoft in Hty by done. destruct Hty as [_ ->]. cbn [andb]. apply Z.ltb_ge.
    pose proof (Z.mod_pos_bound (s_cs (m_segs st)) 4). lia. }
  assert (He : error_code (Z.of_nat n) && negb soft = error_code (Z.of_nat n)).
  { destruct soft; [|apply andb_true_r]. by rewrite Hsoft. }
  rewrite Hd, He. cbn [orb Z.eqb mbind option_bind].
  set (l0 := hw_words st ++ _). set (st0 := hw_stack ss0 esp0 st).
  set (A := fun a (st : mach D) => st <| m_segs ::= sets CS 8 |> <| m_eip := a |>
                             <| m_eflags ::= fun f => Z.land f (Z.lnot (gate_mask g)) |>).
  change (_ <| m_eflags ::= _ |>) with (A (vectors n) (pushes l0 st0)) at 1.
  set (l1 := (if error_code (Z.of_nat n) then [] else [0]) ++ [u32 (Z.of_nat n)]).
  assert (Hlen : length (l0 ++ l1) = if user_mode st then 7%nat else 5%nat).
  { subst l0 l1. unfold hw_words. by destruct (user_mode st), (error_code (Z.of_nat n)). }
  destruct (alltraps_after (A alltraps_addr) (l0 ++ l1) st0 tf) as [eax E]; try done.
  { intros s. by eexists. }
  { rewrite Hlen. subst tf st0. unfold frame_addr, hw_stack. destruct (user_mode st); cbn; lia. }
  { lia. }
  { subst tf st0. unfold frame_addr, hw_stack in *. destruct (user_mode st); cbn in *; lia. }
  exists (length (vector_S (Z.of_nat n)) + length alltraps_call)%nat, eax. rewrite run_app.
  rewrite run_seq by (by apply loaded_vectors || apply vector_straight).
  rewrite vector_exec. cbn [mbind option_bind]. fold l1. rewrite (pushes_comm (A (vectors n))) by done.
  rewrite <- pushes_app.
  change (jump alltraps_addr (A (vectors n) (pushes (l0 ++ l1) st0))) with (A alltraps_addr (pushes (l0 ++ l1) st0)).
  rewrite run_seq; [|by apply loaded_parts|done]. rewrite E.
  match goal with |- Some (set_kernel _ _ (A _ (pushes ?k _))) = _ => replace k with (reverse (entry_words (Z.of_nat n) err tf st)) end.
  { done. }
  unfold entry_words. subst l0 l1 st0. unfold hw_words, hw_stack. rewrite (u32_id (Z.of_nat n)) by wrap_lia.
  by destruct (user_mode st), (error_code (Z.of_nat n)).
Qed.

(** The call of [trap] for interrupt [n] of the state [st]: the argument points to
    the frame, which holds the interrupted state, and the data segments are the
    kernel's. *)
Record trap_called (esp0 ss0 n err tf : Z) st st' : Prop := {
  tc_eip : m_eip st' = trap_addr;
  tc_esp : reg_at st' ESP = tf - 8;
  tc_ret : load32 (m_mem st') (tf - 8) = after alltraps_addr alltraps_call;
  tc_arg : load32 (m_mem st') (tf - 4) = tf;
  tc_frame : load_tf (m_mem st') tf = frame_of n err tf st;
  tc_segs : m_segs st' = Mksegs (Z.shiftl SEG_KCODE 3) (Z.shiftl SEG_KDATA 3) (Z.shiftl SEG_KDATA 3)
    (Z.shiftl SEG_KCPU 3) (Z.shiftl SEG_KCPU 3) (if user_mode st then ss0 else s_ss (m_segs st));
  tc_mem : same_outside (tf - 8) (if user_mode st then esp0 else reg_at st ESP) (m_mem st) (m_mem st');
  tc_ok : mem_ok (m_mem st');
  tc_if : n <> T_SYSCALL -> Z.land (m_eflags st') FL_IF = 0;
}.

Lemma gate_mask_if g f : gd_type g = STS_IG32 -> Z.land (Z.land f (Z.lnot (gate_mask g))) FL_IF = 0.
Proof. intros Hg. unfold gate_mask. rewrite Hg, <- Z.land_assoc. cbn. apply Z.land_0_r. Qed.

(** The words of the frame in memory give the frame. *)
Lemma load_frame m n err tf st sp :
  mem_ok m -> state_ok st -> is_u32 n -> is_u32 err -> is_u32 (tf + 32) -> sp = (if user_mode st then tf + 76 else tf + 68) ->
  (user_mode st = false -> reg_at st ESP = sp) -> same_outside (tf - 8) sp (m_mem st) m ->
  (forall i v, entry_words n err tf st !! i = Some v -> is_u32 v -> load32 m (tf - 8 + 4 * Z.of_nat i) = v) ->
  load_tf m tf = frame_of n err tf st.
Proof.
  intros Hm [Hr Hs He Hf Hm0] Hn Herr Htf Esp Ek Hout Hw.
  assert (H32 : forall a i v, a = tf - 8 + 4 * Z.of_nat i -> entry_words n err tf st !! i = Some v -> is_u32 v -> load32 m a = v).
  { intros a i v -> ? ?. by apply Hw. }
  assert (H16 : forall a i v, a = tf - 8 + 4 * Z.of_nat i -> entry_words n err tf st !! i = Some v -> 0 <= v < 2 ^ 16 -> load16 m a = v).
  { intros a i v -> Hi Hv. rewrite load16_load32, (Hw i v) by (done || wrap_lia). apply Z.mod_small. lia. }
  unfold load_tf, frame_of.
  assert (Hss : (load32 m (tf + tf_esp), load16 m (tf + tf_ss)) = (if user_mode st then reg_at st ESP else load32 (m_mem st) (reg_at st ESP),
     if user_mode st then s_ss (m_segs st) else load16 (m_mem st) (reg_at st ESP + 4))).
  { destruct (user_mode st) eqn:Eu; f_equal.
    - apply (H32 _ 19%nat); [unfold tf_esp; lia|unfold entry_words; by rewrite Eu|apply (Hr ESP)].
    - apply (H16 _ 20%nat); [unfold tf_ss; lia|unfold entry_words; by rewrite Eu|apply (Hs SS)].
    - rewrite (Ek eq_refl), Esp. apply load32_ext. intros i Hi. apply Hout. unfold tf_esp in *. lia.
    - rewrite (Ek eq_refl), Esp. replace (tf + 68 + 4) with (tf + tf_ss) by (unfold tf_ss; lia).
      unfold load16, tf_ss. by rewrite !Hout by lia. }
  injection Hss as -> ->. f_equal.
  - apply (H32 _ 2%nat); [lia|done|apply (Hr EDI)].
  - apply (H32 _ 3%nat); [lia|done|apply (Hr ESI)].
  - apply (H32 _ 4%nat); [lia|done|apply (Hr EBP)].
  - apply (H32 _ 5%nat); [lia|done|done].
  - apply (H32 _ 6%nat); [lia|done|apply (Hr EBX)].
  - apply (H32 _ 7%nat); [lia|done|apply (Hr EDX)].
  - apply (H32 _ 8%nat); [lia|done|apply (Hr ECX)].
  - apply (H32 _ 9%nat); [unfold tf_eax; lia|done|apply (Hr EAX)].
  - apply (H16 _ 10%nat); [lia|done|apply (Hs GS)].
  - apply (H16 _ 11%nat); [lia|done|apply (Hs FS)].
  - apply (H16 _ 12%nat); [unfold tf_es; lia|done|apply (Hs ES)].
  - apply (H16 _ 13%nat); [unfold tf_ds; lia|done|apply (Hs DS)].
  - apply (H32 _ 14%nat); [unfold tf_trapno; lia|done|done].
  - apply (H32 _ 15%nat); [unfold tf_err; lia|done|destruct (error_code n); [done|wrap_lia]].
  - apply (H32 _ 16%nat); [unfold tf_eip; lia|done|done].
  - apply (H16 _ 17%nat); [unfold tf_cs; lia|done|apply (Hs CS)].
  - apply (H32 _ 18%nat); [unfold tf_eflags; lia|done|done].
Qed.

Lemma trap_entry_spec idt ss0 esp0 (soft : bool) err (n : nat) g st :
  loaded -> state_ok st -> (n < 256)%nat -> is_u32 err -> is_u32 (after alltraps_addr alltraps_call) ->
  idt !! n = Some g -> gate_to (vectors n) (Z.of_nat n =? T_SYSCALL) g ->
  (soft = true -> Z.of_nat n = T_SYSCALL) -> stack_room esp0 st ->
  exists k st', (st1 ← interrupt idt ss0 esp0 soft err (Z.of_nat n) st; run int k st1) = Some st' /\
    trap_called esp0 ss0 (Z.of_nat n) err (frame_addr esp0 st) st st'.
Proof.
  intros Hl Hst Hn Herr Hra Hg Hgate Hsoft Hroom.
  destruct (entry_exec idt ss0 esp0 soft err n g st) as (k & eax & E); try done. exists k. rewrite E. eexists. split; [done|].
  clear E. set (tf := frame_addr esp0 st) in *. set (st0 := hw_stack ss0 esp0 st). set (w := entry_words (Z.of_nat n) err tf st).
  destruct Hroom as [Hr1 Hr2]. fold tf in Hr1, Hr2. set (sp := if user_mode st then esp0 else reg_at st ESP).
  assert (Esp : reg_at st0 ESP = sp) by (subst st0 sp; unfold hw_stack; by destruct (user_mode st)).
  assert (Etf : tf - 8 = sp - 4 * Z.of_nat (length w)).
  { subst tf sp w. unfold frame_addr, entry_words. destruct (user_mode st); cbn; lia. }
  assert (Esp' : sp = if user_mode st then tf + 76 else tf + 68).
  { subst tf sp. unfold frame_addr. destruct (user_mode st); lia. }
  assert (Em0 : m_mem st0 = m_mem st) by (subst st0; unfold hw_stack; by destruct (user_mode st)).
  destruct (pushes_words w st0) as (m' & E & Hout & Hw); [rewrite Esp; destruct (user_mode st); lia|].
  rewrite Esp, <- Etf in *. rewrite E, Em0 in *.
  assert (Hm' : mem_ok m').
  { pose proof (pushes_mem_ok (reverse w) st0) as Hp. rewrite E, Em0 in Hp. apply Hp, Hst. }
  split; try done.
  - replace (tf - 8) with (tf - 8 + 4 * Z.of_nat 0) by lia. by apply Hw.
  - replace (tf - 4) with (tf - 8 + 4 * Z.of_nat 1) by lia. apply Hw; [done|wrap_lia].
  - apply (load_frame _ _ _ _ _ sp); try done; [wrap_lia|wrap_lia|]. subst sp. by destruct (user_mode st).
  - subst st0. unfold hw_stack. by destruct (user_mode st).
  - intros Hne. apply gate_mask_if. destruct Hgate as (_ & _ & _ & _ & Hty). apply Z.eqb_neq in Hne. rewrite Hne in Hty. apply Hty.
Qed.

(** The C function called in state [st] has returned in state [st']. *)
Record c_returned st st' : Prop := {
  cr_eip : m_eip st' = top st;
  cr_esp : reg_at st' ESP = reg_at st ESP + 4;
  cr_segs : m_segs st' = m_segs st;
  cr_mem : mem_ok (m_mem st');
}.

(** [trapret] resumes the state of the frame. *)
Lemma trapret_spec st tf :
  loaded -> m_eip st = trapret_addr -> mem_ok (m_mem st) -> reg_at st ESP = tf -> 0 <= tf <= 2 ^ 32 - 76 ->
  s_cs (m_segs st) mod 4 = 0 -> run int 7 st = Some (restored (load_tf (m_mem st) tf) tf st).
Proof.
  intros Hl He Hm Esp Htf Hcs. change 7%nat with (length trapret_S). rewrite run_seq; [|rewrite He; by apply loaded_parts|done].
  by apply trapret_exec.
Qed.

Lemma trap_return ss0 esp0 n err st st1 st2 :
  loaded -> stack_room esp0 st -> let tf := frame_addr esp0 st in
  trap_called esp0 ss0 n err tf st st1 -> c_returned st1 st2 ->
  exists k, run int k st2 = Some (restored (load_tf (m_mem st2) tf) tf st2).
Proof.
  intros Hl [Hr1 Hr2] tf [Te Tsp Tr Ta _ Ts _ _ _] [Ce Csp Cs Cm]. fold tf in Hr1, Hr2.
  exists (1 + 7)%nat. rewrite run_app. unfold top in Ce. rewrite Tsp, Tr in Ce. rewrite Tsp in Csp. change (run int 1 st2) with (run int (length alltraps_back) st2).
  rewrite run_seq; [|rewrite Ce; by apply loaded_parts|done].
  set (st3 := jump trapret_addr (set_zf (u32 (reg_at st2 ESP + 4) =? 0) (set_reg ESP tf st2))).
  assert (E : exec_seq int alltraps_back st2 = Some st3).
  { subst st3. rewrite <- (loaded_trapret Hl), after_app, <- Ce. asm_parts st2. unfold alltraps_back. asm_exec.
    cbn in Csp. rewrite Csp. replace (u32 (tf - 8 + 4 + 4)) with tf by (rewrite u32_id; wrap_lia). done. }
  rewrite E. cbn [mbind option_bind]. rewrite (trapret_spec st3 tf); try done.
  - lia.
  - cbn. by rewrite Cs, Ts.
Qed.

(** The interrupted program goes on in the same state. *)
Definition same_task st st' : Prop :=
  m_regs st' = m_regs st /\ m_segs st' = m_segs st /\ m_eip st' = m_eip st /\ m_eflags st' = m_eflags st.

Definition idt_ok (idt : list gatedesc) : Prop :=
  forall i, (i < 256)%nat -> exists g, idt !! i = Some g /\ gate_to (vectors i) (Z.of_nat i =? T_SYSCALL) g.

Definition ring_ok st : Prop := s_cs (m_segs st) mod 4 = 0 \/ s_cs (m_segs st) mod 4 = 3.

(** The frame of an interrupted state describes that state, and a new [%eax] in it
    that state with this [%eax]. *)
Lemma restored_frame v n err ss0 esp0 st st1 st2 :
  ring_ok st -> trap_called esp0 ss0 n err (frame_addr esp0 st) st st1 -> m_segs st2 = m_segs st1 ->
  same_task (set_reg EAX v st)
    (restored ((frame_of n err (frame_addr esp0 st) st) <| t_eax := v |>) (frame_addr esp0 st) st2).
Proof.
  intros Hring Hc Hs. unfold restored, frame_of, frame_addr, user_mode. cbn [update eta eta_trapframe t_cs t_esp t_ss t_eax t_ecx
    t_edx t_ebx t_ebp t_esi t_edi t_ds t_es t_fs t_gs t_eip t_eflags t_trapno t_err t_oesp].
  rewrite Hs, (tc_segs _ _ _ _ _ _ _ Hc). unfold user_mode. cbn [s_ss].
  destruct Hring as [E|E]; rewrite E; cbn [Z.eqb Z.ltb Z.compare Pos.eqb]; unfold tf_esp;
    [replace (reg_at st ESP - 68 + 68) with (reg_at st ESP) by lia|];
    (split_and!; [|by asm_parts st..]); by asm_parts st.
Qed.

Lemma frame_eax n err tf st : (frame_of n err tf st) <| t_eax := reg_at st EAX |> = frame_of n err tf st.
Proof. done. Qed.
End traps.

(** ** System calls *)

(** The stubs of usys.S, with the numbers of syscall.h. *)
Definition usys : list (string * Z) := [
  ("fork", 1); ("exit", 2); ("wait", 3); ("pipe", 4); ("read", 5); ("write", 16); ("close", 21); ("kill", 6);
  ("exec", 7); ("open", 15); ("mknod", 17); ("unlink", 18); ("fstat", 8); ("link", 19); ("mkdir", 20); ("chdir", 9);
  ("dup", 10); ("getpid", 11); ("sbrk", 12); ("sleep", 13); ("uptime", 14); ("switchDebug", 22); ("pidInfo", 23);
  ("forkLowest", 24); ("forkLow", 25); ("forkMedium", 26); ("forkHigh", 27); ("forkHighest", 28)]%string.

Definition usys_S (num : Z) : list instr := [Movl_ir num EAX; Int T_SYSCALL; Ret].

Section usys.
Context {D : Type} `{!Device D} `{!Code} {I : Image} {L : Linked} {T : Labels}.
Implicit Types st : mach D.

(** The [int] instruction on a processor whose descriptor table is [idt] and whose
    kernel stack is [ss0:esp0]. *)
Definition int_with (idt : list gatedesc) (ss0 esp0 n : Z) st : option (mach D) := interrupt idt ss0 esp0 true 0 n st.

(** The state at the interrupt: [%eax] has the number. *)
Definition stub_state (num : Z) st : mach D :=
  jump (after (m_eip st) [Movl_ir num EAX; Int T_SYSCALL]) (set_reg EAX num st).

Lemma usys_num name num : (name, num) ∈ usys -> 1 <= num <= 28.
Proof. intros Hn. repeat (apply elem_of_cons in Hn as [[= -> ->]|Hn]; [lia|]). by apply elem_of_nil in Hn. Qed.

Lemma stub_state_ok num st : is_u32 num -> state_ok st -> state_ok (stub_state num st).
Proof.
  intros Hnum [Hr Hs He Hf Hm]. split; [|done| |done|done].
  - intros []; cbn; [done|apply (Hr ECX)|apply (Hr EDX)|apply (Hr EBX)|apply (Hr ESP)|apply (Hr EBP)|apply (Hr ESI)|apply (Hr EDI)].
  - apply u32_range.
Qed.

Lemma stub_enters idt ss0 esp0 num k st :
  is_u32 num -> located (m_eip st) [Movl_ir num EAX; Int T_SYSCALL] ->
  run (int_with idt ss0 esp0) (2 + k) st =
    st1 ← interrupt idt ss0 esp0 true 0 T_SYSCALL (stub_state num st); run (int_with idt ss0 esp0) k st1.
Proof.
  intros Hnum Hl. rewrite run_app. change 2%nat with (length [Movl_ir num EAX; Int T_SYSCALL]). rewrite run_seq by done.
  cbn [exec_seq exec]. rewrite (u32_id num) by done. cbn [mbind option_bind].
  change (int_with idt ss0 esp0 T_SYSCALL _) with (interrupt idt ss0 esp0 true 0 T_SYSCALL (stub_state num st)).
  by destruct (interrupt _ _ _ _ _ _ _).
Qed.

Lemma user_frame esp0 st : user_mode st = true -> frame_addr esp0 st = esp0 - 76.
Proof. intros Hu. unfold frame_addr. by rewrite Hu. Qed.

(** From the stub to [trap]. *)
Lemma stub_traps idt ss0 esp0 num st :
  loaded -> idt_ok idt -> is_u32 (after alltraps_addr alltraps_call) -> is_u32 num ->
  located (m_eip st) [Movl_ir num EAX; Int T_SYSCALL] -> state_ok st -> user_mode st = true -> 84 <= esp0 < 2 ^ 32 ->
  exists k st1, run (int_with idt ss0 esp0) k st = Some st1 /\
    trap_called esp0 ss0 T_SYSCALL 0 (esp0 - 76) (stub_state num st) st1.
Proof.
  intros Hl Hidt Hra Hnum Hloc Hst Hu Hesp. destruct (Hidt 64%nat) as (g & Hg & Hgate); [lia|].
  destruct (trap_entry_spec (int_with idt ss0 esp0) idt ss0 esp0 true 0 64 g (stub_state num st)) as (k & st1 & E1 & Hc); try done.
  { by apply stub_state_ok. } { wrap_lia. } { unfold stack_room. rewrite user_frame by done. lia. }
  rewrite user_frame in Hc by done. exists (2 + k)%nat, st1. by rewrite (stub_enters _ _ _ num).
Qed.

(** And back, with a result in [%eax]. *)
Lemma stub_returns int ss0 esp0 v sb st1 st2 :
  loaded -> user_mode sb = true -> 84 <= esp0 < 2 ^ 32 -> trap_called esp0 ss0 T_SYSCALL 0 (esp0 - 76) sb st1 ->
  c_returned st1 st2 -> load_tf (m_mem st2) (esp0 - 76) = (load_tf (m_mem st1) (esp0 - 76)) <| t_eax := v |> ->
  exists k st3, run int k st2 = Some st3 /\ same_task (set_reg EAX v sb) st3 /\ m_mem st3 = m_mem st2.
Proof.
  intros Hl Hu Hesp Hc Hret Hf. rewrite <- (user_frame esp0 sb) in Hc, Hf by done.
  destruct (trap_return int ss0 esp0 T_SYSCALL 0 sb st1 st2) as [k E2]; try done.
  { unfold stack_room. rewrite user_frame by done. lia. }
  rewrite Hf, (tc_frame _ _ _ _ _ _ _ Hc) in E2. exists k. eexists. split; [exact E2|]. split; [|done].
  eapply restored_frame; [right; by apply Z.eqb_eq in Hu|done|apply Hret].
Qed.
End usys.

(** ** New processes *)

(** The kernel stack that [allocproc] sets up: a context that runs [forkret], which
    returns to [trapret]; the trap frame follows. *)
Definition new_stack {I : Image} (m : memory) (ctx : Z) : Prop :=
  load_context m ctx = Mkcontext 0 0 0 0 forkret_addr /\ load32 m (ctx + 20) = trapret_addr.

Lemma load_tf_ext m m' a :
  (forall b, a <= b < a + 76 -> load8 m' b = load8 m b) -> load_tf m' a = load_tf m a.
Proof.
  intros Hm. unfold load_tf, tf_eax, tf_es, tf_ds, tf_trapno, tf_err, tf_eip, tf_cs, tf_eflags, tf_esp, tf_ss.
  f_equal; try (apply load32_ext; intros i Hi; apply Hm; lia); unfold load16; rewrite !Hm by lia; done.
Qed.

Section newproc.
Context {D : Type} `{!Device D} `{!Code} {I : Image} {L : Linked} {T : Labels}.
Variable int : Z -> mach D -> option (mach D).

(** [swtch] to the stack of a new process calls [forkret], whose return resumes the
    state of the trap frame. *)
Lemma first_run (st : mach D) old ctx :
  loaded -> swtch_call st old ctx -> new_stack (m_mem st) ctx -> s_cs (m_segs st) mod 4 = 0 ->
  ctx <= 2 ^ 32 - 100 -> apart old 4 ctx 100 -> apart ctx 100 (reg_at st ESP - 16) 16 ->
  exists st1, run int 13 st = Some st1 /\ m_eip st1 = forkret_addr /\ reg_at st1 ESP = ctx + 20 /\ m_segs st1 = m_segs st /\
    (forall a, ctx + 20 <= a < ctx + 100 -> load8 (m_mem st1) a = load8 (m_mem st) a) /\
    forall st2, c_returned st1 st2 -> run int 7 st2 = Some (restored (load_tf (m_mem st2) (ctx + 24)) (ctx + 24) st2).
Proof.
  intros Hl Hsw [Hctx Htr] Hcs Hr Ho Hs. destruct (swtch_spec int st old ctx Hsw) as (st1 & E & Hsys & Hres & _ & _ & Hm).
  rewrite Hctx in Hres. destruct Hres as (_ & _ & _ & _ & Heip & Hesp). unfold apart in *.
  assert (Hkeep : forall a, ctx + 20 <= a < ctx + 100 -> load8 (m_mem st1) a = load8 (m_mem st) a) by (intros; apply Hm; lia).
  exists st1. split_and!; [done|done|done|apply Hsys|done|]. intros st2 [Ce Csp Cs Cm].
  pose proof (sc_new_range _ _ _ Hsw). apply trapret_spec; [done| |done|lia|lia|rewrite Cs; by rewrite (proj1 Hsys)].
  rewrite Ce. unfold top. rewrite Hesp, <- Htr. apply load32_ext. intros i Hi. apply Hkeep. lia.
Qed.
End newproc.

(** ** The theorems *)

(** C17: a thread that calls [swtch] goes on when another thread switches to the
    context that this call saved in [*old], provided that the part of the stack that
    holds it was not written to in between: the call returns to its caller, with the
    registers that calls preserve and the stack pointer that it had. *)
Theorem swtch_round_trip {D} `{!Device D} `{!Code} int (st st1 st2 : mach D) old new old2 :
  swtch_call st old new -> run int 13 st = Some st1 ->
  swtch_call st2 old2 (load32 (m_mem st1) old) ->
  (forall a, reg_at st ESP - 16 <= a < reg_at st ESP + 4 -> load8 (m_mem st2) a = load8 (m_mem st1) a) ->
  exists st3, run int 13 st2 = Some st3 /\ resumed (caller_context st) (reg_at st ESP + 4) st3 /\ same_system st2 st3.
Proof.
  intros H1 R1 H2 Hm. destruct (swtch_spec int _ _ _ H1) as (st1' & R1' & _ & _ & Eo & Ec & _).
  rewrite R1 in R1'. injection R1' as <-. rewrite Eo in H2. destruct (swtch_spec int _ _ _ H2) as (st3 & R3 & Hs & Hr & _).
  exists st3. split_and!; [done| |done]. rewrite (load_context_ext (m_mem st1)), Ec in Hr by (intros; apply Hm; lia).
  by replace (reg_at st ESP - 16 + 20) with (reg_at st ESP + 4) in Hr by lia.
Qed.

(** C15: an interrupt or exception, in user or kernel mode, leads to a call of [trap]
    with a pointer to a trap frame on the kernel stack that holds the interrupted
    state, with the kernel's segments and with interrupts off unless it is a system
    call; when [trap] returns and has left the frame alone, the interrupted program
    goes on with the same registers, segments, flags and stack. *)
Theorem interrupt_transparent {D} `{!Device D} `{!Code} {I : Image} {L : Linked} {T : Labels} int idt ss0 esp0 err (n : nat)
    (st : mach D) :
  loaded -> idt_ok idt -> is_u32 (after alltraps_addr alltraps_call) ->
  state_ok st -> ring_ok st -> stack_room esp0 st -> (n < 256)%nat -> is_u32 err ->
  exists k st1, (st' ← interrupt idt ss0 esp0 false err (Z.of_nat n) st; run int k st') = Some st1 /\
    trap_called esp0 ss0 (Z.of_nat n) err (frame_addr esp0 st) st st1 /\
    forall st2, c_returned st1 st2 ->
      load_tf (m_mem st2) (frame_addr esp0 st) = load_tf (m_mem st1) (frame_addr esp0 st) ->
      exists k' st3, run int k' st2 = Some st3 /\ same_task st st3.
Proof.
  intros Hl Hidt Hra Hst Hring Hroom Hn Herr. destruct (Hidt n Hn) as (g & Hg & Hgate).
  destruct (trap_entry_spec int idt ss0 esp0 false err n g st) as (k & st1 & E1 & Hc); try done.
  exists k, st1. split_and!; [done|done|]. intros st2 Hret Hf.
  destruct (trap_return int ss0 esp0 (Z.of_nat n) err st st1 st2) as [k' E2]; try done.
  exists k'. eexists. split; [exact E2|]. rewrite Hf, (tc_frame _ _ _ _ _ _ _ Hc), <- frame_eax.
  destruct (restored_frame (reg_at st EAX) (Z.of_nat n) err ss0 esp0 st st1 st2) as (R1 & R2); [done|done|apply Hret|].
  split; [|exact R2]. rewrite R1. by asm_parts st.
Qed.

(** C16: a system call stub of usys.S enters the kernel with the number of the call
    in [tf->eax] and the user's registers in the frame; when [trap] returns and has
    only put a result into [tf->eax], the stub returns to its caller with the result
    in [%eax] and the other registers unchanged. *)
Theorem syscall_stub {D} `{!Device D} `{!Code} {I : Image} {L : Linked} {T : Labels} idt ss0 esp0 name num (st : mach D) :
  loaded -> idt_ok idt -> is_u32 (after alltraps_addr alltraps_call) ->
  (name, num) ∈ usys -> located (m_eip st) (usys_S num) ->
  state_ok st -> user_mode st = true -> reg_at st ESP <= 2 ^ 32 - 8 -> 84 <= esp0 < 2 ^ 32 ->
  let tf := esp0 - 76 in
  let int := int_with idt ss0 esp0 in
  exists k st1, run int k st = Some st1 /\ trap_called esp0 ss0 T_SYSCALL 0 tf (stub_state num st) st1 /\
    t_eax (load_tf (m_mem st1) tf) = num /\
    forall st2 v, c_returned st1 st2 ->
      load_tf (m_mem st2) tf = (load_tf (m_mem st1) tf) <| t_eax := v |> ->
      load32 (m_mem st2) (reg_at st ESP) = top st ->
      exists k' st3, run int k' st2 = Some st3 /\ m_eip st3 = top st /\ m_segs st3 = m_segs st /\
        m_regs st3 = setr EAX v (setr ESP (reg_at st ESP + 4) (m_regs st)).
Proof.
  intros Hl Hidt Hra Hin Hloc Hst Hu Husp Hesp tf int. subst tf. assert (Hnum : is_u32 num) by (apply usys_num in Hin; wrap_lia).
  set (sb := stub_state num st). pose proof Hloc as Hloc'.
  apply (located_app _ [Movl_ir num EAX; Int T_SYSCALL]) in Hloc' as [Hl1 [Hl2 _]].
  destruct (stub_traps idt ss0 esp0 num st) as (k & st1 & E1 & Hc); try done.
  exists k, st1. split_and!; [done|done|by rewrite (tc_frame _ _ _ _ _ _ _ Hc)|].
  intros st2 v Hret Hf Htop.
  destruct (stub_returns int ss0 esp0 v sb st1 st2) as (k' & st3 & E2 & (R1 & R2 & R3 & R4) & Em); try done.
  exists (k' + 1)%nat. rewrite run_app, E2. cbn [mbind option_bind].
  assert (Hret3 : code (m_eip st3) = Some Ret).
  { rewrite R3. exact Hl2. }
  cbn [run]. unfold step. rewrite Hret3. cbn [mbind option_bind exec].
  assert (Esp3 : reg_at st3 ESP = reg_at st ESP) by (unfold reg_at; by rewrite R1).
  eexists. split; [reflexivity|]. split_and!.
  - change (load32 (m_mem st3) (reg_at st3 ESP) = top st). by rewrite Em, Esp3.
  - exact R2.
  - change (setr ESP (u32 (reg_at st3 ESP + 4)) (m_regs st3) = setr EAX v (setr ESP (reg_at st ESP + 4) (m_regs st))).
    rewrite R1, Esp3, u32_id; [done|]. pose proof (so_regs _ Hst ESP). unfold reg_at in *. wrap_lia.
Qed.

(** ** Example *)

#[export] Instance located_dec `{!Code} a l : Decision (located a l).
Proof. revert a; induction l as [|i l IH]; intros a; cbn; [left; exact I|]. apply and_dec; [apply _|apply IH]. Defined.

(** An image in which every instruction has length 1: [swtch] at 0x100, [alltraps]
    at 0x200, the stub of [read] at 0x300, [trap] at 0x400, and four addresses for
    each vector from 0x1000. *)
Section example.
#[local] Instance ex_image : Image :=
  {| trapret_addr := 526; forkret_addr := 0x500; initcode_start := 0; initcode_size := 0 |}.
#[local] Instance ex_linked : Linked :=
  {| cpu_local_addr _ := 0; gdt_addr _ := 0; idt_addr := 0; vectors n := 0x1000 + 4 * Z.of_nat n; entryother_start := 0;
     entryother_size := 0; mpenter_addr := 0; entrypgdir_addr := 0; seginit_ra := 0; startothers_ra := 0 |}.
#[local] Instance ex_labels : Labels := {| alltraps_addr := 0x200; trap_addr := 0x400 |}.
#[local] Instance ex_device : Device unit := {| d_in _ d := (0, d); d_out _ _ d := d |}.

Fixpoint ex_place (a : Z) (l : list instr) (m : gmap Z instr) : gmap Z instr :=
  match l with [] => m | i :: l' => <[a := i]> (ex_place (a + 1) l' m) end.

Definition ex_program : gmap Z instr :=
  ex_place 0x100 swtch_S (ex_place 0x200 alltraps_S (ex_place 0x300 (usys_S 5) ∅)).

(** [low] is code at address 0. *)
Definition ex_code_with (low : list instr) : Code := {|
  code a :=
    if a <? 0x100 then low !! Z.to_nat a
    else if (0x1000 <=? a) && (a <? 0x1400) then vector_S ((a - 0x1000) / 4) !! Z.to_nat ((a - 0x1000) mod 4)
    else ex_program !! a;
  len _ _ := 1 |}.
#[local] Instance ex_code : Code := ex_code_with [].

Lemma ex_loaded_with low : @loaded (ex_code_with low) _ _ _.
Proof.
  split; [by apply (bool_decide_unpack _); vm_compute|by vm_compute|].
  assert (Hf : Forall (fun n => @located (ex_code_with low) (vectors n) (vector_S (Z.of_nat n))) (seq 0 256)).
  { by apply (bool_decide_unpack _); vm_compute. }
  intros n Hn. rewrite Forall_forall in Hf. apply Hf, elem_of_seq. lia.
Qed.
Definition ex_loaded : loaded := ex_loaded_with [].

Definition ex_idt : list gatedesc :=
  map (fun i => let call := Z.of_nat i =? T_SYSCALL in
         SETGATE (if call then 1 else 0) (Z.shiftl SEG_KCODE 3) (vectors i) (if call then 3 else 0)) (seq 0 256).

Lemma ex_idt_ok : idt_ok ex_idt.
Proof.
  intros i Hi. unfold ex_idt. eexists. split.
  { rewrite list_lookup_fmap, lookup_seq_lt by lia. reflexivity. }
  cbn -[SETGATE Z.shiftl Z.eqb]. destruct (Z.of_nat i =? T_SYSCALL).
  - apply (SETGATE_to 1); [|done]. cbn. wrap_lia.
  - apply (SETGATE_to 0); [|done]. cbn. wrap_lia.
Qed.

(** A user program that is about to call the stub of [read], and a kernel stack. *)
Definition ex_user : mach unit :=
  Mkmach (Mkregs 1 2 3 4 0x3ff0 6 7 8) (Mksegs 35 43 43 0 0 43) 0x300 0x202 0x80010001 0 0 (0, 0)
    (store32 ∅ 0x3ff0 0x1234) tt.
Definition ex_esp0 : Z := 0x80401000.

Lemma ex_user_ok : state_ok ex_user.
Proof.
  split; [intros []; vm_compute; split; congruence|intros []; vm_compute; split; congruence|vm_compute; split; congruence..|].
  apply mem_ok_store32, mem_ok_empty.
Qed.

(** The timer interrupts it. *)
Lemma interrupt_transparent_witness :
  let int _ _ := None in
  exists k st1, (st' ← interrupt ex_idt 16 ex_esp0 false 0 32 ex_user; run int k st') = Some st1 /\
    trap_called ex_esp0 16 32 0 (ex_esp0 - 76) ex_user st1 /\
    forall st2, c_returned st1 st2 ->
      load_tf (m_mem st2) (ex_esp0 - 76) = load_tf (m_mem st1) (ex_esp0 - 76) ->
      exists k' st3, run int k' st2 = Some st3 /\ same_task ex_user st3.
Proof.
  intros int. apply (interrupt_transparent int ex_idt 16 ex_esp0 0 32 ex_user).
  - exact ex_loaded.
  - exact ex_idt_ok.
  - vm_compute. split; congruence.
  - exact ex_user_ok.
  - by right.
  - vm_compute. split; congruence.
  - lia.
  - vm_compute. split; congruence.
Defined.

Lemma syscall_stub_witness :
  exists k st1, run (int_with ex_idt 16 ex_esp0) k ex_user = Some st1 /\
    trap_called ex_esp0 16 T_SYSCALL 0 (ex_esp0 - 76) (stub_state 5 ex_user) st1 /\
    t_eax (load_tf (m_mem st1) (ex_esp0 - 76)) = 5 /\
    forall st2 v, c_returned st1 st2 ->
      load_tf (m_mem st2) (ex_esp0 - 76) = (load_tf (m_mem st1) (ex_esp0 - 76)) <| t_eax := v |> ->
      load32 (m_mem st2) (reg_at ex_user ESP) = top ex_user ->
      exists k' st3, run (int_with ex_idt 16 ex_esp0) k' st2 = Some st3 /\ m_eip st3 = top ex_user /\
        m_segs st3 = m_segs ex_user /\ m_regs st3 = setr EAX v (setr ESP (reg_at ex_user ESP + 4) (m_regs ex_user)).
Proof.
  apply (syscall_stub ex_idt 16 ex_esp0 "read" 5 ex_user).
  - exact ex_loaded.
  - exact ex_idt_ok.
  - vm_compute. split; congruence.
  - apply (bool_decide_unpack _). by vm_compute.
  - apply (bool_decide_unpack _). by vm_compute.
  - exact ex_user_ok.
  - done.
  - vm_compute. congruence.
  - vm_compute. split; congruence.
Defined.

(** Two threads: one at stack 0x8000 switches to the context at 0x9000, which jumps
    to [swtch] again to come back. *)
Definition ex_thread : mach unit :=
  Mkmach (Mkregs 1 2 3 4 0x8000 6 7 8) (Mksegs 8 16 16 24 24 16) 0x100 2 0x80010001 0 0 (0, 0)
    (foldl (fun m '(a, v) => store32 m a v) ∅
       [(0x8000, 0x1234); (0x8004, 0xa000); (0x8008, 0x9000); (0x9010, 0x100); (0x9018, 0xb000); (0x901c, 0x7ff0)]) tt.
Definition ex_thread1 : mach unit := default ex_thread (run (fun _ _ => None) 13 ex_thread).

Lemma ex_call : swtch_call ex_thread 0xa000 0x9000.
Proof.
  split; [by apply (bool_decide_unpack _); vm_compute|intros []; vm_compute; split; congruence|vm_compute; split; congruence|
    by vm_compute|by vm_compute|vm_compute; split; congruence|vm_compute; split; congruence|..]; unfold apart.
  - right. vm_compute. congruence.
  - right. vm_compute. congruence.
  - right. vm_compute. congruence.
Qed.

Lemma ex_call_back : swtch_call ex_thread1 0xb000 0x7ff0.
Proof.
  split; [by apply (bool_decide_unpack _); vm_compute|intros []; vm_compute; split; congruence|vm_compute; split; congruence|
    by vm_compute|by vm_compute|vm_compute; split; congruence|vm_compute; split; congruence|..]; unfold apart.
  - right. vm_compute. congruence.
  - right. vm_compute. congruence.
  - left. vm_compute. congruence.
Qed.

Lemma swtch_round_trip_witness :
  exists st3, run (fun _ _ => None) 13 ex_thread1 = Some st3 /\
    resumed (caller_context ex_thread) (reg_at ex_thread ESP + 4) st3 /\ same_system ex_thread1 st3.
Proof.
  apply (swtch_round_trip (fun _ _ => None) ex_thread ex_thread1 ex_thread1 0xa000 0x9000 0xb000).
  - exact ex_call.
  - vm_compute. reflexivity.
  - replace (load32 (m_mem ex_thread1) 0xa000) with 0x7ff0 by (vm_compute; reflexivity). exact ex_call_back.
  - intros a _. reflexivity.
Defined.
End example.
