(* ===== verification/Fork.v ===== *)
(** fork: what the child is.

    A fork takes an unused slot, a kernel stack and an address space; the child
    is a copy of its parent but for its identity, its accounting and the value
    that its fork returns.  The theorem is about the code of [forks], with the
    stride scheduler; together with [first_run] of TrapAsm.v it says that the
    child returns from the same call, with 0. *)
From S2P Require Import Prelude Memory Kernel CString Spinlock Console Sched Kalloc Ide.
From S2P Require Import Bytes Bio Log Inode Vm Umem Tty Fs File VmSpec VmCopy Proc Trap Asm TrapAsm.

(** ** Short critical sections *)

Definition fork_lock (l : lockid) : Prop :=
  l = L_ptable \/ l = L_kmem \/ l = L_ftable \/ l = L_icache.

(** The process runs outside any critical section and the locks are free; the
    CPU has recorded its interrupt flag. *)
Record calm (s : kernel) : Prop := {
  ca_cpu : cpu_ok 0 s;
  ca_settled : settled s = s;
  ca_lock : forall l, fork_lock l -> lock_free l s;
}.

(** [calm] is about the CPUs and the locks. *)
Lemma calm_ext s s' :
  calm s -> k_me s' = k_me s -> k_cpus s' = k_cpus s -> k_locks s' = k_locks s -> calm s'.
Proof.
  intros [H1 H2 H3] E1 E2 E3.
  assert (Hc : mycpu s' = mycpu s) by (unfold mycpu; by rewrite E1, E2). split.
  - unfold cpu_ok. rewrite E1, E2, Hc. exact H1.
  - apply (f_equal k_cpus) in H2. change (alter settle_cpu (k_me s) (k_cpus s) = k_cpus s) in H2.
    change (s' <| k_cpus := alter settle_cpu (k_me s') (k_cpus s') |> = s').
    rewrite E1, E2, H2, <- E2. by destruct s'.
  - intros l Hl. unfold lock_free. rewrite E3. by apply H3.
Qed.

Lemma calm_kmem s : calm s -> kmem_ready 0 s.
Proof. intros H. split_and!; [apply H|done|apply H; unfold fork_lock; tauto]. Qed.

Lemma calm_ksettled s : calm s -> ksettled s = s.
Proof. intros H. destruct (ksettled_cases s) as [-> | ->]; [apply H|done]. Qed.

Lemma calm_acquire l s : calm s -> fork_lock l -> acquire l s = Ok tt (acquired l s).
Proof. intros H Hl. apply (acquire_ok 0); [apply H|done|by apply H]. Qed.

Lemma calm_release l s : calm s -> fork_lock l -> release l (acquired l s) = Ok tt s.
Proof.
  intros H Hl. rewrite (release_acquired 0); [by rewrite (ca_settled _ H)|apply H|done|by apply H].
Qed.

Lemma filedup_run f s :
  calm s -> 1 <= f_ref (file_at s f) ->
  filedup f s = Ok f (s <| k_ftable ::= alter (fun x => x <| f_ref ::= fun n => i32 (n + 1) |>) f |>).
Proof.
  intros Hc Hr. unfold filedup. rewrite (bind_ok _ _ _ _ _ (calm_acquire L_ftable s Hc ltac:(unfold fork_lock; tauto))).
  rewrite (bind_ok (gets _) _ (acquired L_ftable s) (file_at s f) _ eq_refl).
  destruct (Z.ltb_spec (f_ref (file_at s f)) 1); [lia|].
  set (s1 := s <| k_ftable ::= alter (fun x => x <| f_ref ::= fun n => i32 (n + 1) |>) f |>).
  rewrite (bind_ok (set_file f _) _ (acquired L_ftable s) tt (acquired L_ftable s1)) by reflexivity.
  rewrite (bind_ok _ _ _ _ _ (calm_release L_ftable s1 (calm_ext s s1 Hc eq_refl eq_refl eq_refl) ltac:(unfold fork_lock; tauto))).
  reflexivity.
Qed.

Lemma idup_run i s :
  calm s -> idup i s = Ok i (s <| k_icache ::= alter (fun x => x <| i_ref ::= fun n => i32 (n + 1) |>) i |>).
Proof.
  intros Hc. unfold idup. rewrite (bind_ok _ _ _ _ _ (calm_acquire L_icache s Hc ltac:(unfold fork_lock; tauto))).
  set (s1 := s <| k_icache ::= alter (fun x => x <| i_ref ::= fun n => i32 (n + 1) |>) i |>).
  rewrite (bind_ok (set_inode i _) _ (acquired L_icache s) tt (acquired L_icache s1)) by reflexivity.
  rewrite (bind_ok _ _ _ _ _ (calm_release L_icache s1 (calm_ext s s1 Hc eq_refl eq_refl eq_refl) ltac:(unfold fork_lock; tauto))).
  reflexivity.
Qed.

(** ** The parts of the state that fork changes *)

Definition upd (s : kernel) (t : list proc) (pid : Z) (m : memory) (f : Z) : kernel :=
  s <| k_ptable := t |> <| k_nextpid := pid |> <| k_mem := m |> <| k_freelist := f |>.

Definition tproc (t : list proc) (i : nat) : proc := default proc0 (t !! i).

Section upd.
Context (s : kernel) (t : list proc) (pid : Z) (m : memory) (f : Z).

Lemma set_proc_upd i g : set_proc i g (upd s t pid m f) = Ok tt (upd s (alter g i t) pid m f).
Proof. reflexivity. Qed.

Lemma set_mem_upd g : set_mem g (upd s t pid m f) = Ok tt (upd s t pid (g m) f).
Proof. reflexivity. Qed.

Lemma proc_at_upd i : proc_at (upd s t pid m f) i = tproc t i.
Proof. reflexivity. Qed.

Lemma acquired_upd l : acquired l (upd s t pid m f) = upd (acquired l s) t pid m f.
Proof. reflexivity. Qed.

Lemma calm_upd : calm s -> calm (upd s t pid m f).
Proof. intros H. by apply (calm_ext s). Qed.

Lemma upd_upd t' pid' m' f' : upd (upd s t pid m f) t' pid' m' f' = upd s t' pid' m' f'.
Proof. reflexivity. Qed.
End upd.

Lemma tproc_alter t i g x : t !! i = Some x -> tproc (alter g i t) i = g x.
Proof. intros H. unfold tproc. by rewrite list_lookup_alter_eq, H. Qed.

Lemma tproc_alter_ne t i j g : i <> j -> tproc (alter g i t) j = tproc t j.
Proof. intros H. unfold tproc. by rewrite list_lookup_alter_ne. Qed.

Lemma upd_id s : upd s (k_ptable s) (k_nextpid s) (k_mem s) (k_freelist s) = s.
Proof. by destruct s. Qed.

Lemma bind_gets {A B} (g : kernel -> A) (k : A -> K B) s : (gets g ≫= k) s = k (g s) s.
Proof. reflexivity. Qed.

(** One step of code that works on these parts. *)
Ltac upd_step :=
  first
    [ rewrite (bind_ok _ _ _ _ _ (set_proc_upd _ _ _ _ _ _ _))
    | rewrite (bind_ok _ _ _ _ _ (set_mem_upd _ _ _ _ _ _))
    | rewrite bind_gets ].

Lemma idup_upd i s t pid m f :
  calm s ->
  idup i (upd s t pid m f) =
  Ok i (upd (s <| k_icache ::= alter (fun x => x <| i_ref ::= fun n => i32 (n + 1) |>) i |>) t pid m f).
Proof. intros Hc. rewrite idup_run by (by apply calm_upd). reflexivity. Qed.

(** ** allocproc *)

Section fork.
Context {E : Env} {I : Image}.

(** The slot of a new process, and the same with its kernel stack [k]. *)
Definition new_slot (pid tickets : Z) (p : proc) : proc :=
  p <| p_state := EMBRYO |> <| p_pid := pid |> <| p_tickets := tickets |> <| p_pass := 0 |>
    <| p_stride := Z.quot 10000 tickets |> <| p_limitpass := Z.quot 10000 tickets |>.

Definition embryo (pid tickets k : Z) (p : proc) : proc :=
  (new_slot pid tickets p) <| p_kstack := k |> <| p_tf := k + 4020 |> <| p_context := k + 3996 |>.

(** The context and the return address below the trap frame. *)
Definition stack_init (k : Z) (m : memory) : memory :=
  store32 (memset (store32 m (k + 4016) trapret_addr) (k + 3996) 0 20) (k + 4012) forkret_addr.

Definition allocated (np : nat) (tickets k : Z) (s : kernel) : kernel :=
  upd s (alter (embryo (k_nextpid s) tickets k) np (k_ptable s)) (i32 (k_nextpid s + 1))
    (stack_init k (k_mem s)) (load32 (k_mem s) k).

Lemma alloc_stride_run np tickets s t pid m f :
  k_isDebug s = 0 -> tickets <> 0 ->
  alloc_stride np tickets (upd s t pid m f) =
  Ok tt (upd s (alter (fun x => x <| p_tickets := tickets |> <| p_pass := 0 |> <| p_stride := Z.quot 10000 tickets |>
    <| p_limitpass := Z.quot 10000 tickets |>) np t) pid m f).
Proof.
  intros Hd Ht. unfold alloc_stride. do 2 upd_step.
  rewrite (bind_ok (stride_of tickets) _ _ (Z.quot 10000 tickets) (upd s (alter (fun x => x <| p_pass := 0 |>) np
    (alter (fun x => x <| p_tickets := tickets |>) np t)) pid m f)).
  2: { unfold stride_of. by destruct (Z.eqb_spec tickets 0). }
  do 2 upd_step. unfold debugging. do 2 upd_step. change (k_isDebug (upd ?s _ _ _ _)) with (k_isDebug s).
  rewrite Hd. rewrite !list_alter_alter_eq. reflexivity.
Qed.

(** The slot is taken under the lock of the table. *)
Lemma alloc_slot np tickets s :
  calm s -> k_isDebug s = 0 -> k_isRoundRobin s = 0 -> tickets <> 0 ->
  find_first (fun p => state_eqb (p_state p) UNUSED) (k_ptable s) = Some np ->
  allocproc tickets s =
  (kstack ← kalloc;
   set_proc np (fun x => x <| p_kstack := kstack |>);;
   if kstack =? 0 then set_proc np (fun x => x <| p_state := UNUSED |>);; mret None
   else
     let sp := u32 (kstack + KSTACKSIZE - tf_size) in
     set_proc np (fun x => x <| p_tf := sp |>);;
     set_mem (fun m => store32 m (u32 (sp - 4)) trapret_addr);;
     let context := u32 (sp - 4 - 20) in
     set_proc np (fun x => x <| p_context := context |>);;
     set_mem (fun m => memset m context 0 20);;
     set_mem (fun m => store32 m (context + 16) forkret_addr);;
     mret (Some np))
  (upd s (alter (new_slot (k_nextpid s) tickets) np (k_ptable s)) (i32 (k_nextpid s + 1)) (k_mem s) (k_freelist s)).
Proof.
  intros Hc Hd Hr Ht Hf. unfold allocproc. assert (Hl : fork_lock L_ptable) by (unfold fork_lock; tauto).
  rewrite (bind_ok _ _ _ _ _ (calm_acquire L_ptable s Hc Hl)).
  rewrite <- (upd_id (acquired L_ptable s)). change (k_ptable (acquired L_ptable s)) with (k_ptable s).
  change (k_nextpid (acquired L_ptable s)) with (k_nextpid s). change (k_mem (acquired L_ptable s)) with (k_mem s).
  change (k_freelist (acquired L_ptable s)) with (k_freelist s).
  rewrite bind_gets. change (k_ptable (upd _ ?t _ _ _)) with t. rewrite Hf.
  upd_step. rewrite bind_gets. change (k_nextpid (upd _ _ ?t _ _)) with t.
  rewrite (bind_ok (modify _) _ _ tt (upd (acquired L_ptable s) (alter (fun x => x <| p_state := EMBRYO |>) np (k_ptable s))
    (i32 (k_nextpid s + 1)) (k_mem s) (k_freelist s))) by reflexivity.
  upd_step. unfold round_robin. rewrite bind_gets.
  change (k_isRoundRobin (upd _ _ _ _ _)) with (k_isRoundRobin s). rewrite Hr.
  change (when (negb (c_true 0)) ?p) with p.
  rewrite (bind_ok _ _ _ _ _ (alloc_stride_run np tickets (acquired L_ptable s) _ _ _ _ Hd Ht)).
  rewrite <- acquired_upd, !list_alter_alter_eq.
  rewrite (bind_ok _ _ _ _ _ (calm_release L_ptable _ (calm_upd _ _ _ _ _ Hc) Hl)). reflexivity.
Qed.

Lemma allocproc_run np tickets k l s :
  calm s -> k_isDebug s = 0 -> k_isRoundRobin s = 0 -> tickets <> 0 ->
  find_first (fun p => state_eqb (p_state p) UNUSED) (k_ptable s) = Some np ->
  kmem_inv s (k :: l) ->
  allocproc tickets s = Ok (Some np) (allocated np tickets k s).
Proof.
  intros Hc Hd Hr Ht Hf Hk. rewrite (alloc_slot np) by done.
  set (t1 := alter (new_slot (k_nextpid s) tickets) np (k_ptable s)). set (pid := i32 (k_nextpid s + 1)).
  set (s1 := upd s t1 pid (k_mem s) (k_freelist s)).
  assert (Hc1 : calm s1) by (by apply calm_upd).
  pose proof (kmem_inv_pop s1 (k :: l) Hk) as [Ek _]. pose proof Hk as (_ & _ & Hp & _).
  apply Forall_cons in Hp as [Hp _]. pose proof (page_ok_pos _ _ Hp) as Hk0.
  assert (E1 : kalloc s1 = Ok k (upd s t1 pid (k_mem s) (load32 (k_mem s) k))).
  { rewrite (kalloc_run 0 s1 (calm_kmem _ Hc1)), (calm_ksettled _ Hc1), Ek. unfold pop_free. rewrite Ek.
    destruct (c_true_spec k); [done|lia]. }
  rewrite (bind_ok _ _ _ _ _ E1). upd_step. destruct (Z.eqb_spec k 0); [lia|].
  unfold KSTACKSIZE, tf_size, PGSIZE in *. cbv zeta.
  replace (u32 (k + 4096 - 76)) with (k + 4020) by (rewrite u32_id; unfold is_u32; lia).
  replace (u32 (k + 4020 - 4)) with (k + 4016) by (rewrite u32_id; unfold is_u32; lia).
  replace (u32 (k + 4020 - 4 - 20)) with (k + 3996) by (rewrite u32_id; unfold is_u32; lia).
  replace (k + 3996 + 16) with (k + 4012) by lia.
  do 5 upd_step. unfold t1. rewrite !list_alter_alter_eq. reflexivity.
Qed.

(** ** Open files *)

Definition one_more (x : file) : file := x <| f_ref ::= fun n => i32 (n + 1) |>.

(** The table of files after the descriptors [fds] of [o] have been duplicated,
    and the child's descriptors. *)
Definition dup_refs (o : list (option nat)) (fds : list nat) (ft : list file) : list file :=
  foldl (fun ft i => match default None (o !! i) with Some x => alter one_more x ft | None => ft end) ft fds.

Definition dup_fds (o : list (option nat)) (fds : list nat) (child : list (option nat)) : list (option nat) :=
  foldl (fun c i => match default None (o !! i) with Some x => <[i := Some x]> c | None => c end) child fds.

(** Every open file has references, and room for [n] more. *)
Definition files_open (o : list (option nat)) (n : nat) (ft : list file) : Prop :=
  forall i x, o !! i = Some (Some x) -> (x < length ft)%nat /\
    1 <= f_ref (default file0 (ft !! x)) /\ f_ref (default file0 (ft !! x)) + Z.of_nat n < 2 ^ 31.

Lemma files_open_more o n ft x :
  files_open o (S n) ft -> files_open o n (alter one_more x ft).
Proof.
  intros H i y Hy. destruct (H i y Hy) as (H1 & H2 & H3). rewrite length_alter. split; [done|].
  destruct (lookup_lt_is_Some_2 ft y H1) as [z Hz]. rewrite Hz in H2, H3. cbn [default] in H2, H3.
  destruct (decide (x = y)) as [->|Hn].
  - rewrite list_lookup_alter_eq, Hz. change (1 <= i32 (f_ref z + 1) /\ i32 (f_ref z + 1) + Z.of_nat n < 2 ^ 31).
    rewrite i32_id by (unfold is_i32; cbn in H2, H3; lia). cbn in H2, H3. lia.
  - rewrite list_lookup_alter_ne, Hz by done. cbn in *. lia.
Qed.

Lemma dup_files_run cur np fds s t pid m f :
  calm s -> cur <> np -> files_open (p_ofile (tproc t cur)) (length fds) (k_ftable s) ->
  dup_files cur np fds (upd s t pid m f) =
  Ok tt (upd (s <| k_ftable := dup_refs (p_ofile (tproc t cur)) fds (k_ftable s) |>)
           (alter (fun x => x <| p_ofile ::= dup_fds (p_ofile (tproc t cur)) fds |>) np t) pid m f).
Proof.
  intros Hc Hne. revert s t Hc. induction fds as [|i fds IH]; intros s t Hc Ho; cbn [dup_files length] in *.
  { rewrite list_alter_id by (by intros []). by destruct s. }
  rewrite bind_gets, proc_at_upd. unfold dup_refs, dup_fds. cbn [foldl].
  assert (Ho' : files_open (p_ofile (tproc t cur)) (length fds) (k_ftable s)).
  { intros j y Hj. destruct (Ho j y Hj) as (? & ? & ?). split_and!; [done|done|lia]. }
  destruct (p_ofile (tproc t cur) !! i) as [[x|]|] eqn:Ei; cbn [default]; [|by apply IH..].
  destruct (Ho i x Ei) as (Hx & Hr & _).
  set (s1 := s <| k_ftable := alter one_more x (k_ftable s) |>).
  set (t1 := alter (fun y => y <| p_ofile ::= <[i := Some x]> |>) np t).
  assert (Es : (f' ← filedup x; set_proc np (fun y => y <| p_ofile ::= <[i := Some f']> |>)) (upd s t pid m f)
    = Ok tt (upd s1 t1 pid m f)).
  { rewrite (bind_ok _ _ _ _ _ (filedup_run x (upd s t pid m f) (calm_upd _ _ _ _ _ Hc) Hr)). reflexivity. }
  rewrite (bind_ok _ _ _ _ _ Es).
  assert (Et : tproc t1 cur = tproc t cur) by (unfold tproc, t1; by rewrite list_lookup_alter_ne).
  rewrite IH; rewrite ?Et; [|by apply (calm_ext s)|by apply files_open_more]. unfold t1.
  rewrite list_alter_alter_eq. reflexivity.
Qed.

(** All the descriptors of a process without open files. *)
Lemma dup_fds_take o n :
  (n <= length o)%nat -> dup_fds o (seq 0 n) (replicate (length o) None) = take n o ++ replicate (length o - n) None.
Proof.
  induction n as [|n IH]; intros Hn; [by rewrite Nat.sub_0_r|].
  rewrite seq_S. unfold dup_fds in *. rewrite foldl_app, IH by lia. cbn [foldl Nat.add].
  destruct (lookup_lt_is_Some_2 o n) as [v Hv]; [lia|]. rewrite (take_S_r _ _ _ Hv), Hv, <- app_assoc.
  replace (length o - n)%nat with (S (length o - S n)) by lia. cbn [replicate default app].
  destruct v as [x|]; cbn; [|done].
  rewrite insert_app_r_alt by (rewrite length_take; lia). rewrite length_take, Nat.min_l, Nat.sub_diag by lia. done.
Qed.

Lemma dup_fds_all o : dup_fds o (seq 0 (length o)) (replicate (length o) None) = o.
Proof. rewrite dup_fds_take by done. by rewrite firstn_all, Nat.sub_diag, app_nil_r. Qed.

(** ** Memory *)

Definition only_page (k : Z) (m m' : memory) : Prop := frame (fun p => p = k) m m'.

Lemma only_page_at k m m' a : only_page k m m' -> ~ (k <= a < k + PGSIZE) -> load8 m' a = load8 m a.
Proof. intros H Ha. apply H. by intros p ->. Qed.

Lemma only_page_other kend k m m' p :
  only_page k m m' -> page_ok kend k -> page_ok kend p -> p <> k ->
  forall a, p <= a < p + PGSIZE -> load8 m' a = load8 m a.
Proof.
  intros H Hk Hp Hn a Ha. apply (only_page_at k); [done|].
  destruct (pages_disjoint p k) as [?|?]; [apply Hp|apply Hk|done|lia|lia].
Qed.

(** Writing to a page apart from an address space keeps its entries and its pages. *)
Lemma space_page s m' pgdir n k l :
  only_page k (k_mem s) m' -> page_ok (k_end s) k -> user_space s pgdir n (k :: l) ->
  (forall i, 0 <= i < 1024 -> tab_of m' pgdir i = tab_of (k_mem s) pgdir i) /\
  (forall va, pte_of m' pgdir va = pte_of (k_mem s) pgdir va) /\
  forall i, 0 <= i < Z.of_nat n ->
    let q := upage (pte_of (k_mem s) pgdir (i * PGSIZE)) in page_bytes m' q = page_bytes (k_mem s) q.
Proof.
  intros Hm Hk (Hwf & Hsep & Hpg).
  destruct (pt_frame (k_mem s) m' pgdir (k_end s) Hwf) as [Htab Hpte].
  { intros p Hp. apply (only_page_other (k_end s) k); [done|done|by eapply pt_page_end|].
    intros ->. apply (Hsep k Hp). by left. }
  split_and!; [done|done|]. intros i Hi q. destruct (Hpg i Hi) as (_ & _ & Hq & Hn).
  apply page_bytes_ext, (only_page_other (k_end s) k); [done|done|done|]. intros Eq. apply Hn. fold q. rewrite Eq. by left.
Qed.

Lemma user_space_page s s' pgdir n k l :
  k_end s' = k_end s -> only_page k (k_mem s) (k_mem s') -> page_ok (k_end s) k ->
  user_space s pgdir n (k :: l) -> user_space s' pgdir n l.
Proof.
  intros Ee Hm Hk Hu. destruct (space_page _ _ _ _ _ _ Hm Hk Hu) as (Htab & Hpte & _).
  destruct Hu as (Hwf & Hsep & Hpg). split_and!.
  - rewrite Ee. by eapply pt_wf_ext.
  - intros p Hp Hin. rewrite pt_page_ext in Hp by done. apply (Hsep p Hp). by right.
  - intros i Hi. rewrite Hpte, Ee. destruct (Hpg i Hi) as (? & ? & ? & Hn). split_and!; [done..|].
    intros Hin. apply Hn. by right.
Qed.

(** The address space [d] of state [s] is a copy, in the pages [us], of the address
    space [pgdir] of memory [m0]: same bytes, same flags, and the kernel's entries.
    It takes the pages [l0]. *)
Record child_space (m0 : memory) (pgdir : Z) (s : kernel) (d : Z) (us l0 : list Z) : Prop := {
  cs_wf : pt_wf (k_end s) (k_mem s) d;
  cs_fresh : forall q, pt_page (k_mem s) d q \/ q ∈ us <-> q ∈ l0;
  cs_nodup : NoDup us;
  cs_page : forall i q, us !! i = Some q ->
    pte_of (k_mem s) d (Z.of_nat i * PGSIZE) = v2p q + PTE_FLAGS (pte_of m0 pgdir (Z.of_nat i * PGSIZE)) /\
    page_bytes (k_mem s) q = page_bytes m0 (upage (pte_of m0 pgdir (Z.of_nat i * PGSIZE)));
  cs_kernel : forall va, is_u32 va -> Z.of_nat (length us) * PGSIZE <= va ->
    pte_of (k_mem s) d va = kmap_pte (kmap (k_data s)) va 0;
}.

(** The copy that [copyuvm] made in [s1] while page [k] was in use, in a later
    state [s2] where only that page has changed. *)
Lemma child_space_copied s0 s1 s2 pgdir d us k l0 l' m1 :
  user_space s0 pgdir (length us) (k :: l0 ++ l') -> only_page k (k_mem s0) m1 ->
  copied m1 pgdir s1 d (k_data s1) us l0 l' -> only_page k (k_mem s1) (k_mem s2) ->
  page_ok (k_end s0) k -> k ∉ l0 ++ l' ->
  k_end s1 = k_end s0 -> k_end s2 = k_end s0 -> k_data s2 = k_data s1 ->
  child_space (k_mem s0) pgdir s2 d us l0.
Proof.
  intros Hu Hm1 [(_ & Hwf & _) Hpg [Hnd _] Hmap Hrest _] Hm2 Hk Hkl E1 E2 Ed.
  destruct (space_page _ _ _ _ _ _ Hm1 Hk Hu) as (_ & Hpte & Hb). rewrite E1 in Hwf.
  assert (Hl0 : forall p, p ∈ l0 -> p <> k) by (intros p Hp ->; apply Hkl; apply elem_of_app; by left).
  destruct (pt_frame (k_mem s1) (k_mem s2) d (k_end s0) Hwf) as [Htab Hpte2].
  { intros p Hp. apply (only_page_other (k_end s0) k); [done|done|by eapply pt_page_end|]. apply Hl0, Hpg. by left. }
  split.
  - rewrite E2. by eapply pt_wf_ext.
  - intros q. rewrite pt_page_ext by done. apply Hpg.
  - done.
  - intros i q Hq. destruct (Hmap i q Hq) as (Hok & H1 & H2). rewrite Hpte2, H1, Hpte. split; [done|].
    rewrite Hpte in H2. pose proof (lookup_lt_Some _ _ _ Hq). rewrite Hb in H2 by lia. rewrite <- H2.
    rewrite E1 in Hok. apply page_bytes_ext, (only_page_other (k_end s0) k); [done|done|done|].
    apply Hl0, Hpg. right. by eapply list_elem_of_lookup_2.
  - intros va Hva Hle. rewrite Hpte2, Ed. by apply Hrest.
Qed.

Lemma kmem_inv_page s s' k l :
  kmem_inv s (k :: l) -> k_end s' = k_end s -> k_freelist s' = load32 (k_mem s) k ->
  only_page k (k_mem s) (k_mem s') -> mem_ok (k_mem s') -> kmem_inv s' l.
Proof.
  intros (Hc & Hnd & Hp & _) Ee Ef Hm Hok. apply NoDup_cons in Hnd as [Hk Hnd]. apply Forall_cons in Hp as [Hpk Hp].
  destruct Hc as (_ & _ & Hc). split_and!; [|done|by rewrite Ee|done]. rewrite Ef. apply (chain_ext (k_mem s)); [|done].
  intros q Hq. rewrite Forall_forall in Hp. apply load32_ext. intros a Ha.
  apply (only_page_other (k_end s) k _ _ q); [done|done|by apply Hp|congruence|unfold PGSIZE; lia].
Qed.

Lemma kmem_inv_other s s' k l :
  kmem_inv s l -> k ∉ l -> page_ok (k_end s) k -> k_end s' = k_end s -> k_freelist s' = k_freelist s ->
  only_page k (k_mem s) (k_mem s') -> mem_ok (k_mem s') -> kmem_inv s' l.
Proof.
  intros (Hc & Hnd & Hp & _) Hk Hpk Ee Ef Hm Hok. split_and!; [|done|by rewrite Ee|done]. rewrite Ef.
  apply (chain_ext (k_mem s)); [|done]. intros q Hq. rewrite Forall_forall in Hp. apply load32_ext. intros a Ha.
  apply (only_page_other (k_end s) k _ _ q); [done|done|by apply Hp|congruence|unfold PGSIZE; lia].
Qed.

Lemma stack_init_page k m : only_page k m (stack_init k m).
Proof.
  intros a Ha. specialize (Ha k eq_refl). unfold stack_init, PGSIZE in *. rewrite load8_store32_out by lia.
  rewrite load8_memset, decide_False by lia. apply load8_store32_out. lia.
Qed.

Lemma stack_init_ok k m : mem_ok m -> mem_ok (stack_init k m).
Proof.
  intros H. unfold stack_init. apply mem_ok_store32. intros a. rewrite load8_memset by lia.
  case_decide; [apply u8_range|by apply mem_ok_store32].
Qed.

(** The trap frame of the child: a copy of the parent's with 0 in [%eax]. *)
Definition child_frame (ntf tf : Z) (m : memory) : memory :=
  store32 (store_bytes m ntf (load_bytes m tf (Z.to_nat tf_size))) (ntf + tf_eax) 0.

Lemma child_frame_page k tf m : only_page k m (child_frame (k + 4020) tf m).
Proof.
  intros a Ha. specialize (Ha k eq_refl). unfold child_frame, PGSIZE, tf_eax in *.
  rewrite load8_store32_out by lia. rewrite load8_store_bytes, length_load_bytes.
  change (Z.of_nat (Z.to_nat tf_size)) with 76. by rewrite decide_False by lia.
Qed.

Lemma child_frame_ok ntf tf m : mem_ok m -> mem_ok (child_frame ntf tf m).
Proof. intros H. unfold child_frame. auto with xv6. Qed.

Lemma load_tf_shift m m' a b :
  (forall i, 0 <= i < 76 -> load8 m' (a + i) = load8 m (b + i)) -> load_tf m' a = load_tf m b.
Proof.
  intros H. assert (H0 : load8 m' a = load8 m b) by (specialize (H 0 ltac:(lia)); by rewrite !Z.add_0_r in H).
  unfold load_tf, tf_eax, tf_es, tf_ds, tf_trapno, tf_err, tf_eip, tf_cs, tf_eflags, tf_esp, tf_ss.
  f_equal; unfold load32, load16; rewrite <- ?Z.add_assoc; rewrite ?H0, !H by lia; done.
Qed.

Lemma load_tf_eax m a : load_tf (store32 m (a + tf_eax) 0) a = (load_tf m a) <| t_eax := 0 |>.
Proof.
  unfold load_tf, tf_eax, tf_es, tf_ds, tf_trapno, tf_err, tf_eip, tf_cs, tf_eflags, tf_esp, tf_ss, load16.
  rewrite load32_store32_eq by done. rewrite !load32_store32_ne, !load8_store32_out by lia. reflexivity.
Qed.

Lemma child_frame_tf ntf tf m :
  mem_ok m -> load_tf (child_frame ntf tf m) ntf = (load_tf m tf) <| t_eax := 0 |>.
Proof.
  intros Hm. unfold child_frame. rewrite load_tf_eax. f_equal. apply load_tf_shift. intros i Hi.
  rewrite load8_store_bytes, length_load_bytes. change (Z.of_nat (Z.to_nat tf_size)) with 76.
  rewrite decide_True by lia. replace (ntf + i - ntf) with i by lia.
  rewrite load_bytes_lookup. rewrite decide_True by (change (Z.to_nat tf_size) with 76%nat; lia).
  rewrite Z2Nat.id by lia. apply u8_id, Hm.
Qed.

Lemma stack_init_new k m :
  is_u32 forkret_addr -> is_u32 trapret_addr -> new_stack (stack_init k m) (k + 3996).
Proof.
  intros Hf Ht. unfold new_stack, stack_init, load_context.
  replace (k + 3996 + 16) with (k + 4012) by lia. replace (k + 3996 + 20) with (k + 4016) by lia.
  rewrite load32_store32_eq by done. rewrite !load32_store32_ne by lia.
  assert (Z0 : forall o, 0 <= o -> o + 4 <= 20 -> load32 (memset (store32 m (k + 4016) trapret_addr) (k + 3996) 0 20) (k + 3996 + o) = 0).
  { intros o H1 H2. unfold load32. rewrite !load8_memset, !decide_True by lia. done. }
  assert (Z1 : load32 (memset (store32 m (k + 4016) trapret_addr) (k + 3996) 0 20) (k + 3996) = 0)
    by (specialize (Z0 0 ltac:(lia) ltac:(lia)); by rewrite Z.add_0_r in Z0).
  rewrite Z1, !Z0 by lia. split; [done|].
  transitivity (load32 (store32 m (k + 4016) trapret_addr) (k + 4016)); [|by apply load32_store32_eq].
  apply load32_ext. intros i Hi. rewrite load8_memset, decide_False by lia. done.
Qed.

Lemma new_stack_ext m m' ctx :
  (forall a, ctx <= a < ctx + 24 -> load8 m' a = load8 m a) -> new_stack m ctx -> new_stack m' ctx.
Proof.
  intros H [H1 H2]. split.
  - rewrite <- H1. unfold load_context. f_equal; apply load32_ext; intros i Hi; apply H; lia.
  - rewrite <- H2. apply load32_ext. intros i Hi. apply H. lia.
Qed.

(** ** The fork *)

(** Process [cur] runs and may fork into the slot [np]: [k] is the first free
    page and [l] are the others, and the parent has [n] pages. *)
Record may_fork (s : kernel) (cur np cwd : nat) (k : Z) (l : list Z) (n : nat) : Prop := {
  mf_calm : calm s;
  mf_debug : k_isDebug s = 0;
  mf_stride : k_isRoundRobin s = 0;
  mf_cur : curproc s = Some cur;
  mf_running : p_state (proc_at s cur) = RUNNING;
  mf_slot : find_first (fun p => state_eqb (p_state p) UNUSED) (k_ptable s) = Some np;
  mf_slot_files : p_ofile (proc_at s np) = replicate NOFILE None;
  mf_fds : length (p_ofile (proc_at s cur)) = NOFILE;
  mf_files : files_open (p_ofile (proc_at s cur)) NOFILE (k_ftable s);
  mf_cwd : p_cwd (proc_at s cur) = Some cwd;
  mf_free : kmem_inv s (k :: l);
  mf_layout : layout_ok (k_data s);
  mf_space : user_space s (p_pgdir (proc_at s cur)) n (k :: l);
  mf_size : (Z.of_nat n - 1) * PGSIZE < p_sz (proc_at s cur) <= Z.of_nat n * PGSIZE;
  mf_small : Z.of_nat n * PGSIZE <= KERNBASE;
  mf_tf : exists q, page_ok (k_end s) q /\ (q ∉ k :: l) /\
    q <= p_tf (proc_at s cur) /\ p_tf (proc_at s cur) + 76 <= q + PGSIZE;
}.
Global Arguments mf_calm {_ _ _ _ _ _ _}.
Global Arguments mf_debug {_ _ _ _ _ _ _}.
Global Arguments mf_stride {_ _ _ _ _ _ _}.
Global Arguments mf_cur {_ _ _ _ _ _ _}.
Global Arguments mf_running {_ _ _ _ _ _ _}.
Global Arguments mf_slot {_ _ _ _ _ _ _}.
Global Arguments mf_free {_ _ _ _ _ _ _}.
Global Arguments mf_layout {_ _ _ _ _ _ _}.
Global Arguments mf_space {_ _ _ _ _ _ _}.
Global Arguments mf_size {_ _ _ _ _ _ _}.
Global Arguments mf_small {_ _ _ _ _ _ _}.
Global Arguments mf_tf {_ _ _ _ _ _ _}.

(** The child of [p], process [cur], with kernel stack [k] and page directory [d]
    in the slot that held [x]. *)
Definition child (cur : nat) (p : proc) (pid tickets k d : Z) (x : proc) : proc :=
  (embryo pid tickets k x) <| p_pgdir := d |> <| p_sz := p_sz p |> <| p_parent := Some cur |>
    <| p_ofile := p_ofile p |> <| p_cwd := p_cwd p |> <| p_state := RUNNABLE |>
    <| p_name := copy_name (cstr (p_name p)) (p_name x) |>.

Definition forked (cur np cwd : nat) (tickets k d : Z) (m : memory) (f : Z) (s : kernel) : kernel :=
  let p := proc_at s cur in
  upd (s <| k_ftable := dup_refs (p_ofile p) (seq 0 NOFILE) (k_ftable s) |>
         <| k_icache ::= alter (fun x => x <| i_ref ::= fun n => i32 (n + 1) |>) cwd |>)
    (alter (child cur p (k_nextpid s) tickets k d) np (k_ptable s)) (i32 (k_nextpid s + 1))
    (child_frame (k + 4020) (p_tf p) m) f.

(** The slot after the assignments of [forks], in their order. *)
Lemma child_assigned cur p pid tickets k d cwd x :
  p_ofile x = replicate NOFILE None -> length (p_ofile p) = NOFILE -> p_cwd p = Some cwd ->
  ((fun y => y <| p_name ::= copy_name (cstr (p_name p)) |>) ∘ (fun y => y <| p_state := RUNNABLE |>)
   ∘ ((fun y => y <| p_cwd := Some cwd |>) ∘ (fun y => y <| p_ofile ::= dup_fds (p_ofile p) (seq 0 NOFILE) |>)
   ∘ ((fun y => y <| p_limitpass := 10000 ÷ tickets |>) ∘ (fun y => y <| p_stride := 10000 ÷ tickets |>)
   ∘ (fun y => y <| p_pass := 0 |>) ∘ (fun y => y <| p_tickets := tickets |>)
   ∘ ((fun y => y <| p_parent := Some cur |>) ∘ (fun y => y <| p_sz := p_sz p |>)
   ∘ (fun y => y <| p_pgdir := d |>) ∘ embryo pid tickets k)))) x = child cur p pid tickets k d x.
Proof.
  intros Hx Hl Hc. unfold child. rewrite Hc. pose proof (dup_fds_all (p_ofile p)) as Hd. rewrite Hl, <- Hx in Hd.
  match goal with |- ?L = _ => set (y := L) end. rewrite <- Hd. subst y. destruct x.
  cbv -[dup_fds copy_name cstr seq NOFILE Z.quot Z.add]. reflexivity.
Qed.

Lemma may_fork_ne s cur np cwd k l n : may_fork s cur np cwd k l n -> cur <> np /\ exists x, k_ptable s !! np = Some x.
Proof.
  intros H. pose proof (proj1 (find_first_Some _ _ _) (mf_slot H)) as (x & Hx & Hu & _).
  split; [|by exists x]. intros ->. pose proof (mf_running H) as Hr. unfold proc_at in Hr.
  rewrite Hx in Hr. cbn in Hr. by rewrite Hr in Hu.
Qed.

(** What [forks] does once [allocproc] and [copyuvm] have run. *)
Definition fork_rest (tickets : Z) (cur np : nat) (p : proc) (pgdir : Z) : K Z :=
  set_proc np (fun x => x <| p_pgdir := pgdir |>);;
  if pgdir =? 0 then
    kstack ← gets (fun s => p_kstack (proc_at s np));
    kfree kstack;;
    set_proc np (fun x => x <| p_kstack := 0 |>);;
    set_proc np (fun x => x <| p_state := UNUSED |>);;
    mret (-1)
  else
    set_proc np (fun x => x <| p_sz := p_sz p |>);;
    set_proc np (fun x => x <| p_parent := Some cur |>);;
    ntf ← gets (fun s => p_tf (proc_at s np));
    set_mem (fun m => store_bytes m ntf (load_bytes m (p_tf p) (Z.to_nat tf_size)));;
    set_proc np (fun x => x <| p_tickets := tickets |>);;
    set_proc np (fun x => x <| p_pass := 0 |>);;
    stride ← stride_of tickets;
    set_proc np (fun x => x <| p_stride := stride |>);;
    set_proc np (fun x => x <| p_limitpass := stride |>);;
    set_mem (fun m => store32 m (ntf + tf_eax) 0);;
    dup_files cur np (seq 0 NOFILE);;
    cwd ← (match p_cwd p with Some i => idup i | None => panic "trap" end);
    set_proc np (fun x => x <| p_cwd := Some cwd |>);;
    pid ← gets (fun s => p_pid (proc_at s np));
    rr ← round_robin;
    when rr (acquire L_ptable);;
    set_proc np (fun x => x <| p_state := RUNNABLE |>);;
    name ← gets (fun s => p_name (proc_at s cur));
    set_proc np (fun x => x <| p_name ::= copy_name (cstr name) |>);;
    rr ← round_robin;
    when rr (release L_ptable);;
    mret pid.

Lemma forks_copy s cur np cwd tickets k l n :
  may_fork s cur np cwd k l n -> tickets <> 0 ->
  let p := proc_at s cur in
  forks tickets s = (copyuvm (p_pgdir p) (p_sz p) ≫= fork_rest tickets cur np p) (allocated np tickets k s).
Proof.
  intros H Ht p. destruct (may_fork_ne _ _ _ _ _ _ _ H) as [Hne _].
  unfold forks. rewrite (bind_ok _ _ _ _ _ (allocproc_run np tickets k l s (mf_calm H) (mf_debug H) (mf_stride H) Ht
    (mf_slot H) (mf_free H))).
  set (s1 := allocated np tickets k s).
  unfold debugging. rewrite !bind_gets. change (k_isDebug s1) with (k_isDebug s). rewrite (mf_debug H).
  change (when (c_true 0) ?q) with (mret tt : K unit).
  rewrite (bind_ok (mret tt) _ s1 tt s1 eq_refl).
  rewrite (bind_ok deref_proc _ s1 cur s1).
  2: { unfold deref_proc. rewrite bind_gets. change (curproc s1) with (curproc s). by rewrite (mf_cur H). }
  rewrite bind_gets.
  assert (Hp1 : proc_at s1 cur = p) by (unfold s1, allocated; rewrite proc_at_upd; unfold tproc; by rewrite list_lookup_alter_ne).
  rewrite Hp1. reflexivity.
Qed.

Lemma fork_rest_run s cur np cwd tickets k l n d m f :
  may_fork s cur np cwd k l n -> tickets <> 0 -> d <> 0 ->
  let p := proc_at s cur in
  fork_rest tickets cur np p d (upd s (alter (embryo (k_nextpid s) tickets k) np (k_ptable s)) (i32 (k_nextpid s + 1)) m f)
  = Ok (k_nextpid s) (forked cur np cwd tickets k d m f s).
Proof.
  intros H Ht Hd p. destruct (may_fork_ne _ _ _ _ _ _ _ H) as [Hne [x Hx]].
  destruct H as [Hc _ Hrr _ _ _ Hsf Hfds Hfo Hcwd _ _ _ _ _ _]. unfold fork_rest.
  set (t0 := k_ptable s). set (pid := k_nextpid s).
  upd_step. destruct (Z.eqb_spec d 0); [done|]. do 2 upd_step.
  rewrite bind_gets, proc_at_upd, !list_alter_alter_eq, (tproc_alter t0 np _ x Hx).
  match goal with |- context [p_tf (?g x)] => change (p_tf (g x)) with (k + 4020) end.
  do 3 upd_step.
  match goal with |- context [(stride_of tickets ≫= _) ?st] => rewrite (bind_ok (stride_of tickets) _ st (Z.quot 10000 tickets) st) end.
  2: { unfold stride_of. by destruct (Z.eqb_spec tickets 0). }
  do 3 upd_step. rewrite !list_alter_alter_eq.
  match goal with |- context [alter ?g np t0] => set (g1 := g) end. set (t1 := alter g1 np t0).
  assert (Hp : tproc t1 cur = p) by (unfold t1; by rewrite tproc_alter_ne).
  set (m3 := store32 _ (k + 4020 + tf_eax) 0).
  set (s3 := s <| k_ftable := dup_refs (p_ofile p) (seq 0 NOFILE) (k_ftable s) |>).
  set (t3 := alter (fun y => y <| p_ofile ::= dup_fds (p_ofile p) (seq 0 NOFILE) |>) np t1).
  assert (Ed : dup_files cur np (seq 0 NOFILE) (upd s t1 (i32 (pid + 1)) m3 f) = Ok tt (upd s3 t3 (i32 (pid + 1)) m3 f)).
  { rewrite dup_files_run; rewrite ?Hp; done. }
  rewrite (bind_ok _ _ _ _ _ Ed). change (p_cwd p = Some cwd) in Hcwd. rewrite Hcwd.
  rewrite (bind_ok _ _ _ _ _ (idup_upd cwd s3 t3 (i32 (pid + 1)) m3 f (calm_ext s s3 Hc eq_refl eq_refl eq_refl))).
  set (s4 := s3 <| k_icache ::= alter (fun x => x <| i_ref ::= fun n => i32 (n + 1) |>) cwd |>).
  upd_step. unfold t3, t1. rewrite !list_alter_alter_eq.
  rewrite bind_gets, proc_at_upd, (tproc_alter t0 np _ x Hx).
  match goal with |- context [p_pid (?g x)] => change (p_pid (g x)) with pid end.
  unfold round_robin. rewrite bind_gets. change (k_isRoundRobin (upd s4 _ _ _ _)) with (k_isRoundRobin s). rewrite Hrr.
  change (when (c_true 0) ?q) with (mret tt : K unit). rewrite (bind_ok (mret tt) _ (upd s4 _ _ _ _) tt _ eq_refl).
  upd_step. rewrite bind_gets, proc_at_upd, tproc_alter_ne, tproc_alter_ne by done. change (tproc t0 cur) with p.
  upd_step. rewrite bind_gets. change (k_isRoundRobin (upd s4 _ _ _ _)) with (k_isRoundRobin s). rewrite Hrr.
  change (when (c_true 0) ?q) with (mret tt : K unit). rewrite (bind_ok (mret tt) _ (upd s4 _ _ _ _) tt _ eq_refl).
  rewrite !list_alter_alter_eq.
  match goal with |- _ (upd s4 ?t _ _ _) = _ => transitivity (Ok pid (upd s4 t (i32 (pid + 1)) m3 f)); [done|] end.
  unfold forked. fold p pid t0.
  refine (f_equal (fun t => Ok pid (upd s4 t (i32 (pid + 1)) m3 f)) _).
  apply list_alter_ext; [|done]. intros y Hy. unfold t0 in Hy. rewrite Hx in Hy. injection Hy as <-.
  apply child_assigned; [|done..]. unfold proc_at in Hsf. by rewrite Hx in Hsf.
Qed.

Lemma upd_mem s m f : s <| k_mem := m |> <| k_freelist := f |> = upd s (k_ptable s) (k_nextpid s) m f.
Proof. by destruct s. Qed.

(** With the lock settled, the virtual memory code changes memory only. *)
Lemma calm_vm_rel s s' : calm s -> vm_rel s s' -> exists m f, s' = upd s (k_ptable s) (k_nextpid s) m f.
Proof.
  intros Hc (m & f & H). rewrite (calm_ksettled _ Hc), upd_mem in H. exists m, f. by destruct H.
Qed.

(** A fork that fails gives the kernel stack and the slot back. *)
Definition unforked (np : nat) (k : Z) (s : kernel) : kernel :=
  (push_free k s) <| k_ptable ::= alter (fun x => x <| p_pgdir := 0 |> <| p_kstack := 0 |> <| p_state := UNUSED |>) np |>.

Lemma push_free_upd k s t pid m f :
  push_free k (upd s t pid m f) = upd s t pid (store32 (memset m k 1 PGSIZE) k f) k.
Proof. reflexivity. Qed.

Lemma kfree_upd k s t pid m f :
  calm s -> page_ok (k_end s) k ->
  kfree k (upd s t pid m f) = Ok tt (upd s t pid (store32 (memset m k 1 PGSIZE) k f) k).
Proof.
  intros Hc Hk. pose proof (calm_upd s t pid m f Hc) as Hc1.
  by rewrite (kfree_run 0 k _ (calm_kmem _ Hc1) Hk), (calm_ksettled _ Hc1), push_free_upd.
Qed.

Lemma unforked_upd np k s t pid m f :
  unforked np k (upd s t pid m f) =
  upd s (alter (fun x => x <| p_pgdir := 0 |> <| p_kstack := 0 |> <| p_state := UNUSED |>) np t) pid
    (store32 (memset m k 1 PGSIZE) k f) k.
Proof. reflexivity. Qed.

Lemma fork_rest_fail tickets cur np p k s t pid m f y :
  calm s -> page_ok (k_end s) k -> t !! np = Some y -> p_kstack y = k ->
  fork_rest tickets cur np p 0 (upd s t pid m f) = Ok (-1) (unforked np k (upd s t pid m f)).
Proof.
  intros Hc Hk Hy Hks. rewrite unforked_upd. unfold fork_rest. upd_step. change (0 =? 0) with true. cbv iota.
  rewrite bind_gets, proc_at_upd, (tproc_alter _ np _ y Hy).
  match goal with |- context [p_kstack (?g y)] => change (p_kstack (g y)) with (p_kstack y) end. rewrite Hks.
  rewrite (bind_ok _ _ _ _ _ (kfree_upd k s _ _ m f Hc Hk)).
  do 2 upd_step. rewrite !list_alter_alter_eq. reflexivity.
Qed.

(** The state in which [copyuvm] runs. *)
Lemma allocated_ready s cur np cwd tickets k l n :
  may_fork s cur np cwd k l n ->
  let s1 := allocated np tickets k s in
  calm s1 /\ kmem_inv s1 l /\ user_space s1 (p_pgdir (proc_at s cur)) n l.
Proof.
  intros H s1. pose proof (mf_free H) as Hf. pose proof Hf as (_ & _ & Hk & Hm). apply Forall_cons in Hk as [Hk _].
  pose proof (stack_init_page k (k_mem s)) as Hp. split_and!.
  - apply calm_upd, H.
  - apply (kmem_inv_page s s1 k); [done|done|done|exact Hp|by apply stack_init_ok].
  - apply (user_space_page s s1 _ n k); [done|exact Hp|done|apply H].
Qed.

Lemma allocated_vm s cur np cwd tickets k l n s' :
  may_fork s cur np cwd k l n -> vm_rel (allocated np tickets k s) s' ->
  exists m f, s' = upd s (alter (embryo (k_nextpid s) tickets k) np (k_ptable s)) (i32 (k_nextpid s + 1)) m f.
Proof.
  intros H Hr. destruct (allocated_ready s cur np cwd tickets k l n H) as (Hc & _).
  destruct (calm_vm_rel _ _ Hc Hr) as (m & f & ->). exists m, f. unfold allocated. by rewrite upd_upd.
Qed.

(** Memory after the fork, [m] being what [copyuvm] left. *)
Lemma forked_stack k l0 m0 m tf q kend :
  is_u32 forkret_addr -> is_u32 trapret_addr -> mem_ok m ->
  page_ok kend k -> Forall (page_ok kend) l0 -> k ∉ l0 -> page_ok kend q -> q ∉ k :: l0 -> q <= tf -> tf + 76 <= q + PGSIZE ->
  frame (fun p => p ∈ l0) (stack_init k m0) m ->
  let m' := child_frame (k + 4020) tf m in
  new_stack m' (k + 3996) /\ load_tf m' (k + 4020) = (load_tf m0 tf) <| t_eax := 0 |> /\
  frame (fun p => p ∈ k :: l0) m0 m'.
Proof.
  intros Hf Ht Hm Hk Hl Hkl Hq Hql Htf1 Htf2 Hfr m'. rewrite Forall_forall in Hl.
  apply not_elem_of_cons in Hql as [Hqk Hql]. split_and!.
  - apply (new_stack_ext (stack_init k m0)); [|by apply stack_init_new]. intros a Ha. unfold m', child_frame.
    rewrite load8_store32_out by (unfold tf_eax; lia).
    rewrite load8_store_bytes, decide_False by lia.
    apply (frame_page _ _ _ kend k Hfr Hk Hl Hkl). unfold PGSIZE. lia.
  - unfold m'. rewrite child_frame_tf by done. f_equal. apply load_tf_ext. intros b Hb.
    rewrite (frame_page _ _ _ kend q Hfr Hq Hl Hql) by lia.
    apply (only_page_other kend k _ _ q (stack_init_page k m0)); [done..|lia].
  - intros a Ha. unfold m'. rewrite (only_page_at k _ _ a (child_frame_page k tf m)) by (apply Ha; by left).
    rewrite Hfr by (intros p Hp; apply Ha; by right).
    apply (only_page_at k _ _ a (stack_init_page k m0)), Ha. by left.
Qed.

(** Memory after the fork. *)
Lemma forked_memory s cur np cwd tickets k n d us l0 l' t pid m f :
  may_fork s cur np cwd k (l0 ++ l') n -> is_u32 forkret_addr -> is_u32 trapret_addr -> length us = n ->
  let p := proc_at s cur in
  copied (stack_init k (k_mem s)) (p_pgdir p) (upd s t pid m f) d (k_data s) us l0 l' ->
  let s' := forked cur np cwd tickets k d m f s in
  child_space (k_mem s) (p_pgdir p) s' d us l0 /\ new_stack (k_mem s') (k + 3996) /\
  load_tf (k_mem s') (k + 4020) = (load_tf (k_mem s) (p_tf p)) <| t_eax := 0 |> /\
  frame (fun q => q ∈ k :: l0) (k_mem s) (k_mem s') /\ kmem_inv s' l'.
Proof.
  intros H Hfr Htr Hlen p Hcp s'. pose proof (mf_free H) as (_ & Hnd & Hpg & _). apply Forall_cons in Hpg as [Hk Hl].
  apply NoDup_cons in Hnd as [Hkl _]. pose proof (cp_ok _ _ _ _ _ _ _ _ Hcp) as (Hi & _).
  pose proof Hi as (_ & _ & _ & Hm). pose proof (child_frame_page k (p_tf p) m) as Hop.
  destruct (mf_tf H) as (q & Hq & Hql & Hq1 & Hq2). rewrite elem_of_cons, elem_of_app in Hql. rewrite elem_of_app in Hkl.
  apply Forall_app in Hl as [Hl _].
  pose proof (forked_stack k l0 (k_mem s) m (p_tf p) q (k_end s) Hfr Htr Hm Hk Hl ltac:(tauto) Hq
    ltac:(rewrite elem_of_cons; tauto) Hq1 Hq2 (cp_frame _ _ _ _ _ _ _ _ Hcp)) as (H1 & H2 & H3).
  split_and!; [|exact H1|exact H2|exact H3|].
  - apply (child_space_copied s (upd s t pid m f) s' _ _ _ k l0 l' (stack_init k (k_mem s)));
      [rewrite Hlen; apply H|apply stack_init_page|done|exact Hop|done|by rewrite elem_of_app|done..].
  - apply (kmem_inv_other (upd s t pid m f) s' k); [done|tauto|done|done|done|exact Hop|by apply child_frame_ok].
Qed.

Lemma bind_same {A B} (c c' : K A) (g : A -> K B) s s' : c s = c' s' -> (c ≫= g) s = (c' ≫= g) s'.
Proof. intros H. change (res_bind g (c s) = res_bind g (c' s')). by rewrite H. Qed.
End fork.

(** ** The theorem *)


(** Example: the process in slot 0 of [ex_space], with one page and one open
    file, forks into slot 1. *)
Definition ex_parent : proc :=
  proc0 <| p_sz := 4096 |> <| p_pgdir := ex_dir |> <| p_state := RUNNING |> <| p_pid := 1 |>
    <| p_tf := 2150653876 |> <| p_cwd := Some 0%nat |> <| p_ofile ::= <[0%nat := Some 0%nat]> |>.
Definition ex_forker : kernel :=
  ex_space <| k_ptable ::= <[0%nat := ex_parent]> |> <| k_isRoundRobin := 0 |> <| k_nextpid := 2 |>
    <| k_ftable ::= alter (fun x => x <| f_ref := 1 |>) 0%nat |>
    <| k_cpus ::= alter (fun c => settle_cpu (c <| c_proc := Some 0%nat |>)) 0%nat |>.

Lemma ex_forker_calm : calm ex_forker.
Proof.
  apply (calm_ext (kernel0 <| k_cpus ::= alter (fun c => settle_cpu (c <| c_proc := Some 0%nat |>)) 0%nat |>)); [|done..].
  split.
  - split_and!; vm_compute; (lia || congruence || done).
  - vm_compute. reflexivity.
  - intros l [->|[->|[->| ->]]]; eexists; vm_compute; reflexivity.
Qed.

Lemma ex_may_fork : may_fork ex_forker 0 1 0 2150633472 [2150629376] 1.
Proof.
  destruct ex_space_inv as [Hi Hu]. split.
  - exact ex_forker_calm.
  - reflexivity.
  - reflexivity.
  - reflexivity.
  - reflexivity.
  - reflexivity.
  - reflexivity.
  - reflexivity.
  - intros i x. destruct i as [|i]; [intros [= <-]; vm_compute; intuition (lia || congruence)|].
    intros Hx. exfalso. change (p_ofile _) with (Some 0%nat :: replicate 15 (@None nat)) in Hx.
    cbn [lookup list_lookup] in Hx. apply lookup_replicate in Hx as [Hx _]. discriminate Hx.
  - reflexivity.
  - exact Hi.
  - vm_compute. intuition congruence.
  - exact Hu.
  - vm_compute. split; congruence.
  - vm_compute. congruence.
  - exists 2150649856. split_and!; [vm_compute; intuition congruence| |vm_compute; congruence..].
    intros Hin. repeat (apply elem_of_cons in Hin as [Hin|Hin]; [discriminate Hin|]). by apply elem_of_nil in Hin.
Qed.

Section example.
#[local] Instance ex_fork_image : Image :=
  {| trapret_addr := 526; forkret_addr := 1280; initcode_start := 0; initcode_size := 0 |}.
#[local] Instance ex_fork_env : Env := ide_env 1.

End example.
