(* ===== verification/BootAsm.v ===== *)
(** bootasm.S, entry.S, entryother.S and initcode.S with the macros of asm.h: from
    the BIOS to [bootmain], from [bootmain] to [main], from the startup interrupt of
    another processor to [mpenter], and the first user program.

    Before paging is on memory is indexed by physical addresses; the code of these
    files and its data lie in the first 4 MB, which [entrypgdir] maps to
    themselves. *)
From S2P Require Import Prelude Memory Kernel Spinlock Hw Ide Kalloc Vm Proc Trap Apic Main Ints Asm TrapAsm.

(** ** Segment descriptors (asm.h) *)

Definition word (v : Z) : list Z := [u8 v; u8 (Z.shiftr v 8)].
Definition long (v : Z) : list Z := [u8 v; u8 (Z.shiftr v 8); u8 (Z.shiftr v 16); u8 (Z.shiftr v 24)].

Definition SEG_NULLASM : list Z := word 0 ++ word 0 ++ [0; 0; 0; 0].
Definition SEG_ASM (type base lim : Z) : list Z :=
  word (Z.land (Z.shiftr lim 12) 0xffff) ++ word (Z.land base 0xffff) ++
  [Z.land (Z.shiftr base 16) 0xff; Z.lor 0x90 type; Z.lor 0xC0 (Z.land (Z.shiftr lim 28) 0xf);
   Z.land (Z.shiftr base 24) 0xff].

(** The table of bootasm.S and entryother.S, and its descriptor. *)
Definition gdt_bytes : list Z :=
  SEG_NULLASM ++ SEG_ASM (Z.lor STA_X STA_R) 0x0 0xffffffff ++ SEG_ASM STA_W 0x0 0xffffffff.
Definition gdtdesc_bytes (gdt gdtdesc : Z) : list Z := word (gdtdesc - gdt - 1) ++ long gdt.

(** What the processor reads in a descriptor: base, limit in bytes, access. *)
Definition desc_base (m : memory) (d : Z) : Z :=
  load8 m (d + 2) + 2 ^ 8 * load8 m (d + 3) + 2 ^ 16 * load8 m (d + 4) + 2 ^ 24 * load8 m (d + 7).
Definition desc_limit (m : memory) (d : Z) : Z :=
  let l := load8 m d + 2 ^ 8 * load8 m (d + 1) + 2 ^ 16 * (load8 m (d + 6) mod 16) in
  if has_bits (load8 m (d + 6)) 0x80 then l * 4096 + 4095 else l.

(** A segment of the whole address space for the kernel, with [access]. *)
Definition flat_segment (m : memory) (gdt sel access : Z) : Prop :=
  let d := gdt + sel in
  desc_base m d = 0 /\ desc_limit m d = 2 ^ 32 - 1 /\ load8 m (d + 5) = Z.lor 0x90 access.

(** The table is in memory, [gdtdesc] after [gdt]. *)
Record gdt_loaded (m : memory) (gdt gdtdesc : Z) : Prop := {
  gl_gdt : load_bytes m gdt 24 = gdt_bytes;
  gl_desc : load_bytes m gdtdesc 6 = gdtdesc_bytes gdt gdtdesc;
  gl_pos : gdtdesc = gdt + 24;
}.

Lemma load_bytes_at m a n l i v : load_bytes m a n = l -> 0 <= i -> l !! Z.to_nat i = Some v -> load8 m (a + i) = v.
Proof.
  intros <- Hi. rewrite load_bytes_lookup. case_decide; [|done]. rewrite Z2Nat.id by done. by intros [= <-].
Qed.

Lemma gdt_flat m gdt gdtdesc :
  gdt_loaded m gdt gdtdesc ->
  flat_segment m gdt 8 (Z.lor STA_X STA_R) /\ flat_segment m gdt 16 STA_W /\
  code_base m (gdtdesc - gdt - 1, gdt) 8 = Some 0.
Proof.
  intros [Hg _ ->]. unfold flat_segment, desc_base, desc_limit, code_base. cbn [fst snd].
  replace (gdt + 24 - gdt - 1) with 23 by lia. replace (gdt + 8 - 8 mod 8) with (gdt + 8) by (rewrite Z.mod_same; lia).
  rewrite <- !Z.add_assoc. cbn [Z.add Pos.add Pos.succ].
  repeat match goal with
  | |- context [load8 m (gdt + ?i)] => erewrite (load_bytes_at m gdt 24 _ i) by (exact Hg || lia || reflexivity)
  end.
  vm_compute. tauto.
Qed.

Lemma gdt_load {D} (st : mach D) gdt gdtdesc :
  gdt_loaded (m_mem st) gdt gdtdesc -> 0 <= gdt < 2 ^ 24 -> load_gdtr st gdtdesc = (gdtdesc - gdt - 1, gdt).
Proof.
  intros [_ Hd ->] Hg. unfold load_gdtr, load32. replace (gdt + 24 - gdt - 1) with 23 in * by lia.
  set (a := gdt + 24) in *. replace (load8 (m_mem st) a) with (load8 (m_mem st) (a + 0)) by (f_equal; lia).
  rewrite <- !Z.add_assoc. cbn [Z.add Pos.add Pos.succ].
  repeat match goal with
  | |- context [load8 (m_mem st) (a + ?i)] =>
      erewrite (load_bytes_at (m_mem st) a 6 _ i) by (exact Hd || lia || reflexivity)
  end.
  rewrite !Z.shiftr_div_pow2 by lia. replace (a - gdt - 1) with 23 by lia.
  change (2 ^ 24) with (2 ^ 8 * 2 ^ 16) in *. change (2 ^ 16) with (2 ^ 8 * 2 ^ 8) in *. rewrite <- !Z.div_div by lia.
  f_equal. destruct (has_bits _ _); [wrap_lia|]. rewrite Z.mod_small; wrap_lia.
Qed.

(** ** bootasm.S *)

(** The labels, and [bootmain]. *)
Class BootLabels := {
  boot_start : Z; seta20_1 : Z; seta20_2 : Z; boot_prot : Z; boot_start32 : Z; boot_back : Z; boot_spin : Z;
  boot_gdt : Z; boot_gdtdesc : Z; bootmain_addr : Z;
}.

(** Real mode, data segments zero. *)
Definition zero_segs_S : list instr := [
  Cli;
  Xorw_rr EAX EAX;
  Movw_rs EAX DS;
  Movw_rs EAX ES;
  Movw_rs EAX SS].

(** Wait for the keyboard controller at label [a], and send it a byte. *)
Definition seta20_S (a v port : Z) : list instr := [
  Inb 0x64;
  Testb_ir 0x2 EAX;
  Jnz a;
  Movb_ir v EAX;
  Outb port].

(** Switch to protected mode, and go on at [start32]. *)
Definition protect_S (gdtdesc start32 : Z) : list instr := [
  Lgdt gdtdesc;
  Movl_cr CR0 EAX;
  Orl_ir CR0_PE EAX;
  Movl_rc EAX CR0;
  Ljmp (Z.shiftl SEG_KCODE 3) start32].

Definition data_segs_S : list instr := [
  Movw_ir (Z.shiftl SEG_KDATA 3) EAX;
  Movw_rs EAX DS;
  Movw_rs EAX ES;
  Movw_rs EAX SS;
  Movw_ir 0 EAX;
  Movw_rs EAX FS;
  Movw_rs EAX GS].

(** A breakpoint of Bochs, then a loop. *)
Definition bochs_S (spin : Z) : list instr := [
  Movw_ir 0x8a00 EAX;
  Movw_rr EAX EDX;
  Outw;
  Movw_ir 0x8ae0 EAX;
  Outw;
  Jmp spin].

Definition call_bootmain_S `{!BootLabels} : list instr := [
  Movl_ir boot_start ESP;
  Call bootmain_addr].

Definition bootasm_S `{!BootLabels} : list instr :=
  zero_segs_S ++ seta20_S seta20_1 0xd1 0x64 ++ seta20_S seta20_2 0xdf 0x60 ++ protect_S boot_gdtdesc boot_start32 ++
  data_segs_S ++ call_bootmain_S ++ bochs_S boot_spin.

(** The code is at [start], and the labels are where they stand in it. *)
Record boot_loaded `{!Code, !BootLabels} : Prop := {
  bl_code : located boot_start bootasm_S;
  bl_seta20_1 : seta20_1 = after boot_start zero_segs_S;
  bl_seta20_2 : seta20_2 = after seta20_1 (seta20_S seta20_1 0xd1 0x64);
  bl_prot : boot_prot = after seta20_2 (seta20_S seta20_2 0xdf 0x60);
  bl_start32 : boot_start32 = after boot_prot (protect_S boot_gdtdesc boot_start32);
  bl_back : boot_back = after boot_start32 (data_segs_S ++ call_bootmain_S);
  bl_spin : boot_spin = after boot_back (removelast (bochs_S boot_spin));
}.

(** The controller is asked at most [n] times whether it is ready. *)
Fixpoint kbc_wait {D} `{!Device D} (n : nat) (d : D) : option D :=
  match n with
  | O => None
  | S n' => let '(v, d1) := d_in (Port8 0x64) d in if Z.land (u8 v) 0x2 =? 0 then Some d1 else kbc_wait n' d1
  end.

Section boot.
Context {D : Type} `{!Device D} `{!Code}.
Variable int : Z -> mach D -> option (mach D).
Implicit Types st : mach D.

(** [st] with the registers changed that the boot code uses. *)
Definition boot_state (eax fl eip : Z) (sg : segs) (d : D) st : mach D :=
  st <| m_regs ::= setr EAX eax |> <| m_eflags := fl |> <| m_eip := eip |> <| m_segs := sg |> <| m_dev := d |>.

Definition if_off (fl : Z) : Prop := Z.testbit fl 9 = false.

Lemma if_off_cli fl : if_off (Z.land fl (Z.lnot FL_IF)).
Proof. unfold if_off. by rewrite Z.land_spec, andb_false_r. Qed.

(** The zero flag: setting it, and its test. *)
Definition zf_of (b : bool) (fl : Z) : Z := if b then Z.lor fl FL_ZF else Z.land fl (Z.lnot FL_ZF).

Lemma zf_of_test b fl : has_bits (zf_of b fl) FL_ZF = b.
Proof.
  change FL_ZF with (2 ^ 6). rewrite has_bits_bit by lia. unfold zf_of.
  destruct b; [rewrite Z.lor_spec; by rewrite orb_true_r|rewrite Z.land_spec; by rewrite andb_false_r].
Qed.

Lemma if_off_zf b fl : if_off fl -> if_off (zf_of b fl).
Proof.
  unfold if_off, zf_of. intros E. destruct b; [rewrite Z.lor_spec|rewrite Z.land_spec]; by rewrite E.
Qed.

Lemma zero_segs_exec st :
  exists eax, exec_seq int zero_segs_S st =
    Some (boot_state eax (zf_of true (Z.land (m_eflags st) (Z.lnot FL_IF))) (after (m_eip st) zero_segs_S)
      ((m_segs st) <| s_ds := 0 |> <| s_es := 0 |> <| s_ss := 0 |>) (m_dev st) st).
Proof.
  asm_parts st. unfold zero_segs_S, boot_state. asm_exec. rewrite Z.lxor_nilpotent, u16_low16. eexists. reflexivity.
Qed.

(** One turn of the loop that waits. *)
Lemma poll_exec a x f e sg d st :
  let '(v, d1) := d_in (Port8 0x64) d in
  exists x', exec_seq int [Inb 0x64; Testb_ir 0x2 EAX; Jnz a] (boot_state x f e sg d st) =
    let ready := Z.land (u8 v) 0x2 =? 0 in
    Some (boot_state x' (zf_of ready f) (if ready then after e [Inb 0x64; Testb_ir 0x2 EAX; Jnz a] else a) sg d1 st).
Proof.
  destruct (d_in (Port8 0x64) d) as [v d1] eqn:Ed. asm_parts st. unfold boot_state. exists (low8 x v). asm_exec.
  rewrite Ed. asm_exec. rewrite u8_low8. fold (zf_of (Z.land (u8 v) 2 =? 0) f). rewrite zf_of_test.
  by destruct (Z.land (u8 v) 2 =? 0).
Qed.

(** The loop ends when the controller is ready, and the byte is sent. *)
Lemma seta20_reaches n v port x f a sg d d' st :
  located a (seta20_S a v port) -> kbc_wait n d = Some d' -> if_off f -> 0 <= v < 2 ^ 8 ->
  exists x' f', reaches int (boot_state x f a sg d st)
      (boot_state x' f' (after a (seta20_S a v port)) sg (d_out (Port8 port) v d') st) /\ if_off f'.
Proof.
  intros Hl. apply (located_app a [Inb 0x64; Testb_ir 0x2 EAX; Jnz a]) in Hl as [Hw Hs].
  revert x f d; induction n as [|n IH]; intros x f d Hd Hf Hv; [done|]. cbn [kbc_wait] in Hd.
  pose proof (poll_exec a x f a sg d st) as Hp. destruct (d_in (Port8 0x64) d) as [w d1]. destruct Hp as [x1 E].
  apply reaches_seq in E; [|done|done]. destruct (Z.land (u8 w) 2 =? 0) eqn:Er.
  - injection Hd as ->. exists (low8 x1 v), (zf_of true f). split; [|by apply if_off_zf].
    eapply reaches_trans; [exact E|]. eapply reaches_seq; [exact Hs|done|].
    clear E. asm_parts st. unfold boot_state. asm_exec. rewrite u8_low8. unfold u8. rewrite Z.mod_small by exact Hv. reflexivity.
  - destruct (IH x1 (zf_of false f) d1 Hd (if_off_zf _ _ Hf) Hv) as (x' & f' & E' & Hf'). exists x', f'.
    split; [|done]. by eapply reaches_trans.
Qed.

Lemma has_pe v : has_bits (Z.lor v CR0_PE) CR0_PE = true.
Proof. change CR0_PE with (2 ^ 0). rewrite has_bits_bit, Z.lor_spec by lia. by rewrite orb_true_r. Qed.

(** The switch to protected mode. *)
Lemma protect_exec gdt gdtdesc start32 x f e sg d st :
  gdt_loaded (m_mem st) gdt gdtdesc -> 0 <= gdt < 2 ^ 24 -> has_bits (m_cr0 st) CR0_PE = false -> s_ds sg = 0 ->
  is_u32 start32 ->
  exists x' b, exec_seq int (protect_S gdtdesc start32) (boot_state x f e sg d st) =
    Some (boot_state x' (zf_of b f) start32 (sg <| s_cs := Z.shiftl SEG_KCODE 3 |>) d
      (st <| m_gdtr := (gdtdesc - gdt - 1, gdt) |> <| m_cr0 ::= fun c => Z.lor c CR0_PE |>)).
Proof.
  intros Hg Hr Hpe Hds Hs. exists (Z.lor (m_cr0 st) CR0_PE), (Z.lor (m_cr0 st) CR0_PE =? 0).
  destruct sg as [scs sds ses sfs sgs sss]. asm_parts st. cbn in Hg, Hpe, Hds. subst sds.
  unfold protect_S, boot_state. asm_exec. unfold linear, far_jump. asm_exec. rewrite Hpe. asm_exec.
  rewrite gdt_load with (gdt := gdt) by done. asm_exec. rewrite has_pe.
  replace (code_base _ _ _) with (Some 0) by (symmetry; by apply gdt_flat). asm_exec.
  rewrite u32_id by done. done.
Qed.

Definition kernel_segs : segs :=
  Mksegs (Z.shiftl SEG_KCODE 3) (Z.shiftl SEG_KDATA 3) (Z.shiftl SEG_KDATA 3) 0 0 (Z.shiftl SEG_KDATA 3).

Lemma data_segs_exec x f e sg d st :
  s_cs sg = Z.shiftl SEG_KCODE 3 ->
  exists x', exec_seq int data_segs_S (boot_state x f e sg d st) =
    Some (boot_state x' f (after e data_segs_S) kernel_segs d st).
Proof.
  intros Ecs. destruct sg as [scs sds ses sfs sgs sss]. cbn in Ecs. subst scs. asm_parts st.
  unfold data_segs_S, boot_state, kernel_segs. asm_exec. rewrite !u16_low16. eexists. reflexivity.
Qed.

(** A stack, and a call. *)
Lemma call_on_stack a ra sp st :
  4 <= sp < 2 ^ 32 -> is_u32 ra ->
  exists st', st' = jump a (push ra (set_reg ESP sp st)) /\
    m_eip st' = a /\ m_segs st' = m_segs st /\ m_gdtr st' = m_gdtr st /\ m_cr0 st' = m_cr0 st /\
    m_eflags st' = m_eflags st /\ m_dev st' = m_dev st /\ reg_at st' ESP = sp - 4 /\ top st' = ra /\
    same_outside (sp - 4) sp (m_mem st) (m_mem st') /\ m_cr3 st' = m_cr3 st /\ m_cr4 st' = m_cr4 st.
Proof.
  intros Hsp Hra. eexists. split; [reflexivity|].
  assert (E : u32 (sp - 4) = sp - 4) by (rewrite u32_id; wrap_lia).
  split_and!; try reflexivity; [exact E| |].
  - change (load32 (store32 (m_mem st) (u32 (sp - 4)) ra) (u32 (sp - 4)) = ra). by apply load32_store32_eq.
  - intros b Hb. change (load8 (store32 (m_mem st) (u32 (sp - 4)) ra) b = load8 (m_mem st) b).
    rewrite E. apply load8_store32_out. lia.
Qed.

Lemma call_imm_exec a sp st :
  exec_seq int [Movl_ir sp ESP; Call a] st =
    Some (jump a (push (after (m_eip st) [Movl_ir sp ESP; Call a]) (set_reg ESP (u32 sp) st))).
Proof. reflexivity. Qed.

Lemma call_mem_exec asp af sp a st :
  has_bits (m_cr0 st) CR0_PE = true -> load32 (m_mem st) asp = sp -> load32 (m_mem st) af = a ->
  exec_seq int [Movl_ar asp ESP; Call_a af] st =
    Some (jump a (push (after (m_eip st) [Movl_ar asp ESP; Call_a af]) (set_reg ESP sp st))).
Proof.
  intros Hpe <- <-. asm_parts st. cbn in Hpe. asm_exec. unfold linear. asm_exec. rewrite Hpe. reflexivity.
Qed.

(** After a return that should not happen, the processor stays at [spin]. *)
Lemma bochs_spins spin st :
  located (m_eip st) (bochs_S spin) -> spin = after (m_eip st) (removelast (bochs_S spin)) ->
  exists k, forall n, exists st', run int (k + n) st = Some st' /\ m_eip st' = spin.
Proof.
  intros Hl Es. pose proof Hl as Hl'. change (bochs_S spin) with (removelast (bochs_S spin) ++ [Jmp spin]) in Hl'.
  apply located_app in Hl' as [H1 [H2 _]]. rewrite <- Es in H2.
  exists 5%nat. intros n. rewrite run_app. change 5%nat with (length (removelast (bochs_S spin))). rewrite run_seq by done.
  destruct (exec_seq int (removelast (bochs_S spin)) st) as [st1|] eqn:E; cycle 1.
  { asm_parts st. revert E. cbn [removelast bochs_S]. asm_exec. done. }
  assert (E1 : m_eip st1 = spin).
  { rewrite Es. asm_parts st. revert E. cbn [removelast bochs_S]. asm_exec. intros [= <-]. reflexivity. }
  cbn [mbind option_bind]. clear E. revert st1 E1; induction n as [|n IH]; intros st1 E1; [by exists st1|].
  cbn [run]. unfold step. rewrite E1, H2. cbn [mbind option_bind exec]. by apply IH.
Qed.
End boot.

(** ** entry.S *)

(** The kernel's entry point and its data: [entry] is the linked, high, address. *)
Class EntryLabels := { entry_addr : Z; stack_addr : Z; main_addr : Z }.

Definition paging_S (cr3 : list instr) (bits : Z) : list instr :=
  [Movl_cr CR4 EAX;
   Orl_ir CR4_PSE EAX;
   Movl_rc EAX CR4] ++
  cr3 ++
  [Movl_rc EAX CR3;
   Movl_cr CR0 EAX;
   Orl_ir bits EAX;
   Movl_rc EAX CR0].

Definition entry_S {L : Linked} `{!EntryLabels} : list instr :=
  paging_S [Movl_ir (v2p entrypgdir_addr) EAX] (Z.lor CR0_PG CR0_WP) ++
  [Movl_ir (stack_addr + KSTACKSIZE) ESP;
   Movl_ir main_addr EAX;
   Jmp_r EAX].

(** ** entryother.S *)

Class OtherLabels := {
  other_start : Z; other_start32 : Z; other_back : Z; other_spin : Z; other_gdt : Z; other_gdtdesc : Z;
}.

Definition other_cr3 `{!OtherLabels} : instr := Movl_ar (other_start - 12) EAX.
Definition other_bits : Z := Z.lor (Z.lor CR0_PE CR0_PG) CR0_WP.

Definition start32_other_S `{!OtherLabels} : list instr :=
  data_segs_S ++
  paging_S [other_cr3] other_bits ++
  [Movl_ar (other_start - 4) ESP;
   Call_a (other_start - 8)].

Definition entryother_S `{!OtherLabels} : list instr :=
  zero_segs_S ++ protect_S other_gdtdesc other_start32 ++ start32_other_S ++ bochs_S other_spin.

Record other_loaded `{!Code, !OtherLabels} : Prop := {
  ol_code : located other_start entryother_S;
  ol_start32 : other_start32 = after other_start (zero_segs_S ++ protect_S other_gdtdesc other_start32);
  ol_back : other_back = after other_start32 start32_other_S;
  ol_spin : other_spin = after other_back (removelast (bochs_S other_spin));
}.

(** ** The theorems *)

Section theorems.
Context {D : Type} `{!Device D} `{!Code}.
Variable int : Z -> mach D -> option (mach D).
Implicit Types st : mach D.

(** Protected mode with the table of the assembly files: flat segments for the
    kernel, interrupts off. *)
Record protected (gdt : Z) st : Prop := {
  pm_pe : has_bits (m_cr0 st) CR0_PE = true;
  pm_segs : m_segs st = kernel_segs;
  pm_gdtr : m_gdtr st = (23, gdt);
  pm_code : flat_segment (m_mem st) gdt (Z.shiftl SEG_KCODE 3) (Z.lor STA_X STA_R);
  pm_data : flat_segment (m_mem st) gdt (Z.shiftl SEG_KDATA 3) STA_W;
  pm_if : if_off (m_eflags st);
}.

Lemma boot_state_id st : st = boot_state (reg_at st EAX) (m_eflags st) (m_eip st) (m_segs st) (m_dev st) st.
Proof. by asm_parts st. Qed.

Lemma gdt_loaded_ext m m' gdt gdtdesc :
  (forall a, gdt <= a < gdt + 30 -> load8 m' a = load8 m a) -> gdt_loaded m gdt gdtdesc -> gdt_loaded m' gdt gdtdesc.
Proof.
  intros Hm [H1 H2 H3]. split; [rewrite <- H1|rewrite <- H2|done]; apply load_bytes_ext; intros; apply Hm; lia.
Qed.

(** Both start-up files from the first instruction to protected mode. *)
Lemma protect_reaches gdt gdtdesc start32 x f e sg d st :
  located e (protect_S gdtdesc start32) -> located start32 data_segs_S ->
  gdt_loaded (m_mem st) gdt gdtdesc -> 0 <= gdt < 2 ^ 24 -> has_bits (m_cr0 st) CR0_PE = false -> s_ds sg = 0 ->
  is_u32 start32 -> if_off f ->
  exists x' f', reaches int (boot_state x f e sg d st)
    (boot_state x' f' (after start32 data_segs_S) kernel_segs d
       (st <| m_gdtr := (23, gdt) |> <| m_cr0 ::= fun c => Z.lor c CR0_PE |>)) /\ if_off f'.
Proof.
  intros Hl1 Hl2 Hg Hr Hpe Hds Hs Hf.
  destruct (protect_exec int gdt gdtdesc start32 x f e sg d st) as (x1 & b & E1); try done.
  replace (gdtdesc - gdt - 1) with 23 in E1 by (rewrite (gl_pos _ _ _ Hg); lia).
  set (st1 := st <| m_gdtr := (23, gdt) |> <| m_cr0 ::= fun c => Z.lor c CR0_PE |>).
  destruct (data_segs_exec int x1 (zf_of b f) start32 (sg <| s_cs := Z.shiftl SEG_KCODE 3 |>) d st1) as [x2 E2]; [done|].
  exists x2, (zf_of b f). split; [|by apply if_off_zf].
  eapply reaches_trans; [eapply reaches_seq; [exact Hl1|done|exact E1]|].
  eapply reaches_seq; [exact Hl2|done|exact E2].
Qed.
End theorems.

(** C18: the boot sector, started by the BIOS in real mode, waits for the keyboard
    controller and opens address line A20, and calls [bootmain] in protected mode
    with flat segments, interrupts off and the stack below the boot sector; if
    [bootmain] returned, the processor would stay in the loop at the end. *)
Theorem bootasm_correct {D} `{!Device D} `{!Code} `{!BootLabels} int n1 n2 (st : mach D) d1 d2 :
  boot_loaded -> gdt_loaded (m_mem st) boot_gdt boot_gdtdesc ->
  4 <= boot_start -> boot_start <= boot_gdt < 2 ^ 16 -> is_u32 boot_start32 -> is_u32 boot_back ->
  m_eip st = boot_start -> has_bits (m_cr0 st) CR0_PE = false ->
  kbc_wait n1 (m_dev st) = Some d1 -> kbc_wait n2 (d_out (Port8 0x64) 0xd1 d1) = Some d2 ->
  exists st', reaches int st st' /\ m_eip st' = bootmain_addr /\ protected boot_gdt st' /\
    reg_at st' ESP = boot_start - 4 /\ top st' = boot_back /\ m_dev st' = d_out (Port8 0x60) 0xdf d2 /\
    same_outside (boot_start - 4) boot_start (m_mem st) (m_mem st') /\
    forall st2, c_returned st' st2 -> exists k, forall n, exists st3, run int (k + n) st2 = Some st3 /\ m_eip st3 = boot_spin.
Proof.
  intros [Hc L1 L2 L3 L4 L5 L6] Hg Hs Hgr Hs32 Hbk Heip Hpe Hd1 Hd2. unfold bootasm_S in Hc.
  apply located_app in Hc as [C1 Hc]. rewrite <- L1 in Hc. apply located_app in Hc as [C2 Hc]. rewrite <- L2 in Hc.
  apply located_app in Hc as [C3 Hc]. rewrite <- L3 in Hc. apply located_app in Hc as [C4 Hc]. rewrite <- L4 in Hc.
  rewrite app_assoc in Hc. apply located_app in Hc as [C5 Hc]. rewrite <- L5 in Hc. pose proof C5 as C5'.
  apply located_app in C5' as [C6 C7].
  rewrite <- Heip in C1, L1. destruct (zero_segs_exec int st) as [x1 E1]. apply reaches_seq in E1; [|done|done].
  rewrite <- L1 in E1. set (sg := _ <| s_ss := 0 |>) in E1. set (f1 := zf_of true _) in E1.
  destruct (seta20_reaches int n1 0xd1 0x64 x1 f1 seta20_1 sg (m_dev st) d1 st) as (x2 & f2 & E2 & F2); try done.
  { apply if_off_zf, if_off_cli. }
  rewrite <- L2 in E2.
  destruct (seta20_reaches int n2 0xdf 0x60 x2 f2 seta20_2 sg _ d2 st C3 Hd2 F2) as (x3 & f3 & E3 & F3); [done|].
  rewrite <- L3 in E3.
  destruct (protect_reaches int boot_gdt boot_gdtdesc boot_start32 x3 f3 boot_prot sg (d_out (Port8 0x60) 0xdf d2) st)
    as (x4 & f4 & E4 & F4); try done; [lia|].
  set (X := boot_state x4 _ _ _ _ _) in E4.
  assert (HX : m_eip X = after boot_start32 data_segs_S /\ m_segs X = kernel_segs /\ m_gdtr X = (23, boot_gdt) /\
    m_cr0 X = Z.lor (m_cr0 st) CR0_PE /\ m_eflags X = f4 /\ m_mem X = m_mem st /\ m_dev X = d_out (Port8 0x60) 0xdf d2)
    by (split_and!; reflexivity).
  clearbody X. destruct HX as (X1 & X2 & X3 & X4 & X5 & X6 & X7).
  assert (Hb : boot_start < 2 ^ 32) by (change (2 ^ 32) with (2 ^ 16 * 2 ^ 16); lia).
  assert (Era : after (m_eip X) [Movl_ir boot_start ESP; Call bootmain_addr] = boot_back) by (rewrite X1, L5; symmetry; apply after_app).
  pose proof (call_imm_exec int bootmain_addr boot_start X) as E5. rewrite Era, (u32_id boot_start) in E5 by wrap_lia.
  destruct (call_on_stack int bootmain_addr boot_back boot_start X) as (st' & E' & S1 & S2 & S3 & S4 & S5 & S6 & S7 & S8 & S9 & _);
    [lia|done|]. rewrite <- E' in E5. clear E'. rewrite X6 in S9.
  assert (Hg5 : gdt_loaded (m_mem st') boot_gdt boot_gdtdesc).
  { eapply gdt_loaded_ext; [|exact Hg]. intros a Ha. apply S9. lia. }
  exists st'. split_and!; [|done| |done|done|by rewrite S6|done|].
  - eapply reaches_trans; [exact E1|]. eapply reaches_trans; [exact E2|]. eapply reaches_trans; [exact E3|].
    eapply reaches_trans; [exact E4|]. apply (reaches_seq int call_bootmain_S X); [by rewrite X1|done|exact E5].
  - split; [rewrite S4, X4; apply has_pe|by rewrite S2|by rewrite S3|by eapply gdt_flat|by eapply gdt_flat|by rewrite S5, X5].
  - intros st2 [Ce _ _ _]. rewrite S8 in Ce. apply bochs_spins; by rewrite Ce.
Qed.

(** The translation of 4 MB pages by a directory. *)
Definition pse_xlate (dir : list Z) (va : Z) : option Z :=
  e ← dir !! Z.to_nat (va / 2 ^ 22);
  if has_bits e PTE_P && has_bits e PTE_PS then Some (e - e mod 2 ^ 22 + va mod 2 ^ 22) else None.

Lemma entrypgdir_maps a :
  0 <= a < 2 ^ 22 -> pse_xlate entrypgdir a = Some a /\ pse_xlate entrypgdir (KERNBASE + a) = Some a.
Proof.
  intros Ha. unfold pse_xlate. split.
  - rewrite Z.div_small, Z.mod_small by done. vm_compute (entrypgdir !! _). done.
  - replace (KERNBASE + a) with (a + 512 * 2 ^ 22) by (unfold KERNBASE; lia).
    rewrite Z.div_add, Z.mod_add, Z.div_small, Z.mod_small by lia. vm_compute (entrypgdir !! _). done.
Qed.

(** Turning on paging; [ci] loads the address of the directory. *)
Lemma paging_exec {D} `{!Device D} `{!Code} int ci bits v (st : mach D) :
  (forall s : mach D, m_mem s = m_mem st -> m_cr0 s = m_cr0 st -> exec int ci s = Some (set_reg EAX v s)) ->
  exists X, exec_seq int (paging_S [ci] bits) st = Some X /\
    m_eip X = after (m_eip st) (paging_S [ci] bits) /\ m_cr4 X = Z.lor (m_cr4 st) CR4_PSE /\ m_cr3 X = v /\
    m_cr0 X = Z.lor (m_cr0 st) bits /\ m_mem X = m_mem st /\ m_segs X = m_segs st /\ m_gdtr X = m_gdtr st /\
    m_dev X = m_dev st /\ (if_off (m_eflags st) -> if_off (m_eflags X)).
Proof.
  intros Hci. unfold paging_S. rewrite exec_seq_app.
  destruct (exec_seq int [Movl_cr CR4 EAX; Orl_ir CR4_PSE EAX; Movl_rc EAX CR4] st) as [s1|] eqn:E1; cycle 1.
  { asm_parts st. revert E1. asm_exec. done. }
  cbn [mbind option_bind]. rewrite exec_seq_app. cbn [exec_seq].
  assert (Hs1 : m_mem s1 = m_mem st /\ m_cr0 s1 = m_cr0 st).
  { asm_parts st. revert E1. asm_exec. by intros [= <-]. }
  rewrite Hci by apply Hs1. clear Hci Hs1. revert E1. asm_parts st. unfold boot_state. asm_exec.
  intros [= <-]. asm_exec. eexists. split; [reflexivity|]. split_and!; try reflexivity.
  intros Hf. by apply (if_off_zf (_ =? 0)), (if_off_zf (_ =? 0)).
Qed.

Lemma jump_on_stack {D} `{!Device D} `{!Code} int sp a (st : mach D) :
  exec_seq int [Movl_ir sp ESP; Movl_ir a EAX; Jmp_r EAX] st =
    Some (jump (u32 a) (set_reg EAX (u32 a) (set_reg ESP (u32 sp) st))).
Proof. by asm_parts st. Qed.

(** The kernel's entry point, started by [bootmain] with paging off, turns on
    paging with [entrypgdir], which maps the first 4 MB of memory both to where the
    code runs and to where it is linked, and jumps to [main] at its linked address
    with the kernel's first stack. *)
Theorem entry_correct {D} `{!Device D} `{!Code} {L : Linked} `{!EntryLabels} int (st : mach D) :
  located (v2p entry_addr) entry_S -> m_eip st = v2p entry_addr -> is_u32 (v2p entrypgdir_addr) ->
  is_u32 (stack_addr + KSTACKSIZE) -> is_u32 main_addr ->
  exists st', reaches int st st' /\ m_eip st' = main_addr /\ reg_at st' ESP = stack_addr + KSTACKSIZE /\
    m_cr3 st' = v2p entrypgdir_addr /\ m_cr4 st' = Z.lor (m_cr4 st) CR4_PSE /\
    m_cr0 st' = Z.lor (m_cr0 st) (Z.lor CR0_PG CR0_WP) /\ m_mem st' = m_mem st /\ m_segs st' = m_segs st /\
    forall a, 0 <= a < 2 ^ 22 -> pse_xlate entrypgdir a = Some a /\ pse_xlate entrypgdir (KERNBASE + a) = Some a.
Proof.
  intros Hl He Hdir Hsp Hmain. unfold entry_S in Hl. apply located_app in Hl as [H1 H2]. rewrite <- He in H1, H2.
  destruct (paging_exec int (Movl_ir (v2p entrypgdir_addr) EAX) (Z.lor CR0_PG CR0_WP) (v2p entrypgdir_addr) st)
    as (X & E1 & X1 & X3 & X2 & X4 & X5 & X6 & _).
  { intros s _ _. cbn [exec]. by rewrite u32_id. }
  exists (jump (u32 main_addr) (set_reg EAX (u32 main_addr) (set_reg ESP (u32 (stack_addr + KSTACKSIZE)) X))).
  rewrite (u32_id main_addr), (u32_id (stack_addr + KSTACKSIZE)) by done.
  split_and!; [|reflexivity|reflexivity|exact X2|exact X3|exact X4|exact X5|exact X6|exact entrypgdir_maps].
  eapply reaches_trans; [apply (reaches_seq _ _ _ _ H1 eq_refl E1)|].
  eapply (reaches_seq int [_; _; _]); [rewrite X1; exact H2|reflexivity|].
  rewrite jump_on_stack. by rewrite !u32_id.
Qed.

(** entryother.S from the segments on. *)
Lemma other_tail {D} `{!Device D} `{!Code} {L : Linked} `{!OtherLabels} int stack (X : mach D) :
  let l := [Movl_ar (other_start - 4) ESP; Call_a (other_start - 8)] in
  let ra := after (m_eip X) (paging_S [other_cr3] other_bits ++ l) in
  has_bits (m_cr0 X) CR0_PE = true -> 4 <= stack < 2 ^ 32 -> is_u32 ra -> if_off (m_eflags X) ->
  load32 (m_mem X) (other_start - 4) = stack -> load32 (m_mem X) (other_start - 8) = mpenter_addr ->
  load32 (m_mem X) (other_start - 12) = v2p entrypgdir_addr -> located (m_eip X) (paging_S [other_cr3] other_bits ++ l) ->
  exists st', reaches int X st' /\ m_eip st' = mpenter_addr /\ m_segs st' = m_segs X /\ m_gdtr st' = m_gdtr X /\
    m_cr0 st' = Z.lor (m_cr0 X) other_bits /\ if_off (m_eflags st') /\ m_dev st' = m_dev X /\ reg_at st' ESP = stack - 4 /\
    top st' = ra /\ same_outside (stack - 4) stack (m_mem X) (m_mem st') /\ m_cr3 st' = v2p entrypgdir_addr /\
    m_cr4 st' = Z.lor (m_cr4 X) CR4_PSE.
Proof.
  intros l ra Hpe Hs Hra Hf H4 H8 H12 Hl. apply located_app in Hl as [C1 C2].
  destruct (paging_exec int other_cr3 other_bits (v2p entrypgdir_addr) X)
    as (Y & E1 & Y1 & Y2 & Y3 & Y4 & Y5 & Y6 & Y7 & Y8 & Y9).
  { intros s Em Ec. unfold other_cr3. cbn [exec]. unfold linear. by rewrite Em, Ec, Hpe, H12. }
  assert (Hpe' : has_bits (m_cr0 Y) CR0_PE = true).
  { rewrite Y4. change CR0_PE with (2 ^ 0) in *. rewrite has_bits_bit in * by lia. by rewrite Z.lor_spec, Hpe. }
  pose proof (call_mem_exec int (other_start - 4) (other_start - 8) stack mpenter_addr Y Hpe') as E2.
  rewrite Y5 in E2. specialize (E2 H4 H8). fold l in E2.
  assert (Era : after (m_eip Y) l = ra) by (rewrite Y1; symmetry; apply after_app). rewrite Era in E2.
  destruct (call_on_stack int mpenter_addr ra stack Y) as (st' & E' & S1 & S2 & S3 & S4 & S5 & S6 & S7 & S8 & S9 & S10 & S11);
    [done|done|]. rewrite <- E' in E2. clear E'. exists st'. rewrite Y5 in S9.
  split_and!; [|done|congruence|congruence|congruence|rewrite S5; by apply Y9|congruence|done|done|done|congruence|congruence].
  eapply reaches_trans; [apply (reaches_seq int _ _ _ C1 eq_refl E1)|].
  apply (reaches_seq int l Y); [by rewrite Y1|done|exact E2].
Qed.

(** Another processor, started by [startothers] at the copy of this code, reaches
    [mpenter] in protected mode with paging on, on the stack and with the directory
    that [startothers] left below the code, and stays in the loop at the end if
    [mpenter] should return. *)
Theorem entryother_correct {D} `{!Device D} `{!Code} {L : Linked} `{!OtherLabels} int stack (st : mach D) :
  other_loaded -> gdt_loaded (m_mem st) other_gdt other_gdtdesc ->
  12 <= other_start -> other_start <= other_gdt < 2 ^ 16 -> is_u32 other_start32 -> is_u32 other_back ->
  KERNBASE + 4 <= stack < 2 ^ 32 ->
  load32 (m_mem st) (other_start - 4) = stack -> load32 (m_mem st) (other_start - 8) = mpenter_addr ->
  load32 (m_mem st) (other_start - 12) = v2p entrypgdir_addr ->
  m_eip st = other_start -> has_bits (m_cr0 st) CR0_PE = false ->
  exists st', reaches int st st' /\ m_eip st' = mpenter_addr /\ protected other_gdt st' /\
    reg_at st' ESP = stack - 4 /\ top st' = other_back /\ m_dev st' = m_dev st /\
    m_cr3 st' = v2p entrypgdir_addr /\ m_cr4 st' = Z.lor (m_cr4 st) CR4_PSE /\
    m_cr0 st' = Z.lor (m_cr0 st) (Z.lor (Z.lor CR0_PE CR0_PG) CR0_WP) /\
    same_outside (stack - 4) stack (m_mem st) (m_mem st') /\
    forall st2, c_returned st' st2 -> exists k, forall n, exists st3, run int (k + n) st2 = Some st3 /\ m_eip st3 = other_spin.
Proof.
  intros [Hc L1 L2 L3] Hg Hs Hgr Hs32 Hbk Hstk Hm4 Hm8 Hm12 Heip Hpe. unfold entryother_S, start32_other_S in Hc.
  apply located_app in Hc as [C1 Hc]. apply located_app in Hc as [C2 Hc]. rewrite <- after_app, <- L1 in Hc.
  apply located_app in Hc as [C3 C6]. fold start32_other_S in C6. rewrite <- L2 in C6. apply located_app in C3 as [C3 C4].
  rewrite <- Heip in C1, C2. destruct (zero_segs_exec int st) as [x1 E1]. apply reaches_seq in E1; [|done|done].
  set (sg := _ <| s_ss := 0 |>) in E1. set (f1 := zf_of true _) in E1.
  destruct (protect_reaches int other_gdt other_gdtdesc other_start32 x1 f1 (after (m_eip st) zero_segs_S) sg (m_dev st) st)
    as (x2 & f2 & E2 & F2); try done; [lia|apply if_off_zf, if_off_cli|].
  set (X := boot_state x2 _ _ _ _ _) in E2.
  assert (HX : m_eip X = after other_start32 data_segs_S /\ m_segs X = kernel_segs /\ m_gdtr X = (23, other_gdt) /\
    m_cr0 X = Z.lor (m_cr0 st) CR0_PE /\ m_eflags X = f2 /\ m_mem X = m_mem st /\ m_dev X = m_dev st /\ m_cr4 X = m_cr4 st)
    by (split_and!; reflexivity).
  clearbody X. destruct HX as (X1 & X2 & X3 & X4 & X5 & X6 & X7 & X8).
  rewrite <- X1 in C4. fold start32_other_S in L2.
  assert (Era : after (m_eip X) (paging_S [other_cr3] other_bits ++ [Movl_ar (other_start - 4) ESP; Call_a (other_start - 8)])
    = other_back) by (rewrite L2, X1; symmetry; apply after_app).
  destruct (other_tail int stack X) as (st' & E3 & S1 & S2 & S3 & S4 & S5 & S6 & S7 & S8 & S9 & S10 & S11).
  { rewrite X4. apply has_pe. } { unfold KERNBASE in *. lia. } { by rewrite Era. } { by rewrite X5. }
  { by rewrite X6. } { by rewrite X6. } { by rewrite X6. } { exact C4. }
  rewrite Era in S8. rewrite X6 in S9.
  assert (Hg5 : gdt_loaded (m_mem st') other_gdt other_gdtdesc).
  { eapply gdt_loaded_ext; [|exact Hg]. intros a Ha. apply S9. unfold KERNBASE in *. lia. }
  assert (E0 : m_cr0 st' = Z.lor (m_cr0 st) other_bits).
  { rewrite S4, X4, <- Z.lor_assoc. reflexivity. }
  exists st'. split_and!; [|done| |done|done|congruence|done|congruence|done|done|].
  - eapply reaches_trans; [exact E1|]. eapply reaches_trans; [exact E2|exact E3].
  - split; [|congruence|congruence|by eapply gdt_flat|by eapply gdt_flat|done].
    rewrite E0. change CR0_PE with (2 ^ 0). rewrite has_bits_bit, Z.lor_spec by lia. apply orb_true_r.
  - intros st2 [Ce _ _ _]. rewrite S8 in Ce. apply bochs_spins; by rewrite Ce.
Qed.

(** ** initcode.S *)

Class InitLabels := { init_start : Z; init_exit : Z; init_str : Z; init_argv : Z }.

Definition SYS_exit : Z := 2.
Definition SYS_exec : Z := 7.

(** [exec(init, argv)], then [for(;;) exit()]. *)
Definition initexec_S `{!InitLabels} : list instr := [
  Pushl_i init_argv;
  Pushl_i init_str;
  Pushl_i 0;
  Movl_ir SYS_exec EAX;
  Int T_SYSCALL].
Definition initexit_S `{!InitLabels} : list instr := [
  Movl_ir SYS_exit EAX;
  Int T_SYSCALL;
  Jmp init_exit].
Definition initcode_S `{!InitLabels} : list instr := initexec_S ++ initexit_S.

(** [char init[] = "/init\0"] and [char *argv[] = { init, 0 }]. *)
Definition init_bytes : list Z := [47; 105; 110; 105; 116; 0; 0].
Definition argv_bytes `{!InitLabels} : list Z := long init_str ++ long 0.

Record init_loaded `{!Code, !InitLabels} (m : memory) : Prop := {
  il_code : located init_start initcode_S;
  il_exit : init_exit = after init_start initexec_S;
  il_str : load_bytes m init_str 7 = init_bytes;
  il_argv : load_bytes m init_argv 8 = argv_bytes;
}.

(** The arguments of a system call are above the return address on the user's
    stack. *)
Definition sys_arg (m : memory) (f : trapframe) (n : Z) : Z := load32 m (t_esp f + 4 + 4 * n).

Section init.
Context {D : Type} `{!Device D} `{!Code} {I : Image} {L : Linked} {T : Labels} `{!InitLabels}.
Implicit Types st : mach D.

Lemma state_ok_same st st' : same_task st st' -> mem_ok (m_mem st') -> state_ok st -> state_ok st'.
Proof. intros (E1 & E2 & E3 & E4) Hm [Hr Hs He Hf _]. split; rewrite ?E1, ?E2, ?E3, ?E4; done. Qed.

Lemma state_ok_eax v st : is_u32 v -> state_ok st -> state_ok (set_reg EAX v st).
Proof.
  intros Hv [Hr Hs He Hf Hm]. split; try done. intros []; cbn;
    [done|apply (Hr ECX)|apply (Hr EDX)|apply (Hr EBX)|apply (Hr ESP)|apply (Hr EBP)|apply (Hr ESI)|apply (Hr EDI)].
Qed.

(** The arguments of [exec] pushed: a stack of three words. *)
Lemma push_args int a b c st :
  state_ok st -> 12 <= reg_at st ESP -> is_u32 a -> is_u32 b -> is_u32 c ->
  let sp := reg_at st ESP - 12 in
  exists s, exec_seq int [Pushl_i a; Pushl_i b; Pushl_i c] st = Some s /\ state_ok s /\
    m_eip s = after (m_eip st) [Pushl_i a; Pushl_i b; Pushl_i c] /\ m_segs s = m_segs st /\ reg_at s ESP = sp /\
    load32 (m_mem s) sp = c /\ load32 (m_mem s) (sp + 4) = b /\ load32 (m_mem s) (sp + 8) = a /\
    same_outside sp (sp + 12) (m_mem st) (m_mem s).
Proof.
  intros Hst Hsp Ha Hb Hc sp. pose proof (so_regs _ Hst ESP) as Hr. change (getr ESP (m_regs st)) with (reg_at st ESP) in *.
  destruct (pushes_spec [a; b; c] st) as (m' & E & Ho & Hl); [change (length _) with 3%nat; wrap_lia|].
  change (4 * Z.of_nat (length [a; b; c])) with 12 in *.
  exists (jump (after (m_eip st) [Pushl_i a; Pushl_i b; Pushl_i c]) (pushes [a; b; c] st)).
  assert (Hm : mem_ok m'). { pose proof (pushes_mem_ok [a; b; c] st) as Hp. rewrite E in Hp. apply Hp, Hst. }
  split.
  { transitivity (Some (jump (after (m_eip st) [Pushl_i a; Pushl_i b; Pushl_i c]) (pushes [u32 a; u32 b; u32 c] st)));
      [reflexivity|by rewrite !u32_id]. }
  rewrite E. split_and!; try reflexivity.
  - destruct Hst as [Hr' Hs' He' Hf' _]. split; try done; [|apply u32_range].
    intros []; [apply (Hr' EAX)|apply (Hr' ECX)|apply (Hr' EDX)|apply (Hr' EBX)|
      change (is_u32 (reg_at st ESP - 12)); wrap_lia|apply (Hr' EBP)|apply (Hr' ESI)|apply (Hr' EDI)].
  - rewrite <- (Hl 2%nat c) by done. f_equal; unfold sp; lia.
  - rewrite <- (Hl 1%nat b) by done. f_equal; unfold sp; lia.
  - rewrite <- (Hl 0%nat a) by done. f_equal; unfold sp; lia.
  - intros x Hx. apply Ho. unfold sp in *. lia.
Qed.
End init.

(** C19: the first user program enters the kernel with a call of [exec] whose arguments
    are the path /init and the vector { "/init", 0 }; if [exec] returns it calls
    [exit]. *)
Theorem initcode_correct {D} `{!Device D} `{!Code} {I : Image} {L : Linked} {T : Labels} `{!InitLabels} idt ss0 esp0
    (st : mach D) :
  loaded -> idt_ok idt -> is_u32 (after alltraps_addr alltraps_call) -> init_loaded (m_mem st) ->
  is_u32 init_str -> is_u32 init_argv -> init_str + 7 <= reg_at st ESP - 12 -> init_argv + 8 <= reg_at st ESP - 12 ->
  state_ok st -> user_mode st = true -> m_eip st = init_start -> 12 <= reg_at st ESP <= KERNBASE ->
  KERNBASE + 84 <= esp0 < 2 ^ 32 ->
  let tf := esp0 - 76 in
  let int := int_with idt ss0 esp0 in
  exists k st1, run int k st = Some st1 /\ m_eip st1 = trap_addr /\
    let f := load_tf (m_mem st1) tf in
    t_trapno f = T_SYSCALL /\ t_eax f = SYS_exec /\ sys_arg (m_mem st1) f 0 = init_str /\
    sys_arg (m_mem st1) f 1 = init_argv /\ load_bytes (m_mem st1) init_str 7 = init_bytes /\
    load_bytes (m_mem st1) init_argv 8 = argv_bytes /\
    forall st2 v, c_returned st1 st2 -> is_u32 v -> load_tf (m_mem st2) tf = f <| t_eax := v |> ->
      exists k' st3, run int k' st2 = Some st3 /\ m_eip st3 = trap_addr /\ t_eax (load_tf (m_mem st3) tf) = SYS_exit.
Proof.
  intros Hl Hidt Hra [Hc Lx Hstr Hargv] Hs Ha Hs' Ha' Hst Hu He Hsp Hesp tf int. subst tf.
  unfold initcode_S in Hc. apply located_app in Hc as [C1 C3]. rewrite <- Lx in C3.
  apply (located_app _ [Pushl_i init_argv; Pushl_i init_str; Pushl_i 0]) in C1 as [C1 C2].
  apply (located_app _ [Movl_ir SYS_exit EAX; Int T_SYSCALL]) in C3 as [C3 _]. rewrite <- He in C1, C2.
  destruct (push_args int init_argv init_str 0 st) as (s & E1 & Hok & S1 & S2 & S3 & S4 & S5 & S6 & S7); try done; [lia|].
  apply (reaches_seq int) in E1 as [k1 E1]; [|done|done].
  assert (Hus : user_mode s = true) by (unfold user_mode; by rewrite S2).
  destruct (stub_traps idt ss0 esp0 SYS_exec s) as (k2 & st1 & E2 & Hcall); try done; [by rewrite S1|unfold KERNBASE in *; lia|].
  set (sb := stub_state SYS_exec s) in *.
  assert (Hlow : forall a, a < KERNBASE -> load8 (m_mem st1) a = load8 (m_mem s) a).
  { intros a Hlt. rewrite (tc_mem _ _ _ _ _ _ _ Hcall); [done|]. lia. }
  exists (k1 + k2)%nat, st1. rewrite run_app. fold int in E2. rewrite E1. cbn [mbind option_bind].
  rewrite (tc_frame _ _ _ _ _ _ _ Hcall). unfold sys_arg.
  assert (Ef : t_esp (frame_of T_SYSCALL 0 (esp0 - 76) sb) = reg_at st ESP - 12).
  { unfold frame_of. cbn [t_esp]. change (user_mode sb) with (user_mode s). rewrite Hus. exact S3. }
  rewrite Ef. assert (Hkeep : forall a, 0 <= a < reg_at st ESP - 12 -> load8 (m_mem st1) a = load8 (m_mem st) a).
  { intros a Hin. rewrite Hlow by lia. apply S7. lia. }
  split_and!; [exact E2|apply Hcall|done|done| | | | |].
  - rewrite (load32_ext (m_mem s)) by (intros; apply Hlow; lia). rewrite <- S5. f_equal. lia.
  - rewrite (load32_ext (m_mem s)) by (intros; apply Hlow; lia). rewrite <- S6. f_equal. lia.
  - rewrite <- Hstr. apply load_bytes_ext. intros b Hb. apply Hkeep. wrap_lia.
  - rewrite <- Hargv. apply load_bytes_ext. intros b Hb. apply Hkeep. wrap_lia.
  - intros st2 v Hret Hv Hf. rewrite <- (tc_frame _ _ _ _ _ _ _ Hcall) in Hf.
    destruct (stub_returns int ss0 esp0 v sb st1 st2) as (k3 & st3 & E3 & Ht & Em); try done; [unfold KERNBASE in *; lia|].
    assert (Hok3 : state_ok st3).
    { eapply state_ok_same; [exact Ht|rewrite Em; apply Hret|]. apply state_ok_eax; [done|]. by apply stub_state_ok. }
    destruct Ht as (T1 & T2 & T3 & T4).
    destruct (stub_traps idt ss0 esp0 SYS_exit st3) as (k4 & st4 & E4 & Hcall4); try done;
      [ |unfold user_mode; by rewrite T2|unfold KERNBASE in *; lia|].
    { rewrite T3. change (m_eip (set_reg EAX v sb)) with (after (m_eip s) [Movl_ir SYS_exec EAX; Int T_SYSCALL]).
      rewrite S1, <- after_app, He. rewrite Lx in C3. exact C3. }
    exists (k3 + k4)%nat, st4. rewrite run_app, E3. cbn [mbind option_bind]. split_and!; [exact E4|apply Hcall4|].
    by rewrite (tc_frame _ _ _ _ _ _ _ Hcall4).
Qed.

(** ** Examples *)

(** A controller that is busy for the given number of questions, and again once
    after each command. *)
#[local] Instance ex_kbc : Device nat := {|
  d_in _ n := match n with O => (0, O) | S n' => (2, n') end;
  d_out _ _ _ := 1%nat |}.

(** Code at [start], every instruction of length 1, and the tables behind it. *)
Definition ex_code_at (start : Z) (l : list instr) : Code :=
  {| code a := if a <? start then None else l !! Z.to_nat (a - start); len _ _ := 1 |}.
Definition ex_tables (gdt : Z) (m : memory) : memory :=
  store_bytes (store_bytes m gdt gdt_bytes) (gdt + 24) (gdtdesc_bytes gdt (gdt + 24)).

(** A processor in real mode. *)
Definition ex_cpu (start : Z) (m : memory) (d : nat) : mach nat :=
  Mkmach (Mkregs 1 2 3 4 5 6 7 8) (Mksegs 0 9 9 9 9 9) start 0x202 0x10 0 0 (0, 0) m d.

Section ex_boot.
#[local] Instance ex_boot_labels : BootLabels := {|
  boot_start := 0x7c00; seta20_1 := 0x7c05; seta20_2 := 0x7c0a; boot_prot := 0x7c0f; boot_start32 := 0x7c14;
  boot_back := 0x7c1d; boot_spin := 0x7c22; boot_gdt := 0x7c24; boot_gdtdesc := 0x7c3c; bootmain_addr := 0x7d00 |}.
#[local] Instance ex_boot_code : Code := ex_code_at 0x7c00 bootasm_S.
Definition ex_boot_cpu : mach nat := ex_cpu 0x7c00 (ex_tables 0x7c24 ∅) 3.

Lemma bootasm_correct_witness :
  exists st', reaches (fun _ _ => None) ex_boot_cpu st' /\ m_eip st' = bootmain_addr /\ protected boot_gdt st' /\
    reg_at st' ESP = boot_start - 4 /\ top st' = boot_back /\ m_dev st' = d_out (Port8 0x60) 0xdf O /\
    same_outside (boot_start - 4) boot_start (m_mem ex_boot_cpu) (m_mem st') /\
    forall st2, c_returned st' st2 ->
      exists k, forall n, exists st3, run (fun _ _ => None) (k + n) st2 = Some st3 /\ m_eip st3 = boot_spin.
Proof.
  apply (bootasm_correct (fun _ _ => None) 4 2 ex_boot_cpu O O).
  - split; [by apply (bool_decide_unpack _); vm_compute|by vm_compute..].
  - split; by vm_compute.
  - vm_compute. congruence.
  - vm_compute. split; congruence.
  - vm_compute. split; congruence.
  - vm_compute. split; congruence.
  - done.
  - by vm_compute.
  - by vm_compute.
  - by vm_compute.
Defined.
End ex_boot.

(** The kernel linked at 0x80100000, loaded at 0x100000. *)
Section ex_entry.
#[local] Instance ex_entry_linked : Linked :=
  {| cpu_local_addr _ := 0; gdt_addr _ := 0; idt_addr := 0; vectors _ := 0; entryother_start := 0; entryother_size := 0;
     mpenter_addr := 0x80103000; entrypgdir_addr := 0x80104000; seginit_ra := 0; startothers_ra := 0 |}.
#[local] Instance ex_entry_labels : EntryLabels :=
  {| entry_addr := 0x80100000; stack_addr := 0x80105000; main_addr := 0x80102000 |}.

Lemma entry_correct_witness :
  let C := ex_code_at 0x100000 entry_S in
  let st := ex_cpu 0x100000 ∅ 0 in
  exists st', reaches (fun _ _ => None) st st' /\ m_eip st' = main_addr /\ reg_at st' ESP = stack_addr + KSTACKSIZE /\
    m_cr3 st' = v2p entrypgdir_addr /\ m_cr4 st' = Z.lor (m_cr4 st) CR4_PSE /\
    m_cr0 st' = Z.lor (m_cr0 st) (Z.lor CR0_PG CR0_WP) /\ m_mem st' = m_mem st /\ m_segs st' = m_segs st /\
    forall a, 0 <= a < 2 ^ 22 -> pse_xlate entrypgdir a = Some a /\ pse_xlate entrypgdir (KERNBASE + a) = Some a.
Proof.
  intros C st. apply (entry_correct (fun _ _ => None) st).
  - by apply (bool_decide_unpack _); vm_compute.
  - by vm_compute.
  - vm_compute. split; congruence.
  - vm_compute. split; congruence.
  - vm_compute. split; congruence.
Defined.

#[local] Instance ex_other_labels : OtherLabels :=
  {| other_start := 0x7000; other_start32 := 0x700a; other_back := 0x701b; other_spin := 0x7020; other_gdt := 0x7024;
     other_gdtdesc := 0x703c |}.
#[local] Instance ex_other_code : Code := ex_code_at 0x7000 entryother_S.

(** Started with a stack at 0x80401000. *)
Definition ex_other_cpu : mach nat :=
  ex_cpu 0x7000 (store32 (store32 (store32 (ex_tables 0x7024 ∅) 0x6ffc 0x80401000) 0x6ff8 0x80103000) 0x6ff4 0x104000) 0.

Lemma entryother_correct_witness :
  exists st', reaches (fun _ _ => None) ex_other_cpu st' /\ m_eip st' = mpenter_addr /\ protected other_gdt st' /\
    reg_at st' ESP = 0x80401000 - 4 /\ top st' = other_back /\ m_dev st' = m_dev ex_other_cpu /\
    m_cr3 st' = v2p entrypgdir_addr /\ m_cr4 st' = Z.lor (m_cr4 ex_other_cpu) CR4_PSE /\
    m_cr0 st' = Z.lor (m_cr0 ex_other_cpu) (Z.lor (Z.lor CR0_PE CR0_PG) CR0_WP) /\
    same_outside (0x80401000 - 4) 0x80401000 (m_mem ex_other_cpu) (m_mem st') /\
    forall st2, c_returned st' st2 ->
      exists k, forall n, exists st3, run (fun _ _ => None) (k + n) st2 = Some st3 /\ m_eip st3 = other_spin.
Proof.
  apply (entryother_correct (fun _ _ => None) 0x80401000 ex_other_cpu).
  - split; [by apply (bool_decide_unpack _); vm_compute|by vm_compute..].
  - split; by vm_compute.
  - vm_compute. congruence.
  - vm_compute. split; congruence.
  - vm_compute. split; congruence.
  - vm_compute. split; congruence.
  - vm_compute. split; congruence.
  - by vm_compute.
  - by vm_compute.
  - by vm_compute.
  - done.
  - by vm_compute.
Defined.
End ex_entry.

(** The first program at address 0 of its page. *)
Section ex_init.
#[local] Existing Instance ex_image.
#[local] Existing Instance ex_linked.
#[local] Existing Instance ex_labels.
#[local] Existing Instance ex_device.
#[local] Instance ex_init_labels : InitLabels := {| init_start := 0; init_exit := 5; init_str := 16; init_argv := 24 |}.
#[local] Instance ex_init_code : Code := ex_code_with initcode_S.

Definition ex_init : mach unit :=
  Mkmach (Mkregs 0 0 0 0 4096 0 0 0) (Mksegs 35 43 43 0 0 43) 0 0x202 0x80010001 0 0 (0, 0)
    (store_bytes (store_bytes ∅ 16 init_bytes) 24 argv_bytes) tt.

Lemma ex_init_ok : state_ok ex_init.
Proof.
  split; [intros []; vm_compute; split; congruence|intros []; vm_compute; split; congruence|vm_compute; split; congruence..|].
  apply mem_ok_store_bytes, mem_ok_store_bytes, mem_ok_empty.
Qed.

Lemma initcode_correct_witness :
  let tf := ex_esp0 - 76 in
  let int := int_with ex_idt 16 ex_esp0 in
  exists k st1, run int k ex_init = Some st1 /\ m_eip st1 = trap_addr /\
    let f := load_tf (m_mem st1) tf in
    t_trapno f = T_SYSCALL /\ t_eax f = SYS_exec /\ sys_arg (m_mem st1) f 0 = init_str /\
    sys_arg (m_mem st1) f 1 = init_argv /\ load_bytes (m_mem st1) init_str 7 = init_bytes /\
    load_bytes (m_mem st1) init_argv 8 = argv_bytes /\
    forall st2 v, c_returned st1 st2 -> is_u32 v -> load_tf (m_mem st2) tf = f <| t_eax := v |> ->
      exists k' st3, run int k' st2 = Some st3 /\ m_eip st3 = trap_addr /\ t_eax (load_tf (m_mem st3) tf) = SYS_exit.
Proof.
  apply (initcode_correct ex_idt 16 ex_esp0 ex_init).
  - exact (ex_loaded_with initcode_S).
  - exact ex_idt_ok.
  - vm_compute. split; congruence.
  - split; [by apply (bool_decide_unpack _); vm_compute|by vm_compute..].
  - vm_compute. split; congruence.
  - vm_compute. split; congruence.
  - vm_compute. congruence.
  - vm_compute. congruence.
  - exact ex_init_ok.
  - by vm_compute.
  - done.
  - vm_compute. split; congruence.
  - vm_compute. split; congruence.
Defined.
End ex_init.
