(* ===== verification/Mkfs.v ===== *)
(** mkfs.c: the program that builds the initial file system image.

    The image is a map from block numbers to blocks; the program's own files
    are given as names and contents.  A failed [assert] is [None]. *)
From S2P Require Import Prelude Kernel Bytes Log Inode Console.

Definition NINODES : Z := 200.
Definition nbitmap : Z := FSSIZE / (BSIZE * 8) + 1.
Definition ninodeblocks : Z := NINODES / IPB + 1.
Definition nlog : Z := LOGSIZE.
Definition nmeta : Z := 2 + ninodeblocks + nbitmap.
Definition nblocks : Z := FSSIZE - nlog - nmeta.

(** The open image and the globals [freeinode] and [freeblock]. *)
Record mkfs := Mkmkfs {
  mk_img : gmap Z (list Z);
  mk_freeinode : Z;
  mk_freeblock : Z;
}.
#[export] Instance eta_mkfs : Eta mkfs := fun m =>
  Mkmkfs (mk_img m) (mk_freeinode m) (mk_freeblock m).

Definition wsect (sec : Z) (b : list Z) (m : mkfs) : mkfs := m <| mk_img ::= <[sec := b]> |>.
Definition rsect (m : mkfs) (sec : Z) : list Z := default block0 (mk_img m !! sec).

(** [xshort] and [xint] give the little-endian bytes of a number. *)
Definition xshort (x : Z) : list Z := [u8 x; u8 (x / 2 ^ 8)].
Definition xint (x : Z) : list Z := [u8 x; u8 (x / 2 ^ 8); u8 (x / 2 ^ 16); u8 (x / 2 ^ 24)].

(** [struct dinode], 64 bytes. *)
Record dinode := Mkdinode {
  di_type : Z;
  di_major : Z;
  di_minor : Z;
  di_nlink : Z;
  di_size : Z;
  di_addrs : list Z;
}.
#[export] Instance eta_dinode : Eta dinode := fun d =>
  Mkdinode (di_type d) (di_major d) (di_minor d) (di_nlink d) (di_size d) (di_addrs d).

Definition dinode_bytes (d : dinode) : list Z :=
  xshort (di_type d) ++ xshort (di_major d) ++ xshort (di_minor d) ++ xshort (di_nlink d) ++
  xint (di_size d) ++ concat (xint <$> di_addrs d).

Definition dinode_get (b : list Z) (o : nat) : dinode :=
  Mkdinode (get16 b o) (get16 b (o + 2)) (get16 b (o + 4)) (get16 b (o + 6)) (get32 b (o + 8))
    (get_words b (o + 12) 13).

Definition winode (inum : Z) (d : dinode) (m : mkfs) : mkfs :=
  let bn := IBLOCK inum in
  wsect bn (splice (rsect m bn) (dinode_off inum) (dinode_bytes d)) m.

Definition rinode (m : mkfs) (inum : Z) : dinode :=
  dinode_get (rsect m (IBLOCK inum)) (dinode_off inum).

Definition mk_ialloc (type : Z) (m : mkfs) : Z * mkfs :=
  let inum := mk_freeinode m in
  (inum, winode inum (Mkdinode type 0 0 1 0 (replicate 13 0))
           (m <| mk_freeinode := u32 (inum + 1) |>)).

(** [buf[i/8] | (0x1 << (i%8))] for the first [n] bits from [i]. *)
Fixpoint set_bits (n : nat) (i : Z) (b : list Z) : list Z :=
  match n with
  | O => b
  | S n' =>
      let k := Z.to_nat (i / 8) in
      set_bits n' (i + 1) (put8 b k (Z.lor (get8 b k) (Z.shiftl 1 (i mod 8))))
  end.

Definition mk_balloc (used : Z) (m : mkfs) : option mkfs :=
  if negb (used <? BSIZE * 8) then None else
  Some (wsect (ninodeblocks + 2) (set_bits (Z.to_nat used) 0 block0) m).

(** A fresh block. *)
Definition new_block (m : mkfs) : Z * mkfs :=
  (mk_freeblock m, m <| mk_freeblock ::= fun b => u32 (b + 1) |>).

(** The block of byte [fbn * BSIZE] of the file, allocated if need be. *)
Definition append_block (fbn : Z) (d : dinode) (m : mkfs) : Z * dinode * mkfs :=
  let addr k := default 0 (di_addrs d !! k) in
  if fbn <? NDIRECT then
    let k := Z.to_nat fbn in
    if addr k =? 0 then
      let '(x, m) := new_block m in (x, d <| di_addrs ::= <[k := x]> |>, m)
    else (addr k, d, m)
  else
    let k := Z.to_nat NDIRECT in
    let '(ind, d, m) :=
      if addr k =? 0 then
        let '(x, m) := new_block m in (x, d <| di_addrs ::= <[k := x]> |>, m)
      else (addr k, d, m) in
    let indirect := rsect m ind in
    let o := (4 * Z.to_nat (fbn - NDIRECT))%nat in
    if get32 indirect o =? 0 then
      let '(x, m) := new_block m in (x, d, wsect ind (put32 indirect o x) m)
    else (get32 indirect o, d, m).

(** The loop of [iappend]; every round writes at least one byte. *)
Fixpoint iappend_loop (fuel : nat) (p : list Z) (off : Z) (d : dinode) (m : mkfs) :
    option (Z * dinode * mkfs) :=
  match p with
  | [] => Some (off, d, m)
  | _ =>
      match fuel with
      | O => None
      | S fuel' =>
          let fbn := off / BSIZE in
          if negb (fbn <? MAXFILE) then None else
          let '(x, d, m) := append_block fbn d m in
          let n1 := Z.min (Z.of_nat (length p)) ((fbn + 1) * BSIZE - off) in
          let b := splice (rsect m x) (Z.to_nat (off - fbn * BSIZE)) (take (Z.to_nat n1) p) in
          iappend_loop fuel' (drop (Z.to_nat n1) p) (off + n1) d (wsect x b m)
      end
  end.

Definition iappend (inum : Z) (p : list Z) (m : mkfs) : option mkfs :=
  let d := rinode m inum in
  r ← iappend_loop (length p) p (di_size d) d m;
  let '(off, d, m) := r in
  Some (winode inum (d <| di_size := off |>) m).

(** [struct dirent] for a name of at most [DIRSIZ] characters, padded. *)
Definition mk_dirent (inum : Z) (name : list Z) : list Z :=
  let n := take (Z.to_nat DIRSIZ) name in
  xshort inum ++ n ++ replicate (Z.to_nat DIRSIZ - length n) 0.

(** [while((cc = read(fd, buf, sizeof(buf))) > 0) iappend(inum, buf, cc)] *)
Fixpoint append_file (fuel : nat) (inum : Z) (data : list Z) (m : mkfs) : option mkfs :=
  match data with
  | [] => Some m
  | _ =>
      match fuel with
      | O => None
      | S fuel' =>
          m ← iappend inum (take (Z.to_nat BSIZE) data) m;
          append_file fuel' inum (drop (Z.to_nat BSIZE) data) m
      end
  end.

(** The name without its leading underscore. *)
Definition strip_name (name : list Z) : list Z :=
  match name with
  | c :: name' => if c =? 95 then name' else name
  | [] => []
  end.

Definition add_file (rootino : Z) (f : list Z * list Z) (m : mkfs) : option mkfs :=
  if existsb (fun c => c =? 47) f.1 then None else
  let '(inum, m) := mk_ialloc T_FILE m in
  m ← iappend rootino (mk_dirent inum (strip_name f.1)) m;
  append_file (length f.2) inum f.2 m.

Fixpoint add_files (rootino : Z) (fs : list (list Z * list Z)) (m : mkfs) : option mkfs :=
  match fs with
  | [] => Some m
  | f :: fs' => m ← add_file rootino f m; add_files rootino fs' m
  end.

Definition superblock_block : list Z :=
  splice block0 0 (xint FSSIZE ++ xint nblocks ++ xint NINODES ++ xint nlog).

(** The image with zeroed blocks, its super block and its root directory. *)
Definition mkfs_root : option (Z * mkfs) :=
  let m := Mkmkfs (list_to_map ((fun i => (i, block0)) <$> seqZ 0 FSSIZE)) 1 nmeta in
  let m := wsect 1 superblock_block m in
  let '(rootino, m) := mk_ialloc T_DIR m in
  if negb (rootino =? ROOTINO) then None else
  m ← iappend rootino (mk_dirent rootino (str ".")) m;
  m ← iappend rootino (mk_dirent rootino (str "..")) m;
  Some (rootino, m).

Definition mkfs_main (fs : list (list Z * list Z)) : option mkfs :=
  r ← mkfs_root;
  let '(rootino, m) := r in
  m ← add_files rootino fs m;
  let d := rinode m rootino in
  let off := (di_size d / BSIZE + 1) * BSIZE in
  let m := winode rootino (d <| di_size := off |>) m in
  mk_balloc (mk_freeblock m) m.
