(* ===== verification/FsCheck.v ===== *)
(** A checker for the invariant of the file system, and an image built by mkfs
    that passes it. *)
From S2P Require Import Prelude Memory Kernel CString Spinlock Console Sched Ide Bytes Bio.
From S2P Require Import Log Inode Vm Umem Tty Fs File.
From S2P Require Import Crash Wait Driver BioSpec LogSpec Txn Balloc InodeSpec DinodeSpec DataSpec.
From S2P Require Import WriteSpec OpSpec FileSpec PipeSpec Mkfs.

(** ** The checker *)

Definition block_check (d : list Z) : bool :=
  (Z.of_nat (length d) =? 512) && forallb (fun b => (0 <=? b) && (b <? 256)) d.

(** The numbers of a file's blocks. *)
Definition blocks_of (m : Z -> list Z) (nd : inode) : list Z :=
  filter (fun a => a <> 0) (slot (i_addrs nd) m <$> seqZ 0 (IND + 1)).

Definition file_check (g : geom) (m : Z -> list Z) (nd : inode) : bool :=
  (Z.of_nat (length (i_addrs nd)) =? 13) && (0 <=? i_size nd) && (i_size nd <=? MAXFILE * BSIZE) &&
  bool_decide (NoDup (blocks_of m nd)) &&
  forallb (fun a => (data_start g <=? a) && (a <? g_start g) && used g m a) (blocks_of m nd) &&
  forallb (fun j => negb (slot (i_addrs nd) m j =? 0)) (seqZ 0 ((i_size nd + 511) / 512)).

Definition live_inodes (g : geom) (m : Z -> list Z) : list Z :=
  filter (fun j => live m j = true) (seqZ 0 (g_ninodes g)).

Definition fsck (g : geom) (m : Z -> list Z) : bool :=
  forallb (fun n => block_check (m n)) (seqZ 0 (g_start g)) &&
  (sb_size (superblock_of (m 1)) =? g_size g) && (sb_ninodes (superblock_of (m 1)) =? g_ninodes g) &&
  forallb (used g m) (seqZ 0 (data_start g)) &&
  forallb (fun j => file_check g m (disk_inode m j)) (live_inodes g m) &&
  bool_decide (NoDup (concat ((fun j => blocks_of m (disk_inode m j)) <$> live_inodes g m))).

(** ** Soundness *)

Lemma forallb_seqZ f a n : forallb f (seqZ a n) = true <-> forall j, a <= j < a + n -> f j = true.
Proof.
  rewrite forallb_forall. split; intros H j Hj.
  - apply H. rewrite <- list_elem_of_In. by apply elem_of_seqZ.
  - apply H. rewrite <- list_elem_of_In in Hj. by apply elem_of_seqZ.
Qed.

Lemma block_check_ok d : block_check d = true -> length d = 512%nat /\ bytes_ok d.
Proof.
  intros [H1%Z.eqb_eq H2]%andb_prop. split; [lia|]. apply Forall_forall. intros x Hx.
  rewrite forallb_forall in H2. specialize (H2 x (proj1 (list_elem_of_In _ _) Hx)).
  apply andb_prop in H2 as [?%Z.leb_le ?%Z.ltb_lt]. unfold is_u8. lia.
Qed.

Lemma elem_of_blocks m nd x : x ∈ blocks_of m nd <-> owns m nd x.
Proof.
  unfold blocks_of, owns. rewrite list_elem_of_filter, list_elem_of_fmap. split.
  - intros [Hx (j & -> & Hj%elem_of_seqZ)]. split; [done|]. exists j. split; [lia|done].
  - intros [Hx (j & Hj & <-)]. split; [done|]. exists j. split; [done|]. apply elem_of_seqZ. lia.
Qed.

(** A list without duplicates determines the index of its elements. *)
Lemma NoDup_filter_fmap (f : Z -> Z) l i j :
  NoDup (filter (fun a => a <> 0) (f <$> l)) -> i ∈ l -> j ∈ l -> f i <> 0 -> f i = f j -> i = j.
Proof.
  induction l as [|x l IH]; [by intros _ ?%elem_of_nil|]. rewrite fmap_cons, filter_cons. intros Hn Hi Hj Hne Hij.
  assert (Hin : forall y, y ∈ l -> f y <> 0 -> f y ∈ filter (fun a => a <> 0) (f <$> l)).
  { intros y Hy Hy0. apply list_elem_of_filter. split; [done|]. apply list_elem_of_fmap. by exists y. }
  destruct (decide (f x <> 0)) as [Hx|Hx].
  - apply NoDup_cons in Hn as [Hn1 Hn2].
    apply elem_of_cons in Hi as [->|Hi], Hj as [->|Hj]; [done| | |by apply IH].
    + destruct Hn1. rewrite Hij. apply Hin; [done|]. by rewrite <- Hij.
    + destruct Hn1. rewrite <- Hij. by apply Hin.
  - apply elem_of_cons in Hi as [->|Hi], Hj as [->|Hj]; [done|done| |by apply IH]. by rewrite Hij in Hne.
Qed.

Lemma file_check_ok g m nd :
  i_dev nd = ROOTDEV -> i_type nd <> T_DEV -> file_check g m nd = true -> file_data g m nd.
Proof.
  intros Hd Ht H. unfold file_check in H. rewrite !andb_true_iff in H. destruct H as (((((H1 & H2) & H3) & H4) & H5) & H6).
  apply Z.eqb_eq in H1. apply Z.leb_le in H2, H3. apply bool_decide_eq_true in H4.
  rewrite forallb_forall in H5. rewrite forallb_seqZ in H6.
  split; [done|done| |lia|].
  - split; [lia|..].
    + intros j Hj Hne. assert (Ho : slot (i_addrs nd) m j ∈ blocks_of m nd).
      { apply elem_of_blocks. split; [done|]. by exists j. }
      specialize (H5 _ (proj1 (list_elem_of_In _ _) Ho)). rewrite !andb_true_iff in H5.
      destruct H5 as ((?%Z.leb_le & ?%Z.ltb_lt) & ?). done.
    + intros j j' Hj Hj' Hne Heq. eapply (NoDup_filter_fmap (slot (i_addrs nd) m)); [exact H4|..]; try done;
        apply elem_of_seqZ; lia.
  - intros j Hj Hs E. specialize (H6 j). rewrite E in H6. simpl in H6. discriminate H6. split; [lia|].
    unfold BSIZE in Hs. apply Z.lt_le_trans with (j + 1); [lia|]. apply Z.div_le_lower_bound; lia.
Qed.

Lemma NoDup_concat_disjoint {A} (f : Z -> list A) l i j x :
  NoDup (concat (f <$> l)) -> i ∈ l -> j ∈ l -> i <> j -> x ∈ f i -> x ∈ f j -> False.
Proof.
  induction l as [|y l IH]; [by intros _ ?%elem_of_nil|]. rewrite fmap_cons. simpl.
  intros (_ & Hd & Hn)%NoDup_app Hi Hj Hne Hxi Hxj.
  assert (Hin : forall z, z ∈ l -> x ∈ f z -> x ∈ concat (f <$> l)).
  { intros z Hz Hxz. apply list_elem_of_In, in_concat. exists (f z). rewrite <- !list_elem_of_In.
    split; [|done]. apply list_elem_of_fmap. by exists z. }
  apply elem_of_cons in Hi as [->|Hi], Hj as [->|Hj]; [done|by eapply Hd; eauto|by eapply Hd; eauto|by eapply IH].
Qed.

Lemma fsck_sound g m : geom_ok g -> fsck g m = true -> fs_inv g m.
Proof.
  intros Hg H. unfold fsck in H. rewrite !andb_true_iff in H. destruct H as (((((H1 & H2) & H3) & H4) & H5) & H6).
  rewrite forallb_seqZ in H1, H4. apply Z.eqb_eq in H2, H3. apply bool_decide_eq_true in H6. rewrite forallb_forall in H5.
  assert (Hl : forall j, 0 <= j < g_ninodes g -> live m j = true -> j ∈ live_inodes g m).
  { intros j Hj Hv. apply list_elem_of_filter. split; [done|]. apply elem_of_seqZ. lia. }
  split.
  - split; [|done|done|].
    + intros n Hn. by apply block_check_ok, H1.
    + intros n Hn. by apply H4.
  - intros j Hj Hv. apply file_check_ok; [done| |by apply H5, list_elem_of_In, Hl].
    unfold live in Hv. apply andb_prop in Hv as [_ Hv]. intros E. change (i_type (dinode_of m j) = T_DEV) in E.
    by rewrite E in Hv.
  - intros j j' Hj Hj' Hne Hv Hv' x Hx Hx'. rewrite <- elem_of_blocks in Hx, Hx'.
    by eapply (NoDup_concat_disjoint (fun j => blocks_of m (disk_inode m j)) (live_inodes g m) j j'); auto.
Qed.

(** ** A machine with an image built by mkfs *)

(** The image of a file system with one file, [f], of five bytes. *)
Definition fs_image : mkfs := default (Mkmkfs ∅ 0 0) (mkfs_main [(str "_f", str "hello")]).

(** The layout of the images that mkfs builds. *)
Definition mkfs_geom : geom := Mkgeom FSSIZE NINODES (FSSIZE - nlog).

Definition image_disk (fs : mkfs) : gmap (Z * Z) (list Z) := fin_maps.kmap (pair 1) (mk_img fs).

Lemma image_dblock fs b : dblock (image_disk fs) ROOTDEV b = rsect fs b.
Proof. unfold dblock, image_disk, rsect. f_equal. apply (lookup_kmap (M1:=gmap Z) (M2:=gmap (Z * Z)) (pair 1)). Qed.

Lemma mkfs_geom_ok : geom_ok mkfs_geom.
Proof. split; vm_compute; congruence. Qed.

Lemma image_inv :
  fs_inv mkfs_geom (dblock (image_disk fs_image) ROOTDEV) /\
  forall j, files mkfs_geom (dblock (image_disk fs_image) ROOTDEV) j = files mkfs_geom (rsect fs_image) j.
Proof.
  apply (fs_inv_ext _ mkfs_geom_ok (rsect fs_image)); [intros b _; apply image_dblock|].
  apply fsck_sound; [apply mkfs_geom_ok|]. vm_compute. reflexivity.
Qed.

(** Process 0 has file 0 open on the file, inode 2, at offset 3; the inode has
    not been read yet. *)
Definition opening (k : gmap (Z * Z) (list Z)) (s : kernel) : kernel :=
  s <| k_disk := k |> <| k_mem := user_page |>
    <| k_cpus ::= alter (fun c => c <| c_cr3 := 4096 |>) 0%nat |>
    <| k_icache := [inode0 <| i_dev := ROOTDEV |> <| i_inum := 2 |> <| i_ref := 1 |>] |>
    <| k_ftable := [Mkfile FD_INODE 1 1 1 0 (Some 0%nat) 3] |>.

Definition file_example : kernel := opening (image_disk fs_image) mount_example.

Lemma opening_view k s l :
  ready 0 (opening k s) -> cache_inv s l ->
  (forall x, (x < NBUF)%nat -> b_dev (buf_at s x) = NODEV /\ b_flags (buf_at s x) = 0) ->
  fs_view 0 (opening k s) ∅ [] (dblock k ROOTDEV) k.
Proof.
  intros Hr Hc Hb. split; [done| | |done].
  - split.
    + exists l. by apply (cache_inv_bcache s).
    + intros x Hx. rewrite lookup_empty. by apply unused_good; apply (Hb x Hx).
    + intros x [? H]. by rewrite lookup_empty in H.
    + intros n Hn. by apply elem_of_nil in Hn.
  - intros n. rewrite contents_miss; [done|]. intros x Hx. unfold is_block.
    change (buf_at (opening k s) x) with (buf_at s x). by rewrite (proj1 (Hb x Hx)).
Qed.

Lemma file_example_ready : ready 0 file_example.
Proof.
  split; try (vm_compute; (reflexivity || lia || congruence)).
  intros l Hl; unfold fs_lock in Hl; destruct_or! Hl; subst l; eexists; vm_compute; reflexivity.
Qed.

Lemma file_example_rest :
  at_rest (g_start mkfs_geom) 0 file_example (dblock (image_disk fs_image) ROOTDEV) (image_disk fs_image).
Proof.
  split; [split| | |].
  - apply (opening_view _ _ (reverse (seq 0 NBUF))); [apply file_example_ready|apply mount_example_inv|].
    apply mount_example_buf.
  - split; try (vm_compute; (reflexivity || congruence)). constructor.
  - constructor.
  - vm_compute. reflexivity.
  - vm_compute. reflexivity.
  - vm_compute. reflexivity.
  - unfold log_empty. rewrite image_dblock. split; vm_compute; reflexivity.
Qed.

Lemma file_example_open :
  open_file mkfs_geom (dblock (image_disk fs_image) ROOTDEV) file_example 0 0 2 (str "hello").
Proof.
  split.
  - vm_compute. reflexivity.
  - vm_compute. reflexivity.
  - vm_compute. lia.
  - split; [vm_compute; (reflexivity || congruence || (split; congruence))..|].
    intros H. vm_compute in H. discriminate H.
  - rewrite (proj2 image_inv). vm_compute. reflexivity.
  - vm_compute. split; congruence.
Qed.

Lemma fileread_correct_witness : exists M,
  umem_write (k_mem file_example) (cur_pgdir file_example) 0 (str "lo") = Some M /\
  wpr (disk_rely 0) (fun s1 => k_disk s1 = image_disk fs_image) (@fileread (ide_env 1) 0 0 5) file_example
    (fun r s' => r = 2 /\
      at_rest (g_start mkfs_geom) 0 s' (dblock (image_disk fs_image) ROOTDEV) (image_disk fs_image) /\
      exists nd', cached_inode mkfs_geom (dblock (image_disk fs_image) ROOTDEV) 2 nd' /\
        fs_rel (put_inode 0 nd' (move 0 (3 + r) (file_example <| k_mem := M |>))) s').
Proof.
  eexists. split; [vm_compute; reflexivity|].
  apply (fileread_correct (HD := ide_driver 0 0) mkfs_geom file_example _ _ 0 0 2 (str "hello") 0 5 _
    mkfs_geom_ok file_example_rest (proj1 image_inv) file_example_open).
  - vm_compute. congruence.
  - lia.
  - unfold is_u32. lia.
  - vm_compute. reflexivity.
Defined.

(** Three bytes are written at offset 3: the file grows by one. *)
Lemma file_example_bytes :
  umem_read (k_mem file_example) (cur_pgdir file_example) 0 3 = Some [7; 8; 9] /\ bytes_ok [7; 8; 9].
Proof.
  split; [vm_compute; reflexivity|]. repeat constructor; vm_compute; congruence.
Qed.

Lemma file_example_free :
  let m := dblock (image_disk fs_image) ROOTDEV in
  need m 2 + nblocks_at 3 3 + 3 / write_max <= Z.of_nat (nfree mkfs_geom m).
Proof. vm_compute. congruence. Qed.

Lemma filewrite_correct_witness :
  let m := dblock (image_disk fs_image) ROOTDEV in
  wpr (disk_rely 0) (fun _ => True) (@filewrite (ide_env 1) 0 0 3) file_example (fun r s' =>
    r = 3 /\ exists m' k' nd', at_rest (g_start mkfs_geom) 0 s' m' k' /\ fs_inv mkfs_geom m' /\
      cached_inode mkfs_geom m' 2 nd' /\
      (forall j, files mkfs_geom m' j = file_put 2 3 [7; 8; 9] (files mkfs_geom m) j) /\
      fs_rel (put_inode 0 nd' (move 0 (3 + 3) file_example)) s').
Proof.
  intros m. destruct file_example_bytes as [H1 H2].
  apply (filewrite_correct (HD := ide_driver 0 0) mkfs_geom file_example m _ 0 0 2 (str "hello") 0 3 [7; 8; 9]
    mkfs_geom_ok file_example_rest (proj1 image_inv) file_example_open).
  - vm_compute. congruence.
  - lia.
  - vm_compute. congruence.
  - unfold is_u32. lia.
  - exact H1.
  - exact H2.
  - exact file_example_free.
Defined.

Lemma filewrite_crash_safe_witness :
  let m := dblock (image_disk fs_image) ROOTDEV in
  wpr (disk_rely 0)
    (fun s1 => forall k', @recovers (ide_env 1) 0 (disk_rely 0) (g_start mkfs_geom) (k_disk s1) k' ->
      fs_inv mkfs_geom (dblock k' ROOTDEV) /\
      prefix_written 2 3 [7; 8; 9] (files mkfs_geom m) (files mkfs_geom (dblock k' ROOTDEV)))
    (@filewrite (ide_env 1) 0 0 3) file_example
    (fun _ s' => forall k', @recovers (ide_env 1) 0 (disk_rely 0) (g_start mkfs_geom) (k_disk s') k' ->
      fs_inv mkfs_geom (dblock k' ROOTDEV) /\
      forall j, files mkfs_geom (dblock k' ROOTDEV) j = file_put 2 3 [7; 8; 9] (files mkfs_geom m) j).
Proof.
  intros m. destruct file_example_bytes as [H1 H2].
  apply (filewrite_crash_safe (HD := ide_driver 0 0) mkfs_geom file_example m _ 0 0 2 (str "hello") 0 3 [7; 8; 9]
    mkfs_geom_ok file_example_rest (proj1 image_inv) file_example_open).
  - vm_compute. congruence.
  - lia.
  - vm_compute. congruence.
  - unfold is_u32. lia.
  - exact H1.
  - exact H2.
  - exact file_example_free.
Defined.
