(* ===== verification/Grep.v ===== *)
(** grep.c: the pattern matcher, and the language it decides.

    Patterns and texts are C strings: lists of bytes, of which none is 0, that
    end where the list does.  A pattern is read as a sequence of elements, each
    a character or [.], possibly starred, between optional anchors [^] and [$].
    The matcher finds exactly the texts that have a substring in the language
    of that sequence. *)
From S2P Require Import Prelude Memory Kernel.

Definition CARET : Z := 94.
Definition DOLLAR : Z := 36.
Definition DOT : Z := 46.
Definition STAR : Z := 42.

(** [*text == '\0'] *)
Definition at_end (text : list Z) : bool := match text with [] => true | _ => false end.

(** [matchstar(c, re, text)], with [here] for [matchhere(re, .)]. *)
Fixpoint matchstar (here : list Z -> bool) (c : Z) (text : list Z) : bool :=
  if here text then true else
  match text with
  | [] => false
  | t :: text' => if (t =? c) || (c =? DOT) then matchstar here c text' else false
  end.

Fixpoint matchhere (re text : list Z) : bool :=
  match re with
  | [] => true
  | c :: re1 =>
      match re1 with
      | s :: re2 =>
          if s =? STAR then matchstar (matchhere re2) c text else
          match text with
          | t :: text' => if (c =? DOT) || (c =? t) then matchhere re1 text' else false
          | [] => false
          end
      | [] =>
          if c =? DOLLAR then at_end text else
          match text with
          | t :: text' => if (c =? DOT) || (c =? t) then matchhere re1 text' else false
          | [] => false
          end
      end
  end.

Fixpoint match_from (re text : list Z) : bool :=
  if matchhere re text then true else
  match text with
  | [] => false
  | _ :: text' => match_from re text'
  end.

Definition match_re (re text : list Z) : bool :=
  match re with
  | c :: re' => if c =? CARET then matchhere re' text else match_from re text
  | [] => match_from re text
  end.

(** ** The language of a pattern *)

Inductive atom := Char (c : Z) | Any.

Inductive elem := One (a : atom) | Many (a : atom).

(** A pattern without [^]: its elements, and whether it ends in [$]. *)
Record pattern := Mkpattern {
  pat_elems : list elem;
  pat_eol : bool;
}.

Definition atom_of (c : Z) : atom := if c =? DOT then Any else Char c.

Fixpoint parse (re : list Z) : pattern :=
  match re with
  | [] => Mkpattern [] false
  | c :: re1 =>
      match re1 with
      | s :: re2 =>
          if s =? STAR
          then let p := parse re2 in Mkpattern (Many (atom_of c) :: pat_elems p) (pat_eol p)
          else let p := parse re1 in Mkpattern (One (atom_of c) :: pat_elems p) (pat_eol p)
      | [] => if c =? DOLLAR then Mkpattern [] true else Mkpattern [One (atom_of c)] false
      end
  end.

Definition in_atom (a : atom) (c : Z) : Prop := match a with Char d => c = d | Any => True end.

(** The strings an element, and a sequence of elements, stand for. *)
Definition in_elem (e : elem) (w : list Z) : Prop :=
  match e with
  | One a => exists c, w = [c] /\ in_atom a c
  | Many a => Forall (in_atom a) w
  end.

Inductive in_seq : list elem -> list Z -> Prop :=
| seq_nil : in_seq [] []
| seq_cons e es w1 w2 : in_elem e w1 -> in_seq es w2 -> in_seq (e :: es) (w1 ++ w2).

(** [text] starts with a string of the pattern, all of it if the pattern ends
    in [$]. *)
Definition prefix_in (p : pattern) (text : list Z) : Prop :=
  exists w rest, text = w ++ rest /\ in_seq (pat_elems p) w /\ (pat_eol p = true -> rest = []).

(** Some substring of [text] is in the language of the pattern [re], at its
    start if [re] starts with [^]. *)
Definition found (re text : list Z) : Prop :=
  match re with
  | c :: re' =>
      if c =? CARET then prefix_in (parse re') text
      else exists pre post, text = pre ++ post /\ prefix_in (parse re) post
  | [] => True
  end.

(** ** Correctness *)

Lemma atom_of_spec c t : (c =? DOT) || (c =? t) = true <-> in_atom (atom_of c) t.
Proof.
  unfold atom_of. destruct (Z.eqb_spec c DOT); simpl; [done|]. rewrite Z.eqb_eq. done.
Qed.

Lemma prefix_one a es eol text :
  prefix_in (Mkpattern (One a :: es) eol) text <->
  exists t text', text = t :: text' /\ in_atom a t /\ prefix_in (Mkpattern es eol) text'.
Proof.
  unfold prefix_in. simpl. split.
  - intros (w & rest & -> & Hw & He). inversion Hw as [|e es' w1 w2 H1 H2]; subst.
    destruct H1 as (c & -> & Hc). exists c, (w2 ++ rest). split_and!; [done|done|]. by exists w2, rest.
  - intros (t & text' & -> & Ht & w & rest & -> & Hw & He). exists (t :: w), rest.
    split_and!; [done| |done]. apply (seq_cons (One a) es [t] w); [by exists t|done].
Qed.

Lemma prefix_many a es eol text :
  prefix_in (Mkpattern (Many a :: es) eol) text <->
  prefix_in (Mkpattern es eol) text \/
  exists t text', text = t :: text' /\ in_atom a t /\
    prefix_in (Mkpattern (Many a :: es) eol) text'.
Proof.
  unfold prefix_in. simpl. split.
  - intros (w & rest & -> & Hw & He). inversion Hw as [|e es' w1 w2 H1 H2]; subst.
    destruct H1 as [|t w1 Ht H1]; [left; by exists w2, rest|right].
    exists t, ((w1 ++ w2) ++ rest). split_and!; [done|done|].
    exists (w1 ++ w2), rest. split_and!; [done| |done]. by apply (seq_cons (Many a)).
  - intros [(w & rest & -> & Hw & He)|(t & text' & -> & Ht & w & rest & -> & Hw & He)].
    + exists w, rest. split_and!; [done| |done]. apply (seq_cons (Many a) es [] w); [constructor|done].
    + exists (t :: w), rest. split_and!; [done| |done].
      inversion Hw as [|e es' w1 w2 H1 H2]; subst.
      apply (seq_cons (Many a) es (t :: w1) w2); [by constructor|done].
Qed.

Lemma matchstar_spec (here : list Z -> bool) c es eol text :
  (forall x, here x = true <-> prefix_in (Mkpattern es eol) x) ->
  matchstar here c text = true <-> prefix_in (Mkpattern (Many (atom_of c) :: es) eol) text.
Proof.
  intros Hh. induction text as [|t text IH]; simpl; rewrite prefix_many, <- Hh.
  - destruct (here []); naive_solver.
  - destruct (here (t :: text)) eqn:Eh; [naive_solver|].
    rewrite Z.eqb_sym, orb_comm.
    destruct ((c =? DOT) || (c =? t)) eqn:Ec.
    + apply atom_of_spec in Ec. rewrite IH. naive_solver.
    + split; [done|]. intros [?|(t' & text' & [= <- <-] & Ht & _)]; [done|].
      apply atom_of_spec in Ht. congruence.
Qed.

Lemma prefix_nil text : prefix_in (Mkpattern [] false) text <-> True.
Proof. split; [done|]. intros _. exists [], text. split_and!; [done|constructor|done]. Qed.

Lemma prefix_eol text : prefix_in (Mkpattern [] true) text <-> text = [].
Proof.
  split.
  - intros (w & rest & -> & Hw & He). inversion Hw; subst. by apply He.
  - intros ->. exists [], []. split_and!; [done|constructor|done].
Qed.

Lemma matchone_spec c re es eol text :
  (forall x, matchhere re x = true <-> prefix_in (Mkpattern es eol) x) ->
  match text with
  | t :: text' => if (c =? DOT) || (c =? t) then matchhere re text' else false
  | [] => false
  end = true <-> prefix_in (Mkpattern (One (atom_of c) :: es) eol) text.
Proof.
  intros Hre. rewrite prefix_one. destruct text as [|t text]; [naive_solver|].
  destruct ((c =? DOT) || (c =? t)) eqn:Ec.
  - apply atom_of_spec in Ec. rewrite Hre. naive_solver.
  - split; [done|]. intros (t' & text' & [= <- <-] & Ht & _). apply atom_of_spec in Ht. congruence.
Qed.

Lemma matchhere_spec re text : matchhere re text = true <-> prefix_in (parse re) text.
Proof.
  assert (H : forall n re, (length re <= n)%nat ->
    forall text, matchhere re text = true <-> prefix_in (parse re) text); [|by eapply H].
  clear. induction n as [|n IH]; intros re Hn text.
  { destruct re; [|simpl in Hn; lia]. simpl. by rewrite prefix_nil. }
  destruct re as [|c [|s re]]; simpl in Hn.
  - simpl. by rewrite prefix_nil.
  - cbn [matchhere parse]. destruct (c =? DOLLAR).
    + rewrite prefix_eol. unfold at_end. destruct text; naive_solver.
    + apply (matchone_spec c []). intros x. by rewrite prefix_nil.
  - cbn [matchhere parse]. destruct (s =? STAR).
    + destruct (parse re) as [es eol] eqn:Ep. apply matchstar_spec. intros x.
      rewrite (IH re) by lia. by rewrite Ep.
    + apply (matchone_spec c (s :: re)). intros x. rewrite (IH (s :: re)) by (simpl; lia).
      change (prefix_in (parse (s :: re)) x <->
        prefix_in (Mkpattern (pat_elems (parse (s :: re))) (pat_eol (parse (s :: re)))) x).
      by destruct (parse (s :: re)).
Qed.

Lemma match_from_spec re text :
  match_from re text = true <-> exists pre post, text = pre ++ post /\ prefix_in (parse re) post.
Proof.
  induction text as [|t text IH]; cbn [match_from]; destruct (matchhere re _) eqn:Eh.
  - split; [|done]. intros _. exists [], []. by rewrite <- matchhere_spec.
  - split; [done|]. intros (pre & post & Ep & Hp). symmetry in Ep.
    apply app_eq_nil in Ep as [-> ->]. apply matchhere_spec in Hp. congruence.
  - split; [|done]. intros _. exists [], (t :: text). by rewrite <- matchhere_spec.
  - rewrite IH. split.
    + intros (pre & post & -> & Hp). by exists (t :: pre), post.
    + intros ([|t' pre] & post & Ep & Hp); simpl in Ep.
      * subst post. apply matchhere_spec in Hp. congruence.
      * simplify_eq. by exists pre, post.
Qed.

(** C38: [match] is the decision procedure of the pattern language: it answers
    yes exactly when some substring of the text (a prefix if the pattern starts
    with [^], one that ends where the text does if it ends in [$]) is a
    concatenation of strings of the pattern's elements, a starred element
    standing for any number of its characters. *)
Theorem match_decides re text : match_re re text = true <-> found re text.
Proof.
  unfold match_re, found. destruct re as [|c re].
  - split; [done|]. intros _. by destruct text.
  - destruct (c =? CARET); [apply matchhere_spec|apply match_from_spec].
Qed.
