(* ===== verification/Ulib.v ===== *)
(** User programs, and the library they share: ulib.c and printf.c.

    A program is a tree of system calls: what it does next is a function of the
    reply.  The arguments of a call carry the bytes that the pointers it passes
    point to, and the reply those that the kernel stores.  The string routines
    of ulib.c are functions on the program's memory, with a bound on the loops
    that end at a NUL. *)
From S2P Require Import Prelude Memory Kernel CString Spinlock Console.

(** ** Programs *)

Inductive call :=
| Sfork | SforkLowest | SforkLow | SforkMedium | SforkHigh | SforkHighest
| SswitchDebug | Swait | Spipe | Sgetpid | Suptime
| Sread (fd n : Z)
| Swrite (fd : Z) (l : list Z)
| Sopen (path : list Z) (mode : Z)
| Sclose (fd : Z)
| Sdup (fd : Z)
| Sfstat (fd : Z)
| Sexec (path : list Z) (argv : list (list Z))
| Schdir (path : list Z)
| Smkdir (path : list Z)
| Sunlink (path : list Z)
| Slink (old new : list Z)
| Smknod (path : list Z) (major minor : Z)
| Skill (pid : Z)
| Ssbrk (n : Z)
| Ssleep (n : Z)
| SpidInfo (pid : Z).

(** The value a call returns and the bytes it stores. *)
Record reply := Mkreply {
  r_val : Z;
  r_bytes : list Z;
}.

(** [Exit] is a call of [exit], [Fault] an access outside the program's memory,
    [Again] a loop bound of the model that was too small. *)
Inductive prog (A : Type) : Type :=
| Done (a : A)
| Exit
| Fault
| Again
| Sys (c : call) (k : reply -> prog A).
Global Arguments Done {A} a.
Global Arguments Exit {A}.
Global Arguments Fault {A}.
Global Arguments Again {A}.
Global Arguments Sys {A} c k.

Fixpoint prog_bind {A B} (f : A -> prog B) (p : prog A) : prog B :=
  match p with
  | Done a => f a
  | Exit => Exit
  | Fault => Fault
  | Again => Again
  | Sys c k => Sys c (fun r => prog_bind f (k r))
  end.

#[export] Instance prog_ret : MRet prog := @Done.
#[export] Instance prog_mbind : MBind prog := @prog_bind.

(** A call whose value, or whose bytes, are all that matters. *)
Definition sys (c : call) : prog Z := Sys c (fun r => Done (r_val r)).
Definition sys_bytes (c : call) : prog (Z * list Z) := Sys c (fun r => Done (r_val r, r_bytes r)).

(** ** Running a filter *)

(** How a run ends, and what it wrote, with the descriptor of each write. *)
Inductive ending (A : Type) :=
| Returned (a : A)
| Exited
| Faulted
| Unfinished.
Global Arguments Returned {A} a.
Global Arguments Exited {A}.
Global Arguments Faulted {A}.
Global Arguments Unfinished {A}.

(** The kernel as a filter sees it: a [read] gets the next of [input], the
    pieces in which the data arrive, and then the end of the file; a [write]
    succeeds; other calls return 0. *)
Fixpoint filter_run {A} (p : prog A) (input : list (list Z)) : ending A * list (Z * list Z) :=
  match p with
  | Done a => (Returned a, [])
  | Exit => (Exited, [])
  | Fault => (Faulted, [])
  | Again => (Unfinished, [])
  | Sys c k =>
      match c with
      | Sread _ _ =>
          match input with
          | [] => filter_run (k (Mkreply 0 [])) []
          | l :: input' => filter_run (k (Mkreply (Z.of_nat (length l)) l)) input'
          end
      | Swrite fd l =>
          let '(e, out) := filter_run (k (Mkreply (Z.of_nat (length l)) [])) input in
          (e, (fd, l) :: out)
      | _ => filter_run (k (Mkreply 0 [])) input
      end
  end.

(** What was written to [fd]. *)
Definition output (fd : Z) (out : list (Z * list Z)) : list Z :=
  concat (snd <$> base.filter (fun w => w.1 = fd) out).

(** ** ulib.c *)

(** Copies up to and including the NUL. *)
Fixpoint strcpy (m : memory) (s t : Z) (fuel : nat) : option memory :=
  match fuel with
  | O => None
  | S fuel' =>
      let c := load8 m t in
      let m' := store8 m s c in
      if c_true c then strcpy m' (s + 1) (t + 1) fuel' else Some m'
  end.

Fixpoint strcmp (m : memory) (p q : Z) (fuel : nat) : option Z :=
  match fuel with
  | O => None
  | S fuel' =>
      if c_true (load8 m p) && (load8 m p =? load8 m q)
      then strcmp m (p + 1) (q + 1) fuel'
      else Some (load8 m p - load8 m q)
  end.

Fixpoint strlen_from (m : memory) (s n : Z) (fuel : nat) : option Z :=
  match fuel with
  | O => None
  | S fuel' => if c_true (load8 m (s + n)) then strlen_from m s (i32 (n + 1)) fuel' else Some (u32 n)
  end.

Definition strlen (m : memory) (s : Z) (fuel : nat) : option Z := strlen_from m s 0 fuel.

Definition memset (m : memory) (dst c n : Z) : memory := stosb m dst c n.

(** The address of the first [c], 0 for none. *)
Fixpoint strchr (m : memory) (s c : Z) (fuel : nat) : option Z :=
  match fuel with
  | O => None
  | S fuel' =>
      if negb (c_true (load8 m s)) then Some 0
      else if load8 m s =? u8 c then Some s
      else strchr m (s + 1) c fuel'
  end.

(** [while('0' <= *s && *s <= '9') n = n*10 + *s++ - '0';] *)
Fixpoint atoi_from (m : memory) (s n : Z) (fuel : nat) : option Z :=
  match fuel with
  | O => None
  | S fuel' =>
      let c := i8 (load8 m s) in
      if (48 <=? c) && (c <=? 57) then atoi_from m (s + 1) (i32 (n * 10 + c - 48)) fuel' else Some n
  end.

Definition atoi (m : memory) (s : Z) (fuel : nat) : option Z := atoi_from m s 0 fuel.

Fixpoint memmove_n (m : memory) (dst src : Z) (n : nat) : memory :=
  match n with
  | O => m
  | S n' => memmove_n (store8 m dst (load8 m src)) (dst + 1) (src + 1) n'
  end.

Definition memmove (m : memory) (dst src n : Z) : memory := memmove_n m dst src (Z.to_nat n).

(** [gets(buf, max)]: the line it stores, without the NUL; [n] characters may
    still be read. *)
Fixpoint gets_loop (n : nat) : prog (list Z) :=
  match n with
  | O => mret []
  | S n' =>
      '(cc, l) ← sys_bytes (Sread 0 1);
      match l with
      | c :: _ =>
          if cc <? 1 then mret [] else
          if (c =? 10) || (c =? 13) then mret [c] else
          rest ← gets_loop n';
          mret (c :: rest)
      | [] => mret []
      end
  end.

Definition gets_line (max : Z) : prog (list Z) := gets_loop (Z.to_nat (max - 1)).

(** [stat(n, st)]: the result, and the bytes of the structure. *)
Definition stat_path (n : list Z) : prog (Z * list Z) :=
  fd ← sys (Sopen n 0);
  if fd <? 0 then mret (-1, []) else
  r ← sys_bytes (Sfstat fd);
  sys (Sclose fd);;
  mret r.

(** ** printf.c *)

Definition putc (fd c : Z) : prog unit := sys (Swrite fd [u8 c]);; mret tt.

Fixpoint puts (fd : Z) (l : list Z) : prog unit :=
  match l with
  | [] => mret tt
  | c :: l' => putc fd c;; puts fd l'
  end.

Definition udigits : list Z := str "0123456789ABCDEF".

Fixpoint uprintint_loop (fuel : nat) (x base : Z) : list Z :=
  match fuel with
  | O => []
  | S fuel' =>
      default 0 (udigits !! Z.to_nat (x mod base)) ::
      (if x / base =? 0 then [] else uprintint_loop fuel' (x / base) base)
  end.

(** The contents of [buf], which is printed from its end. *)
Definition uprintint_buf (xx base : Z) (sgn : bool) : list Z :=
  let xx := i32 xx in
  let neg := sgn && (xx <? 0) in
  let x := if neg then u32 (- xx) else u32 xx in
  uprintint_loop 32 x base ++ (if neg then [45] else []).

Definition uprintint (fd xx base : Z) (sgn : bool) : prog unit :=
  puts fd (reverse (uprintint_buf xx base sgn)).

(** The rest of [printf]'s loop, [pct] when its state is ['%']; an argument that
    was not passed is whatever is on the stack, a [Fault] of the model. *)
Fixpoint printf_loop (fd : Z) (fmt : list Z) (pct : bool) (ap : list carg) : prog unit :=
  match fmt with
  | [] => mret tt
  | c :: fmt' =>
      if negb pct then
        if c =? 37 then printf_loop fd fmt' true ap
        else putc fd c;; printf_loop fd fmt' false ap
      else if c =? 100 then
        match ap with
        | AInt x :: ap' => uprintint fd x 10 true;; printf_loop fd fmt' false ap'
        | _ => Fault
        end
      else if (c =? 120) || (c =? 112) then
        match ap with
        | AInt x :: ap' => uprintint fd x 16 false;; printf_loop fd fmt' false ap'
        | _ => Fault
        end
      else if c =? 115 then
        match ap with
        | AStr (Some s) :: ap' => puts fd s;; printf_loop fd fmt' false ap'
        | AStr None :: ap' => puts fd (str "(null)");; printf_loop fd fmt' false ap'
        | _ => Fault
        end
      else if c =? 99 then
        match ap with
        | AInt x :: ap' => putc fd x;; printf_loop fd fmt' false ap'
        | _ => Fault
        end
      else if c =? 37 then putc fd c;; printf_loop fd fmt' false ap
      else putc fd 37;; putc fd c;; printf_loop fd fmt' false ap
  end.

Definition printf (fd : Z) (fmt : string) (ap : list carg) : prog unit :=
  printf_loop fd (str fmt) false ap.
