(* ===== verification/Umalloc.v ===== *)
(** umalloc.c: the memory allocator of user programs.

    Free blocks form a circular list in order of address, threaded through the
    blocks themselves.  A block is a header of 8 bytes, which holds the address
    of the next free block and the size of this one in units of 8 bytes, and
    the memory after it.  The program's memory is byte addressed; [malloc] is a
    program, since it calls [sbrk]. *)
From stdpp Require Import sorting.
From S2P Require Import Prelude Memory Kernel CString Spinlock Console Ulib.

(** ** The code *)

(** [sizeof(Header)] *)
Definition HDR : Z := 8.

(** The fields of the header at [p], and their assignments. *)
Definition h_ptr (m : memory) (p : Z) : Z := load32 m p.
Definition h_size (m : memory) (p : Z) : Z := load32 m (p + 4).
Definition set_ptr (m : memory) (p v : Z) : memory := store32 m p v.
Definition set_size (m : memory) (p v : Z) : memory := store32 m (p + 4) v.

(** [p + n], for a pointer [p] to headers. *)
Definition h_add (p n : Z) : Z := u32 (p + HDR * n).

(** The static variable [freep], and memory. *)
Record heap := Mkheap {
  h_mem : memory;
  h_freep : Z;
}.

(** The loop of [free]: the block after which [bp] is inserted. *)
Fixpoint free_find (fuel : nat) (m : memory) (bp p : Z) : option Z :=
  let n := h_ptr m p in
  if (p <? bp) && (bp <? n) then Some p
  else if (n <=? p) && ((p <? bp) || (bp <? n)) then Some p
  else match fuel with
       | O => None
       | S fuel' => free_find fuel' m bp n
       end.

(** The two tests of [free]: [bp] is joined to the block after it, and the block
    before it to [bp]. *)
Definition join_next (m : memory) (p bp : Z) : memory :=
  if h_add bp (h_size m bp) =? h_ptr m p then
    let m := set_size m bp (u32 (h_size m bp + h_size m (h_ptr m p))) in
    set_ptr m bp (h_ptr m (h_ptr m p))
  else set_ptr m bp (h_ptr m p).

Definition join_prev (m : memory) (p bp : Z) : memory :=
  if h_add p (h_size m p) =? bp then
    let m := set_size m p (u32 (h_size m p + h_size m bp)) in
    set_ptr m p (h_ptr m bp)
  else set_ptr m p bp.

Definition free (fuel : nat) (ap : Z) (h : heap) : prog heap :=
  let bp := u32 (ap - HDR) in
  match free_find fuel (h_mem h) bp (h_freep h) with
  | None => Again
  | Some p => Done (Mkheap (join_prev (join_next (h_mem h) p bp) p bp) p)
  end.

Definition morecore (fuel : nat) (nu : Z) (h : heap) : prog (Z * heap) :=
  let nu := if nu <? 4096 then 4096 else nu in
  r ← sys (Ssbrk (i32 (nu * HDR)));
  let p := u32 r in
  if p =? u32 (-1) then mret (0, h) else
  h ← free fuel (u32 (p + HDR)) (Mkheap (set_size (h_mem h) p nu) (h_freep h));
  mret (h_freep h, h).

(** The block [p] gives [nunits] units: all of it, or its end. *)
Definition take_block (m : memory) (prevp p nunits : Z) : Z * memory :=
  if h_size m p =? nunits then (p, set_ptr m prevp (h_ptr m p))
  else
    let m := set_size m p (h_size m p - nunits) in
    let p := h_add p (h_size m p) in
    (p, set_size m p nunits).

Fixpoint malloc_loop (fuel : nat) (prevp p nunits : Z) (h : heap) : prog (Z * heap) :=
  if nunits <=? h_size (h_mem h) p then
    let '(p, m) := take_block (h_mem h) prevp p nunits in
    mret (h_add p 1, Mkheap m prevp)
  else
    match fuel with
    | O => Again
    | S fuel' =>
        if p =? h_freep h then
          '(p, h) ← morecore fuel' nunits h;
          if p =? 0 then mret (0, h) else malloc_loop fuel' p (h_ptr (h_mem h) p) nunits h
        else malloc_loop fuel' p (h_ptr (h_mem h) p) nunits h
    end.

Section malloc.
(** The address of the static variable [base]. *)
Context (base : Z).

Definition malloc (fuel : nat) (nbytes : Z) (h : heap) : prog (Z * heap) :=
  let nunits := u32 (nbytes + HDR - 1) / HDR + 1 in
  let h :=
    if h_freep h =? 0 then Mkheap (set_size (set_ptr (h_mem h) base base) base 0) base
    else h in
  malloc_loop fuel (h_freep h) (h_ptr (h_mem h) (h_freep h)) nunits h.
End malloc.

(** A program run against [sbrk]: the kernel moves the break where [grant] lets it
    and returns the old one, else -1. *)
Fixpoint run_sbrk {A} (grant : Z -> bool) (p : prog A) (brk : Z) : option (A * Z) :=
  match p with
  | Done a => Some (a, brk)
  | Sys (Ssbrk n) k =>
      if grant (brk + n) then run_sbrk grant (k (Mkreply (i32 brk) [])) (brk + n)
      else run_sbrk grant (k (Mkreply (-1) [])) brk
  | _ => None
  end.

(** ** Headers *)

Lemma set_ptr_same m p v : is_u32 v -> h_ptr (set_ptr m p v) p = v /\ h_size (set_ptr m p v) p = h_size m p.
Proof.
  intros H. unfold h_ptr, h_size, set_ptr. split; [by apply load32_store32_eq|]. apply load32_store32_ne. lia.
Qed.

Lemma set_size_same m p v : is_u32 v -> h_size (set_size m p v) p = v /\ h_ptr (set_size m p v) p = h_ptr m p.
Proof.
  intros H. unfold h_ptr, h_size, set_size. split; [by apply load32_store32_eq|]. apply load32_store32_ne. lia.
Qed.

(** [m'] is [m] but for the header at [p]. *)
Definition header_set (m m' : memory) (p : Z) : Prop := same_outside p (p + HDR) m m'.

Lemma set_ptr_set m p v : header_set m (set_ptr m p v) p.
Proof. intros x Hx. unfold set_ptr. apply load8_store32_out. unfold HDR in Hx. lia. Qed.

Lemma set_size_set m p v : header_set m (set_size m p v) p.
Proof. intros x Hx. unfold set_size. apply load8_store32_out. unfold HDR in Hx. lia. Qed.

Lemma header_ext m m' p :
  (forall x, p <= x < p + HDR -> load8 m' x = load8 m x) -> h_ptr m' p = h_ptr m p /\ h_size m' p = h_size m p.
Proof. unfold HDR. intros H. split; apply load32_ext; intros x Hx; apply H; lia. Qed.

Lemma header_other m m' p q :
  header_set m m' p -> q + HDR <= p \/ p + HDR <= q -> h_ptr m' q = h_ptr m q /\ h_size m' q = h_size m q.
Proof. intros H Hq. apply header_ext. intros x Hx. apply H. unfold HDR in *. lia. Qed.

(** ** The invariant *)

(** A block: the address of its header and its size. *)
Abbreviation block := (Z * Z)%type.

(** The end of a block's memory; [base] has a header and size 0. *)
Definition bend (b : block) : Z := b.1 + HDR * Z.max 1 b.2.

Definition disjoint (b c : block) : Prop := bend b <= c.1 \/ bend c <= b.1.

(** Free blocks are in order and never adjacent. *)
Definition before (b c : block) : Prop := bend b <= c.1 /\ b.1 + HDR * b.2 < c.1.

Definition next (l : list block) (q : Z) : Z := match l with [] => q | b :: _ => b.1 end.

(** The headers of the blocks [l] are linked in this order, and the last one to
    [q]. *)
Fixpoint chain (m : memory) (l : list block) (q : Z) : Prop :=
  match l with
  | [] => True
  | b :: l' => h_ptr m b.1 = next l' q /\ h_size m b.1 = b.2 /\ chain m l' q
  end.

Lemma chain_app m l1 l2 q : chain m (l1 ++ l2) q <-> chain m l1 (next l2 q) /\ chain m l2 q.
Proof.
  induction l1 as [|b l1 IH]; simpl; [tauto|]. rewrite IH. destruct l1; simpl; tauto.
Qed.

Lemma chain_frame m m' l q :
  chain m l q -> (forall b x, b ∈ l -> b.1 <= x < b.1 + HDR -> load8 m' x = load8 m x) -> chain m' l q.
Proof.
  induction l as [|b l IH]; simpl; [done|]. intros (H1 & H2 & H3) Hf.
  destruct (header_ext m m' b.1) as [-> ->]; [intros x Hx; apply (Hf b); [by left|done]|].
  split_and!; [done..|]. apply IH; [done|]. intros c x Hc. apply Hf. by right.
Qed.

(** ** The search of [free] *)

Lemma before_lt b c : before b c -> b.1 < c.1.
Proof. unfold before, bend, HDR. lia. Qed.

(** Among the blocks before [bp], the search ends at the last one. *)
Lemma find_below m bp q l fuel b0 b :
  chain m (b0 :: l) q -> StronglySorted before (b0 :: l) -> (forall c, c ∈ b0 :: l -> c.1 < bp) ->
  last (b0 :: l) = Some b -> bp < q \/ q <= b.1 -> (length l <= fuel)%nat ->
  free_find fuel m bp b0.1 = Some b.1.
Proof.
  revert b0 fuel; induction l as [|b1 l IH]; intros b0 fuel (H1 & _ & H2) Hs Hlt Hl Hq Hf.
  - injection Hl as ->. simpl in H1. specialize (Hlt b ltac:(by left)).
    destruct fuel; cbn [free_find]; rewrite H1;
      (destruct (Z.ltb_spec b.1 bp); [|lia]); destruct (Z.ltb_spec bp q); try done; cbn [andb orb];
      (destruct (Z.leb_spec q b.1); [done|lia]).
  - apply StronglySorted_inv in Hs as [Hs Hb]. apply Forall_cons in Hb as [Hb%before_lt _].
    simpl in H1. pose proof (Hlt b1 ltac:(right; by left)). simpl in Hf.
    destruct fuel as [|fuel]; [lia|]. cbn [free_find]. rewrite H1.
    destruct (Z.ltb_spec bp b1.1); [lia|]. rewrite andb_false_r. destruct (Z.leb_spec b1.1 b0.1); [lia|]. cbn [andb].
    apply IH; [done|done|intros c Hc; apply Hlt; by right|done|done|lia].
Qed.

(** Among the blocks after it, it goes on to the start of the list. *)
Lemma find_above m bp base l k :
  chain m l base -> StronglySorted before l -> (forall c, c ∈ l -> bp < c.1) -> base < bp ->
  free_find (length l + k) m bp (next l base) = free_find k m bp base.
Proof.
  revert k; induction l as [|b l IH]; intros k Hc Hs Hlt Hb; [done|].
  destruct Hc as (H1 & _ & H2). apply StronglySorted_inv in Hs as [Hs Hf].
  pose proof (Hlt b ltac:(by left)). cbn [next length Nat.add free_find]. rewrite H1.
  destruct (Z.ltb_spec b.1 bp); [lia|]. cbn [andb orb].
  assert (Hn : (next l base <=? b.1) && (bp <? next l base) = false).
  { destruct l as [|b1 l]; simpl.
    - destruct (Z.ltb_spec bp base); [lia|apply andb_false_r].
    - apply Forall_cons in Hf as [Hf%before_lt _]. destruct (Z.leb_spec b1.1 b.1); [lia|done]. }
  rewrite Hn. apply IH; [done|done|intros c Hc; apply Hlt; by right|done].
Qed.

(** [base], the block of size 0 that the list starts with. *)
Definition zero (base : Z) : block := (base, 0).

Lemma find_place m bp base l b r freep fuel :
  chain m (zero base :: l ++ r) base -> StronglySorted before (zero base :: l ++ r) ->
  last (zero base :: l) = Some b ->
  (forall c, c ∈ zero base :: l -> c.1 < bp) -> (forall c, c ∈ r -> bp < c.1) ->
  freep ∈ (zero base :: l ++ r).*1 -> (length (zero base :: l ++ r) <= fuel)%nat ->
  free_find fuel m bp freep = Some b.1.
Proof.
  set (b0 := zero base). change (b0 :: l ++ r) with ((b0 :: l) ++ r).
  intros Hc Hs Hl Hlt Hgt Hin Hf. apply chain_app in Hc as [Hc1 Hc2].
  apply StronglySorted_app in Hs as (Hlr & Hs1 & Hs2). rewrite length_app in Hf.
  assert (Hq : bp < next r base \/ next r base <= b.1).
  { destruct r as [|y r]; [right|left; apply Hgt; by left]. simpl. apply last_Some_elem_of in Hl.
    apply elem_of_cons in Hl as [->|Hl]; [done|]. apply StronglySorted_inv in Hs1 as [_ Hb].
    rewrite Forall_forall in Hb. pose proof (before_lt _ _ (Hb b Hl)). simpl in *. lia. }
  rewrite fmap_app, elem_of_app in Hin. destruct Hin as [Hin|Hin].
  - apply list_elem_of_fmap in Hin as (x & -> & Hx). apply list_elem_of_split in Hx as (l1 & l2 & E).
    rewrite E in *. apply chain_app in Hc1 as [_ Hc1]. apply StronglySorted_app in Hs1 as (_ & _ & Hs1).
    rewrite length_app in Hf. simpl in Hf.
    eapply find_below; [exact Hc1|done| |by rewrite last_app_cons in Hl|done|lia].
    intros c Hc. apply Hlt. apply elem_of_app. by right.
  - apply list_elem_of_fmap in Hin as (y & -> & Hy). apply list_elem_of_split in Hy as (r1 & r2 & ->).
    apply chain_app in Hc2 as [_ Hc2]. apply StronglySorted_app in Hs2 as (_ & _ & Hs2). rewrite length_app in Hf.
    replace fuel with (length (y :: r2) + (fuel - length (y :: r2)))%nat by (simpl in *; lia).
    change y.1 with (next (y :: r2) base). rewrite find_above; [|done|done| |].
    + apply (find_below m bp (next (r1 ++ y :: r2) base) l _ b0 b); try done. simpl in *. lia.
    + intros c Hc. apply Hgt. apply elem_of_app. by right.
    + apply (Hlt b0). by left.
Qed.

(** ** Joining *)

(** The block [b] covers the block [c]; and nothing that is disjoint from [c] and from
    the blocks of [l]. *)
Definition covers (b c : block) (l : list block) : Prop :=
  b.1 <= c.1 /\ c.2 <= b.2 /\
  forall d, 1 <= d.2 -> disjoint c d -> (forall y, y ∈ l -> disjoint y d) -> disjoint b d.

Section join.
Context (base brk : Z) (Hbrk : 0 < base /\ brk < 2 ^ 32).

Lemma h_add_ok p n : 0 <= p -> 0 <= n -> p + HDR * n <= brk -> h_add p n = p + HDR * n.
Proof. intros H1 H2 H3. unfold h_add. apply u32_id. unfold is_u32, HDR in *. lia. Qed.

Lemma next_u32 r : (forall y, y ∈ r -> 0 <= y.1 /\ bend y <= brk) -> base <= brk -> is_u32 (next r base).
Proof.
  intros H Hb. unfold is_u32. destruct r as [|y r]; simpl; [lia|].
  destruct (H y ltac:(by left)). unfold bend, HDR in *. lia.
Qed.

(** A new header in front of a chain. *)
Lemma chain_cons m m' bp sz r :
  header_set m m' bp -> h_ptr m' bp = next r base -> h_size m' bp = sz -> chain m r base ->
  (forall y, y ∈ r -> bp + HDR <= y.1) -> chain m' ((bp, sz) :: r) base.
Proof.
  intros Hm Hp Hs Hc Hr. split_and!; [done..|]. eapply chain_frame; [exact Hc|].
  intros b x Hb Hx. apply Hm. specialize (Hr b Hb). lia.
Qed.

Lemma header_set_trans m1 m2 m3 p : header_set m1 m2 p -> header_set m2 m3 p -> header_set m1 m3 p.
Proof. apply same_outside_trans. Qed.

Lemma join_next_spec m p bp s r :
  chain m r base -> StronglySorted before r -> h_ptr m p = next r base -> h_size m bp = s ->
  1 <= s -> base + HDR <= bp -> bp + HDR * s <= brk ->
  (forall y, y ∈ r -> bp + HDR * s <= y.1 /\ 1 <= y.2 /\ bend y <= brk) -> p + HDR <= bp ->
  exists b r', chain (join_next m p bp) (b :: r') base /\ StronglySorted before (b :: r') /\
    b.1 = bp /\ bend b <= brk /\ (forall y, y ∈ r' -> y ∈ r) /\ (length r' <= length r)%nat /\
    covers b (bp, s) r /\ header_set m (join_next m p bp) bp.
Proof.
  intros Hc Hs Hp Hsz Hs1 Hbp He Hr Hpb.
  assert (Hu : is_u32 (next r base)).
  { apply next_u32; [|unfold HDR in *; lia]. intros y Hy. destruct (Hr y Hy) as (? & ? & ?). unfold HDR in *. lia. }
  unfold join_next. rewrite Hsz, Hp. rewrite h_add_ok by (unfold HDR in *; lia).
  destruct (Z.eqb_spec (bp + HDR * s) (next r base)) as [E|E].
  - destruct r as [|n r']; [simpl in E; unfold HDR in *; lia|]. simpl in E.
    destruct Hc as (C1 & C2 & C3). destruct (Hr n ltac:(by left)) as (G1 & G2 & G3).
    apply StronglySorted_inv in Hs as [Hs Hn]. cbn [next]. unfold bend in G3.
    assert (Hu' : is_u32 (next r' base)).
    { apply next_u32; [|unfold HDR in *; lia]. intros y Hy. destruct (Hr y ltac:(by right)) as (? & ? & ?). unfold HDR in *. lia. }
    rewrite C2, u32_id by (unfold is_u32, HDR in *; lia).
    set (m1 := set_size m bp (s + n.2)).
    destruct (set_size_same m bp (s + n.2)) as [S1 S2]; [unfold is_u32, HDR in *; lia|]. fold m1 in S1, S2.
    assert (Hm1 : header_set m m1 bp) by apply set_size_set.
    destruct (header_other m m1 bp p Hm1 ltac:(left; done)) as [S3 _]. rewrite S3, Hp. cbn [next].
    destruct (header_other m m1 bp n.1 Hm1 ltac:(right; unfold HDR in *; lia)) as [S4 _]. rewrite S4, C1.
    destruct (set_ptr_same m1 bp (next r' base) Hu') as [S5 S6].
    assert (Hm2 : header_set m (set_ptr m1 bp (next r' base)) bp) by (eapply header_set_trans; [done|apply set_ptr_set]).
    exists (bp, s + n.2), r'. rewrite Forall_forall in Hn. split_and!; try done.
    + eapply chain_cons; [exact Hm2|done|congruence|done|]. intros y Hy. destruct (Hr y ltac:(by right)). unfold HDR in *. lia.
    + constructor; [done|]. apply Forall_forall. intros y Hy. specialize (Hn y Hy).
      unfold before, bend, HDR in *. simpl. lia.
    + unfold bend, HDR in *. simpl. lia.
    + intros y Hy. by right.
    + simpl. lia.
    + split_and!; [done|simpl; lia|]. intros d Hd Hd1 Hd2. specialize (Hd2 n ltac:(by left)).
      unfold disjoint, bend, HDR in *. simpl in *. lia.
  - destruct (set_ptr_same m bp (next r base) Hu) as [S5 S6].
    exists (bp, s), r. split_and!; try done.
    + eapply chain_cons; [apply set_ptr_set|done|congruence|done|]. intros y Hy. destruct (Hr y Hy). unfold HDR in *. lia.
    + constructor; [done|]. apply Forall_forall. intros y Hy.
      assert (Hny : next r base <= y.1).
      { destruct r as [|n r']; [by apply elem_of_nil in Hy|]. apply StronglySorted_inv in Hs as [_ Hn].
        rewrite Forall_forall in Hn. apply elem_of_cons in Hy as [->|Hy]; [done|]. pose proof (before_lt _ _ (Hn y Hy)). simpl. lia. }
      destruct (Hr y Hy). destruct r as [|n r']; [by apply elem_of_nil in Hy|].
      destruct (Hr n ltac:(by left)). simpl in E, Hny. unfold before, bend, HDR in *. simpl. lia.
    + unfold bend, HDR in *. simpl. lia.
    + apply set_ptr_set.
Qed.

(** The list from [p] on after the block [b] has been inserted behind it. *)
Definition joined (p sp : Z) (b : block) (r : list block) : list block :=
  if decide (p + HDR * sp = b.1) then (p, sp + b.2) :: r else (p, sp) :: b :: r.

Lemma join_prev_spec m p sp b r :
  chain m (b :: r) base -> StronglySorted before (b :: r) -> h_size m p = sp -> 0 <= p -> 0 <= sp ->
  bend (p, sp) <= b.1 -> 1 <= b.2 -> bend b <= brk -> (forall y, y ∈ r -> bend y <= brk) -> base <= brk ->
  chain (join_prev m p b.1) (joined p sp b r) base /\ StronglySorted before (joined p sp b r) /\
  header_set m (join_prev m p b.1) p.
Proof.
  intros Hc Hs Hsz Hp Hsp Hpb Hb1 Hb Hr Hbb. pose proof Hc as (C1 & C2 & C3).
  pose proof Hs as [Hs' Hf]%StronglySorted_inv. rewrite Forall_forall in Hf.
  assert (Hfr : forall y, y ∈ r -> b.1 < y.1 /\ bend b <= y.1).
  { intros y Hy. pose proof (before_lt _ _ (Hf y Hy)). destruct (Hf y Hy). lia. }
  assert (Hu : is_u32 (next r base)).
  { apply next_u32; [|done]. intros y Hy. split; [|by apply Hr].
    destruct (Hfr y Hy). unfold bend, HDR in *. simpl in *. lia. }
  unfold join_prev, joined. rewrite Hsz. rewrite h_add_ok by (unfold bend, HDR in *; simpl in *; lia).
  case_decide as E.
  - rewrite (proj2 (Z.eqb_eq _ _) E), C2, u32_id by (unfold is_u32, bend, HDR in *; simpl in *; lia).
    set (m1 := set_size m p (sp + b.2)).
    destruct (set_size_same m p (sp + b.2)) as [S1 S2]; [unfold is_u32, bend, HDR in *; simpl in *; lia|]. fold m1 in S1, S2.
    assert (Hm1 : header_set m m1 p) by apply set_size_set.
    destruct (header_other m m1 p b.1 Hm1 ltac:(right; unfold bend, HDR in *; simpl in *; lia)) as [S4 _].
    rewrite S4, C1. destruct (set_ptr_same m1 p (next r base) Hu) as [S5 S6].
    assert (Hm2 : header_set m (set_ptr m1 p (next r base)) p) by (eapply header_set_trans; [done|apply set_ptr_set]).
    split_and!; [|constructor; [done|]|done].
    + eapply chain_cons; [exact Hm2|done|congruence|done|].
      intros y Hy. destruct (Hfr y Hy). unfold bend, HDR in *; simpl in *; lia.
    + apply Forall_forall. intros y Hy. specialize (Hf y Hy). unfold before, bend, HDR in *. simpl in *. lia.
  - destruct (Z.eqb_spec (p + HDR * sp) b.1) as [|_]; [done|].
    assert (Hub : is_u32 b.1) by (unfold is_u32, bend, HDR in *; simpl in *; lia).
    destruct (set_ptr_same m p b.1 Hub) as [S5 S6].
    split_and!; [|constructor; [done|]|apply set_ptr_set].
    + eapply chain_cons; [apply set_ptr_set|done|congruence|done|].
      intros y [->|Hy]%elem_of_cons; [unfold bend, HDR in *; simpl in *; lia|].
      destruct (Hfr y Hy). unfold bend, HDR in *; simpl in *; lia.
    + apply Forall_forall. intros y [->|Hy]%elem_of_cons; [unfold before, bend, HDR in *; simpl in *; lia|].
      destruct (Hfr y Hy). unfold before, bend, HDR in *. simpl in *. lia.
Qed.
End join.

(** A sorted list, cut at an address. *)
Lemma sorted_split bp l :
  StronglySorted before l -> (forall c, c ∈ l -> c.1 <> bp) ->
  exists l1 l2, l = l1 ++ l2 /\ (forall c, c ∈ l1 -> c.1 < bp) /\ (forall c, c ∈ l2 -> bp < c.1).
Proof.
  induction l as [|b l IH]; intros Hs Hne; [exists [], []; split_and!; [done|by intros c ?%elem_of_nil..]|].
  apply StronglySorted_inv in Hs as [Hs Hb]. rewrite Forall_forall in Hb.
  destruct (decide (b.1 < bp)) as [Hlt|Hge].
  - destruct IH as (l1 & l2 & -> & H1 & H2); [done|intros c Hc; apply Hne; by right|].
    exists (b :: l1), l2. split_and!; [done| |done]. by intros c [->|Hc]%elem_of_cons; [|apply H1].
  - exists [], (b :: l). split_and!; [done|by intros c ?%elem_of_nil|].
    pose proof (Hne b ltac:(by left)). intros c [->|Hc]%elem_of_cons; [lia|]. pose proof (before_lt _ _ (Hb c Hc)). lia.
Qed.

(** ** The invariant of the heap *)

Section heap.
Context (base brk : Z).

(** The heap [h] with the free blocks [fl] and the allocated blocks [al], all
    below [brk]. *)
Record heap_ok (h : heap) (fl al : list block) : Prop := {
  hp_head : exists l, fl = zero base :: l /\ forall b, b ∈ l -> 1 <= b.2;
  hp_sorted : StronglySorted before fl;
  hp_chain : chain (h_mem h) fl base;
  hp_freep : h_freep h ∈ fl.*1;
  hp_range : forall b, b ∈ fl ++ al -> base <= b.1 /\ bend b <= brk;
  hp_size : forall c, c ∈ al -> 1 <= c.2 /\ h_size (h_mem h) c.1 = c.2;
  hp_apart : forall b c, b ∈ fl -> c ∈ al -> disjoint b c;
  hp_alloc : StronglySorted disjoint al;
}.

(** The memory of the blocks [al] is the same. *)
Definition kept (al : list block) (m m' : memory) : Prop :=
  forall c x, c ∈ al -> c.1 <= x < bend c -> load8 m' x = load8 m x.

Lemma kept_size al m m' c : kept al m m' -> c ∈ al -> h_size m' c.1 = h_size m c.1.
Proof.
  intros H Hc. apply header_ext. intros x Hx. apply (H c); [done|]. unfold bend, HDR in *. lia.
Qed.

Lemma disjoint_ne b c : disjoint b c -> b.1 <> c.1.
Proof. unfold disjoint, bend, HDR. lia. Qed.

Lemma elem_of_joined p sp b r y :
  y ∈ joined p sp b r ->
  y ∈ r \/ y = b \/ y = (p, sp) \/ (y = (p, sp + b.2) /\ p + HDR * sp = b.1).
Proof. unfold joined. case_decide; rewrite !elem_of_cons; tauto. Qed.

(** The lists before and after a block is inserted behind [(p, sp)]; [b] is that
    block, or the one it makes with the block after it. *)
Section insert.
Context (l0 : list block) (p sp bp s : Z) (r : list block) (b : block) (r' al : list block).
Context (Hb0 : 0 < base) (Hz : base + HDR <= bp) (Hs1 : 1 <= s).
Context (Hsorted : StronglySorted before (l0 ++ (p, sp) :: r)) (Hj : StronglySorted before (joined p sp b r')).
Context (Hbp : bend (p, sp) <= bp) (Eb : b.1 = bp) (Hb : covers b (bp, s) r) (Hr' : forall y, y ∈ r' -> y ∈ r).

Lemma insert_sorted : StronglySorted before (l0 ++ joined p sp b r').
Proof.
  apply StronglySorted_app in Hsorted as (Hlr & Hs0 & _). apply StronglySorted_app. split_and!; [|done|done].
  intros x y Hx [Hy|[->|[->|[-> _]]]]%elem_of_joined.
  - apply Hlr; [done|]. right. by apply Hr'.
  - specialize (Hlr x (p, sp) Hx ltac:(by left)). unfold before, bend, HDR in *. simpl in *. lia.
  - apply Hlr; [done|by left].
  - specialize (Hlr x (p, sp) Hx ltac:(by left)). unfold before, bend, HDR in *. simpl in *. lia.
Qed.

Lemma insert_head :
  (exists l, l0 ++ (p, sp) :: r = zero base :: l /\ forall c, c ∈ l -> 1 <= c.2) -> 1 <= b.2 -> 0 <= sp ->
  exists l, l0 ++ joined p sp b r' = zero base :: l /\ forall c, c ∈ l -> 1 <= c.2.
Proof.
  intros (l & El & Hl) Hb1 Hsp. destruct l0 as [|z l1]; simpl in *.
  - injection El as -> -> <-. unfold joined. rewrite decide_False by (unfold HDR in *; lia).
    exists (b :: r'). split; [done|]. by intros c [->|Hc]%elem_of_cons; [|apply Hl, Hr'].
  - injection El as -> <-. eexists. split; [done|]. intros c [Hc|[Hc|[->|[->|[-> _]]]]%elem_of_joined]%elem_of_app.
    + apply Hl, elem_of_app. by left.
    + apply Hl, elem_of_app. right. right. by apply Hr'.
    + done.
    + apply Hl, elem_of_app. right. by left.
    + simpl. lia.
Qed.

Lemma insert_range :
  (forall c, c ∈ l0 ++ (p, sp) :: r -> base <= c.1 /\ bend c <= brk) -> bend b <= brk -> 0 <= sp -> 1 <= b.2 ->
  forall c, c ∈ l0 ++ joined p sp b r' -> base <= c.1 /\ bend c <= brk.
Proof.
  intros Hrg Hbb Hsp Hb1 c [Hc|[Hc|[->|[->|[-> E]]]]%elem_of_joined]%elem_of_app.
  - apply Hrg, elem_of_app. by left.
  - apply Hrg, elem_of_app. right. right. by apply Hr'.
  - unfold HDR in *. lia.
  - apply Hrg, elem_of_app. right. by left.
  - destruct (Hrg (p, sp)) as [H1 H2]; [apply elem_of_app; right; by left|]. unfold bend, HDR in *. simpl in *. lia.
Qed.

Lemma insert_apart c :
  (forall x, x ∈ l0 ++ (p, sp) :: r -> disjoint x c) -> disjoint (bp, s) c -> 1 <= c.2 -> 1 <= b.2 -> 0 <= sp ->
  forall x, x ∈ l0 ++ joined p sp b r' -> disjoint x c.
Proof.
  intros Hx Hc Hc1 Hb1 Hsp. assert (Hbc : disjoint b c).
  { apply Hb; [done|done|]. intros y Hy. apply Hx, elem_of_app. right. by right. }
  assert (Hpc : disjoint (p, sp) c) by (apply Hx, elem_of_app; right; by left).
  intros x [Hx0|[Hx0|[->|[->|[-> E]]]]%elem_of_joined]%elem_of_app; [| |done|done|].
  - apply Hx, elem_of_app. by left.
  - apply Hx, elem_of_app. right. right. by apply Hr'.
  - unfold disjoint, bend, HDR in *. simpl in *. lia.
Qed.
End insert.

Lemma free_spec fuel h fl bp s al :
  0 < base -> brk < 2 ^ 32 -> heap_ok h fl ((bp, s) :: al) -> (length fl <= fuel)%nat ->
  exists h' fl', free fuel (bp + HDR) h = Done h' /\ heap_ok h' fl' al /\ kept al (h_mem h) (h_mem h') /\
    (length fl' <= S (length fl))%nat /\ exists b, b ∈ fl' /\ s <= b.2.
Proof.
  intros Hb0 Hbrk [(l & -> & Hl) Hs Hc Hfp Hrg Hsz Hap Hal] Hfuel.
  assert (Hbp : (bp, s) ∈ (bp, s) :: al) by by left.
  destruct (Hsz _ Hbp) as [Hs1 Hs2]. simpl in Hs1, Hs2.
  destruct (Hrg (bp, s) ltac:(apply elem_of_app; by right)) as [Hr1 Hr2]. unfold bend in Hr2. simpl in Hr1, Hr2.
  pose proof (Hap (zero base) (bp, s) ltac:(by left) Hbp) as Hz. unfold disjoint, bend in Hz. simpl in Hz.
  assert (Hz' : base + HDR <= bp) by (unfold HDR in *; lia). clear Hz.
  destruct (sorted_split bp (zero base :: l) Hs) as (l1 & r & El & Hl1 & Hr).
  { intros b Hb E. by apply (disjoint_ne b (bp, s)); [apply Hap|]. }
  destruct l1 as [|z l1].
  { simpl in El. specialize (Hr (zero base) ltac:(rewrite <- El; by left)). simpl in Hr. unfold HDR in *. lia. }
  simpl in El. injection El as <- ->.
  destruct (last (zero base :: l1)) as [[p sp]|] eqn:Elast; [|by apply last_None in Elast].
  pose proof Elast as (l0 & E0)%last_Some.
  assert (Hfind : free_find fuel (h_mem h) bp (h_freep h) = Some p) by (by eapply (find_place _ bp base l1 (p, sp) r)).
  assert (Efl : zero base :: l1 ++ r = l0 ++ (p, sp) :: r).
  { change (zero base :: l1 ++ r) with ((zero base :: l1) ++ r). by rewrite E0, <- app_assoc. }
  rewrite Efl in *. set (fl := l0 ++ (p, sp) :: r) in *.
  assert (Hin : (p, sp) ∈ fl) by (apply elem_of_app; right; by left).
  assert (Hsp : 0 <= sp /\ base <= p /\ p < bp).
  { assert (Hp1 : (p, sp) ∈ zero base :: l1) by (rewrite E0; apply elem_of_app; right; by left).
    pose proof (Hl1 _ Hp1). destruct (Hrg (p, sp)) as [? _]; [apply elem_of_app; by left|]. simpl in *.
    apply elem_of_cons in Hp1 as [[= _ ->]|Hp1]; [lia|].
    specialize (Hl (p, sp) ltac:(apply elem_of_app; by left)). simpl in Hl. lia. }
  destruct Hsp as (Hsp & Hpb & Hplt).
  assert (Hpd : bend (p, sp) <= bp).
  { pose proof (Hap _ _ Hin Hbp) as Hd. unfold disjoint, bend, HDR in *. simpl in *. lia. }
  assert (Hyr : forall y, y ∈ r -> bp + HDR * s <= y.1 /\ 1 <= y.2 /\ bend y <= brk).
  { intros y Hy. assert (Hyf : y ∈ fl) by (apply elem_of_app; right; by right). split_and!.
    - pose proof (Hap _ _ Hyf Hbp) as Hd. specialize (Hr y Hy). unfold disjoint, bend, HDR in *. simpl in *. lia.
    - apply Hl, elem_of_app. by right.
    - apply Hrg, elem_of_app. by left. }
  pose proof Hc as [Hc0 (Cp & Csp & Cr)]%chain_app. simpl in Cp, Csp.
  pose proof Hs as (Hs0 & _ & [Hsr _]%StronglySorted_inv)%StronglySorted_app.
  unfold bend in Hpd. simpl in Hpd.
  destruct (join_next_spec base brk (conj Hb0 Hbrk) (h_mem h) p bp s r) as (b & r' & J1 & J2 & Eb & J4 & J5 & Jl & J6 & J7);
    try done; [unfold HDR in *; lia..|].
  set (m1 := join_next (h_mem h) p bp) in *. destruct J6 as (_ & Jb & J6). simpl in Jb.
  destruct (header_other _ _ bp p J7 ltac:(left; unfold HDR in *; lia)) as [_ Sp].
  destruct (join_prev_spec base brk (conj Hb0 Hbrk) m1 p sp b r') as (K1 & K2 & K3); try done; try lia;
    [unfold bend; simpl; lia|intros y Hy; by apply Hyr, J5|unfold HDR in *; lia|]. rewrite Eb in K1, K3.
  set (m2 := join_prev m1 p bp) in *.
  assert (Hk : kept al (h_mem h) m2).
  { intros c x Hc' Hx. apply StronglySorted_inv in Hal as [_ Hal]. rewrite Forall_forall in Hal.
    pose proof (Hal c Hc') as D1. pose proof (Hap (p, sp) c Hin ltac:(by right)) as D2.
    unfold disjoint, bend, HDR in *. simpl in *. rewrite K3, J7; [done|unfold HDR; lia..]. }
  exists (Mkheap m2 p), (l0 ++ joined p sp b r'). split_and!; [| |done| |].
  - unfold free. replace (u32 (bp + HDR - HDR)) with bp by (rewrite Z.add_simpl_r, u32_id; [done|unfold is_u32, HDR in *; lia]).
    by rewrite Hfind.
  - apply StronglySorted_inv in Hal as [Hal Hald]. rewrite Forall_forall in Hald.
    assert (Hcov : covers b (bp, s) r) by (split_and!; [simpl; lia|done|done]).
    assert (Hbp' : bend (p, sp) <= bp) by (unfold bend; simpl; lia).
    split; simpl.
    + eapply (insert_head l0 p sp bp r b r'); try done; [by exists (l1 ++ r); rewrite Efl|lia].
    + by eapply (insert_sorted l0 p sp bp r b r').
    + apply chain_app. split; [|done].
      assert (En : next (joined p sp b r') base = p) by (unfold joined; by case_decide). rewrite En.
      eapply chain_frame; [exact Hc0|]. intros y x Hy Hx. pose proof (Hs0 y (p, sp) Hy ltac:(by left)) as Hyp.
      unfold before, bend, HDR in *. simpl in *. rewrite K3, J7; [done|unfold HDR; lia..].
    + apply list_elem_of_fmap. unfold joined. case_decide; eexists; (split; [|apply elem_of_app; right; by left]); done.
    + intros c [Hc'|Hc']%elem_of_app; [|apply Hrg, elem_of_app; right; by right].
      eapply (insert_range l0 p sp bp r b r'); try done; try lia. intros d Hd. apply Hrg, elem_of_app. by left.
    + intros c Hc'. rewrite (kept_size al (h_mem h) m2 c Hk Hc'). apply Hsz. by right.
    + intros x c Hx Hc'. eapply (insert_apart l0 p sp bp s r b r'); try done; try lia; [|by apply Hald|apply Hsz; by right].
      intros y Hy. apply Hap; [done|by right].
    + done.
  - unfold fl. rewrite !length_app. simpl. unfold joined. case_decide; simpl; lia.
  - unfold joined. case_decide; [exists (p, sp + b.2)|exists b]; (split; [|simpl; lia]);
      apply elem_of_app; right; [by left|right; by left].
Qed.
End heap.

(** ** Taking a block *)

Section take.
Context (base brk : Z) (Hb0 : 0 < base) (Hbrk : brk < 2 ^ 32).

Lemma head_replace {A} (l1 : list A) x r r' z l :
  l1 ++ x :: r = z :: l ->
  exists l', l1 ++ x :: r' = z :: l' /\ forall y, y ∈ l' -> y ∈ l \/ ((forall w, w ∈ r -> w ∈ l) /\ y ∈ r').
Proof.
  destruct l1 as [|w l1]; simpl; intros [= <- <-]; eexists; (split; [done|]); intros y Hy; [by right|].
  revert Hy. rewrite !elem_of_app, !elem_of_cons. intros [Hy|[Hy|Hy]]; [tauto..|]. right. split; [|done].
  intros v Hv. rewrite elem_of_app, elem_of_cons. tauto.
Qed.

(** Two neighbours [x] and [b] in the list of free blocks. *)
Section neighbours.
Context (h : heap) (l1 : list block) (x b : block) (l2 al : list block).
Context (Hok : heap_ok base brk h (l1 ++ x :: b :: l2) al).

Abbreviation fl := (l1 ++ x :: b :: l2).

Lemma nb_in : x ∈ fl /\ b ∈ fl.
Proof. rewrite !elem_of_app, !elem_of_cons. tauto. Qed.

Lemma nb_chain :
  chain (h_mem h) l1 x.1 /\ h_ptr (h_mem h) x.1 = b.1 /\ h_size (h_mem h) x.1 = x.2 /\
  h_ptr (h_mem h) b.1 = next l2 base /\ h_size (h_mem h) b.1 = b.2 /\ chain (h_mem h) l2 base.
Proof. pose proof (hp_chain _ _ _ _ _ Hok) as [H1 (H2 & H3 & H4 & H5 & H6)]%chain_app. done. Qed.

Lemma nb_sorted :
  (forall y z, y ∈ l1 -> z ∈ x :: b :: l2 -> before y z) /\ StronglySorted before l1 /\
  (forall y, y ∈ b :: l2 -> before x y) /\ (forall y, y ∈ l2 -> before b y) /\ StronglySorted before l2.
Proof.
  pose proof (hp_sorted _ _ _ _ _ Hok) as (H1 & H2 & [H3 H4]%StronglySorted_inv)%StronglySorted_app.
  pose proof H3 as [H5 H6]%StronglySorted_inv. rewrite Forall_forall in H4, H6. done.
Qed.

Lemma nb_range y : y ∈ fl -> base <= y.1 /\ bend y <= brk.
Proof. intros Hy. apply (hp_range _ _ _ _ _ Hok), elem_of_app. by left. Qed.

Lemma nb_next : is_u32 (next l2 base).
Proof.
  destruct (nb_range b (proj2 nb_in)). apply (next_u32 base brk); [lia| |unfold bend, HDR in *; lia].
  intros y Hy. destruct (nb_range y); [|lia]. apply elem_of_app. right. right. by right.
Qed.

(** All of a block is taken. *)
Lemma take_all :
  1 <= b.2 -> exists m', take_block (h_mem h) x.1 b.1 b.2 = (b.1, m') /\
    heap_ok base brk (Mkheap m' x.1) (l1 ++ x :: l2) (b :: al) /\ kept al (h_mem h) m'.
Proof.
  intros Hn. pose proof Hok as [(l & El & Hl) _ _ _ Hrg Hsz Hap Hal].
  destruct nb_in as [Hx Hb], nb_chain as (Hc1 & Cx & Csx & Cb & Csb & C2), nb_sorted as (Hs12 & Hs1 & Hx2 & Hb2 & Hs3).
  pose proof (Hx2 b ltac:(by left)) as Hxb.
  unfold take_block. rewrite Csb, Z.eqb_refl, Cb.
  set (m' := set_ptr (h_mem h) x.1 (next l2 base)).
  destruct (set_ptr_same (h_mem h) x.1 _ nb_next) as [S1 S2]. fold m' in S1, S2.
  assert (Hm : header_set (h_mem h) m' x.1) by apply set_ptr_set.
  assert (Hk : kept al (h_mem h) m').
  { intros c y Hc' Hy. apply Hm. pose proof (Hap x c Hx Hc'). unfold disjoint, bend, HDR in *. lia. }
  exists m'. split_and!; [done| |done].
  assert (Hfl' : forall y, y ∈ l1 ++ x :: l2 -> y ∈ fl).
  { intros y. rewrite !elem_of_app, !elem_of_cons. tauto. }
  split; simpl.
  - destruct (head_replace l1 x (b :: l2) l2 (zero base) l El) as (l' & -> & Hl'). exists l'. split; [done|].
    intros y Hy. apply Hl. destruct (Hl' y Hy) as [|[H Hy']]; [done|]. apply H. by right.
  - apply StronglySorted_app. split_and!; [|done|constructor; [done|]].
    + intros y z Hy Hz. apply Hs12; [done|]. revert Hz. rewrite !elem_of_cons. tauto.
    + apply Forall_forall. intros y Hy. apply Hx2. by right.
  - apply chain_app. split.
    + eapply chain_frame; [exact Hc1|]. intros y z Hy Hz. apply Hm.
      pose proof (Hs12 y x Hy ltac:(by left)) as Hyx. unfold before, bend, HDR in *. lia.
    + destruct x as [x1 x2]. simpl in *. apply (chain_cons base (h_mem h) m' x1 x2); [done|congruence|congruence|done|].
      intros y Hy. pose proof (Hx2 y ltac:(by right)) as Hxy. unfold before, bend, HDR in *. simpl in *. lia.
  - apply list_elem_of_fmap. exists x. split; [done|]. apply elem_of_app. right. by left.
  - intros c. rewrite elem_of_app, elem_of_cons. intros [Hc'|[->|Hc']].
    + by apply Hrg, elem_of_app; left; apply Hfl'.
    + apply Hrg, elem_of_app. by left.
    + apply Hrg, elem_of_app. by right.
  - intros c [->|Hc']%elem_of_cons; [simpl; split; [lia|]|].
    + destruct (header_other _ _ x.1 b.1 Hm) as [_ ->]; [unfold before, bend, HDR in *; lia|done].
    + rewrite (kept_size al (h_mem h) m' c Hk Hc'). by apply Hsz.
  - intros y c Hy [->|Hc']%elem_of_cons; [|by apply Hap; [apply Hfl'|]].
    revert Hy. rewrite elem_of_app, elem_of_cons. intros [Hy|[->|Hy]].
    + left. by apply Hs12; [|right; left].
    + left. apply Hxb.
    + right. by apply Hb2.
  - constructor; [done|]. apply Forall_forall. intros c Hc'. by apply Hap.
Qed.

(** The end of a block is taken. *)
Lemma take_end nunits :
  1 <= nunits < b.2 -> exists q m', take_block (h_mem h) x.1 b.1 nunits = (q, m') /\
    heap_ok base brk (Mkheap m' x.1) (l1 ++ x :: (b.1, b.2 - nunits) :: l2) ((q, nunits) :: al) /\
    kept al (h_mem h) m'.
Proof.
  intros Hn. pose proof Hok as [(l & El & Hl) _ _ _ Hrg Hsz Hap Hal].
  destruct nb_in as [Hx Hb], nb_chain as (Hc1 & Cx & Csx & Cb & Csb & C2), nb_sorted as (Hs12 & Hs1 & Hx2 & Hb2 & Hs3).
  pose proof (Hx2 b ltac:(by left)) as Hxb. destruct (nb_range b Hb) as [Rb1 Rb2]. unfold bend in Rb2.
  unfold take_block. rewrite Csb. destruct (Z.eqb_spec b.2 nunits); [lia|].
  set (m1 := set_size (h_mem h) b.1 (b.2 - nunits)).
  destruct (set_size_same (h_mem h) b.1 (b.2 - nunits)) as [S1 S2]; [unfold is_u32, HDR in *; lia|]. fold m1 in S1, S2.
  rewrite S1, (h_add_ok base brk (conj Hb0 Hbrk)) by (unfold HDR in *; lia).
  set (q := b.1 + HDR * (b.2 - nunits)). set (m' := set_size m1 q nunits).
  destruct (set_size_same m1 q nunits) as [S3 S4]; [unfold is_u32, HDR in *; lia|]. fold m' in S3, S4.
  assert (Hm1 : header_set (h_mem h) m1 b.1) by apply set_size_set.
  assert (Hm2 : header_set m1 m' q) by apply set_size_set.
  assert (Hq : b.1 + HDR <= q) by (unfold q, HDR; lia).
  assert (Hm : forall y, ~ (b.1 <= y < bend b) -> load8 m' y = load8 (h_mem h) y).
  { intros y Hy. unfold bend, HDR in *. rewrite Hm2, Hm1; [done|unfold HDR; lia..]. }
  assert (Hk : kept al (h_mem h) m').
  { intros c y Hc' Hy. apply Hm. pose proof (Hap b c Hb Hc'). unfold disjoint in *. lia. }
  destruct (header_other m1 m' q b.1 Hm2 ltac:(by left)) as [S5 S6].
  assert (Hx' : h_ptr m' x.1 = h_ptr (h_mem h) x.1 /\ h_size m' x.1 = h_size (h_mem h) x.1).
  { apply header_ext. intros z Hz. apply Hm. unfold before, bend, HDR in *. lia. }
  set (b' := (b.1, b.2 - nunits)).
  assert (Hd : forall c, disjoint b c -> disjoint b' c /\ disjoint (q, nunits) c).
  { intros c. unfold b', q, disjoint, bend, HDR in *. simpl. lia. }
  exists q, m'. split_and!; [done| |done]. split; simpl.
  - destruct (head_replace l1 x (b :: l2) (b' :: l2) (zero base) l El) as (l' & -> & Hl'). exists l'. split; [done|].
    intros y Hy. destruct (Hl' y Hy) as [|[H [->|Hy']%elem_of_cons]]; [by apply Hl|simpl; lia|]. apply Hl, H. by right.
  - apply StronglySorted_app. split_and!; [|done|constructor; [constructor; [done|]|]].
    + intros y z Hy. pose proof (Hs12 y b Hy ltac:(right; by left)) as Hyb.
      rewrite !elem_of_cons. intros [->|[->|Hz]]; [apply Hs12; [done|by left]|done|apply Hs12; [done|right; by right]].
    + apply Forall_forall. intros y Hy. specialize (Hb2 y Hy). unfold b', before, bend, HDR in *. simpl. lia.
    + apply Forall_forall. intros y [->|Hy]%elem_of_cons; [done|]. apply Hx2. by right.
  - apply chain_app. split; [|split_and!].
    + eapply chain_frame; [exact Hc1|]. intros y z Hy Hz. apply Hm.
      pose proof (Hs12 y b Hy ltac:(right; by left)) as Hyb. unfold before, bend, HDR in *. lia.
    + rewrite (proj1 Hx'). exact Cx.
    + rewrite (proj2 Hx'). exact Csx.
    + split_and!; [exact (eq_trans S5 (eq_trans S2 Cb))|exact (eq_trans S6 S1)|].
      eapply chain_frame; [exact C2|]. intros y z Hy Hz. apply Hm. specialize (Hb2 y Hy). unfold before in Hb2. lia.
  - apply list_elem_of_fmap. exists x. split; [done|]. apply elem_of_app. right. by left.
  - intros c. rewrite elem_of_app, elem_of_app, !elem_of_cons.
    intros [[Hc'|[->|[->|Hc']]]|[->|Hc']]; try (apply Hrg; rewrite !elem_of_app, !elem_of_cons; tauto);
      unfold b', q, bend, HDR in *; simpl; lia.
  - intros c [->|Hc']%elem_of_cons; [split; [simpl; lia|exact S3]|].
    rewrite (kept_size al (h_mem h) m' c Hk Hc'). by apply Hsz.
  - assert (Hdq : forall y, y ∈ l1 ++ x :: b' :: l2 -> disjoint y (q, nunits)).
    { intros y. rewrite elem_of_app, !elem_of_cons. intros [Hy|[->|[->|Hy]]].
      - pose proof (Hs12 y b Hy ltac:(right; by left)) as Hyb. unfold q, before, disjoint, bend, HDR in *. simpl. lia.
      - unfold q, before, disjoint, bend, HDR in *. simpl. lia.
      - unfold b', q, disjoint, bend, HDR. simpl. lia.
      - specialize (Hb2 y Hy). unfold q, before, disjoint, bend, HDR in *. simpl. lia. }
    intros y c Hy [->|Hc']%elem_of_cons; [by apply Hdq|]. revert Hy. rewrite elem_of_app, !elem_of_cons.
    intros [Hy|[->|[->|Hy]]]; try (apply Hap; [|done]; rewrite elem_of_app, !elem_of_cons; tauto).
    apply Hd. by apply Hap.
  - constructor; [done|]. apply Forall_forall. intros c Hc'. apply Hd. by apply Hap.
Qed.
End neighbours.

Lemma take_spec h l1 x b l2 al nunits :
  heap_ok base brk h (l1 ++ x :: b :: l2) al -> 1 <= nunits <= b.2 ->
  exists q m' fl', take_block (h_mem h) x.1 b.1 nunits = (q, m') /\
    heap_ok base brk (Mkheap m' x.1) fl' ((q, nunits) :: al) /\ kept al (h_mem h) m'.
Proof.
  intros Hok Hn. destruct (decide (nunits = b.2)) as [->|Hne].
  - destruct (take_all h l1 x b l2 al Hok) as (m' & H1 & H2 & H3); [lia|].
    exists b.1, m', (l1 ++ x :: l2). destruct b. done.
  - destruct (take_end h l1 x b l2 al Hok nunits) as (q & m' & H1 & H2 & H3); [lia|]. by exists q, m', (l1 ++ x :: (b.1, b.2 - nunits) :: l2).
Qed.

(** ** The search of [malloc] *)

Lemma scan_small h seg prevp q k nunits :
  chain (h_mem h) seg q -> (forall y, y ∈ seg -> y.2 < nunits /\ y.1 <> h_freep h) ->
  malloc_loop (length seg + k) prevp (next seg q) nunits h =
  malloc_loop k (default prevp (last seg.*1)) q nunits h.
Proof.
  revert prevp; induction seg as [|y seg IH]; intros prevp Hc Hy; [done|]. destruct Hc as (C1 & C2 & C3).
  destruct (Hy y ltac:(by left)) as [H1 H2]. cbn [length Nat.add next malloc_loop].
  destruct (Z.leb_spec nunits (h_size (h_mem h) y.1)); [lia|]. destruct (Z.eqb_spec y.1 (h_freep h)); [done|].
  rewrite C1, IH; [|done|intros z Hz; apply Hy; by right]. f_equal.
  rewrite fmap_cons, last_cons. by destruct (last seg.*1).
Qed.

Lemma first_fit (l : list block) nunits :
  (forall y, y ∈ l -> y.2 < nunits) \/
  exists l1 y l2, l = l1 ++ y :: l2 /\ nunits <= y.2 /\ forall z, z ∈ l1 -> z.2 < nunits.
Proof.
  induction l as [|y l IH]; [left; by intros y ?%elem_of_nil|].
  destruct (decide (nunits <= y.2)) as [Hy|Hy].
  { right. exists [], y, l. split_and!; [done|done|by intros z ?%elem_of_nil]. }
  destruct IH as [IH|(l1 & z & l2 & -> & Hz & H1)].
  - left. intros z [->|Hz]%elem_of_cons; [lia|by apply IH].
  - right. exists (y :: l1), z, l2. split_and!; [done|done|]. intros w [->|Hw]%elem_of_cons; [lia|by apply H1].
Qed.

(** The free blocks in the order in which [malloc] looks at them. *)
Section ring.
Context (h : heap) (a : list block) (f : block) (b al : list block) (nunits : Z).
Context (Hok : heap_ok base brk h (a ++ f :: b) al) (Hf : f.1 = h_freep h) (Hn : 1 <= nunits).

Lemma ring_head : exists l, a ++ [f] = zero base :: l.
Proof.
  destruct (hp_head _ _ _ _ _ Hok) as (l & El & _). destruct (head_replace a f b [] (zero base) l El) as (l' & E & _).
  by exists l'.
Qed.

Lemma ring_chain : h_ptr (h_mem h) f.1 = next (b ++ a ++ [f]) base /\ chain (h_mem h) (b ++ a ++ [f]) (next b base).
Proof.
  pose proof (hp_chain _ _ _ _ _ Hok) as [H1 (H2 & H3 & H4)]%chain_app. destruct ring_head as [l El]. split.
  - rewrite H2. destruct b; [|done]. by rewrite El.
  - apply chain_app. rewrite El at 1. split; [done|]. apply chain_app. split; [done|]. done.
Qed.

Lemma ring_other y : y ∈ b ++ a -> y.1 <> h_freep h.
Proof.
  pose proof (hp_sorted _ _ _ _ _ Hok) as (H1 & _ & [_ H2]%StronglySorted_inv)%StronglySorted_app.
  rewrite Forall_forall in H2. rewrite <- Hf. intros [Hy|Hy]%elem_of_app.
  - pose proof (before_lt _ _ (H2 y Hy)). lia.
  - pose proof (before_lt _ _ (H1 y f Hy ltac:(by left))). lia.
Qed.

(** The block before the first that fits. *)
Lemma ring_prev l1 y l2 :
  b ++ a ++ [f] = l1 ++ y :: l2 -> nunits <= y.2 ->
  (forall z, z ∈ l1 -> z ∈ b ++ a) /\
  exists m1 x m2, a ++ f :: b = m1 ++ x :: y :: m2 /\ x.1 = default f.1 (last l1.*1).
Proof.
  intros E Hy. pose proof ring_head as [l' El]. clear Hok Hf. destruct (List.app_eq_app _ _ _ _ E) as [l [[E1 E2]|[E1 E2]]].
  - destruct l as [|w l]; simplify_eq/=.
    + rewrite app_nil_r in *. rewrite El in E2. simplify_eq/=. lia.
    + split; [intros z Hz; rewrite <- app_assoc; apply elem_of_app; by left|].
      destruct l1 as [|x l0 _] using rev_ind.
      * by exists a, f, l.
      * exists (a ++ f :: l0), x, l. split; [by rewrite <- !app_assoc|].
        by rewrite fmap_app, last_app.
  - subst l1. destruct l as [|x l0 _] using rev_ind.
    { simplify_eq/=. rewrite El in E2. simplify_eq/=. lia. }
    split.
    + intros z [Hz|Hz]%elem_of_app; apply elem_of_app; [by left|right].
      destruct l2 as [|f' l3 _] using rev_ind.
      * assert (a = l0 ++ [x]) as -> by (by apply app_inj_tail in E2 as []). done.
      * rewrite app_comm_cons, app_assoc in E2. apply app_inj_tail in E2 as [-> _]. apply elem_of_app; by left.
    + exists l0, x, (l2 ++ b). split.
      * change (f :: b) with ([f] ++ b). rewrite app_assoc, E2, <- !app_assoc. done.
      * rewrite fmap_app, last_app. cbn. rewrite fmap_app, last_app. done.
Qed.

Lemma ring_fit fuel :
  (exists y, y ∈ a ++ f :: b /\ nunits <= y.2) -> (length (a ++ f :: b) <= fuel)%nat ->
  exists q h' fl', malloc_loop fuel (h_freep h) (h_ptr (h_mem h) (h_freep h)) nunits h = Done (u32 (q + HDR), h') /\
    heap_ok base brk h' fl' ((q, nunits) :: al) /\ kept al (h_mem h) (h_mem h').
Proof.
  intros (w & Hw & Hwn) Hfuel. destruct (first_fit (b ++ a ++ [f]) nunits) as [Hno|(l1 & y & l2 & E & Hy & Hl1)].
  { assert (w ∈ b ++ a ++ [f]) as Hw'%Hno by (set_solver). lia. }
  destruct (ring_prev l1 y l2 E Hy) as (Hin & m1 & x & m2 & Efl & Hx). destruct ring_chain as [Hp Hc].
  rewrite <- Hf, Hp. rewrite E in Hc |- *. apply chain_app in Hc as [Hc1 Hc2].
  assert (exists k, fuel = (length l1 + S k)%nat) as [k ->].
  { exists (fuel - length l1 - 1)%nat. apply (f_equal length) in E. rewrite !length_app in *. cbn in *. lia. }
  replace (next (l1 ++ y :: l2) base) with (next l1 y.1) by (by destruct l1). rewrite scan_small; [|done|].
  2: { intros z Hz. split; [by apply Hl1|]. by apply ring_other, Hin. }
  pose proof Hok as Hok'. rewrite Efl in Hok'.
  destruct (take_spec h m1 x y m2 al nunits Hok' ltac:(lia)) as (q & m' & fl' & Et & H1 & H2).
  exists q, (Mkheap m' x.1), fl'. split; [|done]. destruct Hc2 as (_ & Hsz & _).
  cbn [malloc_loop]. destruct (Z.leb_spec nunits (h_size (h_mem h) y.1)); [|lia].
  rewrite <- Hx, Et. unfold h_add. by rewrite Z.mul_1_r.
Qed.

(** No block fits: the search comes back to [freep] and asks for memory. *)
Lemma ring_none k :
  (forall y, y ∈ a ++ f :: b -> y.2 < nunits) ->
  malloc_loop (length (a ++ f :: b) + k) (h_freep h) (h_ptr (h_mem h) (h_freep h)) nunits h =
  ('(p, h') ← morecore k nunits h;
   if p =? 0 then mret (0, h') else malloc_loop k p (h_ptr (h_mem h') p) nunits h').
Proof.
  intros Hno. destruct ring_chain as [Hp Hc]. rewrite <- Hf, Hp. rewrite app_assoc in Hc |- *.
  apply chain_app in Hc as [Hc1 Hc2].
  replace (next ((b ++ a) ++ [f]) base) with (next (b ++ a) f.1) by (by destruct (b ++ a)).
  replace (length (a ++ f :: b) + k)%nat with (length (b ++ a) + S k)%nat by (rewrite !length_app; cbn; lia).
  rewrite scan_small; [|done|].
  2: { intros z Hz. split; [|by apply ring_other]. apply Hno. set_solver. }
  destruct Hc2 as (_ & Hsz & _). cbn [malloc_loop].
  destruct (Z.leb_spec nunits (h_size (h_mem h) f.1)).
  { specialize (Hno f ltac:(set_solver)). lia. }
  by rewrite Hf, Z.eqb_refl.
Qed.
End ring.
End take.

(** ** Fuel *)

Lemma free_find_mono fuel fuel' m bp p r :
  free_find fuel m bp p = Some r -> (fuel <= fuel')%nat -> free_find fuel' m bp p = Some r.
Proof.
  revert fuel' p; induction fuel as [|fuel IH]; intros fuel' p H Hf.
  - destruct fuel'; [done|]. cbn [free_find] in *. by repeat case_match.
  - destruct fuel' as [|fuel']; [lia|]. cbn [free_find] in *. repeat case_match; [done..|]. apply IH; [done|lia].
Qed.

Lemma free_mono fuel fuel' ap h h' : free fuel ap h = Done h' -> (fuel <= fuel')%nat -> free fuel' ap h = Done h'.
Proof.
  unfold free. intros H Hf. destruct (free_find fuel _ _ _) eqn:E; [|done]. by rewrite (free_find_mono _ _ _ _ _ _ E Hf).
Qed.

Lemma morecore_mono {B} grant fuel fuel' nu h brk (f f' : Z * heap -> prog B) r :
  run_sbrk grant (morecore fuel nu h ≫= f) brk = Some r -> (fuel <= fuel')%nat ->
  (forall x b, run_sbrk grant (f x) b = Some r -> run_sbrk grant (f' x) b = Some r) ->
  run_sbrk grant (morecore fuel' nu h ≫= f') brk = Some r.
Proof.
  intros H Hf Hff. unfold morecore in *. revert H. set (n := if nu <? 4096 then 4096 else nu).
  cbn [mbind prog_mbind prog_bind sys run_sbrk r_val]. destruct (grant _); [|apply Hff].
  destruct (_ =? _); [apply Hff|]. destruct (free fuel _ _) as [h'| | | |c k] eqn:E; try done.
  - rewrite (free_mono _ _ _ _ _ E Hf). cbn. apply Hff.
  - unfold free in E. by case_match.
Qed.

Lemma malloc_loop_mono grant fuel fuel' prevp p nunits h brk r :
  run_sbrk grant (malloc_loop fuel prevp p nunits h) brk = Some r -> (fuel <= fuel')%nat ->
  run_sbrk grant (malloc_loop fuel' prevp p nunits h) brk = Some r.
Proof.
  revert fuel' prevp p h brk; induction fuel as [|fuel IH]; intros fuel' prevp p h brk H Hf.
  - destruct fuel'; [done|]. cbn [malloc_loop] in *. by case_match.
  - destruct fuel' as [|fuel']; [lia|]. cbn [malloc_loop] in *. case_match; [done|]. case_match.
    + eapply morecore_mono; [exact H|lia|]. intros [q h'] b. cbn. case_match; [done|]. intros H'. apply IH; [done|lia].
    + apply IH; [done|lia].
Qed.

(** ** Calls of [malloc] and [free] *)

Section calls.
Context (base : Z) (Hb0 : 0 < base).

(** The invariant looks at headers only. *)
Lemma heap_ok_frame brk h fl al m' :
  heap_ok base brk h fl al ->
  (forall b x, b ∈ fl ++ al -> b.1 <= x < b.1 + HDR -> load8 m' x = load8 (h_mem h) x) ->
  heap_ok base brk (Mkheap m' (h_freep h)) fl al.
Proof.
  intros [H1 H2 H3 H4 H5 H6 H7 H8] Hf. split; try done; cbn [h_mem].
  - eapply chain_frame; [exact H3|]. intros b x Hb. apply Hf, elem_of_app. by left.
  - intros c Hc. destruct (H6 c Hc) as [Hc1 Hc2]. split; [done|].
    destruct (header_ext (h_mem h) m' c.1) as [_ ->]; [|done]. intros x Hx. apply (Hf c); [|done].
    apply elem_of_app. by right.
Qed.

Lemma disjoint_perm al al' : al ≡ₚ al' -> StronglySorted disjoint al -> StronglySorted disjoint al'.
Proof.
  induction 1 as [|x l l' Hp IH|x y l|l l' l'' _ IH1 _ IH2]; [done| |..].
  - intros [H1 H2]%StronglySorted_inv. constructor; [by apply IH|]. by rewrite <- Hp.
  - intros [[H1 H2]%StronglySorted_inv H3]%StronglySorted_inv. apply Forall_cons in H3 as [H3 H4].
    constructor; [by constructor|]. constructor; [|done]. unfold disjoint in *. lia.
  - auto.
Qed.

Lemma disjoint_lookup al i j b c :
  StronglySorted disjoint al -> al !! i = Some b -> al !! j = Some c -> i = j \/ disjoint b c.
Proof.
  intros Hs. revert i j. induction Hs as [|d al Hs IH Hd]; intros i j Hi Hj; [done|].
  rewrite Forall_forall in Hd. destruct i as [|i], j as [|j]; simplify_eq/=.
  - by left.
  - right. by apply Hd, (list_elem_of_lookup_2 _ j).
  - right. assert (disjoint c b) as Hcb by (by apply Hd, (list_elem_of_lookup_2 _ i)). unfold disjoint in *. lia.
  - destruct (IH i j Hi Hj) as [->|]; [by left|by right].
Qed.

Lemma heap_ok_perm brk h fl al al' : al ≡ₚ al' -> heap_ok base brk h fl al -> heap_ok base brk h fl al'.
Proof.
  intros Hp [H1 H2 H3 H4 H5 H6 H7 H8]. split; try done.
  - intros b Hb. apply H5. by rewrite Hp.
  - intros c Hc. apply H6. by rewrite Hp.
  - intros b c Hb Hc. apply H7; [done|]. by rewrite Hp.
  - by eapply disjoint_perm.
Qed.

(** New memory at the break is a block. *)
Lemma heap_ok_grow brk h fl al nu :
  heap_ok base brk h fl al -> 0 < brk -> 1 <= nu -> brk + HDR * nu < 2 ^ 32 ->
  heap_ok base (brk + HDR * nu) (Mkheap (set_size (h_mem h) brk nu) (h_freep h)) fl ((brk, nu) :: al) /\
  kept al (h_mem h) (set_size (h_mem h) brk nu).
Proof.
  intros Hok Hbrk Hnu Hmax. pose proof (hp_range _ _ _ _ _ Hok) as Hrg.
  assert (Hout : forall b x, b ∈ fl ++ al -> x < bend b -> load8 (set_size (h_mem h) brk nu) x = load8 (h_mem h) x).
  { intros b x Hb Hx. apply set_size_set. destruct (Hrg b Hb). lia. }
  split; [|intros c x Hc Hx; apply (Hout c); [apply elem_of_app; by right|lia]].
  apply (heap_ok_frame _ _ _ _ (set_size (h_mem h) brk nu)) in Hok.
  2: { intros b x Hb Hx. apply (Hout b); [done|]. unfold bend, HDR in *. lia. }
  destruct Hok as [H1 H2 H3 H4 H5 H6 H7 H8]. split; try done; cbn [h_mem] in *.
  - assert (base <= brk).
    { destruct H1 as (l & -> & _). destruct (H5 (zero base)) as [_ E]; [by left|]. unfold zero, bend, HDR in E. simpl in E. lia. }
    intros b [Hb|[->|Hb]%elem_of_cons]%elem_of_app; [|unfold bend, HDR; cbn; lia|];
      (destruct (H5 b) as [? ?]; [apply elem_of_app; tauto|]); unfold HDR; lia.
  - intros c [->|Hc]%elem_of_cons; [|by apply H6]. split; [done|]. apply set_size_same. cbn. unfold is_u32, HDR in *. lia.
  - intros b c Hb [->|Hc]%elem_of_cons; [|by apply H7]. left. apply H5, elem_of_app. by left.
  - constructor; [done|]. apply Forall_forall. intros c Hc. right. apply H5, elem_of_app. by right.
Qed.

Context (grant : Z -> bool) (Hgrant : forall b, grant b = true -> b < KERNBASE).

Lemma run_sbrk_done {A B} (f : A -> prog B) (p : prog A) a brk :
  p = Done a -> run_sbrk grant (p ≫= f) brk = run_sbrk grant (f a) brk.
Proof. by intros ->. Qed.

Lemma heap_ok_freep brk h fl al : heap_ok base brk h fl al -> exists a f b, fl = a ++ f :: b /\ f.1 = h_freep h.
Proof.
  intros Hok. pose proof (hp_freep _ _ _ _ _ Hok) as Hin. apply list_elem_of_fmap in Hin as (f & Hf & Hin).
  apply list_elem_of_split in Hin as (a & b & ->). by exists a, f, b.
Qed.

Lemma heap_ok_freep_pos brk h fl al : heap_ok base brk h fl al -> 0 < h_freep h.
Proof.
  intros Hok. destruct (heap_ok_freep _ _ _ _ Hok) as (a & f & b & -> & <-).
  destruct (hp_range _ _ _ _ _ Hok f) as [? _]; [|lia]. rewrite elem_of_app, elem_of_app, elem_of_cons. tauto.
Qed.

(** A search where some block fits. *)
Lemma loop_fit brk h fl al nunits fuel :
  heap_ok base brk h fl al -> brk < 2 ^ 32 -> 1 <= nunits -> (exists y, y ∈ fl /\ nunits <= y.2) ->
  (length fl <= fuel)%nat ->
  exists q h' fl', malloc_loop fuel (h_freep h) (h_ptr (h_mem h) (h_freep h)) nunits h = Done (u32 (q + HDR), h') /\
    heap_ok base brk h' fl' ((q, nunits) :: al) /\ kept al (h_mem h) (h_mem h').
Proof.
  intros Hok Hbrk Hn Hy Hfuel. destruct (heap_ok_freep _ _ _ _ Hok) as (a & f & b & -> & Hf).
  by apply (ring_fit base brk Hb0 Hbrk h a f b al nunits Hok Hf Hn).
Qed.

Lemma morecore_spec brk h fl al nunits fuel :
  heap_ok base brk h fl al -> 0 < brk < KERNBASE -> 1 <= nunits < 2 ^ 28 -> (length fl <= fuel)%nat ->
  (forall B (f : Z * heap -> prog B),
     run_sbrk grant (morecore fuel nunits h ≫= f) brk = run_sbrk grant (f (0, h)) brk) \/
  exists h' fl' brk', brk <= brk' < KERNBASE /\
    (forall B (f : Z * heap -> prog B),
       run_sbrk grant (morecore fuel nunits h ≫= f) brk = run_sbrk grant (f (h_freep h', h')) brk') /\
    heap_ok base brk' h' fl' al /\ kept al (h_mem h) (h_mem h') /\ (length fl' <= S (length fl))%nat /\
    exists y, y ∈ fl' /\ nunits <= y.2.
Proof.
  intros Hok Hbrk Hn Hfuel. set (nu := if nunits <? 4096 then 4096 else nunits).
  assert (Hnu : nunits <= nu < 2 ^ 28 /\ 1 <= nu) by (unfold nu; case_match; lia).
  unfold morecore. fold nu. cbn [mbind prog_mbind prog_bind sys run_sbrk].
  rewrite (i32_id (nu * HDR)) by (unfold HDR, is_i32; lia).
  destruct (grant (brk + nu * HDR)) eqn:Eg.
  2: { left. intros B f. done. }
  apply Hgrant in Eg. right. cbn [r_val].
  replace (u32 (i32 brk)) with brk by (unfold KERNBASE in *; wrap_lia).
  destruct (heap_ok_grow brk h fl al nu Hok) as [Hok1 Hk1]; [lia|lia|unfold KERNBASE, HDR in *; lia|].
  destruct (free_spec base (brk + HDR * nu) fuel _ fl brk nu al Hb0 ltac:(unfold KERNBASE, HDR in *; lia) Hok1 Hfuel)
    as (h' & fl' & Ef & Hok' & Hk2 & Hl & y & Hy & Hys).
  exists h', fl', (brk + HDR * nu). split_and!; [unfold HDR; lia|unfold HDR in *; lia| |done| |done|].
  - intros B f. destruct (Z.eqb_spec brk (u32 (-1))) as [E|_]; [revert E; unfold KERNBASE in *; wrap_lia|].
    rewrite (u32_id (brk + HDR)) by (unfold KERNBASE, HDR, is_u32 in *; lia). rewrite Ef.
    by rewrite Z.mul_comm.
  - intros c x Hc Hx. rewrite (Hk2 c x Hc Hx). by apply (Hk1 c).
  - exists y. split; [done|lia].
Qed.

(** What a search ends with. *)
Definition served (al : list block) (h : heap) (brk nunits : Z) (r : option (Z * heap * Z)) : Prop :=
  exists q h' fl' brk', r = Some (q + HDR, h', brk') /\ brk <= brk' < KERNBASE /\
    heap_ok base brk' h' fl' ((q, nunits) :: al) /\ kept al (h_mem h) (h_mem h').

Lemma loop_fit_run brk h fl al nunits fuel :
  heap_ok base brk h fl al -> brk < KERNBASE -> 1 <= nunits -> (exists y, y ∈ fl /\ nunits <= y.2) ->
  (length fl <= fuel)%nat ->
  served al h brk nunits (run_sbrk grant (malloc_loop fuel (h_freep h) (h_ptr (h_mem h) (h_freep h)) nunits h) brk).
Proof.
  intros Hok Hbrk Hn Hy Hfuel.
  destruct (loop_fit brk h fl al nunits fuel Hok ltac:(unfold KERNBASE in *; lia) Hn Hy Hfuel) as (q & h' & fl' & E & H1 & H2).
  exists q, h', fl', brk. rewrite E. split_and!; [|lia|done|done|done]. cbn. rewrite u32_id; [done|].
  destruct (hp_range _ _ _ _ _ H1 (q, nunits)) as [? Hq]; [apply elem_of_app; right; by left|].
  unfold is_u32, bend, KERNBASE, HDR in *. simpl in *. lia.
Qed.

Lemma loop_spec brk h fl al nunits fuel :
  heap_ok base brk h fl al -> 0 < brk < KERNBASE -> 1 <= nunits < 2 ^ 28 -> (2 * length fl + 1 <= fuel)%nat ->
  let r := run_sbrk grant (malloc_loop fuel (h_freep h) (h_ptr (h_mem h) (h_freep h)) nunits h) brk in
  r = Some (0, h, brk) \/ served al h brk nunits r.
Proof.
  intros Hok Hbrk Hn Hfuel. destruct (first_fit fl nunits) as [Hno|(l1 & y & l2 & E & Hy & _)].
  2: { right. apply (loop_fit_run brk h fl); [done|lia|lia| |lia]. exists y. split; [|done].
       rewrite E. apply elem_of_app. right. by left. }
  destruct (heap_ok_freep _ _ _ _ Hok) as (a & f & b & E & Hf).
  assert (exists k, fuel = (length fl + k)%nat /\ (S (length fl) <= k)%nat) as (k & -> & Hk).
  { exists (fuel - length fl)%nat. lia. }
  rewrite E in Hok, Hno |- *.
  rewrite (ring_none base brk Hb0 ltac:(unfold KERNBASE in *; lia) h a f b al nunits Hok Hf ltac:(lia) k Hno).
  rewrite <- E in Hok. destruct (morecore_spec brk h fl al nunits k Hok Hbrk Hn ltac:(lia)) as [Hm|(h' & fl' & brk' & Hb & Hm & Hok' & Hk' & Hl & Hy)].
  - left. by rewrite Hm.
  - right. rewrite Hm. pose proof (heap_ok_freep_pos _ _ _ _ Hok'). destruct (Z.eqb_spec (h_freep h') 0); [lia|].
    destruct (loop_fit_run brk' h' fl' al nunits k Hok') as (q & h2 & fl2 & brk2 & E2 & H1 & H2 & H3); [lia|lia|done|lia|].
    exists q, h2, fl2, brk2. split_and!; [done|lia|lia|done|]. intros c x Hc Hx. rewrite (H3 c x Hc Hx). by apply (Hk' c).
Qed.

(** Before the first call there is no list. *)
Lemma heap_ok_init brk m :
  base + HDR <= brk -> brk < 2 ^ 32 -> heap_ok base brk (Mkheap (set_size (set_ptr m base base) base 0) base) [zero base] [].
Proof.
  intros H1 H2. destruct (set_ptr_same m base base) as [E1 _]; [unfold is_u32, HDR in *; lia|].
  destruct (set_size_same (set_ptr m base base) base 0) as [E2 E3]; [unfold is_u32; lia|].
  split; cbn [h_mem h_freep].
  - exists []. split; [done|]. by intros b ?%elem_of_nil.
  - by repeat constructor.
  - cbn. rewrite E2, E3, E1. done.
  - by left.
  - intros b [->|[]%elem_of_nil]%elem_of_cons. unfold bend, zero. cbn. split; [lia|]. unfold HDR in *. lia.
  - by intros c ?%elem_of_nil.
  - by intros b c _ ?%elem_of_nil.
  - constructor.
Qed.

(** ** A program that allocates *)

(** [malloc] and [free] return, given enough fuel. *)
Definition mallocs (h : heap) (brk nbytes : Z) (r : Z * heap * Z) : Prop :=
  exists n, forall fuel, (n <= fuel)%nat -> run_sbrk grant (malloc base fuel nbytes h) brk = Some r.

Definition frees (h : heap) (p : Z) (h' : heap) : Prop :=
  exists n, forall fuel, (n <= fuel)%nat -> free fuel p h = Done h'.

(** The heap, the break, and the pointers [malloc] has returned and that have not
    been freed, with the number of bytes asked for. *)
Record world := Mkworld {
  w_heap : heap;
  w_brk : Z;
  w_used : list (Z * Z);
}.

(** The program calls [malloc] and [free], writes to memory it was given, and may
    call [sbrk] itself. *)
Inductive step : world -> world -> Prop :=
| step_malloc h brk used nbytes p h' brk' :
    0 <= nbytes < 2 ^ 31 - 16 -> mallocs h brk nbytes (p, h', brk') ->
    step (Mkworld h brk used) (Mkworld h' brk' (if p =? 0 then used else (p, nbytes) :: used))
| step_free h brk used1 u used2 h' :
    frees h u.1 h' -> step (Mkworld h brk (used1 ++ u :: used2)) (Mkworld h' brk (used1 ++ used2))
| step_write h brk used u x v :
    u ∈ used -> u.1 <= x < u.1 + u.2 ->
    step (Mkworld h brk used) (Mkworld (Mkheap (store8 (h_mem h) x v) (h_freep h)) brk used)
| step_sbrk h brk used n :
    0 <= n -> brk + n < KERNBASE -> step (Mkworld h brk used) (Mkworld h (brk + n) used).

(** The block of a pointer. *)
Definition owned (u : Z * Z) (b : block) : Prop := u.1 = b.1 + HDR /\ 0 <= u.2 <= HDR * (b.2 - 1).

Definition world_ok (w : world) : Prop :=
  base + HDR <= w_brk w < KERNBASE /\
  (h_freep (w_heap w) = 0 /\ w_used w = [] \/
   exists fl al, heap_ok base (w_brk w) (w_heap w) fl al /\ Forall2 owned (w_used w) al).

(** The bytes of a pointer are the same. *)
Definition same_bytes (m m' : memory) (u : Z * Z) : Prop :=
  forall x, u.1 <= x < u.1 + u.2 -> load8 m' x = load8 m x.

Lemma owned_inside u b x : owned u b -> u.1 <= x < u.1 + u.2 -> b.1 + HDR <= x < bend b.
Proof. intros [H1 H2] Hx. unfold bend, HDR in *. lia. Qed.

Lemma kept_same_bytes used al m m' u :
  Forall2 owned used al -> kept al m m' -> u ∈ used -> same_bytes m m' u.
Proof.
  intros Ho Hk Hu x Hx. apply list_elem_of_lookup in Hu as [i Hu].
  destruct (Forall2_lookup_l _ _ _ _ _ Ho Hu) as (b & Hb%list_elem_of_lookup_2 & Hub).
  apply (Hk b); [done|]. pose proof (owned_inside u b x Hub Hx). unfold HDR in *. lia.
Qed.

Lemma units_bound nbytes :
  0 <= nbytes < 2 ^ 31 - 16 ->
  let nunits := u32 (nbytes + HDR - 1) / HDR + 1 in 1 <= nunits < 2 ^ 28 /\ nbytes <= HDR * (nunits - 1).
Proof.
  intros H. rewrite u32_id by (unfold is_u32, HDR; lia). unfold HDR. cbn zeta.
  pose proof (Z.div_mod (nbytes + 8 - 1) 8 ltac:(lia)). pose proof (Z.mod_pos_bound (nbytes + 8 - 1) 8 ltac:(lia)). lia.
Qed.

Lemma world_malloc h brk used nbytes :
  world_ok (Mkworld h brk used) -> 0 <= nbytes < 2 ^ 31 - 16 ->
  exists p h' brk', mallocs h brk nbytes (p, h', brk') /\
    world_ok (Mkworld h' brk' (if p =? 0 then used else (p, nbytes) :: used)) /\
    forall u, u ∈ used -> same_bytes (h_mem h) (h_mem h') u.
Proof.
  intros [Hb Hw] Hn. pose proof (units_bound nbytes Hn) as [Hu1 Hu2].
  set (nunits := u32 (nbytes + HDR - 1) / HDR + 1) in *. cbn [w_brk w_heap w_used] in *.
  set (h0 := if h_freep h =? 0 then Mkheap (set_size (set_ptr (h_mem h) base base) base 0) base else h).
  assert (exists fl al, heap_ok base brk h0 fl al /\ Forall2 owned used al /\ kept al (h_mem h) (h_mem h0)) as (fl & al & Hok & Ho & Hk).
  { unfold h0. destruct Hw as [[-> ->]|(fl & al & Hok & Ho)].
    - exists [zero base], []. split_and!; [apply heap_ok_init; unfold KERNBASE in *; lia|constructor|]. by intros c x ?%elem_of_nil.
    - exists fl, al. pose proof (heap_ok_freep_pos _ _ _ _ Hok). destruct (Z.eqb_spec (h_freep h) 0); [lia|]. done. }
  set (n := (2 * length fl + 1)%nat).
  assert (Hm : forall r, run_sbrk grant (malloc_loop n (h_freep h0) (h_ptr (h_mem h0) (h_freep h0)) nunits h0) brk = Some r ->
    mallocs h brk nbytes r).
  { intros r Hr. exists n. intros fuel Hf. by apply (malloc_loop_mono _ n). }
  destruct (loop_spec brk h0 fl al nunits n Hok ltac:(unfold HDR in *; lia) Hu1 ltac:(lia)) as [E|(q & h' & fl' & brk' & E & Hb' & Hok' & Hk')].
  - exists 0, h0, brk. split_and!; [by apply Hm|by (split; [|right; exists fl, al])|]. intros u. by eapply kept_same_bytes.
  - exists (q + HDR), h', brk'. split_and!; [by apply Hm| |].
    + pose proof (hp_range _ _ _ _ _ Hok' (q, nunits) ltac:(apply elem_of_app; right; by left)) as [Hq _].
      cbn in Hq. unfold world_ok. destruct (Z.eqb_spec (q + HDR) 0); [unfold HDR in *; lia|]. split; [cbn; lia|].
      right. exists fl', ((q, nunits) :: al). split; [done|]. constructor; [split; [done|cbn; lia]|done].
    + intros u. eapply kept_same_bytes; [done|]. intros c x Hc Hx. rewrite (Hk' c x Hc Hx). by apply (Hk c).
Qed.

Lemma world_free h brk used1 u used2 :
  world_ok (Mkworld h brk (used1 ++ u :: used2)) ->
  exists h', frees h u.1 h' /\ world_ok (Mkworld h' brk (used1 ++ used2)) /\
    forall v, v ∈ used1 ++ used2 -> same_bytes (h_mem h) (h_mem h') v.
Proof.
  intros [Hb [[_ E]|(fl & al & Hok & Ho)]]; cbn [w_brk w_heap w_used] in *; [by destruct used1|].
  apply Forall2_app_inv_l in Ho as (al1 & al' & Ho1 & Ho2 & ->).
  apply Forall2_cons_inv_l in Ho2 as ([bp s] & al2 & [Hu Hu2] & Ho2 & ->). cbn [fst snd] in Hu.
  apply (heap_ok_perm _ _ _ _ ((bp, s) :: al1 ++ al2)) in Hok; [|by rewrite Permutation_middle].
  assert (Ho : Forall2 owned (used1 ++ used2) (al1 ++ al2)) by by apply Forall2_app.
  destruct (free_spec base brk (length fl) h fl bp s (al1 ++ al2) Hb0 ltac:(unfold KERNBASE in *; lia) Hok ltac:(lia))
    as (h' & fl' & E & Hok' & Hk & _).
  exists h'. split_and!.
  - exists (length fl). intros fuel. rewrite Hu. by apply free_mono.
  - split; [done|]. right. by exists fl', (al1 ++ al2).
  - intros v. by eapply kept_same_bytes.
Qed.

Lemma world_write h brk used u x v :
  world_ok (Mkworld h brk used) -> u ∈ used -> u.1 <= x < u.1 + u.2 ->
  world_ok (Mkworld (Mkheap (store8 (h_mem h) x v) (h_freep h)) brk used).
Proof.
  intros [Hb [[_ E]|(fl & al & Hok & Ho)]] Hu Hx; cbn [w_brk w_heap w_used] in *; [subst; by apply elem_of_nil in Hu|].
  split; [done|]. right. exists fl, al. split; [|done]. apply heap_ok_frame; [done|].
  apply list_elem_of_lookup in Hu as [i Hu].
  destruct (Forall2_lookup_l _ _ _ _ _ Ho Hu) as (c & Hc & Huc). pose proof (owned_inside u c x Huc Hx) as Hcx.
  intros b y Hy Hby. apply load8_store8_ne. intros ->.
  assert (b = c \/ disjoint b c) as [->|Hd]; [|lia|unfold disjoint, bend, HDR in *; lia].
  apply elem_of_app in Hy as [Hy|Hy]; [right; apply (hp_apart _ _ _ _ _ Hok); [done|by eapply list_elem_of_lookup_2]|].
  apply list_elem_of_lookup in Hy as [j Hj]. pose proof (hp_alloc _ _ _ _ _ Hok) as Hal.
  destruct (disjoint_lookup al i j c b Hal Hc Hj) as [->|Hd]; [left; congruence|]. right. unfold disjoint in *. lia.
Qed.

Lemma world_step w w' : step w w' -> world_ok w -> world_ok w'.
Proof.
  intros [h brk used nbytes p h' brk' Hn [n Hm]|h brk used1 u used2 h' [n Hf]|h brk used u x v Hu Hx|h brk used n H0 H1] Hw.
  - destruct (world_malloc h brk used nbytes Hw Hn) as (p2 & h2 & brk2 & [n2 Hm2] & Hw2 & _).
    specialize (Hm (max n n2) ltac:(lia)). specialize (Hm2 (max n n2) ltac:(lia)).
    rewrite Hm in Hm2. by injection Hm2 as <- <- <-.
  - destruct (world_free h brk used1 u used2 Hw) as (h2 & [n2 Hf2] & Hw2 & _).
    specialize (Hf (max n n2) ltac:(lia)). specialize (Hf2 (max n n2) ltac:(lia)).
    rewrite Hf in Hf2. by injection Hf2 as <-.
  - by eapply world_write.
  - destruct Hw as [Hb Hw]. cbn [w_brk w_heap w_used] in *. split; [cbn; lia|].
    destruct Hw as [Hw|(fl & al & [G1 G2 G3 G4 G5 G6 G7 G8] & Ho)]; [by left|]. right. exists fl, al. split; [|done].
    split; try done. intros b Hbb. destruct (G5 b Hbb). cbn. lia.
Qed.

(** Two pointers, with the headers in front of them. *)
Definition apart (u v : Z * Z) : Prop := u.1 + u.2 <= v.1 - HDR \/ v.1 + v.2 <= u.1 - HDR.

Lemma world_apart w i j u v :
  world_ok w -> w_used w !! i = Some u -> w_used w !! j = Some v -> i <> j -> apart u v.
Proof.
  intros [_ [[_ E]|(fl & al & Hok & Ho)]] Hi Hj Hij; [by rewrite E in Hi|].
  destruct (Forall2_lookup_l _ _ _ _ _ Ho Hi) as (b & Hb & [B1 B2]).
  destruct (Forall2_lookup_l _ _ _ _ _ Ho Hj) as (c & Hc & [C1 C2]).
  destruct (disjoint_lookup al i j b c (hp_alloc _ _ _ _ _ Hok) Hb Hc) as [?|Hd]; [done|].
  unfold apart, disjoint, bend, HDR in *. lia.
Qed.

Lemma world_inside w u :
  world_ok w -> u ∈ w_used w -> base + 2 * HDR <= u.1 /\ 0 <= u.2 /\ u.1 + u.2 <= w_brk w.
Proof.
  intros [_ [[_ E]|(fl & al & Hok & Ho)]] [i Hi]%list_elem_of_lookup; [by rewrite E in Hi|].
  destruct (Forall2_lookup_l _ _ _ _ _ Ho Hi) as (b & Hb%list_elem_of_lookup_2 & [B1 B2]).
  destruct (hp_head _ _ _ _ _ Hok) as (l & -> & _).
  pose proof (hp_apart _ _ _ _ _ Hok (zero base) b ltac:(by left) Hb) as Hd.
  destruct (hp_range _ _ _ _ _ Hok b) as [? ?]; [apply elem_of_app; by right|].
  unfold disjoint, zero, bend, HDR in *. simpl in *. lia.
Qed.
End calls.

(** C7: Take any program that calls [malloc] and [free], frees only pointers it was
    given, writes only to memory it was given, and may raise the break itself.
    At every point of its run, whatever breaks the kernel grants, the pieces of
    memory it holds are apart from each other and from the headers in front of
    them, and lie between [base] and the break.  [malloc] of less than 2^31 - 16
    bytes returns, with 0 or with a pointer that keeps this true, and [free] of
    a pointer the program holds returns; neither changes a byte of the memory
    the program still holds. *)
Theorem malloc_free_correct base grant m brk w :
  0 < base -> base + HDR <= brk < KERNBASE -> (forall b, grant b = true -> b < KERNBASE) ->
  rtc (step base grant) (Mkworld (Mkheap m 0) brk []) w ->
  (forall i j u v, w_used w !! i = Some u -> w_used w !! j = Some v -> i <> j -> apart u v) /\
  (forall u, u ∈ w_used w -> base + 2 * HDR <= u.1 /\ 0 <= u.2 /\ u.1 + u.2 <= w_brk w) /\
  (forall nbytes, 0 <= nbytes < 2 ^ 31 - 16 ->
   exists p h' brk', mallocs base grant (w_heap w) (w_brk w) nbytes (p, h', brk') /\
     forall u, u ∈ w_used w -> same_bytes (h_mem (w_heap w)) (h_mem h') u) /\
  (forall used1 u used2, w_used w = used1 ++ u :: used2 ->
   exists h', frees (w_heap w) u.1 h' /\
     forall v, v ∈ used1 ++ used2 -> same_bytes (h_mem (w_heap w)) (h_mem h') v).
Proof.
  intros Hb0 Hbrk Hg Hr. assert (Hw : world_ok base w).
  { remember (Mkworld (Mkheap m 0) brk []) as w0 eqn:E0.
    assert (Hw0 : world_ok base w0) by (subst; split; [done|by left]). clear E0.
    induction Hr as [|w1 w2 w3 Hs _ IH]; [done|]. by apply IH, (world_step base Hb0 grant Hg w1). }
  clear Hr. split_and!.
  - intros i j u v Hi Hj Hij. by eapply world_apart.
  - intros u Hu. by eapply world_inside.
  - intros nbytes Hn. destruct w as [h brk' used].
    destruct (world_malloc base Hb0 grant Hg h brk' used nbytes Hw Hn) as (p & h' & b' & H1 & _ & H2). by exists p, h', b'.
  - intros used1 u used2 E. destruct w as [h brk' used]. cbn in E. subst used.
    destruct (world_free base Hb0 h brk' used1 u used2 Hw) as (h' & H1 & _ & H2). by exists h'.
Qed.

(** The kernel grants every break below [KERNBASE]. *)
Definition grant_all (b : Z) : bool := b <? KERNBASE.

Definition malloc_start : heap := Mkheap ∅ 0.

(** Two calls, [free] of the first pointer and a third call: the pointers. *)
Definition malloc_three : prog (Z * Z * Z) :=
  '(p, h) ← malloc 2048 50 100 malloc_start;
  '(q, h) ← malloc 2048 50 20 h;
  h ← free 50 p h;
  '(r, _) ← malloc 2048 50 90 h;
  mret (p, q, r).

Example malloc_three_runs : run_sbrk grant_all malloc_three 4096 = Some (36760, 36728, 36768, 36864).
Proof. vm_compute. reflexivity. Qed.

(** A request of nearly 2^32 bytes lowers the break. *)
Example malloc_huge_shrinks :
  snd <$> run_sbrk grant_all (malloc 2048 50 (2 ^ 32 - 16) malloc_start) 4096 = Some 4088.
Proof. vm_compute. reflexivity. Qed.

Lemma malloc_free_correct_witness :
  (exists p h' brk', mallocs 2048 grant_all malloc_start 4096 100 (p, h', brk')).
Proof.
  destruct (malloc_free_correct 2048 grant_all ∅ 4096 (Mkworld malloc_start 4096 [])) as (_ & _ & H & _).
  - lia.
  - unfold HDR, KERNBASE. lia.
  - intros b. apply Z.ltb_lt.
  - apply rtc_refl.
  - destruct (H 100 ltac:(lia)) as (p & h' & brk' & Hm & _). by exists p, h', brk'.
Defined.
