(* ===== verification/Utils.v ===== *)
(** The small user programs: cat.c, wc.c, echo.c, grep.c, ls.c, ln.c, rm.c,
    mkdir.c, kill.c, init.c, zombie.c, hello.c and switchDebug.c.

    [argv] is the list of a program's arguments, its own name first.  A loop
    that ends with its input takes a bound on the number of its turns. *)
From S2P Require Import Prelude Memory Kernel CString Spinlock Console Bytes Grep Ulib.

Definition nth_arg (argv : list (list Z)) (i : nat) : list Z := default [] (argv !! i).

(** ** cat *)

Fixpoint cat (fuel : nat) (fd : Z) : prog unit :=
  match fuel with
  | O => Again
  | S fuel' =>
      '(n, buf) ← sys_bytes (Sread fd 512);
      if 0 <? n then sys (Swrite 1 (take (Z.to_nat n) buf));; cat fuel' fd
      else if n <? 0 then printf 1 "cat: read error
" [];; Exit
      else mret tt
  end.

Fixpoint cat_files (fuel : nat) (names : list (list Z)) : prog unit :=
  match names with
  | [] => mret tt
  | name :: names' =>
      fd ← sys (Sopen name 0);
      if fd <? 0 then printf 1 "cat: cannot open %s
" [AStr (Some name)];; Exit else
      cat fuel fd;;
      sys (Sclose fd);;
      cat_files fuel names'
  end.

Definition cat_main (fuel : nat) (argv : list (list Z)) : prog unit :=
  if (length argv <=? 1)%nat then cat fuel 0;; Exit
  else cat_files fuel (drop 1 argv);; Exit.

(** ** wc *)

Record counts := Mkcounts {
  wc_l : Z;
  wc_w : Z;
  wc_c : Z;
  wc_inword : bool;
}.

Definition counts0 : counts := Mkcounts 0 0 0 false.

(** [strchr(" \r\t\n\v", c)] *)
Definition is_space (c : Z) : bool := bool_decide (c ∈ [32; 13; 9; 10; 11]).

Definition wc_step (s : counts) (b : Z) : counts :=
  let l := if b =? 10 then i32 (wc_l s + 1) else wc_l s in
  let c := i32 (wc_c s + 1) in
  if is_space b then Mkcounts l (wc_w s) c false
  else if negb (wc_inword s) then Mkcounts l (i32 (wc_w s + 1)) c true
  else Mkcounts l (wc_w s) c true.

(** The reading loop: the counts, and the [n] that ended it. *)
Fixpoint wc_loop (fuel : nat) (fd : Z) (s : counts) : prog (counts * Z) :=
  match fuel with
  | O => Again
  | S fuel' =>
      '(n, buf) ← sys_bytes (Sread fd 512);
      if 0 <? n then wc_loop fuel' fd (foldl wc_step s (take (Z.to_nat n) buf))
      else mret (s, n)
  end.

Definition wc (fuel : nat) (fd : Z) (name : list Z) : prog unit :=
  '(s, n) ← wc_loop fuel fd counts0;
  if n <? 0 then printf 1 "wc: read error
" [];; Exit
  else printf 1 "%d %d %d %s
" [AInt (wc_l s); AInt (wc_w s); AInt (wc_c s); AStr (Some name)].

Fixpoint wc_files (fuel : nat) (names : list (list Z)) : prog unit :=
  match names with
  | [] => mret tt
  | name :: names' =>
      fd ← sys (Sopen name 0);
      if fd <? 0 then printf 1 "wc: cannot open %s
" [AStr (Some name)];; Exit else
      wc fuel fd name;;
      sys (Sclose fd);;
      wc_files fuel names'
  end.

Definition wc_main (fuel : nat) (argv : list (list Z)) : prog unit :=
  if (length argv <=? 1)%nat then wc fuel 0 [];; Exit
  else wc_files fuel (drop 1 argv);; Exit.

(** ** echo *)

Fixpoint echo_loop (args : list (list Z)) : prog unit :=
  match args with
  | [] => mret tt
  | a :: args' =>
      printf 1 "%s%s" [AStr (Some a); AStr (Some (match args' with [] => [10] | _ => [32] end))];;
      echo_loop args'
  end.

Definition echo_main (argv : list (list Z)) : prog unit := echo_loop (drop 1 argv);; Exit.

(** ** grep *)

(** [strchr(p, '\n')] on the bytes from [p]: how far away the newline is. *)
Fixpoint line_end (l : list Z) : option nat :=
  match l with
  | [] => None
  | c :: l' => if c =? 0 then None else if c =? 10 then Some 0%nat else S <$> line_end l'
  end.

(** The C string at the start of [l]. *)
Fixpoint c_string (l : list Z) : list Z :=
  match l with
  | [] => []
  | c :: l' => if c =? 0 then [] else c :: c_string l'
  end.

(** The inner loop: [p] is an index of [buf]. *)
Fixpoint grep_lines (fuel : nat) (pattern buf : list Z) (p : nat) : prog (list Z * nat) :=
  match line_end (drop p buf) with
  | None => mret (buf, p)
  | Some k =>
      match fuel with
      | O => Again
      | S fuel' =>
          let q := (p + k)%nat in
          let buf1 := <[q := 0]> buf in
          if match_re pattern (c_string (drop p buf1)) then
            let buf2 := <[q := 10]> buf1 in
            sys (Swrite 1 (take (k + 1) (drop p buf2)));;
            grep_lines fuel' pattern buf2 (q + 1)
          else grep_lines fuel' pattern buf1 (q + 1)
      end
  end.

Definition GREPBUF : nat := 1024.

Fixpoint grep_loop (fuel : nat) (pattern : list Z) (fd : Z) (buf : list Z) (m : nat) : prog unit :=
  match fuel with
  | O => Again
  | S fuel' =>
      '(n, l) ← sys_bytes (Sread fd (Z.of_nat (GREPBUF - m - 1)));
      if 0 <? n then
        let m := (m + Z.to_nat n)%nat in
        let buf := <[m := 0]> (splice buf (m - Z.to_nat n) (take (Z.to_nat n) l)) in
        '(buf, p) ← grep_lines GREPBUF pattern buf 0;
        let m := if (p =? 0)%nat then 0%nat else m in
        if (0 <? m)%nat
        then grep_loop fuel' pattern fd (splice buf 0 (slice buf p (m - p))) (m - p)
        else grep_loop fuel' pattern fd buf m
      else mret tt
  end.

Definition grep (fuel : nat) (pattern : list Z) (fd : Z) : prog unit :=
  grep_loop fuel pattern fd (replicate GREPBUF 0) 0.

Fixpoint grep_files (fuel : nat) (pattern : list Z) (names : list (list Z)) : prog unit :=
  match names with
  | [] => mret tt
  | name :: names' =>
      fd ← sys (Sopen name 0);
      if fd <? 0 then printf 1 "grep: cannot open %s
" [AStr (Some name)];; Exit else
      grep fuel pattern fd;;
      sys (Sclose fd);;
      grep_files fuel pattern names'
  end.

Definition grep_main (fuel : nat) (argv : list (list Z)) : prog unit :=
  if (length argv <=? 1)%nat then printf 2 "usage: grep pattern [file ...]
" [];; Exit else
  let pattern := nth_arg argv 1 in
  if (length argv <=? 2)%nat then grep fuel pattern 0;; Exit
  else grep_files fuel pattern (drop 2 argv);; Exit.

(** ** ls *)

Definition DIRSIZ : nat := 14.

(** What follows the last slash of [path]. *)
Definition after_slash (path : list Z) : list Z :=
  foldl (fun acc c => if c =? 47 then [] else acc ++ [c]) [] path.

Definition fmtname (path : list Z) : list Z :=
  let p := after_slash path in
  if (DIRSIZ <=? length p)%nat then p else p ++ replicate (DIRSIZ - length p) 32.

(** The fields of [struct stat]. *)
Definition st_type (st : list Z) : Z := i16 (get16 st 0).
Definition st_ino (st : list Z) : Z := get32 st 8.
Definition st_size (st : list Z) : Z := get32 st 16.

Definition T_DIR : Z := 1.
Definition T_FILE : Z := 2.

Definition ls_line (name st : list Z) : prog unit :=
  printf 1 "%s %d %d %d
" [AStr (Some name); AInt (st_type st); AInt (st_ino st); AInt (st_size st)].

(** The entries of the directory open as [fd], whose path with a slash is
    [buf]. *)
Fixpoint ls_entries (fuel : nat) (fd : Z) (buf : list Z) : prog unit :=
  match fuel with
  | O => Again
  | S fuel' =>
      '(n, de) ← sys_bytes (Sread fd 16);
      if negb (n =? 16) then mret tt else
      if get16 de 0 =? 0 then ls_entries fuel' fd buf else
      let path := buf ++ c_string (slice de 2 DIRSIZ) in
      '(r, st) ← stat_path path;
      (if r <? 0 then printf 1 "ls: cannot stat %s
" [AStr (Some path)]
       else ls_line (fmtname path) st);;
      ls_entries fuel' fd buf
  end.

Definition ls (fuel : nat) (path : list Z) : prog unit :=
  fd ← sys (Sopen path 0);
  if fd <? 0 then printf 2 "ls: cannot open %s
" [AStr (Some path)] else
  '(r, st) ← sys_bytes (Sfstat fd);
  if r <? 0 then printf 2 "ls: cannot stat %s
" [AStr (Some path)];; sys (Sclose fd);; mret tt else
  (if st_type st =? T_FILE then ls_line (fmtname path) st
   else if st_type st =? T_DIR then
     if (512 <? length path + 1 + DIRSIZ + 1)%nat then printf 1 "ls: path too long
" []
     else ls_entries fuel fd (path ++ [47])
   else mret tt);;
  sys (Sclose fd);;
  mret tt.

Fixpoint ls_each (fuel : nat) (paths : list (list Z)) : prog unit :=
  match paths with
  | [] => mret tt
  | path :: paths' => ls fuel path;; ls_each fuel paths'
  end.

Definition ls_main (fuel : nat) (argv : list (list Z)) : prog unit :=
  if (length argv <? 2)%nat then ls fuel (str ".");; Exit
  else ls_each fuel (drop 1 argv);; Exit.

(** ** ln, rm, mkdir, kill *)

Definition ln_main (argv : list (list Z)) : prog unit :=
  if negb (length argv =? 3)%nat then printf 2 "Usage: ln old new
" [];; Exit else
  let '(old, new) := (nth_arg argv 1, nth_arg argv 2) in
  r ← sys (Slink old new);
  (if r <? 0 then printf 2 "link %s %s: failed
" [AStr (Some old); AStr (Some new)] else mret tt);;
  Exit.

Fixpoint rm_loop (names : list (list Z)) : prog unit :=
  match names with
  | [] => mret tt
  | name :: names' =>
      r ← sys (Sunlink name);
      if r <? 0 then printf 2 "rm: %s failed to delete
" [AStr (Some name)] else rm_loop names'
  end.

Definition rm_main (argv : list (list Z)) : prog unit :=
  if (length argv <? 2)%nat then printf 2 "Usage: rm files...
" [];; Exit
  else rm_loop (drop 1 argv);; Exit.

Fixpoint mkdir_loop (names : list (list Z)) : prog unit :=
  match names with
  | [] => mret tt
  | name :: names' =>
      r ← sys (Smkdir name);
      if r <? 0 then printf 2 "mkdir: %s failed to create
" [AStr (Some name)] else mkdir_loop names'
  end.

Definition mkdir_main (argv : list (list Z)) : prog unit :=
  if (length argv <? 2)%nat then printf 2 "Usage: mkdir files...
" [];; Exit
  else mkdir_loop (drop 1 argv);; Exit.

(** [atoi] of an argument. *)
Definition atoi_arg (s : list Z) : Z :=
  default 0 (atoi (store_bytes ∅ 0 (s ++ [0])) 0 (S (length s))).

Fixpoint kill_loop (pids : list (list Z)) : prog unit :=
  match pids with
  | [] => mret tt
  | p :: pids' => sys (Skill (atoi_arg p));; kill_loop pids'
  end.

Definition kill_main (argv : list (list Z)) : prog unit :=
  if (length argv <? 2)%nat then printf 2 "usage: kill pid...
" [];; Exit
  else kill_loop (drop 1 argv);; Exit.

(** ** init, zombie, hello, switchDebug *)

(** [while((wpid=wait()) >= 0 && wpid != pid);] *)
Fixpoint init_wait (fuel : nat) (pid : Z) : prog unit :=
  match fuel with
  | O => Again
  | S fuel' =>
      wpid ← sys Swait;
      if (0 <=? wpid) && negb (wpid =? pid) then init_wait fuel' pid else mret tt
  end.

(** [turns] turns of the endless loop. *)
Fixpoint init_loop (turns fuel : nat) : prog unit :=
  match turns with
  | O => Again
  | S turns' =>
      printf 1 "init: starting sh
" [];;
      pid ← sys SforkLow;
      if pid <? 0 then printf 1 "init: fork failed
" [];; Exit else
      if pid =? 0 then
        sys (Sexec (str "sh") [str "sh"]);;
        printf 1 "init: exec sh failed
" [];;
        Exit
      else
        init_wait fuel pid;;
        printf 1 "zombie!
" [];;
        init_loop turns' fuel
  end.

(** The descriptors 0, 1 and 2. *)
Definition init_console : prog unit :=
  fd ← sys (Sopen (str "console") 2);
  (if fd <? 0 then
     sys (Smknod (str "console") 1 1);;
     sys (Sopen (str "console") 2);;
     mret tt
   else mret tt);;
  sys (Sdup 0);;
  sys (Sdup 0);;
  mret tt.

Definition init_main (turns fuel : nat) : prog unit := init_console;; init_loop turns fuel.

Definition zombie_main : prog unit :=
  pid ← sys Sfork;
  (if 0 <? pid then sys (Ssleep 5);; mret tt else mret tt);;
  Exit.

Definition hello_main : prog unit :=
  printf 0 "
Testando printf para o xv6!! 0
" [];;
  printf 1 "
Testando printf para o xv6!! 1
" [];;
  Exit.

Definition switchDebug_main : prog unit :=
  printf 0 "
Alternando modo debug...
" [];;
  sys SswitchDebug;;
  Exit.
