(* ===== verification/Shell.v ===== *)
(** sh.c: the shell's parser and interpreter.

    A pointer into the command line is an index of its buffer; a parsed command
    is a tree whose strings are pairs of such indices, which [nulterminate] then
    turns into C strings by storing NULs.  [malloc] is taken to succeed: sh.c
    does not check it. *)
From S2P Require Import Prelude Memory Kernel CString Spinlock Console Bytes Grep Ulib Utils.

Definition MAXARGS : nat := 10.

Definition O_RDONLY : Z := 0.
Definition O_WRONLY : Z := 1.
Definition O_RDWR : Z := 2.
Definition O_CREATE : Z := 512.

(** [struct cmd] and its variants; an argument is the pair of [argv[i]] and
    [eargv[i]], a file the pair of [file] and [efile]. *)
Inductive cmd :=
| EXEC (args : list (nat * nat))
| REDIR (c : cmd) (file efile : nat) (mode fd : Z)
| PIPE (l r : cmd)
| LIST (l r : cmd)
| BACK (c : cmd).

(** ** Tokens *)

Definition whitespace : list Z := [32; 9; 13; 10; 11].
Definition symbols : list Z := str "<|>&;()".

(** [strchr(s, c)] as a condition: never for a NUL. *)
Definition strchr_in (s : list Z) (c : Z) : bool := bool_decide (c ∈ s).

(** The byte at [s]; [es] is the end of the line, where there is a NUL. *)
Definition char_at (b : list Z) (s : nat) : Z := default 0 (b !! s).

(** [while(s < es && strchr(whitespace, b[s])) s++], for [n = es - s]. *)
Fixpoint skip_space (b : list Z) (s n : nat) : nat :=
  match n with
  | O => s
  | S n' => if strchr_in whitespace (char_at b s) then skip_space b (S s) n' else s
  end.

Fixpoint skip_word (b : list Z) (s n : nat) : nat :=
  match n with
  | O => s
  | S n' =>
      if negb (strchr_in whitespace (char_at b s)) && negb (strchr_in symbols (char_at b s))
      then skip_word b (S s) n' else s
  end.

Definition c_bar : Z := 124.
Definition c_lpar : Z := 40.
Definition c_rpar : Z := 41.
Definition c_semi : Z := 59.
Definition c_amp : Z := 38.
Definition c_lt : Z := 60.
Definition c_gt : Z := 62.
Definition c_plus : Z := 43.
Definition c_word : Z := 97.

Record token := Mktoken {
  tk_ret : Z;
  tk_q : nat;
  tk_eq : nat;
  tk_next : nat;
}.

(** [gettoken(ps, es, &q, &eq)] at [s]: the token, [*q], [*eq] and the new
    [*ps]. *)
Definition gettoken (b : list Z) (es s : nat) : token :=
  let q := skip_space b s (es - s) in
  let c := char_at b q in
  let '(ret, eq) :=
    if c =? 0 then (0, q)
    else if bool_decide (c ∈ [c_bar; c_lpar; c_rpar; c_semi; c_amp; c_lt]) then (c, S q)
    else if c =? c_gt then if char_at b (S q) =? c_gt then (c_plus, S (S q)) else (c_gt, S q)
    else (c_word, skip_word b q (es - q)) in
  Mktoken ret q eq (skip_space b eq (es - eq)).

(** [peek(ps, es, toks)]: the answer and the new [*ps]. *)
Definition peek (b : list Z) (es s : nat) (toks : list Z) : bool * nat :=
  let s' := skip_space b s (es - s) in
  (negb (char_at b s' =? 0) && strchr_in toks (char_at b s'), s').

(** ** Parsing *)

(** A parse fails with the message given to [panic], with the input left over
    from [s], or because a bound of the model was too small. *)
Inductive presult (A : Type) :=
| POk (a : A)
| PErr (msg : string)
| PLeft (s : nat)
| PFuel.
Global Arguments POk {A} a.
Global Arguments PErr {A} msg.
Global Arguments PLeft {A} s.
Global Arguments PFuel {A}.

#[export] Instance presult_ret : MRet presult := @POk.
#[export] Instance presult_bind : MBind presult := fun A B f r =>
  match r with POk a => f a | PErr m => PErr m | PLeft s => PLeft s | PFuel => PFuel end.

(** A redirection, before it is wrapped around a command. *)
Record redir := Mkredir {
  rd_file : nat;
  rd_efile : nat;
  rd_mode : Z;
  rd_fd : Z;
}.

Definition redircmd (c : cmd) (r : redir) : cmd :=
  REDIR c (rd_file r) (rd_efile r) (rd_mode r) (rd_fd r).

(** The redirections of [parseredirs], first one first: it wraps each around
    the command in turn. *)
Fixpoint parseredirs (fuel : nat) (b : list Z) (es s : nat) : presult (list redir * nat) :=
  let '(yes, s1) := peek b es s (str "<>") in
  if negb yes then mret ([], s1) else
  let t := gettoken b es s1 in
  let f := gettoken b es (tk_next t) in
  if negb (tk_ret f =? c_word) then PErr "missing file for redirection" else
  let r := if tk_ret t =? c_lt then Mkredir (tk_q f) (tk_eq f) O_RDONLY 0
           else Mkredir (tk_q f) (tk_eq f) (Z.lor O_WRONLY O_CREATE) 1 in
  match fuel with
  | O => PFuel
  | S fuel' =>
      '(rs, s2) ← parseredirs fuel' b es (tk_next f);
      mret (r :: rs, s2)
  end.

(** The loop of [parseexec]: the arguments, and the redirections found between
    them. *)
Fixpoint parseargs (fuel : nat) (b : list Z) (es s argc : nat) :
    presult (list (nat * nat) * list redir * nat) :=
  let '(yes, s1) := peek b es s (str "|)&;") in
  if yes then mret ([], [], s1) else
  let t := gettoken b es s1 in
  if tk_ret t =? 0 then mret ([], [], tk_next t) else
  if negb (tk_ret t =? c_word) then PErr "syntax" else
  if (MAXARGS <=? S argc)%nat then PErr "too many args" else
  '(rs, s2) ← parseredirs (length b) b es (tk_next t);
  match fuel with
  | O => PFuel
  | S fuel' =>
      '(args, rs', s3) ← parseargs fuel' b es s2 (S argc);
      mret ((tk_q t, tk_eq t) :: args, rs ++ rs', s3)
  end.

(** The part of [parseexec] after the test for a block: the redirections wrap
    the command whose [argv] is filled meanwhile. *)
Definition parsesimple (b : list Z) (es s : nat) : presult (cmd * nat) :=
  '(rs, s1) ← parseredirs (length b) b es s;
  '(args, rs', s2) ← parseargs (length b) b es s1 0;
  mret (foldl redircmd (EXEC args) (rs ++ rs'), s2).

(** [while(peek(ps, es, "&"))]: the number of [&]s. *)
Fixpoint parseback (fuel : nat) (b : list Z) (es s : nat) (c : cmd) : presult (cmd * nat) :=
  let '(yes, s1) := peek b es s (str "&") in
  if negb yes then mret (c, s1) else
  match fuel with
  | O => PFuel
  | S fuel' => parseback fuel' b es (tk_next (gettoken b es s1)) (BACK c)
  end.

(** [parseline], [parsepipe], [parseexec] and [parseblock] call one another. *)
Fixpoint parseline (fuel : nat) (b : list Z) (es s : nat) : presult (cmd * nat) :=
  match fuel with
  | O => PFuel
  | S fuel' =>
      '(c, s1) ← parsepipe fuel' b es s;
      '(c, s2) ← parseback (length b) b es s1 c;
      let '(yes, s3) := peek b es s2 (str ";") in
      if negb yes then mret (c, s3) else
      '(c2, s4) ← parseline fuel' b es (tk_next (gettoken b es s3));
      mret (LIST c c2, s4)
  end
with parsepipe (fuel : nat) (b : list Z) (es s : nat) : presult (cmd * nat) :=
  match fuel with
  | O => PFuel
  | S fuel' =>
      '(c, s1) ← parseexec fuel' b es s;
      let '(yes, s2) := peek b es s1 (str "|") in
      if negb yes then mret (c, s2) else
      '(c2, s3) ← parsepipe fuel' b es (tk_next (gettoken b es s2));
      mret (PIPE c c2, s3)
  end
with parseexec (fuel : nat) (b : list Z) (es s : nat) : presult (cmd * nat) :=
  match fuel with
  | O => PFuel
  | S fuel' =>
      let '(yes, s1) := peek b es s (str "(") in
      if yes then parseblock fuel' b es s1 else parsesimple b es s1
  end
with parseblock (fuel : nat) (b : list Z) (es s : nat) : presult (cmd * nat) :=
  match fuel with
  | O => PFuel
  | S fuel' =>
      let '(yes, s1) := peek b es s (str "(") in
      if negb yes then PErr "parseblock" else
      '(c, s2) ← parseline fuel' b es (tk_next (gettoken b es s1));
      let '(yes, s3) := peek b es s2 (str ")") in
      if negb yes then PErr "syntax - missing )" else
      '(rs, s4) ← parseredirs (length b) b es (tk_next (gettoken b es s3));
      mret (foldl redircmd c rs, s4)
  end.

(** ** NUL termination *)

Fixpoint nulterminate (c : cmd) (b : list Z) : list Z :=
  match c with
  | EXEC args => foldl (fun b a => <[a.2 := 0]> b) b args
  | REDIR c _ efile _ _ => <[efile := 0]> (nulterminate c b)
  | PIPE l r => nulterminate r (nulterminate l b)
  | LIST l r => nulterminate r (nulterminate l b)
  | BACK c => nulterminate c b
  end.

(** The depth of the recursion: between two tokens at most the four functions
    and [parseline] again are entered. *)
Definition parse_fuel (es : nat) : nat := 4 * es + 4.

(** [parsecmd(s)]: the command, and the buffer with the NULs. *)
Definition parsecmd (b : list Z) : presult (cmd * list Z) :=
  let es := length (c_string b) in
  '(c, s) ← parseline (parse_fuel es) b es 0;
  let '(_, s) := peek b es s [] in
  if negb (s =? es)%nat then PLeft s else
  mret (c, nulterminate c b).

(** ** Running *)

(** The C string at [q]. *)
Definition string_at (b : list Z) (q : nat) : list Z := c_string (drop q b).

Definition sh_panic {A} (s : list Z) : prog A :=
  printf 2 "%s
" [AStr (Some s)];; Exit.

Definition fork1 : prog Z :=
  pid ← sys SforkHigh;
  if pid =? -1 then sh_panic (str "fork") else mret pid.

Definition close_ (fd : Z) : prog unit := sys (Sclose fd);; mret tt.

(** [runcmd(cmd)] never returns. *)
Fixpoint runcmd (b : list Z) (c : cmd) : prog unit :=
  match c with
  | EXEC [] => Exit
  | EXEC ((q, _) :: _ as args) =>
      sys (Sexec (string_at b q) (map (fun a => string_at b a.1) args));;
      printf 2 "exec %s failed
" [AStr (Some (string_at b q))];;
      Exit
  | REDIR c file _ mode fd =>
      close_ fd;;
      r ← sys (Sopen (string_at b file) mode);
      if r <? 0 then printf 2 "open %s failed
" [AStr (Some (string_at b file))];; Exit else
      runcmd b c;;
      Exit
  | LIST l r =>
      pid ← fork1;
      (if pid =? 0 then runcmd b l else mret tt);;
      sys Swait;;
      runcmd b r;;
      Exit
  | PIPE l r =>
      '(rv, p) ← sys_bytes Spipe;
      if rv <? 0 then sh_panic (str "pipe") else
      let p0 := i32 (get32 p 0) in
      let p1 := i32 (get32 p 4) in
      pid ← fork1;
      (if pid =? 0 then
         close_ 1;; sys (Sdup p1);; close_ p0;; close_ p1;; runcmd b l
       else mret tt);;
      pid ← fork1;
      (if pid =? 0 then
         close_ 0;; sys (Sdup p0);; close_ p0;; close_ p1;; runcmd b r
       else mret tt);;
      close_ p0;;
      close_ p1;;
      sys Swait;;
      sys Swait;;
      Exit
  | BACK c =>
      pid ← fork1;
      (if pid =? 0 then runcmd b c else mret tt);;
      Exit
  end.

(** [getcmd(buf, nbuf)]: [None] at the end of the input, otherwise the buffer. *)
Definition getcmd (nbuf : nat) : prog (option (list Z)) :=
  printf 2 "$ " [];;
  l ← gets_line (Z.of_nat nbuf);
  mret (if at_end l || (default 0 (head l) =? 0) then None else Some (splice (replicate nbuf 0) 0 l)).

(** [while((fd = open("console", O_RDWR)) >= 0)] *)
Fixpoint open_console (fuel : nat) : prog unit :=
  match fuel with
  | O => Again
  | S fuel' =>
      fd ← sys (Sopen (str "console") O_RDWR);
      if fd <? 0 then mret tt else
      if 3 <=? fd then close_ fd else open_console fuel'
  end.

Definition run_line (b : list Z) : prog unit :=
  match parsecmd b with
  | POk (c, b') => runcmd b' c
  | PErr msg => sh_panic (str msg)
  | PLeft s =>
      printf 2 "leftovers: %s
" [AStr (Some (string_at b s))];;
      sh_panic (str "syntax")
  | PFuel => Again
  end.

(** [turns] turns of the loop over commands. *)
Fixpoint sh_loop (turns : nat) : prog unit :=
  match turns with
  | O => Again
  | S turns' =>
      line ← getcmd 100;
      match line with
      | None => Exit
      | Some b =>
          if (char_at b 0 =? 99) && (char_at b 1 =? 100) && (char_at b 2 =? 32) then
            let b := <[(length (c_string b) - 1)%nat := 0]> b in
            r ← sys (Schdir (string_at b 3));
            (if r <? 0 then printf 2 "cannot cd %s
" [AStr (Some (string_at b 3))] else mret tt);;
            sh_loop turns'
          else
            pid ← fork1;
            (if pid =? 0 then run_line b else mret tt);;
            sys Swait;;
            sh_loop turns'
      end
  end.

Definition sh_main (turns fuel : nat) : prog unit :=
  open_console fuel;;
  sh_loop turns.
