(* ===== verification/ShellSpec.v ===== *)
(** The shell's parser accepts its grammar.

    A command is described by a tree of the grammar of sh.c; [toks_line] lists
    its lexemes and [text] says which character strings spell a list of lexemes,
    with any amount of white space between them.  Parsing a spelling gives back
    the tree, whatever is in it and however it is spaced. *)
From S2P Require Import Prelude Memory Kernel CString Spinlock Console Bytes Grep Ulib Utils Shell.

(** ** Abstract commands *)

(** A parsed command with its strings. *)
Inductive ast :=
| Exec (args : list (list Z))
| Redir (c : ast) (file : list Z) (mode fd : Z)
| Pipe (l r : ast)
| List (l r : ast)
| Back (c : ast).

(** What [runcmd] finds in the NUL-terminated buffer [b]. *)
Fixpoint denote (b : list Z) (c : cmd) : ast :=
  match c with
  | EXEC args => Exec ((fun a => string_at b a.1) <$> args)
  | REDIR c file _ mode fd => Redir (denote b c) (string_at b file) mode fd
  | PIPE l r => Pipe (denote b l) (denote b r)
  | LIST l r => List (denote b l) (denote b r)
  | BACK c => Back (denote b c)
  end.

(** ** The grammar *)

Inductive gredir := GIn (file : list Z) | GOut (file : list Z) | GAppend (file : list Z).

(** A simple command: redirections, then arguments each followed by more
    redirections. *)
Inductive gline :=
| GEnd (p : gpipe) (n : nat)
| GSeq (p : gpipe) (n : nat) (l : gline)
with gpipe :=
| GOne (e : gexec)
| GBar (e : gexec) (p : gpipe)
with gexec :=
| GSimple (rs : list gredir) (args : list (list Z * list gredir))
| GBlock (l : gline) (rs : list gredir).

Scheme gline_mut := Induction for gline Sort Prop
with gpipe_mut := Induction for gpipe Sort Prop
with gexec_mut := Induction for gexec Sort Prop.
Combined Scheme grammar_ind from gline_mut, gpipe_mut, gexec_mut.

Inductive lexeme := Sym (c : Z) | App | Word (w : list Z).

Definition toks_redir (r : gredir) : list lexeme :=
  match r with
  | GIn f => [Sym c_lt; Word f]
  | GOut f => [Sym c_gt; Word f]
  | GAppend f => [App; Word f]
  end.

Definition toks_redirs (rs : list gredir) : list lexeme := concat (toks_redir <$> rs).

Definition toks_args (args : list (list Z * list gredir)) : list lexeme :=
  concat ((fun a => Word a.1 :: toks_redirs a.2) <$> args).

Fixpoint toks_line (l : gline) : list lexeme :=
  match l with
  | GEnd p n => toks_pipe p ++ replicate n (Sym c_amp)
  | GSeq p n l => toks_pipe p ++ replicate n (Sym c_amp) ++ Sym c_semi :: toks_line l
  end
with toks_pipe (p : gpipe) : list lexeme :=
  match p with
  | GOne e => toks_exec e
  | GBar e p => toks_exec e ++ Sym c_bar :: toks_pipe p
  end
with toks_exec (e : gexec) : list lexeme :=
  match e with
  | GSimple rs args => toks_redirs rs ++ toks_args args
  | GBlock l rs => Sym c_lpar :: toks_line l ++ Sym c_rpar :: toks_redirs rs
  end.

(** The command a tree stands for: redirections wrap it in order. *)
Definition ast_redir (c : ast) (r : gredir) : ast :=
  match r with
  | GIn f => Redir c f O_RDONLY 0
  | GOut f => Redir c f (Z.lor O_WRONLY O_CREATE) 1
  | GAppend f => Redir c f (Z.lor O_WRONLY O_CREATE) 1
  end.

Fixpoint ast_line (l : gline) : ast :=
  match l with
  | GEnd p n => Nat.iter n Back (ast_pipe p)
  | GSeq p n l => List (Nat.iter n Back (ast_pipe p)) (ast_line l)
  end
with ast_pipe (p : gpipe) : ast :=
  match p with
  | GOne e => ast_exec e
  | GBar e p => Pipe (ast_exec e) (ast_pipe p)
  end
with ast_exec (e : gexec) : ast :=
  match e with
  | GSimple rs args =>
      foldl ast_redir (Exec (fst <$> args)) (rs ++ concat (snd <$> args))
  | GBlock l rs => foldl ast_redir (ast_line l) rs
  end.

(** ** Spelling *)

Definition word_char (c : Z) : Prop := c <> 0 /\ (c ∉ whitespace) /\ c ∉ symbols.

Definition lex_ok (x : lexeme) : Prop :=
  match x with
  | Sym c => c ∈ symbols
  | App => True
  | Word w => w <> [] /\ Forall word_char w
  end.

Definition chars (x : lexeme) : list Z :=
  match x with Sym c => [c] | App => [c_gt; c_gt] | Word w => w end.

(** What may follow a lexeme without becoming part of it. *)
Definition delim (x : lexeme) (rest : list Z) : Prop :=
  match x with
  | Word _ => forall c, head rest = Some c -> ~ word_char c
  | Sym c => c = c_gt -> head rest <> Some c_gt
  | App => True
  end.

Inductive text : list lexeme -> list Z -> Prop :=
| text_nil ws : Forall (.∈ whitespace) ws -> text [] ws
| text_cons x xs ws rest :
    Forall (.∈ whitespace) ws -> lex_ok x -> delim x rest -> text xs rest ->
    text (x :: xs) (ws ++ chars x ++ rest).

(** At most nine arguments in each simple command. *)
Fixpoint few_args_line (l : gline) : Prop :=
  match l with
  | GEnd p _ => few_args_pipe p
  | GSeq p _ l => few_args_pipe p /\ few_args_line l
  end
with few_args_pipe (p : gpipe) : Prop :=
  match p with
  | GOne e => few_args_exec e
  | GBar e p => few_args_exec e /\ few_args_pipe p
  end
with few_args_exec (e : gexec) : Prop :=
  match e with
  | GSimple _ args => (length args < MAXARGS)%nat
  | GBlock l _ => few_args_line l
  end.

(** ** NUL termination *)

(** The positions [nulterminate] overwrites. *)
Fixpoint ends (c : cmd) : list nat :=
  match c with
  | EXEC args => snd <$> args
  | REDIR c _ e _ _ => ends c ++ [e]
  | PIPE l r | LIST l r => ends l ++ ends r
  | BACK c => ends c
  end.

Lemma nulterminate_foldl c b : nulterminate c b = foldl (fun b e => <[e := 0]> b) b (ends c).
Proof.
  revert b; induction c as [args|c IH f e m fd|l IHl r IHr|l IHl r IHr|c IH]; intros b; simpl;
    rewrite ?foldl_app, ?IHl, ?IHr, ?IH; try done.
  revert b; induction args as [|a args IH]; intros b; simpl; [done|]. by rewrite IH.
Qed.

Lemma zeroed_lookup es (b : list Z) j :
  Forall (fun e => (e < length b)%nat) es ->
  foldl (fun b e => <[e := 0]> b) b es !! j = if decide (j ∈ es) then Some 0 else b !! j.
Proof.
  revert b; induction es as [|e es IH]; intros b; [done|].
  intros [He Hes]%Forall_cons. simpl. rewrite IH.
  2: { eapply Forall_impl; [exact Hes|]. simpl. intros. by rewrite length_insert. }
  destruct (decide (j = e)) as [->|Hne].
  - rewrite list_lookup_insert_eq by done. rewrite (decide_True (P := e ∈ e :: es)) by (by left).
    by destruct (decide (e ∈ es)).
  - rewrite list_lookup_insert_ne by done.
    destruct (decide (j ∈ es)); [by rewrite decide_True by (by right)|].
    rewrite decide_False; [done|]. rewrite elem_of_cons. naive_solver.
Qed.

(** [w] is the word at positions [a.1] to [a.2] of the buffer. *)
Record span (b : list Z) (a : nat * nat) (w : list Z) : Prop := {
  sp_word : take (a.2 - a.1) (drop a.1 b) = w;
  sp_le : (a.1 <= a.2)%nat;
  sp_in : (a.2 < length b)%nat;
  sp_chars : Forall word_char w;
  sp_end : forall c, b !! a.2 = Some c -> ~ word_char c;
}.

(** The tree [c] over the buffer [b] stands for the command [a]. *)
Fixpoint repr (b : list Z) (c : cmd) (a : ast) : Prop :=
  match c, a with
  | EXEC args, Exec ws => Forall2 (span b) args ws
  | REDIR c f e m fd, Redir a w m' fd' => repr b c a /\ span b (f, e) w /\ m = m' /\ fd = fd'
  | PIPE l r, Pipe al ar => repr b l al /\ repr b r ar
  | LIST l r, List al ar => repr b l al /\ repr b r ar
  | BACK c, Back a => repr b c a
  | _, _ => False
  end.

Lemma c_string_take n l :
  (forall j c, (j < n)%nat -> l !! j = Some c -> c <> 0) -> l !! n = Some 0 -> c_string l = take n l.
Proof.
  revert l; induction n as [|n IH]; intros [|c l] Hnz Hn; simplify_eq/=; [done|].
  destruct (Z.eqb_spec c 0) as [->|]; [by destruct (Hnz 0%nat 0 ltac:(lia))|].
  f_equal. apply IH; [|done]. intros j d Hj Hd. apply (Hnz (S j)); [lia|done].
Qed.

(** Positions that hold the end of a word. *)
Definition ends_ok (b : list Z) (es : list nat) : Prop :=
  Forall (fun e => (e < length b)%nat /\ forall c, b !! e = Some c -> ~ word_char c) es.

Lemma span_string b a w es :
  span b a w -> a.2 ∈ es -> ends_ok b es ->
  string_at (foldl (fun b e => <[e := 0]> b) b es) a.1 = w.
Proof.
  intros [H1 H2 H3 H4 H5] Hin Hes. set (b' := foldl _ b es).
  assert (Hb' : forall j, b' !! j = if decide (j ∈ es) then Some 0 else b !! j).
  { intros j. apply zeroed_lookup. eapply Forall_impl; [exact Hes|]. simpl. tauto. }
  assert (Hsame : forall j, (j < a.2 - a.1)%nat -> b' !! (a.1 + j)%nat = b !! (a.1 + j)%nat /\
    exists c, b !! (a.1 + j)%nat = Some c /\ word_char c).
  { intros j Hj. destruct (lookup_lt_is_Some_2 b (a.1 + j)%nat ltac:(lia)) as [c Hc].
    assert (Hw : word_char c).
    { rewrite Forall_lookup in H4. apply (H4 j). rewrite <- H1, lookup_take_lt by done.
      by rewrite lookup_drop. }
    split; [|by exists c]. rewrite Hb'. rewrite decide_False; [done|]. intros Hj'.
    eapply Forall_forall in Hes as [_ Hes]; [|exact Hj']. by apply (Hes c). }
  unfold string_at. rewrite (c_string_take (a.2 - a.1)).
  - rewrite <- H1. apply list_eq. intros j. destruct (decide (j < a.2 - a.1)%nat) as [Hj|Hj].
    + rewrite !lookup_take_lt, !lookup_drop by done. by apply Hsame.
    + rewrite !lookup_take_ge by lia. done.
  - intros j c Hj. rewrite lookup_drop. destruct (Hsame j Hj) as (-> & d & -> & Hd).
    intros [= <-]. apply Hd.
  - rewrite lookup_drop, Hb'. replace (a.1 + (a.2 - a.1))%nat with a.2 by lia.
    by rewrite decide_True.
Qed.

Lemma repr_ends b c a : repr b c a -> ends_ok b (ends c).
Proof.
  revert a; induction c as [args|c IH f e m fd|l IHl r IHr|l IHl r IHr|c IH]; intros [ws|a w m' fd'|al ar|al ar|a];
    simpl; try done; unfold ends_ok; rewrite ?Forall_app; try naive_solver.
  - intros H. induction H as [|x w args ws Hs _ IH]; simpl; constructor; [|done].
    split; apply Hs.
  - intros (H1 & H2 & _). split; [by eapply IH|]. constructor; [|constructor]. split; apply H2.
Qed.

Lemma repr_denote b c a es :
  repr b c a -> (forall e, e ∈ ends c -> e ∈ es) -> ends_ok b es ->
  denote (foldl (fun b e => <[e := 0]> b) b es) c = a.
Proof.
  revert a; induction c as [args|c IH f e m fd|l IHl r IHr|l IHl r IHr|c IH]; intros [ws|a w m' fd'|al ar|al ar|a];
    simpl; try done; intros H Hin Hes.
  - f_equal. induction H as [|x w args ws Hs _ IH]; simpl in *; [done|]. f_equal.
    + apply (span_string b x w); [done|apply Hin; by left|done].
    + apply IH. intros e He. apply Hin. by right.
  - destruct H as (H1 & H2 & -> & ->). f_equal.
    + apply IH; [done| |done]. intros x Hx. apply Hin, elem_of_app. by left.
    + apply (span_string b (f, e) w); [done| |done]. apply Hin, elem_of_app. right. by left.
  - destruct H as [H1 H2]. f_equal; [apply IHl|apply IHr]; try done; intros x Hx;
      apply Hin, elem_of_app; auto.
  - destruct H as [H1 H2]. f_equal; [apply IHl|apply IHr]; try done; intros x Hx;
      apply Hin, elem_of_app; auto.
  - f_equal. by apply IH.
Qed.

Lemma repr_nulterminate b c a : repr b c a -> denote (nulterminate c b) c = a.
Proof.
  intros H. rewrite nulterminate_foldl. apply repr_denote; [done|done|by eapply repr_ends].
Qed.

(** ** Reading tokens *)

Section line.
Context (line tail : list Z) (Hnz : Forall (fun c => c <> 0) line).

Abbreviation b := (line ++ 0 :: tail).
Abbreviation es := (length line).

(** What is left of the line at [s] spells [xs]. *)
Definition at_pos (s : nat) (xs : list lexeme) : Prop := (s <= es)%nat /\ text xs (drop s line).

Lemma char_at_line s : (s < es)%nat -> exists c, line !! s = Some c /\ char_at b s = c.
Proof.
  intros H. destruct (lookup_lt_is_Some_2 line s H) as [c Hc]. exists c. split; [done|].
  unfold char_at. by rewrite lookup_app_l, Hc.
Qed.

Lemma char_at_es : char_at b es = 0.
Proof. unfold char_at. by rewrite list_lookup_middle. Qed.

Lemma char_at_drop s c rest : drop s line = c :: rest -> (s < es)%nat /\ char_at b s = c.
Proof.
  intros E. assert (H : (s < es)%nat).
  { apply (f_equal length) in E. rewrite length_drop in E. simpl in E. lia. }
  split; [done|]. destruct (char_at_line s H) as (d & Hd & ->).
  rewrite (drop_S _ _ _ Hd) in E. by simplify_eq.
Qed.

Lemma strchr_in_spec l c : strchr_in l c = true <-> c ∈ l.
Proof. unfold strchr_in. apply bool_decide_eq_true. Qed.

Lemma drop_app_pos s (l1 l2 : list Z) :
  (s <= es)%nat -> drop s line = l1 ++ l2 -> drop (s + length l1) line = l2 /\ (s + length l1 <= es)%nat.
Proof.
  intros Hs E. split.
  - rewrite <- drop_drop, E. by rewrite drop_app_length.
  - apply (f_equal length) in E. rewrite length_drop, length_app in E. lia.
Qed.

(** Skipping white space, up to something else. *)
Lemma skip_space_line s ws rest :
  (s <= es)%nat -> drop s line = ws ++ rest -> Forall (.∈ whitespace) ws ->
  (forall c, head rest = Some c -> c ∉ whitespace) ->
  skip_space b s (es - s) = (s + length ws)%nat.
Proof.
  revert s; induction ws as [|w ws IH]; intros s Hs E Hws Hrest.
  - simpl in *. rewrite Nat.add_0_r. destruct (es - s)%nat as [|n] eqn:En; [done|]. simpl.
    destruct rest as [|c rest].
    { apply (f_equal length) in E. rewrite length_drop in E. simpl in E. lia. }
    destruct (char_at_drop s c rest E) as [_ ->].
    destruct (strchr_in whitespace c) eqn:Ec; [|done].
    apply strchr_in_spec in Ec. by apply (Hrest c) in Ec.
  - apply Forall_cons in Hws as [Hw Hws]. destruct (char_at_drop s w (ws ++ rest) E) as [Hlt Hc].
    replace (es - s)%nat with (S (es - S s)) by lia. cbn [skip_space]. rewrite Hc.
    rewrite (proj2 (strchr_in_spec _ _) Hw).
    rewrite (IH (S s)); [simpl; lia|lia| |done|done].
    destruct (drop_app_pos s [w] (ws ++ rest)) as [E1 _]; [lia|done|].
    simpl in E1. by rewrite Nat.add_1_r in E1.
Qed.

Lemma word_not_space c : word_char c -> c ∉ whitespace.
Proof. by intros (_ & H & _). Qed.

Lemma symbol_not_space c : c ∈ symbols -> (c ∉ whitespace) /\ c <> 0.
Proof.
  intros H. change (c ∈ [60; 124; 62; 38; 59; 40; 41]) in H.
  rewrite !elem_of_cons, elem_of_nil in H. unfold whitespace. rewrite !elem_of_cons, elem_of_nil. lia.
Qed.

Lemma chars_head x rest : lex_ok x -> forall c, head (chars x ++ rest) = Some c -> c ∉ whitespace.
Proof.
  destruct x as [s| |w]; simpl.
  - intros H c [= <-]. by apply symbol_not_space.
  - intros _ c [= <-]. by apply symbol_not_space, strchr_in_spec.
  - intros [Hne Hw]. destruct w as [|d w]; [done|]. simpl. intros c [= <-].
    apply Forall_cons in Hw as [Hw _]. by apply word_not_space.
Qed.

Lemma skip_space_text s xs :
  at_pos s xs ->
  let s' := skip_space b s (es - s) in
  at_pos s' xs /\ (s <= s')%nat /\
  match xs with
  | [] => s' = es
  | x :: xs' => exists rest, drop s' line = chars x ++ rest /\ lex_ok x /\ delim x rest /\ text xs' rest
  end.
Proof.
  intros [Hs Ht]. cbv zeta. remember (drop s line) as l eqn:E2.
  destruct Ht as [ws Hws|x xs' ws rest Hws Hx Hd Hr]; symmetry in E2.
  - rewrite (skip_space_line s ws []); [|done|by rewrite app_nil_r|done|done].
    destruct (drop_app_pos s ws []) as [E3 Hle]; [done|by rewrite app_nil_r|].
    assert (E4 : (s + length ws)%nat = es)
      by (apply (f_equal length) in E3; rewrite length_drop in E3; simpl in E3; lia).
    split_and!; [split; [lia|]|lia|done]. rewrite E3. constructor. constructor.
  - rewrite (skip_space_line s ws (chars x ++ rest)); [|done|done|done|by apply chars_head].
    destruct (drop_app_pos s ws _ Hs E2) as [E3 Hle].
    split_and!; [split; [done|]|lia|].
    + rewrite E3. by apply (text_cons x xs' [] rest).
    + exists rest. by split_and!.
Qed.

Definition first_in (toks : list Z) (xs : list lexeme) : bool :=
  match xs with [] => false | x :: _ => strchr_in toks (hd 0 (chars x)) end.

Lemma chars_first x rest s :
  lex_ok x -> drop s line = chars x ++ rest ->
  (s < es)%nat /\ char_at b s = hd 0 (chars x) /\ hd 0 (chars x) <> 0.
Proof.
  intros Hx E. destruct x as [c| |[|c w]]; simpl in *.
  - destruct (char_at_drop s _ _ E). by destruct (symbol_not_space c Hx).
  - destruct (char_at_drop s _ _ E). done.
  - by destruct Hx.
  - destruct (char_at_drop s _ _ E). destruct Hx as [_ [[? _] _]%Forall_cons]. done.
Qed.

Lemma peek_text s xs toks :
  at_pos s xs -> exists s', peek b es s toks = (first_in toks xs, s') /\ at_pos s' xs /\ (s <= s')%nat.
Proof.
  intros H. unfold peek. destruct (skip_space_text s xs H) as (H1 & H2 & H3).
  set (s' := skip_space b s (es - s)) in *. exists s'. split; [|done]. f_equal.
  destruct xs as [|x xs]; simpl in *.
  - subst s'. rewrite H3. by rewrite char_at_es.
  - destruct H3 as (rest & E & Hx & _). destruct (chars_first x rest s' Hx E) as (_ & -> & Hne).
    by destruct (Z.eqb_spec (hd 0 (chars x)) 0).
Qed.

Lemma skip_word_line s w rest :
  (s <= es)%nat -> drop s line = w ++ rest -> Forall word_char w ->
  (forall c, head rest = Some c -> ~ word_char c) ->
  skip_word b s (es - s) = (s + length w)%nat.
Proof.
  revert s; induction w as [|c w IH]; intros s Hs E Hw Hrest.
  - simpl in *. rewrite Nat.add_0_r. destruct (es - s)%nat as [|n] eqn:En; [done|]. simpl.
    destruct rest as [|c rest].
    { apply (f_equal length) in E. rewrite length_drop in E. simpl in E. lia. }
    destruct (char_at_drop s c rest E) as [Hlt ->].
    destruct (strchr_in whitespace c) eqn:E1; [done|]. destruct (strchr_in symbols c) eqn:E2; [done|].
    exfalso. apply (Hrest c eq_refl). split_and!.
    + rewrite Forall_lookup in Hnz. apply (Hnz s). by rewrite <- (Nat.add_0_r s), <- lookup_drop, E.
    + intros Hin. apply strchr_in_spec in Hin. congruence.
    + intros Hin. apply strchr_in_spec in Hin. congruence.
  - apply Forall_cons in Hw as [(_ & Hc1 & Hc2) Hw].
    destruct (char_at_drop s c (w ++ rest) E) as [Hlt Hc].
    replace (es - s)%nat with (S (es - S s)) by lia. cbn [skip_word]. rewrite Hc.
    unfold strchr_in. rewrite (bool_decide_false _ Hc1), (bool_decide_false _ Hc2). cbn [negb andb].
    rewrite (IH (S s)); [simpl; lia|lia| |done|done].
    destruct (drop_app_pos s [c] (w ++ rest)) as [E1 _]; [lia|done|].
    simpl in E1. by rewrite Nat.add_1_r in E1.
Qed.

Lemma word_span q w rest :
  (q <= es)%nat -> drop q line = w ++ rest -> lex_ok (Word w) -> delim (Word w) rest ->
  span b (q, q + length w)%nat w.
Proof.
  intros Hq E [_ Hw] Hd. destruct (drop_app_pos q w rest Hq E) as [E1 Hle]. split; simpl.
  - rewrite drop_app_le by lia. rewrite E, <- app_assoc.
    replace (q + length w - q)%nat with (length w) by lia. apply take_app_length.
  - lia.
  - rewrite length_app. simpl. lia.
  - done.
  - intros c Hc. destruct (decide (q + length w < es)%nat) as [Hlt|Hge].
    + apply Hd. rewrite <- E1. rewrite lookup_app_l in Hc by done.
      rewrite (drop_S _ _ _ Hc). done.
    + replace (q + length w)%nat with es in Hc by lia. rewrite list_lookup_middle in Hc by done.
      intros [H0 _]. by simplify_eq.
Qed.

(** The value [gettoken] returns for a lexeme. *)
Definition ret_of (x : lexeme) : Z := match x with Sym c => c | App => c_plus | Word _ => c_word end.

Lemma after_token s xs :
  (s <= es)%nat -> text xs (drop s line) -> at_pos (skip_space b s (es - s)) xs.
Proof. intros H1 H2. by apply skip_space_text. Qed.

Lemma gettoken_end s : at_pos s [] -> tk_ret (gettoken b es s) = 0 /\ at_pos (tk_next (gettoken b es s)) [].
Proof.
  intros H. unfold gettoken. destruct (skip_space_text s [] H) as (_ & _ & ->).
  rewrite char_at_es. simpl. split; [done|]. apply after_token; [done|].
  rewrite drop_all. constructor. constructor.
Qed.

Lemma char_after s x rest :
  drop s line = x :: rest -> char_at b (S s) = default 0 (head rest).
Proof.
  intros E. destruct (char_at_drop s x rest E) as [Hlt _].
  destruct (drop_app_pos s [x] rest) as [E1 Hle]; [lia|done|]. simpl in E1, Hle.
  rewrite Nat.add_1_r in E1, Hle. destruct rest as [|c rest].
  - assert (S s = es) as ->; [|apply char_at_es].
    apply (f_equal length) in E1. rewrite length_drop in E1. simpl in E1. lia.
  - by destruct (char_at_drop (S s) c rest E1).
Qed.

Lemma gt_not_single : bool_decide (c_gt ∈ [c_bar; c_lpar; c_rpar; c_semi; c_amp; c_lt]) = false.
Proof. reflexivity. Qed.

(** How [gettoken] classifies the character at [q]. *)
Lemma gettoken_at q x rest :
  (q <= es)%nat -> drop q line = chars x ++ rest -> lex_ok x -> delim x rest ->
  (if char_at b q =? 0 then (0, q)
   else if bool_decide (char_at b q ∈ [c_bar; c_lpar; c_rpar; c_semi; c_amp; c_lt])
   then (char_at b q, S q)
   else if char_at b q =? c_gt
   then if char_at b (S q) =? c_gt then (c_plus, S (S q)) else (c_gt, S q)
   else (c_word, skip_word b q (es - q))) = (ret_of x, (q + length (chars x))%nat).
Proof.
  intros Hq E Hx Hd. destruct (chars_first x rest q Hx E) as (Hlt & Hc & Hne). rewrite Hc.
  destruct (Z.eqb_spec (hd 0 (chars x)) 0) as [|_]; [done|].
  destruct x as [c| |w]; simpl in *.
  - rewrite Nat.add_1_r. destruct (decide (c = c_gt)) as [->|Hgt].
    + rewrite (char_after q _ _ E). rewrite gt_not_single.
      destruct (Z.eqb_spec (default 0 (head rest)) c_gt) as [Eh|]; [|done].
      exfalso. apply Hd; [done|]. destruct rest; [discriminate Eh|]. simpl in *. by subst.
    + rewrite bool_decide_true; [done|].
      change (c ∈ [60; 124; 62; 38; 59; 40; 41]) in Hx. rewrite !elem_of_cons, elem_of_nil in *.
      unfold c_gt, c_bar, c_lpar, c_rpar, c_semi, c_amp, c_lt in *. lia.
  - rewrite ?gt_not_single, (char_after q _ _ E). simpl. f_equal. lia.
  - destruct Hx as [Hwne Hw]. rewrite (skip_word_line q w rest) by done.
    destruct w as [|c w]; [done|]. simpl in *.
    apply Forall_cons in Hw as [(_ & _ & Hsym) _]. change (c ∉ [60; 124; 62; 38; 59; 40; 41]) in Hsym.
    rewrite !elem_of_cons, elem_of_nil in Hsym.
    rewrite bool_decide_false.
    2: { rewrite !elem_of_cons, elem_of_nil. unfold c_bar, c_lpar, c_rpar, c_semi, c_amp, c_lt. lia. }
    destruct (Z.eqb_spec c c_gt) as [->|_]; [|done]. unfold c_gt in *. lia.
Qed.

Lemma gettoken_text s x xs :
  at_pos s (x :: xs) ->
  let t := gettoken b es s in
  tk_ret t = ret_of x /\ at_pos (tk_next t) xs /\ (s < tk_next t)%nat /\
  (forall w, x = Word w -> span b (tk_q t, tk_eq t) w).
Proof.
  intros H. unfold gettoken. destruct (skip_space_text s (x :: xs) H) as ((Hq & _) & Hle & rest & E & Hx & Hd & Ht).
  set (q := skip_space b s (es - s)) in *. cbv zeta. rewrite (gettoken_at q x rest Hq E Hx Hd).
  destruct (drop_app_pos q _ _ Hq E) as [E1 Hle1]. cbn [tk_ret tk_next tk_q tk_eq].
  destruct (chars_first x rest q Hx E) as (Hlt & _).
  assert (Hpos : (0 < length (chars x))%nat) by (destruct x as [| |[|]]; simpl in *; [lia|lia|by destruct Hx|lia]).
  split_and!; [done| | |].
  - apply after_token; [done|]. by rewrite E1.
  - destruct (skip_space_text (q + length (chars x)) xs) as (_ & Hle2 & _); [|lia].
    split; [done|]. by rewrite E1.
  - intros w ->. by apply (word_span q w rest).
Qed.

(** ** Parsing *)

Lemma text_length xs l : text xs l -> (length xs <= length l)%nat.
Proof.
  induction 1 as [|x xs ws rest _ Hx _ _ IH]; simpl; [lia|]. rewrite !length_app.
  assert (0 < length (chars x))%nat by (destruct x as [| |[|]]; simpl in *; [lia|lia|by destruct Hx|lia]).
  lia.
Qed.

Lemma at_pos_length s xs : at_pos s xs -> (length xs <= es)%nat /\ (length xs < length b)%nat.
Proof.
  intros [H1 H2%text_length]. rewrite length_drop in H2. rewrite length_app. simpl. lia.
Qed.

(** The first lexeme of [xs], if any, is one of the symbols [cs]. *)
Definition starts (cs : list Z) (xs : list lexeme) : Prop :=
  match xs with [] => True | x :: _ => exists c, x = Sym c /\ c ∈ cs end.

Lemma starts_first_in cs toks xs :
  starts cs xs -> (forall c, c ∈ cs -> c ∉ toks) -> first_in toks xs = false.
Proof.
  destruct xs as [|x xs]; [done|]. intros (c & -> & Hc) H. simpl. apply bool_decide_false. auto.
Qed.

Lemma word_first w xs toks : lex_ok (Word w) -> (forall c, c ∈ toks -> c ∈ symbols) -> first_in toks (Word w :: xs) = false.
Proof.
  intros [Hne Hw] Ht. destruct w as [|c w]; [done|]. simpl. apply bool_decide_false. intros Hc.
  apply Forall_cons in Hw as [(_ & _ & Hw) _]. auto.
Qed.

Lemma at_pos_ok s xs x : at_pos s xs -> x ∈ xs -> lex_ok x.
Proof.
  intros [_ H] Hx. revert x Hx. apply Forall_forall.
  induction H; constructor; done.
Qed.

(** A parsed redirection stands for a redirection of the grammar. *)
Definition redir_repr (r : gredir) (d : redir) : Prop :=
  match r with
  | GIn f => span b (rd_file d, rd_efile d) f /\ rd_mode d = O_RDONLY /\ rd_fd d = 0
  | GOut f | GAppend f =>
      span b (rd_file d, rd_efile d) f /\ rd_mode d = Z.lor O_WRONLY O_CREATE /\ rd_fd d = 1
  end.

Lemma wrap_repr rs ds c a :
  Forall2 redir_repr rs ds -> repr b c a -> repr b (foldl redircmd c ds) (foldl ast_redir a rs).
Proof.
  intros H. revert c a. induction H as [|r d rs ds Hr _ IH]; intros c a Hc; [done|]. simpl.
  apply IH. destruct r; simpl in *; naive_solver.
Qed.

Definition is_redir_tok (x : lexeme) : Prop := x = Sym c_lt \/ x = Sym c_gt \/ x = App.

(** A lexeme that [peek(ps, es, "<>")] accepts, and the word after it. *)
Lemma redir_step s x w xs :
  at_pos s (x :: Word w :: xs) -> is_redir_tok x ->
  exists s1, peek b es s (str "<>") = (true, s1) /\
    let t := gettoken b es s1 in
    let f := gettoken b es (tk_next t) in
    tk_ret t = ret_of x /\ tk_ret f = c_word /\ span b (tk_q f, tk_eq f) w /\ at_pos (tk_next f) xs.
Proof.
  intros H Hx. destruct (peek_text s _ (str "<>") H) as (s1 & E1 & H1 & _).
  exists s1. split; [rewrite E1; f_equal; by destruct Hx as [->|[->| ->]]|].
  destruct (gettoken_text s1 x _ H1) as (T1 & H2 & _).
  destruct (gettoken_text _ _ _ H2) as (T2 & H3 & _ & Hw). cbv zeta. split_and!; auto.
Qed.

Lemma parseredirs_text rs : forall fuel s k,
  (length rs <= fuel)%nat -> at_pos s (toks_redirs rs ++ k) -> first_in (str "<>") k = false ->
  exists ds s', parseredirs fuel b es s = POk (ds, s') /\ at_pos s' k /\ Forall2 redir_repr rs ds.
Proof.
  induction rs as [|r rs IH]; intros fuel s k Hf H Hk.
  - destruct (peek_text s k (str "<>") H) as (s1 & E1 & H1 & _).
    exists [], s1. split_and!; [|done|constructor]. destruct fuel; cbn [parseredirs]; by rewrite E1, Hk.
  - destruct fuel as [|fuel]; [simpl in Hf; lia|]. cbn [parseredirs].
    assert (Hr : exists x f, toks_redir r = [x; Word f] /\ is_redir_tok x /\
      forall t g, tk_ret t = ret_of x -> span b (tk_q g, tk_eq g) f ->
        redir_repr r (if tk_ret t =? c_lt then Mkredir (tk_q g) (tk_eq g) O_RDONLY 0
           else Mkredir (tk_q g) (tk_eq g) (Z.lor O_WRONLY O_CREATE) 1)).
    { destruct r as [f|f|f]; simpl; [exists (Sym c_lt), f|exists (Sym c_gt), f|exists App, f];
        (split; [done|]; split; [unfold is_redir_tok; auto|]); intros t g -> Hsp; by simpl. }
    destruct Hr as (x & f & Er & Hx & Hrepr).
    change (toks_redirs (r :: rs)) with (toks_redir r ++ toks_redirs rs) in H. rewrite Er in H.
    destruct (redir_step s x f _ H Hx) as (s1 & E1 & T1 & T2 & Hsp & H2).
    rewrite E1. cbn [negb]. rewrite T2. cbn [negb Z.eqb].
    destruct (IH fuel _ k ltac:(simpl in Hf; lia) H2 Hk) as (ds & s2 & E2 & H3 & Hds).
    rewrite Z.eqb_refl. cbn [negb]. unfold mbind, presult_bind. rewrite E2.
    eexists _, s2. split_and!; [reflexivity|done|]. constructor; [|done]. by apply Hrepr.
Qed.

(** What ends a simple command, a pipeline and a list. *)
Definition exec_stop : list Z := [c_bar; c_rpar; c_amp; c_semi].
Definition pipe_stop : list Z := [c_rpar; c_amp; c_semi].
Definition line_stop : list Z := [c_rpar].

Ltac eval_str :=
  unfold symbols;
  repeat match goal with |- context [str ?s] => let l := eval vm_compute in (str s) in change (str s) with l end.

Ltac no_symbol :=
  let c := fresh "c" in intros c; unfold exec_stop, pipe_stop, line_stop; eval_str;
  rewrite ?elem_of_cons, ?elem_of_nil;
  unfold c_bar, c_lpar, c_rpar, c_semi, c_amp, c_lt, c_gt; lia.

Lemma starts_stop_true xs k :
  starts exec_stop (xs :: k) -> first_in (str "|)&;") (xs :: k) = true.
Proof.
  intros (c & -> & Hc). cbn [first_in chars hd]. apply bool_decide_true. revert c Hc. no_symbol.
Qed.

Lemma length_toks_redirs rs : (length rs <= length (toks_redirs rs))%nat.
Proof.
  induction rs as [|r rs IH]; [done|].
  change (toks_redirs (r :: rs)) with (toks_redir r ++ toks_redirs rs).
  rewrite length_app. destruct r; simpl; lia.
Qed.

Lemma parseargs_text args : forall fuel s k argc,
  (length args <= fuel)%nat -> (argc + length args < MAXARGS)%nat ->
  at_pos s (toks_args args ++ k) -> starts exec_stop k ->
  exists sp ds s', parseargs fuel b es s argc = POk (sp, ds, s') /\ at_pos s' k /\
    Forall2 (span b) sp (fst <$> args) /\ Forall2 redir_repr (concat (snd <$> args)) ds.
Proof.
  induction args as [|[w rs] args IH]; intros fuel s k argc Hf Ha H Hk.
  - destruct (peek_text s k (str "|)&;") H) as (s1 & E1 & H1 & _). destruct k as [|x k].
    + destruct (gettoken_end s1 H1) as [T1 H2].
      exists [], [], (tk_next (gettoken b es s1)). split_and!; [|done|constructor|constructor].
      destruct fuel; cbn [parseargs]; rewrite E1; cbn [first_in]; by rewrite T1.
    + exists [], [], s1. split_and!; [|done|constructor|constructor].
      destruct fuel; cbn [parseargs]; by rewrite E1, starts_stop_true.
  - destruct fuel as [|fuel]; [simpl in Hf; lia|]. cbn [parseargs].
    change (toks_args ((w, rs) :: args)) with (Word w :: toks_redirs rs ++ toks_args args) in H.
    cbn [app] in H. rewrite <- app_assoc in H.
    assert (Hw : lex_ok (Word w)) by (apply (at_pos_ok _ _ _ H); by left).
    destruct (peek_text s _ (str "|)&;") H) as (s1 & E1 & H1 & _). rewrite E1.
    rewrite word_first by (done || no_symbol).
    destruct (gettoken_text s1 _ _ H1) as (T1 & H2 & _ & Hsp). rewrite T1. cbn [ret_of].
    change (c_word =? 0) with false. rewrite Z.eqb_refl. cbn [negb].
    destruct (Nat.leb_spec MAXARGS (S argc)) as [|_]; [simpl in Ha; lia|].
    pose proof (at_pos_length _ _ H2) as [_ Hlen]. rewrite length_app in Hlen.
    pose proof (length_toks_redirs rs) as Hrs.
    assert (Hk' : first_in (str "<>") (toks_args args ++ k) = false).
    { destruct args as [|[w' rs'] args].
      - apply (starts_first_in _ _ _ Hk). no_symbol.
      - apply word_first; [|no_symbol]. apply (at_pos_ok _ _ _ H2). rewrite !elem_of_app.
        right. left. by left. }
    destruct (parseredirs_text rs (length b) _ _ ltac:(lia) H2 Hk') as (ds & s2 & E2 & H3 & Hds).
    unfold mbind, presult_bind. rewrite E2.
    destruct (IH fuel s2 k (S argc)) as (sp & ds' & s3 & E3 & H4 & Hsp' & Hds'); [simpl in *; lia..|done|done|].
    rewrite E3. eexists _, _, s3. split_and!; [reflexivity|done| |].
    + constructor; [by apply Hsp|done].
    + simpl. by apply Forall2_app.
Qed.

Lemma parsesimple_text rs args s k :
  at_pos s (toks_redirs rs ++ toks_args args ++ k) -> (length args < MAXARGS)%nat -> starts exec_stop k ->
  exists c s', parsesimple b es s = POk (c, s') /\ at_pos s' k /\
    repr b c (foldl ast_redir (Exec (fst <$> args)) (rs ++ concat (snd <$> args))).
Proof.
  intros H Ha Hk. unfold parsesimple.
  pose proof (at_pos_length _ _ H) as [Hlen _]. rewrite !length_app in Hlen.
  pose proof (length_toks_redirs rs) as Hrs.
  assert (Hargs : (length args <= length (toks_args args))%nat).
  { clear. induction args as [|a args IH]; [done|].
    change (toks_args (a :: args)) with (Word a.1 :: toks_redirs a.2 ++ toks_args args).
    simpl. rewrite length_app. lia. }
  assert (Hk' : first_in (str "<>") (toks_args args ++ k) = false).
  { destruct args as [|[w' rs'] args].
    - apply (starts_first_in _ _ _ Hk). no_symbol.
    - apply word_first; [|no_symbol]. apply (at_pos_ok _ _ _ H). rewrite !elem_of_app.
      right. left. by left. }
  destruct (parseredirs_text rs (length b) s _ ltac:(rewrite length_app; simpl; lia) H Hk') as (ds & s1 & E1 & H1 & Hds).
  destruct (parseargs_text args (length b) s1 k 0) as (sp & ds' & s2 & E2 & H2 & Hsp & Hds');
    [rewrite length_app; simpl; lia|simpl; lia|done|done|].
  unfold mbind, presult_bind. rewrite E1, E2. eexists _, s2. split_and!; [reflexivity|done|].
  apply wrap_repr; [by apply Forall2_app|done].
Qed.

Lemma parseback_text n : forall fuel s k c a,
  (n <= fuel)%nat -> at_pos s (replicate n (Sym c_amp) ++ k) -> first_in (str "&") k = false ->
  repr b c a ->
  exists c' s', parseback fuel b es s c = POk (c', s') /\ at_pos s' k /\ repr b c' (Nat.iter n Back a).
Proof.
  induction n as [|n IH]; intros fuel s k c a Hf H Hk Hc.
  - destruct (peek_text s k (str "&") H) as (s1 & E1 & H1 & _).
    exists c, s1. split_and!; [|done|done]. destruct fuel; cbn [parseback]; by rewrite E1, Hk.
  - destruct fuel as [|fuel]; [lia|]. cbn [parseback replicate app] in *.
    destruct (peek_text s _ (str "&") H) as (s1 & E1 & H1 & _). rewrite E1. cbn [first_in chars hd].
    change (strchr_in (str "&") c_amp) with true. cbn [negb].
    destruct (gettoken_text s1 _ _ H1) as (_ & H2 & _).
    destruct (IH fuel _ k (BACK c) (Back a) ltac:(lia) H2 Hk Hc) as (c' & s' & E & H3 & Hr).
    exists c', s'. split_and!; [done|done|]. by rewrite Nat.iter_succ_r.
Qed.

Definition line_ok (l : gline) : Prop :=
  few_args_line l -> forall fuel s k,
  (4 * length (toks_line l) + 3 <= fuel)%nat -> at_pos s (toks_line l ++ k) -> starts line_stop k ->
  exists c s', parseline fuel b es s = POk (c, s') /\ at_pos s' k /\ repr b c (ast_line l).

Definition pipe_ok (p : gpipe) : Prop :=
  few_args_pipe p -> forall fuel s k,
  (4 * length (toks_pipe p) + 2 <= fuel)%nat -> at_pos s (toks_pipe p ++ k) -> starts pipe_stop k ->
  exists c s', parsepipe fuel b es s = POk (c, s') /\ at_pos s' k /\ repr b c (ast_pipe p).

Definition exec_ok (e : gexec) : Prop :=
  few_args_exec e -> forall fuel s k,
  (4 * length (toks_exec e) + 1 <= fuel)%nat -> at_pos s (toks_exec e ++ k) -> starts exec_stop k ->
  exists c s', parseexec fuel b es s = POk (c, s') /\ at_pos s' k /\ repr b c (ast_exec e).

(** A symbol that [peek] was asked about is taken by [gettoken]. *)
Lemma take_symbol s c k toks :
  at_pos s (Sym c :: k) -> c ∈ toks ->
  exists s1, peek b es s toks = (true, s1) /\ at_pos (tk_next (gettoken b es s1)) k.
Proof.
  intros H Hc. destruct (peek_text s _ toks H) as (s1 & E1 & H1 & _). exists s1. split.
  - rewrite E1. f_equal. by apply bool_decide_true.
  - by apply (gettoken_text s1 (Sym c) k).
Qed.

Lemma no_token s k cs toks :
  at_pos s k -> starts cs k -> (forall c, c ∈ cs -> c ∉ toks) ->
  exists s1, peek b es s toks = (false, s1) /\ at_pos s1 k.
Proof.
  intros H Hk Hc. destruct (peek_text s _ toks H) as (s1 & E1 & H1 & _). exists s1.
  by rewrite E1, (starts_first_in cs).
Qed.

Lemma starts_weaken cs cs' k : starts cs k -> (forall c, c ∈ cs -> c ∈ cs') -> starts cs' k.
Proof. destruct k as [|x k]; [done|]. intros (c & -> & Hc) H. exists c. auto. Qed.

Lemma starts_amps n k cs : starts cs k -> c_amp ∈ cs -> starts cs (replicate n (Sym c_amp) ++ k).
Proof. destruct n; [done|]. intros _ H. by exists c_amp. Qed.

(** The first two steps of [parseline]. *)
Lemma line_start fuel s p n k :
  pipe_ok p -> few_args_pipe p -> (4 * length (toks_pipe p) + 2 <= fuel)%nat ->
  at_pos s (toks_pipe p ++ replicate n (Sym c_amp) ++ k) ->
  starts pipe_stop k -> first_in (str "&") k = false ->
  exists c s1 c' s2, parsepipe fuel b es s = POk (c, s1) /\
    parseback (length b) b es s1 c = POk (c', s2) /\ at_pos s2 k /\
    repr b c' (Nat.iter n Back (ast_pipe p)).
Proof.
  intros Hp Ha Hf H Hk Hk'. destruct (Hp Ha fuel s (replicate n (Sym c_amp) ++ k)) as (c & s1 & E1 & H1 & R1);
    [done|done|apply starts_amps; [done|by right; left]|].
  destruct (at_pos_length _ _ H1) as [Hlen _]. rewrite length_app, length_replicate in Hlen.
  destruct (parseback_text n (length b) s1 k c _ ltac:(rewrite length_app; lia) H1 Hk' R1) as (c' & s2 & E2 & H2 & R2).
  by exists c, s1, c', s2.
Qed.

Lemma gend_ok p n : pipe_ok p -> line_ok (GEnd p n).
Proof.
  intros Hp Ha fuel s k Hf H Hk. destruct fuel as [|fuel]; [lia|]. cbn [toks_line] in *.
  rewrite <- app_assoc in H. rewrite length_app in Hf.
  assert (Hk2 : starts pipe_stop k) by (apply (starts_weaken _ _ _ Hk); no_symbol).
  destruct (line_start fuel s p n k Hp Ha ltac:(lia) H Hk2) as (c & s1 & c' & s2 & E1 & E2 & H2 & R2).
  { apply (starts_first_in _ _ _ Hk). no_symbol. }
  cbn [parseline]. unfold mbind, presult_bind. rewrite E1, E2.
  destruct (no_token s2 k _ (str ";") H2 Hk) as (s3 & E3 & H3); [no_symbol|]. rewrite E3.
  by exists c', s3.
Qed.

Lemma gseq_ok p n l : pipe_ok p -> line_ok l -> line_ok (GSeq p n l).
Proof.
  intros Hp Hl [Ha1 Ha2] fuel s k Hf H Hk. destruct fuel as [|fuel]; [lia|]. cbn [toks_line] in *.
  rewrite <- !app_assoc in H. rewrite !length_app in Hf. cbn [length app] in *.
  assert (Hk2 : starts pipe_stop (Sym c_semi :: toks_line l ++ k)) by (exists c_semi; split; [done|by right; right; left]).
  destruct (line_start fuel s p n _ Hp Ha1 ltac:(lia) H Hk2) as (c & s1 & c' & s2 & E1 & E2 & H2 & R2); [done|].
  cbn [parseline]. unfold mbind, presult_bind. rewrite E1, E2.
  destruct (take_symbol s2 _ _ (str ";") H2) as (s3 & E3 & H3); [by left|]. rewrite E3. cbn [negb].
  destruct (Hl Ha2 fuel _ k ltac:(lia) H3 Hk) as (c2 & s4 & E4 & H4 & R4). rewrite E4.
  by exists (LIST c' c2), s4.
Qed.

Lemma gone_ok e : exec_ok e -> pipe_ok (GOne e).
Proof.
  intros He Ha fuel s k Hf H Hk. destruct fuel as [|fuel]; [lia|]. cbn [toks_pipe] in *.
  destruct (He Ha fuel s k ltac:(lia) H) as (c & s1 & E1 & H1 & R1).
  { apply (starts_weaken _ _ _ Hk). no_symbol. }
  cbn [parsepipe]. unfold mbind, presult_bind. rewrite E1.
  destruct (no_token s1 k _ (str "|") H1 Hk) as (s2 & E2 & H2); [no_symbol|]. rewrite E2.
  by exists c, s2.
Qed.

Lemma gbar_ok e p : exec_ok e -> pipe_ok p -> pipe_ok (GBar e p).
Proof.
  intros He Hp [Ha1 Ha2] fuel s k Hf H Hk. destruct fuel as [|fuel]; [lia|]. cbn [toks_pipe] in *.
  rewrite <- app_assoc in H. rewrite length_app in Hf. cbn [length app] in *.
  destruct (He Ha1 fuel s _ ltac:(lia) H) as (c & s1 & E1 & H1 & R1).
  { exists c_bar. split; [done|by left]. }
  cbn [parsepipe]. unfold mbind, presult_bind. rewrite E1.
  destruct (take_symbol s1 _ _ (str "|") H1) as (s2 & E2 & H2); [by left|]. rewrite E2. cbn [negb].
  destruct (Hp Ha2 fuel _ k ltac:(lia) H2 Hk) as (c2 & s3 & E3 & H3 & R3). rewrite E3.
  by exists (PIPE c c2), s3.
Qed.

Lemma simple_no_paren s rs args k :
  at_pos s (toks_redirs rs ++ toks_args args ++ k) -> starts exec_stop k ->
  first_in (str "(") (toks_redirs rs ++ toks_args args ++ k) = false.
Proof.
  intros H Hk. destruct rs as [|[]]; [|done..]. destruct args as [|[w rs] args].
  - apply (starts_first_in _ _ _ Hk). no_symbol.
  - apply word_first; [|no_symbol]. apply (at_pos_ok _ _ _ H). by left.
Qed.

Lemma gsimple_ok rs args : exec_ok (GSimple rs args).
Proof.
  intros Ha fuel s k Hf H Hk. destruct fuel as [|fuel]; [lia|]. cbn [toks_exec] in H.
  rewrite <- app_assoc in H. cbn [parseexec].
  destruct (peek_text s _ (str "(") H) as (s1 & E1 & H1 & _). rewrite E1.
  rewrite (simple_no_paren s) by done. by apply parsesimple_text.
Qed.

Lemma gblock_ok l rs : line_ok l -> exec_ok (GBlock l rs).
Proof.
  intros Hl Ha fuel s k Hf H Hk. cbn [toks_exec] in *. cbn [length app] in *.
  rewrite <- app_assoc in H. rewrite length_app in Hf. cbn [length app] in *.
  destruct fuel as [|[|fuel]]; [lia..|]. cbn [parseexec].
  destruct (take_symbol s _ _ (str "(") H) as (s1 & E1 & _); [by left|]. rewrite E1.
  destruct (peek_text s _ (str "(") H) as (s1' & E1' & H1 & _). assert (s1' = s1) as -> by congruence.
  cbn [parseblock].
  destruct (take_symbol s1 _ _ (str "(") H1) as (s2 & E2 & H2); [by left|]. rewrite E2. cbn [negb].
  destruct (Hl Ha fuel _ (Sym c_rpar :: toks_redirs rs ++ k) ltac:(lia) H2) as (c & s3 & E3 & H3 & R3).
  { exists c_rpar. split; [done|by left]. }
  unfold mbind, presult_bind. rewrite E3.
  destruct (take_symbol s3 _ _ (str ")") H3) as (s4 & E4 & H4); [by left|]. rewrite E4. cbn [negb].
  destruct (at_pos_length _ _ H4) as [Hlen _]. rewrite length_app in Hlen.
  pose proof (length_toks_redirs rs) as Hrs.
  destruct (parseredirs_text rs (length b) _ k ltac:(rewrite length_app; lia) H4) as (ds & s5 & E5 & H5 & Hds).
  { apply (starts_first_in _ _ _ Hk). no_symbol. }
  rewrite E5. eexists _, s5. split_and!; [reflexivity|done|]. by apply wrap_repr.
Qed.

Lemma grammar_ok : (forall l, line_ok l) /\ (forall p, pipe_ok p) /\ (forall e, exec_ok e).
Proof.
  apply grammar_ind; intros; auto using gend_ok, gseq_ok, gone_ok, gbar_ok, gsimple_ok, gblock_ok.
Qed.

Lemma c_string_line : c_string b = line.
Proof.
  rewrite (c_string_take es).
  - by rewrite take_app_length.
  - intros j c Hj Hc. rewrite lookup_app_l in Hc by done. by eapply (Forall_lookup_1 _ _ _ _ Hnz).
  - by rewrite list_lookup_middle.
Qed.
End line.

(** C36: parsing inverts printing.  Any spelling of a command of the shell's
    grammar, with any white space around its lexemes and at most nine arguments
    in each simple command, is accepted by [parsecmd], which neither runs out
    of the model's recursion bounds nor reports an error; and the command that
    [runcmd] then finds in the NUL-terminated buffer is the one that was
    spelled: the same pipelines, lists, background marks and redirections in
    the same order, with the same strings. *)
Theorem parsecmd_correct l line tail :
  text (toks_line l) line -> Forall (fun c => c <> 0) line -> few_args_line l ->
  exists c b', parsecmd (line ++ 0 :: tail) = POk (c, b') /\ denote b' c = ast_line l.
Proof.
  intros Ht Hnz Ha. unfold parsecmd. rewrite c_string_line by done.
  pose proof (text_length _ _ Ht) as Hlen.
  destruct (proj1 (grammar_ok line tail Hnz) l Ha (parse_fuel (length line)) 0%nat []) as (c & s & E & H & R).
  { unfold parse_fuel. lia. }
  { split; [lia|]. by rewrite app_nil_r, drop_0. }
  { done. }
  unfold mbind, presult_bind. rewrite E.
  destruct (skip_space_text line tail s [] H) as (_ & _ & Hs). unfold peek. rewrite Hs, Nat.eqb_refl.
  eexists _, _. split; [reflexivity|]. by apply repr_nulterminate.
Qed.

(** [echo hi >out|(cat ; wc<in) &] *)
Definition example_line : gline :=
  GEnd (GBar (GSimple [] [(str "echo", []); (str "hi", [GOut (str "out")])])
       (GOne (GBlock (GSeq (GOne (GSimple [] [(str "cat", [])])) 0
               (GEnd (GOne (GSimple [] [(str "wc", [GIn (str "in")])])) 0)) []))) 1.

#[export] Instance word_char_dec c : Decision (word_char c).
Proof. unfold word_char. apply _. Defined.

#[export] Instance lex_ok_dec x : Decision (lex_ok x).
Proof. destruct x; simpl; apply _. Defined.

(** Proves that a closed string spells a closed list of lexemes. *)
Ltac spell_here ws x xs l :=
  let rest := eval vm_compute in (drop (length (chars x)) l) in
  change (text (x :: xs) (ws ++ chars x ++ rest)); apply text_cons;
  [repeat constructor
  |apply (bool_decide_unpack _); vm_compute; exact I
  |simpl; intros; simplify_eq; try discriminate;
   try (apply (bool_decide_unpack (~ _)); vm_compute; exact I)
  |].

Ltac spell :=
  lazymatch goal with
  | |- text [] _ => constructor; repeat constructor
  | |- text (?x :: ?xs) (32 :: ?l) => spell_here (32 :: @nil Z) x xs l
  | |- text (?x :: ?xs) ?l => spell_here (@nil Z) x xs l
  end.

Lemma parsecmd_correct_witness :
  exists c b', parsecmd (str "echo hi >out|(cat ; wc<in) &" ++ 0 :: []) = POk (c, b') /\
    denote b' c = ast_line example_line.
Proof.
  apply parsecmd_correct.
  - let l := eval vm_compute in (str "echo hi >out|(cat ; wc<in) &") in change (str _) with l.
    let t := eval vm_compute in (toks_line example_line) in change (toks_line example_line) with t.
    repeat spell.
  - apply (bool_decide_unpack _). vm_compute. exact I.
  - simpl. unfold MAXARGS. lia.
Defined.

(** ** Termination on every line *)

Lemma c_string_char b s :
  ((s < length (c_string b))%nat -> char_at b s <> 0) /\ char_at b (length (c_string b)) = 0.
Proof.
  unfold char_at. revert s; induction b as [|c b IH]; intros s; simpl; [split; [lia|done]|].
  destruct (Z.eqb_spec c 0) as [->|Hc]; simpl; [split; [lia|done]|].
  destruct s as [|s]; simpl; [split; [done|apply (IH 0%nat)]|]. destruct (IH s) as [H1 H2].
  split; [|done]. intros. apply H1. lia.
Qed.

(** The pointers of a parsed command: its words are spans of the line, not
    empty and before its end [es], and an [argv] has room for its terminator. *)
Definition in_line (es : nat) (w : nat * nat) : Prop := (w.1 < w.2 <= es)%nat.

Fixpoint cmd_in_line (es : nat) (c : cmd) : Prop :=
  match c with
  | EXEC args => Forall (in_line es) args /\ (length args < MAXARGS)%nat
  | REDIR c q eq _ _ => cmd_in_line es c /\ in_line es (q, eq)
  | PIPE c d | LIST c d => cmd_in_line es c /\ cmd_in_line es d
  | BACK c => cmd_in_line es c
  end.

(** What [parsecmd] makes of a line: a command inside the line and the line with
    some NULs, an error, or a place in the line where the input is left over. *)
Definition parse_safe (b : list Z) (r : presult (cmd * list Z)) : Prop :=
  match r with
  | POk (c, b') => cmd_in_line (length (c_string b)) c /\ length b' = length b
  | PErr _ => True
  | PLeft s => (s < length (c_string b))%nat
  | PFuel => False
  end.

Section progress.
Context (b : list Z).

Abbreviation es := (length (c_string b)).

Lemma char_at_nz s : (s <= es)%nat -> char_at b s <> 0 -> (s < es)%nat.
Proof. intros H1 H2. destruct (decide (s = es)) as [->|]; [|lia]. by destruct (c_string_char b 0). Qed.

Lemma skip_space_range s : (s <= es)%nat ->
  let s' := skip_space b s (es - s) in (s <= s' <= es)%nat /\
    (s' < es -> strchr_in whitespace (char_at b s') = false)%nat.
Proof.
  intros H. cbv zeta. remember (es - s)%nat as n eqn:En. revert s H En.
  induction n as [|n IH]; intros s H En; simpl; [lia|].
  destruct (strchr_in whitespace (char_at b s)) eqn:Ec; [|split; [lia|done]].
  destruct (IH (S s)) as [H1 H2]; [lia..|]. split; [lia|done].
Qed.

Lemma skip_word_range s : (s <= es)%nat -> (s <= skip_word b s (es - s) <= es)%nat.
Proof.
  intros H. remember (es - s)%nat as n eqn:En. revert s H En.
  induction n as [|n IH]; intros s H En; simpl; [lia|].
  destruct (_ && _); [|lia]. specialize (IH (S s)). lia.
Qed.

Lemma peek_range s toks yes s' :
  (s <= es)%nat -> peek b es s toks = (yes, s') ->
  (s <= s' <= es)%nat /\ (yes = true -> (s' < es)%nat /\ strchr_in toks (char_at b s') = true).
Proof.
  intros H E. destruct (skip_space_range s H) as [H1 _]. unfold peek in E.
  injection E as <- <-. split; [done|].
  intros [Hc Ht]%andb_prop. split; [|done]. apply char_at_nz; [lia|].
  by destruct (Z.eqb_spec (char_at b (skip_space b s (es - s))) 0).
Qed.

(** [gettoken] makes progress unless the line has ended. *)
Lemma gettoken_range s :
  (s <= es)%nat ->
  let t := gettoken b es s in
  (s <= tk_next t <= es)%nat /\ (tk_ret t <> 0 -> (s < tk_next t)%nat) /\
  (tk_ret t = 0 -> char_at b (skip_space b s (es - s)) = 0) /\
  (tk_ret t = c_word -> in_line es (tk_q t, tk_eq t)).
Proof.
  intros H. destruct (skip_space_range s H) as [H1 H2]. unfold gettoken, in_line.
  set (q := skip_space b s (es - s)) in *. cbv zeta.
  assert (Hnext : forall eq, (q <= eq <= es)%nat -> (eq <= skip_space b eq (es - eq) <= es)%nat)
    by (intros eq Heq; apply (skip_space_range eq); lia).
  destruct (Z.eqb_spec (char_at b q) 0) as [Hc|Hc]; cbn [tk_ret tk_next tk_q tk_eq fst snd].
  { specialize (Hnext q). split_and!; (lia || (intros; lia || congruence || done)). }
  assert (Hq : (q < es)%nat) by (apply char_at_nz; [lia|done]).
  destruct (bool_decide (char_at b q ∈ _)) eqn:E1; cbn [tk_ret tk_next tk_q tk_eq fst snd].
  { specialize (Hnext (S q)). split_and!; try (intros; lia || congruence || done). }
  destruct (Z.eqb_spec (char_at b q) c_gt) as [Egt|Egt].
  - destruct (Z.eqb_spec (char_at b (S q)) c_gt) as [E2|E2]; cbn [tk_ret tk_next tk_q tk_eq fst snd].
    + assert (S q < es)%nat by (apply char_at_nz; [lia|rewrite E2; done]).
      specialize (Hnext (S (S q))). split_and!; (lia || (intros; lia || congruence || done)).
    + specialize (Hnext (S q)). split_and!; (lia || (intros; lia || congruence || done)).
  - cbn [tk_ret tk_next tk_q tk_eq fst snd]. pose proof (skip_word_range q ltac:(lia)) as Hw.
    assert (Hlt : (q < skip_word b q (es - q))%nat).
    { replace (es - q)%nat with (S (es - S q)) by lia. cbn [skip_word].
      rewrite (H2 Hq). destruct (strchr_in symbols (char_at b q)) eqn:Es; cbn [negb andb].
      - exfalso. apply bool_decide_eq_true in Es. apply bool_decide_eq_false in E1.
        change (char_at b q ∈ [60; 124; 62; 38; 59; 40; 41]) in Es.
        rewrite !elem_of_cons, elem_of_nil in *.
        unfold c_gt, c_bar, c_lpar, c_rpar, c_semi, c_amp, c_lt in *. lia.
      - pose proof (skip_word_range (S q) ltac:(lia)). lia. }
    specialize (Hnext (skip_word b q (es - q))). split_and!; (lia || (intros; lia || congruence || done)).
Qed.

(** A symbol that [peek] has seen. *)
Lemma peek_gettoken s toks s' :
  (s <= es)%nat -> peek b es s toks = (true, s') ->
  (s < tk_next (gettoken b es s') <= es)%nat.
Proof.
  intros H E. destruct (peek_range _ _ _ _ H E) as [H1 H2]. destruct (H2 eq_refl) as [H3 _].
  destruct (gettoken_range s' ltac:(lia)) as (H4 & H5 & H6 & _).
  destruct (decide (tk_ret (gettoken b es s') = 0)) as [E0|]; [|lia]. exfalso.
  specialize (H6 E0). destruct (skip_space_range s H) as [_ Hw].
  assert (Es : s' = skip_space b s (es - s)) by (unfold peek in E; congruence).
  rewrite <- Es in Hw. specialize (Hw H3).
  replace (es - s')%nat with (S (es - S s')) in H6 by lia. cbn [skip_space] in H6. rewrite Hw in H6.
  by apply (c_string_char b s').
Qed.

(** The result of a parsing function that starts at [s]. *)
Definition proper {A} (s : nat) (ok : A -> Prop) (r : presult (A * nat)) : Prop :=
  match r with
  | POk (a, s') => (s <= s' <= es)%nat /\ ok a
  | PErr _ => True
  | PLeft _ | PFuel => False
  end.

Lemma proper_bind {A B} s (ok : A -> Prop) (ok' : B -> Prop) (m : presult (A * nat)) f :
  proper s ok m ->
  (forall a s', (s <= s' <= es)%nat -> ok a -> proper s ok' (f (a, s'))) ->
  proper s ok' (m ≫= f).
Proof. intros Hm Hf. destruct m as [[a s']| | |]; simpl in *; [apply Hf; tauto|done..]. Qed.

Lemma proper_le {A} s s' (ok : A -> Prop) r : (s <= s')%nat -> proper s' ok r -> proper s ok r.
Proof. intros H. destruct r as [[]| | |]; simpl; [intros []; split; [lia|done]|done..]. Qed.

Abbreviation redirs_ok := (Forall (fun r => in_line es (rd_file r, rd_efile r))).

Lemma redirs_in_line c rs : cmd_in_line es c -> redirs_ok rs -> cmd_in_line es (foldl redircmd c rs).
Proof.
  revert c; induction rs as [|r rs IH]; intros c Hc Hr; [done|].
  inversion_clear Hr. by apply IH.
Qed.

Lemma parseredirs_proper fuel s :
  (s <= es)%nat -> (es - s <= fuel)%nat -> proper s redirs_ok (parseredirs fuel b es s).
Proof.
  revert s; induction fuel as [|fuel IH]; intros s Hs Hf; cbn [parseredirs];
    destruct (peek b es s (str "<>")) as [yes s1] eqn:E1;
    destruct (peek_range _ _ _ _ Hs E1) as [H1 H2]; destruct yes; cbn [negb];
    try (split; [lia|constructor]).
  all: pose proof (peek_gettoken _ _ _ Hs E1) as H3;
    destruct (gettoken_range (tk_next (gettoken b es s1)) ltac:(lia)) as (H4 & H5 & _ & H6);
    destruct (Z.eqb_spec (tk_ret (gettoken b es (tk_next (gettoken b es s1)))) c_word) as [Ew|];
    cbn [negb]; [|done].
  - rewrite Ew in H5. specialize (H5 ltac:(done)). lia.
  - specialize (IH _ (proj2 H4) ltac:(lia)). eapply proper_bind; [eapply proper_le, IH; lia|].
    intros rs s2 Hs2 Hrs. split; [lia|]. constructor; [|done]. specialize (H6 Ew).
    by destruct (_ =? c_lt).
Qed.

Lemma parseargs_proper fuel s argc :
  (s <= es)%nat -> (es - s <= fuel)%nat -> (es <= length b)%nat -> (argc < MAXARGS)%nat ->
  proper s (fun a => (Forall (in_line es) a.1 /\ (argc + length a.1 < MAXARGS)%nat) /\ redirs_ok a.2)
    (parseargs fuel b es s argc).
Proof.
  intros Hs Hf Hb Ha. revert s argc Hs Hf Ha; induction fuel as [|fuel IH]; intros s argc Hs Hf Ha; cbn [parseargs];
    destruct (peek b es s (str "|)&;")) as [yes s1] eqn:E1;
    destruct (peek_range _ _ _ _ Hs E1) as [H1 H2]; destruct yes;
    try (split_and!; [lia..|constructor|simpl; lia|constructor]);
    destruct (gettoken_range s1 ltac:(lia)) as (H3 & H4 & _ & H5);
    (destruct (Z.eqb_spec (tk_ret (gettoken b es s1)) 0) as [E0|E0];
      [split_and!; [lia..|constructor|simpl; lia|constructor]|]);
    (destruct (Z.eqb_spec (tk_ret (gettoken b es s1)) c_word) as [Ew|]; cbn [negb]; [|done]);
    specialize (H4 E0); (destruct (Nat.leb_spec MAXARGS (S argc)); [done|]); [lia|].
  apply (proper_le s (tk_next (gettoken b es s1))); [lia|].
  eapply proper_bind; [apply parseredirs_proper; lia|]. intros rs s2 Hs2 Hrs.
  eapply proper_bind; [eapply proper_le, IH; lia|]. intros [args rs'] s3 Hs3 [[Hw Hl] Hrs'].
  split; [lia|]. split; [split; [|simpl in *; lia]|by apply Forall_app].
  constructor; [by apply H5|done].
Qed.

Lemma parsesimple_proper s :
  (s <= es)%nat -> (es <= length b)%nat -> proper s (cmd_in_line es) (parsesimple b es s).
Proof.
  intros Hs Hb. eapply proper_bind; [apply parseredirs_proper; lia|]. intros rs s1 Hs1 Hrs.
  eapply proper_bind; [eapply proper_le, parseargs_proper; unfold MAXARGS; lia|].
  intros [args rs'] s2 Hs2 [Ha Hrs']. split; [lia|].
  apply redirs_in_line; [done|by apply Forall_app].
Qed.

Lemma parseback_proper fuel s c :
  (s <= es)%nat -> (es - s <= fuel)%nat -> cmd_in_line es c ->
  proper s (cmd_in_line es) (parseback fuel b es s c).
Proof.
  revert s c; induction fuel as [|fuel IH]; intros s c Hs Hf Hc; cbn [parseback];
    destruct (peek b es s (str "&")) as [yes s1] eqn:E1;
    destruct (peek_range _ _ _ _ Hs E1) as [H1 H2]; destruct yes; cbn [negb];
    try (by split; [lia|]).
  - lia.
  - pose proof (peek_gettoken _ _ _ Hs E1). eapply proper_le, IH; [lia..|done].
Qed.

(** The four functions, with enough fuel for what is left of the line. *)
Definition parsers_proper (n : nat) : Prop := forall s, (s <= es)%nat ->
  ((4 * (es - s) + 3 <= n)%nat -> proper s (cmd_in_line es) (parseline n b es s)) /\
  ((4 * (es - s) + 2 <= n)%nat -> proper s (cmd_in_line es) (parsepipe n b es s)) /\
  ((4 * (es - s) + 1 <= n)%nat -> proper s (cmd_in_line es) (parseexec n b es s)) /\
  ((4 * (es - s) <= n)%nat -> (s < es)%nat -> proper s (cmd_in_line es) (parseblock n b es s)).

Lemma parseline_proper n s :
  (es <= length b)%nat -> parsers_proper n -> (s <= es)%nat -> (4 * (es - s) + 3 <= S n)%nat ->
  proper s (cmd_in_line es) (parseline (S n) b es s).
Proof.
  intros Hb IH Hs Hn. cbn [parseline].
  eapply proper_bind; [apply (IH s Hs); lia|]. intros c s1 Hs1 Hc.
  eapply proper_bind; [eapply proper_le, parseback_proper; [lia..|done]|]. intros c' s2 Hs2 Hc'.
  destruct (peek b es s2 (str ";")) as [yes s3] eqn:E3.
  destruct (peek_range s2 _ _ _ ltac:(lia) E3) as [H3 _].
  destruct yes; cbn [negb]; [|by split; [lia|]].
  pose proof (peek_gettoken s2 _ _ ltac:(lia) E3) as H4.
  eapply proper_bind; [eapply proper_le, IH; lia|]. intros d s4 Hs4 Hd. by split; [lia|].
Qed.

Lemma parsepipe_proper n s :
  parsers_proper n -> (s <= es)%nat -> (4 * (es - s) + 2 <= S n)%nat ->
  proper s (cmd_in_line es) (parsepipe (S n) b es s).
Proof.
  intros IH Hs Hn. cbn [parsepipe].
  eapply proper_bind; [apply (IH s Hs); lia|]. intros c s1 Hs1 Hc.
  destruct (peek b es s1 (str "|")) as [yes s2] eqn:E2.
  destruct (peek_range s1 _ _ _ ltac:(lia) E2) as [H2 _].
  destruct yes; cbn [negb]; [|by split; [lia|]].
  pose proof (peek_gettoken s1 _ _ ltac:(lia) E2) as H3.
  eapply proper_bind; [eapply proper_le, IH; lia|]. intros d s4 Hs4 Hd. by split; [lia|].
Qed.

Lemma parseexec_proper n s :
  (es <= length b)%nat -> parsers_proper n -> (s <= es)%nat -> (4 * (es - s) + 1 <= S n)%nat ->
  proper s (cmd_in_line es) (parseexec (S n) b es s).
Proof.
  intros Hb IH Hs Hn. cbn [parseexec].
  destruct (peek b es s (str "(")) as [yes s1] eqn:E1.
  destruct (peek_range s _ _ _ Hs E1) as [H1 H2].
  apply (proper_le s s1); [lia|]. destruct yes; [|apply parsesimple_proper; lia].
  destruct (H2 eq_refl). apply IH; lia.
Qed.

Lemma parseblock_proper n s :
  (es <= length b)%nat -> parsers_proper n -> (s < es)%nat -> (4 * (es - s) <= S n)%nat ->
  proper s (cmd_in_line es) (parseblock (S n) b es s).
Proof.
  intros Hb IH Hs Hn. cbn [parseblock].
  destruct (peek b es s (str "(")) as [yes s1] eqn:E1. destruct yes; cbn [negb]; [|done].
  pose proof (peek_gettoken s _ _ ltac:(lia) E1) as H1.
  eapply proper_bind; [eapply proper_le, IH; lia|]. intros c s2 Hs2 Hc.
  destruct (peek b es s2 (str ")")) as [yes s3] eqn:E3. destruct yes; cbn [negb]; [|done].
  pose proof (peek_gettoken s2 _ _ ltac:(lia) E3) as H3.
  eapply proper_bind; [eapply proper_le, parseredirs_proper; lia|]. intros rs s4 Hs4 Hrs.
  split; [lia|]. by apply redirs_in_line.
Qed.

Lemma parsers_proper_all n : (es <= length b)%nat -> parsers_proper n.
Proof.
  intros Hb. induction n as [|n IH]; intros s Hs; [split_and!; lia|].
  split_and!; intros Hn; [by apply parseline_proper|by apply parsepipe_proper|by apply parseexec_proper|].
  intros Hlt. by apply parseblock_proper.
Qed.
End progress.

Lemma c_string_length b : (length (c_string b) <= length b)%nat.
Proof. induction b as [|c b IH]; simpl; [lia|]. destruct (c =? 0); simpl; lia. Qed.

Lemma length_nulterminate c b : length (nulterminate c b) = length b.
Proof.
  revert b; induction c as [args| | | |]; intros b; simpl;
    rewrite ?length_insert; try congruence.
  revert b; induction args as [|a args IH]; intros b; [done|]. simpl. by rewrite IH, length_insert.
Qed.

(** C37: the parser is total and memory safe.  On every line, well formed or not,
    [parsecmd] returns a command or reports an error: its recursive calls and
    loops consume input.  Every word of the command it returns is a nonempty
    span inside the line, so that the NULs of [nulterminate] are stored inside
    the buffer, and no [argv] overflows. *)
Theorem parsecmd_total b : parse_safe b (parsecmd b).
Proof.
  unfold parsecmd. set (n := length (c_string b)).
  pose proof (proj1 (parsers_proper_all b (parse_fuel n) (c_string_length b) 0%nat ltac:(lia))
    ltac:(unfold parse_fuel, n; lia)) as H. fold n in H.
  destruct (parseline _ b n 0) as [[c s]| | |]; simpl in H; try done.
  unfold mbind, presult_bind. destruct (peek b n s []) as [yes s'] eqn:E.
  destruct (peek_range b s [] yes s' (proj2 (proj1 H)) E) as [H1 _]. fold n in H1.
  destruct (Nat.eqb_spec s' n) as [_|Hne]; simpl; fold n; [|lia].
  split; [apply H|apply length_nulterminate].
Qed.
