(* ===== verification/Usertests.v ===== *)
(** usertests.c: the tests of the system calls, as programs.

    A test is a tree of system calls.  The global array [buf] is passed to the
    tests that use it, which return it as they leave it.  A loop over an
    interval is [for_in] or [for_do], one that ends on what it meets is [loop],
    with a bound on its turns.  Memory that a test reads before it has written
    it is an argument of the test. *)
From S2P Require Import Prelude Memory Kernel CString Spinlock Console Bytes Grep Ulib Umalloc Utils.

(** ** Loops and calls *)

(** [for(x in l) a = body(x, a);] *)
Fixpoint for_in {X A} (l : list X) (body : X -> A -> prog A) (a : A) : prog A :=
  match l with
  | [] => mret a
  | x :: l' => a' ← body x a; for_in l' body a'
  end.

Definition for_do {X} (l : list X) (body : X -> prog unit) : prog unit :=
  for_in l (fun x _ => body x) tt.

(** A loop that [body] continues with [inl] and ends with [inr]. *)
Fixpoint loop {A B} (fuel : nat) (body : A -> prog (A + B)) (a : A) : prog B :=
  match fuel with
  | O => Again
  | S fuel' =>
      r ← body a;
      match r with
      | inl a' => loop fuel' body a'
      | inr b => mret b
      end
  end.

(** The string with a newline. *)
Fixpoint ln (s : string) : string :=
  match s with
  | EmptyString => String (Ascii.ascii_of_nat 10) EmptyString
  | String c s' => String c (ln s')
  end.

(** [if(b){ printf(1, fmt, ap); exit(); }] *)
Definition fail_if (b : bool) (fmt : string) (ap : list carg) : prog unit :=
  if b then printf 1 fmt ap;; Exit else mret tt.

Definition O_RDONLY : Z := 0.
Definition O_WRONLY : Z := 1.
Definition O_RDWR : Z := 2.
Definition O_CREATE : Z := 512.

Definition open (path : list Z) (mode : Z) : prog Z := sys (Sopen path mode).
Definition close (fd : Z) : prog Z := sys (Sclose fd).
Definition mkdir (path : string) : prog Z := sys (Smkdir (str path)).
Definition chdir (path : string) : prog Z := sys (Schdir (str path)).
Definition unlink (path : list Z) : prog Z := sys (Sunlink path).
Definition link (old new : list Z) : prog Z := sys (Slink old new).
Definition write (fd : Z) (l : list Z) : prog Z := sys (Swrite fd l).

(** [read(fd, buf, n)]: the result and the buffer. *)
Definition read (fd : Z) (buf : list Z) (n : Z) : prog (Z * list Z) :=
  '(r, l) ← sys_bytes (Sread fd n);
  mret (r, splice buf 0 (take (Z.to_nat r) l)).

(** [memset(buf, c, n)] *)
Definition fill (buf : list Z) (c n : Z) : list Z := splice buf 0 (replicate (Z.to_nat n) (u8 c)).

Definition stdout : Z := 1.
Definition BUFSZ : Z := 8192.

(** ** Directories in transactions *)

Definition iputtest : prog unit :=
  printf stdout (ln "iput test") [];;
  r ← mkdir "iputdir"; fail_if (r <? 0) (ln "mkdir failed") [];;
  r ← chdir "iputdir"; fail_if (r <? 0) (ln "chdir iputdir failed") [];;
  r ← unlink (str "../iputdir"); fail_if (r <? 0) (ln "unlink ../iputdir failed") [];;
  r ← chdir "/"; fail_if (r <? 0) (ln "chdir / failed") [];;
  printf stdout (ln "iput test ok") [].

Definition exitiputtest : prog unit :=
  printf stdout (ln "exitiput test") [];;
  pid ← sys SforkMedium;
  fail_if (pid <? 0) (ln "fork failed") [];;
  if pid =? 0 then
    r ← mkdir "iputdir"; fail_if (r <? 0) (ln "mkdir failed") [];;
    r ← chdir "iputdir"; fail_if (r <? 0) (ln "child chdir failed") [];;
    r ← unlink (str "../iputdir"); fail_if (r <? 0) (ln "unlink ../iputdir failed") [];;
    Exit
  else
  sys Swait;;
  printf stdout (ln "exitiput test ok") [].

Definition openiputtest : prog unit :=
  printf stdout (ln "openiput test") [];;
  r ← mkdir "oidir"; fail_if (r <? 0) (ln "mkdir oidir failed") [];;
  pid ← sys SforkMedium;
  fail_if (pid <? 0) (ln "fork failed") [];;
  if pid =? 0 then
    fd ← open (str "oidir") O_RDWR;
    fail_if (0 <=? fd) (ln "open directory for write succeeded") [];;
    Exit
  else
  sys (Ssleep 1);;
  r ← unlink (str "oidir"); fail_if (negb (r =? 0)) (ln "unlink failed") [];;
  sys Swait;;
  printf stdout (ln "openiput test ok") [].

(** ** Simple file system tests *)

Definition opentest : prog unit :=
  printf stdout (ln "open test") [];;
  fd ← open (str "echo") 0;
  fail_if (fd <? 0) (ln "open echo failed!") [];;
  close fd;;
  fd ← open (str "doesnotexist") 0;
  fail_if (0 <=? fd) (ln "open doesnotexist succeeded!") [];;
  printf stdout (ln "open test ok") [].

Definition writetest (buf : list Z) : prog (list Z) :=
  printf stdout (ln "small file test") [];;
  fd ← open (str "small") (Z.lor O_CREATE O_RDWR);
  (if 0 <=? fd then printf stdout (ln "creat small succeeded; ok") []
   else printf stdout (ln "error: creat small failed!") [];; Exit);;
  for_do (seqZ 0 100) (fun i =>
    r ← write fd (str "aaaaaaaaaa");
    fail_if (negb (r =? 10)) (ln "error: write aa %d new file failed") [AInt i];;
    r ← write fd (str "bbbbbbbbbb");
    fail_if (negb (r =? 10)) (ln "error: write bb %d new file failed") [AInt i]);;
  printf stdout (ln "writes ok") [];;
  close fd;;
  fd ← open (str "small") O_RDONLY;
  (if 0 <=? fd then printf stdout (ln "open small succeeded ok") []
   else printf stdout (ln "error: open small failed!") [];; Exit);;
  '(i, buf) ← read fd buf 2000;
  (if i =? 2000 then printf stdout (ln "read succeeded ok") []
   else printf stdout (ln "read failed") [];; Exit);;
  close fd;;
  r ← unlink (str "small"); fail_if (r <? 0) (ln "unlink small failed") [];;
  printf stdout (ln "small file test ok") [];;
  mret buf.

Definition writetest1 (fuel : nat) (buf : list Z) : prog (list Z) :=
  printf stdout (ln "big files test") [];;
  fd ← open (str "big") (Z.lor O_CREATE O_RDWR);
  fail_if (fd <? 0) (ln "error: creat big failed!") [];;
  buf ← for_in (seqZ 0 MAXFILE) (fun i buf =>
    let buf := put32 buf 0 i in
    r ← write fd (take 512 buf);
    fail_if (negb (r =? 512)) (ln "error: write big file failed") [AInt i];;
    mret buf) buf;
  close fd;;
  fd ← open (str "big") O_RDONLY;
  fail_if (fd <? 0) (ln "error: open big failed!") [];;
  buf ← loop fuel (fun '(n, buf) =>
    '(i, buf) ← read fd buf 512;
    if i =? 0 then
      fail_if (n =? MAXFILE - 1) "read only %d blocks from big" [AInt n];;
      mret (inr buf)
    else
    fail_if (negb (i =? 512)) (ln "read failed %d") [AInt i];;
    fail_if (negb (i32 (get32 buf 0) =? n)) (ln "read content of block %d is %d")
      [AInt n; AInt (i32 (get32 buf 0))];;
    mret (inl (n + 1, buf))) (0, buf);
  close fd;;
  r ← unlink (str "big"); fail_if (r <? 0) (ln "unlink big failed") [];;
  printf stdout (ln "big files ok") [];;
  mret buf.

Definition createtest : prog unit :=
  printf stdout (ln "many creates, followed by unlink test") [];;
  for_do (seqZ 0 52) (fun i =>
    fd ← open [97; 48 + i] (Z.lor O_CREATE O_RDWR);
    close fd;; mret tt);;
  for_do (seqZ 0 52) (fun i => unlink [97; 48 + i];; mret tt);;
  printf stdout (ln "many creates, followed by unlink; ok") [].

Definition dirtest : prog unit :=
  printf stdout (ln "mkdir test") [];;
  r ← mkdir "dir0"; fail_if (r <? 0) (ln "mkdir failed") [];;
  r ← chdir "dir0"; fail_if (r <? 0) (ln "chdir dir0 failed") [];;
  r ← chdir ".."; fail_if (r <? 0) (ln "chdir .. failed") [];;
  r ← unlink (str "dir0"); fail_if (r <? 0) (ln "unlink dir0 failed") [];;
  printf stdout (ln "mkdir test ok") [].

Definition echoargv : list (list Z) := str <$> ["echo"; "ALL"; "TESTS"; "PASSED"].

Definition exectest : prog unit :=
  printf stdout (ln "exec test") [];;
  r ← sys (Sexec (str "echo") echoargv);
  fail_if (r <? 0) (ln "exec echo failed") [].

(** ** Processes and pipes *)

(** [pipe(fds)]: the result and the two descriptors. *)
Definition pipe : prog (Z * (Z * Z)) :=
  '(r, l) ← sys_bytes Spipe;
  mret (r, (i32 (get32 l 0), i32 (get32 l 4))).

(** The child of [pipe1]. *)
Definition pipe1_child (fd : Z) (buf : list Z) : prog unit :=
  for_in (seqZ 0 5) (fun _ '(seq, buf) =>
    let buf := splice buf 0 (u8 <$> seqZ seq 1033) in
    r ← write fd (take 1033 buf);
    fail_if (negb (r =? 1033)) (ln "pipe1 oops 1") [];;
    mret (seq + 1033, buf)) (0, buf);;
  Exit.

(** [for(i = 0; i < n; i++) if((buf[i] & 0xff) != (seq++ & 0xff))] on the [n]
    bytes of [l]: the new [seq], or none where the test succeeds. *)
Fixpoint in_sequence (l : list Z) (seq : Z) : option Z :=
  match l with
  | [] => Some seq
  | c :: l' => if Z.land c 255 =? Z.land seq 255 then in_sequence l' (seq + 1) else None
  end.

(** The reading loop of the parent: the total, or none for [oops 2], and the
    buffer. *)
Definition pipe1_read (fuel : nat) (fd : Z) (buf : list Z) : prog (option Z * list Z) :=
  loop fuel (fun '(seq, total, cc, buf) =>
    '(n, buf) ← read fd buf cc;
    if 0 <? n then
      match in_sequence (take (Z.to_nat n) buf) seq with
      | Some seq =>
          let cc := cc * 2 in
          mret (inl (seq, total + n, (if BUFSZ <? cc then BUFSZ else cc), buf))
      | None => printf 1 (ln "pipe1 oops 2") [];; mret (inr (None, buf))
      end
    else mret (inr (Some total, buf))) (0, 0, 1, buf).

Definition pipe1 (fuel : nat) (buf : list Z) : prog (list Z) :=
  '(r, (fd0, fd1)) ← pipe;
  fail_if (negb (r =? 0)) (ln "pipe() failed") [];;
  pid ← sys SforkMedium;
  if pid =? 0 then
    close fd0;;
    pipe1_child fd1 buf;;
    Exit
  else if 0 <? pid then
    close fd1;;
    '(total, buf) ← pipe1_read fuel fd0 buf;
    match total with
    | None => mret buf
    | Some total =>
        fail_if (negb (total =? 5 * 1033)) (ln "pipe1 oops 3 total %d") [AInt total];;
        close fd0;;
        sys Swait;;
        printf 1 (ln "pipe1 ok") [];;
        mret buf
    end
  else printf 1 (ln "forkMedium() failed") [];; Exit.

(** [for(;;);] is [Again]: it makes no call and never ends. *)
Definition preempt (buf : list Z) : prog (list Z) :=
  printf 1 "preempt: " [];;
  pid1 ← sys SforkMedium;
  if pid1 =? 0 then Again else
  pid2 ← sys SforkMedium;
  if pid2 =? 0 then Again else
  '(_, (fd0, fd1)) ← pipe;
  pid3 ← sys SforkMedium;
  if pid3 =? 0 then
    close fd0;;
    r ← write fd1 (str "x");
    (if negb (r =? 1) then printf 1 "preempt write error" [] else mret tt);;
    close fd1;;
    Again
  else
  close fd1;;
  '(n, buf) ← read fd0 buf BUFSZ;
  if negb (n =? 1) then printf 1 "preempt read error" [];; mret buf else
  close fd0;;
  printf 1 "kill... " [];;
  sys (Skill pid1);; sys (Skill pid2);; sys (Skill pid3);;
  printf 1 "wait... " [];;
  sys Swait;; sys Swait;; sys Swait;;
  printf 1 (ln "preempt ok") [];;
  mret buf.

Definition exitwait : prog unit :=
  ok ← loop 101 (fun i =>
    if 100 <=? i then mret (inr true) else
    pid ← sys SforkMedium;
    if pid <? 0 then printf 1 (ln "fork failed") [];; mret (inr false) else
    if negb (pid =? 0) then
      r ← sys Swait;
      if negb (r =? pid) then printf 1 (ln "wait wrong pid") [];; mret (inr false)
      else mret (inl (i + 1))
    else Exit) 0;
  if ok : bool then printf 1 (ln "exitwait ok") [] else mret tt.

(** [h] is the heap at the start, [base] the address of umalloc.c's [base]. *)
Definition mem (base : Z) (fuel : nat) (h : heap) : prog unit :=
  printf 1 (ln "mem test") [];;
  ppid ← sys Sgetpid;
  pid ← sys SforkMedium;
  if pid =? 0 then
    '(m1, h) ← loop fuel (fun '(m1, h) =>
      '(m2, h) ← malloc base fuel 10001 h;
      if m2 =? 0 then mret (inr (m1, h))
      else mret (inl (m2, Mkheap (store32 (h_mem h) m2 m1) (h_freep h)))) (0, h);
    h ← loop fuel (fun '(m1, h) =>
      if m1 =? 0 then mret (inr h) else
      let m2 := load32 (h_mem h) m1 in
      h ← free fuel m1 h;
      mret (inl (m2, h))) (m1, h);
    '(m1, h) ← malloc base fuel (1024 * 20) h;
    if m1 =? 0 then
      printf 1 (ln "couldn't allocate mem?!!") [];;
      sys (Skill ppid);;
      Exit
    else
    free fuel m1 h;;
    printf 1 (ln "mem ok") [];;
    Exit
  else sys Swait;; mret tt.

(** ** More file system tests *)

(** The loop of [sharedfd] that counts the characters of the file. *)
Definition sharedfd_count (fuel : nat) (fd : Z) (buf : list Z) : prog (Z * Z) :=
  loop fuel (fun '(nc, np, buf) =>
    '(n, buf) ← read fd buf 10;
    if 0 <? n then
      let count c := Z.of_nat (length (base.filter (fun x => x = c) buf)) in
      mret (inl (nc + count 99, np + count 112, buf))
    else mret (inr (nc, np))) (0, 0, buf).

Definition sharedfd (fuel : nat) : prog unit :=
  printf 1 (ln "sharedfd test") [];;
  unlink (str "sharedfd");;
  fd ← open (str "sharedfd") (Z.lor O_CREATE O_RDWR);
  if fd <? 0 then printf 1 "fstests: cannot open sharedfd for writing" [] else
  pid ← sys SforkMedium;
  let buf := replicate 10 (if pid =? 0 then 99 else 112) in
  loop 1001 (fun i =>
    if 1000 <=? i then mret (inr tt) else
    r ← write fd buf;
    if negb (r =? 10) then printf 1 (ln "fstests: write sharedfd failed") [];; mret (inr tt)
    else mret (inl (i + 1))) 0;;
  if pid =? 0 then Exit else
  sys Swait;;
  close fd;;
  fd ← open (str "sharedfd") 0;
  if fd <? 0 then printf 1 (ln "fstests: cannot open sharedfd for reading") [] else
  '(nc, np) ← sharedfd_count fuel fd buf;
  close fd;;
  unlink (str "sharedfd");;
  if (nc =? 10000) && (np =? 10000) then printf 1 (ln "sharedfd ok") []
  else printf 1 (ln "sharedfd oops %d %d") [AInt nc; AInt np];; Exit.

Definition fourfiles (fuel : nat) (buf : list Z) : prog (list Z) :=
  let names := str <$> ["f0"; "f1"; "f2"; "f3"] in
  printf 1 (ln "fourfiles test") [];;
  for_do (seqZ 0 4) (fun pi =>
    let fname := nth_arg names (Z.to_nat pi) in
    unlink fname;;
    pid ← sys SforkMedium;
    fail_if (pid <? 0) (ln "fork failed") [];;
    if pid =? 0 then
      fd ← open fname (Z.lor O_CREATE O_RDWR);
      fail_if (fd <? 0) (ln "create failed") [];;
      let buf := fill buf (48 + pi) 512 in
      for_do (seqZ 0 12) (fun _ =>
        n ← write fd (take 500 buf);
        fail_if (negb (n =? 500)) (ln "write failed %d") [AInt n]);;
      Exit
    else mret tt);;
  for_do (seqZ 0 4) (fun _ => sys Swait;; mret tt);;
  buf ← for_in (seqZ 0 2) (fun i buf =>
    let fname := nth_arg names (Z.to_nat i) in
    fd ← open fname 0;
    '(total, buf) ← loop fuel (fun '(total, buf) =>
      '(n, buf) ← read fd buf BUFSZ;
      if 0 <? n then
        fail_if (existsb (fun c => negb (i8 c =? 48 + i)) (take (Z.to_nat n) buf)) (ln "wrong char") [];;
        mret (inl (total + n, buf))
      else mret (inr (total, buf))) (0, buf);
    close fd;;
    fail_if (negb (total =? 12 * 500)) (ln "wrong length %d") [AInt total];;
    unlink fname;;
    mret buf) buf;
  printf 1 (ln "fourfiles ok") [];;
  mret buf.

(** The name of two characters that the tests make. *)
Definition name2 (c d : Z) : list Z := [u8 c; u8 d].

Definition createdelete_child (pi : Z) : prog unit :=
  for_do (seqZ 0 20) (fun i =>
    fd ← open (name2 (112 + pi) (48 + i)) (Z.lor O_CREATE O_RDWR);
    fail_if (fd <? 0) (ln "create failed") [];;
    close fd;;
    if (0 <? i) && (i mod 2 =? 0) then
      r ← unlink (name2 (112 + pi) (48 + i / 2));
      fail_if (r <? 0) (ln "unlink failed") []
    else mret tt);;
  Exit.

Definition createdelete : prog unit :=
  printf 1 (ln "createdelete test") [];;
  for_do (seqZ 0 4) (fun pi =>
    pid ← sys SforkMedium;
    fail_if (pid <? 0) (ln "fork failed") [];;
    if pid =? 0 then createdelete_child pi else mret tt);;
  for_do (seqZ 0 4) (fun _ => sys Swait;; mret tt);;
  for_do (seqZ 0 20) (fun i => for_do (seqZ 0 4) (fun pi =>
    let name := name2 (112 + pi) (48 + i) in
    fd ← open name 0;
    (if ((i =? 0) || (20 / 2 <=? i)) && (fd <? 0) then
       printf 1 (ln "oops createdelete %s didn't exist") [AStr (Some name)];; Exit
     else if ((1 <=? i) && (i <? 20 / 2)) && (0 <=? fd) then
       printf 1 (ln "oops createdelete %s did exist") [AStr (Some name)];; Exit
     else mret tt);;
    if 0 <=? fd then close fd;; mret tt else mret tt));;
  for_do (seqZ 0 20) (fun i => for_do (seqZ 0 4) (fun _ =>
    unlink (name2 (112 + i) (48 + i));; mret tt));;
  printf 1 (ln "createdelete ok") [].

Definition unlinkread (buf : list Z) : prog (list Z) :=
  printf 1 (ln "unlinkread test") [];;
  fd ← open (str "unlinkread") (Z.lor O_CREATE O_RDWR);
  fail_if (fd <? 0) (ln "create unlinkread failed") [];;
  write fd (str "hello");;
  close fd;;
  fd ← open (str "unlinkread") O_RDWR;
  fail_if (fd <? 0) (ln "open unlinkread failed") [];;
  r ← unlink (str "unlinkread"); fail_if (negb (r =? 0)) (ln "unlink unlinkread failed") [];;
  fd1 ← open (str "unlinkread") (Z.lor O_CREATE O_RDWR);
  write fd1 (str "yyy");;
  close fd1;;
  '(n, buf) ← read fd buf BUFSZ;
  fail_if (negb (n =? 5)) "unlinkread read failed" [];;
  fail_if (negb (get8 buf 0 =? 104)) (ln "unlinkread wrong data") [];;
  r ← write fd (take 10 buf);
  fail_if (negb (r =? 10)) (ln "unlinkread write failed") [];;
  close fd;;
  unlink (str "unlinkread");;
  printf 1 (ln "unlinkread ok") [];;
  mret buf.

Definition linktest (buf : list Z) : prog (list Z) :=
  printf 1 (ln "linktest") [];;
  unlink (str "lf1");;
  unlink (str "lf2");;
  fd ← open (str "lf1") (Z.lor O_CREATE O_RDWR);
  fail_if (fd <? 0) (ln "create lf1 failed") [];;
  r ← write fd (str "hello"); fail_if (negb (r =? 5)) (ln "write lf1 failed") [];;
  close fd;;
  r ← link (str "lf1") (str "lf2"); fail_if (r <? 0) (ln "link lf1 lf2 failed") [];;
  unlink (str "lf1");;
  r ← open (str "lf1") 0; fail_if (0 <=? r) (ln "unlinked lf1 but it is still there!") [];;
  fd ← open (str "lf2") 0; fail_if (fd <? 0) (ln "open lf2 failed") [];;
  '(n, buf) ← read fd buf BUFSZ; fail_if (negb (n =? 5)) (ln "read lf2 failed") [];;
  close fd;;
  r ← link (str "lf2") (str "lf2"); fail_if (0 <=? r) (ln "link lf2 lf2 succeeded! oops") [];;
  unlink (str "lf2");;
  r ← link (str "lf2") (str "lf1"); fail_if (0 <=? r) (ln "link non-existant succeeded! oops") [];;
  r ← link (str ".") (str "lf1"); fail_if (0 <=? r) (ln "link . lf1 succeeded! oops") [];;
  printf 1 (ln "linktest ok") [];;
  mret buf.

(** The first loop of [concreate], which creates or links the files. *)
Definition concreate_make (i : Z) : prog unit :=
  let file := name2 67 (48 + i) in
  unlink file;;
  pid ← sys SforkMedium;
  (if negb (pid =? 0) && (i mod 3 =? 1) then link (str "C0") file;; mret tt
   else if (pid =? 0) && (i mod 5 =? 1) then link (str "C0") file;; mret tt
   else
     fd ← open file (Z.lor O_CREATE O_RDWR);
     fail_if (fd <? 0) (ln "concreate create %s failed") [AStr (Some file)];;
     close fd;; mret tt);;
  if pid =? 0 then Exit else sys Swait;; mret tt.

(** The loop over the entries of the directory: [fa] says which files have been
    seen, [n] how many; [de] is the entry, its inode number and its name. *)
Definition concreate_list (fuel : nat) (fd : Z) (de : list Z) : prog Z :=
  loop fuel (fun '(fa, n, de) =>
    '(r, de) ← read fd de 16;
    if negb (0 <? r) then mret (inr n) else
    if get16 de 0 =? 0 then mret (inl (fa, n, de)) else
    if (get8 de 2 =? 67) && (get8 de 4 =? 0) then
      let i := i8 (get8 de 3) - 48 in
      let name := c_string (drop 2 de) in
      fail_if ((i <? 0) || (40 <=? i)) (ln "concreate weird file %s") [AStr (Some name)];;
      fail_if (c_true (get8 fa (Z.to_nat i))) (ln "concreate duplicate file %s") [AStr (Some name)];;
      mret (inl (put8 fa (Z.to_nat i) 1, n + 1, de))
    else mret (inl (fa, n, de))) (replicate 40 0, 0, de).

(** The last loop, which opens or removes the files. *)
Definition concreate_use (i : Z) : prog unit :=
  let file := name2 67 (48 + i) in
  pid ← sys SforkMedium;
  fail_if (pid <? 0) (ln "fork failed") [];;
  (if ((i mod 3 =? 0) && (pid =? 0)) || ((i mod 3 =? 1) && negb (pid =? 0)) then
     for_do (seqZ 0 4) (fun _ => fd ← open file 0; close fd;; mret tt)
   else for_do (seqZ 0 4) (fun _ => unlink file;; mret tt));;
  if pid =? 0 then Exit else sys Swait;; mret tt.

Definition concreate (fuel : nat) (de : list Z) : prog unit :=
  printf 1 (ln "concreate test") [];;
  for_do (seqZ 0 40) concreate_make;;
  fd ← open (str ".") 0;
  n ← concreate_list fuel fd de;
  close fd;;
  fail_if (negb (n =? 40)) (ln "concreate not enough files in directory listing") [];;
  for_do (seqZ 0 40) concreate_use;;
  printf 1 (ln "concreate ok") [].

Definition linkunlink : prog unit :=
  printf 1 (ln "linkunlink test") [];;
  unlink (str "x");;
  pid ← sys SforkMedium;
  fail_if (pid <? 0) (ln "fork failed") [];;
  for_in (seqZ 0 100) (fun _ x =>
    let x := u32 (x * 1103515245 + 12345) in
    (if x mod 3 =? 0 then fd ← open (str "x") (Z.lor O_RDWR O_CREATE); close fd
     else if x mod 3 =? 1 then link (str "cat") (str "x")
     else unlink (str "x"));;
    mret x) (if negb (pid =? 0) then 1 else 97);;
  if negb (pid =? 0) then sys Swait;; printf 1 (ln "linkunlink ok") [] else Exit.

Definition bigdir : prog unit :=
  let name i := [120; u8 (48 + i / 64); u8 (48 + i mod 64)] in
  printf 1 (ln "bigdir test") [];;
  unlink (str "bd");;
  fd ← open (str "bd") O_CREATE;
  fail_if (fd <? 0) (ln "bigdir create failed") [];;
  close fd;;
  for_do (seqZ 0 500) (fun i =>
    r ← link (str "bd") (name i); fail_if (negb (r =? 0)) (ln "bigdir link failed") []);;
  unlink (str "bd");;
  for_do (seqZ 0 500) (fun i =>
    r ← unlink (name i); fail_if (negb (r =? 0)) "bigdir unlink failed" []);;
  printf 1 (ln "bigdir ok") [].

Definition subdir (buf : list Z) : prog (list Z) :=
  printf 1 (ln "subdir test") [];;
  unlink (str "ff");;
  r ← mkdir "dd"; fail_if (negb (r =? 0)) (ln "subdir mkdir dd failed") [];;
  fd ← open (str "dd/ff") (Z.lor O_CREATE O_RDWR); fail_if (fd <? 0) (ln "create dd/ff failed") [];;
  write fd (str "ff");;
  close fd;;
  r ← unlink (str "dd"); fail_if (0 <=? r) (ln "unlink dd (non-empty dir) succeeded!") [];;
  r ← mkdir "/dd/dd"; fail_if (negb (r =? 0)) (ln "subdir mkdir dd/dd failed") [];;
  fd ← open (str "dd/dd/ff") (Z.lor O_CREATE O_RDWR); fail_if (fd <? 0) (ln "create dd/dd/ff failed") [];;
  write fd (str "FF");;
  close fd;;
  fd ← open (str "dd/dd/../ff") 0; fail_if (fd <? 0) (ln "open dd/dd/../ff failed") [];;
  '(cc, buf) ← read fd buf BUFSZ;
  fail_if (negb (cc =? 2) || negb (get8 buf 0 =? 102)) (ln "dd/dd/../ff wrong content") [];;
  close fd;;
  r ← link (str "dd/dd/ff") (str "dd/dd/ffff");
  fail_if (negb (r =? 0)) (ln "link dd/dd/ff dd/dd/ffff failed") [];;
  r ← unlink (str "dd/dd/ff"); fail_if (negb (r =? 0)) (ln "unlink dd/dd/ff failed") [];;
  r ← open (str "dd/dd/ff") O_RDONLY; fail_if (0 <=? r) (ln "open (unlinked) dd/dd/ff succeeded") [];;
  r ← chdir "dd"; fail_if (negb (r =? 0)) (ln "chdir dd failed") [];;
  r ← chdir "dd/../../dd"; fail_if (negb (r =? 0)) (ln "chdir dd/../../dd failed") [];;
  r ← chdir "dd/../../../dd"; fail_if (negb (r =? 0)) (ln "chdir dd/../../dd failed") [];;
  r ← chdir "./.."; fail_if (negb (r =? 0)) (ln "chdir ./.. failed") [];;
  fd ← open (str "dd/dd/ffff") 0; fail_if (fd <? 0) (ln "open dd/dd/ffff failed") [];;
  '(n, buf) ← read fd buf BUFSZ; fail_if (negb (n =? 2)) (ln "read dd/dd/ffff wrong len") [];;
  close fd;;
  r ← open (str "dd/dd/ff") O_RDONLY; fail_if (0 <=? r) (ln "open (unlinked) dd/dd/ff succeeded!") [];;
  r ← open (str "dd/ff/ff") (Z.lor O_CREATE O_RDWR); fail_if (0 <=? r) (ln "create dd/ff/ff succeeded!") [];;
  r ← open (str "dd/xx/ff") (Z.lor O_CREATE O_RDWR); fail_if (0 <=? r) (ln "create dd/xx/ff succeeded!") [];;
  r ← open (str "dd") O_CREATE; fail_if (0 <=? r) (ln "create dd succeeded!") [];;
  r ← open (str "dd") O_RDWR; fail_if (0 <=? r) (ln "open dd rdwr succeeded!") [];;
  r ← open (str "dd") O_WRONLY; fail_if (0 <=? r) (ln "open dd wronly succeeded!") [];;
  r ← link (str "dd/ff/ff") (str "dd/dd/xx"); fail_if (r =? 0) (ln "link dd/ff/ff dd/dd/xx succeeded!") [];;
  r ← link (str "dd/xx/ff") (str "dd/dd/xx"); fail_if (r =? 0) (ln "link dd/xx/ff dd/dd/xx succeeded!") [];;
  r ← link (str "dd/ff") (str "dd/dd/ffff"); fail_if (r =? 0) (ln "link dd/ff dd/dd/ffff succeeded!") [];;
  r ← mkdir "dd/ff/ff"; fail_if (r =? 0) (ln "mkdir dd/ff/ff succeeded!") [];;
  r ← mkdir "dd/xx/ff"; fail_if (r =? 0) (ln "mkdir dd/xx/ff succeeded!") [];;
  r ← mkdir "dd/dd/ffff"; fail_if (r =? 0) (ln "mkdir dd/dd/ffff succeeded!") [];;
  r ← unlink (str "dd/xx/ff"); fail_if (r =? 0) (ln "unlink dd/xx/ff succeeded!") [];;
  r ← unlink (str "dd/ff/ff"); fail_if (r =? 0) (ln "unlink dd/ff/ff succeeded!") [];;
  r ← chdir "dd/ff"; fail_if (r =? 0) (ln "chdir dd/ff succeeded!") [];;
  r ← chdir "dd/xx"; fail_if (r =? 0) (ln "chdir dd/xx succeeded!") [];;
  r ← unlink (str "dd/dd/ffff"); fail_if (negb (r =? 0)) (ln "unlink dd/dd/ff failed") [];;
  r ← unlink (str "dd/ff"); fail_if (negb (r =? 0)) (ln "unlink dd/ff failed") [];;
  r ← unlink (str "dd"); fail_if (r =? 0) (ln "unlink non-empty dd succeeded!") [];;
  r ← unlink (str "dd/dd"); fail_if (r <? 0) (ln "unlink dd/dd failed") [];;
  r ← unlink (str "dd"); fail_if (r <? 0) (ln "unlink dd failed") [];;
  printf 1 (ln "subdir ok") [];;
  mret buf.

(** [for(sz = 499; sz < 12*512; sz += 471)] makes twelve turns. *)
Definition bigwrite (buf : list Z) : prog unit :=
  printf 1 (ln "bigwrite test") [];;
  unlink (str "bigwrite");;
  loop 13 (fun sz =>
    if 12 * 512 <=? sz then mret (inr tt) else
    fd ← open (str "bigwrite") (Z.lor O_CREATE O_RDWR);
    fail_if (fd <? 0) (ln "cannot create bigwrite") [];;
    for_do (seqZ 0 2) (fun _ =>
      cc ← write fd (take (Z.to_nat sz) buf);
      fail_if (negb (cc =? sz)) (ln "write(%d) ret %d") [AInt sz; AInt cc]);;
    close fd;;
    unlink (str "bigwrite");;
    mret (inl (sz + 471))) 499;;
  printf 1 (ln "bigwrite ok") [].

Definition bigfile (fuel : nat) (buf : list Z) : prog (list Z) :=
  printf 1 (ln "bigfile test") [];;
  unlink (str "bigfile");;
  fd ← open (str "bigfile") (Z.lor O_CREATE O_RDWR);
  fail_if (fd <? 0) "cannot create bigfile" [];;
  buf ← for_in (seqZ 0 20) (fun i buf =>
    let buf := fill buf i 600 in
    r ← write fd (take 600 buf);
    fail_if (negb (r =? 600)) (ln "write bigfile failed") [];;
    mret buf) buf;
  close fd;;
  fd ← open (str "bigfile") 0;
  fail_if (fd <? 0) (ln "cannot open bigfile") [];;
  '(total, buf) ← loop fuel (fun '(i, total, buf) =>
    '(cc, buf) ← read fd buf 300;
    fail_if (cc <? 0) (ln "read bigfile failed") [];;
    if cc =? 0 then mret (inr (total, buf)) else
    fail_if (negb (cc =? 300)) (ln "short read bigfile") [];;
    fail_if (negb (i8 (get8 buf 0) =? i / 2) || negb (i8 (get8 buf 299) =? i / 2))
      (ln "read bigfile wrong data") [];;
    mret (inl (i + 1, total + cc, buf))) (0, 0, buf);
  close fd;;
  fail_if (negb (total =? 20 * 600)) (ln "read bigfile wrong total") [];;
  unlink (str "bigfile");;
  printf 1 (ln "bigfile test ok") [];;
  mret buf.

Definition fourteen : prog unit :=
  printf 1 (ln "fourteen test") [];;
  r ← mkdir "12345678901234"; fail_if (negb (r =? 0)) (ln "mkdir 12345678901234 failed") [];;
  r ← mkdir "12345678901234/123456789012345";
  fail_if (negb (r =? 0)) (ln "mkdir 12345678901234/123456789012345 failed") [];;
  fd ← open (str "123456789012345/123456789012345/123456789012345") O_CREATE;
  fail_if (fd <? 0) (ln "create 123456789012345/123456789012345/123456789012345 failed") [];;
  close fd;;
  fd ← open (str "12345678901234/12345678901234/12345678901234") 0;
  fail_if (fd <? 0) (ln "open 12345678901234/12345678901234/12345678901234 failed") [];;
  close fd;;
  r ← mkdir "12345678901234/12345678901234";
  fail_if (r =? 0) (ln "mkdir 12345678901234/12345678901234 succeeded!") [];;
  r ← mkdir "123456789012345/12345678901234";
  fail_if (r =? 0) (ln "mkdir 12345678901234/123456789012345 succeeded!") [];;
  printf 1 (ln "fourteen ok") [].

Definition rmdot : prog unit :=
  printf 1 (ln "rmdot test") [];;
  r ← mkdir "dots"; fail_if (negb (r =? 0)) (ln "mkdir dots failed") [];;
  r ← chdir "dots"; fail_if (negb (r =? 0)) (ln "chdir dots failed") [];;
  r ← unlink (str "."); fail_if (r =? 0) (ln "rm . worked!") [];;
  r ← unlink (str ".."); fail_if (r =? 0) (ln "rm .. worked!") [];;
  r ← chdir "/"; fail_if (negb (r =? 0)) (ln "chdir / failed") [];;
  r ← unlink (str "dots/."); fail_if (r =? 0) (ln "unlink dots/. worked!") [];;
  r ← unlink (str "dots/.."); fail_if (r =? 0) (ln "unlink dots/.. worked!") [];;
  r ← unlink (str "dots"); fail_if (negb (r =? 0)) (ln "unlink dots failed!") [];;
  printf 1 (ln "rmdot ok") [].

Definition dirfile : prog unit :=
  printf 1 (ln "dir vs file") [];;
  fd ← open (str "dirfile") O_CREATE; fail_if (fd <? 0) (ln "create dirfile failed") [];;
  close fd;;
  r ← chdir "dirfile"; fail_if (r =? 0) (ln "chdir dirfile succeeded!") [];;
  fd ← open (str "dirfile/xx") 0; fail_if (0 <=? fd) (ln "create dirfile/xx succeeded!") [];;
  fd ← open (str "dirfile/xx") O_CREATE; fail_if (0 <=? fd) (ln "create dirfile/xx succeeded!") [];;
  r ← mkdir "dirfile/xx"; fail_if (r =? 0) (ln "mkdir dirfile/xx succeeded!") [];;
  r ← unlink (str "dirfile/xx"); fail_if (r =? 0) (ln "unlink dirfile/xx succeeded!") [];;
  r ← link (str "README") (str "dirfile/xx"); fail_if (r =? 0) (ln "link to dirfile/xx succeeded!") [];;
  r ← unlink (str "dirfile"); fail_if (negb (r =? 0)) (ln "unlink dirfile failed!") [];;
  fd ← open (str ".") O_RDWR; fail_if (0 <=? fd) (ln "open . for writing succeeded!") [];;
  fd ← open (str ".") 0;
  r ← write fd (str "x"); fail_if (0 <? r) (ln "write . succeeded!") [];;
  close fd;;
  printf 1 (ln "dir vs file OK") [].

Definition iref : prog unit :=
  let close_open fd := if 0 <=? fd then close fd;; mret tt else mret tt in
  printf 1 (ln "empty file name") [];;
  for_do (seqZ 0 (50 + 1)) (fun _ =>
    r ← mkdir "irefd"; fail_if (negb (r =? 0)) (ln "mkdir irefd failed") [];;
    r ← chdir "irefd"; fail_if (negb (r =? 0)) (ln "chdir irefd failed") [];;
    mkdir "";;
    link (str "README") [];;
    fd ← open [] O_CREATE; close_open fd;;
    fd ← open (str "xx") O_CREATE; close_open fd;;
    unlink (str "xx");; mret tt);;
  chdir "/";;
  printf 1 (ln "empty file name OK") [].

(** ** Running out of processes and of memory *)

Definition forktest : prog unit :=
  printf 1 (ln "fork test") [];;
  n ← loop 1001 (fun n =>
    if 1000 <=? n then mret (inr n) else
    pid ← sys SforkMedium;
    if pid <? 0 then mret (inr n) else
    if pid =? 0 then Exit else mret (inl (n + 1))) 0;
  fail_if (n =? 1000) (ln "fork claimed to work 1000 times!") [];;
  for_do (seqZ 0 n) (fun _ => r ← sys Swait; fail_if (r <? 0) (ln "wait stopped early") []);;
  r ← sys Swait; fail_if (negb (r =? -1)) (ln "wait got too many") [];;
  printf 1 (ln "fork test OK") [].

Definition sbrk (n : Z) : prog Z := r ← sys (Ssbrk (i32 n)); mret (u32 r).

Definition BIG : Z := 100 * 1024 * 1024.

(** The part of [sbrktest] about growing by less than a page: the new break is
    [a]. *)
Definition sbrk_small : prog unit :=
  a ← sbrk 0;
  a ← for_in (seqZ 0 5000) (fun i a =>
    b ← sbrk 1;
    fail_if (negb (b =? a)) (ln "sbrk test failed %d %x %x") [AInt i; AInt a; AInt b];;
    mret (u32 (b + 1))) a;
  pid ← sys SforkMedium;
  fail_if (pid <? 0) (ln "sbrk test fork failed") [];;
  sbrk 1;;
  c ← sbrk 1;
  fail_if (negb (c =? u32 (a + 1))) (ln "sbrk test failed post-fork") [];;
  if pid =? 0 then Exit else
  sys Swait;; mret tt.

(** The part about growing and shrinking; [last] is the byte found at
    [lastaddr] after its page has been given back and allocated again. *)
Definition sbrk_big (last oldbrk : Z) : prog unit :=
  a ← sbrk 0;
  p ← sbrk (BIG - a);
  fail_if (negb (p =? a)) (ln "sbrk test failed to grow big address space; enough phys mem?") [];;
  a ← sbrk 0;
  c ← sbrk (-4096);
  fail_if (c =? u32 (-1)) (ln "sbrk could not deallocate") [];;
  c ← sbrk 0;
  fail_if (negb (c =? u32 (a - 4096))) (ln "sbrk deallocation produced wrong address, a %x c %x") [AInt a; AInt c];;
  a ← sbrk 0;
  c ← sbrk 4096;
  bad ← (if negb (c =? a) then mret true else b ← sbrk 0; mret (negb (b =? u32 (a + 4096))));
  fail_if bad (ln "sbrk re-allocation failed, a %x c %x") [AInt a; AInt c];;
  fail_if (i8 last =? 99) (ln "sbrk de-allocation didn't really deallocate") [];;
  a ← sbrk 0;
  b ← sbrk 0;
  c ← sbrk (- (b - oldbrk));
  fail_if (negb (c =? a)) (ln "sbrk downsize failed, a %x c %x") [AInt a; AInt c].

(** The part about the kernel's memory: [*a] faults in the child. *)
Definition sbrk_kernel : prog unit :=
  for_do (seqZ 0 40) (fun _ =>
    sys Sgetpid;;
    pid ← sys SforkMedium;
    fail_if (pid <? 0) (ln "fork failed") [];;
    if pid =? 0 then Fault else
    sys Swait;; mret tt).

(** The part about running the system out of memory. *)
Definition sbrk_exhaust (fuel : nat) : prog unit :=
  '(r, (fd0, fd1)) ← pipe;
  fail_if (negb (r =? 0)) (ln "pipe() failed") [];;
  pids ← for_in (seqZ 0 10) (fun _ pids =>
    pid ← sys SforkMedium;
    if pid =? 0 then
      b ← sbrk 0;
      sbrk (BIG - b);;
      write fd1 (str "x");;
      loop fuel (fun _ => sys (Ssleep 1000);; mret (inl tt)) tt
    else
    (if negb (pid =? -1) then sys (Sread fd0 1);; mret tt else mret tt);;
    mret (pids ++ [pid])) [];
  c ← sbrk 4096;
  for_do pids (fun pid =>
    if pid =? -1 then mret tt else
    sys (Skill pid);;
    sys Swait;; mret tt);;
  fail_if (c =? u32 (-1)) (ln "failed sbrk leaked memory") [].

Definition sbrktest (fuel : nat) (last : Z) : prog unit :=
  printf stdout (ln "sbrk test") [];;
  oldbrk ← sbrk 0;
  sbrk_small;;
  sbrk_big last oldbrk;;
  sbrk_kernel;;
  sbrk_exhaust fuel;;
  b ← sbrk 0;
  (if oldbrk <? b then b ← sbrk 0; sbrk (- (b - oldbrk));; mret tt else mret tt);;
  printf stdout (ln "sbrk test OK") [].

(** [validateint], inline assembly that calls [sleep] with its stack pointer at [p],
    and [link] with the stray pointer [p] are arguments. *)
Definition validatetest (validateint : Z -> prog unit) (link_stray : list Z -> Z -> prog Z) : prog unit :=
  printf stdout (ln "validate test") [];;
  let hi := 1100 * 1024 in
  for_do ((fun i => 4096 * i) <$> seqZ 0 (hi / 4096 + 1)) (fun p =>
    pid ← sys SforkMedium;
    if pid =? 0 then validateint p;; Exit else
    sys (Ssleep 0);;
    sys (Ssleep 0);;
    sys (Skill pid);;
    sys Swait;;
    r ← link_stray (str "nosuchfile") p;
    fail_if (negb (r =? -1)) (ln "link should not succeed") []);;
  printf stdout (ln "validate ok") [].

(** [uninit] is the array of 10000 bytes as the loader leaves it. *)
Definition bsstest (uninit : list Z) : prog unit :=
  printf stdout (ln "bss test") [];;
  for_do uninit (fun c => fail_if (negb (c =? 0)) (ln "bss test failed") []);;
  printf stdout (ln "bss test ok") [].

(** Each of the [MAXARG - 1] arguments. *)
Definition bigarg : list Z := str (ln "bigargs test: failed") ++ replicate 199 32.

Definition bigargtest : prog unit :=
  unlink (str "bigarg-ok");;
  pid ← sys SforkMedium;
  if pid =? 0 then
    printf stdout (ln "bigarg test") [];;
    sys (Sexec (str "echo") (replicate (Z.to_nat (MAXARG - 1)) bigarg));;
    printf stdout (ln "bigarg test ok") [];;
    fd ← open (str "bigarg-ok") O_CREATE;
    close fd;;
    Exit
  else
  fail_if (pid <? 0) (ln "bigargtest: fork failed") [];;
  sys Swait;;
  fd ← open (str "bigarg-ok") 0;
  fail_if (fd <? 0) (ln "bigarg test failed!") [];;
  close fd;;
  unlink (str "bigarg-ok");; mret tt.

(** The name of file [n]. *)
Definition fsfull_name (n : Z) : list Z :=
  u8 <$> [102; 48 + n `quot` 1000; 48 + (n `rem` 1000) `quot` 100; 48 + (n `rem` 100) `quot` 10; 48 + n `rem` 10].

Definition fsfull (fuel : nat) (buf : list Z) : prog unit :=
  printf 1 (ln "fsfull test") [];;
  nfiles ← loop fuel (fun nfiles =>
    let name := fsfull_name nfiles in
    printf 1 (ln "writing %s") [AStr (Some name)];;
    fd ← open name (Z.lor O_CREATE O_RDWR);
    if fd <? 0 then printf 1 (ln "open %s failed") [AStr (Some name)];; mret (inr nfiles) else
    total ← loop fuel (fun total =>
      cc ← write fd (take 512 buf);
      if cc <? 512 then mret (inr total) else mret (inl (total + cc))) 0;
    printf 1 (ln "wrote %d bytes") [AInt total];;
    close fd;;
    if total =? 0 then mret (inr nfiles) else mret (inl (nfiles + 1))) 0;
  for_do (reverse (seqZ 0 (nfiles + 1))) (fun n => unlink (fsfull_name n);; mret tt);;
  printf 1 (ln "fsfull test finished") [].

(** [rand]: the new state is the result. *)
Definition rand (randstate : Z) : Z := u32 (randstate * 1664525 + 1013904223).

(** ** The main program *)

Section main.
(** Bounds on the loops; the address of umalloc.c's [base]; the calls that pass
    stray pointers; the stack that [concreate] finds in [de], and the byte that
    [sbrktest] finds at [lastaddr]. *)
Context (fuel : nat) (base : Z) (validateint : Z -> prog unit) (link_stray : list Z -> Z -> prog Z).
Context (de : list Z) (last : Z).

Definition usertests_main : prog unit :=
  let buf := replicate (Z.to_nat BUFSZ) 0 in
  printf 1 (ln "usertests starting") [];;
  r ← open (str "usertests.ran") 0;
  fail_if (0 <=? r) (ln "already ran user tests -- rebuild fs.img") [];;
  fd ← open (str "usertests.ran") O_CREATE; close fd;;
  createdelete;;
  linkunlink;;
  concreate fuel de;;
  buf ← fourfiles fuel buf;
  sharedfd fuel;;
  bigargtest;;
  bigwrite buf;;
  bigargtest;;
  bsstest (replicate (Z.to_nat 10000) 0);;
  sbrktest fuel last;;
  validatetest validateint link_stray;;
  opentest;;
  buf ← writetest buf;
  buf ← writetest1 fuel buf;
  createtest;;
  openiputtest;;
  exitiputtest;;
  iputtest;;
  mem base fuel (Mkheap ∅ 0);;
  buf ← pipe1 fuel buf;
  buf ← preempt buf;
  exitwait;;
  rmdot;;
  fourteen;;
  buf ← bigfile fuel buf;
  buf ← subdir buf;
  buf ← linktest buf;
  buf ← unlinkread buf;
  dirfile;;
  iref;;
  forktest;;
  bigdir;;
  exectest;;
  Exit.
End main.
