(* ===== verification/Tests.v ===== *)
(** teste1.c to teste5.c, forktest.c and stressfs.c: the programs that exercise
    the scheduler, fork and the disk.

    teste1.c to teste5.c hold the same [zombie] and [forkTest], and differ in
    their [main]: each starts a list of processes, given by their priorities. *)
From S2P Require Import Prelude Memory Kernel CString Spinlock Console Bytes Grep Ulib Utils Usertests.

(** ** zombie *)

(** [for(y=...;y!=1;y--) result = result*y;] *)
Fixpoint mul_down (fuel : nat) (result y : Z) : option Z :=
  if y =? 1 then Some result else
  match fuel with
  | O => None
  | S fuel' => mul_down fuel' (u32 (result * y)) (u32 (y - 1))
  end.

(** [for(x=...;x<limit;x++)], with [limit] 12. *)
Fixpoint each_x (fuel : nat) (x result : Z) : option Z :=
  if negb (x <? 12) then Some result else
  match fuel with
  | O => None
  | S fuel' => result ← mul_down 12 x x; each_x fuel' (u32 (x + 1)) result
  end.

(** [for(turn=turn;turn!=1;turn--)] *)
Fixpoint zombie_turns (fuel : nat) (turn result : Z) : option Z :=
  if turn =? 1 then Some result else
  match fuel with
  | O => None
  | S fuel' =>
      result ← each_x 12 1 result;
      zombie_turns fuel' (u32 (turn - 1)) (u32 (result - 10))
  end.

(** The result of the computation is not used, but the program goes on only when
    it has ended.  The arguments of [printf] are evaluated from the last. *)
Definition zombie (fuel : nat) (prioridade rodadas : Z) : prog unit :=
  pid ← sys Sgetpid;
  printf 0 ("
Iniciando pid %d com prioridade %d") [AInt pid; AInt prioridade];;
  systemTime ← sys Suptime;
  match zombie_turns fuel (u32 rodadas) 0 with
  | None => Again
  | Some _ =>
      now ← sys Suptime;
      pid ← sys Sgetpid;
      printf 0 (ln (ln "
 Pid %d com prioridade %d finalizado em %d segundos"))
        [AInt pid; AInt prioridade; AInt (u32 (now - systemTime))];;
      Exit
  end.

(** ** forkTest *)

(** The [switch]: for another priority, [pid] is not assigned. *)
Definition fork_priority (priority : Z) : option call :=
  match priority with
  | 1 => Some SforkLowest
  | 2 => Some SforkLow
  | 3 => Some SforkMedium
  | 4 => Some SforkHigh
  | 5 => Some SforkHighest
  | _ => None
  end.

Definition forkTest (fuel : nat) (priority rodadas : Z) : prog Z :=
  match fork_priority priority with
  | None => Fault
  | Some c =>
      pid ← sys c;
      if pid =? 0 then zombie fuel priority rodadas;; mret 0
      else if 0 <? pid then mret 0
      else printf 1 (ln "fork(1) failed!") [];; mret 1
  end.

(** ** The programs *)

(** The calls [forkTest(p, turns)], in order. *)
Definition start_all (forkTest : Z -> Z -> prog Z) (turns : Z) (ps : list Z) : prog unit :=
  for_do ps (fun p => forkTest p turns;; mret tt).

(** The copies in the other files, which are the same text. *)
Definition teste2_zombie : nat -> Z -> Z -> prog unit := zombie.
Definition teste3_zombie : nat -> Z -> Z -> prog unit := zombie.
Definition teste4_zombie : nat -> Z -> Z -> prog unit := zombie.
Definition teste5_zombie : nat -> Z -> Z -> prog unit := zombie.
Definition teste2_forkTest : nat -> Z -> Z -> prog Z := forkTest.
Definition teste3_forkTest : nat -> Z -> Z -> prog Z := forkTest.
Definition teste4_forkTest : nat -> Z -> Z -> prog Z := forkTest.
Definition teste5_forkTest : nat -> Z -> Z -> prog Z := forkTest.

Definition teste1_main (fuel : nat) : prog unit :=
  printf 0 (ln (ln "
Este teste criara 5 processos com prioridades iguais (500 tickets) calcularao o fatorial de 0 ate 12 por 9600000 vezes respectivamente. Apos finalizar o calculo sera apresentado o PID do processo com o tempo de execucao.")) [];;
  start_all (forkTest fuel) 9600000 [3; 3; 3; 3; 3];;
  Exit.

Definition teste2_main (fuel : nat) : prog unit :=
  printf 0 (ln (ln "
Este teste criara 5 processos com prioridades que variam da mais baixa ate mais alta calcularao o fatorial de 0 ate 12 por 2400000 vezes respectivamente. Apos finalizar o calculo sera apresentado o PID do processo com o tempo de execucao.")) [];;
  start_all (teste2_forkTest fuel) 2400000 [1; 2; 3; 4; 5];;
  Exit.

Definition teste3_main (fuel : nat) : prog unit :=
  printf 0 (ln (ln "
Este teste criara 39 processos com prioridades que variam da mais baixa ate mais alta calcularao o fatorial de 0 ate 12 por 2400000 vezes respectivamente. Apos finalizar o calculo sera apresentado o PID do processo com o tempo de execucao.")) [];;
  start_all (teste3_forkTest fuel) 2400000
    [1; 2; 3; 4; 5; 4; 3; 2; 1; 2; 3; 4; 5; 1; 2; 3; 4; 5; 4; 3; 2; 1; 2; 3; 4; 5;
     1; 2; 3; 4; 5; 4; 3; 2; 1; 2; 3; 4; 5];;
  Exit.

Definition teste4_main (fuel : nat) : prog unit :=
  printf 0 (ln (ln "
Este teste criara 39 processos com prioridades da mais baixa ate a mais alta, calcularao o fatorial de 0 ate 12 por 2400000 vezes respectivamente. Apos finalizar o calculo sera apresentado o PID do processo com o tempo de execucao.")) [];;
  start_all (teste4_forkTest fuel) 2400000 [1; 4; 5; 1; 4; 3; 1; 3; 3; 2; 3; 4; 1; 4; 5; 5; 5];;
  Exit.

Definition teste5_main (fuel : nat) : prog unit :=
  printf 0 (ln (ln "
Este teste criara 16 processos com prioridades baixas calcularao o fatorial de 0 ate 12 por 2400000 vezes respectivamente. Apos finalizar o calculo sera apresentado o PID do processo com o tempo de execucao.")) [];;
  start_all (teste5_forkTest fuel) 2400000 [1; 1; 1; 1; 1; 1; 1; 1; 1; 1; 1; 1; 1; 1; 1; 1; 5];;
  Exit.

(** ** forktest *)

(** forktest.c's own [printf] writes the string as it is. *)
Definition forktest_printf (fd : Z) (s : string) : prog unit :=
  sys (Swrite fd (str s));; mret tt.

Definition forktest_forktest : prog unit :=
  let fail_if (b : bool) s := if b then forktest_printf 1 s;; Exit else mret tt in
  forktest_printf 1 (ln "fork test");;
  n ← loop 1001 (fun n =>
    if 1000 <=? n then mret (inr n) else
    pid ← sys Sfork;
    if pid <? 0 then mret (inr n) else
    if pid =? 0 then Exit else mret (inl (n + 1))) 0;
  fail_if (n =? 1000) (ln "fork claimed to work N times!");;
  for_do (seqZ 0 n) (fun _ => r ← sys Swait; fail_if (r <? 0) (ln "wait stopped early"));;
  r ← sys Swait; fail_if (negb (r =? -1)) (ln "wait got too many");;
  forktest_printf 1 (ln "fork test OK").

Definition forktest_main : prog unit := forktest_forktest;; Exit.

(** ** stressfs *)

Definition stressfs_main : prog unit :=
  printf 1 (ln "stressfs starting") [];;
  let data := replicate 512 97 in
  i ← loop 5 (fun i =>
    if 4 <=? i then mret (inr i) else
    pid ← sys SforkHigh;
    if 0 <? pid then mret (inr i) else mret (inl (i + 1))) 0;
  printf 1 (ln "write %d") [AInt i];;
  let path := str "stressfs" ++ [u8 (48 + i)] in
  fd ← open path (Z.lor O_CREATE O_RDWR);
  for_do (seqZ 0 20) (fun _ => write fd data;; mret tt);;
  close fd;;
  printf 1 (ln "read") [];;
  fd ← open path O_RDONLY;
  for_in (seqZ 0 20) (fun _ data => '(_, data) ← read fd data 512; mret data) data;;
  close fd;;
  sys Swait;;
  Exit.
