(* ===== verification/TestSpec.v ===== *)
(** What the test programs check.

    A program runs against a tape: the replies of its calls, in order.  The tape
    keeps the calls and what is written; a write succeeds.  So a theorem about
    every tape of some form is about every kernel that answers in this way. *)
From S2P Require Import Prelude Memory Kernel CString Spinlock Console Bytes Grep Ulib Utils Usertests Tests.

(** ** Tapes *)

Record tape := Mktape {
  t_script : list reply;
  t_calls : list call;
  t_out : list (Z * list Z);
}.

(** The answer to a call; where the script has ended, an error. *)
Definition answer (c : call) (t : tape) : reply * tape :=
  match c with
  | Swrite fd l =>
      (Mkreply (Z.of_nat (length l)) [], Mktape (t_script t) (t_calls t) (t_out t ++ [(fd, l)]))
  | _ =>
      match t_script t with
      | r :: rs => (r, Mktape rs (t_calls t ++ [c]) (t_out t))
      | [] => (Mkreply (-1) [], Mktape [] (t_calls t ++ [c]) (t_out t))
      end
  end.

Fixpoint run_tape {A} (p : prog A) (t : tape) : ending A * tape :=
  match p with
  | Done a => (Returned a, t)
  | Exit => (Exited, t)
  | Fault => (Faulted, t)
  | Again => (Unfinished, t)
  | Sys c k => let '(r, t') := answer c t in run_tape (k r) t'
  end.

Definition then_run {A B} (r : ending A * tape) (f : A -> prog B) : ending B * tape :=
  match r with
  | (Returned a, t) => run_tape (f a) t
  | (Exited, t) => (Exited, t)
  | (Faulted, t) => (Faulted, t)
  | (Unfinished, t) => (Unfinished, t)
  end.

Lemma run_bind {A B} (p : prog A) (f : A -> prog B) t : run_tape (p ≫= f) t = then_run (run_tape p t) f.
Proof.
  revert t; induction p as [a| | | |c k IH]; intros t; [done..|]. cbn.
  destruct (answer c t) as [r t']. apply IH.
Qed.

Definition is_write (c : call) : bool := match c with Swrite _ _ => true | _ => false end.

Lemma run_sys {A} c (f : Z -> prog A) r rs cs out :
  is_write c = false ->
  run_tape (sys c ≫= f) (Mktape (r :: rs) cs out) = run_tape (f (r_val r)) (Mktape rs (cs ++ [c]) out).
Proof. by destruct c. Qed.

(** A tape on which [l] has been written to [fd] byte by byte. *)
Definition typed (fd : Z) (l : list Z) (t : tape) : tape :=
  Mktape (t_script t) (t_calls t) (t_out t ++ ((fun c => (fd, [u8 c])) <$> l)).

Lemma run_puts fd l t : run_tape (puts fd l) t = (Returned tt, typed fd l t).
Proof.
  revert t; induction l as [|c l IH]; intros t; cbn [puts].
  { unfold typed. cbn. rewrite app_nil_r. by destruct t. }
  cbn. etransitivity; [apply IH|]. unfold typed. cbn. by rewrite <- app_assoc.
Qed.

(** A format without a percent sign is printed as it is. *)
Lemma printf_plain fd fmt ap :
  forallb (fun c => negb (c =? 37)) fmt = true -> printf_loop fd fmt false ap = puts fd fmt.
Proof.
  induction fmt as [|c fmt IH]; [done|]. cbn [forallb printf_loop puts]. intros [H1 H2]%andb_prop.
  destruct (c =? 37); [done|]. cbn. by rewrite IH.
Qed.

Lemma run_printf fd fmt t :
  forallb (fun c => negb (c =? 37)) (str fmt) = true ->
  run_tape (printf fd fmt []) t = (Returned tt, typed fd (str fmt) t).
Proof. intros H. unfold printf. rewrite printf_plain by done. apply run_puts. Qed.

Lemma output_typed fd fd' l t :
  output fd' (t_out (typed fd l t)) = output fd' (t_out t) ++ (if decide (fd = fd') then u8 <$> l else []).
Proof.
  unfold output, typed. cbn. rewrite filter_app, fmap_app, concat_app. f_equal.
  induction l as [|c l IH]; [by case_decide|]. cbn [fmap list_fmap]. rewrite filter_cons. cbn [fst].
  case_decide; [|done]. cbn. by rewrite IH.
Qed.

(** What [printf] prints: the text, or none where it would fetch an argument that
    was not passed. *)
Fixpoint render (fmt : list Z) (pct : bool) (ap : list carg) : option (list Z) :=
  match fmt with
  | [] => Some []
  | c :: fmt' =>
      if negb pct then
        if c =? 37 then render fmt' true ap else app [c] <$> render fmt' false ap
      else if c =? 100 then
        match ap with
        | AInt x :: ap' => app (reverse (uprintint_buf x 10 true)) <$> render fmt' false ap'
        | _ => None
        end
      else if (c =? 120) || (c =? 112) then
        match ap with
        | AInt x :: ap' => app (reverse (uprintint_buf x 16 false)) <$> render fmt' false ap'
        | _ => None
        end
      else if c =? 115 then
        match ap with
        | AStr s :: ap' => app (default (str "(null)") s) <$> render fmt' false ap'
        | _ => None
        end
      else if c =? 99 then
        match ap with
        | AInt x :: ap' => app [x] <$> render fmt' false ap'
        | _ => None
        end
      else if c =? 37 then app [c] <$> render fmt' false ap
      else app [37; c] <$> render fmt' false ap
  end.

Lemma typed_typed fd l l' t : typed fd l' (typed fd l t) = typed fd (l ++ l') t.
Proof. unfold typed. cbn. by rewrite fmap_app, app_assoc. Qed.

(** Printing [l1] and then what is left of the format. *)
Lemma run_then fd l1 (p : prog unit) (o : option (list Z)) l t :
  (forall l2 t, o = Some l2 -> run_tape p t = (Returned tt, typed fd l2 t)) ->
  app l1 <$> o = Some l -> run_tape (puts fd l1;; p) t = (Returned tt, typed fd l t).
Proof.
  intros Hp Hl. destruct o as [l2|]; [|done]. cbn in Hl. injection Hl as <-.
  rewrite run_bind, run_puts. cbn [then_run]. rewrite (Hp l2) by done. by rewrite typed_typed.
Qed.

Lemma run_putc fd c (p : prog unit) t : run_tape (putc fd c;; p) t = run_tape (puts fd [c];; p) t.
Proof. done. Qed.

Lemma printf_renders fd fmt pct ap l t :
  render fmt pct ap = Some l -> run_tape (printf_loop fd fmt pct ap) t = (Returned tt, typed fd l t).
Proof.
  revert pct ap l t; induction fmt as [|c fmt IH]; intros pct ap l t Hl; cbn [render printf_loop] in *.
  { injection Hl as <-. apply (run_puts fd []). }
  repeat (case_match; try discriminate); subst;
    first [by apply IH
          |rewrite run_putc; eapply run_then; [|exact Hl]; auto
          |eapply run_then; [|exact Hl]; auto|idtac].
  rewrite run_putc. change (run_tape (puts fd [37; c];; printf_loop fd fmt false ap) t = (Returned tt, typed fd l t)).
  eapply run_then; [|exact Hl]; auto.
Qed.

(** ** The computation of the scheduler's tests *)

Fixpoint factorial (n : nat) : Z :=
  match n with
  | O => 1
  | S n' => Z.of_nat n * factorial n'
  end.

Lemma mul_down_spec n fuel r :
  (1 <= n <= S fuel)%nat -> Z.of_nat n < 2 ^ 32 ->
  mul_down fuel (u32 r) (Z.of_nat n) = Some (u32 (r * factorial n)).
Proof.
  revert fuel r; induction n as [|n IH]; intros fuel r Hn Hlt; [lia|].
  destruct (decide (n = 0)%nat) as [->|Hn0].
  { replace (r * factorial 1) with r by (cbn; ring). by destruct fuel. }
  destruct fuel as [|fuel]; [lia|]. cbn [mul_down]. destruct (Z.eqb_spec (Z.of_nat (S n)) 1); [lia|].
  replace (u32 (Z.of_nat (S n) - 1)) with (Z.of_nat n) by (rewrite u32_id; unfold is_u32; lia).
  replace (u32 (u32 r * Z.of_nat (S n))) with (u32 (r * Z.of_nat (S n)))
    by (unfold u32; by rewrite Zmult_mod_idemp_l).
  rewrite IH by lia. do 2 f_equal. cbn [factorial]. ring.
Qed.

(** The value a turn leaves, whatever [result] was. *)
Lemma each_x_value r : each_x 12 1 r = Some (u32 (11 * factorial 11)).
Proof. vm_compute. reflexivity. Qed.

Lemma zombie_turns_spec fuel turn r :
  is_u32 turn -> (Z.to_nat (u32 (turn - 1)) <= fuel)%nat ->
  zombie_turns fuel turn r = Some (if turn =? 1 then r else u32 (11 * factorial 11 - 10)).
Proof.
  revert turn r; induction fuel as [|fuel IH]; intros turn r Ht Hf; cbn [zombie_turns];
    destruct (Z.eqb_spec turn 1) as [->|Hn]; [done| |done|].
  { pose proof (u32_range (turn - 1)). unfold is_u32 in *.
    assert (E : u32 (turn - 1) = 0) by lia. unfold u32 in E.
    rewrite Z.mod_divide in E by done. destruct E as [k E]. lia. }
  rewrite each_x_value. cbn [mbind option_bind].
  rewrite IH; [|apply u32_range|].
  - by case_match.
  - assert (E : u32 (turn - 1) <> 0).
    { unfold is_u32 in *. unfold u32. intros E. rewrite Z.mod_divide in E by done. destruct E as [k E]. lia. }
    pose proof (u32_range (turn - 1)) as R. unfold is_u32 in R.
    replace (u32 (u32 (turn - 1) - 1)) with (u32 (turn - 1) - 1) by (symmetry; apply u32_id; unfold is_u32; lia).
    lia.
Qed.



(** ** The processes that the scheduler's tests start *)

Definition fork_failed : list Z := str (ln "fork(1) failed!").

(** The messages for the forks with results [vs]. *)
Definition failures (vs : list Z) : list (Z * list Z) :=
  concat ((fun v => if v <? 0 then (fun c => (1, [u8 c])) <$> fork_failed else []) <$> vs).

Lemma forkTest_run fuel p turns c v rs cs out :
  fork_priority p = Some c -> v <> 0 ->
  exists r, run_tape (forkTest fuel p turns) (Mktape (Mkreply v [] :: rs) cs out)
    = (Returned r, Mktape rs (cs ++ [c]) (out ++ failures [v])).
Proof.
  intros Hc Hv. unfold forkTest, failures. rewrite Hc.
  rewrite run_sys by (revert Hc; unfold fork_priority; repeat (case_match; try done); by intros [= <-]).
  cbn [r_val]. destruct (Z.eqb_spec v 0); [done|]. cbn [fmap list_fmap concat].
  destruct (Z.ltb_spec 0 v); destruct (Z.ltb_spec v 0); try lia; rewrite ?app_nil_r.
  - exists 0. done.
  - exists 1. by rewrite run_bind, run_printf by reflexivity.
Qed.

Lemma start_all_run fuel turns ps fs vs cs out :
  Forall2 (fun p c => fork_priority p = Some c) ps fs -> length vs = length fs ->
  Forall (fun v => v <> 0) vs ->
  run_tape (start_all (forkTest fuel) turns ps) (Mktape ((fun v => Mkreply v []) <$> vs) cs out)
    = (Returned tt, Mktape [] (cs ++ fs) (out ++ failures vs)).
Proof.
  intros Hps. revert vs cs out.
  induction Hps as [|p c ps fs Hp _ IH]; intros [|v vs] cs out Hl Hvs; try discriminate.
  { unfold failures. cbn. by rewrite !app_nil_r. }
  inversion Hvs; subst. injection Hl as Hl. unfold start_all, for_do. cbn [for_in fmap list_fmap].
  destruct (forkTest_run fuel p turns c v ((fun v => Mkreply v []) <$> vs) cs out) as [r E]; [done..|].
  rewrite run_bind, run_bind, E. cbn [then_run run_tape mret prog_ret].
  etransitivity; [by apply IH|]. unfold failures. cbn. by rewrite app_nil_r, <- !app_assoc.
Qed.

Lemma output_failures vs : output 1 (failures vs) = u8 <$> concat ((fun v => if v <? 0 then fork_failed else []) <$> vs).
Proof.
  unfold output, failures. induction vs as [|v vs IH]; [done|]. cbn [fmap list_fmap concat].
  rewrite filter_app, fmap_app, concat_app, fmap_app. f_equal; [|exact IH]. by destruct (v <? 0).
Qed.

(** The forks of each program, in order. *)
Definition testes (fuel : nat) : list (prog unit * list call) := [
  (teste1_main fuel, replicate 5 SforkMedium);
  (teste2_main fuel, [SforkLowest; SforkLow; SforkMedium; SforkHigh; SforkHighest]);
  (teste3_main fuel,
     let up := [SforkLowest; SforkLow; SforkMedium; SforkHigh; SforkHighest] in
     let wave := up ++ [SforkHigh; SforkMedium; SforkLow] ++ up in wave ++ wave ++ wave);
  (teste4_main fuel,
     [SforkLowest; SforkHigh; SforkHighest; SforkLowest; SforkHigh; SforkMedium; SforkLowest; SforkMedium;
      SforkMedium; SforkLow; SforkMedium; SforkHigh; SforkLowest; SforkHigh] ++ replicate 3 SforkHighest);
  (teste5_main fuel, replicate 16 SforkLowest ++ [SforkHighest])].

(** C40: teste1.c to teste5.c, run as parents, fork their processes with the
    priorities in their lists and exit, whether forks fail or not; each failed
    fork is reported.  teste4.c starts 17 processes, not the 39 it announces,
    teste5.c 17 and not 16. *)
Theorem testes_fork fuel main fs vs :
  (main, fs) ∈ testes fuel -> length vs = length fs -> Forall (fun v => v <> 0) vs ->
  let '(e, t) := run_tape main (Mktape ((fun v => Mkreply v []) <$> vs) [] []) in
  e = Exited /\ t_calls t = fs /\
  output 1 (t_out t) = u8 <$> concat ((fun v => if v <? 0 then fork_failed else []) <$> vs).
Proof.
  intros Hin Hl Hvs.
  assert (H : exists msg turns ps,
    main = (printf 0 msg [];; start_all (forkTest fuel) turns ps;; Exit) /\
    forallb (fun c => negb (c =? 37)) (str msg) = true /\
    Forall2 (fun p c => fork_priority p = Some c) ps fs).
  { apply list_elem_of_In in Hin. unfold testes in Hin. cbn [In] in Hin. destruct_or! Hin; try done;
      injection Hin as <- <-; eexists _, _, _; (split; [reflexivity|]); (split; [vm_compute; reflexivity|]); repeat constructor. }
  destruct H as (msg & turns & ps & -> & Hmsg & Hps).
  rewrite run_bind, run_printf by done. cbn [then_run].
  rewrite run_bind. unfold typed. cbn [t_script t_calls t_out]. rewrite (start_all_run _ _ _ _ _ _ _ Hps Hl Hvs).
  cbn [then_run run_tape t_calls t_out]. split_and!; [done..|].
  rewrite <- output_failures. unfold output. rewrite filter_app, fmap_app, concat_app.
  change ([] ++ ?l) with (t_out (typed 0 (str msg) (Mktape [] [] []))).
  pose proof (output_typed 0 1 (str msg) (Mktape [] [] [])) as E. unfold output in E. by rewrite E.
Qed.

Lemma testes_fork_witness :
  let '(e, t) := run_tape (teste2_main 0) (Mktape ((fun v => Mkreply v []) <$> [4; 5; -1; 7; 8]) [] []) in
  e = Exited /\ t_calls t = [SforkLowest; SforkLow; SforkMedium; SforkHigh; SforkHighest] /\
  output 1 (t_out t) = u8 <$> fork_failed.
Proof.
  apply (testes_fork 0 (teste2_main 0) _ [4; 5; -1; 7; 8]); [|done|repeat constructor; lia].
  apply list_elem_of_In. right. left. reflexivity.
Defined.

(** ** pipe1 *)

Lemma run_sys_bytes {A} c (f : Z * list Z -> prog A) r rs cs out :
  is_write c = false ->
  run_tape (sys_bytes c ≫= f) (Mktape (r :: rs) cs out)
    = run_tape (f (r_val r, r_bytes r)) (Mktape rs (cs ++ [c]) out).
Proof. by destruct c. Qed.

Lemma run_write {A} fd l (f : Z -> prog A) t :
  run_tape (write fd l ≫= f) t
    = run_tape (f (Z.of_nat (length l))) (Mktape (t_script t) (t_calls t) (t_out t ++ [(fd, l)])).
Proof. done. Qed.

Lemma run_fail_if {A} (b : bool) fmt ap (f : unit -> prog A) t :
  b = false -> run_tape (fail_if b fmt ap ≫= f) t = run_tape (f tt) t.
Proof. by intros ->. Qed.

Lemma take_splice0 l d : take (length d) (splice l 0 d) = d.
Proof. unfold splice. rewrite take_0. apply (take_app_length d). Qed.

(** The bytes that the child sends. *)
Definition sent (seq n : Z) : list Z := u8 <$> seqZ seq n.

Lemma length_sent seq n : 0 <= n -> length (sent seq n) = Z.to_nat n.
Proof. intros H. unfold sent. by rewrite length_fmap, length_seqZ. Qed.

Lemma pipe1_child_loop fd xs seq buf t :
  exists buf', run_tape (for_in xs (fun (_ : Z) '(seq, buf) =>
    let buf := splice buf 0 (u8 <$> seqZ seq 1033) in
    r ← write fd (take 1033 buf);
    fail_if (negb (r =? 1033)) (ln "pipe1 oops 1") [];;
    mret (seq + 1033, buf)) (seq, buf)) t
  = (Returned (seq + 1033 * Z.of_nat (length xs), buf'),
     Mktape (t_script t) (t_calls t)
       (t_out t ++ ((fun i => (fd, sent (seq + 1033 * Z.of_nat i) 1033)) <$> List.seq 0 (length xs)))).
Proof.
  revert seq buf t; induction xs as [|i xs IH]; intros seq buf t.
  { exists buf. cbn. rewrite app_nil_r, Z.add_0_r. by destruct t. }
  cbn [for_in]. rewrite run_bind. cbv zeta beta iota.
  assert (E : take 1033 (splice buf 0 (u8 <$> seqZ seq 1033)) = sent seq 1033).
  { pose proof (take_splice0 buf (sent seq 1033)) as E. by rewrite length_sent in E by lia. }
  rewrite run_write, E, run_fail_if by (rewrite length_sent by lia; done). cbn [then_run run_tape mret prog_ret t_script t_calls t_out].
  destruct (IH (seq + 1033) (splice buf 0 (u8 <$> seqZ seq 1033))
    (Mktape (t_script t) (t_calls t) (t_out t ++ [(fd, sent seq 1033)]))) as [buf' Eb].
  exists buf'. etransitivity; [exact Eb|]. cbn [t_script t_calls t_out length]. f_equal; [f_equal; f_equal; lia|].
  f_equal. rewrite <- app_assoc. f_equal. cbn [List.seq fmap list_fmap app]. f_equal; [do 2 f_equal; lia|].
  rewrite <- seq_shift, <- list_fmap_compose. apply list_fmap_ext. intros _ x _. cbn. do 2 f_equal. lia.
Qed.

(** A turn of the parent's loop. *)
Definition pipe1_turn (fd : Z) : Z * Z * Z * list Z -> prog ((Z * Z * Z * list Z) + (option Z * list Z)) :=
  fun '(seq, total, cc, buf) =>
    '(n, buf) ← read fd buf cc;
    if 0 <? n then
      match in_sequence (take (Z.to_nat n) buf) seq with
      | Some seq =>
          let cc := cc * 2 in
          mret (inl (seq, total + n, (if BUFSZ <? cc then BUFSZ else cc), buf))
      | None => printf 1 (ln "pipe1 oops 2") [];; mret (inr (None, buf))
      end
    else mret (inr (Some total, buf)).

Lemma run_read {A} fd buf n (f : Z * list Z -> prog A) l rs cs out :
  run_tape (read fd buf n ≫= f) (Mktape (Mkreply (Z.of_nat (length l)) l :: rs) cs out)
    = run_tape (f (Z.of_nat (length l), splice buf 0 l)) (Mktape rs (cs ++ [Sread fd n]) out).
Proof. cbn. by rewrite Nat2Z.id, firstn_all. Qed.

Lemma in_sequence_app l1 l2 seq :
  in_sequence (l1 ++ l2) seq = match in_sequence l1 seq with Some s => in_sequence l2 s | None => None end.
Proof. revert seq; induction l1 as [|c l1 IH]; intros seq; cbn; [done|]. case_match; [apply IH|done]. Qed.

Lemma land_255 x : Z.land x 255 = u8 x.
Proof. change 255 with (Z.ones 8). by rewrite Z.land_ones. Qed.

Lemma in_sequence_iff l seq :
  bytes_ok l ->
  in_sequence l seq = (if decide (l = sent seq (Z.of_nat (length l))) then Some (seq + Z.of_nat (length l)) else None).
Proof.
  intros H. revert seq; induction H as [|c l Hc _ IH]; intros seq.
  { cbn. by rewrite Z.add_0_r. }
  cbn [in_sequence]. rewrite !land_255, (u8_id c) by done.
  assert (E : sent seq (Z.of_nat (length (c :: l))) = u8 seq :: sent (seq + 1) (Z.of_nat (length l))).
  { unfold sent. cbn [length]. rewrite Nat2Z.inj_succ, seqZ_cons by lia. cbn. by rewrite Z.pred_succ. }
  rewrite E, IH. destruct (Z.eqb_spec c (u8 seq)) as [->|Hn].
  - repeat case_decide; try congruence. f_equal. cbn [length]. lia.
  - case_decide; congruence.
Qed.

(** The reading loop on the pieces of a stream: it gets to the end of the stream
    if this is in sequence, and stops with a message if not. *)
Lemma pipe1_loop fd pieces fuel seq total cc buf rs cs out :
  (length pieces < fuel)%nat -> Forall (fun l => l <> []) pieces ->
  exists counts buf',
  let script := ((fun l => Mkreply (Z.of_nat (length l)) l) <$> pieces) ++ Mkreply 0 [] :: rs in
  let r := run_tape (loop fuel (pipe1_turn fd) (seq, total, cc, buf)) (Mktape script cs out) in
  match in_sequence (concat pieces) seq with
  | Some _ => r = (Returned (Some (total + Z.of_nat (length (concat pieces))), buf'),
                   Mktape rs (cs ++ (Sread fd <$> counts)) out)
  | None => exists rs', r = (Returned (None, buf'),
      typed 1 (str (ln "pipe1 oops 2")) (Mktape rs' (cs ++ (Sread fd <$> counts)) out))
  end.
Proof.
  intros Hf Hp. revert fuel seq total cc buf cs Hf.
  induction Hp as [|l pieces Hl Hp IH]; intros [|fuel] seq total cc buf cs Hf; cbn [length] in Hf; try lia.
  { exists [cc], (splice buf 0 []). cbn. by rewrite Z.add_0_r. }
  cbn [fmap list_fmap app loop concat]. rewrite in_sequence_app.
  assert (Hn : (0 <? Z.of_nat (length l)) = true) by (apply Z.ltb_lt; destruct l; [done|cbn; lia]).
  assert (Hrun : forall (f : (Z * Z * Z * list Z) + (option Z * list Z) -> prog (option Z * list Z)) rs',
    run_tape (pipe1_turn fd (seq, total, cc, buf) ≫= f) (Mktape (Mkreply (Z.of_nat (length l)) l :: rs') cs out)
    = match in_sequence l seq with
      | Some seq' => run_tape (f (inl (seq', total + Z.of_nat (length l), (if BUFSZ <? cc * 2 then BUFSZ else cc * 2), splice buf 0 l)))
          (Mktape rs' (cs ++ [Sread fd cc]) out)
      | None => run_tape (f (inr (None, splice buf 0 l)))
          (typed 1 (str (ln "pipe1 oops 2")) (Mktape rs' (cs ++ [Sread fd cc]) out))
      end).
  { intros f rs'. rewrite run_bind. cbn [pipe1_turn]. rewrite run_read, Hn, Nat2Z.id, take_splice0.
    destruct (in_sequence l seq); [done|]. rewrite run_bind, run_printf by reflexivity. done. }
  rewrite Hrun. destruct (in_sequence l seq) as [seq'|].
  - destruct (IH fuel seq' (total + Z.of_nat (length l)) (if BUFSZ <? cc * 2 then BUFSZ else cc * 2) (splice buf 0 l)
      (cs ++ [Sread fd cc])) as (counts & buf' & E); [lia|].
    exists (cc :: counts), buf'. cbn zeta in E. cbn [fmap list_fmap].
    replace (cs ++ Sread fd cc :: (Sread fd <$> counts)) with ((cs ++ [Sread fd cc]) ++ (Sread fd <$> counts))
      by (by rewrite <- app_assoc).
    destruct (in_sequence (concat pieces) seq'); [|exact E].
    rewrite E. do 4 f_equal. rewrite length_app. lia.
  - exists [cc], (splice buf 0 l). eexists. reflexivity.
Qed.

(** The replies that the child and the parent get: [fds] are the bytes of the
    pipe's descriptors. *)
Definition child_tape (fds : list Z) : tape := Mktape [Mkreply 0 fds; Mkreply 0 []; Mkreply 0 []] [] [].

Definition parent_tape (fds : list Z) (pid : Z) (pieces : list (list Z)) : tape :=
  Mktape ([Mkreply 0 fds; Mkreply pid []; Mkreply 0 []]
    ++ ((fun l => Mkreply (Z.of_nat (length l)) l) <$> pieces)
    ++ [Mkreply 0 []; Mkreply 0 []; Mkreply pid []]) [] [].

Lemma pipe1_child_run fuel buf fds :
  let fd1 := i32 (get32 fds 4) in
  run_tape (pipe1 fuel buf) (child_tape fds)
  = (Exited, Mktape [] [Spipe; SforkMedium; Sclose (i32 (get32 fds 0))]
      ((fun i => (fd1, sent (1033 * Z.of_nat i) 1033)) <$> List.seq 0 5)).
Proof.
  intros fd1. unfold pipe1, child_tape, pipe. rewrite run_bind, run_sys_bytes by done.
  cbn [run_tape mret prog_ret then_run r_val r_bytes]. rewrite run_fail_if by done.
  rewrite run_sys by done. cbn [r_val Z.eqb]. unfold close. rewrite run_sys by done.
  rewrite run_bind. unfold pipe1_child. rewrite run_bind.
  destruct (pipe1_child_loop fd1 (seqZ 0 5) 0 buf (Mktape [] [Spipe; SforkMedium; Sclose (i32 (get32 fds 0))] []))
    as [buf' E].
  etransitivity; [apply (f_equal (fun r => then_run (then_run r _) _) E)|]. reflexivity.
Qed.

Lemma sent_app seq n m : 0 <= n -> 0 <= m -> sent seq n ++ sent (seq + n) m = sent seq (n + m).
Proof. intros H1 H2. unfold sent. by rewrite seqZ_app, fmap_app by done. Qed.

Lemma child_output fuel buf fds :
  output (i32 (get32 fds 4)) (t_out (run_tape (pipe1 fuel buf) (child_tape fds)).2) = sent 0 5165.
Proof.
  rewrite pipe1_child_run. cbn [snd t_out fmap list_fmap List.seq]. unfold output.
  rewrite !filter_cons_True by done. rewrite filter_nil. cbn [fmap list_fmap concat snd app].
  rewrite app_nil_r. change (1033 * Z.of_nat 0) with 0. change (1033 * Z.of_nat 1) with (0 + 1033).
  change (1033 * Z.of_nat 2) with (0 + 2066). change (1033 * Z.of_nat 3) with (0 + 3099).
  change (1033 * Z.of_nat 4) with (0 + 4132).
  rewrite !app_assoc, !sent_app by lia. done.
Qed.

(** The parent up to the end of its loop. *)
Lemma pipe1_parent_run fuel buf fds pid pieces :
  0 < pid -> (length pieces < fuel)%nat -> Forall (fun l => l <> []) pieces ->
  exists t e, run_tape (pipe1 fuel buf) (parent_tape fds pid pieces) = (e, t) /\
    output 1 (t_out t) = u8 <$>
      match in_sequence (concat pieces) 0 with
      | None => str (ln "pipe1 oops 2")
      | Some _ =>
          if Z.of_nat (length (concat pieces)) =? 5 * 1033 then str (ln "pipe1 ok")
          else default [] (render (str (ln "pipe1 oops 3 total %d")) false [AInt (Z.of_nat (length (concat pieces)))])
      end.
Proof.
  intros Hpid Hf Hp. unfold pipe1, parent_tape, pipe. cbn [app]. rewrite run_bind, run_sys_bytes by done.
  cbn [run_tape mret prog_ret then_run r_val r_bytes]. rewrite run_fail_if by done.
  rewrite run_sys by done. cbn [r_val]. destruct (Z.eqb_spec pid 0); [lia|]. destruct (Z.ltb_spec 0 pid); [|lia].
  unfold close. rewrite run_sys by done. rewrite run_bind. cbn [app].
  set (fd0 := i32 (get32 fds 0)). set (cs := [Spipe; SforkMedium; Sclose (i32 (get32 fds 4))]).
  destruct (pipe1_loop fd0 pieces fuel 0 0 1 buf [Mkreply 0 []; Mkreply pid []] cs [] Hf Hp) as (counts & buf' & E).
  change (pipe1_read fuel fd0 buf) with (loop fuel (pipe1_turn fd0) (0, 0, 1, buf)). cbn zeta in E.
  destruct (in_sequence (concat pieces) 0) as [seq'|].
  - rewrite E. cbn [then_run]. rewrite Z.add_0_l. destruct (Z.eqb_spec (Z.of_nat (length (concat pieces))) (5 * 1033)) as [Hn|Hn].
    + rewrite run_fail_if by done. rewrite !run_sys by done.
      rewrite run_bind, run_printf by reflexivity. cbn [then_run run_tape mret prog_ret].
      eexists _, _. split; [done|]. by rewrite output_typed.
    + unfold fail_if. cbn [negb]. rewrite !run_bind. unfold printf.
      erewrite printf_renders by reflexivity. cbn [then_run run_tape]. eexists _, _. split; [done|].
      by rewrite output_typed.
  - destruct E as [rs' E]. rewrite E. cbn [then_run run_tape mret prog_ret]. eexists _, _. split; [done|].
    by rewrite output_typed.
Qed.

(** C23: pipe1 reports success exactly when the bytes that its child writes come
    out of the pipe unchanged, in whatever pieces: the child writes 5165 bytes
    that count up, and the parent prints "pipe1 ok" if the pieces it reads, up
    to the end of the file, are those bytes, and something else if not. *)
Theorem pipe1_detects fuel buf fds pid pieces :
  0 < pid -> (length pieces < fuel)%nat -> Forall (fun l => l <> []) pieces -> bytes_ok (concat pieces) ->
  let '(ec, tc) := run_tape (pipe1 fuel buf) (child_tape fds) in
  let '(_, t) := run_tape (pipe1 fuel buf) (parent_tape fds pid pieces) in
  ec = Exited /\
  (output 1 (t_out t) = str (ln "pipe1 ok") <-> concat pieces = output (i32 (get32 fds 4)) (t_out tc)).
Proof.
  intros Hpid Hf Hp Hb. pose proof (child_output fuel buf fds) as Ec.
  pose proof (pipe1_child_run fuel buf fds) as Er.
  destruct (run_tape (pipe1 fuel buf) (child_tape fds)) as [ec tc]. cbn [snd] in Ec. rewrite Ec.
  destruct (pipe1_parent_run fuel buf fds pid pieces Hpid Hf Hp) as (t & e & -> & Eo). rewrite Eo. clear Eo.
  split; [by injection Er|]. rewrite (in_sequence_iff _ 0 Hb). split.
  - case_decide as Hs; [|by intros ?%(f_equal (fun l => l !! 7%nat))].
    destruct (Z.eqb_spec (Z.of_nat (length (concat pieces))) (5 * 1033)) as [Hn|Hn].
    + intros _. by rewrite Hn in Hs.
    + by intros ?%(f_equal (fun l => l !! 7%nat)).
  - intros E. rewrite E. rewrite (length_sent 0 5165) by lia. rewrite decide_True by done. done.
Qed.

Lemma pipe1_detects_witness :
  let fds := [3; 0; 0; 0; 4; 0; 0; 0] in
  let '(ec, tc) := run_tape (pipe1 3 []) (child_tape fds) in
  let '(_, t) := run_tape (pipe1 3 []) (parent_tape fds 7 [[0]; [1; 2]]) in
  ec = Exited /\
  (output 1 (t_out t) = str (ln "pipe1 ok") <-> concat [[0]; [1; 2]] = output 4 (t_out tc)).
Proof.
  apply (pipe1_detects 3 [] [3; 0; 0; 0; 4; 0; 0; 0] 7 [[0]; [1; 2]]); [done|cbn; lia| |];
    repeat constructor; (done || unfold is_u8; lia).
Defined.
