(* ===== verification/System.v ===== *)
(** The whole system on one CPU: user programs, the system calls they make, the
    kernel's scheduler and its interrupts.

    A process is a thread: the kernel code it has still to run, and what its
    program does with the reply of the call it is in.  A system call goes the
    way the stubs of usys.S take it: the arguments are put in user memory, [trap]
    runs on a trap frame with the number in [%eax], and the reply is the value
    left there, with the bytes the kernel has stored.  The scheduler is that of
    proc.c, turn by turn; before a turn, with interrupts enabled, the disk
    interrupts if it has a request and the clock if not.

    The programs are the trees of Ulib.v.  What they compute between calls, and
    the page of code that exec loads, are not in user memory: it holds the
    arguments of their calls. *)
From S2P Require Import Prelude Memory Kernel CString Spinlock Console Sched.
From S2P Require Import Kalloc Ide Bytes Bio Log Inode Vm Umem Tty.
From S2P Require Import Fs File Proc Exec Syscall Sysfile Trap Mkfs FsCheck Driver.
From S2P Require Import Ulib Utils Usertests.

(** ** The arguments of a call *)

(** Where a program has its stack pointer, the bytes that its pointers point to,
    and the buffer for the bytes that it gets. *)
Definition USTACK : Z := 0x100.
Definition UIN : Z := 0x1000.
Definition UOUT : Z := 0x4000.

Definition c_str (s : list Z) : list Z := s ++ [0].

(** The addresses of C strings laid out from [a]. *)
Fixpoint str_addrs (a : Z) (l : list (list Z)) : list Z :=
  match l with
  | [] => []
  | s :: l' => a :: str_addrs (a + Z.of_nat (length s) + 1) l'
  end.

(** The number of a call, the bytes at [UIN], and the words of the arguments. *)
Definition marshal (c : call) : Z * list Z * list Z :=
  match c with
  | Sfork => (1, [], [])
  | Swait => (3, [], [])
  | Spipe => (4, [], [UOUT])
  | Sread fd n => (5, [], [fd; UOUT; n])
  | Skill pid => (6, [], [pid])
  | Sexec path argv =>
      let vec := UIN + Z.of_nat (length path) + 1 in
      let strings := vec + 4 * (Z.of_nat (length argv) + 1) in
      (7, c_str path ++ concat (word_bytes <$> str_addrs strings argv ++ [0]) ++ concat (c_str <$> argv), [UIN; vec])
  | Sfstat fd => (8, [], [fd; UOUT])
  | Schdir path => (9, c_str path, [UIN])
  | Sdup fd => (10, [], [fd])
  | Sgetpid => (11, [], [])
  | Ssbrk n => (12, [], [n])
  | Ssleep n => (13, [], [n])
  | Suptime => (14, [], [])
  | Sopen path mode => (15, c_str path, [UIN; mode])
  | Swrite fd l => (16, l, [fd; UIN; Z.of_nat (length l)])
  | Smknod path major minor => (17, c_str path, [UIN; major; minor])
  | Sunlink path => (18, c_str path, [UIN])
  | Slink old new => (19, c_str old ++ c_str new, [UIN; UIN + Z.of_nat (length old) + 1])
  | Smkdir path => (20, c_str path, [UIN])
  | Sclose fd => (21, [], [fd])
  | SswitchDebug => (22, [], [])
  | SpidInfo pid => (23, [], [pid])
  | SforkLowest => (24, [], [])
  | SforkLow => (25, [], [])
  | SforkMedium => (26, [], [])
  | SforkHigh => (27, [], [])
  | SforkHighest => (28, [], [])
  end.

(** How many bytes a call that returns [v] has stored at [UOUT]. *)
Definition stored (c : call) (v : Z) : Z :=
  match c with
  | Sread _ _ => Z.max 0 v
  | Spipe => 8
  | Sfstat _ => 20
  | _ => 0
  end.

Definition is_fork (c : call) : bool :=
  match c with
  | Sfork | SforkLowest | SforkLow | SforkMedium | SforkHigh | SforkHighest => true
  | _ => false
  end.

(** ** Processes *)

Definition SYS_exit : Z := 2.
Definition T_PGFLT : Z := 14.

Section system.
Context {E : Env} {I : Image}.

(** The running process traps: the processor and alltraps build the frame at the
    top of its kernel stack. *)
Definition user_trap (trapno eax : Z) : K Z :=
  cur ← deref_proc;
  tf ← gets (fun s => p_kstack (proc_at s cur) + KSTACKSIZE - tf_size);
  set_mem (fun m => store32 m (tf + tf_trapno) trapno);;
  set_mem (fun m => store32 m (tf + tf_eax) eax);;
  set_mem (fun m => store32 m (tf + tf_esp) USTACK);;
  set_mem (fun m => store16 m (tf + tf_cs) (Z.lor (Z.shiftl SEG_UCODE 3) DPL_USER));;
  trap no_event tf;;
  gets (fun s => i32 (load32 (k_mem s) (tf + tf_eax))).

Definition user_call (c : call) : K reply :=
  let '(num, data, args) := marshal c in
  uwrite UIN data;;
  uwrite USTACK (concat (word_bytes <$> 0 :: args));;
  v ← user_trap T_SYSCALL num;
  l ← uread UOUT (Z.to_nat (stored c v));
  mret (Mkreply v l).

(** [th_forks] says whether the call creates a process. *)
Record thread := Mkthread {
  th_forks : bool;
  th_code : K reply;
  th_cont : reply -> prog unit;
}.

Definition threads := gmap nat thread.

(** The program [p] at its next call.  One that has ended or faulted traps, and
    the kernel ends it. *)
Definition user_thread (p : prog unit) : thread :=
  match p with
  | Sys c k => Mkthread (is_fork c) (user_call c) k
  | Fault => Mkthread false (v ← user_trap T_PGFLT 0; mret (Mkreply v [])) (fun _ => Fault)
  | _ => Mkthread false (v ← user_trap T_SYSCALL SYS_exit; mret (Mkreply v [])) (fun _ => Exit)
  end.

(** A process that has not run yet: it starts in [forkret], and its fork then
    returns 0. *)
Definition new_thread (k : reply -> prog unit) : thread :=
  Mkthread false (forkret;; mret (Mkreply 0 [])) k.

(** A fork that has returned a pid has made a thread in the slot with that pid. *)
Definition spawn (t : thread) (r : reply) (s : kernel) (ths : threads) : threads :=
  if th_forks t && (0 <? r_val r) then
    match find_first (fun p => p_pid p =? r_val r) (k_ptable s) with
    | Some j => <[j := new_thread (th_cont t)]> ths
    | None => ths
    end
  else ths.

(** ** The CPU *)

(** What a part of a run leads to: the kernel and the threads; the end of the
    first process's program; or a stop, with the message of a panic. *)
Inductive outcome :=
| Running (s : kernel) (ths : threads)
| Finished (e : ending unit) (s : kernel)
| Stopped (msg : string).

(** How the program of process [i] has ended, where the run ends with it. *)
Definition ended (i : nat) (p : prog unit) : option (ending unit) :=
  match p with
  | Done _ => if decide (i = 0%nat) then Some (Returned tt) else None
  | Exit => if decide (i = 0%nat) then Some Exited else None
  | Again => Some Unfinished
  | _ => None
  end.

(** Process [i] runs until it switches to the scheduler. *)
Fixpoint run_thread (calls : nat) (i : nat) (t : thread) (s : kernel) (ths : threads) : outcome :=
  match calls with
  | O => Stopped "calls"
  | S calls' =>
      match th_code t s with
      | Ok r s1 =>
          match ended i (th_cont t r) with
          | Some e => Finished e s1
          | None => run_thread calls' i (user_thread (th_cont t r)) s1 (spawn t r s1 ths)
          end
      | Swtch s1 code => Running s1 (<[i := Mkthread (th_forks t) code (th_cont t)]> ths)
      | Panic msg => Stopped msg
      | _ => Stopped "thread"
      end
  end.

(** Scheduler code runs; where it switches, the process it has chosen does. *)
Fixpoint run_turn (switches calls : nat) (code : K unit) (s : kernel) (ths : threads) : outcome :=
  match switches with
  | O => Stopped "switches"
  | S switches' =>
      match code s with
      | Ok _ s1 => Running s1 ths
      | Swtch s1 code' =>
          match i ← curproc s1; t ← ths !! i; Some (i, t) with
          | Some (i, t) =>
              match run_thread calls i t s1 ths with
              | Running s2 ths2 => run_turn switches' calls code' s2 ths2
              | r => r
              end
          | None => Stopped "no thread"
          end
      | Panic msg => Stopped msg
      | _ => Stopped "scheduler"
      end
  end.

(** One turn of the loop that [scheduler] chooses. *)
Definition scheduler_turn : K unit :=
  rr ← gets k_isRoundRobin;
  if c_true rr then rr_round else stride_round.

(** The interrupt before a turn, on a frame of the scheduler's stack. *)
Definition interrupt (ktf : Z) : K unit :=
  q ← gets k_idequeue;
  let trapno := match q with Some _ => T_IRQ0 + IRQ_IDE | None => T_IRQ0 + IRQ_TIMER end in
  set_mem (fun m => store32 m (ktf + tf_trapno) trapno);;
  set_mem (fun m => store16 m (ktf + tf_cs) (Z.shiftl 1 3));;
  trap no_event ktf.

Fixpoint run_system (turns switches calls : nat) (ktf : Z) (s : kernel) (ths : threads) : outcome :=
  match turns with
  | O => Running s ths
  | S turns' =>
      match interrupt ktf s with
      | Ok _ s1 =>
          match run_turn switches calls scheduler_turn s1 ths with
          | Running s2 ths2 => run_system turns' switches calls ktf s2 ths2
          | r => r
          end
      | _ => Stopped "interrupt"
      end
  end.
End system.

(** ** A machine *)

(** Disk 0 has 32 blocks, each filled with its own byte, for the boot block and
    the kernel; disk 1 has the file system that mkfs builds with two files. *)
Definition boot_disk_block (b : Z) : list Z := replicate 512 (128 + b).

Definition machine_fs : mkfs :=
  default (Mkmkfs ∅ 0 0) (mkfs_main [(str "_echo", str "echo"); (str "README", str "xv6")]).

Definition machine_disk : gmap (Z * Z) (list Z) :=
  foldr (fun b => <[(0, b) := boot_disk_block b]>) (image_disk machine_fs) (seqZ 0 32).

(** The page directory of the first process is at physical address 4096; it maps
    eight pages. *)
Definition machine_mem : memory :=
  foldl (fun m i => store32 m (p2v 8192 + 4 * i) (65536 + 4096 * i + 7)) (store32 ∅ (p2v 4096) (8192 + 7)) (seqZ 0 8).

Definition first_proc : proc :=
  proc0 <| p_sz := 32768 |> <| p_pgdir := p2v 4096 |> <| p_kstack := p2v 0x40000 |> <| p_state := RUNNABLE |>
    <| p_pid := 1 |> <| p_tickets := 300 |> <| p_stride := 33 |> <| p_limitpass := 33 |>.

(** The kernel when [scheduler] starts, with isRoundRobin as in [rr]; its output
    goes to the serial port. *)
Definition machine_start (rr : Z) : kernel :=
  let s := kernel0 <| k_disk := machine_disk |> <| k_mem := machine_mem |> <| k_isRoundRobin := rr |>
    <| k_ptable ::= <[0%nat := first_proc]> |> <| k_havedisk1 := 1 |>
    <| k_cons ::= fun c => c <| co_uart := 1 |> |> in
  match (binit;; cwd ← iget ROOTDEV 1; set_proc 0 (fun p => p <| p_cwd := Some cwd |>)) s with
  | Ok _ s1 => s1
  | _ => s
  end.

Definition machine_env : Env := ide_env 2.
Definition machine_image : Image :=
  {| trapret_addr := 0; forkret_addr := 0; initcode_start := 0; initcode_size := 0 |}.
#[local] Existing Instance machine_env.
#[local] Existing Instance machine_image.

(** A run with [p] as the program of the first process. *)
Definition run_first (rr : Z) (p : prog unit) : outcome :=
  run_system 2000 200 2000 (p2v 0x50000) (machine_start rr) {[0%nat := new_thread (fun _ => p)]}.

(** What a run that has ended printed. *)
Definition printed_by (r : outcome) : option (ending unit * list Z) :=
  match r with
  | Finished e s => Some (e, co_serial (k_cons s))
  | _ => None
  end.

(** Tests of usertests.c that do not fork, in two runs. *)
Definition name_tests : prog unit :=
  init_console;;
  opentest;;
  rmdot;;
  fourteen;;
  dirfile.

Definition link_tests : prog unit :=
  let buf := replicate (Z.to_nat BUFSZ) 0 in
  init_console;;
  buf ← subdir buf;
  buf ← linktest buf;
  _ ← unlinkread buf;
  mret tt.

Definition lines (l : list string) : list Z := concat ((fun s => str (ln s)) <$> l).


(** ** The log under the stride scheduler *)

Fixpoint same_bytes (l l' : list Z) : bool :=
  match l, l' with
  | [], [] => true
  | x :: l, y :: l' => (x =? y) && same_bytes l l'
  | _, _ => false
  end.

Lemma same_bytes_eq l l' : same_bytes l l' = true <-> l = l'.
Proof.
  revert l'; induction l as [|x l IH]; intros [|y l']; cbn; try done.
  rewrite andb_true_iff, Z.eqb_eq, IH. split; [by intros [-> ->]|by intros [= -> ->]].
Qed.

(** The blocks of drive [dev] that differ. *)
Definition changed_blocks (dev : Z) (k k' : gmap (Z * Z) (list Z)) : list Z :=
  base.filter (fun b => same_bytes (dblock k dev b) (dblock k' dev b) = false) (seqZ 0 FSSIZE).

(** A run of init's set-up of the console: how it ends, the blocks of the two
    drives that it has changed, and blocks 0, 1 and 29 of the boot disk. *)
Definition console_run (rr : Z) : option (ending unit * list Z * list Z * list (list Z)) :=
  match run_first rr init_console with
  | Finished e s =>
      Some (e, changed_blocks 0 machine_disk (k_disk s), changed_blocks 1 machine_disk (k_disk s),
            dblock (k_disk s) 0 <$> [0; 1; 29])
  | _ => None
  end.

